(* ===== verification/_CoqProject ===== *)
-Q . S2P
Prelude.v
Encoding.v
Bitops.v
Cstring.v
Locks.v
Fifo.v
Machine.v
Format.v
Platform.v
Console.v
Scratch.v
Asm.v
Hart.v
Hsm.v
Tlb.v
Ipi.v
Timer.v
Trap.v
Unpriv.v
Misaligned.v
Emulate.v
System.v
Ecall.v
Handler.v
Init.v
FwBase.v
FwStep.v
FwTrap.v
FwReloc.v
FwBoot.v
FwScratch.v
Serial.v
Clint.v
Plic.v
Htif.v
Crc.v
Sdboot.v
Smp.v
Fdt.v
FwFdt.v
FdtTag.v
FdtTree.v
FdtImage.v
FdtEncode.v
FdtHelper.v
FdtRw.v
FdtEdit.v
FdtSw.v
FdtWrite.v
FdtPath.v
FdtFixup.v
FdtReserved.v
FdtDrivers.v
Generic.v
