(* ===== verification/Prelude.v ===== *)
(** * Verification of the boot chain of chipyard-zcu102

    The repository builds a RISC-V system on a ZCU102 board.  Three programs run
    one after the other when the board is switched on: the SD-card boot loader
    in the boot ROM (fpga/src/main/resources/zcu102/sdboot), the machine-mode
    firmware it loads (OpenSBI, software/firemarshal/boards/default/firmware/
    opensbi), and the operating system the firmware starts and then serves.
    This library models the first two, function by function, and proves what
    the next program relies on.  Paths below are relative to the OpenSBI
    directory or to sdboot.

    ** Method

    Every C function is a Rocq definition of the same name; a comment says so
    where a name had to change.  C integers are [Z] with the wrap-around of
    their width written out ([u8], [u16], [u32], [u64], [s32], [s64] below).
    Pure routines are functions; undefined behaviour (reading past an object,
    dividing by zero, a missing variadic argument) is [None].  Code with effects
    is written in one of these monads:
    - [Machine.M] for the firmware: a state [st] (control registers of every
      hart, firmware memory by address, queues, file-level variables, device
      accesses in order, emitted fences, console output, the memory of the
      interrupted program) and the ways control can leave a function ([Exit]:
      hang, mode switch, wait that did not end, undefined behaviour);
    - [Sdboot.SD] for the loader: the bytes still to come from the card, the
      payload memory and the trace of device accesses;
    - [FwBase.A] for the assembly of the firmware: the general registers on top
      of [Machine.M], one definition per instruction and per label, a label
      being the computation that starts there;
    - [option] for the code that reads a device tree, a blob of bytes ([None]: a
      read outside it), [FdtRw.RW] for the code that edits or writes one, on the
      memory from the blob on, and [FdtFixup.FM] for edits by a running hart.
    Interleavings of several harts are step relations, with invariants by rule
    induction: the spin lock (Locks), hart start and stop (Hsm), the hand-over
    of the boot hart (Init) and the release of the harts by the loader (Smp).

    What lies outside the sources is an argument with named laws:
    - [Machine.Hardware]: which CSRs exist, how they round what is written,
      what devices answer, what other harts do while this one waits;
    - [Platform.Platform]: the operation table of the board;
    - [Unpriv.Mmu]: which accesses of the interrupted program fault;
    - [Sdboot.Board]: when the UART takes a character;
    - [FwBase.Image], [FwBase.CRuntime]: the addresses that the linker gives to
      the labels, and what a call of compiled code leaves in the registers that
      the caller saves; [FwBase.Variant] is what fw_jump.S, fw_payload.S and
      fw_dynamic.S each define, with the laws [FwScratch.VariantOk];
    - [Ipi.QuietIpi], [Clint.Clock], [Serial.SerialDriver]: what one component
      promises another (the platform's interrupt sender, a running counter, a
      console driver); Clint and Serial prove the promises of the drivers.

    ** Files

    - Prelude: machine integers, lists, tactics.  Encoding: riscv_encoding.h,
      sbi_ecall_interface.h, sbi_error.h.
    - Bitops: include/sbi/sbi_bitops.h, sbi_bitmap.h, sbi_hartmask.h,
      lib/sbi/sbi_bitops.c, sbi_bitmap.c, sbi_math.c.  Cstring: sbi_string.c.
      Locks: riscv_locks.c.  Fifo: sbi_fifo.c.
    - Machine: riscv_asm.h, riscv_io.h, sbi_csr_detect.h, riscv_atomic.c.
      Platform: sbi_platform.h, sbi_platform.c.  Format and Console:
      sbi_console.c.  Scratch: sbi_scratch.h, sbi_scratch.c.
    - Asm: riscv_asm.c.  Hart: sbi_hart.c.  Hsm: sbi_hsm.c.  Tlb: sbi_tlb.c.
      Ipi: sbi_ipi.c.  Timer: sbi_timer.c.  Trap and Handler: sbi_trap.c.
      Unpriv: sbi_unpriv.c.  Misaligned: sbi_misaligned_ldst.c, riscv_fp.h.
      Emulate: sbi_emulate_csr.c, sbi_illegal_insn.c.  System: sbi_system.c and
      [sbi_exit].  Ecall: sbi_ecall*.c.  Init: sbi_init.c.
    - FwBase: firmware/fw_base.S, fw_jump.S, fw_payload.S, fw_dynamic.S.  FwStep:
      running them.  FwTrap: the trap entry.  FwReloc: the relocation and the
      harts that wait for it.  FwBoot: [_start_warm].  FwScratch: the scratch
      areas.  FwFdt: the copy of the device tree, and a run from reset.
    - Serial: lib/utils/serial/uart8250.c, sifive-uart.c, shakti-uart.c.
      Clint: lib/utils/sys/clint.c.  Plic: lib/utils/irqchip/plic.c.  Htif:
      lib/utils/sys/htif.c, sifive_test.c.
    - Fdt: lib/utils/libfdt/fdt.c, fdt_ro.c, fdt_addresses.c.  FdtTag: safety on
      any bytes.  FdtTree: the readers on a blob that holds a tree.  FdtImage:
      the format of a blob.  FdtEncode: the blob of a tree and what is read from
      it.  FdtHelper: lib/utils/fdt/fdt_helper.c.
    - FdtRw: lib/utils/libfdt/fdt_rw.c, fdt_wip.c.  FdtEdit: the editors on a
      blob that holds a tree.  FdtSw: fdt_sw.c, fdt_empty_tree.c.  FdtWrite: what
      has been written is what is read.  FdtPath: the rest of fdt_ro.c and
      fdt_addresses.c, fdt_strerror.c.  FdtFixup and FdtReserved:
      lib/utils/fdt/fdt_fixup.c.
    - FdtDrivers: the fdt_* files of lib/utils/ipi, timer, irqchip, serial and
      reset.  Generic: platform/generic/platform.c, sifive_fu540.c.
    - Crc and Sdboot: sdboot/sd.c, kprintf.c, kprintf.h, head.S.  Smp:
      sdboot/include/smp.h with head.S.

    ** What is proved

    - The loader: a card that comes up and sends the payload boots, with exactly
      the payload in memory ([sd_main_boots]); whatever the card sends, success
      means that every sector matched its checksum ([sd_main_sound]); the
      checksum is the CRC-16 of the SD specification and refuses every burst of
      up to sixteen wrong bits; a command always ends.  No hart leaves for the
      payload before all have been released, and all are.
    - Shared data: the FIFO refines a bounded queue; the spin lock excludes;
      scratch allocations are disjoint, for sizes that are not within a page of
      2^64 ([scratch_alloc_wraps] shows why); a hart mask is visited exactly; memmove
      is a parallel copy; decimal output reads back as the number.
    - Entry: the firmware moves itself to its linked address without overwriting
      what is in use, or stops ([relocate_correct]); the other harts go on when
      the boot hart is done and not before; every hart finds its scratch area
      where the C code looks for it, filled in; the device tree is copied
      in whole words, all of them the same and no others changed, to a place
      that is aligned and not inside it; a run from reset reaches the next stage ([firmware_boots]).  A
      timer interrupt leaves no trace in the interrupted program
      ([trap_timer_transparent]).
    - Protection: after [pmp_init] lower modes are refused exactly in the block
      around the firmware; an entry set is the region asked for and reads back.
    - Harts: start, stop, exit and wait keep the state cell in step with what
      the hart does, in every interleaving; no wake-up of a waiting hart is
      lost; the switch to supervisor mode leaves the registers as required.
    - Services: dispatch, registration and return of SBI calls, with the errors
      and faults of each ([sbi_ecall_handler_returns]); interrupts to exactly the
      harts of a mask; remote fences queued or merged so that every waiting hart
      is answered and every range that ends inside the address space is flushed
      ([sbi_tlb_update_serves]; the other requests can be lost); traps
      redirected as the architecture requires; misaligned accesses emulated
      with the bytes in memory, and exactly when a load does what the
      architecture asks for ([misaligned_load_value]); a timer interrupt handed to supervisor mode with
      nothing else changed; the trap handler returns only from what it handled.
    - Devices: what reaches the registers of CLINT, PLIC and UARTs, and that the
      drivers keep the contracts their callers rely on; the 8250 driver does not
      mask what it reads, so for wide registers this needs a device whose upper
      bits read as zero ([byte_registers]).
    - Device tree, reading: no walk leaves the blob, whatever its bytes; a blob
      that holds a tree gives back its nodes, properties, paths, compatible
      nodes, addresses and harts, and the blob written for a tree gives the
      tree back.  The path of a node is the full names of the nodes on the way, and
      leads to the node ([fdt_get_path_canonical]).
      The harts of the generic platform are those of the tree, and
      its interrupts reach the device the tree connects them to.
    - Device tree, editing: the blob is refined to the tree it holds.  Setting
      or deleting a property and adding a node do that to the tree, and fail for
      lack of space exactly when the result does not fit, leaving the tree as it
      was.  The fixups disable exactly the harts that the platform does not
      have, take out exactly the machine-mode interrupts, and list as reserved
      exactly the memory that [pmp_init] has closed ([pmp_init_reserved]).
    - Device tree, writing: a tree written from front to back into any buffer is
      read back, with the reserved regions, or there was not enough space, which
      is reported, or missed when a property has a name of 64 characters or more;
      nothing behind the buffer changes ([write_tree_reads]).  A property that
      is reported not to fit leaves what was written before
      ([FdtSw.write_prop]).
    Theorems that show where the code departs from what its comments or the
    architecture say are next to the component they concern ([sbi_strnlen_half],
    [tlb_merge_loses_full_flush], [tlb_merge_loses_last_page],
    [scratch_alloc_wraps], [misaligned_lw_zero_extended],
    [uart8250_getc_wide], [start_warm_invalid_hart], [add_string_outside], [fdt_get_path_underflow],
    ...).

    ** Bounds and fuel

    A wait loop on something that others change ([Machine.poll]) looks at most
    [polls] times, an arbitrary number of the hardware parameter, and ends in
    [Exit XSpin]; theorems that a routine returns name the turn in which the
    condition holds.  Loops with a bound of their own run to it: 64 for the bit
    loops, [log2roundup] and the count of trailing zeros, the length of the
    format for [print], the width of the number for digits, the last hart id for
    loops over harts, and the number of set bits for masks; lemmas next to them
    show that the bound is never the reason they stop.  In the loader every turn
    of a loop consumes a byte of the finite input, so the input is the fuel, and
    running out of it is the outcome [More], distinct from returning.  The copy
    loops of the entry code have the distance to their end in bytes as fuel and
    move eight at a time, below address 2^63 where its signed comparisons are
    right.  The loops
    of the device-tree library have the length of the blob as fuel, more than
    the tags or entries there can be; on a blob that holds a tree they return.
    A blob is below 2^31 - 8 bytes, the range of the C offsets.

    ** Not modelled

    - The parts of firmware/*.S for 32-bit harts, and the binary files that they
      include; the linker script, which is the class [FwBase.Image].
    - lib/utils/libfdt/fdt_overlay.c: libfdt/objects.mk leaves it out of the
      build, and it calls strtoul, which the firmware does not have.
    - The other boards under platform/: tables that instantiate the platform
      interface.
    - riscv-pk: an alternative to OpenSBI that the board does not use.
    - The part of Linux in the tree, which is the payload; the FPGA shells, which
      describe hardware.
    - Timing, caches, weak memory ordering: fences and barriers are recorded or
      dropped, and accesses of different harts interleave at the granularity of
      the steps above. *)

From stdpp Require Export base list list_numbers numbers gmap strings.
From Stdlib Require Export ZArith Lia.
From Stdlib Require Ascii.

Declare Scope c_scope.
Delimit Scope c_scope with c.
#[global] Open Scope Z_scope.

#[global] Arguments Z.eqb : simpl nomatch.
#[global] Arguments Z.ltb : simpl nomatch.
#[global] Arguments Z.leb : simpl nomatch.

(** * Fixed-width integers

    Every C integer is a [Z].  An unsigned [w]-bit result is the value modulo
    [2^w]; a signed one is the representative in [-2^(w-1), 2^(w-1)). *)

Definition wrap (w x : Z) : Z := x mod 2 ^ w.
Definition u8 (x : Z) : Z := wrap 8 x.
Definition u16 (x : Z) : Z := wrap 16 x.
Definition u32 (x : Z) : Z := wrap 32 x.
Definition u64 (x : Z) : Z := wrap 64 x.

Definition signed (w x : Z) : Z :=
  let y := wrap w x in if y <? 2 ^ (w - 1) then y else y - 2 ^ w.
Definition s32 (x : Z) : Z := signed 32 x.
Definition s64 (x : Z) : Z := signed 64 x.

(** Bitwise complement of an [unsigned long]. *)
Definition not64 (x : Z) : Z := u64 (Z.lnot x).

(** Shifts of an [unsigned long]. *)
Definition shl64 (x n : Z) : Z := u64 (Z.shiftl x n).
Definition shr64 (x n : Z) : Z := Z.shiftr x n.

(** C truth value of an integer. *)
Definition nz (x : Z) : bool := negb (x =? 0).

Notation "x .& y" := (Z.land x y) (at level 40, left associativity) : c_scope.
Notation "x .| y" := (Z.lor x y) (at level 45, left associativity) : c_scope.
Notation "x .^ y" := (Z.lxor x y) (at level 43, left associativity) : c_scope.
Notation "x >>u n" := (shr64 x n) (at level 39, left associativity) : c_scope.
Notation "x <<u n" := (shl64 x n) (at level 39, left associativity) : c_scope.
#[global] Open Scope c_scope.

(** A value that fits an unsigned type of the given width. *)
Definition fits (w x : Z) : Prop := 0 <= x < 2 ^ w.

(** * Bit-level reasoning *)

Create Rewrite HintDb bits.
Create HintDb fits discriminated.

Lemma wrap_small w x : fits w x -> wrap w x = x.
Proof. unfold fits, wrap. intros. by apply Z.mod_small. Qed.

Lemma signed_small w x : 0 < w -> - 2 ^ (w - 1) <= x < 2 ^ (w - 1) -> signed w x = x.
Proof.
  intros Hw Hx. unfold signed, wrap. assert (E : 2 ^ w = 2 * 2 ^ (w - 1)).
  { rewrite <- Z.pow_succ_r by lia. f_equal. lia. }
  rewrite E. destruct (decide (0 <= x)).
  - rewrite Z.mod_small by lia. destruct (Z.ltb_spec x (2 ^ (w - 1))); lia.
  - rewrite <- (Z.mod_add x 1) by lia. rewrite Z.mod_small by lia.
    destruct (Z.ltb_spec (x + 1 * (2 * 2 ^ (w - 1))) (2 ^ (w - 1))); lia.
Qed.

Lemma s32_small x : - 2 ^ 31 <= x < 2 ^ 31 -> s32 x = x.
Proof. by apply (signed_small 32). Qed.
Lemma s64_small x : - 2 ^ 63 <= x < 2 ^ 63 -> s64 x = x.
Proof. by apply (signed_small 64). Qed.

Lemma wrap_fits w x : 0 <= w -> fits w (wrap w x).
Proof. intros. unfold fits, wrap. apply Z.mod_pos_bound, Z.pow_pos_nonneg; lia. Qed.

Lemma wrap_wrap w x : 0 <= w -> wrap w (wrap w x) = wrap w x.
Proof. intros. by apply wrap_small, wrap_fits. Qed.

Lemma testbit_wrap w x i : 0 <= w -> Z.testbit (wrap w x) i = (i <? w) && Z.testbit x i.
Proof.
  intros Hw. unfold wrap. destruct (Z.ltb_spec i w) as [Hi|Hi]; simpl.
  - destruct (decide (0 <= i)).
    + by apply Z.mod_pow2_bits_low.
    + rewrite !Z.testbit_neg_r by lia. done.
  - apply Z.mod_pow2_bits_high. lia.
Qed.

Lemma testbit_u64 x i : Z.testbit (u64 x) i = (i <? 64) && Z.testbit x i.
Proof. by apply testbit_wrap. Qed.
Lemma testbit_u32 x i : Z.testbit (u32 x) i = (i <? 32) && Z.testbit x i.
Proof. by apply testbit_wrap. Qed.
Lemma testbit_u16 x i : Z.testbit (u16 x) i = (i <? 16) && Z.testbit x i.
Proof. by apply testbit_wrap. Qed.
Lemma testbit_u8 x i : Z.testbit (u8 x) i = (i <? 8) && Z.testbit x i.
Proof. by apply testbit_wrap. Qed.

Lemma testbit_lnot x i : Z.testbit (Z.lnot x) i = (0 <=? i) && negb (Z.testbit x i).
Proof.
  destruct (Z.leb_spec 0 i).
  - rewrite Z.lnot_spec by lia. done.
  - by rewrite Z.testbit_neg_r by lia.
Qed.

Lemma testbit_shiftl x n i : Z.testbit (Z.shiftl x n) i = (0 <=? i) && Z.testbit x (i - n).
Proof.
  destruct (Z.leb_spec 0 i).
  - by rewrite Z.shiftl_spec by lia.
  - by rewrite Z.testbit_neg_r by lia.
Qed.

Lemma testbit_shiftr x n i : 0 <= i -> Z.testbit (Z.shiftr x n) i = Z.testbit x (i + n).
Proof. intros. by rewrite Z.shiftr_spec by lia. Qed.

Lemma testbit_fits w x i : fits w x -> 0 <= w <= i -> Z.testbit x i = false.
Proof.
  intros Hx Hi. rewrite <- (wrap_small w x Hx). rewrite testbit_wrap by lia.
  destruct (Z.ltb_spec i w); [lia|done].
Qed.

Lemma testbit_pow2 n i : 0 <= n -> Z.testbit (2 ^ n) i = (i =? n).
Proof. intros. rewrite Z.pow2_bits_eqb by lia. by rewrite Z.eqb_sym. Qed.

(** A value all of whose bits at or above [w] are clear fits in [w] bits. *)
Lemma fits_of_bits w x :
  0 <= w -> 0 <= x -> (forall i, w <= i -> Z.testbit x i = false) -> fits w x.
Proof.
  intros Hw Hx Hb. split; [done|]. destruct (decide (x = 0)) as [->|Hnz].
  { apply Z.pow_pos_nonneg; lia. }
  apply Z.log2_lt_pow2; [lia|]. apply Z.nle_gt. intros Hle.
  specialize (Hb (Z.log2 x) Hle). rewrite Z.bit_log2 in Hb by lia. done.
Qed.

Lemma fits_u64 x : fits 64 (u64 x).   Proof. by apply wrap_fits. Qed.
Lemma fits_u32 x : fits 32 (u32 x).   Proof. by apply wrap_fits. Qed.
Lemma fits_u16 x : fits 16 (u16 x).   Proof. by apply wrap_fits. Qed.
Lemma fits_u8 x : fits 8 (u8 x).      Proof. by apply wrap_fits. Qed.
Lemma fits_0 w : 0 <= w -> fits w 0.
Proof. intros. split; [lia|]. apply Z.pow_pos_nonneg; lia. Qed.

Lemma fits_land w x y : fits w x -> 0 <= w -> fits w (x .& y).
Proof.
  intros Hx Hw. apply fits_of_bits; [done| |].
  - apply Z.land_nonneg. unfold fits in Hx. lia.
  - intros i Hi. rewrite Z.land_spec, (testbit_fits w x) by (done || lia). done.
Qed.

Lemma fits_lor w x y : fits w x -> fits w y -> 0 <= w -> fits w (x .| y).
Proof.
  intros Hx Hy Hw. apply fits_of_bits; [done| |].
  - apply Z.lor_nonneg. unfold fits in *. lia.
  - intros i Hi. rewrite Z.lor_spec, (testbit_fits w x), (testbit_fits w y) by (done || lia). done.
Qed.

Lemma fits_lxor w x y : fits w x -> fits w y -> 0 <= w -> fits w (x .^ y).
Proof.
  intros Hx Hy Hw. apply fits_of_bits; [done| |].
  - apply Z.lxor_nonneg. unfold fits in *. lia.
  - intros i Hi. rewrite Z.lxor_spec, (testbit_fits w x), (testbit_fits w y) by (done || lia). done.
Qed.

Lemma fits_shiftr w x n : fits w x -> 0 <= w -> 0 <= n -> fits w (Z.shiftr x n).
Proof.
  intros Hx Hw Hn. apply fits_of_bits; [done| |].
  - apply Z.shiftr_nonneg. unfold fits in Hx. lia.
  - intros i Hi. rewrite Z.shiftr_spec by lia. apply (testbit_fits w); [done|lia].
Qed.

#[export] Hint Resolve fits_u64 fits_u32 fits_u16 fits_u8 fits_0
  fits_land fits_lor fits_lxor fits_shiftr wrap_fits : fits.
#[export] Hint Extern 2 (_ <= _) => lia : fits.
#[export] Hint Extern 2 (_ < _) => lia : fits.

#[export] Hint Rewrite testbit_u64 testbit_u32 testbit_u16 testbit_u8
  Z.land_spec Z.lor_spec Z.lxor_spec testbit_lnot testbit_shiftl
  Z.testbit_0_l : bits.
#[export] Hint Rewrite testbit_shiftr testbit_wrap Z.testbit_ones testbit_pow2
  using lia : bits.
#[export] Hint Rewrite andb_true_r andb_false_r orb_true_r orb_false_r
  xorb_false_r xorb_true_r : bits.

(** Decide the comparisons left in a bit goal, one at a time. *)
Ltac bool_cases :=
  repeat match goal with
  | |- context [?a <? ?b] => destruct (Z.ltb_spec a b); simpl; try lia
  | |- context [?a <=? ?b] => destruct (Z.leb_spec a b); simpl; try lia
  | |- context [?a =? ?b] => destruct (Z.eqb_spec a b); simpl; try lia
  | H : context [?a <? ?b] |- _ => destruct (Z.ltb_spec a b); simpl in H; try lia
  | H : context [?a <=? ?b] |- _ => destruct (Z.leb_spec a b); simpl in H; try lia
  | H : context [?a =? ?b] |- _ => destruct (Z.eqb_spec a b); simpl in H; try lia
  end.

(** Prove an equality of integers bit by bit. *)
Ltac bit_ext i :=
  apply Z.bits_inj'; intros i ?; unfold not64, shl64, shr64;
  autorewrite with bits.

Lemma ones_nonneg n : 0 <= n -> 0 <= Z.ones n.
Proof. intros. rewrite Z.ones_equiv. pose proof (Z.pow_pos_nonneg 2 n). lia. Qed.

(** Clearing the low [k] bits rounds down to a multiple of [2^k]. *)
Lemma land_not_ones x k :
  fits 64 x -> 0 <= k <= 64 -> x .& not64 (Z.ones k) = 2 ^ k * (x / 2 ^ k).
Proof.
  intros Hx Hk. rewrite Z.mul_comm, <- Z.shiftl_mul_pow2, <- Z.shiftr_div_pow2 by lia.
  bit_ext i. bool_cases; autorewrite with bits.
  - by rewrite Z.testbit_neg_r by lia.
  - f_equal; lia.
  - by rewrite (testbit_fits 64) by (done || lia).
Qed.

(** A word split at bit [n]. *)
Lemma land_high_low q r n : 0 <= n -> fits n r -> (2 ^ n * q) .& r = 0.
Proof.
  intros Hn Hr. apply Z.bits_inj'. intros i Hi. rewrite Z.land_spec, Z.testbit_0_l.
  rewrite Z.mul_comm, <- Z.shiftl_mul_pow2 by done. rewrite Z.shiftl_spec by done.
  destruct (decide (i < n)).
  - by rewrite Z.testbit_neg_r by lia.
  - rewrite (testbit_fits n r) by (done || lia). by rewrite andb_false_r.
Qed.

Lemma lor_high_low q r n : 0 <= n -> fits n r -> (2 ^ n * q) .| r = 2 ^ n * q + r.
Proof.
  intros Hn Hr. pose proof (Z.add_lor_land (2 ^ n * q) r) as H. rewrite land_high_low in H by done. lia.
Qed.

Lemma testbit_high_low q r n i :
  0 <= n -> fits n r -> 0 <= i ->
  Z.testbit (2 ^ n * q + r) i = if i <? n then Z.testbit r i else Z.testbit q (i - n).
Proof.
  intros Hn Hr Hi. rewrite <- lor_high_low by done. rewrite Z.lor_spec.
  rewrite Z.mul_comm, <- Z.shiftl_mul_pow2, Z.shiftl_spec by done.
  destruct (Z.ltb_spec i n).
  - by rewrite Z.testbit_neg_r by lia.
  - rewrite (testbit_fits n r) by (done || lia). by rewrite orb_false_r.
Qed.

Lemma fits_pow2_pred n k : 0 <= n <= k -> fits k (2 ^ n - 1).
Proof.
  intros. pose proof (Z.pow_pos_nonneg 2 n). pose proof (Z.pow_le_mono_r 2 n k). unfold fits. lia.
Qed.

Lemma nz_true x : nz x = true <-> x <> 0.
Proof. unfold nz. destruct (Z.eqb_spec x 0); naive_solver. Qed.
Lemma nz_false x : nz x = false <-> x = 0.
Proof. unfold nz. destruct (Z.eqb_spec x 0); naive_solver. Qed.

(** * Sequences of integers *)

Lemma fmap_seqZ_ext {A} (g h : Z -> A) lo n :
  (forall k, lo <= k < lo + n -> g k = h k) -> g <$> seqZ lo n = h <$> seqZ lo n.
Proof. intros H. apply list_fmap_ext. intros i x Hx. apply H, elem_of_seqZ, list_elem_of_lookup. eauto. Qed.

Lemma fmap_seqZ_shift {A} (g : Z -> A) d lo n :
  g <$> seqZ (d + lo) n = (fun k => g (d + k)) <$> seqZ lo n.
Proof. by rewrite <- fmap_add_seqZ, <- list_fmap_compose. Qed.

(** * Little-endian bytes *)

Fixpoint le_bytes (n : nat) (x : Z) : list Z :=
  match n with
  | O => []
  | S n => x mod 256 :: le_bytes n (x / 256)
  end.
Fixpoint le_word (l : list Z) : Z :=
  match l with
  | [] => 0
  | b :: l => b + 256 * le_word l
  end.

Lemma length_le_bytes n x : length (le_bytes n x) = n.
Proof. revert x. induction n; intros; simpl; auto. Qed.

Lemma le_word_bytes n : forall x, 0 <= x < 256 ^ Z.of_nat n -> le_word (le_bytes n x) = x.
Proof.
  induction n as [|n IH]; intros x Hx; simpl; [simpl in Hx; lia|].
  rewrite Nat2Z.inj_succ, Z.pow_succ_r in Hx by lia. rewrite IH.
  - pose proof (Z.div_mod x 256). lia.
  - split; [apply Z.div_pos; lia|]. apply Z.div_lt_upper_bound; lia.
Qed.

Lemma le_word_bytes64 x : fits 64 x -> le_word (le_bytes 8 x) = x.
Proof. apply (le_word_bytes 8). Qed.

(** * Literals *)

(** The codes of the characters of a literal. *)
Fixpoint chars (s : string) : list Z :=
  match s with
  | EmptyString => []
  | String a s => Z.of_N (Ascii.N_of_ascii a) :: chars s
  end.
