(* ===== verification/Encoding.v ===== *)
(** Constants of the privileged architecture and of the SBI binary interface,
    as the headers riscv_encoding.h, sbi_ecall_interface.h and sbi_error.h
    define them for a 64-bit hart. *)

From S2P Require Import Prelude.

(** ** Interrupt numbers *)

Definition IRQ_S_SOFT : Z := 1.
Definition IRQ_VS_SOFT : Z := 2.
Definition IRQ_M_SOFT : Z := 3.
Definition IRQ_S_TIMER : Z := 5.
Definition IRQ_VS_TIMER : Z := 6.
Definition IRQ_M_TIMER : Z := 7.
Definition IRQ_S_EXT : Z := 9.
Definition IRQ_VS_EXT : Z := 10.
Definition IRQ_M_EXT : Z := 11.
Definition IRQ_S_GEXT : Z := 12.

(** ** Machine status fields *)

Definition MSTATUS_SIE : Z := 0x00000002.
Definition MSTATUS_MIE : Z := 0x00000008.
Definition MSTATUS_SPIE_SHIFT : Z := 5.
Definition MSTATUS_SPIE : Z := Z.shiftl 1 MSTATUS_SPIE_SHIFT.
Definition MSTATUS_UBE : Z := 0x00000040.
Definition MSTATUS_MPIE : Z := 0x00000080.
Definition MSTATUS_SPP_SHIFT : Z := 8.
Definition MSTATUS_SPP : Z := Z.shiftl 1 MSTATUS_SPP_SHIFT.
Definition MSTATUS_MPP_SHIFT : Z := 11.
Definition MSTATUS_MPP : Z := Z.shiftl 3 MSTATUS_MPP_SHIFT.
Definition MSTATUS_FS : Z := 0x00006000.
Definition MSTATUS_XS : Z := 0x00018000.
Definition MSTATUS_VS : Z := 0x01800000.
Definition MSTATUS_MPRV : Z := 0x00020000.
Definition MSTATUS_SUM : Z := 0x00040000.
Definition MSTATUS_MXR : Z := 0x00080000.
Definition MSTATUS_TVM : Z := 0x00100000.
Definition MSTATUS_TW : Z := 0x00200000.
Definition MSTATUS_TSR : Z := 0x00400000.
Definition MSTATUS_UXL : Z := 0x0000000300000000.
Definition MSTATUS_SXL : Z := 0x0000000C00000000.
Definition MSTATUS_SBE : Z := 0x0000001000000000.
Definition MSTATUS_MBE : Z := 0x0000002000000000.
Definition MSTATUS_MPV : Z := 0x0000008000000000.

(** ** Interrupt-pending bits *)

Definition MIP_SSIP : Z := Z.shiftl 1 IRQ_S_SOFT.
Definition MIP_VSSIP : Z := Z.shiftl 1 IRQ_VS_SOFT.
Definition MIP_MSIP : Z := Z.shiftl 1 IRQ_M_SOFT.
Definition MIP_STIP : Z := Z.shiftl 1 IRQ_S_TIMER.
Definition MIP_VSTIP : Z := Z.shiftl 1 IRQ_VS_TIMER.
Definition MIP_MTIP : Z := Z.shiftl 1 IRQ_M_TIMER.
Definition MIP_SEIP : Z := Z.shiftl 1 IRQ_S_EXT.
Definition MIP_VSEIP : Z := Z.shiftl 1 IRQ_VS_EXT.
Definition MIP_MEIP : Z := Z.shiftl 1 IRQ_M_EXT.
Definition MIP_SGEIP : Z := Z.shiftl 1 IRQ_S_GEXT.

(** ** Privilege levels *)

Definition PRV_U : Z := 0.
Definition PRV_S : Z := 1.
Definition PRV_M : Z := 3.

(** ** Hypervisor status fields *)

Definition HSTATUS_HU : Z := 0x00000200.
Definition HSTATUS_SPVP : Z := 0x00000100.
Definition HSTATUS_SPV : Z := 0x00000080.
Definition HSTATUS_GVA : Z := 0x00000040.

(** ** Physical memory protection *)

Definition PMP_R : Z := 0x01.
Definition PMP_W : Z := 0x02.
Definition PMP_X : Z := 0x04.
Definition PMP_A : Z := 0x18.
Definition PMP_A_TOR : Z := 0x08.
Definition PMP_A_NA4 : Z := 0x10.
Definition PMP_A_NAPOT : Z := 0x18.
Definition PMP_L : Z := 0x80.
Definition PMP_SHIFT : Z := 2.
Definition PMP_COUNT : Z := 16.

(** ** CSR numbers *)

Definition CSR_FFLAGS : Z := 0x1.
Definition CSR_FRM : Z := 0x2.
Definition CSR_FCSR : Z := 0x3.
Definition CSR_CYCLE : Z := 0xc00.
Definition CSR_UIE : Z := 0x4.
Definition CSR_UTVEC : Z := 0x5.
Definition CSR_USCRATCH : Z := 0x40.
Definition CSR_TIME : Z := 0xc01.
Definition CSR_INSTRET : Z := 0xc02.
Definition CSR_SSTATUS : Z := 0x100.
Definition CSR_SIE : Z := 0x104.
Definition CSR_STVEC : Z := 0x105.
Definition CSR_SCOUNTEREN : Z := 0x106.
Definition CSR_SSCRATCH : Z := 0x140.
Definition CSR_SEPC : Z := 0x141.
Definition CSR_SCAUSE : Z := 0x142.
Definition CSR_STVAL : Z := 0x143.
Definition CSR_SIP : Z := 0x144.
Definition CSR_SATP : Z := 0x180.
Definition CSR_HSTATUS : Z := 0x600.
Definition CSR_HEDELEG : Z := 0x602.
Definition CSR_HIDELEG : Z := 0x603.
Definition CSR_HIE : Z := 0x604.
Definition CSR_HTIMEDELTA : Z := 0x605.
Definition CSR_HTIMEDELTAH : Z := 0x615.
Definition CSR_HCOUNTERNEN : Z := 0x606.
Definition CSR_HGEIE : Z := 0x607.
Definition CSR_HTVAL : Z := 0x643.
Definition CSR_HIP : Z := 0x644.
Definition CSR_HTINST : Z := 0x64a.
Definition CSR_HGATP : Z := 0x680.
Definition CSR_HGEIP : Z := 0xe07.
Definition CSR_VSSTATUS : Z := 0x200.
Definition CSR_VSIE : Z := 0x204.
Definition CSR_VSTVEC : Z := 0x205.
Definition CSR_VSSCRATCH : Z := 0x240.
Definition CSR_VSEPC : Z := 0x241.
Definition CSR_VSCAUSE : Z := 0x242.
Definition CSR_VSTVAL : Z := 0x243.
Definition CSR_VSIP : Z := 0x244.
Definition CSR_VSATP : Z := 0x280.
Definition CSR_MSTATUS : Z := 0x300.
Definition CSR_MISA : Z := 0x301.
Definition CSR_MEDELEG : Z := 0x302.
Definition CSR_MIDELEG : Z := 0x303.
Definition CSR_MIE : Z := 0x304.
Definition CSR_MTVEC : Z := 0x305.
Definition CSR_MCOUNTEREN : Z := 0x306.
Definition CSR_MSTATUSH : Z := 0x310.
Definition CSR_MSCRATCH : Z := 0x340.
Definition CSR_MEPC : Z := 0x341.
Definition CSR_MCAUSE : Z := 0x342.
Definition CSR_MTVAL : Z := 0x343.
Definition CSR_MIP : Z := 0x344.
Definition CSR_MTINST : Z := 0x34a.
Definition CSR_MTVAL2 : Z := 0x34b.
Definition CSR_PMPCFG0 : Z := 0x3a0.
Definition CSR_PMPCFG1 : Z := 0x3a1.
Definition CSR_PMPCFG2 : Z := 0x3a2.
Definition CSR_PMPCFG3 : Z := 0x3a3.
Definition CSR_PMPADDR0 : Z := 0x3b0.
Definition CSR_PMPADDR1 : Z := 0x3b1.
Definition CSR_PMPADDR2 : Z := 0x3b2.
Definition CSR_PMPADDR3 : Z := 0x3b3.
Definition CSR_PMPADDR4 : Z := 0x3b4.
Definition CSR_PMPADDR5 : Z := 0x3b5.
Definition CSR_PMPADDR6 : Z := 0x3b6.
Definition CSR_PMPADDR7 : Z := 0x3b7.
Definition CSR_PMPADDR8 : Z := 0x3b8.
Definition CSR_PMPADDR9 : Z := 0x3b9.
Definition CSR_PMPADDR10 : Z := 0x3ba.
Definition CSR_PMPADDR11 : Z := 0x3bb.
Definition CSR_PMPADDR12 : Z := 0x3bc.
Definition CSR_PMPADDR13 : Z := 0x3bd.
Definition CSR_PMPADDR14 : Z := 0x3be.
Definition CSR_PMPADDR15 : Z := 0x3bf.
Definition CSR_MCYCLE : Z := 0xb00.
Definition CSR_MINSTRET : Z := 0xb02.
Definition CSR_MVENDORID : Z := 0xf11.
Definition CSR_MARCHID : Z := 0xf12.
Definition CSR_MIMPID : Z := 0xf13.
Definition CSR_MHARTID : Z := 0xf14.
Definition CSR_CYCLEH : Z := 0xc80.
Definition CSR_TIMEH : Z := 0xc81.
Definition CSR_INSTRETH : Z := 0xc82.
Definition CSR_MCYCLEH : Z := 0xb80.
Definition CSR_MINSTRETH : Z := 0xb82.

(** ** Hardware performance counters *)

Definition CSR_HPMCOUNTER3 : Z := 0xc03.
Definition CSR_HPMCOUNTER4 : Z := 0xc04.
Definition CSR_HPMCOUNTER31 : Z := 0xc1f.
Definition CSR_MHPMCOUNTER3 : Z := 0xb03.
Definition CSR_MHPMCOUNTER4 : Z := 0xb04.
Definition CSR_MHPMCOUNTER31 : Z := 0xb1f.
Definition CSR_MHPMEVENT3 : Z := 0x323.
Definition CSR_MHPMEVENT4 : Z := 0x324.
Definition CSR_MHPMEVENT5 : Z := 0x325.
Definition CSR_MHPMEVENT6 : Z := 0x326.
Definition CSR_MHPMEVENT31 : Z := 0x33f.
Definition CSR_HPMCOUNTER3H : Z := 0xc83.
Definition CSR_HPMCOUNTER4H : Z := 0xc84.
Definition CSR_HPMCOUNTER31H : Z := 0xc9f.
Definition CSR_MHPMCOUNTER3H : Z := 0xb83.
Definition CSR_MHPMCOUNTER4H : Z := 0xb84.
Definition CSR_MHPMCOUNTER31H : Z := 0xb9f.

(** ** Exception causes *)

Definition CAUSE_MISALIGNED_FETCH : Z := 0x0.
Definition CAUSE_FETCH_ACCESS : Z := 0x1.
Definition CAUSE_ILLEGAL_INSTRUCTION : Z := 0x2.
Definition CAUSE_BREAKPOINT : Z := 0x3.
Definition CAUSE_MISALIGNED_LOAD : Z := 0x4.
Definition CAUSE_LOAD_ACCESS : Z := 0x5.
Definition CAUSE_MISALIGNED_STORE : Z := 0x6.
Definition CAUSE_STORE_ACCESS : Z := 0x7.
Definition CAUSE_USER_ECALL : Z := 0x8.
Definition CAUSE_HYPERVISOR_ECALL : Z := 0x9.
Definition CAUSE_SUPERVISOR_ECALL : Z := 0xa.
Definition CAUSE_MACHINE_ECALL : Z := 0xb.
Definition CAUSE_FETCH_PAGE_FAULT : Z := 0xc.
Definition CAUSE_LOAD_PAGE_FAULT : Z := 0xd.
Definition CAUSE_STORE_PAGE_FAULT : Z := 0xf.
Definition CAUSE_FETCH_GUEST_PAGE_FAULT : Z := 0x14.
Definition CAUSE_LOAD_GUEST_PAGE_FAULT : Z := 0x15.
Definition CAUSE_VIRTUAL_INST_FAULT : Z := 0x16.
Definition CAUSE_STORE_GUEST_PAGE_FAULT : Z := 0x17.

(** ** Instruction fields *)

Definition SH_RD : Z := 7.
Definition SH_RS1 : Z := 15.
Definition SH_RS2 : Z := 20.
Definition SH_RS2C : Z := 2.

(** ** Instruction encodings *)

Definition INSN_MATCH_LB : Z := 0x3.
Definition INSN_MASK_LB : Z := 0x707f.
Definition INSN_MATCH_LH : Z := 0x1003.
Definition INSN_MASK_LH : Z := 0x707f.
Definition INSN_MATCH_LW : Z := 0x2003.
Definition INSN_MASK_LW : Z := 0x707f.
Definition INSN_MATCH_LD : Z := 0x3003.
Definition INSN_MASK_LD : Z := 0x707f.
Definition INSN_MATCH_LBU : Z := 0x4003.
Definition INSN_MASK_LBU : Z := 0x707f.
Definition INSN_MATCH_LHU : Z := 0x5003.
Definition INSN_MASK_LHU : Z := 0x707f.
Definition INSN_MATCH_LWU : Z := 0x6003.
Definition INSN_MASK_LWU : Z := 0x707f.
Definition INSN_MATCH_SB : Z := 0x23.
Definition INSN_MASK_SB : Z := 0x707f.
Definition INSN_MATCH_SH : Z := 0x1023.
Definition INSN_MASK_SH : Z := 0x707f.
Definition INSN_MATCH_SW : Z := 0x2023.
Definition INSN_MASK_SW : Z := 0x707f.
Definition INSN_MATCH_SD : Z := 0x3023.
Definition INSN_MASK_SD : Z := 0x707f.
Definition INSN_MATCH_FLW : Z := 0x2007.
Definition INSN_MASK_FLW : Z := 0x707f.
Definition INSN_MATCH_FLD : Z := 0x3007.
Definition INSN_MASK_FLD : Z := 0x707f.
Definition INSN_MATCH_FLQ : Z := 0x4007.
Definition INSN_MASK_FLQ : Z := 0x707f.
Definition INSN_MATCH_FSW : Z := 0x2027.
Definition INSN_MASK_FSW : Z := 0x707f.
Definition INSN_MATCH_FSD : Z := 0x3027.
Definition INSN_MASK_FSD : Z := 0x707f.
Definition INSN_MATCH_FSQ : Z := 0x4027.
Definition INSN_MASK_FSQ : Z := 0x707f.
Definition INSN_MATCH_C_LD : Z := 0x6000.
Definition INSN_MASK_C_LD : Z := 0xe003.
Definition INSN_MATCH_C_SD : Z := 0xe000.
Definition INSN_MASK_C_SD : Z := 0xe003.
Definition INSN_MATCH_C_LW : Z := 0x4000.
Definition INSN_MASK_C_LW : Z := 0xe003.
Definition INSN_MATCH_C_SW : Z := 0xc000.
Definition INSN_MASK_C_SW : Z := 0xe003.
Definition INSN_MATCH_C_LDSP : Z := 0x6002.
Definition INSN_MASK_C_LDSP : Z := 0xe003.
Definition INSN_MATCH_C_SDSP : Z := 0xe002.
Definition INSN_MASK_C_SDSP : Z := 0xe003.
Definition INSN_MATCH_C_LWSP : Z := 0x4002.
Definition INSN_MASK_C_LWSP : Z := 0xe003.
Definition INSN_MATCH_C_SWSP : Z := 0xc002.
Definition INSN_MASK_C_SWSP : Z := 0xe003.
Definition INSN_MATCH_C_FLD : Z := 0x2000.
Definition INSN_MASK_C_FLD : Z := 0xe003.
Definition INSN_MATCH_C_FLW : Z := 0x6000.
Definition INSN_MASK_C_FLW : Z := 0xe003.
Definition INSN_MATCH_C_FSD : Z := 0xa000.
Definition INSN_MASK_C_FSD : Z := 0xe003.
Definition INSN_MATCH_C_FSW : Z := 0xe000.
Definition INSN_MASK_C_FSW : Z := 0xe003.
Definition INSN_MATCH_C_FLDSP : Z := 0x2002.
Definition INSN_MASK_C_FLDSP : Z := 0xe003.
Definition INSN_MATCH_C_FSDSP : Z := 0xa002.
Definition INSN_MASK_C_FSDSP : Z := 0xe003.
Definition INSN_MATCH_C_FLWSP : Z := 0x6002.
Definition INSN_MASK_C_FLWSP : Z := 0xe003.
Definition INSN_MATCH_C_FSWSP : Z := 0xe002.
Definition INSN_MASK_C_FSWSP : Z := 0xe003.
Definition INSN_MASK_WFI : Z := 0xffffff00.
Definition INSN_MATCH_WFI : Z := 0x10500000.

(** ** The binary interface of the SBI calls *)

Definition SBI_EXT_0_1_SET_TIMER : Z := 0x0.
Definition SBI_EXT_0_1_CONSOLE_PUTCHAR : Z := 0x1.
Definition SBI_EXT_0_1_CONSOLE_GETCHAR : Z := 0x2.
Definition SBI_EXT_0_1_CLEAR_IPI : Z := 0x3.
Definition SBI_EXT_0_1_SEND_IPI : Z := 0x4.
Definition SBI_EXT_0_1_REMOTE_FENCE_I : Z := 0x5.
Definition SBI_EXT_0_1_REMOTE_SFENCE_VMA : Z := 0x6.
Definition SBI_EXT_0_1_REMOTE_SFENCE_VMA_ASID : Z := 0x7.
Definition SBI_EXT_0_1_SHUTDOWN : Z := 0x8.
Definition SBI_EXT_BASE : Z := 0x10.
Definition SBI_EXT_TIME : Z := 0x54494D45.
Definition SBI_EXT_IPI : Z := 0x735049.
Definition SBI_EXT_RFENCE : Z := 0x52464E43.
Definition SBI_EXT_HSM : Z := 0x48534D.
Definition SBI_EXT_BASE_GET_SPEC_VERSION : Z := 0x0.
Definition SBI_EXT_BASE_GET_IMP_ID : Z := 0x1.
Definition SBI_EXT_BASE_GET_IMP_VERSION : Z := 0x2.
Definition SBI_EXT_BASE_PROBE_EXT : Z := 0x3.
Definition SBI_EXT_BASE_GET_MVENDORID : Z := 0x4.
Definition SBI_EXT_BASE_GET_MARCHID : Z := 0x5.
Definition SBI_EXT_BASE_GET_MIMPID : Z := 0x6.
Definition SBI_EXT_TIME_SET_TIMER : Z := 0x0.
Definition SBI_EXT_IPI_SEND_IPI : Z := 0x0.
Definition SBI_EXT_RFENCE_REMOTE_FENCE_I : Z := 0x0.
Definition SBI_EXT_RFENCE_REMOTE_SFENCE_VMA : Z := 0x1.
Definition SBI_EXT_RFENCE_REMOTE_SFENCE_VMA_ASID : Z := 0x2.
Definition SBI_EXT_RFENCE_REMOTE_HFENCE_GVMA : Z := 0x3.
Definition SBI_EXT_RFENCE_REMOTE_HFENCE_GVMA_VMID : Z := 0x4.
Definition SBI_EXT_RFENCE_REMOTE_HFENCE_VVMA : Z := 0x5.
Definition SBI_EXT_RFENCE_REMOTE_HFENCE_VVMA_ASID : Z := 0x6.
Definition SBI_EXT_HSM_HART_START : Z := 0x0.
Definition SBI_EXT_HSM_HART_STOP : Z := 0x1.
Definition SBI_EXT_HSM_HART_GET_STATUS : Z := 0x2.
Definition SBI_HSM_HART_STATUS_STARTED : Z := 0x0.
Definition SBI_HSM_HART_STATUS_STOPPED : Z := 0x1.
Definition SBI_HSM_HART_STATUS_START_PENDING : Z := 0x2.
Definition SBI_HSM_HART_STATUS_STOP_PENDING : Z := 0x3.
Definition SBI_SPEC_VERSION_MAJOR_OFFSET : Z := 24.
Definition SBI_SPEC_VERSION_MAJOR_MASK : Z := 0x7f.
Definition SBI_SPEC_VERSION_MINOR_MASK : Z := 0xffffff.
Definition SBI_EXT_VENDOR_START : Z := 0x09000000.
Definition SBI_EXT_VENDOR_END : Z := 0x09FFFFFF.
Definition SBI_EXT_FIRMWARE_START : Z := 0x0A000000.
Definition SBI_EXT_FIRMWARE_END : Z := 0x0AFFFFFF.
Definition SBI_SUCCESS : Z := 0.
Definition SBI_ERR_FAILED : Z := (-1).
Definition SBI_ERR_NOT_SUPPORTED : Z := (-2).
Definition SBI_ERR_INVALID_PARAM : Z := (-3).
Definition SBI_ERR_DENIED : Z := (-4).
Definition SBI_ERR_INVALID_ADDRESS : Z := (-5).
Definition SBI_ERR_ALREADY_AVAILABLE : Z := (-6).
Definition SBI_LAST_ERR : Z := SBI_ERR_ALREADY_AVAILABLE.

(** ** Library error codes *)

Definition SBI_OK : Z := 0.
Definition SBI_EFAIL : Z := SBI_ERR_FAILED.
Definition SBI_ENOTSUPP : Z := SBI_ERR_NOT_SUPPORTED.
Definition SBI_EINVAL : Z := SBI_ERR_INVALID_PARAM.
Definition SBI_EDENIED : Z := SBI_ERR_DENIED.
Definition SBI_EINVALID_ADDR : Z := SBI_ERR_INVALID_ADDRESS.
Definition SBI_EALREADY : Z := SBI_ERR_ALREADY_AVAILABLE.
Definition SBI_ENODEV : Z := (-1000).
Definition SBI_ENOSYS : Z := (-1001).
Definition SBI_ETIMEDOUT : Z := (-1002).
Definition SBI_EIO : Z := (-1003).
Definition SBI_EILL : Z := (-1004).
Definition SBI_ENOSPC : Z := (-1005).
Definition SBI_ENOMEM : Z := (-1006).
Definition SBI_ETRAP : Z := (-1007).
Definition SBI_EUNKNOWN : Z := (-1008).
Definition SBI_ENOENT : Z := (-1009).
