(* ===== verification/Bitops.v ===== *)
(** Bit searching, bitmaps and hart masks: [include/sbi/sbi_bitops.h],
    [lib/sbi/sbi_bitops.c], [include/sbi/sbi_bitmap.h], [lib/sbi/sbi_bitmap.c],
    [include/sbi/sbi_hartmask.h] and [lib/sbi/sbi_math.c].

    A bitmap is the list of its [unsigned long] words, lowest word first.
    [bit] reads one bit of it; [bit_first] is the abstract "lowest index that
    satisfies a predicate", which the search routines are proved against. *)

From S2P Require Import Prelude.

Definition BITS_PER_LONG : Z := 64.
Definition ULONG_MAX : Z := 2 ^ 64 - 1.

Definition EXTRACT_FIELD (val which : Z) : Z :=
  (val .& which) / (which .& not64 (which - 1)).
Definition INSERT_FIELD (val which fieldval : Z) : Z :=
  (val .& not64 which) .| u64 (fieldval * (which .& not64 (which - 1))).
Definition BITS_TO_LONGS (nbits : Z) : Z := (nbits + BITS_PER_LONG - 1) / BITS_PER_LONG.
Definition BIT_MASK (nr : Z) : Z := shl64 1 (nr mod BITS_PER_LONG).
Definition BIT_WORD (b : Z) : Z := b / BITS_PER_LONG.
Definition BIT_WORD_OFFSET (b : Z) : Z := b .& (BITS_PER_LONG - 1).
Definition GENMASK (h l : Z) : Z :=
  u64 (ULONG_MAX - shl64 1 l + 1) .& (ULONG_MAX >>u (BITS_PER_LONG - 1 - h)).

(** * Searching one word *)

Definition ffs_step (mask sh : Z) (p : Z * Z) : Z * Z :=
  let '(x, r) := p in if (x .& mask) =? 0 then (Z.shiftr x sh, r + sh) else (x, r).

(** [int ffs(int x)]: the arithmetic right shifts of the signed argument. *)
Definition ffs (x : Z) : Z :=
  if x =? 0 then 0
  else snd (ffs_step 1 1 (ffs_step 3 2 (ffs_step 0xf 4 (ffs_step 0xff 8 (ffs_step 0xffff 16 (x, 1)))))).

Definition __ffs (word : Z) : Z :=
  let '(word, num) :=
    ffs_step 0x3 2 (ffs_step 0xf 4 (ffs_step 0xff 8 (ffs_step 0xffff 16
      (ffs_step 0xffffffff 32 (word, 0))))) in
  if (word .& 1) =? 0 then num + 1 else num.

Definition ffz (x : Z) : Z := __ffs (not64 x).

(** [fls] and [__fls] shift left inside the word, so the shifted value is
    wrapped to the width of the C variable. *)
Definition fls_step (w mask sh : Z) (p : Z * Z) : Z * Z :=
  let '(x, r) := p in
  if (x .& mask) =? 0 then (wrap w (Z.shiftl x sh), r - sh) else (x, r).

Definition fls (x : Z) : Z :=
  if u32 x =? 0 then 0
  else snd (fls_step 32 0x80000000 1 (fls_step 32 0xc0000000 2 (fls_step 32 0xf0000000 4
         (fls_step 32 0xff000000 8 (fls_step 32 0xffff0000 16 (u32 x, 32)))))).

Definition __fls (word : Z) : Z :=
  let '(word, num) :=
    fls_step 64 (shl64 ULONG_MAX 62) 2 (fls_step 64 (shl64 ULONG_MAX 60) 4
      (fls_step 64 (shl64 ULONG_MAX 56) 8 (fls_step 64 (shl64 ULONG_MAX 48) 16
        (fls_step 64 (shl64 ULONG_MAX 32) 32 (word, 63))))) in
  if (word .& shl64 ULONG_MAX 63) =? 0 then num - 1 else num.

(** * Searching a bitmap *)

(** The word loop [while (size & ~(BITS_PER_LONG-1))] and the partial last
    word, shared by [find_first_bit] and [find_next_bit]; [p] is the rest of
    the array.  Reading past the array (undefined in C) is an empty [p]. *)
Fixpoint find_bit_words (p : list Z) (size result : Z) : Z :=
  if nz (size .& not64 (BITS_PER_LONG - 1)) then
    match p with
    | tmp :: p' =>
        if nz tmp then result + __ffs tmp
        else find_bit_words p' (size - BITS_PER_LONG) (result + BITS_PER_LONG)
    | [] => result
    end
  else if size =? 0 then result
  else
    let tmp := hd 0 p .& (ULONG_MAX >>u (BITS_PER_LONG - size)) in
    if tmp =? 0 then result + size else result + __ffs tmp.

Definition find_first_bit (addr : list Z) (size : Z) : Z := find_bit_words addr size 0.

Fixpoint find_zero_bit_words (p : list Z) (size result : Z) : Z :=
  if nz (size .& not64 (BITS_PER_LONG - 1)) then
    match p with
    | tmp :: p' =>
        if nz (not64 tmp) then result + ffz tmp
        else find_zero_bit_words p' (size - BITS_PER_LONG) (result + BITS_PER_LONG)
    | [] => result
    end
  else if size =? 0 then result
  else
    let tmp := hd 0 p .| (ULONG_MAX <<u size) in
    if tmp =? ULONG_MAX then result + size else result + ffz tmp.

Definition find_first_zero_bit (addr : list Z) (size : Z) : Z :=
  find_zero_bit_words addr size 0.

(** [find_last_bit]: the downward loop over the full words below [words]. *)
Fixpoint find_last_words (addr : list Z) (words : nat) (size : Z) : Z :=
  match words with
  | O => size
  | S w =>
      let tmp := nth w addr 0 in
      if nz tmp then Z.of_nat w * BITS_PER_LONG + __fls tmp
      else find_last_words addr w size
  end.

Definition find_last_bit (addr : list Z) (size : Z) : Z :=
  let words := size / BITS_PER_LONG in
  let part := size .& (BITS_PER_LONG - 1) in
  let tmp := nth (Z.to_nat words) addr 0 .& (ULONG_MAX >>u (BITS_PER_LONG - part)) in
  if nz part && nz tmp then words * BITS_PER_LONG + __fls tmp
  else find_last_words addr (Z.to_nat words) size.

(** [find_next_bit] after its guard: [p] points at the word of [offset],
    [offset] is the bit inside it, [size] counts from that word on. *)
Definition find_next_words (p : list Z) (size offset result : Z) : Z :=
  if nz offset then
    let tmp := hd 0 p .& (ULONG_MAX <<u offset) in
    if size <? BITS_PER_LONG then
      let tmp := tmp .& (ULONG_MAX >>u (BITS_PER_LONG - size)) in
      if tmp =? 0 then result + size else result + __ffs tmp
    else if nz tmp then result + __ffs tmp
    else find_bit_words (tl p) (size - BITS_PER_LONG) (result + BITS_PER_LONG)
  else find_bit_words p size result.

Definition find_next_bit (addr : list Z) (size offset : Z) : Z :=
  let p := drop (Z.to_nat (BIT_WORD offset)) addr in
  let result := offset .& not64 (BITS_PER_LONG - 1) in
  if size <=? offset then size
  else find_next_words p (size - result) (offset mod BITS_PER_LONG) result.

Definition find_next_zero_words (p : list Z) (size offset result : Z) : Z :=
  if nz offset then
    let tmp := hd 0 p .| (ULONG_MAX >>u (BITS_PER_LONG - offset)) in
    if size <? BITS_PER_LONG then
      let tmp := tmp .| (ULONG_MAX <<u size) in
      if tmp =? ULONG_MAX then result + size else result + ffz tmp
    else if nz (not64 tmp) then result + ffz tmp
    else find_zero_bit_words (tl p) (size - BITS_PER_LONG) (result + BITS_PER_LONG)
  else find_zero_bit_words p size result.

Definition find_next_zero_bit (addr : list Z) (size offset : Z) : Z :=
  let p := drop (Z.to_nat (BIT_WORD offset)) addr in
  let result := offset .& not64 (BITS_PER_LONG - 1) in
  if size <=? offset then size
  else find_next_zero_words p (size - result) (offset mod BITS_PER_LONG) result.

(** [for_each_set_bit]: the indices the loop body sees, in order. *)
Fixpoint for_each_from (fuel : nat) (addr : list Z) (size b : Z) : list Z :=
  match fuel with
  | O => []
  | S fuel =>
      if b <? size then b :: for_each_from fuel addr size (find_next_bit addr size (b + 1))
      else []
  end.

Definition for_each_set_bit (addr : list Z) (size : Z) : list Z :=
  for_each_from (Z.to_nat size) addr size (find_first_bit addr size).

(** * Updating one bit *)

Definition upd_word (addr : list Z) (nr : Z) (f : Z -> Z) : list Z :=
  let i := Z.to_nat (BIT_WORD nr) in <[i := f (nth i addr 0)]> addr.

Definition __set_bit (nr : Z) (addr : list Z) : list Z :=
  upd_word addr nr (fun w => w .| BIT_MASK nr).
Definition __clear_bit (nr : Z) (addr : list Z) : list Z :=
  upd_word addr nr (fun w => w .& not64 (BIT_MASK nr)).
Definition __change_bit (nr : Z) (addr : list Z) : list Z :=
  upd_word addr nr (fun w => w .^ BIT_MASK nr).
Definition __test_bit (nr : Z) (addr : list Z) : Z :=
  1 .& (nth (Z.to_nat (BIT_WORD nr)) addr 0 >>u (nr .& (BITS_PER_LONG - 1))).
Definition __test_and_set_bit (nr : Z) (addr : list Z) : Z * list Z :=
  let old := nth (Z.to_nat (BIT_WORD nr)) addr 0 in
  (if nz (old .& BIT_MASK nr) then 1 else 0, __set_bit nr addr).
Definition __test_and_clear_bit (nr : Z) (addr : list Z) : Z * list Z :=
  let old := nth (Z.to_nat (BIT_WORD nr)) addr 0 in
  (if nz (old .& BIT_MASK nr) then 1 else 0, __clear_bit nr addr).

(** * Bitmaps *)

Definition BITMAP_LAST_WORD_MASK (nbits : Z) : Z :=
  if nz (nbits mod BITS_PER_LONG) then shl64 1 (nbits mod BITS_PER_LONG) - 1 else ULONG_MAX.

(** [dst[k] = f(bitmap1[k], bitmap2[k])] for [k] below [BITS_TO_LONGS(bits)];
    words of [dst] above that are kept. *)
Definition bitmap_zip (f : Z -> Z -> Z) (dst b1 b2 : list Z) (bits : Z) : list Z :=
  let nr := Z.to_nat (BITS_TO_LONGS bits) in
  zip_with f (take nr b1) (take nr b2) ++ drop nr dst.

Definition __bitmap_and (dst b1 b2 : list Z) (bits : Z) : list Z := bitmap_zip Z.land dst b1 b2 bits.
Definition __bitmap_or (dst b1 b2 : list Z) (bits : Z) : list Z := bitmap_zip Z.lor dst b1 b2 bits.
Definition __bitmap_xor (dst b1 b2 : list Z) (bits : Z) : list Z := bitmap_zip Z.lxor dst b1 b2 bits.

Definition bitmap_zero (dst : list Z) (nbits : Z) : list Z :=
  let len := Z.to_nat (BITS_TO_LONGS nbits) in replicate len 0 ++ drop len dst.

Definition bitmap_zero_except (dst : list Z) (exception nbits : Z) : list Z :=
  let dst := bitmap_zero dst nbits in
  if exception <? nbits then __set_bit exception dst else dst.

Definition bitmap_fill (dst : list Z) (nbits : Z) : list Z :=
  let nlongs := Z.to_nat (BITS_TO_LONGS nbits) in
  replicate (nlongs - 1) ULONG_MAX ++ [BITMAP_LAST_WORD_MASK nbits] ++ drop nlongs dst.

Definition bitmap_copy (dst src : list Z) (nbits : Z) : list Z :=
  let len := Z.to_nat (BITS_TO_LONGS nbits) in take len src ++ drop len dst.

(** [bitmap_set] and [bitmap_clear]: one iteration per bit of the range. *)
Definition bitmap_set (bmap : list Z) (start len : Z) : list Z :=
  fold_left (fun m b => upd_word m b (fun w => w .| shl64 1 (BIT_WORD_OFFSET b)))
    (seqZ start len) bmap.
Definition bitmap_clear (bmap : list Z) (start len : Z) : list Z :=
  fold_left (fun m b => upd_word m b (fun w => w .& not64 (shl64 1 (BIT_WORD_OFFSET b))))
    (seqZ start len) bmap.

(** * Hart masks *)

Definition SBI_HARTMASK_MAX_BITS : Z := 128.

Definition SBI_HARTMASK_INIT (m : list Z) : list Z := bitmap_zero m SBI_HARTMASK_MAX_BITS.
Definition SBI_HARTMASK_INIT_EXCEPT (m : list Z) (h : Z) : list Z :=
  bitmap_zero_except m h SBI_HARTMASK_MAX_BITS.
Definition sbi_hartmask_set_hart (h : Z) (m : list Z) : list Z :=
  if h <? SBI_HARTMASK_MAX_BITS then __set_bit h m else m.
Definition sbi_hartmask_clear_hart (h : Z) (m : list Z) : list Z :=
  if h <? SBI_HARTMASK_MAX_BITS then __clear_bit h m else m.
Definition sbi_hartmask_test_hart (h : Z) (m : list Z) : Z :=
  if h <? SBI_HARTMASK_MAX_BITS then __test_bit h m else 0.
Definition sbi_hartmask_set_all (m : list Z) : list Z := bitmap_fill m SBI_HARTMASK_MAX_BITS.
Definition sbi_hartmask_clear_all (m : list Z) : list Z := bitmap_zero m SBI_HARTMASK_MAX_BITS.
Definition sbi_hartmask_and (dst s1 s2 : list Z) : list Z := __bitmap_and dst s1 s2 SBI_HARTMASK_MAX_BITS.
Definition sbi_hartmask_or (dst s1 s2 : list Z) : list Z := __bitmap_or dst s1 s2 SBI_HARTMASK_MAX_BITS.
Definition sbi_hartmask_xor (dst s1 s2 : list Z) : list Z := __bitmap_xor dst s1 s2 SBI_HARTMASK_MAX_BITS.
Definition sbi_hartmask_for_each_hart (m : list Z) : list Z :=
  for_each_set_bit m SBI_HARTMASK_MAX_BITS.

(** * [log2roundup] *)

Fixpoint log2roundup_loop (fuel : nat) (x ret : Z) : Z :=
  match fuel with
  | O => ret
  | S fuel =>
      if ret <? 64 then
        if x <=? shl64 1 ret then ret else log2roundup_loop fuel x (ret + 1)
      else ret
  end.

(** The loop runs at most [__riscv_xlen] times, so 64 iterations are enough. *)
Definition log2roundup (x : Z) : Z := log2roundup_loop 64 x 0.

(** * Properties of the one-word searches *)

(** [w] has a set bit below [k]. *)
Definition has_low (w k : Z) : Prop := exists i, 0 <= i < k /\ Z.testbit w i = true.

(** What the binary search of [__ffs] maintains: [num] low bits of the
    original word are clear, the current word is the original shifted by
    [num], and it still has a set bit below [k]. *)
Definition ffs_inv (w0 k : Z) (p : Z * Z) : Prop :=
  let '(w, num) := p in
  0 <= num /\ has_low w k /\
  (forall i, 0 <= i < num -> Z.testbit w0 i = false) /\
  (forall i, 0 <= i -> Z.testbit w i = Z.testbit w0 (i + num)).

Lemma land_ones_zero w k :
  0 <= k -> w .& Z.ones k = 0 <-> (forall i, 0 <= i < k -> Z.testbit w i = false).
Proof.
  intros Hk. split.
  - intros H i Hi. assert (Hb : Z.testbit (w .& Z.ones k) i = false) by by rewrite H, Z.testbit_0_l.
    revert Hb. autorewrite with bits. bool_cases. by rewrite andb_true_r.
  - intros H. bit_ext i. bool_cases; autorewrite with bits; auto.
Qed.

Lemma land_ones_nonzero w k : 0 <= k -> w .& Z.ones k <> 0 -> has_low w k.
Proof.
  intros Hk H. set (y := w .& Z.ones k).
  assert (0 < y).
  { assert (0 <= y) by (apply Z.land_nonneg; right; apply ones_nonneg; lia). lia. }
  pose proof (Z.bit_log2 y ltac:(lia)) as Hb. pose proof (Z.log2_nonneg y).
  exists (Z.log2 y). revert Hb. unfold y at 1. autorewrite with bits. bool_cases.
  rewrite andb_true_r. done.
Qed.

Lemma ffs_step_inv w0 k p :
  0 < k -> ffs_inv w0 (2 * k) p -> ffs_inv w0 k (ffs_step (Z.ones k) k p).
Proof.
  intros Hk. destruct p as [w num]. intros (Hn & (j & Hj & Hjb) & Hlow & Hsh).
  unfold ffs_step. destruct (Z.eqb_spec (w .& Z.ones k) 0) as [E|E].
  - rewrite land_ones_zero in E by lia. repeat split; [lia| | |].
    + assert (k <= j) by (apply Z.nlt_ge; intros ?; rewrite E in Hjb by lia; done).
      exists (j - k). split; [lia|]. rewrite Z.shiftr_spec by lia. by rewrite Z.sub_add.
    + intros i Hi. destruct (decide (i < num)); [apply Hlow; lia|].
      rewrite <- (Z.sub_add num i), <- Hsh by lia. apply E. lia.
    + intros i Hi. rewrite Z.shiftr_spec, Hsh by lia. f_equal. lia.
  - repeat split; [lia|by apply land_ones_nonzero; [lia|]|done|done].
Qed.

(** The least index in [lo, hi) satisfying [P], or [hi] when there is none. *)
Definition bit_first (P : Z -> bool) (lo hi r : Z) : Prop :=
  lo <= r <= hi /\ (forall i, lo <= i < r -> P i = false) /\ (r < hi -> P r = true).

Lemma __ffs_eq w :
  __ffs w = snd (ffs_step (Z.ones 1) 1 (ffs_step (Z.ones 2) 2 (ffs_step (Z.ones 4) 4
    (ffs_step (Z.ones 8) 8 (ffs_step (Z.ones 16) 16 (ffs_step (Z.ones 32) 32 (w, 0))))))).
Proof.
  unfold __ffs.
  change 0x3 with (Z.ones 2). change 0xf with (Z.ones 4). change 0xff with (Z.ones 8).
  change 0xffff with (Z.ones 16). change 0xffffffff with (Z.ones 32).
  destruct (ffs_step (Z.ones 2) 2 _) as [x r]. simpl. change (Z.ones 1) with 1.
  by destruct (x .& 1 =? 0).
Qed.

Lemma __ffs_spec w : fits 64 w -> w <> 0 -> bit_first (Z.testbit w) 0 64 (__ffs w) /\ __ffs w < 64.
Proof.
  intros Hw Hnz. rewrite __ffs_eq.
  assert (Hinit : ffs_inv w 64 (w, 0)).
  { repeat split; [lia| |lia|intros; f_equal; lia].
    exists (Z.log2 w). unfold fits in Hw. split; [|apply Z.bit_log2; lia].
    split; [apply Z.log2_nonneg|]. apply Z.log2_lt_pow2; lia. }
  apply (ffs_step_inv _ 32), (ffs_step_inv _ 16), (ffs_step_inv _ 8), (ffs_step_inv _ 4),
    (ffs_step_inv _ 2), (ffs_step_inv _ 1) in Hinit; try lia.
  destruct (ffs_step (Z.ones 1) 1 _) as [x r]. destruct Hinit as (Hr & (i & Hi & Hib) & Hlow & Hsh).
  assert (i = 0) as -> by lia. rewrite Hsh in Hib by lia. simpl in *.
  assert (r < 64) by (apply Z.nle_gt; intros ?; rewrite (testbit_fits 64) in Hib by (done || lia); done).
  repeat split; (lia || done).
Qed.

(** * Properties of the bitmap searches *)

Definition bit (p : list Z) (i : Z) : bool :=
  Z.testbit (nth (Z.to_nat (i / BITS_PER_LONG)) p 0) (i mod BITS_PER_LONG).

Definition words_ok (p : list Z) : Prop := Forall (fits 64) p.

Lemma land_not63 x : fits 64 x -> x .& not64 (BITS_PER_LONG - 1) = 64 * (x / 64).
Proof.
  intros Hx. change (BITS_PER_LONG - 1) with (Z.ones 6). by apply (land_not_ones x 6).
Qed.

Lemma nz_land_not63 x : fits 64 x -> nz (x .& not64 (BITS_PER_LONG - 1)) = (64 <=? x).
Proof.
  intros Hx. rewrite land_not63 by done. unfold fits in Hx.
  destruct (Z.leb_spec 64 x); [apply nz_true|apply nz_false];
    pose proof (Z.div_le_lower_bound x 64 1); pose proof (Z.div_small x 64); lia.
Qed.

Lemma bit_cons_low w p i : 0 <= i < 64 -> bit (w :: p) i = Z.testbit w i.
Proof. intros. unfold bit, BITS_PER_LONG. by rewrite Z.div_small, Z.mod_small by lia. Qed.

Lemma bit_cons_high w p i : 64 <= i -> bit (w :: p) i = bit p (i - 64).
Proof.
  intros. unfold bit, BITS_PER_LONG.
  replace i with (i - 64 + 1 * 64) at 1 2 by lia.
  rewrite Z.div_add, Z.mod_add by lia. pose proof (Z.div_pos (i - 64) 64).
  replace (Z.to_nat ((i - 64) / 64 + 1)) with (S (Z.to_nat ((i - 64) / 64))) by lia. done.
Qed.

Lemma bit_hd p i : 0 <= i < 64 -> bit p i = Z.testbit (hd 0 p) i.
Proof.
  destruct p as [|w p]; intros; [|by apply bit_cons_low].
  unfold bit, BITS_PER_LONG. rewrite Z.div_small by lia. simpl. by rewrite !Z.testbit_0_l.
Qed.

Lemma bit_drop p n i : 0 <= i -> bit (drop n p) i = bit p (i + 64 * Z.of_nat n).
Proof.
  revert p. induction n as [|n IH]; intros p Hi.
  { rewrite drop_0. f_equal. lia. }
  destruct p as [|w p].
  - rewrite drop_nil. unfold bit. by rewrite !nth_overflow, !Z.testbit_0_l by (simpl; lia).
  - simpl drop. rewrite IH by lia. rewrite bit_cons_high by lia. f_equal. lia.
Qed.

Lemma words_ok_hd p : words_ok p -> fits 64 (hd 0 p).
Proof. destruct 1; [by apply fits_0|done]. Qed.

Lemma words_ok_drop p n : words_ok p -> words_ok (drop n p).
Proof. apply Forall_drop. Qed.

#[export] Hint Resolve words_ok_hd words_ok_drop : fits.

(** The lowest [size] bits of a word. *)
Lemma testbit_low_mask w size i :
  0 < size < 64 -> 0 <= i ->
  Z.testbit (w .& (ULONG_MAX >>u (BITS_PER_LONG - size))) i = Z.testbit w i && (i <? size).
Proof.
  intros. change ULONG_MAX with (Z.ones 64). unfold shr64, BITS_PER_LONG.
  autorewrite with bits. f_equal. bool_cases; done.
Qed.

Lemma testbit_high_mask w off i :
  0 <= off < 64 -> 0 <= i < 64 ->
  Z.testbit (w .& (ULONG_MAX <<u off)) i = Z.testbit w i && (off <=? i).
Proof.
  intros. change ULONG_MAX with (Z.ones 64). unfold shl64.
  autorewrite with bits. f_equal. bool_cases; done.
Qed.

(** A masked word that is zero has no set bit in the mask's range; one that
    is not has its lowest set bit there. *)
Lemma word_search (P : Z -> bool) tmp lo hi :
  fits 64 tmp -> 0 <= lo <= hi -> hi <= 64 ->
  (forall i, 0 <= i < 64 -> Z.testbit tmp i = P i && (lo <=? i) && (i <? hi)) ->
  bit_first P lo hi (if tmp =? 0 then hi else __ffs tmp).
Proof.
  intros Hf Hlo Hhi Hb. destruct (Z.eqb_spec tmp 0) as [->|Hnz].
  - split; [lia|]. split; [|lia]. intros i Hi. specialize (Hb i ltac:(lia)).
    rewrite Z.testbit_0_l in Hb. bool_cases. by rewrite !andb_true_r in Hb.
  - destruct (__ffs_spec tmp) as [(Hr & Hlow & Hset) Hlt]; [done..|].
    specialize (Hset Hlt). rewrite Hb in Hset by lia.
    apply andb_true_iff in Hset as [[HP H1]%andb_true_iff H2].
    apply Z.leb_le in H1. apply Z.ltb_lt in H2. split; [lia|]. split; [|done].
    intros i Hi. specialize (Hlow i ltac:(lia)). rewrite Hb in Hlow by lia.
    bool_cases. by rewrite !andb_true_r in Hlow.
Qed.

Lemma bit_first_shift P Q lo hi r d :
  (forall i, lo <= i < hi -> P i = Q (i + d)) ->
  bit_first P lo hi r -> bit_first Q (lo + d) (hi + d) (r + d).
Proof.
  intros HPQ (Hr & Hlow & Hset). split; [lia|]. split.
  - intros i Hi. specialize (Hlow (i - d) ltac:(lia)). rewrite HPQ in Hlow by lia.
    by rewrite Z.sub_add in Hlow.
  - intros Hlt. rewrite <- HPQ by lia. apply Hset. lia.
Qed.

Lemma bit_first_extend P lo mid hi r :
  lo <= mid -> (forall i, lo <= i < mid -> P i = false) ->
  bit_first P mid hi r -> bit_first P lo hi r.
Proof.
  intros Hm Hlow (Hr & Hl & Hs). split; [lia|]. split; [|done].
  intros i Hi. destruct (decide (i < mid)); [apply Hlow|apply Hl]; lia.
Qed.

Lemma bit_first_widen P lo mid hi r :
  mid <= hi -> r < mid -> bit_first P lo mid r -> bit_first P lo hi r.
Proof. intros Hm Hr (Hb & Hl & Hs). split; [lia|]. split; [done|]. auto. Qed.

Lemma find_bit_words_spec p : forall size result,
  words_ok p -> fits 64 size -> size <= 64 * Z.of_nat (length p) ->
  exists r, find_bit_words p size result = result + r /\ bit_first (bit p) 0 size r.
Proof.
  induction p as [|w p IH]; intros size result Hok Hf Hlen; unfold fits in Hf; simpl in Hlen.
  { assert (size = 0) as -> by lia. exists 0. split; [simpl; lia|]. split; [lia|]. split; lia. }
  inversion Hok as [|? ? Hw Hp]; subst. cbn [find_bit_words hd].
  rewrite nz_land_not63 by done. change (result + BITS_PER_LONG) with (result + 64).
  change (size - BITS_PER_LONG) with (size - 64). destruct (Z.leb_spec 64 size) as [H64|H64].
  - pose proof (word_search (bit (w :: p)) w 0 64 Hw) as HS. unfold nz.
    destruct (Z.eqb_spec w 0) as [->|Hnz]; simpl.
    + destruct (IH (size - 64) (result + 64)) as (r & -> & Hr); [done|split; lia|lia|].
      exists (r + 64). split; [lia|].
      apply (bit_first_shift _ (bit (0 :: p)) _ _ _ 64) in Hr.
      2:{ intros i Hi. rewrite bit_cons_high by lia. f_equal. lia. }
      rewrite Z.sub_add in Hr. apply (bit_first_extend _ _ 64); [lia| |done].
      intros i Hi. rewrite bit_cons_low by lia. apply Z.testbit_0_l.
    + exists (__ffs w). split; [done|]. destruct (__ffs_spec w Hw Hnz) as [_ Hlt].
      apply (bit_first_widen _ _ 64); [done|done|]. apply HS; [lia..|].
      intros i Hi. rewrite bit_cons_low by lia. bool_cases. by rewrite !andb_true_r.
  - destruct (Z.eqb_spec size 0) as [->|Hnz]; [exists 0; split; [lia|repeat split; lia]|].
    set (tmp := w .& _). pose proof (word_search (bit (w :: p)) tmp 0 size) as HS.
    exists (if tmp =? 0 then size else __ffs tmp). split; [by destruct (tmp =? 0)|].
    apply HS; [by apply fits_land|lia..|].
    intros i Hi. unfold tmp. rewrite testbit_low_mask by lia.
    rewrite bit_cons_low by lia. bool_cases; by rewrite ?andb_true_r.
Qed.

Lemma find_first_bit_spec addr size :
  words_ok addr -> fits 64 size -> size <= 64 * Z.of_nat (length addr) ->
  bit_first (bit addr) 0 size (find_first_bit addr size).
Proof.
  intros. unfold find_first_bit.
  destruct (find_bit_words_spec addr size 0) as (r & -> & Hr); [done..|]. by rewrite Z.add_0_l.
Qed.

Lemma bit_tl p i : 64 <= i -> bit p i = bit (tl p) (i - 64).
Proof.
  destruct p as [|w p]; intros; [|by apply bit_cons_high].
  unfold bit. by rewrite !nth_overflow, !Z.testbit_0_l by (simpl; lia).
Qed.

Lemma find_next_words_spec p size o result :
  words_ok p -> fits 64 size -> size <= 64 * Z.of_nat (length p) -> 0 <= o < 64 -> o < size ->
  exists r, find_next_words p size o result = result + r /\ bit_first (bit p) o size r.
Proof.
  intros Hok Hsz Hlen Ho Hos. unfold find_next_words. pose proof (words_ok_hd p Hok) as Hhd.
  destruct (nz o) eqn:Eo.
  2:{ apply nz_false in Eo as ->. by apply find_bit_words_spec. }
  apply nz_true in Eo. change BITS_PER_LONG with 64. unfold fits in Hsz.
  set (tmp := hd 0 p .& (ULONG_MAX <<u o)).
  assert (Htmp : fits 64 tmp).
  { by apply fits_land. }
  assert (Htb : forall i, 0 <= i < 64 -> Z.testbit tmp i = bit p i && (o <=? i)).
  { intros. unfold tmp. rewrite testbit_high_mask by lia. by rewrite bit_hd. }
  destruct (Z.ltb_spec size 64) as [Hlt|Hge].
  - set (t2 := tmp .& _). exists (if t2 =? 0 then size else __ffs t2).
    split; [by destruct (t2 =? 0)|]. apply word_search; [|lia..|].
    { by apply fits_land. }
    intros i Hi. unfold t2. rewrite (testbit_low_mask tmp size) by lia. by rewrite Htb by lia.
  - assert (HS : bit_first (bit p) o 64 (if tmp =? 0 then 64 else __ffs tmp)).
    { apply word_search; [done|lia..|]. intros i Hi. rewrite Htb by lia.
      bool_cases; by rewrite ?andb_true_r. }
    unfold nz. destruct (Z.eqb_spec tmp 0) as [E|E]; simpl.
    + destruct (find_bit_words_spec (tl p) (size - 64) (result + 64)) as (r & -> & Hr).
      { destruct Hok; [constructor|done]. }
      { split; lia. }
      { destruct p; simpl in *; lia. }
      exists (r + 64). split; [lia|].
      apply (bit_first_shift _ (bit p) _ _ _ 64) in Hr.
      2:{ intros i Hi. rewrite (bit_tl p) by lia. f_equal. lia. }
      rewrite Z.sub_add in Hr. destruct HS as (_ & HS & _).
      by apply (bit_first_extend _ _ 64); [lia|..].
    + exists (__ffs tmp). split; [done|]. destruct (__ffs_spec tmp Htmp E).
      by apply (bit_first_widen _ _ 64).
Qed.

Lemma find_next_bit_first addr size offset :
  words_ok addr -> fits 64 size -> size <= 64 * Z.of_nat (length addr) -> 0 <= offset <= size ->
  bit_first (bit addr) offset size (find_next_bit addr size offset).
Proof.
  intros Hok Hsz Hlen Hoff. unfold find_next_bit, BIT_WORD.
  destruct (Z.leb_spec size offset) as [Hle|Hlt]; [repeat split; lia|].
  rewrite land_not63 by (unfold fits in *; lia). change BITS_PER_LONG with 64.
  pose proof (Z.div_mod offset 64 ltac:(lia)) as Hdm. pose proof (Z.mod_pos_bound offset 64 ltac:(lia)).
  assert (0 <= offset / 64) by (apply Z.div_pos; lia). unfold fits in Hsz.
  destruct (find_next_words_spec (drop (Z.to_nat (offset / 64)) addr) (size - 64 * (offset / 64))
              (offset mod 64) (64 * (offset / 64))) as (r & -> & Hr).
  { by apply words_ok_drop. }
  { split; lia. }
  { rewrite length_drop. lia. }
  { lia. }
  { lia. }
  apply (bit_first_shift _ (bit addr) _ _ _ (64 * (offset / 64))) in Hr.
  2:{ intros i Hi. rewrite bit_drop by lia. f_equal. lia. }
  replace (offset mod 64 + 64 * (offset / 64)) with offset in Hr by lia.
  rewrite Z.sub_add, (Z.add_comm r) in Hr. done.
Qed.

(** ** Iteration *)

(** The indices in [lo, hi) that satisfy [P], in increasing order. *)
Definition set_bits (P : Z -> bool) (lo hi : Z) : list Z := List.filter P (seqZ lo (hi - lo)).

Lemma set_bits_step P lo hi :
  lo < hi -> set_bits P lo hi = (if P lo then [lo] else []) ++ set_bits P (lo + 1) hi.
Proof.
  intros. unfold set_bits. rewrite seqZ_cons by lia.
  replace (Z.pred (hi - lo)) with (hi - (lo + 1)) by lia. simpl. by destruct (P lo).
Qed.

Lemma set_bits_nil P lo hi : hi <= lo -> set_bits P lo hi = [].
Proof. intros. unfold set_bits. by rewrite seqZ_nil by lia. Qed.

Lemma elem_of_set_bits P lo hi i : i ∈ set_bits P lo hi <-> lo <= i < hi /\ P i = true.
Proof.
  unfold set_bits. rewrite list_elem_of_In, filter_In, <- list_elem_of_In, elem_of_seqZ.
  split; intros [? ?]; split; (lia || done).
Qed.

Lemma bit_first_set_bits P lo hi r :
  bit_first P lo hi r ->
  set_bits P lo hi = if r <? hi then r :: set_bits P (r + 1) hi else [].
Proof.
  intros (Hr & Hlow & Hset). remember (Z.to_nat (r - lo)) as n eqn:En. revert lo Hr Hlow En.
  induction n as [|n IH]; intros lo Hr Hlow En.
  - assert (lo = r) as -> by lia. destruct (Z.ltb_spec r hi); [|apply set_bits_nil; lia].
    rewrite set_bits_step, Hset by lia. done.
  - rewrite set_bits_step, Hlow by lia. apply IH; [lia| |lia]. intros; apply Hlow; lia.
Qed.

Lemma for_each_from_spec fuel : forall addr size lo b,
  words_ok addr -> fits 64 size -> size <= 64 * Z.of_nat (length addr) ->
  0 <= lo -> size - lo <= Z.of_nat fuel -> bit_first (bit addr) lo size b ->
  for_each_from fuel addr size b = set_bits (bit addr) lo size.
Proof.
  induction fuel as [|fuel IH]; intros addr size lo b Hok Hsz Hlen Hlo Hfuel Hb.
  { rewrite set_bits_nil by lia. done. }
  rewrite (bit_first_set_bits _ _ _ _ Hb). simpl. destruct (Z.ltb_spec b size); [|done].
  destruct Hb as (? & _ & _). f_equal. apply IH; try (done || lia).
  apply find_next_bit_first; (done || lia).
Qed.

Lemma for_each_set_bit_spec addr size :
  words_ok addr -> fits 64 size -> size <= 64 * Z.of_nat (length addr) ->
  for_each_set_bit addr size = set_bits (bit addr) 0 size.
Proof.
  intros Hok Hsz Hlen. unfold for_each_set_bit. unfold fits in Hsz.
  apply for_each_from_spec; try (done || lia). by apply find_first_bit_spec.
Qed.

(** * Properties of bit updates and hart masks *)

Lemma BIT_MASK_pow2 nr : 0 <= nr -> BIT_MASK nr = 2 ^ (nr mod 64).
Proof.
  intros. unfold BIT_MASK, shl64. change BITS_PER_LONG with 64.
  pose proof (Z.mod_pos_bound nr 64 ltac:(lia)). rewrite Z.shiftl_1_l. apply wrap_small.
  split; [apply Z.pow_nonneg; lia|]. apply Z.pow_lt_mono_r; lia.
Qed.

(** Updating the word of bit [nr] with [f] changes bit [i] as [f] does. *)
Lemma bit_upd_word addr nr f i :
  0 <= nr < 64 * Z.of_nat (length addr) -> 0 <= i ->
  bit (upd_word addr nr f) i =
  if i / 64 =? nr / 64 then Z.testbit (f (nth (Z.to_nat (nr / 64)) addr 0)) (i mod 64)
  else bit addr i.
Proof.
  intros Hnr Hi. unfold upd_word, bit, BIT_WORD. change BITS_PER_LONG with 64.
  assert (0 <= nr / 64 < Z.of_nat (length addr)).
  { split; [apply Z.div_pos; lia|apply Z.div_lt_upper_bound; lia]. }
  rewrite !nth_lookup. destruct (Z.eqb_spec (i / 64) (nr / 64)) as [->|Hne].
  - rewrite list_lookup_insert_eq by lia. done.
  - pose proof (Z.div_pos i 64). rewrite list_lookup_insert_ne by lia. done.
Qed.

Lemma same_word_bit i nr : i / 64 = nr / 64 -> (i mod 64 =? nr mod 64) = (i =? nr).
Proof.
  intros H. pose proof (Z.div_mod i 64 ltac:(lia)). pose proof (Z.div_mod nr 64 ltac:(lia)).
  destruct (Z.eqb_spec i nr), (Z.eqb_spec (i mod 64) (nr mod 64)); lia || done || congruence.
Qed.

Lemma diff_word_bit i nr : i / 64 <> nr / 64 -> (i =? nr) = false.
Proof. intros H. apply Z.eqb_neq. by intros ->. Qed.

Lemma __set_bit_spec nr addr i :
  0 <= nr < 64 * Z.of_nat (length addr) -> 0 <= i ->
  bit (__set_bit nr addr) i = bit addr i || (i =? nr).
Proof.
  intros Hnr Hi. unfold __set_bit. rewrite bit_upd_word by done.
  destruct (Z.eqb_spec (i / 64) (nr / 64)) as [E|E].
  - pose proof (Z.mod_pos_bound nr 64 ltac:(lia)).
    rewrite BIT_MASK_pow2 by lia. autorewrite with bits. rewrite same_word_bit by done.
    unfold bit. change BITS_PER_LONG with 64. by rewrite E.
  - by rewrite diff_word_bit, orb_false_r.
Qed.

Lemma __clear_bit_spec nr addr i :
  0 <= nr < 64 * Z.of_nat (length addr) -> 0 <= i ->
  bit (__clear_bit nr addr) i = bit addr i && negb (i =? nr).
Proof.
  intros Hnr Hi. unfold __clear_bit. rewrite bit_upd_word by done.
  destruct (Z.eqb_spec (i / 64) (nr / 64)) as [E|E].
  - pose proof (Z.mod_pos_bound nr 64 ltac:(lia)). pose proof (Z.mod_pos_bound i 64 ltac:(lia)).
    rewrite BIT_MASK_pow2 by lia. unfold not64. autorewrite with bits.
    rewrite same_word_bit by done. unfold bit. change BITS_PER_LONG with 64. rewrite E.
    f_equal. bool_cases; done.
  - by rewrite diff_word_bit, andb_true_r.
Qed.

Lemma __test_bit_spec nr addr : 0 <= nr -> __test_bit nr addr = Z.b2z (bit addr nr).
Proof.
  intros. unfold __test_bit, bit, BIT_WORD, shr64. change (BITS_PER_LONG - 1) with (Z.ones 6).
  rewrite (Z.land_ones nr) by lia. change (2 ^ 6) with 64. change BITS_PER_LONG with 64.
  pose proof (Z.mod_pos_bound nr 64 ltac:(lia)).
  set (w := nth _ _ _). rewrite Z.land_comm. change (Z.shiftr w (nr mod 64) .& 1) with
    (Z.shiftr w (nr mod 64) .& Z.ones 1).
  rewrite Z.land_ones, Z.shiftr_div_pow2, Z.testbit_spec' by lia. done.
Qed.

Lemma length_upd_word addr nr f : length (upd_word addr nr f) = length addr.
Proof. apply length_insert. Qed.

Lemma words_ok_upd_word addr nr f :
  words_ok addr -> (forall w, fits 64 w -> fits 64 (f w)) -> words_ok (upd_word addr nr f).
Proof.
  intros Hok Hf. unfold upd_word. apply Forall_insert; [done|]. apply Hf. rewrite nth_lookup.
  destruct (_ !! _) eqn:E; simpl; [|by apply fits_0]. by eapply Forall_lookup_1 in E.
Qed.

Lemma fits_BIT_MASK nr : fits 64 (BIT_MASK nr).
Proof. apply fits_u64. Qed.

(** A hart mask is two words, each 64 bits wide. *)
Definition hartmask_ok (m : list Z) : Prop := words_ok m /\ length m = 2%nat.

Lemma hartmask_ok_INIT_EXCEPT m h :
  hartmask_ok m -> 0 <= h -> hartmask_ok (SBI_HARTMASK_INIT_EXCEPT m h).
Proof.
  intros [Hok Hlen] Hh. unfold SBI_HARTMASK_INIT_EXCEPT, bitmap_zero_except, bitmap_zero.
  change (Z.to_nat (BITS_TO_LONGS SBI_HARTMASK_MAX_BITS)) with 2%nat.
  rewrite drop_ge by lia. simpl.
  assert (words_ok [0; 0]) by by apply (Forall_replicate _ 2), fits_0.
  destruct (_ <? _); [|done]. split; [|apply length_upd_word].
  apply words_ok_upd_word; [done|]. intros. apply fits_lor; [done|apply fits_BIT_MASK|lia].
Qed.

(** [SBI_HARTMASK_INIT_EXCEPT] leaves exactly the given hart set. *)
Lemma hartmask_init_except_bit m h i :
  length m = 2%nat -> 0 <= h -> 0 <= i < SBI_HARTMASK_MAX_BITS ->
  bit (SBI_HARTMASK_INIT_EXCEPT m h) i = (i =? h).
Proof.
  intros Hlen Hh Hi. unfold SBI_HARTMASK_INIT_EXCEPT, bitmap_zero_except, bitmap_zero.
  change (Z.to_nat (BITS_TO_LONGS SBI_HARTMASK_MAX_BITS)) with 2%nat.
  rewrite drop_ge by lia. simpl. change SBI_HARTMASK_MAX_BITS with 128 in *.
  assert (Hz : bit [0; 0] i = false).
  { unfold bit. destruct (Z.to_nat _) as [|[|[|]]]; apply Z.testbit_0_l. }
  destruct (Z.ltb_spec h 128).
  - rewrite __set_bit_spec by (simpl; lia). by rewrite Hz.
  - rewrite Hz. symmetry. apply Z.eqb_neq. lia.
Qed.

Lemma bit_bitmap_zip f g dst b1 b2 i :
  (forall x y n, Z.testbit (f x y) n = g (Z.testbit x n) (Z.testbit y n)) ->
  length b1 = 2%nat -> length b2 = 2%nat -> 0 <= i < 128 ->
  bit (bitmap_zip f dst b1 b2 128) i = g (bit b1 i) (bit b2 i).
Proof.
  intros Hf H1 H2 Hi. unfold bitmap_zip. change (Z.to_nat (BITS_TO_LONGS 128)) with 2%nat.
  destruct b1 as [|x1 [|y1 []]]; try done. destruct b2 as [|x2 [|y2 []]]; try done. simpl.
  destruct (decide (i < 64)).
  - rewrite !bit_cons_low by lia. apply Hf.
  - rewrite (bit_cons_high x1), (bit_cons_high x2), (bit_cons_high (f x1 x2)) by lia.
    rewrite !bit_cons_low by lia. apply Hf.
Qed.

Lemma hartmask_or_bit dst m1 m2 i :
  length m1 = 2%nat -> length m2 = 2%nat -> 0 <= i < SBI_HARTMASK_MAX_BITS ->
  bit (sbi_hartmask_or dst m1 m2) i = bit m1 i || bit m2 i.
Proof. intros. apply bit_bitmap_zip; try done. intros. apply Z.lor_spec. Qed.

Lemma hartmask_ok_or m1 m2 : hartmask_ok m1 -> hartmask_ok m2 -> hartmask_ok (sbi_hartmask_or m1 m1 m2).
Proof.
  intros [H1 L1] [H2 L2]. unfold sbi_hartmask_or, __bitmap_or, bitmap_zip.
  change (Z.to_nat (BITS_TO_LONGS SBI_HARTMASK_MAX_BITS)) with 2%nat.
  destruct m1 as [|x1 [|y1 []]]; try done. destruct m2 as [|x2 [|y2 []]]; try done.
  inversion_clear H1 as [|? ? ? Ha]. inversion_clear Ha. inversion_clear H2 as [|? ? ? Hb].
  inversion_clear Hb. split; [|done]. apply Forall_cons_2; [|apply Forall_cons_2; [|constructor]]; by apply fits_lor.
Qed.

(** * Properties of [log2roundup] *)

Lemma log2roundup_loop_spec fuel x : forall ret,
  0 <= ret -> ret + Z.of_nat fuel = 64 -> (forall k, 0 <= k < ret -> 2 ^ k < x) -> x <= 2 ^ 64 ->
  let r := log2roundup_loop fuel x ret in
  0 <= r <= 64 /\ x <= 2 ^ r /\ (forall k, 0 <= k < r -> 2 ^ k < x).
Proof.
  induction fuel as [|fuel IH]; intros ret Hret Hfuel Hlow Hx; simpl.
  - assert (ret = 64) as -> by lia. auto with lia.
  - destruct (Z.ltb_spec ret 64); [|lia].
    assert (shl64 1 ret = 2 ^ ret) as ->.
    { unfold shl64. rewrite Z.shiftl_1_l. apply wrap_small. split; [apply Z.pow_nonneg; lia|].
      apply Z.pow_lt_mono_r; lia. }
    destruct (Z.leb_spec x (2 ^ ret)); [auto with lia|].
    apply IH; [lia..| |done]. intros k Hk. destruct (decide (k = ret)) as [->|]; [done|].
    apply Hlow. lia.
Qed.

Lemma log2roundup_bounds x :
  0 <= x < 2 ^ 64 ->
  0 <= log2roundup x <= 64 /\ x <= 2 ^ log2roundup x /\ (forall k, 0 <= k < log2roundup x -> 2 ^ k < x).
Proof. intros. apply log2roundup_loop_spec; lia. Qed.

(** * The component's contract *)

(** Searching a bitmap for the next set bit from [offset] returns the
    position of the first set bit in [offset, size), and [size] when there is
    none, whatever the word boundaries crossed. *)
Theorem find_next_bit_spec (addr : list Z) (size offset : Z) :
  words_ok addr -> fits 64 size -> size <= 64 * Z.of_nat (length addr) -> 0 <= offset <= size ->
  let r := find_next_bit addr size offset in
  offset <= r <= size /\
  (forall i, offset <= i < r -> bit addr i = false) /\
  (r < size -> bit addr r = true).
Proof. apply find_next_bit_first. Qed.

Lemma find_next_bit_spec_witness :
  find_next_bit [1; 0; 4] 192 1 = 130 /\
  (forall i, 1 <= i < 130 -> bit [1; 0; 4] i = false) /\ bit [1; 0; 4] 130 = true.
Proof.
  destruct (find_next_bit_spec [1; 0; 4] 192 1) as (_ & Hlow & Hset).
  - repeat (apply Forall_cons_2; [split; lia|]). constructor.
  - split; lia.
  - simpl; lia.
  - lia.
  - assert (E : find_next_bit [1; 0; 4] 192 1 = 130) by (vm_compute; reflexivity).
    rewrite E in *. split; [done|]. split; [exact Hlow|]. apply Hset; lia.
Defined.

(** Iterating over a hart mask visits exactly the harts whose bit is set,
    each once, in increasing order. *)
Theorem sbi_hartmask_for_each_hart_spec (m : list Z) :
  hartmask_ok m ->
  sbi_hartmask_for_each_hart m = List.filter (bit m) (seqZ 0 SBI_HARTMASK_MAX_BITS).
Proof.
  intros [Hok Hlen]. unfold sbi_hartmask_for_each_hart.
  rewrite for_each_set_bit_spec; [done..| |]; change SBI_HARTMASK_MAX_BITS with 128;
    [split; lia|lia].
Qed.

Lemma sbi_hartmask_for_each_hart_spec_witness :
  sbi_hartmask_for_each_hart [9; 2] = [0; 3; 65].
Proof.
  rewrite sbi_hartmask_for_each_hart_spec.
  - vm_compute. reflexivity.
  - split; [|done]. repeat (apply Forall_cons_2; [split; lia|]). constructor.
Defined.

(** [log2roundup] of an [unsigned long] is the least [k] with
    [x <= 2^k]; it never exceeds the register width. *)
Theorem log2roundup_least (x : Z) :
  0 <= x < 2 ^ 64 ->
  0 <= log2roundup x <= 64 /\ x <= 2 ^ log2roundup x /\
  (forall k, 0 <= k -> x <= 2 ^ k -> log2roundup x <= k).
Proof.
  intros Hx. destruct (log2roundup_bounds x Hx) as (Hr & Hle & Hmin).
  split; [done|]. split; [done|]. intros k Hk Hxk.
  destruct (decide (log2roundup x <= k)); [done|]. specialize (Hmin k). lia.
Qed.

Lemma log2roundup_least_witness : log2roundup 4097 = 13 /\ 4097 <= 2 ^ 13.
Proof.
  destruct (log2roundup_least 4097) as (_ & Hle & _); [lia|].
  assert (E : log2roundup 4097 = 13) by (vm_compute; reflexivity).
  rewrite E in Hle. by split.
Defined.
