(* ===== verification/Cstring.v ===== *)
(** The C library routines of [lib/sbi/sbi_string.c].

    A pointer that is only read is the list of bytes from it to the end of its
    object; dereferencing past the end (undefined in C) is [None].  A routine
    that writes returns the new contents of the destination object.  [char] is
    unsigned on RISC-V. *)

From S2P Require Import Prelude.

(** [for (; *a == *b && *a != '\0'; a++, b++); return *a - *b;] *)
Fixpoint sbi_strcmp (a b : list Z) : option Z :=
  match a, b with
  | x :: a', y :: b' => if (x =? y) && nz x then sbi_strcmp a' b' else Some (x - y)
  | _, _ => None
  end.

Fixpoint strlen_loop (str : list Z) (ret : Z) : option Z :=
  match str with
  | [] => None
  | c :: str' => if nz c then strlen_loop str' (u64 (ret + 1)) else Some ret
  end.
Definition sbi_strlen (str : list Z) : option Z := strlen_loop str 0.

(** The loop of [sbi_strnlen] increments [ret] and also decrements [count]. *)
Fixpoint strnlen_loop (str : list Z) (ret count : Z) : option Z :=
  match str with
  | [] => None
  | c :: str' =>
      if nz c && (ret <? count) then strnlen_loop str' (u64 (ret + 1)) (u64 (count - 1))
      else Some ret
  end.
Definition sbi_strnlen (str : list Z) (count : Z) : option Z := strnlen_loop str 0 count.

(** Copies up to, and not including, the terminating NUL. *)
Fixpoint sbi_strcpy (dest src : list Z) {struct src} : option (list Z) :=
  match src with
  | [] => None
  | c :: src' =>
      if nz c then
        match dest with
        | [] => None
        | _ :: dest' => cons c <$> sbi_strcpy dest' src'
        end
      else Some dest
  end.

Fixpoint sbi_strncpy (dest src : list Z) (count : nat) {struct count} : option (list Z) :=
  match count with
  | O => Some dest
  | S count' =>
      match src with
      | [] => None
      | c :: src' =>
          if nz c then
            match dest with
            | [] => None
            | _ :: dest' => cons c <$> sbi_strncpy dest' src' count'
            end
          else Some dest
      end
  end.

(** The result is the offset of the returned pointer from [s]; the outer
    option is the memory access, the inner one the C null pointer. *)
Fixpoint strchr_loop (s : list Z) (c off : Z) : option (option Z) :=
  match s with
  | [] => None
  | x :: s' =>
      if nz x && negb (x =? u8 c) then strchr_loop s' c (off + 1)
      else if x =? 0 then Some None else Some (Some off)
  end.
Definition sbi_strchr (s : list Z) (c : Z) : option (option Z) := strchr_loop s c 0.

(** [while (last > s && *last != (char)c) last--;] from offset [n]. *)
Fixpoint strrchr_loop (s : list Z) (c : Z) (n : nat) : option (option Z) :=
  x ← s !! n;
  match n with
  | O => if x =? u8 c then Some (Some 0) else Some None
  | S n' => if x =? u8 c then Some (Some (Z.of_nat n)) else strrchr_loop s c n'
  end.
Definition sbi_strrchr (s : list Z) (c : Z) : option (option Z) :=
  n ← sbi_strlen s; strrchr_loop s c (Z.to_nat n).

Fixpoint sbi_memset (s : list Z) (off : nat) (c : Z) (count : nat) : list Z :=
  match count with
  | O => s
  | S count' => sbi_memset (<[off := u8 c]> s) (S off) c count'
  end.

(** [sbi_memcpy] between two objects: [dest + d] from [src + s]. *)
Fixpoint sbi_memcpy (dest : list Z) (d : nat) (src : list Z) (s count : nat) : list Z :=
  match count with
  | O => dest
  | S count' => sbi_memcpy (<[d := nth s src 0]> dest) (S d) src (S s) count'
  end.

(** [sbi_memmove] inside one object [m]. *)
Fixpoint memmove_up (m : list Z) (d s count : nat) : list Z :=
  match count with
  | O => m
  | S count' => memmove_up (<[d := nth s m 0]> m) (S d) (S s) count'
  end.
(** The downward loop: the next byte to copy is the one at [count - 1]. *)
Fixpoint memmove_down (m : list Z) (d s count : nat) : list Z :=
  match count with
  | O => m
  | S count' => memmove_down (<[(d + count')%nat := nth (s + count') m 0]> m) d s count'
  end.
Definition sbi_memmove (m : list Z) (d s count : nat) : list Z :=
  if (s =? d)%nat then m
  else if (d <? s)%nat then memmove_up m d s count
  else memmove_down m d s count.

Fixpoint sbi_memcmp (s1 s2 : list Z) (count : nat) : option Z :=
  match count with
  | O => Some 0
  | S count' =>
      match s1, s2 with
      | x :: s1', y :: s2' => if x =? y then sbi_memcmp s1' s2' count' else Some (x - y)
      | _, _ => None
      end
  end.

Fixpoint memchr_loop (s : list Z) (c : Z) (count : nat) (off : Z) : option (option Z) :=
  match count with
  | O => Some None
  | S count' =>
      match s with
      | [] => None
      | x :: s' => if u8 c =? x then Some (Some off) else memchr_loop s' c count' (off + 1)
      end
  end.
Definition sbi_memchr (s : list Z) (c : Z) (count : nat) : option (option Z) :=
  memchr_loop s c count 0.

(** * Copying *)

Lemma length_sbi_memcpy count : forall dest d src s,
  length (sbi_memcpy dest d src s count) = length dest.
Proof. induction count; intros; simpl; [done|]. by rewrite IHcount, length_insert. Qed.

Lemma length_sbi_memset count : forall s off c, length (sbi_memset s off c count) = length s.
Proof. induction count; intros; simpl; [done|]. by rewrite IHcount, length_insert. Qed.

Lemma nth_insert (l : list Z) i j x d :
  nth j (<[i := x]> l) d = if decide (i = j /\ (j < length l)%nat) then x else nth j l d.
Proof.
  rewrite !nth_lookup. case_decide as H.
  - destruct H as [-> H]. by rewrite list_lookup_insert_eq.
  - destruct (decide (i = j)) as [->|]; [|by rewrite list_lookup_insert_ne].
    rewrite list_insert_ge by lia. done.
Qed.

(** Byte [j] after a copy. *)
Lemma nth_sbi_memcpy count : forall dest d src s j,
  (d + count <= length dest)%nat ->
  nth j (sbi_memcpy dest d src s count) 0 =
  if decide (d <= j < d + count)%nat then nth (s + (j - d)) src 0 else nth j dest 0.
Proof.
  induction count as [|count IH]; intros dest d src s j Hlen; simpl.
  { case_decide; [lia|done]. }
  rewrite IH by (rewrite length_insert; lia). rewrite nth_insert.
  repeat case_decide; try lia; try done.
  - f_equal. lia.
  - f_equal. lia.
Qed.

Lemma list_eq_nth (l k : list Z) :
  length l = length k -> (forall j, (j < length l)%nat -> nth j l 0 = nth j k 0) -> l = k.
Proof. intros. by apply nth_ext with 0 0. Qed.

(** A copy replaces a slice of the destination by a slice of the source. *)
Lemma sbi_memcpy_slice dest d src s count :
  (d + count <= length dest)%nat -> (s + count <= length src)%nat ->
  sbi_memcpy dest d src s count = take d dest ++ take count (drop s src) ++ drop (d + count) dest.
Proof.
  intros Hd Hs. apply list_eq_nth.
  { rewrite length_sbi_memcpy, !length_app, !length_take, !length_drop. lia. }
  intros j Hj. rewrite length_sbi_memcpy in Hj. rewrite nth_sbi_memcpy by done.
  rewrite !nth_lookup. case_decide as H.
  - rewrite lookup_app_r by (rewrite length_take; lia). rewrite length_take.
    rewrite lookup_app_l by (rewrite length_take, length_drop; lia).
    rewrite lookup_take_lt by lia. rewrite lookup_drop. f_equal. f_equal. lia.
  - destruct (decide (j < d)%nat).
    + rewrite lookup_app_l by (rewrite length_take; lia). by rewrite lookup_take_lt by lia.
    + rewrite lookup_app_r by (rewrite length_take; lia).
      rewrite lookup_app_r by (rewrite !length_take, length_drop; lia).
      rewrite !length_take, length_drop, lookup_drop. f_equal. f_equal. lia.
Qed.

Lemma nth_sbi_memset count : forall s off c j,
  (off + count <= length s)%nat ->
  nth j (sbi_memset s off c count) 0 =
  if decide (off <= j < off + count)%nat then u8 c else nth j s 0.
Proof.
  induction count as [|count IH]; intros s off c j Hlen; simpl.
  { case_decide; [lia|done]. }
  rewrite IH by (rewrite length_insert; lia). rewrite nth_insert.
  repeat case_decide; (lia || done).
Qed.

Lemma length_memmove_up count : forall m d s, length (memmove_up m d s count) = length m.
Proof. induction count; intros; simpl; [done|]. by rewrite IHcount, length_insert. Qed.
Lemma length_memmove_down count : forall m d s, length (memmove_down m d s count) = length m.
Proof. induction count; intros; simpl; [done|]. by rewrite IHcount, length_insert. Qed.

(** Copying upwards is right when the destination is below the source... *)
Lemma nth_memmove_up count : forall m d s j,
  (d < s)%nat -> (s + count <= length m)%nat ->
  nth j (memmove_up m d s count) 0 =
  if decide (d <= j < d + count)%nat then nth (s + (j - d)) m 0 else nth j m 0.
Proof.
  induction count as [|count IH]; intros m d s j Hds Hlen; simpl.
  { case_decide; [lia|done]. }
  rewrite IH by (try rewrite length_insert; lia). rewrite !nth_insert.
  repeat case_decide; try lia; try done; f_equal; lia.
Qed.

(** ... and downwards when it is above. *)
Lemma nth_memmove_down count : forall m d s j,
  (s < d)%nat -> (d + count <= length m)%nat ->
  nth j (memmove_down m d s count) 0 =
  if decide (d <= j < d + count)%nat then nth (s + (j - d)) m 0 else nth j m 0.
Proof.
  induction count as [|count IH]; intros m d s j Hds Hlen; simpl.
  { case_decide; [lia|done]. }
  rewrite IH by (try rewrite length_insert; lia). rewrite !nth_insert.
  repeat case_decide; try lia; try done; f_equal; lia.
Qed.

(** * Strings *)

(** [l] holds the NUL-terminated string [s]. *)
Definition cstr (s l : list Z) : Prop := Forall (fun c => fits 8 c /\ c <> 0) s /\ exists r, l = s ++ 0 :: r.

Lemma strlen_loop_spec s : forall r n,
  Forall (fun c => fits 8 c /\ c <> 0) s -> 0 <= n -> n + Z.of_nat (length s) < 2 ^ 64 ->
  strlen_loop (s ++ 0 :: r) n = Some (n + Z.of_nat (length s)).
Proof.
  induction s as [|c s IH]; intros r n Hs Hn Hlen; simpl in *.
  { f_equal. lia. }
  inversion_clear Hs as [|? ? [_ Hc] Hs']. rewrite (proj2 (nz_true c) Hc).
  unfold u64. rewrite wrap_small by (unfold fits; lia). rewrite IH by (done || lia). f_equal. lia.
Qed.

Lemma sbi_strlen_spec s l :
  cstr s l -> Z.of_nat (length s) < 2 ^ 64 -> sbi_strlen l = Some (Z.of_nat (length s)).
Proof. intros [Hs [r ->]] Hlen. unfold sbi_strlen. by rewrite strlen_loop_spec. Qed.

Lemma strnlen_loop_spec s : forall r n count,
  Forall (fun c => fits 8 c /\ c <> 0) s -> 0 <= n < 2 ^ 62 -> 0 <= count < 2 ^ 62 -> n <= count + 1 ->
  strnlen_loop (s ++ 0 :: r) n count = Some (n + Z.min (Z.of_nat (length s)) ((count - n + 1) / 2)).
Proof.
  induction s as [|c s IH]; intros r n count Hs Hn Hc Hle; simpl.
  { f_equal. pose proof (Z.div_pos (count - n + 1) 2). lia. }
  inversion_clear Hs as [|? ? [_ Hcz] Hs']. rewrite (proj2 (nz_true c) Hcz). simpl.
  destruct (Z.ltb_spec n count) as [Hlt|Hge].
  - unfold u64. rewrite !wrap_small by (unfold fits; lia). rewrite IH by (done || lia). f_equal.
    replace (count - n + 1) with (count - 1 - (n + 1) + 1 + 1 * 2) by lia.
    rewrite Z.div_add by lia. lia.
  - f_equal. assert ((count - n + 1) / 2 = 0) as -> by (apply Z.div_small; lia). lia.
Qed.

Lemma sbi_strcmp_spec s : forall t a b,
  cstr s a -> cstr t b -> exists r, sbi_strcmp a b = Some r /\ (r = 0 <-> s = t).
Proof.
  induction s as [|x s IH]; intros t a b [Hs [ra ->]] [Ht [rb ->]].
  - destruct t as [|y t]; simpl; [by exists 0|].
    inversion_clear Ht as [|? ? [_ Hy] _]. rewrite (proj2 (Z.eqb_neq 0 y)) by congruence. simpl.
    exists (0 - y). split; [done|]. split; [lia|done].
  - inversion_clear Hs as [|? ? [_ Hx] Hs']. destruct t as [|y t]; simpl.
    + rewrite (proj2 (Z.eqb_neq x 0)) by done. exists (x - 0). split; [done|]. split; [lia|done].
    + inversion_clear Ht as [|? ? [_ Hy] Ht']. rewrite (proj2 (nz_true x) Hx), andb_true_r.
      destruct (Z.eqb_spec x y) as [->|Hne].
      * destruct (IH t (s ++ 0 :: ra) (t ++ 0 :: rb)) as (r & -> & Hr); [split; eauto..|].
        exists r. split; [done|]. rewrite Hr. split; [by intros ->|by intros [= ->]].
      * exists (x - y). split; [done|]. split; [lia|]. intros [= ?]. done.
Qed.

Lemma sbi_strcpy_spec s : forall dest src,
  cstr s src -> (length s <= length dest)%nat ->
  sbi_strcpy dest src = Some (s ++ drop (length s) dest).
Proof.
  induction s as [|c s IH]; intros dest src [Hs [r ->]] Hlen; simpl.
  { by rewrite drop_0. }
  inversion_clear Hs as [|? ? [_ Hc] Hs']. rewrite (proj2 (nz_true c) Hc).
  destruct dest as [|d dest]; simpl in Hlen; [lia|].
  rewrite IH; [done|split; [done|by exists r]|lia].
Qed.

(** [sbi_memmove] replaces a slice by what another slice held before. *)
Lemma sbi_memmove_slice m d s count :
  (d + count <= length m)%nat -> (s + count <= length m)%nat ->
  sbi_memmove m d s count = take d m ++ take count (drop s m) ++ drop (d + count) m.
Proof.
  intros Hd Hs. rewrite <- (sbi_memcpy_slice m d m s count) by done.
  assert (Hlen : length (sbi_memmove m d s count) = length m).
  { unfold sbi_memmove. repeat case_match; auto using length_memmove_up, length_memmove_down. }
  apply list_eq_nth; [by rewrite Hlen, length_sbi_memcpy|]. intros j _.
  rewrite nth_sbi_memcpy by done. unfold sbi_memmove.
  destruct (Nat.eqb_spec s d) as [->|Hne].
  { case_decide; [f_equal; lia|done]. }
  destruct (Nat.ltb_spec d s); [apply nth_memmove_up|apply nth_memmove_down]; lia.
Qed.

(** * Properties *)

(** [sbi_memmove] is a parallel copy: whatever the overlap of the two
    ranges, the destination range holds the bytes the source range held before
    the call, and no other byte changes. *)
Theorem sbi_memmove_correct m d s count :
  (d + count <= length m)%nat -> (s + count <= length m)%nat ->
  sbi_memmove m d s count = take d m ++ take count (drop s m) ++ drop (d + count) m.
Proof. apply sbi_memmove_slice. Qed.

Lemma sbi_memmove_correct_witness :
  sbi_memmove [1; 2; 3; 4; 5] 1 0 3 = [1; 1; 2; 3; 5].
Proof. rewrite (sbi_memmove_correct [1; 2; 3; 4; 5] 1 0 3); [reflexivity|simpl; lia..]. Defined.

(** [sbi_strcmp] on two terminated strings returns, and returns zero
    exactly when the strings are equal. *)
Theorem sbi_strcmp_equal s t a b :
  cstr s a -> cstr t b -> exists r, sbi_strcmp a b = Some r /\ (r = 0 <-> s = t).
Proof. apply sbi_strcmp_spec. Qed.

Lemma sbi_strcmp_equal_witness :
  exists r, sbi_strcmp [97; 98; 0; 7] [97; 99; 0] = Some r /\ (r = 0 <-> [97; 98] = [97; 99]).
Proof.
  apply (sbi_strcmp_equal [97; 98] [97; 99]).
  - split; [repeat constructor; done|by exists [7]].
  - split; [repeat constructor; done|by exists []].
Defined.

(** [sbi_strnlen] moves both its counter and its limit, so on a string
    longer than half the limit it stops at half of it: the result is the
    minimum of the length and [ceil(count / 2)], not of the length and
    [count]. *)
Theorem sbi_strnlen_half s l count :
  cstr s l -> 0 <= count < 2 ^ 62 ->
  sbi_strnlen l count = Some (Z.min (Z.of_nat (length s)) ((count + 1) / 2)).
Proof.
  intros [Hs [r ->]] Hc. unfold sbi_strnlen. rewrite strnlen_loop_spec by (done || lia).
  rewrite Z.sub_0_r. done.
Qed.

Lemma sbi_strnlen_half_witness : sbi_strnlen [97; 98; 99; 100; 0] 4 = Some 2.
Proof.
  rewrite (sbi_strnlen_half [97; 98; 99; 100] _ 4); [reflexivity| |lia].
  split; [repeat constructor; done|by exists []].
Defined.

(** [sbi_strcpy] copies the characters of the source and leaves every
    later byte of the destination as it was: the terminating NUL is not
    written. *)
Theorem sbi_strcpy_no_terminator s dest src :
  cstr s src -> (length s <= length dest)%nat ->
  sbi_strcpy dest src = Some (s ++ drop (length s) dest).
Proof. apply sbi_strcpy_spec. Qed.

Lemma sbi_strcpy_no_terminator_witness : sbi_strcpy [120; 120; 120] [97; 98; 0] = Some [97; 98; 120].
Proof.
  apply (sbi_strcpy_no_terminator [97; 98] [120; 120; 120]); [|simpl; lia].
  split; [repeat constructor; done|by exists []].
Defined.
