(* ===== verification/Locks.v ===== *)
(** Spin locks: [lib/sbi/riscv_locks.c].

    The four routines are functions of the lock word.  [spin_lock] is a loop
    that reads the word and then tries an atomic swap; the interleaving of
    several harts in it is the step relation [lock_step], whose steps are the
    atomic accesses of the code. *)

From S2P Require Import Prelude.

Definition __RISCV_SPIN_UNLOCKED : Z := 0.

Definition spin_lock_check (lock : Z) : Z := if lock =? __RISCV_SPIN_UNLOCKED then 0 else 1.

(** [amoswap.w busy, 1, lock; return !busy]: the result and the new word. *)
Definition spin_trylock (lock : Z) : Z * Z :=
  let busy := lock in (if busy =? 0 then 1 else 0, 1).

(** [spin_lock] run by one hart while no other hart touches the word: it
    returns with the lock taken, or spins forever ([None]). *)
Definition spin_lock (lock : Z) : option Z :=
  if nz (spin_lock_check lock) then None
  else let '(ok, lock') := spin_trylock lock in if nz ok then Some lock' else None.

Definition spin_unlock (lock : Z) : Z := __RISCV_SPIN_UNLOCKED.

(** * Several harts *)

(** Where a hart is: outside, before the check, before the swap, inside. *)
Inductive lock_pc := LIdle | LCheck | LTry | LHeld.

#[export] Instance lock_pc_eq_dec : EqDecision lock_pc.
Proof. solve_decision. Defined.

Record lock_state := mkLock { lword : Z; lpc : Z -> lock_pc }.

Definition set_pc (f : Z -> lock_pc) (h : Z) (p : lock_pc) : Z -> lock_pc :=
  fun k => if decide (k = h) then p else f k.

Inductive lock_step : lock_state -> lock_state -> Prop :=
| step_call w f h :
    f h = LIdle -> lock_step (mkLock w f) (mkLock w (set_pc f h LCheck))
| step_check w f h :
    f h = LCheck ->
    lock_step (mkLock w f)
      (mkLock w (set_pc f h (if nz (spin_lock_check w) then LCheck else LTry)))
| step_try w f h :
    f h = LTry ->
    lock_step (mkLock w f)
      (mkLock (snd (spin_trylock w))
         (set_pc f h (if nz (fst (spin_trylock w)) then LHeld else LCheck)))
| step_unlock w f h :
    f h = LHeld -> lock_step (mkLock w f) (mkLock (spin_unlock w) (set_pc f h LIdle)).

Inductive lock_reach : lock_state -> Prop :=
| reach_init : lock_reach (mkLock __RISCV_SPIN_UNLOCKED (fun _ => LIdle))
| reach_step s s' : lock_reach s -> lock_step s s' -> lock_reach s'.

(** The word is 0 or 1, it is 1 when a hart is inside, and at most one is. *)
Definition lock_inv (s : lock_state) : Prop :=
  (lword s = 0 /\ forall h, lpc s h <> LHeld) \/
  (lword s = 1 /\ exists h, lpc s h = LHeld /\ forall k, lpc s k = LHeld -> k = h).

Lemma set_pc_held f h p k : set_pc f h p k = LHeld -> (k = h /\ p = LHeld) \/ (k <> h /\ f k = LHeld).
Proof. unfold set_pc. case_decide; naive_solver. Qed.

Lemma set_pc_eq f h p : set_pc f h p h = p.
Proof. unfold set_pc. by rewrite decide_True. Qed.

Lemma set_pc_ne f h p k : k <> h -> set_pc f h p k = f k.
Proof. intros. unfold set_pc. by rewrite decide_False. Qed.

(** A hart that is not inside may move anywhere but inside. *)
Lemma lock_inv_move w f h p :
  f h <> LHeld -> p <> LHeld -> lock_inv (mkLock w f) -> lock_inv (mkLock w (set_pc f h p)).
Proof.
  intros Hf Hp [[Hw Hn]|(Hw & k & Hk & Hu)]; simpl in *.
  - left. split; [done|]. intros j [[-> ?]|[? ?]]%set_pc_held; [done|by apply (Hn j)].
  - right. split; [done|]. exists k. simpl.
    rewrite set_pc_ne by congruence. split; [done|].
    intros j [[-> ?]|[? ?]]%set_pc_held; [done|auto].
Qed.

Lemma lock_step_inv s s' : lock_step s s' -> lock_inv s -> lock_inv s'.
Proof.
  destruct 1 as [w f h Hh|w f h Hh|w f h Hh|w f h Hh]; intros Hinv.
  - by apply lock_inv_move; [congruence|..].
  - apply lock_inv_move; [congruence|by destruct (nz _)|done].
  - destruct Hinv as [[Hw Hn]|(Hw & k & Hk & Hu)]; simpl in *; subst w.
    + right. split; [done|]. exists h. simpl. rewrite set_pc_eq. split; [done|].
      intros j [[-> _]|[_ ?]]%set_pc_held; [done|by destruct (Hn j)].
    + simpl. apply (lock_inv_move 1 f h LCheck); [congruence|done|]. right. eauto.
  - left. simpl. split; [done|]. intros j [[_ ?]|[? Hj]]%set_pc_held; [done|].
    destruct Hinv as [[Hw Hn]|(Hw & k & Hk & Hu)]; simpl in *; [by apply (Hn h)|].
    rewrite (Hu _ Hj), (Hu _ Hh) in *. done.
Qed.

Lemma lock_reach_inv s : lock_reach s -> lock_inv s.
Proof. induction 1; [left; done|by eapply lock_step_inv]. Qed.

(** C29: Mutual exclusion of [spin_lock]: in every interleaving of any number
    of harts that take and release the lock, at most one hart is between its
    [spin_lock] and its [spin_unlock]. *)
Theorem spin_lock_mutex s h k :
  lock_reach s -> lpc s h = LHeld -> lpc s k = LHeld -> h = k.
Proof.
  intros [[_ Hn]|(_ & j & _ & Hu)]%lock_reach_inv Hh Hk; [by destruct (Hn h)|].
  by rewrite (Hu h), (Hu k).
Qed.

(** Harts 3 and 5 both see the lock free, hart 3 swaps first and hart 5 swaps
    in vain: hart 3 is inside, alone, and hart 5 is back at the check. *)
Definition contended : lock_state :=
  mkLock 1 (set_pc (set_pc (set_pc (set_pc (set_pc (set_pc (fun _ => LIdle)
    3 LCheck) 5 LCheck) 3 LTry) 5 LTry) 3 LHeld) 5 LCheck).

Lemma contended_reach : lock_reach contended.
Proof.
  apply (reach_step _ _) with (2 := step_try 1 _ 5 eq_refl).
  apply (reach_step _ _) with (2 := step_try 0 _ 3 eq_refl).
  apply (reach_step _ _) with (2 := step_check 0 _ 5 eq_refl).
  apply (reach_step _ _) with (2 := step_check 0 _ 3 eq_refl).
  apply (reach_step _ _) with (2 := step_call 0 _ 5 eq_refl).
  apply (reach_step _ _) with (2 := step_call 0 _ 3 eq_refl).
  apply reach_init.
Qed.

Lemma spin_lock_mutex_witness :
  lock_reach contended /\ lpc contended 3 = LHeld /\ lpc contended 5 = LCheck /\
  forall k, lpc contended k = LHeld -> k = 3.
Proof.
  split; [exact contended_reach|]. split; [reflexivity|]. split; [reflexivity|].
  intros k Hk. exact (spin_lock_mutex contended k 3 contended_reach Hk eq_refl).
Defined.

(** The sequential routine takes a free lock. *)
Lemma spin_lock_free lock : lock = __RISCV_SPIN_UNLOCKED -> spin_lock lock = Some 1.
Proof. by intros ->. Qed.
