(* ===== verification/Fifo.v ===== *)
(** The lock-protected ring buffer of fixed-size entries:
    [include/sbi/sbi_fifo.h] and [lib/sbi/sbi_fifo.c].

    The queue memory is the byte array the code indexes; [abs] reads from it
    the list of pending entries, and the operations are proved to implement a
    bounded queue on that list.  A NULL argument is [None]; an operation that
    would spin forever on a held lock returns [None]. *)

From S2P Require Import Prelude Encoding Cstring Locks.

Definition SBI_FIFO_SKIP : Z := 0.
Definition SBI_FIFO_UPDATED : Z := 1.
Definition SBI_FIFO_UNCHANGED : Z := 2.

Record sbi_fifo := mkFifo {
  queue : list Z;
  qlock : Z;
  entry_size : Z;
  num_entries : Z;
  avail : Z;
  tail : Z
}.

Definition with_lock (f : sbi_fifo) (l : Z) : sbi_fifo :=
  mkFifo (queue f) l (entry_size f) (num_entries f) (avail f) (tail f).
Definition with_queue (f : sbi_fifo) (q : list Z) : sbi_fifo :=
  mkFifo q (qlock f) (entry_size f) (num_entries f) (avail f) (tail f).
Definition with_pos (f : sbi_fifo) (a t : Z) : sbi_fifo :=
  mkFifo (queue f) (qlock f) (entry_size f) (num_entries f) a t.

(** [spin_lock(&fifo->qlock)]; [None] when it spins forever. *)
Definition lock (f : sbi_fifo) : option sbi_fifo := with_lock f <$> spin_lock (qlock f).
Definition unlock (f : sbi_fifo) : sbi_fifo := with_lock f (spin_unlock (qlock f)).

Definition sbi_fifo_init (queue_mem : list Z) (entries entry_sz : Z) : sbi_fifo :=
  mkFifo (sbi_memset queue_mem 0 0 (Z.to_nat (entries * entry_sz)))
    __RISCV_SPIN_UNLOCKED entry_sz entries 0 0.

Definition __sbi_fifo_is_full (f : sbi_fifo) : bool := avail f =? num_entries f.
Definition __sbi_fifo_is_empty (f : sbi_fifo) : bool := avail f =? 0.

(** The three locked queries. *)
Definition sbi_fifo_avail (fifo : option sbi_fifo) : option Z :=
  match fifo with
  | None => Some 0
  | Some f => f ← lock f; Some (avail f)
  end.
Definition sbi_fifo_is_full (f : sbi_fifo) : option bool := f ← lock f; Some (__sbi_fifo_is_full f).
Definition sbi_fifo_is_empty (f : sbi_fifo) : option bool := f ← lock f; Some (__sbi_fifo_is_empty f).

(** Byte offset of the entry at ring position [i] (a [u32] product). *)
Definition entry_off (f : sbi_fifo) (i : Z) : nat := Z.to_nat (u32 (i * entry_size f)).

Definition __sbi_fifo_enqueue (f : sbi_fifo) (data : list Z) : sbi_fifo :=
  let head := u32 (tail f + avail f) in
  let head := if num_entries f <=? head then head - num_entries f else head in
  let q := sbi_memcpy (queue f) (entry_off f head) data 0 (Z.to_nat (entry_size f)) in
  with_pos (with_queue f q) (u16 (avail f + 1)) (tail f).

Definition __sbi_fifo_reset (f : sbi_fifo) : sbi_fifo :=
  let size := num_entries f * entry_size f in
  with_pos (with_queue f (sbi_memset (queue f) 0 0 (Z.to_nat size))) 0 0.

Definition sbi_fifo_reset (fifo : option sbi_fifo) : option (bool * option sbi_fifo) :=
  match fifo with
  | None => Some (false, None)
  | Some f => f ← lock f; Some (true, Some (unlock (__sbi_fifo_reset f)))
  end.

(** The in-place update.  [fptr in entry] is the callback: its return value
    and the bytes it leaves in the entry. *)
Section InplaceUpdate.
Context (fptr : list Z -> list Z -> Z * list Z).

(** [for (i = 0; i < avail; i++)]: [n] iterations remain, [ret] is the last
    callback result. *)
Fixpoint update_loop (f : sbi_fifo) (input : list Z) (i : Z) (n : nat) (ret : Z) : Z * sbi_fifo :=
  match n with
  | O => (ret, f)
  | S n =>
      let index := tail f + i in
      let index := if num_entries f <=? index then index - num_entries f else index in
      let off := entry_off f index in
      let sz := Z.to_nat (entry_size f) in
      let '(ret, e) := fptr input (take sz (drop off (queue f))) in
      let f := with_queue f (sbi_memcpy (queue f) off e 0 sz) in
      if (ret =? SBI_FIFO_SKIP) || (ret =? SBI_FIFO_UPDATED) then (ret, f)
      else update_loop f input (i + 1) n ret
  end.

Definition sbi_fifo_inplace_update (fifo : option sbi_fifo) (input : option (list Z)) :
    option (Z * option sbi_fifo) :=
  match fifo, input with
  | Some f, Some input =>
      f ← lock f;
      if __sbi_fifo_is_empty f then Some (SBI_FIFO_UNCHANGED, Some (unlock f))
      else
        let '(ret, f) := update_loop f input 0 (Z.to_nat (avail f)) SBI_FIFO_UNCHANGED in
        Some (ret, Some (unlock f))
  | _, _ => Some (SBI_FIFO_UNCHANGED, fifo)
  end.
End InplaceUpdate.

Definition sbi_fifo_enqueue (fifo : option sbi_fifo) (data : option (list Z)) :
    option (Z * option sbi_fifo) :=
  match fifo, data with
  | Some f, Some data =>
      f ← lock f;
      if __sbi_fifo_is_full f then Some (SBI_ENOSPC, Some (unlock f))
      else Some (0, Some (unlock (__sbi_fifo_enqueue f data)))
  | _, _ => Some (SBI_EINVAL, fifo)
  end.

(** The third component is the new contents of [*data]. *)
Definition sbi_fifo_dequeue (fifo : option sbi_fifo) (data : option (list Z)) :
    option (Z * option sbi_fifo * option (list Z)) :=
  match fifo, data with
  | Some f, Some d =>
      f ← lock f;
      if __sbi_fifo_is_empty f then Some (SBI_ENOENT, Some (unlock f), data)
      else
        let d := sbi_memcpy d 0 (queue f) (entry_off f (tail f)) (Z.to_nat (entry_size f)) in
        let t := u16 (tail f + 1) in
        let f := with_pos f (u16 (avail f - 1)) (if num_entries f <=? t then 0 else t) in
        Some (0, Some (unlock f), Some d)
  | _, _ => Some (SBI_EINVAL, fifo, data)
  end.

(** * The abstract queue *)

(** Well-formed: positions in range, the queue memory is large
    enough and its size fits the [u32] offsets the code computes. *)
Record fifo_wf (f : sbi_fifo) : Prop := {
  ok_num : 0 < num_entries f < 2 ^ 16;
  ok_size : 0 < entry_size f < 2 ^ 16;
  ok_avail : 0 <= avail f <= num_entries f;
  ok_tail : 0 <= tail f < num_entries f;
  ok_queue : num_entries f * entry_size f <= Z.of_nat (length (queue f));
  ok_u32 : num_entries f * entry_size f < 2 ^ 32
}.

Definition fifo_ok (f : sbi_fifo) : Prop := fifo_wf f /\ qlock f = __RISCV_SPIN_UNLOCKED.

(** The entry at ring position [i], and the pending entries, oldest first. *)
Definition slot (f : sbi_fifo) (i : Z) : list Z :=
  take (Z.to_nat (entry_size f)) (drop (entry_off f i) (queue f)).
Definition ring (f : sbi_fifo) (k : Z) : Z :=
  if num_entries f <=? tail f + k then tail f + k - num_entries f else tail f + k.
Definition abs (f : sbi_fifo) : list (list Z) := (fun k => slot f (ring f k)) <$> seqZ 0 (avail f).

(** * Lemmas on ring positions and slots *)

Lemma entry_off_eq f i : fifo_wf f -> 0 <= i < num_entries f -> entry_off f i = Z.to_nat (i * entry_size f).
Proof.
  intros [] Hi. unfold entry_off, u32. rewrite wrap_small; [done|]. unfold fits. nia.
Qed.

Lemma slot_bound f i :
  fifo_wf f -> 0 <= i < num_entries f ->
  (entry_off f i + Z.to_nat (entry_size f) <= length (queue f))%nat.
Proof. intros Hok Hi. rewrite entry_off_eq by done. destruct Hok. nia. Qed.

Lemma length_slot f i :
  fifo_wf f -> 0 <= i < num_entries f -> length (slot f i) = Z.to_nat (entry_size f).
Proof.
  intros Hok Hi. unfold slot. rewrite length_take, length_drop.
  pose proof (slot_bound f i Hok Hi). lia.
Qed.

Lemma ring_bound f k : fifo_wf f -> 0 <= k < num_entries f -> 0 <= ring f k < num_entries f.
Proof. intros [] Hk. unfold ring. bool_cases; lia. Qed.

Lemma ring_inj f k j :
  fifo_wf f -> 0 <= k < num_entries f -> 0 <= j < num_entries f -> ring f k = ring f j -> k = j.
Proof. intros [] Hk Hj. unfold ring. bool_cases; lia. Qed.

(** Two different slots do not overlap. *)
Lemma slots_disjoint f i j :
  fifo_wf f -> 0 <= i < num_entries f -> 0 <= j < num_entries f -> i <> j ->
  (entry_off f i + Z.to_nat (entry_size f) <= entry_off f j \/
   entry_off f j + Z.to_nat (entry_size f) <= entry_off f i)%nat.
Proof. intros Hok Hi Hj Hne. rewrite !entry_off_eq by done. destruct Hok. nia. Qed.

Lemma fifo_wf_with_queue f q : fifo_wf f -> length q = length (queue f) -> fifo_wf (with_queue f q).
Proof. intros [] Hq. constructor; simpl; try done. by rewrite Hq. Qed.

(** Writing an entry into slot [i] is seen there and nowhere else. *)
Lemma slot_write_eq f i data :
  fifo_wf f -> 0 <= i < num_entries f -> length data = Z.to_nat (entry_size f) ->
  slot (with_queue f (sbi_memcpy (queue f) (entry_off f i) data 0 (Z.to_nat (entry_size f)))) i = data.
Proof.
  intros Hok Hi Hd. pose proof (slot_bound f i Hok Hi).
  unfold slot at 1. simpl. unfold entry_off at 1. simpl. fold (entry_off f i).
  rewrite sbi_memcpy_slice by lia. rewrite drop_0, (take_ge data) by lia.
  rewrite drop_app_length' by (rewrite length_take; lia). by rewrite take_app_length'.
Qed.

Lemma slot_write_ne f i j data :
  fifo_wf f -> 0 <= i < num_entries f -> 0 <= j < num_entries f -> i <> j ->
  slot (with_queue f (sbi_memcpy (queue f) (entry_off f i) data 0 (Z.to_nat (entry_size f)))) j = slot f j.
Proof.
  intros Hok Hi Hj Hne. pose proof (slot_bound f i Hok Hi).
  pose proof (slots_disjoint f i j Hok Hi Hj Hne) as Hdis.
  set (q := sbi_memcpy _ _ _ _ _).
  assert (Hq : length q = length (queue f)) by apply length_sbi_memcpy.
  apply list_eq_nth.
  { rewrite !length_slot; try done. by apply fifo_wf_with_queue. }
  intros k Hk. rewrite length_slot in Hk by (try apply fifo_wf_with_queue; done). simpl in Hk.
  unfold slot. simpl. rewrite !nth_lookup, !lookup_take_lt, !lookup_drop by done.
  unfold entry_off at 1. simpl. fold (entry_off f j).
  rewrite <- !nth_lookup. unfold q. rewrite nth_sbi_memcpy by done. case_decide; [lia|done].
Qed.

Lemma length_abs f : fifo_wf f -> length (abs f) = Z.to_nat (avail f).
Proof. intros. unfold abs. by rewrite length_fmap, length_seqZ. Qed.

Lemma lock_ok f : fifo_ok f -> lock f = Some (with_lock f 1).
Proof. intros [_ Hl]. unfold lock. by rewrite spin_lock_free. Qed.

Lemma fifo_wf_with_lock f l : fifo_wf f -> fifo_wf (with_lock f l).
Proof. intros []. by constructor. Qed.

Lemma fifo_ok_unlock f : fifo_wf f -> fifo_ok (unlock f).
Proof. intros. split; [by apply fifo_wf_with_lock|done]. Qed.

Lemma unlock_with_lock f l : fifo_ok f -> unlock (with_lock f l) = f.
Proof. intros [_ Hl]. destruct f; simpl in *; subst. done. Qed.

Lemma head_is_ring f : fifo_wf f -> avail f < num_entries f ->
  (if num_entries f <=? u32 (tail f + avail f) then u32 (tail f + avail f) - num_entries f
   else u32 (tail f + avail f)) = ring f (avail f).
Proof.
  intros [] Hlt. unfold u32. rewrite wrap_small by (unfold fits; lia). done.
Qed.

(** ** The unlocked bodies on the abstract queue *)

Lemma enqueue_body_ok f data :
  fifo_wf f -> avail f < num_entries f -> length data = Z.to_nat (entry_size f) ->
  fifo_wf (__sbi_fifo_enqueue f data) /\ abs (__sbi_fifo_enqueue f data) = abs f ++ [data].
Proof.
  intros Hok Hlt Hd. unfold __sbi_fifo_enqueue. rewrite head_is_ring by done.
  set (q := sbi_memcpy _ _ _ _ _).
  assert (Hq : length q = length (queue f)) by apply length_sbi_memcpy.
  pose proof (ring_bound f (avail f) Hok) as Hrb. pose proof Hok as [].
  assert (Ha : u16 (avail f + 1) = avail f + 1) by (apply wrap_small; unfold fits; lia).
  rewrite Ha. split; [constructor; simpl; try (done || lia); by rewrite Hq|].
  unfold abs. simpl. replace (avail f + 1) with (Z.of_nat (S (Z.to_nat (avail f)))) by lia.
  rewrite seqZ_S, fmap_app, Z2Nat.id by lia. simpl. f_equal.
  - apply fmap_seqZ_ext. intros k Hk. apply slot_write_ne; try done; [lia| |].
    + apply ring_bound; [done|lia].
    + intros E. apply ring_inj in E; [lia|done|lia..].
  - f_equal. apply (slot_write_eq f); [done|apply Hrb; lia|done].
Qed.

Lemma dequeue_pos_ok f :
  fifo_wf f -> 0 < avail f ->
  let t := u16 (tail f + 1) in
  let f' := with_pos f (u16 (avail f - 1)) (if num_entries f <=? t then 0 else t) in
  fifo_wf f' /\ abs f = slot f (tail f) :: abs f'.
Proof.
  intros Hok Ha. pose proof Hok as [].
  assert (E1 : u16 (avail f - 1) = avail f - 1) by (apply wrap_small; unfold fits; lia).
  assert (E2 : u16 (tail f + 1) = tail f + 1) by (apply wrap_small; unfold fits; lia).
  cbv zeta. rewrite E1, E2. set (t := if _ <=? _ then _ else _).
  assert (Ht : 0 <= t < num_entries f) by (unfold t; bool_cases; lia).
  split; [constructor; simpl; try (done || lia)|].
  unfold abs. rewrite seqZ_cons by lia. simpl. f_equal.
  { f_equal. unfold ring. bool_cases; lia. }
  change (Z.succ 0) with (1 + 0). replace (Z.pred (avail f)) with (avail f - 1) by lia.
  rewrite fmap_seqZ_shift. apply fmap_seqZ_ext. intros k Hk.
  change (slot (with_pos _ _ _) ?x) with (slot f x). f_equal. unfold ring, t. simpl. bool_cases; lia.
Qed.

(** ** In-place update against its list-level meaning *)

Section UpdateSpec.
Context (fptr : list Z -> list Z -> Z * list Z) (input : list Z) (esz : nat).

(** The callback runs on the pending entries, oldest first, until it
    answers SKIP or UPDATED; [ret] is its last answer. *)
Fixpoint update_spec (l : list (list Z)) (ret : Z) : Z * list (list Z) :=
  match l with
  | [] => (ret, [])
  | e :: l =>
      let '(ret, e') := fptr input e in
      if (ret =? SBI_FIFO_SKIP) || (ret =? SBI_FIFO_UPDATED) then (ret, e' :: l)
      else let '(ret, l') := update_spec l ret in (ret, e' :: l')
  end.

Hypothesis fptr_length : forall e, length e = esz -> length (snd (fptr input e)) = length e.

(** The entries of a well-formed queue from the [i]-th on. *)
Definition abs_from (f : sbi_fifo) (i : Z) : list (list Z) :=
  (fun k => slot f (ring f k)) <$> seqZ i (avail f - i).

Lemma abs_from_step f i : i < avail f -> abs_from f i = slot f (ring f i) :: abs_from f (i + 1).
Proof.
  intros. unfold abs_from. rewrite seqZ_cons by lia.
  replace (Z.pred (avail f - i)) with (avail f - (i + 1)) by lia. done.
Qed.

Lemma update_loop_spec n : forall f i ret,
  fifo_wf f -> Z.to_nat (entry_size f) = esz -> 0 <= i -> Z.of_nat n = avail f - i ->
  exists q, length q = length (queue f) /\
    update_loop fptr f input i n ret = (fst (update_spec (abs_from f i) ret), with_queue f q) /\
    abs_from (with_queue f q) i = snd (update_spec (abs_from f i) ret) /\
    (forall k, 0 <= k < i -> slot (with_queue f q) (ring f k) = slot f (ring f k)).
Proof.
  induction n as [|n IH]; intros f i ret Hwf Hesz Hi Hn.
  { exists (queue f). destruct f. unfold abs_from. simpl in *. rewrite seqZ_nil by lia. done. }
  pose proof Hwf as []. pose proof (ring_bound f i Hwf ltac:(lia)) as Hr.
  rewrite (abs_from_step f i) by lia. cbn [update_loop update_spec]. fold (ring f i).
  change (take (Z.to_nat (entry_size f)) (drop (entry_off f (ring f i)) (queue f)))
    with (slot f (ring f i)).
  pose proof (fptr_length (slot f (ring f i)) ltac:(rewrite length_slot; done)) as Hlen.
  destruct (fptr input (slot f (ring f i))) as [ret' e'] eqn:Ef. simpl in Hlen.
  rewrite length_slot in Hlen by done.
  set (q := sbi_memcpy _ _ _ _ _). assert (Hq : length q = length (queue f)) by apply length_sbi_memcpy.
  assert (Hself : slot (with_queue f q) (ring f i) = e') by by apply slot_write_eq.
  assert (Hother : forall k, 0 <= k < num_entries f -> k <> i ->
            slot (with_queue f q) (ring f k) = slot f (ring f k)).
  { intros k Hk Hne. apply slot_write_ne; try done; [apply (ring_bound f k Hwf Hk)|].
    intros E. apply Hne. symmetry. apply (ring_inj f); (done || lia). }
  assert (Hrest : abs_from (with_queue f q) (i + 1) = abs_from f (i + 1)).
  { apply fmap_seqZ_ext. intros k Hk. apply Hother; lia. }
  destruct ((ret' =? SBI_FIFO_SKIP) || (ret' =? SBI_FIFO_UPDATED)).
  - exists q. split; [done|]. split; [done|]. split; [|intros; apply Hother; lia].
    rewrite abs_from_step by (simpl; lia). simpl. f_equal; [exact Hself|exact Hrest].
  - destruct (IH (with_queue f q) (i + 1) ret') as (q' & Hq' & Heq & Habs & Hlow).
    { by apply fifo_wf_with_queue. } { done. } { lia. } { simpl. lia. }
    rewrite Hrest in Heq, Habs. destruct (update_spec (abs_from f (i + 1)) ret') as [r l].
    exists q'. simpl in *. split; [lia|]. split; [exact Heq|]. split.
    + rewrite abs_from_step by (simpl; lia). f_equal; [|exact Habs].
      etrans; [apply Hlow; lia|exact Hself].
    + intros k Hk. etrans; [apply Hlow; lia|apply Hother; lia].
Qed.
End UpdateSpec.

Lemma abs_from_0 f : abs_from f 0 = abs f.
Proof. unfold abs_from, abs. by rewrite Z.sub_0_r. Qed.

Lemma sbi_memset_zero_slots mem n sz i :
  0 <= i < n -> 0 < sz -> n * sz <= Z.of_nat (length mem) -> n * sz < 2 ^ 32 ->
  forall f, queue f = sbi_memset mem 0 0 (Z.to_nat (n * sz)) -> entry_size f = sz ->
  slot f i = replicate (Z.to_nat sz) 0.
Proof.
  intros Hi Hsz Hlen Hu f Hq He. apply list_eq_nth.
  - unfold slot, entry_off, u32. rewrite Hq, He, length_take, length_drop, length_sbi_memset, length_replicate.
    rewrite wrap_small by (unfold fits; nia). nia.
  - intros k Hk. unfold slot, entry_off, u32 in *. rewrite Hq, He in *.
    rewrite length_take, length_drop, length_sbi_memset, wrap_small in Hk by (unfold fits; nia).
    rewrite wrap_small by (unfold fits; nia).
    rewrite nth_lookup, lookup_take_lt, lookup_drop, <- nth_lookup by lia.
    rewrite nth_sbi_memset by lia. rewrite (nth_lookup (replicate _ _)), lookup_replicate_2 by lia.
    case_decide; [done|]. nia.
Qed.

(** * Properties *)

(** [sbi_fifo_init] on memory large enough for the ring gives an unlocked,
    well-formed and empty queue whose every slot is zero. *)
Theorem sbi_fifo_init_ok mem n sz :
  0 < n < 2 ^ 16 -> 0 < sz < 2 ^ 16 -> n * sz <= Z.of_nat (length mem) -> n * sz < 2 ^ 32 ->
  let f := sbi_fifo_init mem n sz in
  fifo_ok f /\ abs f = [] /\ forall i, 0 <= i < n -> slot f i = replicate (Z.to_nat sz) 0.
Proof.
  intros Hn Hsz Hlen Hu f. split; [|split].
  - split; [|done]. constructor; simpl; try (done || lia). by rewrite length_sbi_memset.
  - done.
  - intros i Hi. apply (sbi_memset_zero_slots mem n sz i); (done || lia).
Qed.

Lemma sbi_fifo_init_ok_witness :
  let f := sbi_fifo_init (replicate 24 7) 3 8 in
  fifo_ok f /\ abs f = [] /\ forall i, 0 <= i < 3 -> slot f i = replicate (Z.to_nat 8) 0.
Proof. apply (sbi_fifo_init_ok (replicate 24 7) 3 8); rewrite ?length_replicate; lia. Defined.

Lemma enqueue_ok f data :
  fifo_ok f -> length data = Z.to_nat (entry_size f) ->
  if avail f =? num_entries f then sbi_fifo_enqueue (Some f) (Some data) = Some (SBI_ENOSPC, Some f)
  else exists f', sbi_fifo_enqueue (Some f) (Some data) = Some (0, Some f') /\
    fifo_ok f' /\ abs f' = abs f ++ [data].
Proof.
  intros Hok Hd. pose proof Hok as [Hwf _]. unfold sbi_fifo_enqueue. rewrite lock_ok by done. simpl.
  unfold __sbi_fifo_is_full. simpl. destruct (Z.eqb_spec (avail f) (num_entries f)) as [E|E].
  - by rewrite unlock_with_lock.
  - destruct (enqueue_body_ok (with_lock f 1) data) as [Hwf' Habs].
    { by apply fifo_wf_with_lock. } { destruct Hwf. simpl. lia. } { done. }
    eexists. split; [done|]. split; [by apply fifo_ok_unlock|exact Habs].
Qed.

(** C2: [sbi_fifo_enqueue] refines appending to a bounded queue: on a full
    queue it answers [SBI_ENOSPC] and changes nothing; otherwise it answers 0,
    the entry becomes the newest pending one, the older ones keep their order
    and contents, and the queue is unlocked and well-formed again. *)
Theorem sbi_fifo_enqueue_refines f data :
  fifo_ok f -> length data = Z.to_nat (entry_size f) ->
  if avail f =? num_entries f then sbi_fifo_enqueue (Some f) (Some data) = Some (SBI_ENOSPC, Some f)
  else exists f', sbi_fifo_enqueue (Some f) (Some data) = Some (0, Some f') /\
    fifo_ok f' /\ abs f' = abs f ++ [data].
Proof. apply enqueue_ok. Qed.

Lemma sbi_fifo_enqueue_refines_witness :
  let f := sbi_fifo_init (replicate 4 0) 2 2 in
  if avail f =? num_entries f then sbi_fifo_enqueue (Some f) (Some [1; 2]) = Some (SBI_ENOSPC, Some f)
  else exists f', sbi_fifo_enqueue (Some f) (Some [1; 2]) = Some (0, Some f') /\
    fifo_ok f' /\ abs f' = abs f ++ [[1; 2]].
Proof.
  apply (sbi_fifo_enqueue_refines (sbi_fifo_init (replicate 4 0) 2 2) [1; 2]); [|done].
  split; [|done]. constructor; simpl; lia.
Defined.

Lemma dequeue_ok f d :
  fifo_ok f -> length d = Z.to_nat (entry_size f) ->
  match abs f with
  | [] => sbi_fifo_dequeue (Some f) (Some d) = Some (SBI_ENOENT, Some f, Some d)
  | e :: l => exists f', sbi_fifo_dequeue (Some f) (Some d) = Some (0, Some f', Some e) /\
      fifo_ok f' /\ abs f' = l
  end.
Proof.
  intros Hok Hd. pose proof Hok as [Hwf _]. pose proof (length_abs f Hwf) as Hlen.
  unfold sbi_fifo_dequeue. rewrite lock_ok by done. simpl. unfold __sbi_fifo_is_empty. simpl.
  destruct (Z.eqb_spec (avail f) 0) as [E|E].
  - rewrite E in Hlen. destruct (abs f); [|done]. by rewrite unlock_with_lock.
  - destruct (dequeue_pos_ok (with_lock f 1)) as [Hwf' Habs].
    { by apply fifo_wf_with_lock. } { destruct Hwf. simpl. lia. }
    change (abs f) with (abs (with_lock f 1)). rewrite Habs.
    eexists. split; [|split; [by apply fifo_ok_unlock|done]]. do 3 f_equal.
    pose proof (slot_bound f (tail f) Hwf ltac:(destruct Hwf; lia)).
    change (entry_off (with_lock f 1) (tail f)) with (entry_off f (tail f)).
    rewrite sbi_memcpy_slice by lia. rewrite (drop_ge d) by lia. by rewrite app_nil_r.
Qed.

(** [sbi_fifo_dequeue] refines removing from the front: on an empty queue
    it answers [SBI_ENOENT] and changes neither the queue nor the caller's
    buffer; otherwise it answers 0, the buffer receives the oldest pending
    entry and the rest stay, in order. *)
Theorem sbi_fifo_dequeue_refines f d :
  fifo_ok f -> length d = Z.to_nat (entry_size f) ->
  match abs f with
  | [] => sbi_fifo_dequeue (Some f) (Some d) = Some (SBI_ENOENT, Some f, Some d)
  | e :: l => exists f', sbi_fifo_dequeue (Some f) (Some d) = Some (0, Some f', Some e) /\
      fifo_ok f' /\ abs f' = l
  end.
Proof. apply dequeue_ok. Qed.

Lemma sbi_fifo_dequeue_refines_witness :
  let f := mkFifo [5; 6; 7; 8] 0 2 2 1 1 in
  exists f', sbi_fifo_dequeue (Some f) (Some [0; 0]) = Some (0, Some f', Some [7; 8]) /\
    fifo_ok f' /\ abs f' = [].
Proof.
  apply (sbi_fifo_dequeue_refines (mkFifo [5; 6; 7; 8] 0 2 2 1 1) [0; 0]); [|done].
  split; [|done]. constructor; simpl; lia.
Defined.

Lemma inplace_update_ok fptr f input :
  fifo_ok f ->
  (forall e, length e = Z.to_nat (entry_size f) -> length (snd (fptr input e)) = length e) ->
  exists f', sbi_fifo_inplace_update fptr (Some f) (Some input) =
      Some (fst (update_spec fptr input (abs f) SBI_FIFO_UNCHANGED), Some f') /\
    fifo_ok f' /\ abs f' = snd (update_spec fptr input (abs f) SBI_FIFO_UNCHANGED) /\
    entry_size f' = entry_size f /\ num_entries f' = num_entries f.
Proof.
  intros Hok Hlen. pose proof Hok as [Hwf _].
  unfold sbi_fifo_inplace_update. rewrite lock_ok by done. simpl. unfold __sbi_fifo_is_empty. simpl.
  destruct (Z.eqb_spec (avail f) 0) as [E|E].
  - assert (abs f = []) as Hnil by (unfold abs; by rewrite E).
    exists f. rewrite unlock_with_lock by done. by rewrite Hnil.
  - assert (Hwf1 := fifo_wf_with_lock f 1 Hwf).
    destruct (update_loop_spec fptr input _ Hlen (Z.to_nat (avail f)) (with_lock f 1) 0 SBI_FIFO_UNCHANGED)
      as (q & Hq & Heq & Habs & _); [done|done|lia|destruct Hwf; simpl; lia|].
    rewrite Heq. eexists. rewrite abs_from_0 in *. split; [done|].
    split; [apply fifo_ok_unlock, fifo_wf_with_queue; done|].
    rewrite abs_from_0 in Habs. split; [exact Habs|done].
Qed.

(** [sbi_fifo_inplace_update] runs its callback on the pending entries
    from the oldest, stops at the first SKIP or UPDATED, returns the last
    answer and writes back what the callback left in each entry it saw; the
    number of entries and their order do not change. *)
Theorem sbi_fifo_inplace_update_refines fptr f input :
  fifo_ok f ->
  (forall e, length e = Z.to_nat (entry_size f) -> length (snd (fptr input e)) = length e) ->
  exists f', sbi_fifo_inplace_update fptr (Some f) (Some input) =
      Some (fst (update_spec fptr input (abs f) SBI_FIFO_UNCHANGED), Some f') /\
    fifo_ok f' /\ abs f' = snd (update_spec fptr input (abs f) SBI_FIFO_UNCHANGED).
Proof.
  intros Hok Hlen. destruct (inplace_update_ok fptr f input Hok Hlen) as (f' & E & ? & ? & _). eauto.
Qed.

Lemma sbi_fifo_inplace_update_refines_witness :
  let f := mkFifo [5; 6; 7; 8] 0 2 2 1 1 in
  let cb := fun (input e : list Z) => (SBI_FIFO_UPDATED, reverse e) in
  exists f', sbi_fifo_inplace_update cb (Some f) (Some [0; 0]) =
      Some (fst (update_spec cb [0; 0] (abs f) SBI_FIFO_UNCHANGED), Some f') /\
    fifo_ok f' /\ abs f' = snd (update_spec cb [0; 0] (abs f) SBI_FIFO_UNCHANGED).
Proof.
  apply sbi_fifo_inplace_update_refines.
  - split; [|done]. constructor; simpl; lia.
  - intros e _. apply length_reverse.
Defined.
