(* ===== verification/Machine.v ===== *)
(** The machine the firmware runs on: the state shared by the harts, the monad
    in which the firmware's functions are written, and its primitives (control
    and status registers, firmware memory, atomic operations, device
    registers, waiting).

    - riscv_asm.h: [csr_read], [csr_write], [csr_set], [csr_clear],
      [csr_swap], [csr_read_set], [csr_read_clear], [wfi], [current_hartid];
    - sbi_csr_detect.h: [csr_read_allowed], [csr_write_allowed];
    - riscv_atomic.c: every operation;
    - riscv_io.h: the device register accessors. *)

From S2P Require Import Prelude Encoding Bitops Locks Fifo.

(** * State *)

(** What a hart does that the state does not show: instructions such as fences
    and floating-point moves, device accesses, waiting. *)
Inductive event : Type :=
| EvInsn (name : string) (args : list Z)
| EvRead (width addr val : Z)
| EvWrite (width addr val : Z)
| EvPutc (ch : Z)
| EvWfi.

(** The three event handlers the firmware registers with the
    inter-processor-interrupt layer. *)
Inductive ipi_ops_id : Type := ipi_smode_ops | ipi_halt_ops | tlb_ops.

(** The handlers of the SBI extensions. *)
Inductive ecall_handler_id : Type :=
| ecall_time | ecall_rfence | ecall_ipi | ecall_hsm | ecall_base | ecall_legacy | ecall_vendor.

#[global] Instance ipi_ops_id_eq : EqDecision ipi_ops_id.
Proof. solve_decision. Defined.
#[global] Instance ecall_handler_id_eq : EqDecision ecall_handler_id.
Proof. solve_decision. Defined.

Record sbi_ecall_extension : Type := mkExt {
  extid_start : Z;
  extid_end : Z;
  ext_handler : ecall_handler_id;
  has_probe : bool
}.

(** The shared state.  [mem] holds the firmware's memory cells by address (the
    per-hart scratch areas), absent cells being zero; [queues] the queues
    placed in scratch areas, by the address of their header; [glob] the
    file-level variables, by name. *)
Record st : Type := mkSt {
  cur : Z;
  csrs : gmap (Z * Z) Z;
  mem : gmap Z Z;
  queues : gmap Z sbi_fifo;
  scratch_table : gmap Z Z;
  glob : gmap string Z;
  ipi_ops_array : gmap Z ipi_ops_id;
  coldboot_wait_hmask : list Z;
  ecall_exts : list sbi_ecall_extension;
  umem : gmap Z Z;
  events : list event;
  ticks : nat
}.

Definition set_csrs (f : gmap (Z * Z) Z -> gmap (Z * Z) Z) (s : st) : st :=
  mkSt (cur s) (f (csrs s)) (mem s) (queues s) (scratch_table s) (glob s) (ipi_ops_array s)
    (coldboot_wait_hmask s) (ecall_exts s) (umem s) (events s) (ticks s).
Definition set_mem (f : gmap Z Z -> gmap Z Z) (s : st) : st :=
  mkSt (cur s) (csrs s) (f (mem s)) (queues s) (scratch_table s) (glob s) (ipi_ops_array s)
    (coldboot_wait_hmask s) (ecall_exts s) (umem s) (events s) (ticks s).
Definition set_queues (f : gmap Z sbi_fifo -> gmap Z sbi_fifo) (s : st) : st :=
  mkSt (cur s) (csrs s) (mem s) (f (queues s)) (scratch_table s) (glob s) (ipi_ops_array s)
    (coldboot_wait_hmask s) (ecall_exts s) (umem s) (events s) (ticks s).
Definition set_scratch_table (f : gmap Z Z -> gmap Z Z) (s : st) : st :=
  mkSt (cur s) (csrs s) (mem s) (queues s) (f (scratch_table s)) (glob s) (ipi_ops_array s)
    (coldboot_wait_hmask s) (ecall_exts s) (umem s) (events s) (ticks s).
Definition set_glob (f : gmap string Z -> gmap string Z) (s : st) : st :=
  mkSt (cur s) (csrs s) (mem s) (queues s) (scratch_table s) (f (glob s)) (ipi_ops_array s)
    (coldboot_wait_hmask s) (ecall_exts s) (umem s) (events s) (ticks s).
Definition set_ipi_ops_array (f : gmap Z ipi_ops_id -> gmap Z ipi_ops_id) (s : st) : st :=
  mkSt (cur s) (csrs s) (mem s) (queues s) (scratch_table s) (glob s) (f (ipi_ops_array s))
    (coldboot_wait_hmask s) (ecall_exts s) (umem s) (events s) (ticks s).
Definition set_wait_hmask (f : list Z -> list Z) (s : st) : st :=
  mkSt (cur s) (csrs s) (mem s) (queues s) (scratch_table s) (glob s) (ipi_ops_array s)
    (f (coldboot_wait_hmask s)) (ecall_exts s) (umem s) (events s) (ticks s).
Definition set_ecall_exts (f : list sbi_ecall_extension -> list sbi_ecall_extension) (s : st) : st :=
  mkSt (cur s) (csrs s) (mem s) (queues s) (scratch_table s) (glob s) (ipi_ops_array s)
    (coldboot_wait_hmask s) (f (ecall_exts s)) (umem s) (events s) (ticks s).
Definition set_umem (f : gmap Z Z -> gmap Z Z) (s : st) : st :=
  mkSt (cur s) (csrs s) (mem s) (queues s) (scratch_table s) (glob s) (ipi_ops_array s)
    (coldboot_wait_hmask s) (ecall_exts s) (f (umem s)) (events s) (ticks s).
Definition add_event (e : event) (s : st) : st :=
  mkSt (cur s) (csrs s) (mem s) (queues s) (scratch_table s) (glob s) (ipi_ops_array s)
    (coldboot_wait_hmask s) (ecall_exts s) (umem s) (events s ++ [e]) (ticks s).
Definition tick (s : st) : st :=
  mkSt (cur s) (csrs s) (mem s) (queues s) (scratch_table s) (glob s) (ipi_ops_array s)
    (coldboot_wait_hmask s) (ecall_exts s) (umem s) (events s) (S (ticks s)).

(** * The monad *)

(** How control leaves the firmware's C code other than by returning: the hart
    hangs in a wait loop, leaves machine mode by [mret] with the two argument
    registers, jumps to a machine-mode address, spins on a lock or a poll for
    as long as the model looks, or executes undefined behaviour. *)
Inductive exit_kind : Type :=
| XHang
| XMret (a0 a1 : Z)
| XJump (addr a0 a1 : Z)
| XSpin
| XUndef.

Inductive outcome (A : Type) : Type :=
| Ret (a : A) (s : st)
| Exit (e : exit_kind) (s : st).
Arguments Ret {A} a s.
Arguments Exit {A} e s.

Definition M (A : Type) : Type := st -> outcome A.

#[global] Instance M_ret : MRet M := fun A a s => Ret a s.
#[global] Instance M_bind : MBind M := fun A B f m s =>
  match m s with Ret a s' => f a s' | Exit e s' => Exit e s' end.

Definition gets {A} (f : st -> A) : M A := fun s => Ret (f s) s.
Definition modify (f : st -> st) : M unit := fun s => Ret tt (f s).
Definition exits {A} (e : exit_kind) : M A := fun s => Exit e s.
Definition when (b : bool) (m : M unit) : M unit := if b then m else mret tt.

(** Run [f] on each element in turn. *)
Fixpoint for_each {A} (l : list A) (f : A -> M unit) : M unit :=
  match l with
  | [] => mret tt
  | x :: l => f x;; for_each l f
  end.

(** What the hardware and the other harts contribute: which registers a hart
    implements, the value a register keeps of a value written to it, what a
    device register reads after a history of accesses, which supervisor
    accesses fault, and what the others do to the state while this hart waits.
    [polls] bounds how many turns of a wait loop are looked at. *)
Class Hardware : Type := {
  csr_exists : Z -> Z -> bool;
  csr_warl : Z -> Z -> Z -> Z;
  csr_pc : Z -> Z;
  dev_read : list event -> Z -> Z -> Z;
  interfere : nat -> st -> st;
  polls : nat
}.

(** * Weakest preconditions *)

Definition wp {A} (m : M A) (Q : A -> st -> Prop) (E : exit_kind -> st -> Prop) (s : st) : Prop :=
  match m s with Ret a s' => Q a s' | Exit e s' => E e s' end.

(** No exit is expected. *)
Definition no_exit (e : exit_kind) (s : st) : Prop := False.

Lemma wp_ret {A} (a : A) Q E s : Q a s -> wp (mret a) Q E s.
Proof. done. Qed.

Lemma wp_bind {A B} (m : M A) (f : A -> M B) Q E s :
  wp m (fun a s' => wp (f a) Q E s') E s -> wp (m ≫= f) Q E s.
Proof. unfold wp, mbind, M_bind. by destruct (m s). Qed.

Lemma wp_mono {A} (m : M A) (Q Q' : A -> st -> Prop) (E E' : exit_kind -> st -> Prop) s :
  wp m Q E s -> (forall a s', Q a s' -> Q' a s') -> (forall e s', E e s' -> E' e s') -> wp m Q' E' s.
Proof. unfold wp. destruct (m s); auto. Qed.

Lemma wp_when (b : bool) m Q E s :
  (b = true -> wp m Q E s) -> (b = false -> Q tt s) -> wp (when b m) Q E s.
Proof. intros H1 H2. destruct b; [by apply H1|by apply wp_ret, H2]. Qed.

(** An invariant of the loop body is an invariant of the loop; it may speak of
    the elements already visited. *)
Lemma wp_for_each {A} (l : list A) (f : A -> M unit) (I : list A -> st -> Prop) E s :
  (forall pre x suf s', l = pre ++ x :: suf -> I pre s' -> wp (f x) (fun _ => I (pre ++ [x])) E s') ->
  I [] s -> wp (for_each l f) (fun _ => I l) E s.
Proof.
  intros Hstep Hinit.
  assert (forall suf pre s, l = pre ++ suf -> I pre s -> wp (for_each suf f) (fun _ => I l) E s) as H.
  { induction suf as [|x suf IH]; intros pre s' Hl HI; simpl.
    - apply wp_ret. by rewrite Hl, app_nil_r.
    - apply wp_bind. eapply wp_mono; [by eapply (Hstep pre x suf)| |done].
      intros u s'' HI'. apply (IH (pre ++ [x])); [|done]. by rewrite <- app_assoc. }
  by apply (H l []).
Qed.

(** Running a sequence one step at a time. *)
Lemma bind_ret_eq {A B} (m : M A) (f : A -> M B) s a s' :
  m s = Ret a s' -> (m ≫= f) s = f a s'.
Proof. unfold mbind, M_bind. by intros ->. Qed.

Lemma bind_exit_eq {A B} (m : M A) (f : A -> M B) s e s' :
  m s = Exit e s' -> (m ≫= f) s = Exit e s'.
Proof. unfold mbind, M_bind. by intros ->. Qed.

Lemma bind_assoc {A B C} (m : M A) (f : A -> M B) (g : B -> M C) s :
  ((m ≫= f) ≫= g) s = (m ≫= fun a => f a ≫= g) s.
Proof. unfold mbind, M_bind. by destruct (m s). Qed.

Create HintDb machine discriminated.
#[global] Hint Extern 1 (_ = Ret _ _) => reflexivity : machine.
Ltac mstep :=
  rewrite ?bind_assoc; erewrite bind_ret_eq; [|solve [eauto with machine]]; cbv beta.

(** A loop whose body always returns is a fold. *)
Lemma for_each_fold {A} (l : list A) (f : A -> M unit) (g : st -> A -> st) s :
  (forall x s, x ∈ l -> f x s = Ret tt (g s x)) -> for_each l f s = Ret tt (foldl g s l).
Proof.
  revert s. induction l as [|x l IH]; intros s Hf; simpl; [done|].
  unfold mbind, M_bind. rewrite Hf by set_solver. apply IH. intros. apply Hf. set_solver.
Qed.

Lemma for_each_app {A} (l1 l2 : list A) (f : A -> M unit) s :
  for_each (l1 ++ l2) f s = (for_each l1 f ≫= fun _ => for_each l2 f) s.
Proof.
  revert s. induction l1 as [|x l1 IH]; intros s; [done|]. simpl.
  unfold mbind, M_bind in *. destruct (f x s) as [u s'|]; [|done]. apply IH.
Qed.

(** * Control and status registers *)

Record sbi_trap_info : Type := mkTrap {
  epc : Z; cause : Z; tval : Z; tval2 : Z; tinst : Z
}.

#[global] Instance sbi_trap_info_eq : EqDecision sbi_trap_info.
Proof. solve_decision. Defined.

Section Registers.
Context `{Hardware}.

Definition csr_val (s : st) (hart csr : Z) : Z := default 0 (csrs s !! (hart, csr)).

Definition csr_read (csr : Z) : M Z := gets (fun s => csr_val s (cur s) csr).
Definition put_csr (csr v : Z) (s : st) : st :=
  set_csrs <[(cur s, csr) := csr_warl (cur s) csr (u64 v)]> s.
Definition csr_write (csr v : Z) : M unit := modify (put_csr csr v).
Definition csr_swap (csr v : Z) : M Z := old ← csr_read csr; csr_write csr v;; mret old.
Definition csr_read_set (csr v : Z) : M Z := old ← csr_read csr; csr_write csr (old .| v);; mret old.
Definition csr_set (csr v : Z) : M unit := csr_read_set csr v;; mret tt.
Definition csr_read_clear (csr v : Z) : M Z :=
  old ← csr_read csr; csr_write csr (old .& not64 v);; mret old.
Definition csr_clear (csr v : Z) : M unit := csr_read_clear csr v;; mret tt.

Definition current_hartid : M Z := v ← csr_read CSR_MHARTID; mret (u32 v).
Definition wfi : M unit := modify (add_event EvWfi).

(** A file-level variable. *)
Definition gval (s : st) (x : string) : Z := default 0 (glob s !! x).
Definition getg (x : string) : M Z := gets (fun s => gval s x).
Definition setg (x : string) (v : Z) : M unit := modify (set_glob <[x := v]>).

(** An instruction that traps while the trap vector points to
    [__sbi_expected_trap]: the handler records the trap, steps over the
    instruction and returns to machine mode, which leaves [MPIE] set and [MPP]
    clear.  With the hypervisor extension it also records the two extra
    registers. *)
Definition expected_trap (pc c tv : Z) : M sbi_trap_info :=
  csr_write CSR_MCAUSE c;; csr_write CSR_MTVAL tv;;
  hext ← getg "sbi_hart_expected_trap_hext";
  tv2 ← (if nz hext then csr_read CSR_MTVAL2 else mret 0);
  ti ← (if nz hext then csr_read CSR_MTINST else mret 0);
  csr_write CSR_MEPC (pc + 4);;
  ms ← csr_read CSR_MSTATUS;
  csr_write CSR_MSTATUS ((ms .| MSTATUS_MPIE) .& not64 MSTATUS_MPP);;
  mret (mkTrap pc c tv tv2 ti).

(** Access to a register that the hart may not implement; [pc] is the address
    of the access, which only shows in the recorded trap. *)
Definition csr_read_allowed (csr : Z) (trap : sbi_trap_info) : M (Z * sbi_trap_info) :=
  hart ← gets cur;
  if csr_exists hart csr then v ← csr_read csr; mret (v, trap)
  else t ← expected_trap (csr_pc csr) CAUSE_ILLEGAL_INSTRUCTION 0; mret (0, t).
Definition csr_write_allowed (csr : Z) (trap : sbi_trap_info) (v : Z) : M sbi_trap_info :=
  hart ← gets cur;
  if csr_exists hart csr then csr_write csr v;; mret trap
  else expected_trap (csr_pc csr) CAUSE_ILLEGAL_INSTRUCTION 0.
End Registers.

(** * Firmware memory *)

Definition mem_val (s : st) (a : Z) : Z := default 0 (mem s !! a).
Definition load (a : Z) : M Z := gets (fun s => mem_val s a).
Definition store (a v : Z) : M unit := modify (set_mem <[a := v]>).

(** [sbi_memset(ptr, 0, size)]: every cell and every queue that starts in the
    range becomes zero. *)
Definition in_range (lo size a : Z) : bool := (lo <=? a) && (a <? lo + size).
Definition mem_zero (lo size : Z) : M unit :=
  modify (fun s =>
    set_queues (filter (fun p => in_range lo size p.1 = false))
      (set_mem (filter (fun p => in_range lo size p.1 = false)) s)).

(** * Atomic operations (riscv_atomic.c)

    Each is one step on one cell.  The cell holds a 64-bit word. *)

Definition atomic_read (a : Z) : M Z := v ← load a; mret (s64 v).
Definition atomic_write (a v : Z) : M unit := store a (u64 v).

(** [amoadd.w] adds to the low 32 bits of the cell and leaves the high ones. *)
Definition amoadd_w (old v : Z) : Z := (old .& not64 (Z.ones 32)) .| u32 (old + v).
Definition atomic_add_return (a v : Z) : M Z :=
  old ← load a; store a (amoadd_w old v);; mret (s64 (s32 old + v)).
Definition atomic_sub_return (a v : Z) : M Z :=
  old ← load a; store a (amoadd_w old (- v));; mret (s64 (s32 old - v)).

Definition atomic_cmpxchg (a oldval newval : Z) : M Z :=
  old ← load a;
  (if s64 old =? s64 oldval then store a (u64 newval) else mret tt);; mret (s64 old).
Definition atomic_xchg (a newval : Z) : M Z := old ← load a; store a (u64 newval);; mret (s64 old).
Definition atomic_raw_xchg_uint (a newval : Z) : M Z :=
  old ← load a; store a (u32 newval);; mret (u32 old).
Definition atomic_raw_xchg_ulong (a newval : Z) : M Z :=
  old ← load a; store a (u64 newval);; mret (u64 old).

(** The bit operations update word [BIT_WORD(nr)] of the array at [a] and
    return the previous word, converted to [int]. *)
Definition word_addr (nr a : Z) : Z := a + 8 * BIT_WORD nr.
Definition atomic_raw_set_bit (nr a : Z) : M Z :=
  old ← load (word_addr nr a); store (word_addr nr a) (old .| BIT_MASK nr);; mret (s32 old).
Definition atomic_raw_clear_bit (nr a : Z) : M Z :=
  old ← load (word_addr nr a); store (word_addr nr a) (old .& not64 (BIT_MASK nr));; mret (s32 old).
Definition atomic_set_bit (nr a : Z) : M Z := atomic_raw_set_bit nr a.
Definition atomic_clear_bit (nr a : Z) : M Z := atomic_raw_clear_bit nr a.

(** * Locks held in file-level variables *)

Definition spin_lock_var (x : string) : M unit :=
  l ← getg x;
  match spin_lock l with Some l' => setg x l' | None => exits XSpin end.
Definition spin_unlock_var (x : string) : M unit := l ← getg x; setg x (spin_unlock l).

Lemma gval_set s x v : gval (set_glob <[x := v]> s) x = v.
Proof. unfold gval. simpl. by rewrite lookup_insert_eq. Qed.
Lemma gval_set_ne s x y v : x <> y -> gval (set_glob <[x := v]> s) y = gval s y.
Proof. intros. unfold gval. simpl. by rewrite lookup_insert_ne. Qed.

(** Read a variable through the assignments made so far. *)
Ltac gvals := repeat first [rewrite gval_set | rewrite gval_set_ne by discriminate].

Lemma spin_lock_var_free x s :
  gval s x = 0 -> spin_lock_var x s = Ret tt (set_glob <[x := 1]> s).
Proof. intros E. unfold spin_lock_var. mstep. by rewrite E. Qed.
#[global] Hint Resolve spin_lock_var_free : machine.

(** * Queues held in scratch memory *)

(** A queue that was never initialised is all zero. *)
Definition fifo_at (s : st) (a : Z) : sbi_fifo := default (mkFifo [] 0 0 0 0 0) (queues s !! a).

(** Run a queue operation; spinning on the queue's lock is an exit. *)
Definition with_fifo {A} (a : Z) (op : option sbi_fifo -> option (A * option sbi_fifo)) : M A :=
  f ← gets (fun s => fifo_at s a);
  match op (Some f) with
  | Some (r, Some f') => modify (set_queues <[a := f']>);; mret r
  | Some (r, None) => mret r
  | None => exits XSpin
  end.

(** * Waiting and device registers *)

Section Devices.
Context `{Hardware}.

(** One turn of a wait loop that does not succeed: the other harts and the
    devices act. *)
Definition others_act : M unit := modify (fun s => tick (interfere (ticks s) s)).

(** Repeat [m] until it gives a value, others acting in between. *)
Fixpoint wait_until {A} (n : nat) (m : M (option A)) : M A :=
  match n with
  | O => exits XSpin
  | S n => r ← m; match r with Some a => mret a | None => others_act;; wait_until n m end
  end.
Definition poll {A} (m : M (option A)) : M A := wait_until polls m.

(** Repeat [m] for as long as it returns [true]. *)
Fixpoint loop_while (n : nat) (m : M bool) : M unit :=
  match n with
  | O => exits XSpin
  | S n => b ← m; if b : bool then loop_while n m else mret tt
  end.

(** The device decides what a read returns; the width of the access bounds it. *)
Definition io_read (width a : Z) : M Z :=
  v ← gets (fun s => wrap (8 * width) (dev_read (events s) width a));
  modify (add_event (EvRead width a v));; mret v.
Definition io_write (width a v : Z) : M unit :=
  modify (add_event (EvWrite width a (wrap (8 * width) v))).

Definition __raw_writeb (v a : Z) : M unit := io_write 1 a v.
Definition __raw_writew (v a : Z) : M unit := io_write 2 a v.
Definition __raw_writel (v a : Z) : M unit := io_write 4 a v.
Definition __raw_writeq (v a : Z) : M unit := io_write 8 a v.
Definition __raw_readb (a : Z) : M Z := io_read 1 a.
Definition __raw_readw (a : Z) : M Z := io_read 2 a.
Definition __raw_readl (a : Z) : M Z := io_read 4 a.
Definition __raw_readq (a : Z) : M Z := io_read 8 a.

(** The accessors with their fences, which order accesses to memory and
    devices by one hart; the event list is already in program order. *)
Definition readb (a : Z) : M Z := __raw_readb a.
Definition writeb (v a : Z) : M unit := __raw_writeb v a.
Definition readw (a : Z) : M Z := __raw_readw a.
Definition writew (v a : Z) : M unit := __raw_writew v a.
Definition readl (a : Z) : M Z := __raw_readl a.
Definition writel (v a : Z) : M unit := __raw_writel v a.
Definition readq (a : Z) : M Z := __raw_readq a.
Definition writeq (v a : Z) : M unit := __raw_writeq v a.
End Devices.

(** * Properties of the atomic operations *)

Lemma mem_val_store s a v : mem_val (set_mem <[a := v]> s) a = v.
Proof. unfold mem_val. simpl. by rewrite lookup_insert_eq. Qed.

Lemma mem_val_store_ne s a b v : a <> b -> mem_val (set_mem <[a := v]> s) b = mem_val s b.
Proof. intros. unfold mem_val. simpl. by rewrite lookup_insert_ne. Qed.

Lemma amoadd_w_small old v :
  0 <= old < 2 ^ 31 -> 0 <= old + v < 2 ^ 31 -> amoadd_w old v = old + v.
Proof.
  intros Ho Hv. unfold amoadd_w.
  assert (old .& not64 (Z.ones 32) = 0) as ->.
  { bit_ext i. destruct (Z.ltb_spec i 32).
    - bool_cases; simpl; rewrite ?andb_false_r; done || lia.
    - rewrite (testbit_fits 32 old i); [done|unfold fits; lia|lia]. }
  rewrite Z.lor_0_l. unfold u32. apply wrap_small. unfold fits. lia.
Qed.

(** * Contracts *)

(** While a counter stays between 0 and 2^31, [atomic_add_return] adds to
    it, returns the sum, and a later [atomic_read] sees that same value. *)
Theorem atomic_add_return_spec (s : st) (a v : Z) :
  0 <= mem_val s a < 2 ^ 31 -> 0 <= mem_val s a + v < 2 ^ 31 ->
  exists s', atomic_add_return a v s = Ret (mem_val s a + v) s' /\
    atomic_read a s' = Ret (mem_val s a + v) s' /\
    (forall b, b <> a -> mem_val s' b = mem_val s b).
Proof.
  intros Ho Hv.
  exists (set_mem <[a := mem_val s a + v]> s). unfold atomic_add_return, atomic_read. simpl.
  unfold store, load, gets, modify, mbind, M_bind, mret, M_ret.
  rewrite amoadd_w_small, mem_val_store by done. rewrite s32_small, s64_small by lia.
  split; [done|]. split; [done|]. intros. by apply mem_val_store_ne.
Qed.

(** A machine at rest, and hardware that implements every register as plain
    storage, for concrete runs. *)
Definition st0 : st := mkSt 0 ∅ ∅ ∅ ∅ ∅ ∅ [] [] ∅ [] 0.
Definition plain_hw : Hardware :=
  {| csr_exists := fun _ _ => true; csr_warl := fun _ _ v => v; csr_pc := fun _ => 0;
     dev_read := fun _ _ _ => 0; interfere := fun _ s => s; polls := 8 |}.

Lemma atomic_add_return_spec_witness :
  exists s', atomic_add_return 64 5 (set_mem <[64 := 2]> st0) = Ret 7 s' /\ atomic_read 64 s' = Ret 7 s'.
Proof.
  destruct (atomic_add_return_spec (set_mem <[64 := 2]> st0) 64 5) as (s' & H1 & H2 & _).
  - vm_compute. split; congruence.
  - vm_compute. split; congruence.
  - exists s'. by split.
Defined.

(** [atomic_sub_return] is a 32-bit operation on a 64-bit counter: taking
    one from a zero counter returns -1 but leaves a counter that
    [atomic_read] reports as 2^32 - 1. *)
Theorem atomic_sub_return_narrow (s : st) (a : Z) :
  mem_val s a = 0 ->
  exists s', atomic_sub_return a 1 s = Ret (-1) s' /\ atomic_read a s' = Ret (2 ^ 32 - 1) s'.
Proof.
  intros E. exists (set_mem <[a := 2 ^ 32 - 1]> s). unfold atomic_sub_return, atomic_read.
  unfold store, load, gets, modify, mbind, M_bind, mret, M_ret. rewrite E.
  change (amoadd_w 0 (-1)) with (2 ^ 32 - 1). by rewrite mem_val_store.
Qed.

Lemma atomic_sub_return_narrow_witness :
  exists s', atomic_sub_return 8 1 st0 = Ret (-1) s' /\ atomic_read 8 s' = Ret 4294967295 s'.
Proof. apply (atomic_sub_return_narrow st0 8). reflexivity. Defined.

(** The atomic bit operations change exactly the requested bit of the
    array and return the word as it was before, not the new one. *)
Theorem atomic_raw_set_bit_old (s : st) (nr a : Z) :
  0 <= nr ->
  exists s', atomic_raw_set_bit nr a s = Ret (s32 (mem_val s (word_addr nr a))) s' /\
    (forall i, 0 <= i -> Z.testbit (mem_val s' (word_addr nr a)) i =
       Z.testbit (mem_val s (word_addr nr a)) i || (i =? nr mod 64)) /\
    (forall b, b <> word_addr nr a -> mem_val s' b = mem_val s b).
Proof.
  intros Hnr. eexists. split; [reflexivity|]. split.
  - intros i Hi. rewrite mem_val_store, BIT_MASK_pow2, Z.lor_spec by done. f_equal.
    rewrite Z.pow2_bits_eqb by (apply Z.mod_pos_bound; lia). apply Z.eqb_sym.
  - intros. by apply mem_val_store_ne.
Qed.

Lemma atomic_raw_set_bit_old_witness :
  exists s', atomic_raw_set_bit 66 8 (set_mem <[16 := 1]> st0) = Ret 1 s' /\ mem_val s' 16 = 5.
Proof.
  destruct (atomic_raw_set_bit_old (set_mem <[16 := 1]> st0) 66 8) as (s' & H1 & _); [lia|].
  exists s'. split; [exact H1|]. vm_compute in H1. by injection H1 as <-.
Defined.
