(* ===== verification/Format.v ===== *)
(** Formatted printing, lib/sbi/sbi_console.c: [printc], [prints], [printi],
    [print], [sbi_sprintf], [sbi_snprintf].

    Characters are their codes.  Where the characters go is a [sink]: the
    console, or memory from the buffer pointer on (the buffer and whatever
    follows it).  The variable arguments are a list; taking an argument that
    is not there, or one of the wrong kind, and running over the end of the
    format are undefined behaviour and give [None]. *)

From Stdlib Require Import Ascii String.
From S2P Require Import Prelude.

Definition PAD_RIGHT : Z := 1.
Definition PAD_ZERO : Z := 2.
Definition PAD_ALTERNATE : Z := 4.
Definition PRINT_BUF_LEN : Z := 64.

(** The characters a C string holds before its terminator. *)
Fixpoint until_nul (s : list Z) : list Z :=
  match s with
  | [] => []
  | c :: s => if c =? 0 then [] else c :: until_nul s
  end.

(** Where output goes.  [SBuf m p n]: [m] is the memory from the start of the
    buffer on, [p] the position of [*out], [n] the value [*out_len] when the
    caller gave a size. *)
Inductive sink : Type :=
| SConsole (sent : list Z)
| SBuf (m : list Z) (p : nat) (n : option Z).

Definition printc (o : sink) (ch : Z) : sink :=
  match o with
  | SConsole sent => SConsole (sent ++ [ch])
  | SBuf m p (Some n) =>
      if 0 <? n then SBuf (<[p := u8 ch]> m) (S p) (Some (n - 1))
      else SBuf (<[p := u8 ch]> m) (S p) (Some n)
  | SBuf m p None => SBuf (<[p := u8 ch]> m) (S p) None
  end.

(** [for (; width > 0; --width) { printc(pad); ++pc; }] *)
Fixpoint print_pad (o : sink) (ch : Z) (n : nat) (pc : Z) : sink * Z :=
  match n with
  | O => (o, pc)
  | S n => print_pad (printc o ch) ch n (pc + 1)
  end.

Fixpoint print_chars (o : sink) (s : list Z) (pc : Z) : sink * Z :=
  match s with
  | [] => (o, pc)
  | c :: s => if c =? 0 then (o, pc) else print_chars (printc o c) s (pc + 1)
  end.

Definition prints (o : sink) (string : list Z) (width flags : Z) : sink * Z :=
  let len := Z.of_nat (length (until_nul string)) in
  let padchar := if (0 <? width) && nz (flags .& PAD_ZERO) then 48 else 32 in
  let width := if 0 <? width then (if width <=? len then 0 else width - len) else width in
  let '(o, pc) :=
    if nz (flags .& PAD_RIGHT) then (o, 0) else print_pad o padchar (Z.to_nat width) 0 in
  let width := if nz (flags .& PAD_RIGHT) then width else Z.min width 0 in
  let '(o, pc) := print_chars o string pc in
  print_pad o padchar (Z.to_nat width) pc.

(** The digit loop of [printi]: each turn puts one character in front of the
    buffer.  A 64-bit value has at most 64 digits in any base from two on. *)
Definition digit_char (t letbase : Z) : Z :=
  u8 ((if 10 <=? t then t + (letbase - 48 - 10) else t) + 48).
Fixpoint digits_loop (fuel : nat) (u b letbase : Z) (s : list Z) : list Z :=
  match fuel with
  | O => s
  | S fuel => if u =? 0 then s else digits_loop fuel (u / b) b letbase (digit_char (u mod b) letbase :: s)
  end.

#[global] Arguments digits_loop : simpl never.

Definition printi (o : sink) (i b sg width flags letbase : Z) : sink * Z :=
  let neg := nz sg && (b =? 10) && (i <? 0) in
  let u := if neg then u64 (- i) else u64 i in
  let s := if u =? 0 then [48] else digits_loop 64 u b letbase [] in
  let s :=
    if nz (flags .& PAD_ALTERNATE) then
      48 :: (if (b =? 16) && (letbase =? 65) then 88 :: s
             else if (b =? 16) && (letbase =? 97) then 120 :: s else s)
    else s in
  if neg && (nz width && nz (flags .& PAD_ZERO)) then
    let '(o, n) := prints (printc o 45) s (width - 1) flags in (o, 1 + n)
  else prints o (if neg then 45 :: s else s) width flags.

(** * [print] *)

Inductive varg : Type := VInt (z : Z) | VStr (s : option (list Z)).

(** [va_arg(args, <integer type>)]; the caller narrows the value. *)
Definition va_int (args : list varg) : option (Z * list varg) :=
  match args with VInt z :: args => Some (z, args) | _ => None end.
Definition va_str (args : list varg) : option (option (list Z) * list varg) :=
  match args with VStr s :: args => Some (s, args) | _ => None end.

Fixpoint zero_flags (f : list Z) (flags : Z) : Z * list Z :=
  match f with
  | c :: f' => if c =? 48 then zero_flags f' (flags .| PAD_ZERO) else (flags, f)
  | [] => (flags, f)
  end.

Fixpoint get_width (f : list Z) (width : Z) : Z * list Z :=
  match f with
  | c :: f' => if (48 <=? c) && (c <=? 57) then get_width f' (width * 10 + (c - 48)) else (width, f)
  | [] => (width, f)
  end.

(** Flags, width and the conversion that follows. *)
Definition print_spec (f : list Z) : Z * Z * list Z :=
  let '(flags, f) := match f with c :: f' => if c =? 45 then (PAD_RIGHT, f') else (0, f) | [] => (0, f) end in
  let '(flags, f) :=
    match f with c :: f' => if c =? 35 then (flags .| PAD_ALTERNATE, f') else (flags, f) | [] => (flags, f) end in
  let '(flags, f) := zero_flags f flags in
  let '(width, f) := get_width f 0 in
  (flags, width, f).

(** [while (acnt & 7) { va_arg(args, int); acnt += 4; }]; [acnt] is a multiple
    of four, so one turn is enough. *)
Fixpoint align_args (fuel : nat) (args : list varg) (acnt : Z) : option (list varg * Z) :=
  if nz (acnt .& 7) then
    match fuel with
    | O => None
    | S fuel => '(_, args) ← va_int args; align_args fuel args (acnt + 4)
    end
  else Some (args, acnt).

(** One conversion: the sink, the characters counted, the arguments left, the
    byte count, and the format at the point where the loop steps over one more
    character. *)
Definition conv_result : Type := sink * Z * list varg * Z * list Z.

Definition conv_int (o : sink) (args : list varg) (acnt : Z) (f : list Z)
    (narrow : Z -> Z) (size b sg width flags letbase : Z) : option conv_result :=
  '(z, args) ← va_int args;
  let '(o, n) := printi o (narrow z) b sg width flags letbase in
  Some (o, n, args, acnt + size, f).

Definition print_conv (o : sink) (f : list Z) (args : list varg) (acnt width flags : Z) :
    option conv_result :=
  let c := nth 0 f 0 in let c1 := nth 1 f 0 in let c2 := nth 2 f 0 in
  if c =? 115 (* s *) then
    '(s, args) ← va_str args;
    let '(o, n) := prints o (default (chars "(null)") s) width flags in
    Some (o, n, args, acnt + 8, f)
  else if (c =? 100) || (c =? 105) (* d i *) then conv_int o args acnt f s32 4 10 1 width flags 48
  else if c =? 120 (* x *) then conv_int o args acnt f u32 4 16 0 width flags 97
  else if c =? 88 (* X *) then conv_int o args acnt f u32 4 16 0 width flags 65
  else if c =? 117 (* u *) then conv_int o args acnt f u32 4 10 0 width flags 97
  else if c =? 112 (* p *) then conv_int o args acnt f u64 8 16 0 width flags 97
  else if c =? 80 (* P *) then conv_int o args acnt f u64 8 16 0 width flags 65
  else if (c =? 108) && (c1 =? 108) (* ll *) then
    '(args, acnt) ← align_args 2 args acnt;
    if c2 =? 117 then conv_int o args acnt (drop 2 f) u64 8 10 0 width flags 97
    else if c2 =? 120 then conv_int o args acnt (drop 2 f) u64 8 16 0 width flags 97
    else if c2 =? 88 then conv_int o args acnt (drop 2 f) u64 8 16 0 width flags 65
    else conv_int o args acnt (drop 1 f) s64 8 10 1 width flags 48
  else if c =? 108 (* l *) then
    if c1 =? 117 then conv_int o args acnt (drop 1 f) u64 0 10 0 width flags 97
    else if c1 =? 120 then conv_int o args acnt (drop 1 f) u64 8 16 0 width flags 97
    else if c1 =? 88 then conv_int o args acnt (drop 1 f) u64 8 16 0 width flags 65
    else conv_int o args acnt f s64 8 10 1 width flags 48
  else if c =? 99 (* c *) then
    '(z, args) ← va_int args;
    let '(o, n) := prints o [u8 z] width flags in
    Some (o, n, args, acnt + 4, f)
  else Some (o, 0, args, acnt, f).

(** The format loop.  Each turn consumes at least one character. *)
Fixpoint print_loop (fuel : nat) (o : sink) (format : list Z) (args : list varg) (acnt pc : Z) :
    option (sink * Z) :=
  match fuel with
  | O => None
  | S fuel =>
      match format with
      | [] => Some (o, pc)
      | c :: rest =>
          if c =? 37 then
            match rest with
            | [] => Some (o, pc)
            | c1 :: rest1 =>
                if c1 =? 37 then print_loop fuel (printc o c1) rest1 args acnt (pc + 1)
                else
                  let '(flags, width, f) := print_spec rest in
                  '(o, n, args, acnt, f) ← print_conv o f args acnt width flags;
                  match f with
                  | [] => None
                  | _ :: f => print_loop fuel o f args acnt (pc + n)
                  end
            end
          else print_loop fuel (printc o c) rest args acnt (pc + 1)
      end
  end.

(** [if (out) **out = 0] *)
Definition put_nul (o : sink) : sink :=
  match o with SConsole _ => o | SBuf m p n => SBuf (<[p := 0]> m) p n end.

Definition print (o : sink) (format : list Z) (args : list varg) : option (sink * Z) :=
  '(o, pc) ← print_loop (S (length format)) o format args 0 0;
  Some (put_nul o, pc).

Definition sink_mem (o : sink) : list Z := match o with SConsole _ => [] | SBuf m _ _ => m end.

(** The memory from the buffer on after the call, and the return value. *)
Definition sbi_sprintf (m : list Z) (format : list Z) (args : list varg) : option (list Z * Z) :=
  '(o, pc) ← print (SBuf m 0 None) format args; Some (sink_mem o, pc).
Definition sbi_snprintf (m : list Z) (out_sz : Z) (format : list Z) (args : list varg) :
    option (list Z * Z) :=
  '(o, pc) ← print (SBuf m 0 (Some out_sz)) format args; Some (sink_mem o, pc).

(** * What is emitted *)

Definition emit (o : sink) (l : list Z) : sink := foldl printc o l.

Lemma emit_app o l1 l2 : emit o (l1 ++ l2) = emit (emit o l1) l2.
Proof. apply foldl_app. Qed.

Lemma print_pad_emit n o ch pc :
  print_pad o ch n pc = (emit o (replicate n ch), pc + Z.of_nat n).
Proof.
  revert o pc. induction n as [|n IH]; intros; simpl; [f_equal; lia|].
  rewrite IH. f_equal. lia.
Qed.

Lemma print_chars_emit s o pc :
  print_chars o s pc = (emit o (until_nul s), pc + Z.of_nat (length (until_nul s))).
Proof.
  revert o pc. induction s as [|c s IH]; intros; simpl; [f_equal; lia|].
  destruct (c =? 0); simpl; [f_equal; lia|]. rewrite IH. f_equal. lia.
Qed.

(** The field [prints] lays out: the string, padded to the width on the side
    the flags say. *)
Definition field (s : list Z) (width flags : Z) : list Z :=
  let s := until_nul s in
  let pad := replicate (Z.to_nat (width - Z.of_nat (length s)))
    (if nz (flags .& PAD_ZERO) then 48 else 32) in
  if nz (flags .& PAD_RIGHT) then s ++ pad else pad ++ s.

Lemma prints_emit o s width flags :
  prints o s width flags = (emit o (field s width flags), Z.of_nat (length (field s width flags))).
Proof.
  unfold prints, field. set (t := until_nul s).
  destruct (Z.ltb_spec 0 width); simpl.
  - assert (Z.to_nat (if width <=? Z.of_nat (length t) then 0 else width - Z.of_nat (length t))
              = Z.to_nat (width - Z.of_nat (length t))) as E.
    { destruct (Z.leb_spec width (Z.of_nat (length t))); lia. }
    destruct (nz (flags .& PAD_RIGHT)).
    + rewrite print_chars_emit, print_pad_emit, E, emit_app, length_app, length_replicate.
      f_equal. fold t. lia.
    + rewrite print_pad_emit, print_chars_emit, print_pad_emit, E.
      replace (Z.to_nat (Z.min _ 0)) with 0%nat by lia. simpl.
      rewrite emit_app, length_app, length_replicate. f_equal. fold t. lia.
  - replace (Z.to_nat (width - _)) with 0%nat by lia.
    destruct (nz (flags .& PAD_RIGHT)); simpl.
    + rewrite print_chars_emit, print_pad_emit. replace (Z.to_nat width) with 0%nat by lia.
      simpl. rewrite app_nil_r. f_equal. fold t. lia.
    + rewrite print_pad_emit. replace (Z.to_nat width) with 0%nat by lia. simpl.
      rewrite print_chars_emit, print_pad_emit. replace (Z.to_nat (Z.min width 0)) with 0%nat by lia.
      simpl. f_equal. fold t. lia.
Qed.

Lemma printi_emits i b sg width flags letbase :
  exists l, forall o, printi o i b sg width flags letbase = (emit o l, Z.of_nat (length l)).
Proof.
  unfold printi. destruct (_ && (nz width && _)).
  - eexists (45 :: field _ _ _). intros o. rewrite prints_emit. simpl. f_equal. lia.
  - eexists. intros o. apply prints_emit.
Qed.

(** A conversion emits the same text and leaves the same rest for every sink. *)
Definition conv_uniform (m : sink -> option conv_result) : Prop :=
  (forall o, m o = None) \/
  exists l args acnt f, forall o, m o = Some (emit o l, Z.of_nat (length l), args, acnt, f).

Lemma conv_int_uniform args acnt f narrow size b sg width flags letbase :
  conv_uniform (fun o => conv_int o args acnt f narrow size b sg width flags letbase).
Proof.
  unfold conv_int. destruct (va_int args) as [[z args']|]; simpl; [|by left].
  destruct (printi_emits (narrow z) b sg width flags letbase) as [l Hl].
  right. exists l, args', (acnt + size), f. intros o. rewrite Hl. reflexivity.
Qed.

Lemma print_conv_uniform f args acnt width flags :
  conv_uniform (fun o => print_conv o f args acnt width flags).
Proof.
  unfold print_conv. case_match.
  { destruct (va_str args) as [[s args']|]; simpl; [|by left]. right. do 4 eexists.
    intros o. rewrite prints_emit. reflexivity. }
  repeat (case_match; [solve [apply conv_int_uniform]|]).
  case_match.
  { destruct (align_args 2 args acnt) as [[args' acnt']|]; simpl; [|by left].
    repeat (case_match; [apply conv_int_uniform|]). apply conv_int_uniform. }
  case_match; [repeat (case_match; [apply conv_int_uniform|]); apply conv_int_uniform|].
  case_match.
  { destruct (va_int args) as [[z args']|]; simpl; [|by left]. right. do 4 eexists.
    intros o. rewrite prints_emit. reflexivity. }
  right. exists [], args, acnt, f. done.
Qed.

(** The format loop emits the same text to every sink. *)
Lemma print_loop_uniform fuel : forall format args acnt,
  (forall o pc, print_loop fuel o format args acnt pc = None) \/
  exists l, forall o pc, print_loop fuel o format args acnt pc = Some (emit o l, pc + Z.of_nat (length l)).
Proof.
  assert (Hnil : forall (o : sink) (pc : Z), Some (o, pc) = Some (emit o [], pc + Z.of_nat (length (@nil Z)))).
  { intros. simpl. do 2 f_equal. lia. }
  induction fuel as [|fuel IH]; intros format args acnt; [by left|]. simpl.
  assert (Hchar : forall c rest,
    (forall o pc, print_loop fuel (printc o c) rest args acnt (pc + 1) = None) \/
    exists l, forall o pc, print_loop fuel (printc o c) rest args acnt (pc + 1) =
      Some (emit o l, pc + Z.of_nat (length l))).
  { intros c rest. destruct (IH rest args acnt) as [HN|[l Hl]]; [left; intros; apply HN|].
    right. exists (c :: l). intros o pc. rewrite Hl. simpl. do 2 f_equal. lia. }
  destruct format as [|c rest]; [right; exists []; apply Hnil|].
  destruct (c =? 37); [|apply Hchar].
  destruct rest as [|c1 rest1]; [right; exists []; apply Hnil|].
  destruct (c1 =? 37); [apply Hchar|].
  destruct (print_spec (c1 :: rest1)) as [[flags width] f].
  destruct (print_conv_uniform f args acnt width flags) as [HN|(l & args' & acnt' & f' & Hl)].
  { left. intros o pc. by rewrite HN. }
  destruct f' as [|x f']; [left; intros o pc; by rewrite Hl|].
  destruct (IH f' args' acnt') as [HN|[l' Hl']]; [left; intros o pc; rewrite Hl; apply HN|].
  right. exists (l ++ l'). intros o pc. rewrite Hl. simpl. rewrite Hl', emit_app, length_app.
  do 2 f_equal. lia.
Qed.

Lemma emit_console l sent : emit (SConsole sent) l = SConsole (sent ++ l).
Proof.
  revert sent. induction l as [|c l IH]; intros; simpl; [by rewrite app_nil_r|].
  rewrite IH. by rewrite <- app_assoc.
Qed.

(** The bytes [l] written at position [p]. *)
Fixpoint write_at (m : list Z) (p : nat) (l : list Z) : list Z :=
  match l with
  | [] => m
  | c :: l => write_at (<[p := u8 c]> m) (S p) l
  end.

Lemma emit_buf l : forall m p n, exists n',
  emit (SBuf m p n) l = SBuf (write_at m p l) (p + length l) n'.
Proof.
  induction l as [|c l IH]; intros m p n; [exists n; simpl; f_equal; lia|].
  change (emit (SBuf m p n) (c :: l)) with (emit (printc (SBuf m p n) c) l).
  assert (exists n1, printc (SBuf m p n) c = SBuf (<[p := u8 c]> m) (S p) n1) as [n1 ->].
  { destruct n as [n|]; simpl; [case_match|]; eauto. }
  destruct (IH (<[p := u8 c]> m) (S p) n1) as [n' E]. exists n'. rewrite E. simpl. f_equal. lia.
Qed.

(** * Numbers *)

Definition digit_val (letbase c : Z) : Z := if c <=? 57 then c - 48 else c - letbase + 10.
Definition number_val (b letbase : Z) (l : list Z) : Z :=
  foldl (fun acc c => acc * b + digit_val letbase c) 0 l.

Lemma number_val_cons_acc b letbase l : forall acc,
  foldl (fun acc c => acc * b + digit_val letbase c) acc l =
  acc * b ^ Z.of_nat (length l) + number_val b letbase l.
Proof.
  unfold number_val. induction l as [|c l IH]; intros acc; simpl; [lia|].
  rewrite IH, (IH (0 * b + _)). rewrite Nat2Z.inj_succ, Z.pow_succ_r by lia. lia.
Qed.

Definition base_ok (b letbase : Z) : Prop :=
  2 <= b <= 16 /\ (b <= 10 \/ letbase = 97 \/ letbase = 65).

Lemma digit_val_char b letbase t :
  base_ok b letbase -> 0 <= t < b -> digit_val letbase (digit_char t letbase) = t.
Proof.
  intros [Hb Hl] Ht. unfold digit_val, digit_char, u8, wrap.
  destruct (Z.leb_spec 10 t); rewrite Z.mod_small by lia.
  - destruct (Z.leb_spec (t + (letbase - 48 - 10) + 48) 57); lia.
  - destruct (Z.leb_spec (t + 48) 57); lia.
Qed.

Lemma digit_char_zero b letbase t :
  base_ok b letbase -> 0 <= t < b ->
  (t <> 0 -> digit_char t letbase <> 48) /\ 48 <= digit_char t letbase <= 102.
Proof.
  intros [Hb Hl] Ht. unfold digit_char, u8, wrap.
  destruct (Z.leb_spec 10 t); rewrite Z.mod_small by lia; lia.
Qed.

(** The digit loop produces the number in the base, most significant digit
    first and without leading zeros, and needs no more turns than the value
    has bits. *)
Lemma digits_loop_value b letbase n : forall u s,
  base_ok b letbase -> 0 <= u < 2 ^ Z.of_nat n ->
  exists d, digits_loop n u b letbase s = d ++ s /\ number_val b letbase d = u /\
    (u <> 0 -> exists c d', d = c :: d' /\ c <> 48) /\
    Forall (fun c => 48 <= c <= 102) d /\ (length d <= n)%nat.
Proof.
  induction n as [|n IH]; intros u s Hb Hu.
  { assert (u = 0) as -> by (simpl in Hu; lia). by exists []. }
  change (digits_loop (S n) u b letbase s) with
    (if u =? 0 then s else digits_loop n (u / b) b letbase (digit_char (u mod b) letbase :: s)).
  destruct (Z.eqb_spec u 0) as [->|Hnz].
  { exists []. split; [done|]. split; [done|]. split; [done|]. split; [constructor|simpl; lia]. }
  rewrite Nat2Z.inj_succ, Z.pow_succ_r in Hu by lia. destruct (Hb) as [Hb2 _].
  assert (Hdiv : 0 <= u / b < 2 ^ Z.of_nat n).
  { split; [apply Z.div_pos; lia|]. apply Z.div_lt_upper_bound; nia. }
  destruct (IH (u / b) (digit_char (u mod b) letbase :: s) Hb Hdiv) as (d & E & Hv & Hhd & Hall & Hlen).
  pose proof (Z.mod_pos_bound u b ltac:(lia)). pose proof (Z.div_mod u b ltac:(lia)).
  exists (d ++ [digit_char (u mod b) letbase]). repeat split.
  - by rewrite E, <- app_assoc.
  - unfold number_val. rewrite foldl_app. simpl.
    fold (number_val b letbase d). rewrite Hv, (digit_val_char b) by done. lia.
  - intros _. destruct (decide (u / b = 0)) as [Hz|Hz].
    + destruct d as [|c d'].
      * exists (digit_char (u mod b) letbase), []. split; [done|]. apply (digit_char_zero b); [done..|lia].
      * exfalso. assert (Hd : digits_loop n 0 b letbase (digit_char (u mod b) letbase :: s) =
          digit_char (u mod b) letbase :: s) by by destruct n.
        rewrite Hz, Hd in E. apply (f_equal (@length Z)) in E. rewrite length_app in E. simpl in E. lia.
    + destruct (Hhd Hz) as (c & d' & -> & Hc). by exists c, (d' ++ [digit_char (u mod b) letbase]).
  - apply Forall_app_2; [done|]. apply Forall_singleton. by apply (digit_char_zero b).
  - rewrite length_app. simpl. lia.
Qed.

Lemma until_nul_digits d : Forall (fun c => 48 <= c <= 102) d -> until_nul d = d.
Proof.
  induction 1 as [|c d Hc _ IH]; [done|]. simpl. destruct (Z.eqb_spec c 0); [lia|]. by rewrite IH.
Qed.

(** The digits of an unsigned value, as [printi] lays them out. *)
Definition number_text (b letbase u : Z) : list Z :=
  if u =? 0 then [48] else digits_loop 64 u b letbase [].

Lemma number_text_spec b letbase u :
  base_ok b letbase -> 0 <= u < 2 ^ 64 ->
  number_val b letbase (number_text b letbase u) = u /\
  until_nul (number_text b letbase u) = number_text b letbase u /\
  (1 <= length (number_text b letbase u) <= 64)%nat /\
  (u <> 0 -> hd 0 (number_text b letbase u) <> 48) /\
  (hd 0 (number_text b letbase u) <> 45).
Proof.
  intros Hb Hu. unfold number_text. destruct (Z.eqb_spec u 0) as [->|Hnz]; [by repeat split; simpl; lia|].
  destruct (digits_loop_value b letbase 64 u [] Hb Hu) as (d & E & Hv & Hhd & Hall & Hlen).
  rewrite app_nil_r in E. rewrite E. destruct (Hhd Hnz) as (c & d' & -> & Hc).
  split; [done|]. split; [by apply until_nul_digits|]. split; [simpl in *; lia|].
  inversion_clear Hall. split; simpl; [done|lia].
Qed.

(** Reading a decimal back: an optional sign, then digits without a leading
    zero (other than the number zero itself). *)
Definition read_dec (l : list Z) : option Z :=
  let neg := bool_decide (hd 0 l = 45) in
  let d := if neg then tl l else l in
  if decide (d = [48]) then Some 0
  else if decide (hd 48 d = 48) then None
  else Some (if neg then - number_val 10 48 d else number_val 10 48 d).

Lemma read_dec_unsigned u :
  0 <= u < 2 ^ 64 -> read_dec (number_text 10 48 u) = Some u.
Proof.
  intros Hu. destruct (number_text_spec 10 48 u) as (Hv & _ & Hlen & Hhd & H45); [split; lia|done|].
  unfold read_dec.
  destruct (number_text 10 48 u) as [|c d] eqn:E; simpl in Hlen, Hhd, H45; [lia|].
  rewrite bool_decide_false by done.
  destruct (decide (c :: d = [48])) as [Hz|Hz].
  { injection Hz as -> ->. f_equal. done. }
  destruct (decide (u = 0)) as [->|Hnz]; [done|].
  rewrite decide_False by (simpl; auto). by rewrite Hv.
Qed.

Lemma read_dec_negative u :
  0 < u < 2 ^ 64 -> read_dec (45 :: number_text 10 48 u) = Some (- u).
Proof.
  intros Hu. destruct (number_text_spec 10 48 u) as (Hv & _ & Hlen & Hhd & _); [split; lia|lia|].
  unfold read_dec. destruct (number_text 10 48 u) as [|c d] eqn:E; simpl in Hlen, Hhd; [lia|].
  rewrite decide_False by (intros [= ->]; apply Hhd; lia || done).
  rewrite decide_False by (simpl; auto with lia). simpl. by rewrite Hv.
Qed.

(** A number below [b^k] has at most [k] digits. *)
Lemma digits_loop_length b letbase k : forall n u s,
  2 <= b -> 0 <= u < b ^ Z.of_nat k -> (length (digits_loop n u b letbase s) <= k + length s)%nat.
Proof.
  induction k as [|k IH]; intros n u s Hb Hu.
  { assert (u = 0) as -> by (simpl in Hu; lia). by destruct n. }
  destruct n as [|n]; [unfold digits_loop; lia|].
  change (digits_loop (S n) u b letbase s) with
    (if u =? 0 then s else digits_loop n (u / b) b letbase (digit_char (u mod b) letbase :: s)).
  destruct (u =? 0); [lia|]. rewrite Nat2Z.inj_succ, Z.pow_succ_r in Hu by lia.
  assert (0 <= u / b < b ^ Z.of_nat k).
  { split; [apply Z.div_pos; lia|]. apply Z.div_lt_upper_bound; nia. }
  specialize (IH n (u / b) (digit_char (u mod b) letbase :: s)). simpl in IH. lia.
Qed.

Lemma number_text_length10 letbase u :
  0 <= u < 2 ^ 64 -> (length (number_text 10 letbase u) <= 20)%nat.
Proof.
  intros. unfold number_text. destruct (u =? 0); [simpl; lia|].
  pose proof (digits_loop_length 10 letbase 20 64 u []) as H'. simpl length in H' at 2.
  assert (10 ^ Z.of_nat 20 > 2 ^ 64) by done. lia.
Qed.

Lemma field_plain s : field s 0 0 = until_nul s.
Proof. unfold field. simpl. by replace (Z.to_nat _) with 0%nat by lia. Qed.

(** What [print] sends to the console for a plain signed decimal. *)
Lemma printi_decimal o i :
  - 2 ^ 63 <= i < 2 ^ 63 ->
  exists l, printi o i 10 1 0 0 48 = (emit o l, Z.of_nat (length l)) /\ read_dec l = Some i /\
    (length l <= 21)%nat.
Proof.
  intros Hi. unfold printi. simpl. fold (number_text 10 48).
  destruct (Z.ltb_spec i 0) as [Hneg|Hpos]; simpl.
  - fold (number_text 10 48 (u64 (- i))). unfold u64. rewrite (wrap_small 64) by (unfold fits; lia).
    pose proof (number_text_length10 48 (- i)).
    destruct (number_text_spec 10 48 (- i)) as (_ & Hn & Hlen & _); [split; lia|lia|].
    exists (45 :: number_text 10 48 (- i)). rewrite prints_emit, field_plain. simpl. rewrite Hn.
    split; [done|]. split; [|simpl in *; lia]. rewrite read_dec_negative by lia. f_equal. lia.
  - fold (number_text 10 48 (u64 i)). unfold u64. rewrite (wrap_small 64) by (unfold fits; lia).
    pose proof (number_text_length10 48 i).
    destruct (number_text_spec 10 48 i) as (_ & Hn & Hlen & _); [split; lia|lia|].
    exists (number_text 10 48 i). rewrite prints_emit, field_plain. simpl. rewrite Hn.
    split; [done|]. split; [|lia]. by apply read_dec_unsigned; lia.
Qed.

(** * Contracts *)

#[local] Arguments printi : simpl never.
#[local] Arguments s64 : simpl never.
#[local] Arguments s32 : simpl never.
#[local] Arguments u64 : simpl never.

(** Printing a signed decimal and reading the characters back gives the
    number, for every [long]; the text with its sign and terminator fits the
    64-byte buffer it is built in. *)
Theorem printi_decimal_roundtrip (i : Z) :
  - 2 ^ 63 <= i < 2 ^ 63 ->
  exists l, printi (SConsole []) i 10 1 0 0 48 = (SConsole l, Z.of_nat (length l)) /\
    read_dec l = Some i /\ Z.of_nat (length l) < PRINT_BUF_LEN.
Proof.
  intros Hi. destruct (printi_decimal (SConsole []) i Hi) as (l & E & Hr & Hlen).
  exists l. rewrite E, emit_console. unfold PRINT_BUF_LEN. split; [done|]. split; [done|lia].
Qed.

Lemma printi_decimal_roundtrip_witness :
  exists l, printi (SConsole []) (-4096) 10 1 0 0 48 = (SConsole l, 5) /\ read_dec l = Some (-4096).
Proof.
  destruct (printi_decimal_roundtrip (-4096)) as (l & E & Hr & _); [lia|].
  exists l. split; [|exact Hr]. rewrite E. vm_compute in E. injection E as <-. reflexivity.
Defined.

(** For every format and arguments, the value [print] returns is the
    number of characters it sent. *)
Theorem print_count (format : list Z) (args : list varg) (o : sink) (pc : Z) :
  print (SConsole []) format args = Some (o, pc) ->
  exists l, o = SConsole l /\ pc = Z.of_nat (length l).
Proof.
  unfold print. intros E.
  destruct (print_loop_uniform (S (length format)) format args 0) as [HN|[l Hl]].
  - by rewrite HN in E.
  - rewrite Hl in E. simpl in E. rewrite emit_console in E. injection E as <- <-. by exists l.
Qed.

Lemma print_count_witness :
  exists l, SConsole (chars "hart 3: ok") = SConsole l /\ 10 = Z.of_nat (length l).
Proof.
  apply (print_count (chars "hart %d: %s") [VInt 3; VStr (Some (chars "ok"))]).
  vm_compute. reflexivity.
Defined.

(** The size given to [sbi_snprintf] has no effect: it writes the whole
    text and its terminator, as [sbi_sprintf] does, however small the buffer
    is said to be. *)
Theorem sbi_snprintf_ignores_size (m : list Z) (out_sz : Z) (format : list Z) (args : list varg) :
  sbi_snprintf m out_sz format args = sbi_sprintf m format args.
Proof.
  unfold sbi_snprintf, sbi_sprintf, print.
  destruct (print_loop_uniform (S (length format)) format args 0) as [HN|[l Hl]]; [by rewrite !HN|].
  rewrite !Hl. simpl.
  destruct (emit_buf l m 0 (Some out_sz)) as [n1 ->]. destruct (emit_buf l m 0 None) as [n2 ->]. done.
Qed.

(** The conversion [%ld] prints the number and then a spurious letter d:
    unlike the other conversions it does not step over the second letter. *)
Theorem print_ld_spurious (i : Z) :
  - 2 ^ 63 <= i < 2 ^ 63 ->
  exists l, read_dec l = Some i /\
    print (SConsole []) (chars "%ld") [VInt i] = Some (SConsole (l ++ chars "d"), Z.of_nat (length l) + 1).
Proof.
  intros Hi. destruct (printi_decimal (SConsole []) i Hi) as (l & E & Hr & _).
  exists l. split; [done|]. change (chars "%ld") with [37; 108; 100]. change (chars "d") with [100].
  lazy -[printi s64 emit printc put_nul Z.add Z.of_nat length app].
  rewrite s64_small by lia. rewrite E. simpl. by rewrite emit_console.
Qed.

Lemma print_ld_spurious_witness :
  print (SConsole []) (chars "%ld") [VInt (-12)] = Some (SConsole (chars "-12d"), 4) /\
  exists l, read_dec l = Some (-12) /\
    print (SConsole []) (chars "%ld") [VInt (-12)] = Some (SConsole (l ++ chars "d"), Z.of_nat (length l) + 1).
Proof. split; [vm_compute; reflexivity|]. apply (print_ld_spurious (-12)). lia. Defined.

(** On a 64-bit hart the realignment of the argument list before [%ll]
    swallows an argument whenever an odd number of [int]-sized ones came
    before. *)
Example print_ll_skips_argument :
  print (SConsole []) (chars "%d %llx") [VInt 1; VInt 2; VInt 3] = Some (SConsole (chars "1 3"), 3).
Proof. vm_compute. reflexivity. Qed.
