(* ===== verification/Platform.v ===== *)
(** The platform interface: include/sbi/sbi_platform.h and
    lib/sbi/sbi_platform.c.

    A platform supplies optional operations; the wrappers give each missing
    one its default.  The operations themselves belong to the platform and are
    fields of the record. *)

From S2P Require Import Prelude Encoding Bitops Cstring Machine Format.

Definition SBI_PLATFORM_HAS_TIMER_VALUE : Z := 1.
Definition SBI_PLATFORM_HAS_HART_HOTPLUG : Z := 2.
Definition SBI_PLATFORM_HAS_MFAULTS_DELEGATION : Z := 4.
Definition SBI_PLATFORM_HAS_HART_SECONDARY_BOOT : Z := 8.
Definition SBI_PLATFORM_TLB_RANGE_FLUSH_LIMIT_DEFAULT : Z := 4096.
Definition SBI_PLATFORM_RESET_SHUTDOWN : Z := 0.
Definition SBI_PLATFORM_RESET_COLD : Z := 1.
Definition SBI_PLATFORM_RESET_WARM : Z := 2.

Record sbi_platform_operations : Type := mkOps {
  op_early_init : option (bool -> M Z);
  op_final_init : option (bool -> M Z);
  op_early_exit : option (M unit);
  op_final_exit : option (M unit);
  op_misa_check_extension : option (Z -> M Z);
  op_misa_get_xlen : option (M Z);
  op_pmp_region_count : option (Z -> M Z);
  op_pmp_region_info : option (Z -> Z -> M (Z * (Z * Z * Z)));
  op_console_putc : option (Z -> M unit);
  op_console_getc : option (M Z);
  op_console_init : option (M Z);
  op_irqchip_init : option (bool -> M Z);
  op_irqchip_exit : option (M unit);
  op_ipi_send : option (Z -> M unit);
  op_ipi_clear : option (Z -> M unit);
  op_ipi_init : option (bool -> M Z);
  op_ipi_exit : option (M unit);
  op_get_tlbr_flush_limit : option (M Z);
  op_timer_value : option (M Z);
  op_timer_event_start : option (Z -> M unit);
  op_timer_event_stop : option (M unit);
  op_timer_init : option (bool -> M Z);
  op_timer_exit : option (M unit);
  op_hart_start : option (Z -> Z -> M Z);
  op_hart_stop : option (M Z);
  op_system_reset : option (Z -> M Z);
  op_vendor_ext_check : option (Z -> M Z);
  op_vendor_ext_provider : option (Z -> Z -> list Z -> M (Z * Z * sbi_trap_info))
}.

(** A platform that supplies no operation. *)
Definition no_ops : sbi_platform_operations :=
  mkOps None None None None None None None None None None None None None None None None None None None None None None None None None None None None.

(** A platform with a console that always reads the given character, and that
    records what it is asked to do as events. *)
Definition console_ops (ch : Z) : sbi_platform_operations :=
  mkOps None None None None None None None None (Some (fun c => modify (add_event (EvPutc c))))
    (Some (mret ch)) None None None
    (Some (fun h => modify (add_event (EvWrite 4 h 1)))) (Some (fun h => modify (add_event (EvWrite 4 h 0))))
    None None None None (Some (fun t => modify (add_event (EvWrite 8 0 t)))) None None None None None None
    None None.

Record sbi_platform : Type := mkPlat {
  opensbi_version : Z;
  platform_version : Z;
  plat_name : list Z;
  features : Z;
  hart_count : Z;
  hart_stack_size : Z;
  platform_ops : sbi_platform_operations;
  hart_index2id : option (list Z)
}.

(** Call an operation when the platform exists and has it. *)
Definition plat_call {A} (plat : option sbi_platform)
    (op : sbi_platform_operations -> option (M A)) (dflt : A) : M A :=
  match plat with
  | Some p => match op (platform_ops p) with Some m => m | None => mret dflt end
  | None => mret dflt
  end.

(** The harts share one platform; [fw_end] is where the linker places the end
    of the firmware image. *)
Class Platform : Type := { the_platform : sbi_platform; fw_end : Z }.

Definition SBI_SCRATCH_FW_START_OFFSET : Z := 0.
Definition SBI_SCRATCH_FW_SIZE_OFFSET : Z := 8.
Definition SBI_SCRATCH_NEXT_ARG1_OFFSET : Z := 16.
Definition SBI_SCRATCH_NEXT_ADDR_OFFSET : Z := 24.
Definition SBI_SCRATCH_NEXT_MODE_OFFSET : Z := 32.
Definition SBI_SCRATCH_WARMBOOT_ADDR_OFFSET : Z := 40.
Definition SBI_SCRATCH_PLATFORM_ADDR_OFFSET : Z := 48.
Definition SBI_SCRATCH_HARTID_TO_SCRATCH_OFFSET : Z := 56.
Definition SBI_SCRATCH_TMP0_OFFSET : Z := 64.
Definition SBI_SCRATCH_OPTIONS_OFFSET : Z := 72.
Definition SBI_SCRATCH_EXTRA_SPACE_OFFSET : Z := 80.
Definition SBI_SCRATCH_SIZE : Z := 4096.
Definition SBI_SCRATCH_NO_BOOT_PRINTS : Z := 1.
Definition SBI_SCRATCH_DEBUG_PRINTS : Z := 2.

(** The platform a scratch area points to: NULL, or the platform. *)
Definition sbi_platform_ptr `{Platform} (scratch : Z) : M (option sbi_platform) :=
  p ← load (scratch + SBI_SCRATCH_PLATFORM_ADDR_OFFSET);
  mret (if p =? 0 then None else Some the_platform).

Definition sbi_scratch_thishart_ptr `{Hardware} : M Z := csr_read CSR_MSCRATCH.
Definition sbi_platform_thishart_ptr `{Hardware} `{Platform} : M (option sbi_platform) :=
  scratch ← sbi_scratch_thishart_ptr; sbi_platform_ptr scratch.

Definition sbi_platform_has_timer_value (p : sbi_platform) : bool :=
  nz (features p .& SBI_PLATFORM_HAS_TIMER_VALUE).
Definition sbi_platform_has_hart_hotplug (p : sbi_platform) : bool :=
  nz (features p .& SBI_PLATFORM_HAS_HART_HOTPLUG).
Definition sbi_platform_has_mfaults_delegation (p : sbi_platform) : bool :=
  nz (features p .& SBI_PLATFORM_HAS_MFAULTS_DELEGATION).
Definition sbi_platform_has_hart_secondary_boot (p : sbi_platform) : bool :=
  nz (features p .& SBI_PLATFORM_HAS_HART_SECONDARY_BOOT).

(** [for (i = 0; i < hart_count; i++) if (hart_index2id[i] == hartid) return i] *)
Fixpoint hart_index_loop (n : nat) (i : Z) (tbl : list Z) (hartid : Z) : Z :=
  match n with
  | O => 2 ^ 32 - 1
  | S n =>
      if decide (tbl !! Z.to_nat i = Some hartid) then i else hart_index_loop n (i + 1) tbl hartid
  end.
Definition sbi_platform_hart_index (plat : option sbi_platform) (hartid : Z) : Z :=
  match plat with
  | None => 2 ^ 32 - 1
  | Some p =>
      match hart_index2id p with
      | Some tbl => hart_index_loop (Z.to_nat (hart_count p)) 0 tbl hartid
      | None => hartid
      end
  end.

Definition sbi_platform_name (plat : option sbi_platform) : list Z :=
  match plat with Some p => plat_name p | None => chars "Unknown" end.
Definition sbi_platform_get_features (plat : option sbi_platform) : Z :=
  match plat with Some p => features p | None => 0 end.
Definition sbi_platform_tlbr_flush_limit (plat : option sbi_platform) : M Z :=
  plat_call plat op_get_tlbr_flush_limit SBI_PLATFORM_TLB_RANGE_FLUSH_LIMIT_DEFAULT.
Definition sbi_platform_hart_count (plat : option sbi_platform) : Z :=
  match plat with Some p => hart_count p | None => 0 end.
Definition sbi_platform_hart_stack_size (plat : option sbi_platform) : Z :=
  match plat with Some p => hart_stack_size p | None => 0 end.
Definition sbi_platform_hart_invalid (plat : option sbi_platform) (hartid : Z) : bool :=
  match plat with
  | None => true
  | Some p => hart_count p <=? sbi_platform_hart_index plat hartid
  end.

Definition sbi_platform_hart_start (plat : option sbi_platform) (hartid : Z) (saddr : Z) : M Z :=
  plat_call plat (fun o => f ← op_hart_start o; Some (f hartid saddr)) SBI_ENOTSUPP.
Definition sbi_platform_hart_stop (plat : option sbi_platform) : M Z :=
  plat_call plat op_hart_stop SBI_ENOTSUPP.
Definition sbi_platform_early_init (plat : option sbi_platform) (cold_boot : bool) : M Z :=
  plat_call plat (fun o => f ← op_early_init o; Some (f cold_boot)) 0.
Definition sbi_platform_final_init (plat : option sbi_platform) (cold_boot : bool) : M Z :=
  plat_call plat (fun o => f ← op_final_init o; Some (f cold_boot)) 0.
Definition sbi_platform_early_exit (plat : option sbi_platform) : M unit :=
  plat_call plat op_early_exit tt.
Definition sbi_platform_final_exit (plat : option sbi_platform) : M unit :=
  plat_call plat op_final_exit tt.
Definition sbi_platform_misa_extension (plat : option sbi_platform) (ext : Z) : M Z :=
  plat_call plat (fun o => f ← op_misa_check_extension o; Some (f ext)) 0.
Definition sbi_platform_misa_xlen (plat : option sbi_platform) : M Z :=
  plat_call plat op_misa_get_xlen (-1).
Definition sbi_platform_pmp_region_count (plat : option sbi_platform) (hartid : Z) : M Z :=
  plat_call plat (fun o => f ← op_pmp_region_count o; Some (f hartid)) 0.

(** The three results are written through pointers, which keep what they point
    to when the platform has no such operation. *)
Definition sbi_platform_pmp_region_info (plat : option sbi_platform) (hartid index : Z)
    (old : Z * Z * Z) : M (Z * (Z * Z * Z)) :=
  plat_call plat (fun o => f ← op_pmp_region_info o; Some (f hartid index)) (0, old).

Definition sbi_platform_console_putc (plat : option sbi_platform) (ch : Z) : M unit :=
  plat_call plat (fun o => f ← op_console_putc o; Some (f ch)) tt.
Definition sbi_platform_console_getc (plat : option sbi_platform) : M Z :=
  plat_call plat op_console_getc (-1).
Definition sbi_platform_console_init (plat : option sbi_platform) : M Z :=
  plat_call plat op_console_init 0.
Definition sbi_platform_irqchip_init (plat : option sbi_platform) (cold_boot : bool) : M Z :=
  plat_call plat (fun o => f ← op_irqchip_init o; Some (f cold_boot)) 0.
Definition sbi_platform_irqchip_exit (plat : option sbi_platform) : M unit :=
  plat_call plat op_irqchip_exit tt.
Definition sbi_platform_ipi_send (plat : option sbi_platform) (target_hart : Z) : M unit :=
  plat_call plat (fun o => f ← op_ipi_send o; Some (f target_hart)) tt.
Definition sbi_platform_ipi_clear (plat : option sbi_platform) (target_hart : Z) : M unit :=
  plat_call plat (fun o => f ← op_ipi_clear o; Some (f target_hart)) tt.
Definition sbi_platform_ipi_init (plat : option sbi_platform) (cold_boot : bool) : M Z :=
  plat_call plat (fun o => f ← op_ipi_init o; Some (f cold_boot)) 0.
Definition sbi_platform_ipi_exit (plat : option sbi_platform) : M unit :=
  plat_call plat op_ipi_exit tt.
Definition sbi_platform_timer_value (plat : option sbi_platform) : M Z :=
  plat_call plat op_timer_value 0.
Definition sbi_platform_timer_event_start (plat : option sbi_platform) (next_event : Z) : M unit :=
  plat_call plat (fun o => f ← op_timer_event_start o; Some (f next_event)) tt.
Definition sbi_platform_timer_event_stop (plat : option sbi_platform) : M unit :=
  plat_call plat op_timer_event_stop tt.
Definition sbi_platform_timer_init (plat : option sbi_platform) (cold_boot : bool) : M Z :=
  plat_call plat (fun o => f ← op_timer_init o; Some (f cold_boot)) 0.
Definition sbi_platform_timer_exit (plat : option sbi_platform) : M unit :=
  plat_call plat op_timer_exit tt.
Definition sbi_platform_system_reset (plat : option sbi_platform) (reset_type : Z) : M Z :=
  plat_call plat (fun o => f ← op_system_reset o; Some (f reset_type)) 0.
Definition sbi_platform_vendor_ext_check (plat : option sbi_platform) (extid : Z) : M Z :=
  plat_call plat (fun o => f ← op_vendor_ext_check o; Some (f extid)) 0.
Definition sbi_platform_vendor_ext_provider (plat : option sbi_platform) (extid funcid : Z)
    (args : list Z) (out_value : Z) (out_trap : sbi_trap_info) : M (Z * Z * sbi_trap_info) :=
  plat_call plat (fun o => f ← op_vendor_ext_provider o; Some (f extid funcid args))
    (SBI_ENOTSUPP, out_value, out_trap).

(** * The feature string *)

Definition sbi_platform_feature_id2string (feature : Z) : option (list Z) :=
  if feature =? SBI_PLATFORM_HAS_TIMER_VALUE then Some (chars "timer")
  else if feature =? SBI_PLATFORM_HAS_HART_HOTPLUG then Some (chars "hotplug")
  else if feature =? SBI_PLATFORM_HAS_MFAULTS_DELEGATION then Some (chars "mfdeleg")
  else if feature =? SBI_PLATFORM_HAS_HART_SECONDARY_BOOT then Some (chars "sec_boot")
  else None.

(** [sbi_snprintf(str + offset, nfstr, "%s,", temp)] on the memory [m] that
    starts at [str]. *)
Definition append_feature (m : list Z) (offset : nat) (nfstr : Z) (temp : list Z) : option (list Z) :=
  '(tl, _) ← sbi_snprintf (drop offset m) nfstr (chars "%s,") [VStr (Some temp)];
  Some (take offset m ++ tl).

(** The loop over the feature bits, shared in shape with the hart features. *)
Fixpoint features_loop (id2string : Z -> option (list Z)) (feats : list Z) (fv : Z)
    (m : list Z) (offset : nat) (nfstr : Z) : option (list Z * nat) :=
  match feats with
  | [] => Some (m, offset)
  | feat :: feats =>
      if nz (fv .& feat) then
        match id2string feat with
        | Some temp =>
            m ← append_feature m offset nfstr temp;
            features_loop id2string feats fv m (offset + length temp + 1) nfstr
        | None => features_loop id2string feats fv m offset nfstr
        end
      else features_loop id2string feats fv m offset nfstr
  end.

Definition finish_features (m : list Z) (offset : nat) (nfstr : Z) : option (list Z) :=
  if decide (offset = 0%nat) then sbi_strncpy m (chars "none" ++ [0]) (Z.to_nat nfstr)
  else Some (<[(offset - 1)%nat := 0]> m).

Definition sbi_platform_get_features_str (plat : option sbi_platform) (m : list Z) (nfstr : Z) :
    option (list Z) :=
  match plat with
  | None => Some m
  | Some p =>
      if nfstr =? 0 then Some m
      else
        let m := sbi_memset m 0 0 (Z.to_nat nfstr) in
        let fv := sbi_platform_get_features plat in
        '(m, offset) ←
          (if fv =? 0 then Some (m, 0%nat)
           else features_loop sbi_platform_feature_id2string [1; 2; 4; 8] fv m 0 nfstr);
        finish_features m offset nfstr
  end.

(** * Properties *)

Lemma hart_index_loop_spec tbl hartid n : forall i,
  0 <= i ->
  (exists k, i <= k < i + Z.of_nat n /\ hart_index_loop n i tbl hartid = k /\
     tbl !! Z.to_nat k = Some hartid /\ (forall j, i <= j < k -> tbl !! Z.to_nat j <> Some hartid)) \/
  (hart_index_loop n i tbl hartid = 2 ^ 32 - 1 /\
     (forall j, i <= j < i + Z.of_nat n -> tbl !! Z.to_nat j <> Some hartid)).
Proof.
  induction n as [|n IH]; intros i Hi; simpl; [right; split; [done|intros; lia]|].
  destruct (decide (tbl !! Z.to_nat i = Some hartid)) as [E|E].
  { left. exists i. repeat split; done || lia. }
  assert (Hext : forall k, (forall j, i + 1 <= j < k -> tbl !! Z.to_nat j <> Some hartid) ->
    forall j, i <= j < k -> tbl !! Z.to_nat j <> Some hartid).
  { intros k H j Hj. destruct (decide (j = i)) as [->|]; [done|]. apply H. lia. }
  destruct (IH (i + 1)) as [(k & Hk & Hr & Hl & Hmin)|[Hr Hmin]]; [lia| |].
  - left. exists k. split; [lia|]. split; [done|]. split; [done|]. by apply Hext.
  - right. split; [done|]. replace (i + Z.of_nat (S n)) with (i + 1 + Z.of_nat n) by lia. by apply Hext.
Qed.

(** A valid hart has an index in range, and no two have the same. *)
Lemma hart_index_valid p hartid :
  0 <= hartid -> 0 <= hart_count p < 2 ^ 32 - 1 -> sbi_platform_hart_invalid (Some p) hartid = false ->
  0 <= sbi_platform_hart_index (Some p) hartid < hart_count p /\
  match hart_index2id p with
  | Some tbl => tbl !! Z.to_nat (sbi_platform_hart_index (Some p) hartid) = Some hartid
  | None => sbi_platform_hart_index (Some p) hartid = hartid
  end.
Proof.
  intros Hh Hc Hv. unfold sbi_platform_hart_invalid in Hv. apply Z.leb_gt in Hv.
  unfold sbi_platform_hart_index in *. destruct (hart_index2id p) as [tbl|]; [|lia].
  destruct (hart_index_loop_spec tbl hartid (Z.to_nat (hart_count p)) 0)
    as [(k & Hk & E & Hl & _)|[E _]]; [lia| |]; rewrite E in *; [split; [lia|done]|lia].
Qed.

Lemma hart_index_inj p h1 h2 :
  0 <= h1 -> 0 <= h2 -> 0 <= hart_count p < 2 ^ 32 - 1 ->
  sbi_platform_hart_invalid (Some p) h1 = false -> sbi_platform_hart_invalid (Some p) h2 = false ->
  sbi_platform_hart_index (Some p) h1 = sbi_platform_hart_index (Some p) h2 -> h1 = h2.
Proof.
  intros H1 H2 Hc V1 V2 E. apply hart_index_valid in V1 as [_ V1]; [|done..].
  apply hart_index_valid in V2 as [_ V2]; [|done..].
  destruct (hart_index2id p); [|congruence]. rewrite E in V1. congruence.
Qed.

(** With an index table, a hart is reported invalid exactly when it is in
    none of the first [hart_count] entries; the index of a valid hart is the
    first entry that names it. *)
Theorem sbi_platform_hart_invalid_spec (p : sbi_platform) (tbl : list Z) (hartid : Z) :
  hart_index2id p = Some tbl -> 0 <= hart_count p < 2 ^ 32 - 1 ->
  (sbi_platform_hart_invalid (Some p) hartid = false <->
     exists i, 0 <= i < hart_count p /\ tbl !! Z.to_nat i = Some hartid) /\
  (sbi_platform_hart_invalid (Some p) hartid = false ->
     tbl !! Z.to_nat (sbi_platform_hart_index (Some p) hartid) = Some hartid).
Proof.
  intros Ht Hc. unfold sbi_platform_hart_invalid, sbi_platform_hart_index. rewrite Ht.
  destruct (hart_index_loop_spec tbl hartid (Z.to_nat (hart_count p)) 0)
    as [(k & Hk & -> & Hl & _)|[-> Hmin]]; [lia| |].
  - rewrite (proj2 (Z.leb_gt _ _)) by lia. split; [|done]. split; [|done]. intros _. exists k.
    split; [lia|done].
  - rewrite (proj2 (Z.leb_le _ _)) by lia. split; [|done]. split; [done|]. intros (i & Hi & E).
    exfalso. apply (Hmin i); [lia|done].
Qed.

Lemma sbi_platform_hart_invalid_spec_witness :
  sbi_platform_hart_invalid (Some (mkPlat 0 0 [] 0 3 8192 no_ops (Some [4; 1; 7]))) 7 = false /\
  ([4; 1; 7] : list Z) !! Z.to_nat
    (sbi_platform_hart_index (Some (mkPlat 0 0 [] 0 3 8192 no_ops (Some [4; 1; 7]))) 7) = Some 7.
Proof.
  destruct (sbi_platform_hart_invalid_spec
    (mkPlat 0 0 [] 0 3 8192 no_ops (Some [4; 1; 7])) [4; 1; 7] 7) as [H1 H2]; [done|simpl; lia|].
  assert (E : sbi_platform_hart_invalid (Some (mkPlat 0 0 [] 0 3 8192 no_ops (Some [4; 1; 7]))) 7
    = false) by (vm_compute; reflexivity).
  split; [exact E|]. exact (H2 E).
Defined.

(** The feature string of a platform with two features runs over the end of a
    four-byte buffer: of the memory [m] that starts with it, the fifth byte on
    has changed. *)
Example features_str_overflow :
  let p := mkPlat 0 0 [] (SBI_PLATFORM_HAS_TIMER_VALUE .| SBI_PLATFORM_HAS_HART_HOTPLUG) 1 8192 no_ops None in
  sbi_platform_get_features_str (Some p) (replicate 16 255) 4 =
  Some (chars "timer,hotplug" ++ [0; 0; 255]).
Proof. vm_compute. reflexivity. Qed.
