(* ===== verification/Console.v ===== *)
(** The console, lib/sbi/sbi_console.c: character and line input and output,
    and printing to the console under its lock. *)

From Stdlib Require Import String.
From S2P Require Import Prelude Encoding Machine Format Platform.

Section Console.
Context `{Hardware} `{Platform}.

Definition sbi_isprintable (c : Z) : bool :=
  ((31 <? c) && (c <? 127)) || (c =? 12) || (c =? 13) || (c =? 10) || (c =? 9).

(** [console_plat] is NULL until the console is initialised. *)
Definition console_plat : M (option sbi_platform) :=
  p ← getg "console_plat"; mret (if p =? 0 then None else Some the_platform).

Definition sbi_getc : M Z := plat ← console_plat; sbi_platform_console_getc plat.

Definition sbi_putc (ch : Z) : M unit :=
  plat ← console_plat;
  when (ch =? 10) (sbi_platform_console_putc plat 13);;
  sbi_platform_console_putc plat ch.

(** [while ( *str ) { sbi_putc( *str ); str++; }] *)
Definition puts_loop (str : list Z) : M unit := for_each (until_nul str) sbi_putc.

Definition sbi_puts (str : list Z) : M unit :=
  spin_lock_var "console_out_lock";; puts_loop str;; spin_unlock_var "console_out_lock".

(** The read loop of [sbi_gets] stores at most [maxwidth - 1] characters, so
    [maxwidth] turns are enough; [m] is the memory at [s], [p] the offset of
    [retval]. *)
Fixpoint gets_loop (fuel : nat) (m : list Z) (p : nat) (maxwidth endchar : Z) : M (list Z * nat) :=
  match fuel with
  | O => mret (m, p)
  | S fuel =>
      ch ← sbi_getc;
      if negb (ch =? endchar) && (0 <=? ch) && (1 <? maxwidth) then
        gets_loop fuel (<[p := u8 ch]> m) (S p) (maxwidth - 1) endchar
      else mret (m, p)
  end.
Definition sbi_gets (m : list Z) (maxwidth endchar : Z) : M (list Z) :=
  '(m, p) ← gets_loop (S (Z.to_nat maxwidth)) m 0 maxwidth endchar;
  mret (<[p := 0]> m).

(** [print(NULL, NULL, format, args)]: the text goes to [sbi_putc] character
    by character. *)
Definition print_console (format : list Z) (args : list varg) : M Z :=
  match print (SConsole []) format args with
  | Some (SConsole l, pc) => for_each l sbi_putc;; mret pc
  | _ => exits XUndef
  end.

Definition sbi_printf (format : list Z) (args : list varg) : M Z :=
  spin_lock_var "console_out_lock";;
  retval ← print_console format args;
  spin_unlock_var "console_out_lock";; mret retval.

Definition sbi_dprintf (format : list Z) (args : list varg) : M Z :=
  scratch ← sbi_scratch_thishart_ptr;
  options ← load (scratch + SBI_SCRATCH_OPTIONS_OFFSET);
  if nz (options .& SBI_SCRATCH_DEBUG_PRINTS) then print_console format args else mret 0.

Definition sbi_console_init (scratch : Z) : M Z :=
  plat ← sbi_platform_ptr scratch;
  setg "console_plat" (match plat with Some _ => 1 | None => 0 end);;
  plat ← console_plat;
  sbi_platform_console_init plat.

(** * Properties *)

(** The loop never writes at or beyond the [maxwidth - 1] first cells. *)
Lemma gets_loop_bounded endchar fuel : forall m p mw s m' p' s',
  gets_loop fuel m p mw endchar s = Ret (m', p') s' -> 1 <= mw ->
  length m' = length m /\ (p <= p')%nat /\ Z.of_nat p' - Z.of_nat p <= mw - 1 /\
  (forall i, (i < p \/ p' <= i)%nat -> m' !! i = m !! i).
Proof.
  induction fuel as [|fuel IH]; intros m p mw s m' p' s' E Hmw; simpl in E.
  { injection E as <- <- _. repeat split; done || lia. }
  unfold mbind, M_bind in E. destruct (sbi_getc s) as [ch s1|]; [|done].
  destruct (negb (ch =? endchar) && (0 <=? ch) && (1 <? mw)) eqn:G.
  - apply andb_true_iff in G as [_ G]. apply Z.ltb_lt in G.
    apply IH in E as (Hl & Hp & Hb & Hout); [|lia]. rewrite length_insert in Hl.
    split; [done|]. split; [lia|]. split; [lia|]. intros i Hi. rewrite Hout by lia.
    apply list_lookup_insert_ne. lia.
  - injection E as <- <- _. repeat split; done || lia.
Qed.

(** Reading a line into a buffer of [maxwidth] characters never writes
    outside it and always leaves it terminated, whatever the input device
    returns. *)
Theorem sbi_gets_bounded (m : list Z) (maxwidth endchar : Z) (s : st) (m' : list Z) (s' : st) :
  1 <= maxwidth <= Z.of_nat (length m) -> sbi_gets m maxwidth endchar s = Ret m' s' ->
  length m' = length m /\
  (forall i, maxwidth <= Z.of_nat i -> m' !! i = m !! i) /\
  (exists p, Z.of_nat p < maxwidth /\ m' !! p = Some 0).
Proof.
  intros Hmw E. unfold sbi_gets, mbind, M_bind in E.
  destruct (gets_loop _ m 0 maxwidth endchar s) as [[m1 p] s1|] eqn:E1; [|done].
  injection E as <- _. apply gets_loop_bounded in E1 as (Hl & _ & Hb & Hout); [|lia].
  rewrite length_insert. split; [done|]. split.
  - intros i Hi. rewrite list_lookup_insert_ne by lia. apply Hout. lia.
  - exists p. split; [lia|]. apply list_lookup_insert_eq. lia.
Qed.
End Console.

Lemma sbi_gets_bounded_witness :
  exists m', @sbi_gets (Build_Platform (mkPlat 0 0 [] 0 1 8192 (console_ops 65) None) 0) (replicate 8 1) 4 10
    (set_glob <["console_plat" := 1]> st0) = Ret m' (set_glob <["console_plat" := 1]> st0) /\
  length m' = 8%nat /\ (forall i, 4 <= Z.of_nat i -> m' !! i = replicate 8 1 !! i).
Proof.
  eexists. split; [vm_compute; reflexivity|].
  destruct (@sbi_gets_bounded (Build_Platform (mkPlat 0 0 [] 0 1 8192 (console_ops 65) None) 0) (replicate 8 1) 4 10
    (set_glob <["console_plat" := 1]> st0) [65; 65; 65; 0; 1; 1; 1; 1]
    (set_glob <["console_plat" := 1]> st0)) as (Hl & Ho & _).
  - simpl; lia.
  - vm_compute; reflexivity.
  - split; [exact Hl|exact Ho].
Defined.
