(* ===== verification/Scratch.v ===== *)
(** The per-hart scratch areas: include/sbi/sbi_scratch.h and
    lib/sbi/sbi_scratch.c, with [_hartid_to_scratch] of firmware/fw_base.S. *)

From Stdlib Require Import String.
From S2P Require Import Prelude Encoding Bitops Machine Platform.

(** The file-level variables of the firmware that do not start at zero. *)
Definition boot_glob : gmap string Z :=
  {[ "extra_offset"%string := SBI_SCRATCH_EXTRA_SPACE_OFFSET;
     "last_hartid_having_scratch"%string := SBI_HARTMASK_MAX_BITS;
     "ipi_smode_event"%string := 64;
     "ipi_halt_event"%string := 64;
     "tlb_event"%string := 64;
     "ecall_impid"%string := 1 ]}.

Definition boot_st : st := set_wait_hmask (fun _ => [0; 0]) (set_glob (fun _ => boot_glob) st0).

(** Reading the table at an index beyond its 128 entries is undefined. *)
Definition sbi_hartid_to_scratch (hartid : Z) : M Z :=
  if hartid <? SBI_HARTMASK_MAX_BITS then gets (fun s => default 0 (scratch_table s !! hartid))
  else exits XUndef.

Definition sbi_scratch_last_hartid : M Z := getg "last_hartid_having_scratch".

Section Scratch.
Context `{Hardware} `{Platform}.

(** The scratch area is the top of the hart's stack, the stacks following the
    firmware image from the last hart index to the first. *)
Definition _hartid_to_scratch (hartid hartindex : Z) : Z :=
  u64 (fw_end + (hart_count the_platform - hartindex) * hart_stack_size the_platform - SBI_SCRATCH_SIZE).

Definition scratch_init_body (plat : option sbi_platform) (i : Z) : M unit :=
  if sbi_platform_hart_invalid plat i then mret tt
  else
    let sp := _hartid_to_scratch i (sbi_platform_hart_index plat i) in
    modify (set_scratch_table <[i := sp]>);;
    when (nz sp) (setg "last_hartid_having_scratch" i).

Definition sbi_scratch_init (scratch : Z) : M Z :=
  plat ← sbi_platform_ptr scratch;
  for_each (seqZ 0 SBI_HARTMASK_MAX_BITS) (scratch_init_body plat);;
  mret 0.

(** [for (i = 0; i < last; i++)] over the scratch areas that exist. *)
Definition zero_block (ret size i : Z) : M unit :=
  rscratch ← sbi_hartid_to_scratch i;
  when (nz rscratch) (mem_zero (rscratch + ret) size).

(** The size rounded up to a multiple of the pointer size. *)
Definition round_size (size : Z) : Z :=
  if nz (size .& 7) then u64 ((size .& not64 7) + 8) else size.

Definition sbi_scratch_alloc_offset (size : Z) (owner : string) : M Z :=
  if size =? 0 then mret 0
  else
    let size := round_size size in
    spin_lock_var "extra_lock";;
    extra ← getg "extra_offset";
    ret ← (if SBI_SCRATCH_SIZE <? u64 (extra + size) then mret 0
           else setg "extra_offset" (u64 (extra + size));; mret extra);
    spin_unlock_var "extra_lock";;
    when (nz ret)
      (last ← sbi_scratch_last_hartid; for_each (seqZ 0 last) (zero_block ret size));;
    mret ret.

(** Freeing does nothing. *)
Definition sbi_scratch_free_offset (offset : Z) : M unit :=
  if (offset <? SBI_SCRATCH_EXTRA_SPACE_OFFSET) || (SBI_SCRATCH_SIZE <=? offset) then mret tt
  else mret tt.
End Scratch.

(** * The allocator *)

(** What the allocator relies on between calls. *)
Record alloc_inv (s : st) : Prop := {
  alloc_unlocked : gval s "extra_lock" = 0;
  alloc_bounds : SBI_SCRATCH_EXTRA_SPACE_OFFSET <= gval s "extra_offset" <= SBI_SCRATCH_SIZE;
  alloc_aligned : gval s "extra_offset" mod 8 = 0;
  alloc_last : 0 <= gval s "last_hartid_having_scratch" <= SBI_HARTMASK_MAX_BITS
}.

Definition round8 (size : Z) : Z := 8 * ((size + 7) / 8).

(** Sizes for which neither the rounding nor the sum with an offset in the
    scratch area wraps around. *)
Definition alloc_max : Z := 2 ^ 64 - SBI_SCRATCH_SIZE - 8.

Lemma round_size_round8 size : 0 <= size <= alloc_max -> round_size size = round8 size.
Proof.
  unfold alloc_max, SBI_SCRATCH_SIZE. intros Hs. unfold round_size, round8. change 7 with (Z.ones 3) at 1. rewrite Z.land_ones by lia.
  change (2 ^ 3) with 8. pose proof (Z.mod_pos_bound size 8 ltac:(lia)).
  pose proof (Z.div_mod size 8 ltac:(lia)).
  destruct (decide (size mod 8 = 0)) as [E|E].
  - rewrite E. simpl. replace (size + 7) with (7 + (size / 8) * 8) by lia.
    rewrite Z.div_add by lia. change (7 / 8) with 0. lia.
  - rewrite (proj2 (nz_true _)) by done.
    assert (size .& not64 7 = 8 * (size / 8)) as ->.
    { apply (land_not_ones size 3); [unfold fits; lia|lia]. }
    unfold u64. rewrite wrap_small by (unfold fits; lia).
    replace (size + 7) with ((size mod 8 - 1) + (size / 8 + 1) * 8) by lia.
    rewrite Z.div_add by lia. rewrite (Z.div_small (size mod 8 - 1)) by lia. lia.
Qed.

Lemma round8_spec size : 0 <= size -> size <= round8 size < size + 8 /\ round8 size mod 8 = 0.
Proof.
  intros. unfold round8. pose proof (Z.div_mod (size + 7) 8 ltac:(lia)).
  pose proof (Z.mod_pos_bound (size + 7) 8 ltac:(lia)).
  split; [lia|]. rewrite Z.mul_comm. by apply Z.mod_mul.
Qed.

(** Zeroing the block at [ret] in the scratch area of hart [i]. *)
Definition zero_range (lo size : Z) (s : st) : st :=
  set_queues (filter (fun p => in_range lo size p.1 = false))
    (set_mem (filter (fun p => in_range lo size p.1 = false)) s).
Definition zero_step (ret size : Z) (s : st) (i : Z) : st :=
  let p := default 0 (scratch_table s !! i) in
  if nz p then zero_range (p + ret) size s else s.

Lemma mem_val_zero_range lo size s a :
  mem_val (zero_range lo size s) a = if in_range lo size a then 0 else mem_val s a.
Proof.
  unfold mem_val, zero_range. simpl. rewrite map_lookup_filter.
  destruct (mem s !! a) as [v|]; simpl; [|by destruct (in_range lo size a)].
  destruct (in_range lo size a) eqn:E.
  - by rewrite option_guard_False by (simpl; congruence).
  - by rewrite option_guard_True by done.
Qed.

Lemma zero_block_eq ret size i s :
  i < SBI_HARTMASK_MAX_BITS -> zero_block ret size i s = Ret tt (zero_step ret size s i).
Proof.
  intros Hi. unfold zero_block, sbi_hartid_to_scratch. rewrite (proj2 (Z.ltb_lt _ _)) by done.
  unfold mbind, M_bind, gets, zero_step. by destruct (nz _).
Qed.

(** Zeroing touches memory only. *)
Definition zero_steps (ret size : Z) (s : st) (l : list Z) : st := foldl (zero_step ret size) s l.

Lemma zero_steps_frame ret size l : forall s,
  glob (zero_steps ret size s l) = glob s /\
  scratch_table (zero_steps ret size s l) = scratch_table s /\
  csrs (zero_steps ret size s l) = csrs s /\ cur (zero_steps ret size s l) = cur s.
Proof.
  induction l as [|i l IH]; intros s; simpl; [done|].
  destruct (IH (zero_step ret size s i)) as (-> & -> & -> & ->). unfold zero_step. by destruct (nz _).
Qed.

(** Hart [i] has a scratch area whose block covers [a]. *)
Definition covers (s : st) (ret size a i : Z) : Prop :=
  exists p, scratch_table s !! i = Some p /\ p <> 0 /\ p + ret <= a < p + ret + size.

Lemma in_range_true lo size a : in_range lo size a = true <-> lo <= a < lo + size.
Proof. unfold in_range. rewrite andb_true_iff, Z.leb_le, Z.ltb_lt. lia. Qed.

Lemma zero_step_mem ret size s i a :
  (covers s ret size a i -> mem_val (zero_step ret size s i) a = 0) /\
  (~ covers s ret size a i -> mem_val (zero_step ret size s i) a = mem_val s a) /\
  (mem_val s a = 0 -> mem_val (zero_step ret size s i) a = 0).
Proof.
  unfold zero_step, covers. destruct (scratch_table s !! i) as [p|] eqn:E; simpl.
  2:{ split; [|done]. intros (p & Hp & _). done. }
  destruct (nz p) eqn:Hp.
  - apply nz_true in Hp. rewrite mem_val_zero_range.
    destruct (in_range (p + ret) size a) eqn:Hr.
    + apply in_range_true in Hr. split; [done|]. split; [|done]. intros Hc. exfalso. apply Hc. by exists p.
    + split; [|done]. intros (q & [= <-] & _ & Hq). apply in_range_true in Hq. congruence.
  - apply nz_false in Hp as ->. split; [|done]. by intros (q & [= <-] & Hq & _).
Qed.

Lemma zero_steps_keep_zero ret size a l : forall s,
  mem_val s a = 0 -> mem_val (zero_steps ret size s l) a = 0.
Proof.
  induction l as [|i l IH]; intros s E; simpl; [done|]. apply IH. by apply zero_step_mem.
Qed.

Lemma covers_zero_step ret size s i a j :
  covers (zero_step ret size s i) ret size a j <-> covers s ret size a j.
Proof. unfold covers, zero_step. by destruct (nz _). Qed.

Lemma zero_steps_mem ret size a l : forall s,
  ((exists i, i ∈ l /\ covers s ret size a i) -> mem_val (zero_steps ret size s l) a = 0) /\
  ((forall i, i ∈ l -> ~ covers s ret size a i) -> mem_val (zero_steps ret size s l) a = mem_val s a).
Proof.
  induction l as [|i l IH]; intros s; simpl; [split; [intros (i & Hi & _); set_solver|done]|].
  destruct (zero_step_mem ret size s i a) as (Hz & Hk & _).
  destruct (IH (zero_step ret size s i)) as [IHz IHk]. split.
  - intros (j & Hj & Hcov). apply elem_of_cons in Hj as [->|Hj].
    + apply zero_steps_keep_zero. by apply Hz.
    + apply IHz. exists j. split; [done|]. by apply covers_zero_step.
  - intros Hno. fold (zero_steps ret size (zero_step ret size s i) l). rewrite IHk.
    + apply Hk, Hno, list_elem_of_here.
    + intros j Hj. rewrite covers_zero_step. by apply Hno, list_elem_of_further.
Qed.

(** The state after a successful allocation: the bump pointer moved, then the
    block zeroed for the harts below the last one. *)
Definition bumped (s : st) (size : Z) : st :=
  set_glob <["extra_lock"%string := 0]>
    (set_glob <["extra_offset"%string := gval s "extra_offset" + round8 size]>
      (set_glob <["extra_lock"%string := 1]> s)).

Lemma sbi_scratch_alloc_eq s size owner :
  alloc_inv s -> 0 < size <= alloc_max ->
  sbi_scratch_alloc_offset size owner s =
  if SBI_SCRATCH_SIZE <? gval s "extra_offset" + round8 size
  then Ret 0 (set_glob <["extra_lock"%string := 0]> (set_glob <["extra_lock"%string := 1]> s))
  else Ret (gval s "extra_offset")
         (zero_steps (gval s "extra_offset") (round8 size) (bumped s size)
            (seqZ 0 (gval s "last_hartid_having_scratch"))).
Proof.
  intros [Hlk Hb Ha Hl] Hs. unfold sbi_scratch_alloc_offset.
  destruct (Z.eqb_spec size 0); [lia|]. rewrite round_size_round8 by lia.
  pose proof (round8_spec size ltac:(lia)) as [Hr _]. unfold alloc_max in Hs.
  mstep. mstep. gvals.
  assert (u64 (gval s "extra_offset" + round8 size) = gval s "extra_offset" + round8 size) as ->.
  { apply wrap_small. unfold fits, SBI_SCRATCH_EXTRA_SPACE_OFFSET, SBI_SCRATCH_SIZE in *. lia. }
  destruct (_ <? _); [by repeat mstep|].
  repeat mstep. rewrite (proj2 (nz_true _)) by (unfold SBI_SCRATCH_EXTRA_SPACE_OFFSET in *; lia).
  simpl when. mstep. unfold Locks.spin_unlock. fold (bumped s size).
  change (set_glob _ (set_glob _ _)) with (bumped s size).
  assert (gval (bumped s size) "last_hartid_having_scratch" = gval s "last_hartid_having_scratch") as ->.
  { unfold bumped. by gvals. }
  erewrite bind_ret_eq; [reflexivity|]. apply for_each_fold. intros i s' Hi. apply zero_block_eq.
  apply elem_of_seqZ in Hi. lia.
Qed.

Lemma alloc_inv_mem (s s' : st) : glob s' = glob s -> alloc_inv s -> alloc_inv s'.
Proof. intros E [? ? ? ?]. split; unfold gval in *; by rewrite E. Qed.

Lemma alloc_inv_bumped s size :
  alloc_inv s -> 0 <= size -> gval s "extra_offset" + round8 size <= SBI_SCRATCH_SIZE ->
  alloc_inv (bumped s size).
Proof.
  intros [H1 H2 H3 H4] Hs Hle. pose proof (round8_spec size Hs) as [Hr Hr8].
  unfold bumped. split; gvals; [done|lia| |done].
  rewrite Z.add_mod, H3, Hr8 by lia. done.
Qed.

(** The allocator's step: a block of the requested size, aligned and inside
    the scratch area, or nothing. *)
Lemma sbi_scratch_alloc_step s size owner :
  alloc_inv s -> 0 <= size <= alloc_max ->
  exists r s', sbi_scratch_alloc_offset size owner s = Ret r s' /\ alloc_inv s' /\
    scratch_table s' = scratch_table s /\
    ((r = 0 /\ gval s' "extra_offset" = gval s "extra_offset") \/
     (r = gval s "extra_offset" /\ gval s' "extra_offset" = r + round8 size /\ 0 < size)).
Proof.
  intros Hinv Hs. destruct (decide (size = 0)) as [->|Hnz].
  { exists 0, s. split; [done|]. auto. }
  rewrite sbi_scratch_alloc_eq by (done || lia).
  destruct (Z.ltb_spec SBI_SCRATCH_SIZE (gval s "extra_offset" + round8 size)).
  - do 2 eexists. split; [done|]. split; [|split; [done|left; split; [done|by gvals]]].
    destruct Hinv. by split; gvals.
  - do 2 eexists. split; [done|].
    destruct (zero_steps_frame (gval s "extra_offset") (round8 size)
      (seqZ 0 (gval s "last_hartid_having_scratch")) (bumped s size)) as (Hg & Ht & _).
    split; [eapply alloc_inv_mem; [exact Hg|]; apply alloc_inv_bumped; done || lia|].
    split; [by rewrite Ht|]. right. split; [done|]. split; [|lia].
    unfold gval at 1. rewrite Hg. fold (gval (bumped s size) "extra_offset"). unfold bumped. by gvals.
Qed.

(** A run of allocations: each request with the offset it got. *)
Fixpoint alloc_all (sizes : list Z) : M (list (Z * Z)) :=
  match sizes with
  | [] => mret []
  | n :: sizes =>
      r ← sbi_scratch_alloc_offset n "owner"; rest ← alloc_all sizes; mret ((r, n) :: rest)
  end.

(** A block inside the extra space, aligned, at or after [lo]. *)
Definition block_ok (lo : Z) (b : Z * Z) : Prop :=
  b.1 <> 0 -> Z.max lo SBI_SCRATCH_EXTRA_SPACE_OFFSET <= b.1 /\ b.1 mod 8 = 0 /\ b.1 + b.2 <= SBI_SCRATCH_SIZE.
Fixpoint blocks_ordered (l : list (Z * Z)) : Prop :=
  match l with
  | [] => True
  | b :: l => (b.1 <> 0 -> Forall (fun c => c.1 <> 0 -> b.1 + b.2 <= c.1) l) /\ blocks_ordered l
  end.

Lemma alloc_all_spec sizes : forall s,
  alloc_inv s -> Forall (fun n => 0 <= n <= alloc_max) sizes ->
  exists l s', alloc_all sizes s = Ret l s' /\ Forall (block_ok (gval s "extra_offset")) l /\
    blocks_ordered l /\ map snd l = sizes.
Proof.
  induction sizes as [|n sizes IH]; intros s Hinv Hall; [by exists [], s|].
  inversion_clear Hall as [|? ? Hn Hrest].
  destruct (sbi_scratch_alloc_step s n "owner" Hinv Hn) as (r & s1 & E & Hinv1 & _ & Hr).
  destruct (IH s1 Hinv1 Hrest) as (l & s2 & E2 & Hok & Hord & Hm).
  exists ((r, n) :: l), s2. simpl. rewrite (bind_ret_eq _ _ _ _ _ E), (bind_ret_eq _ _ _ _ _ E2).
  pose proof (round8_spec n) as Hn8. destruct Hinv as [_ Hb Ha _]. destruct Hinv1 as [_ Hb1 _ _].
  split; [done|]. split; [|split; [split; [|done]|simpl; by rewrite Hm]].
  - constructor.
    + unfold block_ok. simpl. intros Hnz. destruct Hr as [[-> _]|(-> & E' & Hpos)]; [done|].
      split; [lia|]. split; [done|]. lia.
    + eapply Forall_impl; [exact Hok|]. unfold block_ok. intros b Hb' Hnz.
      destruct (Hb' Hnz) as (? & ? & ?). split; [|done]. lia.
  - simpl. intros Hnz. eapply Forall_impl; [exact Hok|]. intros b Hb' Hbnz.
    destruct (Hb' Hbnz) as (? & _). lia.
Qed.

(** Areas of different harts do not overlap. *)
Definition areas_disjoint (s : st) : Prop :=
  forall i j p q, i <> j -> scratch_table s !! i = Some p -> scratch_table s !! j = Some q ->
  p + SBI_SCRATCH_SIZE <= q \/ q + SBI_SCRATCH_SIZE <= p.

(** * Building the table *)

Section Init.
Context `{Platform}.

Definition init_step (plat : option sbi_platform) (s : st) (i : Z) : st :=
  if sbi_platform_hart_invalid plat i then s
  else
    let sp := _hartid_to_scratch i (sbi_platform_hart_index plat i) in
    let s := set_scratch_table <[i := sp]> s in
    if nz sp then set_glob <["last_hartid_having_scratch"%string := i]> s else s.

Lemma scratch_init_body_eq plat i s : scratch_init_body plat i s = Ret tt (init_step plat s i).
Proof.
  unfold scratch_init_body, init_step. destruct (sbi_platform_hart_invalid plat i); [done|].
  mstep. by destruct (nz _).
Qed.

Lemma init_steps_table plat l : forall s h,
  scratch_table (foldl (init_step plat) s l) !! h =
  if bool_decide (h ∈ l) && negb (sbi_platform_hart_invalid plat h)
  then Some (_hartid_to_scratch h (sbi_platform_hart_index plat h)) else scratch_table s !! h.
Proof.
  induction l as [|i l IH]; intros s h; simpl; [done|]. rewrite IH.
  assert (scratch_table (init_step plat s i) = if sbi_platform_hart_invalid plat i then scratch_table s
    else <[i := _hartid_to_scratch i (sbi_platform_hart_index plat i)]> (scratch_table s)) as ->.
  { unfold init_step. destruct (sbi_platform_hart_invalid plat i); [done|]. by destruct (nz _). }
  destruct (decide (h = i)) as [->|Hne].
  - rewrite (bool_decide_true (i ∈ i :: l)) by apply list_elem_of_here.
    destruct (sbi_platform_hart_invalid plat i); simpl; [by rewrite andb_false_r|].
    destruct (bool_decide (i ∈ l)); simpl; [done|]. by rewrite lookup_insert_eq.
  - assert (bool_decide (h ∈ i :: l) = bool_decide (h ∈ l)) as ->.
    { apply bool_decide_ext. rewrite elem_of_cons. split; [intros [?|?]; done|by right]. }
    destruct (_ && _); [done|]. destruct (sbi_platform_hart_invalid plat i); [done|].
    by rewrite lookup_insert_ne.
Qed.

Lemma init_table_lookup s h p :
  scratch_table s = ∅ ->
  scratch_table (foldl (init_step (Some the_platform)) s (seqZ 0 SBI_HARTMASK_MAX_BITS)) !! h = Some p <->
  0 <= h < SBI_HARTMASK_MAX_BITS /\ sbi_platform_hart_invalid (Some the_platform) h = false /\
  p = _hartid_to_scratch h (sbi_platform_hart_index (Some the_platform) h).
Proof.
  intros He. rewrite init_steps_table, He, lookup_empty.
  destruct (bool_decide_reflect (h ∈ seqZ 0 SBI_HARTMASK_MAX_BITS)) as [E|E]; rewrite elem_of_seqZ in E;
    [|split; [done|intros; lia]].
  rewrite andb_true_l. destruct (sbi_platform_hart_invalid (Some the_platform) h);
    [split; [done|intros (_ & ? & _); done]|].
  change (negb false) with true. cbv iota. split; [intros [= <-]; split; [lia|done]|by intros (_ & _ & ->)].
Qed.

Lemma sbi_scratch_init_eq scratch s :
  sbi_scratch_init scratch s =
  Ret 0 (foldl (init_step (if mem_val s (scratch + SBI_SCRATCH_PLATFORM_ADDR_OFFSET) =? 0 then None
                           else Some the_platform)) s (seqZ 0 SBI_HARTMASK_MAX_BITS)).
Proof.
  unfold sbi_scratch_init, sbi_platform_ptr. repeat mstep.
  erewrite bind_ret_eq; [reflexivity|]. apply for_each_fold. intros. apply scratch_init_body_eq.
Qed.

(** The memory layout the firmware image is built for: stacks that hold a
    scratch area, below the end of the address space. *)
Definition layout_ok : Prop :=
  SBI_SCRATCH_SIZE <= hart_stack_size the_platform /\ 0 <= fw_end /\
  0 <= hart_count the_platform < 2 ^ 32 - 1 /\
  fw_end + hart_count the_platform * hart_stack_size the_platform < 2 ^ 64.

Lemma hartid_to_scratch_value h idx :
  layout_ok -> 0 <= idx < hart_count the_platform ->
  _hartid_to_scratch h idx =
  fw_end + (hart_count the_platform - idx) * hart_stack_size the_platform - SBI_SCRATCH_SIZE.
Proof.
  intros (Hs & He & Hc & Ht) Hi. apply wrap_small. unfold fits, SBI_SCRATCH_SIZE in *. nia.
Qed.
End Init.

(** * Contracts *)

(** After [sbi_scratch_init] every valid hart has its scratch area in the
    table, no other hart has one, and the 4 KiB areas of different harts do
    not overlap. *)
Theorem sbi_scratch_init_disjoint `{Platform} (scratch : Z) (s : st) :
  layout_ok -> mem_val s (scratch + SBI_SCRATCH_PLATFORM_ADDR_OFFSET) <> 0 -> scratch_table s = ∅ ->
  exists s', sbi_scratch_init scratch s = Ret 0 s' /\ areas_disjoint s' /\
    (forall h, 0 <= h < SBI_HARTMASK_MAX_BITS ->
       (is_Some (scratch_table s' !! h) <-> sbi_platform_hart_invalid (Some the_platform) h = false)).
Proof.
  intros Hlay Hp He. rewrite sbi_scratch_init_eq. rewrite (proj2 (Z.eqb_neq _ _)) by done.
  eexists. split; [done|].
  split.
  - intros i j p q Hij Hi Hj.
    apply init_table_lookup in Hi as (Ei & Vi & ->); [|done]. apply init_table_lookup in Hj as (Ej & Vj & ->); [|done].
    pose proof Hlay as (Hs & Hf & Hc & Hw).
    destruct (hart_index_valid the_platform i) as [Ri _]; [lia|lia|done|].
    destruct (hart_index_valid the_platform j) as [Rj _]; [lia|lia|done|].
    assert (sbi_platform_hart_index (Some the_platform) i <> sbi_platform_hart_index (Some the_platform) j).
    { intros E. apply Hij. by apply (hart_index_inj the_platform); try lia. }
    rewrite !hartid_to_scratch_value by done. nia.
  - intros h Hh. split.
    + intros [p Hl]. by apply init_table_lookup in Hl as (_ & ? & _).
    + intros Hv. eexists. by apply init_table_lookup.
Qed.

Lemma sbi_scratch_init_disjoint_witness :
  exists s', @sbi_scratch_init (Build_Platform (mkPlat 0 0 [] 0 2 8192 no_ops None) 0x80020000) 0x80001000
    (set_mem <[0x80001030 := 0x80000400]> boot_st) = Ret 0 s' /\ areas_disjoint s'.
Proof.
  destruct (@sbi_scratch_init_disjoint (Build_Platform (mkPlat 0 0 [] 0 2 8192 no_ops None) 0x80020000)
    0x80001000 (set_mem <[0x80001030 := 0x80000400]> boot_st)) as (s' & E & Hd & _).
  - unfold layout_ok; simpl; unfold SBI_SCRATCH_SIZE; lia.
  - vm_compute. discriminate.
  - reflexivity.
  - by exists s'.
Defined.

(** C32: a run of allocations of up to [2 ^ 64 - 4104] bytes each hands out
    no overlapping blocks: every block granted is pointer-aligned, lies with
    all of its bytes in the extra space of the 4 KiB scratch area, and ends
    before the blocks granted later.  Requests within a page of [2 ^ 64] are
    left out: they wrap around and are granted, see [scratch_alloc_wraps]. *)
Theorem scratch_allocs_disjoint (s : st) (sizes : list Z) :
  alloc_inv s -> Forall (fun n => 0 <= n <= alloc_max) sizes ->
  exists l s', alloc_all sizes s = Ret l s' /\ map snd l = sizes /\
    Forall (block_ok SBI_SCRATCH_EXTRA_SPACE_OFFSET) l /\ blocks_ordered l.
Proof.
  intros Hinv Hall. destruct (alloc_all_spec sizes s Hinv Hall) as (l & s' & E & Hok & Hord & Hm).
  exists l, s'. split; [done|]. split; [done|]. split; [|done].
  eapply Forall_impl; [exact Hok|]. intros b Hb Hnz. destruct (Hb Hnz) as (? & ?). split; [lia|done].
Qed.

Lemma scratch_allocs_disjoint_witness :
  exists l s', alloc_all [5; 4000; 16; 8] boot_st = Ret l s' /\ map fst l = [80; 88; 0; 4088].
Proof.
  destruct (scratch_allocs_disjoint boot_st [5; 4000; 16; 8]) as (l & s' & E & _).
  - split; vm_compute; done || split; discriminate.
  - repeat (apply Forall_cons_2; [vm_compute; split; discriminate|]). constructor.
  - exists l, s'. split; [exact E|]. vm_compute in E. by injection E as <- _.
Defined.

(** A request whose size makes the sum with the offset wrap around is granted,
    and the offset of the next block moves back into blocks granted before. *)
Lemma scratch_alloc_wraps (s : st) (size : Z) (owner : string) :
  alloc_inv s -> gval s "last_hartid_having_scratch" = 0 ->
  size mod 8 = 0 -> 2 ^ 64 <= gval s "extra_offset" + size -> size < 2 ^ 64 ->
  exists s', sbi_scratch_alloc_offset size owner s = Ret (gval s "extra_offset") s' /\
    gval s' "extra_offset" = gval s "extra_offset" + size - 2 ^ 64 /\
    gval s' "extra_offset" < gval s "extra_offset".
Proof.
  intros [Hlk Hb Ha _] Hl H8 Hw Hs. unfold SBI_SCRATCH_EXTRA_SPACE_OFFSET, SBI_SCRATCH_SIZE in Hb.
  unfold sbi_scratch_alloc_offset. rewrite (proj2 (Z.eqb_neq size 0)) by lia.
  assert (round_size size = size) as ->.
  { unfold round_size. change 7 with (Z.ones 3). rewrite Z.land_ones by lia. change (2 ^ 3) with 8. by rewrite H8. }
  mstep. mstep. gvals.
  assert (u64 (gval s "extra_offset" + size) = gval s "extra_offset" + size - 2 ^ 64) as ->.
  { unfold u64, wrap. symmetry. apply (Zmod_unique _ _ 1); lia. }
  rewrite (proj2 (Z.ltb_ge _ _)) by (unfold SBI_SCRATCH_SIZE; lia).
  repeat mstep. rewrite (proj2 (nz_true _)) by lia. simpl when. mstep. gvals. rewrite Hl. mstep.
  eexists. split; [done|]. gvals. lia.
Qed.

(** A fresh block reads as zero in the scratch area of every hart below
    the last one, and is left as it was in the area of the last hart itself:
    the zeroing loop stops one hart short. *)
Theorem sbi_scratch_alloc_zeroing (s : st) (size : Z) (owner : string) (i p a : Z) :
  alloc_inv s -> areas_disjoint s -> 0 < size -> gval s "extra_offset" + round8 size <= SBI_SCRATCH_SIZE ->
  0 <= i -> scratch_table s !! i = Some p -> p <> 0 ->
  p + gval s "extra_offset" <= a < p + gval s "extra_offset" + round8 size ->
  exists s', sbi_scratch_alloc_offset size owner s = Ret (gval s "extra_offset") s' /\
    mem_val s' a = if i <? gval s "last_hartid_having_scratch" then 0 else mem_val s a.
Proof.
  intros Hinv Hdis Hs Hfit Hi Hp Hnz Ha. pose proof (round8_spec size) as Hr8.
  pose proof (alloc_bounds s Hinv). unfold SBI_SCRATCH_EXTRA_SPACE_OFFSET, SBI_SCRATCH_SIZE in *.
  rewrite sbi_scratch_alloc_eq by (done || unfold alloc_max, SBI_SCRATCH_SIZE; lia).
  rewrite (proj2 (Z.ltb_ge _ _)) by done. eexists. split; [done|].
  set (l := seqZ 0 _).
  destruct (zero_steps_mem (gval s "extra_offset") (round8 size) a l (bumped s size)) as [Hz Hk].
  destruct (Z.ltb_spec i (gval s "last_hartid_having_scratch")) as [Hlt|Hge].
  - apply Hz. exists i. split; [apply elem_of_seqZ; lia|]. exists p. done.
  - rewrite Hk; [done|]. intros j Hj (q & Hq & Hqnz & Hrange). apply elem_of_seqZ in Hj.
    destruct (Hdis i j p q) as [Hd|Hd]; unfold SBI_SCRATCH_SIZE in *; done || lia.
Qed.

(** Two harts, the second with a stale cell. *)
Definition two_harts : st :=
  set_mem <[8192 + 80 := 7]> (set_glob <["last_hartid_having_scratch"%string := 1]>
    (set_scratch_table (fun _ => {[ 0 := 4096; 1 := 8192 ]}) boot_st)).

Lemma areas_disjoint_two_harts : areas_disjoint two_harts.
Proof.
  intros i j p q Hij Hi Hj. simpl in Hi, Hj. unfold SBI_SCRATCH_SIZE.
  apply lookup_insert_Some in Hi as [[<- <-]|[_ Hi]]; apply lookup_insert_Some in Hj as [[<- <-]|[_ Hj]];
    [done|apply lookup_singleton_Some in Hj as [<- <-]; lia|apply lookup_singleton_Some in Hi as [<- <-]; lia|].
  apply lookup_singleton_Some in Hi as [<- <-]. by apply lookup_singleton_Some in Hj as [<- <-].
Qed.

Lemma sbi_scratch_alloc_zeroing_witness :
  exists s', sbi_scratch_alloc_offset 8 "x" two_harts = Ret 80 s' /\ mem_val s' (8192 + 80) = 7.
Proof.
  destruct (sbi_scratch_alloc_zeroing two_harts 8 "x" 1 8192 (8192 + 80)) as (s' & E & Hm).
  - split; vm_compute; done || split; discriminate.
  - exact areas_disjoint_two_harts.
  - lia.
  - vm_compute. discriminate.
  - lia.
  - reflexivity.
  - lia.
  - vm_compute. split; [discriminate|reflexivity].
  - exists s'. split; [exact E|exact Hm].
Defined.
