(* ===== verification/Asm.v ===== *)
(** Architecture helpers, lib/sbi/riscv_asm.c: the ISA register [misa], access
    to the PMP registers by number, and the encoding and decoding of PMP
    entries.

    [pmp_allows] states how a hart applies its PMP entries to an access from a
    less privileged mode (the architecture's rule); the encoding is proved
    against it. *)

From Stdlib Require Import String.
From S2P Require Import Prelude Encoding Bitops Machine Format Platform.

Section Misa.
Context `{Hardware} `{Platform}.

(** The result is an [int]. *)
Definition misa_extension_imp (ext : Z) : M Z :=
  misa ← csr_read CSR_MISA;
  if nz misa then
    if (65 <=? ext) && (ext <=? 90) then mret (s32 (misa .& shl64 1 (ext - 65)))
    else if (97 <=? ext) && (ext <=? 122) then mret (s32 (misa .& shl64 1 (ext - 97)))
    else mret 0
  else plat ← sbi_platform_thishart_ptr; sbi_platform_misa_extension plat ext.

Definition misa_extension (c : Z) : M bool := r ← misa_extension_imp c; mret (nz r).

(** The sign bit of [misa], shifted, plus the sign bit of [misa << 1]. *)
Definition misa_xlen : M Z :=
  misa ← csr_read CSR_MISA;
  if misa =? 0 then plat ← sbi_platform_thishart_ptr; sbi_platform_misa_xlen plat
  else
    t0 ← csr_read CSR_MISA;
    let t1 := if s64 t0 <? 0 then 1 else 0 in
    let t1 := u64 (Z.shiftl t1 1) in
    let t0 := u64 (Z.shiftl t0 1) in
    let t0 := if s64 t0 <? 0 then 1 else 0 in
    let r := t0 + t1 in
    mret (if nz r then r else -1).

(** The extensions in order; the array's size counts its terminator. *)
Definition valid_isa_order : list Z := chars "iemafdqclbjtpvnsuhkorwxyzg" ++ [0].

Fixpoint misa_letters (order : list Z) (out : list Z) (pos out_sz : Z) : M (list Z * Z) :=
  match order with
  | [] => mret (out, pos)
  | c :: order =>
      if pos <? out_sz then
        r ← misa_extension_imp c;
        if nz r then misa_letters order (<[Z.to_nat pos := c]> out) (pos + 1) out_sz
        else misa_letters order out pos out_sz
      else mret (out, pos)
  end.

(** [out] is the memory at the buffer; the letters of the prefix go to its
    first cells. *)
Definition misa_prefix (out : list Z) (l : list Z) : list Z := l ++ drop (length l) out.
Definition misa_string (xlen : Z) (out : list Z) (out_sz : Z) : M (list Z) :=
  let finish := fun out pos =>
    '(out, pos) ← misa_letters valid_isa_order out pos out_sz;
    mret (if pos <? out_sz then <[Z.to_nat pos := 0]> out else out) in
  if 5 <=? out_sz then
    if xlen =? 1 then finish (misa_prefix out (chars "rv32")) 4
    else if xlen =? 2 then finish (misa_prefix out (chars "rv64")) 4
    else if xlen =? 3 then finish (misa_prefix out (chars "rv128")) 5
    else mret (misa_prefix out (chars "rv"))
  else finish out 0.
End Misa.

Section Pmp.
Context `{Hardware}.

(** The registers the two switches know: PMPCFG0-3 and PMPADDR0-15. *)
Definition pmp_csr (n : Z) : bool :=
  ((CSR_PMPCFG0 <=? n) && (n <=? CSR_PMPCFG3)) || ((CSR_PMPADDR0 <=? n) && (n <=? CSR_PMPADDR15)).
Definition csr_read_num (csr_num : Z) : M Z := if pmp_csr csr_num then csr_read csr_num else mret 0.
Definition csr_write_num (csr_num val : Z) : M unit :=
  if pmp_csr csr_num then csr_write csr_num val else mret tt.

(** [while (!(x & 1)) { ret++; x >>= 1; }]; a 64-bit [x] with a bit set stops
    within 64 turns, and zero never does ([None]). *)
Fixpoint ctz_loop (fuel : nat) (x ret : Z) : option Z :=
  match fuel with
  | O => None
  | S fuel => if nz (x .& 1) then Some ret else ctz_loop fuel (x >>u 1) (ret + 1)
  end.
Definition ctz (x : Z) : option Z := ctz_loop 64 x 0.

Definition pmpcfg_csr_of (n : Z) : Z := (CSR_PMPCFG0 + Z.shiftr n 2) .& Z.lnot 1.
Definition pmpcfg_shift_of (n : Z) : Z := Z.shiftl (n .& 7) 3.

(** The address register for a region. *)
Definition pmpaddr_encode (addr log2len : Z) : Z :=
  if log2len =? PMP_SHIFT then addr >>u PMP_SHIFT
  else if log2len =? 64 then ULONG_MAX
  else
    let addrmask := u64 (shl64 1 (log2len - PMP_SHIFT) - 1) in
    ((addr >>u PMP_SHIFT) .& not64 addrmask) .| (addrmask >>u 1).

(** The configuration register with the entry's byte replaced. *)
Definition pmpcfg_encode (old prot log2len shift : Z) : Z :=
  let prot := prot .| (if log2len =? PMP_SHIFT then PMP_A_NA4 else PMP_A_NAPOT) in
  let cfgmask := not64 (shl64 0xff shift) in
  (old .& cfgmask) .| ((shl64 prot shift) .& not64 cfgmask).

Definition pmp_set (n prot addr log2len : Z) : M Z :=
  if (PMP_COUNT <=? n) || (64 <? log2len) || (log2len <? PMP_SHIFT) then mret SBI_EINVAL
  else
    let pmpcfg_csr := pmpcfg_csr_of n in
    let pmpcfg_shift := pmpcfg_shift_of n in
    let pmpaddr_csr := CSR_PMPADDR0 + n in
    if (pmpcfg_csr <? 0) || (pmpcfg_shift <? 0) then mret SBI_ENOTSUPP
    else
      old ← csr_read_num pmpcfg_csr;
      let pmpcfg := pmpcfg_encode old prot log2len pmpcfg_shift in
      let pmpaddr := pmpaddr_encode addr log2len in
      csr_write_num pmpaddr_csr pmpaddr;;
      csr_write_num pmpcfg_csr pmpcfg;;
      mret 0.

(** Base and log2 of the size that an address register stands for; [None]: the
    count of trailing ones does not end. *)
Definition pmpaddr_decode (prot reg : Z) : option (Z * Z) :=
  if (prot .& PMP_A) =? PMP_A_NAPOT then
    if reg =? ULONG_MAX then Some (0, 64)
    else
      t1 ← ctz (not64 reg);
      Some ((reg .& not64 (u64 (shl64 1 t1 - 1))) <<u PMP_SHIFT, t1 + PMP_SHIFT + 1)
  else Some (reg <<u PMP_SHIFT, PMP_SHIFT).

(** The result code and the three values behind the pointers, [old] before
    the call. *)
Definition pmp_get (n : Z) (old : Z * Z * Z) : M (Z * (Z * Z * Z)) :=
  if PMP_COUNT <=? n then mret (SBI_EINVAL, old)
  else
    let pmpcfg_csr := pmpcfg_csr_of n in
    let pmpcfg_shift := pmpcfg_shift_of n in
    let pmpaddr_csr := CSR_PMPADDR0 + n in
    if (pmpcfg_csr <? 0) || (pmpcfg_shift <? 0) then mret (SBI_ENOTSUPP, (0, 0, 0))
    else
      cfg ← csr_read_num pmpcfg_csr;
      let prot := (cfg .& shl64 0xff pmpcfg_shift) >>u pmpcfg_shift in
      reg ← csr_read_num pmpaddr_csr;
      match pmpaddr_decode prot reg with
      | None => exits XSpin
      | Some (addr, log2len) =>
          mret (0, (prot, addr, if log2len <? 64 then shl64 1 log2len else 0))
      end.
End Pmp.

(** * The architecture's rule *)

(** Does an entry match the byte address [a]?  [prev] is the address register
    of the entry before. *)
Definition pmp_matches (cfg prev reg a : Z) : bool :=
  let mode := cfg .& PMP_A in
  if mode =? PMP_A_TOR then (prev <=? Z.shiftr a 2) && (Z.shiftr a 2 <? reg)
  else if mode =? PMP_A_NA4 then Z.shiftr a 2 =? reg
  else if mode =? PMP_A_NAPOT then
    let m := reg .^ (reg + 1) in (Z.shiftr a 2 .| m) =? (reg .| m)
  else false.

(** Entry [n] of a hart: its configuration byte and its address register. *)
Definition pmp_cfg (s : st) (hart n : Z) : Z :=
  Z.shiftr (csr_val s hart (pmpcfg_csr_of n)) (pmpcfg_shift_of n) .& 0xff.
Definition pmp_reg (s : st) (hart n : Z) : Z := csr_val s hart (CSR_PMPADDR0 + n).

(** The lowest-numbered matching entry decides an access from S or U mode;
    when none matches the access is refused. *)
Fixpoint pmp_lookup (s : st) (hart : Z) (l : list Z) (prev a : Z) : option Z :=
  match l with
  | [] => None
  | n :: l =>
      if pmp_matches (pmp_cfg s hart n) prev (pmp_reg s hart n) a then Some (pmp_cfg s hart n)
      else pmp_lookup s hart l (pmp_reg s hart n) a
  end.
Definition pmp_allows (s : st) (hart a perm : Z) : bool :=
  match pmp_lookup s hart (seqZ 0 PMP_COUNT) 0 a with
  | Some cfg => nz (cfg .& perm)
  | None => false
  end.

(** * Encoding of regions *)

Lemma lor_ones_eqb x y n :
  0 <= n -> (x .| Z.ones n =? y .| Z.ones n) = (x / 2 ^ n =? y / 2 ^ n).
Proof.
  intros Hn. apply eq_iff_eq_true. rewrite !Z.eqb_eq, <- !Z.shiftr_div_pow2 by done. split; intros E.
  - apply Z.bits_inj'. intros i Hi. rewrite !Z.shiftr_spec by done.
    apply (f_equal (fun z => Z.testbit z (i + n))) in E. rewrite !Z.lor_spec, Z.ones_spec_high, !orb_false_r in E
      by lia. done.
  - apply Z.bits_inj'. intros i Hi. rewrite !Z.lor_spec. destruct (decide (i < n)).
    + by rewrite Z.ones_spec_low, !orb_true_r by lia.
    + apply (f_equal (fun z => Z.testbit z (i - n))) in E. rewrite !Z.shiftr_spec in E by lia.
      replace (i - n + n) with i in E by lia. by rewrite E.
Qed.

Lemma shl64_1 n : 0 <= n < 64 -> shl64 1 n = 2 ^ n.
Proof.
  intros. unfold shl64, u64. rewrite Z.shiftl_1_l. apply wrap_small. split; [apply Z.pow_nonneg; lia|].
  apply Z.pow_lt_mono_r; lia.
Qed.

Lemma u64_pow2_pred n : 0 <= n < 64 -> u64 (2 ^ n - 1) = Z.ones n.
Proof.
  intros. rewrite Z.ones_equiv, <- Z.sub_1_r. apply wrap_small.
  pose proof (Z.pow_pos_nonneg 2 n). pose proof (Z.pow_lt_mono_r 2 n 64). unfold fits. lia.
Qed.

Lemma shiftr_ones n k : 0 <= k <= n -> Z.shiftr (Z.ones n) k = Z.ones (n - k).
Proof.
  intros. apply Z.bits_inj'. intros i Hi. rewrite Z.shiftr_spec, !Z.testbit_ones by lia.
  bool_cases; done.
Qed.

(** The register of a naturally aligned region of [2^(k+3)] bytes: [k] ones
    below a zero below the address. *)
Definition napot_reg (q k : Z) : Z := 2 ^ (k + 1) * q + (2 ^ k - 1).

Lemma pmpaddr_encode_napot addr log2len :
  3 <= log2len < 64 -> fits 64 addr ->
  pmpaddr_encode addr log2len = napot_reg (addr / 2 ^ log2len) (log2len - 3).
Proof.
  intros Hl Ha. unfold pmpaddr_encode, PMP_SHIFT.
  rewrite (proj2 (Z.eqb_neq log2len 2)), (proj2 (Z.eqb_neq log2len 64)) by lia.
  rewrite shl64_1, u64_pow2_pred by lia.
  assert (fits 64 (addr >>u 2)) by (unfold shr64; auto with fits).
  rewrite land_not_ones by (done || lia). unfold shr64. rewrite shiftr_ones by lia.
  rewrite !Z.shiftr_div_pow2, Z.div_div by lia. rewrite <- Z.pow_add_r by lia.
  replace (2 + (log2len - 2)) with log2len by lia. replace (log2len - 2 - 1) with (log2len - 3) by lia.
  unfold napot_reg. replace (log2len - 3 + 1) with (log2len - 2) by lia.
  rewrite Z.ones_equiv, <- Z.sub_1_r. apply lor_high_low; [lia|]. apply fits_pow2_pred. lia.
Qed.

Lemma napot_mask q k : 0 <= k -> napot_reg q k .^ (napot_reg q k + 1) = Z.ones (k + 1).
Proof.
  intros Hk. unfold napot_reg.
  replace (2 ^ (k + 1) * q + (2 ^ k - 1) + 1) with (2 ^ (k + 1) * q + 2 ^ k) by lia.
  assert (2 ^ (k + 1) = 2 * 2 ^ k) by (rewrite Z.pow_add_r by lia; lia).
  pose proof (Z.pow_pos_nonneg 2 k).
  apply Z.bits_inj'. intros i Hi. rewrite Z.lxor_spec, !testbit_high_low, Z.testbit_ones
    by (unfold fits; lia).
  rewrite (proj2 (Z.leb_le 0 i)) by done. destruct (Z.ltb_spec i (k + 1)); [|by rewrite xorb_nilpotent].
  rewrite Z.sub_1_r, <- Z.ones_equiv, Z.testbit_ones, Z.pow2_bits_eqb by lia. bool_cases; done.
Qed.

Lemma napot_div q k : 0 <= k -> napot_reg q k / 2 ^ (k + 1) = q.
Proof.
  intros Hk. unfold napot_reg. pose proof (Z.pow_pos_nonneg 2 k).
  assert (2 ^ (k + 1) = 2 * 2 ^ k) by (rewrite Z.pow_add_r by lia; lia).
  rewrite Z.mul_comm, Z.add_comm, Z.div_add by lia. rewrite Z.div_small by lia. lia.
Qed.

(** The mode the encoder chooses. *)
Definition pmp_mode (log2len : Z) : Z := if log2len =? PMP_SHIFT then PMP_A_NA4 else PMP_A_NAPOT.

(** The encoded entry matches exactly the addresses of the aligned region of
    [2^log2len] bytes that holds [addr]. *)
Lemma pmp_matches_encode cfg prev addr log2len a :
  cfg .& PMP_A = pmp_mode log2len -> 2 <= log2len <= 64 -> fits 64 addr -> fits 64 a ->
  pmp_matches cfg prev (pmpaddr_encode addr log2len) a = (a / 2 ^ log2len =? addr / 2 ^ log2len).
Proof.
  intros Hcfg Hl Haddr Ha. unfold pmp_matches. rewrite Hcfg. unfold pmp_mode, PMP_SHIFT.
  destruct (Z.eqb_spec log2len 2) as [->|H2].
  { change (pmpaddr_encode addr 2) with (Z.shiftr addr 2). by rewrite !Z.shiftr_div_pow2 by lia. }
  change (PMP_A_NAPOT =? PMP_A_TOR) with false. change (PMP_A_NAPOT =? PMP_A_NA4) with false.
  change (PMP_A_NAPOT =? PMP_A_NAPOT) with true. cbv iota zeta.
  destruct (decide (log2len = 64)) as [->|H64].
  { unfold fits in *. rewrite !(Z.div_small _ (2 ^ 64)) by done.
    change (pmpaddr_encode addr 64) with (Z.ones 64). change (Z.ones 64 .^ (Z.ones 64 + 1)) with (Z.ones 65).
    rewrite lor_ones_eqb by lia. rewrite Z.shiftr_div_pow2 by lia.
    rewrite !Z.div_small; [done|change (Z.ones 64) with (2 ^ 64 - 1); lia|].
    split; [apply Z.div_pos; lia|]. apply Z.div_lt_upper_bound; lia. }
  rewrite pmpaddr_encode_napot by (done || lia). rewrite napot_mask, lor_ones_eqb, napot_div by lia.
  rewrite Z.shiftr_div_pow2, Z.div_div, <- Z.pow_add_r by lia. do 3 f_equal. lia.
Qed.

(** * Setting an entry *)

(** PMP hardware of a 64-bit hart: an address register keeps bits 55:2 of an
    address, a configuration register what is written. *)
Definition pmp_hw `{Hardware} (hart : Z) : Prop :=
  (forall n v, 0 <= n < PMP_COUNT -> csr_warl hart (CSR_PMPADDR0 + n) v = v mod 2 ^ 54) /\
  csr_warl hart CSR_PMPCFG0 = id /\ csr_warl hart CSR_PMPCFG2 = id.

Lemma forallb_seqZ (P : Z -> bool) m n : forallb P (seqZ 0 m) = true -> 0 <= n < m -> P n = true.
Proof.
  intros H Hn. rewrite forallb_forall in H. apply H. apply list_elem_of_In, elem_of_seqZ. lia.
Qed.

Lemma pmpcfg_csr_of_cases n :
  0 <= n < PMP_COUNT -> pmpcfg_csr_of n = if n <? 8 then CSR_PMPCFG0 else CSR_PMPCFG2.
Proof.
  intros Hn. apply Z.eqb_eq.
  by apply (forallb_seqZ (fun n => pmpcfg_csr_of n =? if n <? 8 then CSR_PMPCFG0 else CSR_PMPCFG2) PMP_COUNT).
Qed.

Lemma pmpcfg_shift_of_mod n : 0 <= n < PMP_COUNT -> pmpcfg_shift_of n = 8 * (n mod 8).
Proof.
  intros Hn. apply Z.eqb_eq. by apply (forallb_seqZ (fun n => pmpcfg_shift_of n =? 8 * (n mod 8)) PMP_COUNT).
Qed.

Lemma testbit_255 i : Z.testbit 255 i = (0 <=? i) && (i <? 8).
Proof. change 255 with (Z.ones 8). by rewrite Z.testbit_ones by lia. Qed.

(** The byte at one shift after the byte at another is replaced. *)
Lemma pmpcfg_encode_byte old prot log2len sh sh' :
  0 <= sh <= 56 -> 0 <= sh' <= 56 -> sh mod 8 = 0 -> sh' mod 8 = 0 -> fits 8 prot -> fits 64 old ->
  Z.shiftr (pmpcfg_encode old prot log2len sh) sh' .& 0xff =
  if sh =? sh' then prot .| pmp_mode log2len else Z.shiftr old sh' .& 0xff.
Proof.
  intros Hs Hs' Hm Hm' Hp Ho. unfold pmpcfg_encode. fold (pmp_mode log2len).
  assert (Hmode : fits 8 (prot .| pmp_mode log2len)).
  { apply fits_lor; [done| |lia]. unfold pmp_mode. by destruct (_ =? _). }
  apply Z.bits_inj'. intros i Hi. unfold not64, shl64. autorewrite with bits.
  rewrite !testbit_255.
  destruct (Z.ltb_spec i 8) as [H8|H8].
  2:{ rewrite !andb_false_r. destruct (Z.eqb_spec sh sh').
      - by rewrite (testbit_fits 8) by (done || lia).
      - rewrite Z.land_spec, testbit_255, (proj2 (Z.ltb_ge i 8)) by lia. by rewrite !andb_false_r. }
  rewrite (proj2 (Z.leb_le 0 i)), (proj2 (Z.ltb_lt (i + sh') 64)), (proj2 (Z.leb_le 0 (i + sh'))) by lia.
  rewrite !andb_true_l, !andb_true_r.
  destruct (Z.eqb_spec sh sh') as [->|Hne].
  - replace (i + sh' - sh') with i by lia.
    rewrite (proj2 (Z.leb_le 0 i)), (proj2 (Z.ltb_lt i 8)), Z.lor_spec by lia. simpl.
    by rewrite andb_false_r, andb_true_r.
  - assert ((0 <=? i + sh' - sh) && (i + sh' - sh <? 8) = false) as ->.
    { pose proof (Z.div_mod sh 8). pose proof (Z.div_mod sh' 8). bool_cases; done || lia. }
    rewrite Z.land_spec, Z.shiftr_spec, testbit_255, (proj2 (Z.leb_le 0 i)), (proj2 (Z.ltb_lt i 8)) by lia.
    simpl. by rewrite andb_false_r, orb_false_r, !andb_true_r.
Qed.

Section SetEntry.
Context `{Hardware}.

Lemma csr_val_put s csr v csr' :
  csr_val (put_csr csr v s) (cur s) csr' =
  if csr' =? csr then csr_warl (cur s) csr (u64 v) else csr_val s (cur s) csr'.
Proof.
  unfold csr_val, put_csr. simpl. destruct (Z.eqb_spec csr' csr) as [->|].
  - by rewrite lookup_insert_eq.
  - by rewrite lookup_insert_ne by congruence.
Qed.

(** The state after [pmp_set]. *)
Definition pmp_set_st (n prot addr log2len : Z) (s : st) : st :=
  put_csr (pmpcfg_csr_of n)
    (pmpcfg_encode (csr_val s (cur s) (pmpcfg_csr_of n)) prot log2len (pmpcfg_shift_of n))
    (put_csr (CSR_PMPADDR0 + n) (pmpaddr_encode addr log2len) s).

Lemma pmp_csr_cfg n : 0 <= n < PMP_COUNT -> pmp_csr (pmpcfg_csr_of n) = true.
Proof. intros. rewrite pmpcfg_csr_of_cases by done. by destruct (n <? 8). Qed.
Lemma pmp_csr_addr n : 0 <= n < PMP_COUNT -> pmp_csr (CSR_PMPADDR0 + n) = true.
Proof.
  intros. unfold pmp_csr, CSR_PMPCFG0, CSR_PMPCFG3, CSR_PMPADDR0, CSR_PMPADDR15, PMP_COUNT in *.
  bool_cases; done.
Qed.

Lemma pmp_set_eq n prot addr log2len s :
  0 <= n < PMP_COUNT -> 2 <= log2len <= 64 ->
  pmp_set n prot addr log2len s = Ret 0 (pmp_set_st n prot addr log2len s).
Proof.
  intros Hn Hl. unfold pmp_set, PMP_SHIFT, csr_read_num, csr_write_num.
  rewrite (proj2 (Z.leb_gt PMP_COUNT n)), (proj2 (Z.ltb_ge 64 log2len)), (proj2 (Z.ltb_ge log2len 2)) by lia.
  rewrite (pmpcfg_shift_of_mod n), pmp_csr_cfg, pmp_csr_addr by done.
  assert ((pmpcfg_csr_of n <? 0) = false) as ->
    by (rewrite pmpcfg_csr_of_cases by done; by destruct (n <? 8)).
  rewrite (proj2 (Z.ltb_ge (8 * (n mod 8)) 0)) by (pose proof (Z.mod_pos_bound n 8); lia).
  simpl. repeat mstep. unfold pmp_set_st. by rewrite (pmpcfg_shift_of_mod n).
Qed.

(** The cfg registers hold 64-bit values. *)
Definition pmp_regs_ok (s : st) (hart : Z) : Prop :=
  fits 64 (csr_val s hart CSR_PMPCFG0) /\ fits 64 (csr_val s hart CSR_PMPCFG2).

Lemma fits_pmpcfg_encode old prot log2len sh :
  fits 64 old -> fits 64 (pmpcfg_encode old prot log2len sh).
Proof. intros. unfold pmpcfg_encode, not64, shl64. auto 10 with fits. Qed.
End SetEntry.

Lemma pow2_split a b : 0 <= a -> 0 <= b -> 2 ^ (a + b) = 2 ^ a * 2 ^ b.
Proof. intros. by apply Z.pow_add_r. Qed.

(** What the hardware keeps of an encoded address still stands for the same
    region of a 56-bit physical address space. *)
Lemma pmpaddr_stored_small addr log2len :
  2 <= log2len <= 56 -> fits 56 addr ->
  pmpaddr_encode addr log2len mod 2 ^ 54 = pmpaddr_encode addr log2len.
Proof.
  intros Hl Ha. assert (fits 64 addr) by (unfold fits in *; lia). apply Z.mod_small.
  destruct (decide (log2len = 2)) as [->|].
  { change (pmpaddr_encode addr 2) with (Z.shiftr addr 2). rewrite Z.shiftr_div_pow2 by lia.
    unfold fits in Ha. split; [apply Z.div_pos; lia|]. apply Z.div_lt_upper_bound; lia. }
  rewrite pmpaddr_encode_napot by (done || lia). unfold napot_reg, fits in *.
  assert (Hq : 0 <= addr / 2 ^ log2len < 2 ^ (56 - log2len)).
  { split; [apply Z.div_pos; lia|]. apply Z.div_lt_upper_bound; [lia|]. rewrite <- pow2_split by lia.
    replace (log2len + (56 - log2len)) with 56 by lia. lia. }
  assert (E1 : 2 ^ (log2len - 3 + 1) = 2 * 2 ^ (log2len - 3)) by (rewrite Z.pow_add_r by lia; lia).
  assert (E2 : 2 ^ 54 = 2 ^ (log2len - 3 + 1) * 2 ^ (56 - log2len)).
  { rewrite <- pow2_split by lia. f_equal. lia. }
  pose proof (Z.pow_pos_nonneg 2 (log2len - 3)). nia.
Qed.

Lemma pmpaddr_stored_big addr log2len :
  56 < log2len <= 64 -> fits 56 addr -> pmpaddr_encode addr log2len mod 2 ^ 54 = Z.ones 54.
Proof.
  intros Hl Ha. assert (fits 64 addr) by (unfold fits in *; lia).
  destruct (decide (log2len = 64)) as [->|]; [done|].
  rewrite pmpaddr_encode_napot by (done || lia). unfold fits in *.
  rewrite Z.div_small by (pose proof (Z.pow_le_mono_r 2 56 log2len); lia).
  unfold napot_reg. rewrite Z.mul_0_r, Z.add_0_l, Z.sub_1_r, <- Z.ones_equiv, <- Z.land_ones by lia.
  apply Z.bits_inj'. intros i Hi. rewrite Z.land_spec, !Z.testbit_ones by lia. bool_cases; done.
Qed.

Lemma pmp_matches_stored cfg prev addr log2len a :
  cfg .& PMP_A = pmp_mode log2len -> 2 <= log2len <= 64 -> fits 56 addr -> fits 56 a ->
  pmp_matches cfg prev (pmpaddr_encode addr log2len mod 2 ^ 54) a = (a / 2 ^ log2len =? addr / 2 ^ log2len).
Proof.
  intros Hcfg Hl Haddr Ha. destruct (decide (log2len <= 56)).
  - rewrite pmpaddr_stored_small by (done || lia).
    apply pmp_matches_encode; [done|lia|unfold fits in *; lia..].
  - rewrite pmpaddr_stored_big by (done || lia). unfold fits in *.
    pose proof (Z.pow_le_mono_r 2 56 log2len ltac:(lia) ltac:(lia)).
    rewrite !(Z.div_small _ (2 ^ log2len)) by lia.
    unfold pmp_matches. rewrite Hcfg. unfold pmp_mode, PMP_SHIFT.
    rewrite (proj2 (Z.eqb_neq log2len 2)) by lia.
    change (PMP_A_NAPOT =? PMP_A_TOR) with false. change (PMP_A_NAPOT =? PMP_A_NA4) with false.
    change (PMP_A_NAPOT =? PMP_A_NAPOT) with true. cbv iota zeta.
    change (Z.ones 54 .^ (Z.ones 54 + 1)) with (Z.ones 55). rewrite lor_ones_eqb by lia.
    rewrite Z.shiftr_div_pow2 by lia. rewrite !(Z.div_small _ (2 ^ 55)); [done|by vm_compute|].
    split; [apply Z.div_pos; lia|]. apply Z.div_lt_upper_bound; lia.
Qed.

Section Entries.
Context `{Hardware}.

Lemma pmp_addr_not_cfg n m :
  0 <= n < PMP_COUNT -> 0 <= m < PMP_COUNT -> (CSR_PMPADDR0 + n =? pmpcfg_csr_of m) = false.
Proof.
  intros. rewrite pmpcfg_csr_of_cases by done. apply Z.eqb_neq.
  unfold CSR_PMPADDR0, CSR_PMPCFG0, CSR_PMPCFG2. destruct (m <? 8); lia.
Qed.

(** Every entry after setting entry [n]. *)
Lemma pmp_set_entries n m prot addr log2len s :
  pmp_hw (cur s) -> pmp_regs_ok s (cur s) -> 0 <= n < PMP_COUNT -> 0 <= m < PMP_COUNT -> fits 8 prot ->
  pmp_cfg (pmp_set_st n prot addr log2len s) (cur s) m =
    (if n =? m then prot .| pmp_mode log2len else pmp_cfg s (cur s) m) /\
  pmp_reg (pmp_set_st n prot addr log2len s) (cur s) m =
    (if n =? m then u64 (pmpaddr_encode addr log2len) mod 2 ^ 54 else pmp_reg s (cur s) m).
Proof.
  intros (Hwa & Hw0 & Hw2) [Hok0 Hok2] Hn Hm Hp.
  assert (Hwc : csr_warl (cur s) (pmpcfg_csr_of n) = id).
  { rewrite pmpcfg_csr_of_cases by done. by destruct (n <? 8). }
  assert (Hok : fits 64 (csr_val s (cur s) (pmpcfg_csr_of n))).
  { rewrite pmpcfg_csr_of_cases by done. by destruct (n <? 8). }
  unfold pmp_cfg, pmp_reg, pmp_set_st.
  set (s1 := put_csr (CSR_PMPADDR0 + n) _ s). change (cur s) with (cur s1). rewrite !csr_val_put. unfold s1.
  change (cur (put_csr _ _ s)) with (cur s). rewrite !csr_val_put. split.
  - rewrite (Z.eqb_sym _ (CSR_PMPADDR0 + n)), pmp_addr_not_cfg by done.
    rewrite Hwc. unfold id, u64. rewrite wrap_small by (by apply fits_pmpcfg_encode).
    destruct (Z.eqb_spec (pmpcfg_csr_of m) (pmpcfg_csr_of n)) as [E|E].
    + rewrite !pmpcfg_shift_of_mod by done. rewrite pmpcfg_encode_byte; [| | | | |done|done].
      * rewrite E. assert ((8 * (n mod 8) =? 8 * (m mod 8)) = (n =? m)) as ->; [|done].
        rewrite !pmpcfg_csr_of_cases in E by done. apply eq_iff_eq_true. rewrite !Z.eqb_eq.
        pose proof (Z.div_mod n 8). pose proof (Z.div_mod m 8).
        pose proof (Z.mod_pos_bound n 8). pose proof (Z.mod_pos_bound m 8).
        unfold PMP_COUNT, CSR_PMPCFG0, CSR_PMPCFG2 in *.
        destruct (Z.ltb_spec n 8), (Z.ltb_spec m 8); lia || done.
      * pose proof (Z.mod_pos_bound n 8). lia.
      * pose proof (Z.mod_pos_bound m 8). lia.
      * rewrite Z.mul_comm. by apply Z.mod_mul.
      * rewrite Z.mul_comm. by apply Z.mod_mul.
    + destruct (Z.eqb_spec n m) as [->|]; done.
  - rewrite pmp_addr_not_cfg by done.
    replace (CSR_PMPADDR0 + m =? CSR_PMPADDR0 + n) with (n =? m)
      by (apply eq_iff_eq_true; rewrite !Z.eqb_eq; lia).
    destruct (n =? m); [|done]. by apply Hwa.
Qed.

Lemma pmp_set_regs_ok n prot addr log2len s :
  pmp_hw (cur s) -> pmp_regs_ok s (cur s) -> 0 <= n < PMP_COUNT ->
  pmp_regs_ok (pmp_set_st n prot addr log2len s) (cur s).
Proof.
  intros (_ & Hw0 & Hw2) [Hok0 Hok2] Hn. unfold pmp_regs_ok, pmp_set_st.
  set (s1 := put_csr (CSR_PMPADDR0 + n) _ s). change (cur s) with (cur s1). rewrite !csr_val_put. unfold s1.
  change (cur (put_csr _ _ s)) with (cur s). rewrite !csr_val_put, pmpcfg_csr_of_cases by done.
  unfold u64. rewrite !wrap_small by (apply fits_pmpcfg_encode; by destruct (n <? 8)).
  assert ((CSR_PMPCFG0 =? CSR_PMPADDR0 + n) = false) as ->
    by (apply Z.eqb_neq; unfold CSR_PMPCFG0, CSR_PMPADDR0; lia).
  assert ((CSR_PMPCFG2 =? CSR_PMPADDR0 + n) = false) as ->
    by (apply Z.eqb_neq; unfold CSR_PMPCFG2, CSR_PMPADDR0; lia).
  destruct (n <? 8); simpl; rewrite ?Hw0, ?Hw2; unfold id; split; done || (by apply fits_pmpcfg_encode).
Qed.
End Entries.

(** * Decoding *)

Lemma ctz_loop_spec k : forall fuel x ret,
  0 <= x -> Z.testbit x (Z.of_nat k) = true -> (forall i, 0 <= i < Z.of_nat k -> Z.testbit x i = false) ->
  (k < fuel)%nat -> ctz_loop fuel x ret = Some (ret + Z.of_nat k).
Proof.
  induction k as [|k IH]; intros fuel x ret Hx Hset Hlow Hf; (destruct fuel as [|fuel]; [lia|]); simpl.
  - change 1 with (Z.ones 1). rewrite Z.land_ones by lia. change (2 ^ 1) with 2.
    rewrite <- Z.bit0_mod. change (Z.of_nat 0) with 0 in Hset. rewrite Hset. simpl. f_equal. lia.
  - change 1 with (Z.ones 1) at 1. rewrite Z.land_ones by lia. change (2 ^ 1) with 2.
    rewrite <- Z.bit0_mod, Hlow by lia. simpl. unfold shr64. rewrite IH; [f_equal; lia| | | |lia].
    + by apply Z.shiftr_nonneg.
    + rewrite Z.shiftr_spec by lia. rewrite <- Hset. f_equal. lia.
    + intros i Hi. rewrite Z.shiftr_spec by lia. apply Hlow. lia.
Qed.

Lemma ctz_napot q k :
  0 <= k < 64 -> fits 64 (napot_reg q k) -> ctz (not64 (napot_reg q k)) = Some k.
Proof.
  intros Hk Hf. unfold ctz. rewrite (ctz_loop_spec (Z.to_nat k)); [f_equal; lia| | | |lia].
  - unfold not64. pose proof (fits_u64 (Z.lnot (napot_reg q k))). unfold fits in *. lia.
  - rewrite Z2Nat.id by lia. unfold not64. autorewrite with bits. unfold napot_reg.
    rewrite testbit_high_low by (lia || (apply fits_pow2_pred; lia)).
    rewrite Z.sub_1_r, <- Z.ones_equiv, Z.testbit_ones by lia. bool_cases; done.
  - intros i Hi. rewrite Z2Nat.id in Hi by lia. unfold not64. autorewrite with bits. unfold napot_reg.
    rewrite testbit_high_low by (lia || (apply fits_pow2_pred; lia)).
    rewrite Z.sub_1_r, <- Z.ones_equiv, Z.testbit_ones by lia. bool_cases; done.
Qed.

Lemma napot_div_pow q k : 0 <= k -> napot_reg q k / 2 ^ k = 2 * q.
Proof.
  intros Hk. unfold napot_reg. pose proof (Z.pow_pos_nonneg 2 k).
  replace (2 ^ (k + 1) * q + (2 ^ k - 1)) with ((2 ^ k - 1) + (2 * q) * 2 ^ k)
    by (rewrite Z.pow_add_r by lia; lia).
  rewrite Z.div_add, Z.div_small by lia. lia.
Qed.

(** Decoding an encoded region gives back its base and size. *)
Lemma pmpaddr_decode_encode prot addr log2len :
  prot .& PMP_A = pmp_mode log2len -> 2 <= log2len <= 56 -> fits 56 addr ->
  pmpaddr_decode prot (pmpaddr_encode addr log2len) = Some (2 ^ log2len * (addr / 2 ^ log2len), log2len).
Proof.
  intros Hp Hl Ha. assert (Ha64 : fits 64 addr) by (unfold fits in *; lia).
  assert (Hb : fits 64 (2 ^ log2len * (addr / 2 ^ log2len))).
  { unfold fits in *. pose proof (Z.pow_pos_nonneg 2 log2len). pose proof (Z.div_pos addr (2 ^ log2len)).
    pose proof (Z.mul_div_le addr (2 ^ log2len)). nia. }
  unfold pmpaddr_decode. rewrite Hp. unfold pmp_mode, PMP_SHIFT.
  destruct (Z.eqb_spec log2len 2) as [->|].
  { change (PMP_A_NA4 =? PMP_A_NAPOT) with false. change (pmpaddr_encode addr 2) with (Z.shiftr addr 2).
    do 2 f_equal. unfold shl64. rewrite Z.shiftl_mul_pow2, Z.shiftr_div_pow2 by lia.
    rewrite Z.mul_comm. by apply wrap_small. }
  change (PMP_A_NAPOT =? PMP_A_NAPOT) with true. cbv iota.
  pose proof (pmpaddr_stored_small addr log2len ltac:(lia) Ha) as Hs.
  assert (Hr : fits 54 (pmpaddr_encode addr log2len)) by (rewrite <- Hs; apply Z.mod_pos_bound; lia).
  rewrite (proj2 (Z.eqb_neq _ ULONG_MAX)) by (unfold fits, ULONG_MAX in *; lia).
  rewrite pmpaddr_encode_napot in * by (done || lia).
  assert (fits 64 (napot_reg (addr / 2 ^ log2len) (log2len - 3))) by (unfold fits in *; lia).
  rewrite ctz_napot by (done || lia). simpl. rewrite shl64_1, u64_pow2_pred, land_not_ones by (done || lia).
  rewrite napot_div_pow by lia. do 2 f_equal; [|lia].
  unfold shl64. rewrite Z.shiftl_mul_pow2 by lia.
  replace (2 ^ (log2len - 3) * (2 * (addr / 2 ^ log2len)) * 2 ^ 2) with (2 ^ log2len * (addr / 2 ^ log2len)).
  - by apply wrap_small.
  - replace (2 ^ log2len) with (2 ^ (log2len - 3) * 2 ^ 3) at 1; [lia|].
    rewrite <- pow2_split by lia. f_equal. lia.
Qed.

Lemma fits_pmpaddr_encode addr log2len : fits 64 addr -> fits 64 (pmpaddr_encode addr log2len).
Proof.
  intros. unfold pmpaddr_encode, shr64, PMP_SHIFT. destruct (log2len =? 2); [by apply fits_shiftr|].
  destruct (log2len =? 64); [done|]. apply fits_lor; auto with fits.
Qed.

Lemma mode_land_A prot log2len :
  prot .& PMP_A = 0 -> (prot .| pmp_mode log2len) .& PMP_A = pmp_mode log2len.
Proof.
  intros E. rewrite Z.land_lor_distr_l, E, Z.lor_0_l. unfold pmp_mode. by case_match.
Qed.

(** [pmp_get] decodes the entry's two fields. *)
Lemma pmp_get_eq `{Hardware} n old s :
  0 <= n < PMP_COUNT ->
  pmp_get n old s =
  match pmpaddr_decode (pmp_cfg s (cur s) n) (pmp_reg s (cur s) n) with
  | None => Exit XSpin s
  | Some (addr, log2len) =>
      Ret (0, (pmp_cfg s (cur s) n, addr, if log2len <? 64 then shl64 1 log2len else 0)) s
  end.
Proof.
  intros Hn. unfold pmp_get. rewrite (proj2 (Z.leb_gt PMP_COUNT n)) by lia.
  assert ((pmpcfg_csr_of n <? 0) = false) as ->
    by (rewrite pmpcfg_csr_of_cases by done; by destruct (n <? 8)).
  assert (Hs : 0 <= pmpcfg_shift_of n <= 56)
    by (rewrite pmpcfg_shift_of_mod by done; pose proof (Z.mod_pos_bound n 8); lia).
  rewrite (proj2 (Z.ltb_ge (pmpcfg_shift_of n) 0)) by lia. change (false || false) with false. cbv iota.
  unfold csr_read_num. rewrite pmp_csr_cfg, pmp_csr_addr by done. repeat mstep.
  fold (pmp_reg s (cur s) n).
  assert ((csr_val s (cur s) (pmpcfg_csr_of n) .& shl64 255 (pmpcfg_shift_of n)) >>u pmpcfg_shift_of n
          = pmp_cfg s (cur s) n) as ->.
  { unfold pmp_cfg. bit_ext i. rewrite !testbit_255.
    replace (i + pmpcfg_shift_of n - pmpcfg_shift_of n) with i by lia.
    bool_cases; rewrite ?andb_false_r, ?andb_true_r; done. }
  by destruct (pmpaddr_decode _ _) as [[addr l]|].
Qed.

(** * Contracts *)

(** Setting PMP entry [n] succeeds; the entry then carries the given
    permissions and matches exactly the naturally aligned region of
    [2^log2len] bytes that contains [addr]; every other entry is unchanged. *)
Theorem pmp_set_region `{Hardware} (s : st) (n prot addr log2len : Z) :
  pmp_hw (cur s) -> pmp_regs_ok s (cur s) -> 0 <= n < PMP_COUNT -> PMP_SHIFT <= log2len <= 64 ->
  fits 8 prot -> prot .& PMP_A = 0 -> fits 56 addr ->
  exists s', pmp_set n prot addr log2len s = Ret 0 s' /\
    pmp_cfg s' (cur s) n = prot .| pmp_mode log2len /\
    (forall prev a, fits 56 a ->
       pmp_matches (pmp_cfg s' (cur s) n) prev (pmp_reg s' (cur s) n) a =
       (a / 2 ^ log2len =? addr / 2 ^ log2len)) /\
    (forall m, 0 <= m < PMP_COUNT -> m <> n ->
       pmp_cfg s' (cur s) m = pmp_cfg s (cur s) m /\ pmp_reg s' (cur s) m = pmp_reg s (cur s) m).
Proof.
  intros Hhw Hok Hn Hl Hp HA Ha. exists (pmp_set_st n prot addr log2len s).
  split; [by apply pmp_set_eq|].
  destruct (pmp_set_entries n n prot addr log2len s) as [Ec Er]; [done..|]. rewrite Z.eqb_refl in Ec, Er.
  split; [done|]. split.
  - intros prev a Hfa. rewrite Ec, Er. unfold u64.
    rewrite wrap_small by (apply fits_pmpaddr_encode; unfold fits in *; lia).
    apply pmp_matches_stored; try done. by apply mode_land_A.
  - intros m Hm Hne. destruct (pmp_set_entries n m prot addr log2len s) as [-> ->]; [done..|].
    by rewrite (proj2 (Z.eqb_neq n m)) by done.
Qed.

(** Hardware whose PMP address registers keep 54 bits. *)
Definition pmp_plain_hw : Hardware :=
  {| csr_exists := fun _ _ => true;
     csr_warl := fun _ csr v => if (CSR_PMPADDR0 <=? csr) && (csr <=? CSR_PMPADDR15) then v mod 2 ^ 54 else v;
     csr_pc := fun _ => 0; dev_read := fun _ _ _ => 0; interfere := fun _ s => s; polls := 8 |}.

Lemma pmp_plain_hw_ok hart : @pmp_hw pmp_plain_hw hart.
Proof.
  split; [|by split]. intros n v Hn. simpl. unfold CSR_PMPADDR0, CSR_PMPADDR15, PMP_COUNT in *.
  bool_cases; done.
Qed.

Lemma pmp_set_region_witness :
  exists s', @pmp_set pmp_plain_hw 9 0 0x80000000 17 st0 = Ret 0 s' /\
    forall prev a, fits 56 a ->
      pmp_matches (pmp_cfg s' 0 9) prev (pmp_reg s' 0 9) a = (a / 2 ^ 17 =? 0x80000000 / 2 ^ 17).
Proof.
  destruct (@pmp_set_region pmp_plain_hw st0 9 0 0x80000000 17) as (s' & E & _ & Hm & _).
  - apply pmp_plain_hw_ok.
  - split; vm_compute; split; discriminate || reflexivity.
  - unfold PMP_COUNT; lia.
  - unfold PMP_SHIFT; lia.
  - split; lia.
  - reflexivity.
  - split; lia.
  - exists s'. split; [exact E|exact Hm].
Defined.

(** Reading an entry back after setting it returns the permissions, the
    aligned base and the size of the region that was asked for. *)
Theorem pmp_get_set `{Hardware} (s : st) (n prot addr log2len : Z) (old : Z * Z * Z) :
  pmp_hw (cur s) -> pmp_regs_ok s (cur s) -> 0 <= n < PMP_COUNT -> PMP_SHIFT <= log2len <= 56 ->
  fits 8 prot -> prot .& PMP_A = 0 -> fits 56 addr ->
  exists s', pmp_set n prot addr log2len s = Ret 0 s' /\
    pmp_get n old s' =
      Ret (0, (prot .| pmp_mode log2len, 2 ^ log2len * (addr / 2 ^ log2len), 2 ^ log2len)) s'.
Proof.
  intros Hhw Hok Hn Hl Hp HA Ha. unfold PMP_SHIFT in Hl. exists (pmp_set_st n prot addr log2len s).
  split; [apply pmp_set_eq; done || lia|]. rewrite pmp_get_eq by done.
  destruct (pmp_set_entries n n prot addr log2len s) as [Ec Er]; [done..|]. rewrite Z.eqb_refl in Ec, Er.
  set (s' := pmp_set_st n prot addr log2len s) in *. change (cur s') with (cur s). rewrite Ec, Er. unfold u64.
  rewrite wrap_small by (apply fits_pmpaddr_encode; unfold fits in *; lia).
  rewrite pmpaddr_stored_small by (done || lia).
  rewrite pmpaddr_decode_encode by (done || lia || by apply mode_land_A).
  rewrite (proj2 (Z.ltb_lt log2len 64)), shl64_1 by lia. done.
Qed.

Lemma pmp_get_set_witness :
  exists s', @pmp_set pmp_plain_hw 3 (PMP_R .| PMP_W) 0x80005000 14 st0 = Ret 0 s' /\
    @pmp_get 3 (0, 0, 0) s' = Ret (0, (0x1b, 0x80004000, 0x4000)) s'.
Proof.
  apply (@pmp_get_set pmp_plain_hw st0 3 (PMP_R .| PMP_W) 0x80005000 14 (0, 0, 0)).
  - apply pmp_plain_hw_ok.
  - split; vm_compute; split; discriminate || reflexivity.
  - unfold PMP_COUNT; lia.
  - unfold PMP_SHIFT; lia.
  - vm_compute; split; discriminate || reflexivity.
  - reflexivity.
  - split; lia.
Defined.
