(* ===== verification/Hart.v ===== *)
(** The hart, lib/sbi/sbi_hart.c: detection of its features, its setup
    (status, floating point, trap delegation, memory protection), and leaving
    machine mode. *)

From Stdlib Require Import String.
From S2P Require Import Prelude Encoding Bitops Cstring Machine Format Platform Console Scratch Asm.

Definition SBI_HART_HAS_PMP : Z := 1.
Definition SBI_HART_HAS_SCOUNTEREN : Z := 2.
Definition SBI_HART_HAS_MCOUNTEREN : Z := 4.
Definition SBI_HART_HAS_TIME : Z := 8.

(** [struct hart_features]: the feature bits, then the number of PMP entries. *)
Definition HF_FEATURES : Z := 0.
Definition HF_PMP_COUNT : Z := 8.
Definition HF_SIZE : Z := 16.

Section Hart.
Context `{Hardware} `{Platform}.

Definition hfeatures (scratch : Z) : M Z := off ← getg "hart_features_offset"; mret (scratch + off).

Definition sbi_hart_has_feature (scratch feature : Z) : M bool :=
  hf ← hfeatures scratch; f ← load (hf + HF_FEATURES); mret (nz (f .& feature)).
Definition hart_get_features (scratch : Z) : M Z := hf ← hfeatures scratch; load (hf + HF_FEATURES).
Definition sbi_hart_pmp_count (scratch : Z) : M Z := hf ← hfeatures scratch; load (hf + HF_PMP_COUNT).

(** [misa_extension('X')] *)
Definition ext_A_to_Z (c : string) : M bool := misa_extension (hd 0 (chars c)).

Definition mstatus_init (scratch hartid : Z) : M unit :=
  d ← ext_A_to_Z "D";
  fp ← (if d : bool then mret true else ext_A_to_Z "F");
  let val := if fp : bool then MSTATUS_FS else 0 in
  v ← ext_A_to_Z "V";
  let val := if v : bool then val .| MSTATUS_VS else val in
  csr_write CSR_MSTATUS val;;
  sx ← ext_A_to_Z "S";
  sc ← (if sx : bool then sbi_hart_has_feature scratch SBI_HART_HAS_SCOUNTEREN else mret false);
  when sc (csr_write CSR_SCOUNTEREN (-1);; sbi_printf (chars "scounter enabled") [];; mret tt);;
  mc ← sbi_hart_has_feature scratch SBI_HART_HAS_MCOUNTEREN;
  when mc (csr_write CSR_MCOUNTEREN (-1);; sbi_printf (chars "mcounter enabled") [];; mret tt);;
  csr_write CSR_MHPMEVENT3 (Z.shiftl 1 8 .| 2);;
  csr_write CSR_MHPMEVENT4 (Z.shiftl 1 9 .| 2);;
  csr_write CSR_MHPMEVENT5 (Z.shiftl 1 11 .| 2);;
  csr_write CSR_MHPMEVENT6 (Z.shiftl 1 12 .| 2);;
  csr_write CSR_MIE 0;;
  sx ← ext_A_to_Z "S";
  when sx (csr_write CSR_SATP 0).

Definition fp_init (hartid : Z) : M Z :=
  d ← ext_A_to_Z "D";
  fp ← (if d : bool then mret true else ext_A_to_Z "F");
  if fp : bool then
    ms ← csr_read CSR_MSTATUS;
    if nz (ms .& MSTATUS_FS) then
      for_each (seqZ 0 32) (fun i => modify (add_event (EvInsn "init_fp_reg" [i])));;
      csr_write CSR_FCSR 0;; mret 0
    else mret SBI_EINVAL
  else mret 0.

(** [1U << cause] *)
Definition cause_bit (c : Z) : Z := u32 (Z.shiftl 1 c).

Definition delegate_traps (scratch hartid : Z) : M Z :=
  plat ← sbi_platform_ptr scratch;
  sx ← ext_A_to_Z "S";
  if sx : bool then
    let interrupts := MIP_SSIP .| MIP_STIP .| MIP_SEIP in
    let exceptions := cause_bit CAUSE_MISALIGNED_FETCH .| cause_bit CAUSE_BREAKPOINT .|
                      cause_bit CAUSE_USER_ECALL in
    match plat with
    | None => exits XUndef
    | Some p =>
        let exceptions :=
          if sbi_platform_has_mfaults_delegation p then
            exceptions .| (cause_bit CAUSE_FETCH_PAGE_FAULT .| cause_bit CAUSE_LOAD_PAGE_FAULT .|
                           cause_bit CAUSE_STORE_PAGE_FAULT)
          else exceptions in
        hx ← ext_A_to_Z "H";
        let exceptions :=
          if hx : bool then
            exceptions .| cause_bit CAUSE_SUPERVISOR_ECALL .| cause_bit CAUSE_FETCH_GUEST_PAGE_FAULT .|
            cause_bit CAUSE_LOAD_GUEST_PAGE_FAULT .| cause_bit CAUSE_VIRTUAL_INST_FAULT .|
            cause_bit CAUSE_STORE_GUEST_PAGE_FAULT
          else exceptions in
        csr_write CSR_MIDELEG interrupts;;
        csr_write CSR_MEDELEG exceptions;;
        mret 0
    end
  else mret 0.

Definition sbi_hart_delegation_dump (scratch : Z) : M unit :=
  sx ← ext_A_to_Z "S";
  when sx
    (v ← csr_read CSR_MIDELEG;
     sbi_printf (chars "MIDELEG : 0x%016lx" ++ [10]) [VInt v];;
     v ← csr_read CSR_MEDELEG;
     sbi_printf (chars "MEDELEG : 0x%016lx" ++ [10]) [VInt v];;
     mret tt).

Definition sbi_hart_pmp_get (scratch n : Z) (old : Z * Z * Z) : M (Z * (Z * Z * Z)) :=
  count ← sbi_hart_pmp_count scratch;
  if count <=? n then mret (SBI_EINVAL, old) else pmp_get n old.

(** One line of the dump. *)
Definition pmp_dump_entry (i : Z) : M unit :=
  '(_, (prot, addr, size)) ← pmp_get i (0, 0, 0);
  when (nz (prot .& PMP_A))
    (sbi_printf (chars "PMP%d    : 0x%016lx-0x%016lx (A") [VInt i; VInt addr; VInt (u64 (addr + size - 1))];;
     when (nz (prot .& PMP_L)) (sbi_printf (chars ",L") [];; mret tt);;
     when (nz (prot .& PMP_R)) (sbi_printf (chars ",R") [];; mret tt);;
     when (nz (prot .& PMP_W)) (sbi_printf (chars ",W") [];; mret tt);;
     when (nz (prot .& PMP_X)) (sbi_printf (chars ",X") [];; mret tt);;
     sbi_printf (chars ")" ++ [10]) [];; mret tt).
Definition sbi_hart_pmp_dump (scratch : Z) : M unit :=
  has ← sbi_hart_has_feature scratch SBI_HART_HAS_PMP;
  when has (count ← sbi_hart_pmp_count scratch; for_each (seqZ 0 count) pmp_dump_entry).

(** The check stops at the first active entry that covers [addr] without the
    attribute. *)
Fixpoint pmp_check_loop (l : list Z) (addr attr : Z) : M Z :=
  match l with
  | [] => mret SBI_OK
  | i :: l =>
      '(_, (prot, tempaddr, size)) ← pmp_get i (0, 0, 0);
      if nz (prot .& PMP_A) && ((tempaddr <=? addr) && (addr <=? u64 (tempaddr + size))) && negb (nz (prot .& attr))
      then mret SBI_EINVALID_ADDR
      else pmp_check_loop l addr attr
  end.
Definition sbi_hart_pmp_check_addr (scratch addr attr : Z) : M Z :=
  has ← sbi_hart_has_feature scratch SBI_HART_HAS_PMP;
  if has : bool then count ← sbi_hart_pmp_count scratch; pmp_check_loop (seqZ 0 count) addr attr
  else mret SBI_OK.

(** The platform regions: as many as there are entries left before the last.
    The index of the next free entry. *)
Fixpoint pmp_platform_loop (l : list Z) (plat : option sbi_platform) (hartid pmp_idx pmp_count : Z)
    (old : Z * Z * Z) : M Z :=
  match l with
  | [] => mret pmp_idx
  | i :: l =>
      if pmp_idx <? u32 (pmp_count - 1) then
        '(rc, (prot, addr, log2size)) ← sbi_platform_pmp_region_info plat hartid i old;
        if nz rc then pmp_platform_loop l plat hartid pmp_idx pmp_count (prot, addr, log2size)
        else pmp_set pmp_idx prot addr log2size;;
             pmp_platform_loop l plat hartid (pmp_idx + 1) pmp_count (prot, addr, log2size)
      else mret pmp_idx
  end.

Definition pmp_init (scratch hartid : Z) : M Z :=
  plat ← sbi_platform_ptr scratch;
  has ← sbi_hart_has_feature scratch SBI_HART_HAS_PMP;
  if has : bool then
    fw_size ← load (scratch + SBI_SCRATCH_FW_SIZE_OFFSET);
    start ← load (scratch + SBI_SCRATCH_FW_START_OFFSET);
    let fw_size_log2 := log2roundup fw_size in
    let fw_start := start .& not64 (u64 (shl64 1 fw_size_log2 - 1)) in
    pmp_set 0 0 fw_start fw_size_log2;;
    count ← sbi_platform_pmp_region_count plat hartid;
    pmp_count ← sbi_hart_pmp_count scratch;
    pmp_idx ← pmp_platform_loop (seqZ 0 count) plat hartid 1 pmp_count (0, 0, 0);
    pmp_set pmp_idx (PMP_R .| PMP_W .| PMP_X) 0 64;;
    mret 0
  else mret 0.

Definition sbi_hart_feature_id2string (feature : Z) : option (list Z) :=
  if feature =? SBI_HART_HAS_PMP then Some (chars "pmp")
  else if feature =? SBI_HART_HAS_SCOUNTEREN then Some (chars "scounteren")
  else if feature =? SBI_HART_HAS_MCOUNTEREN then Some (chars "mcounteren")
  else if feature =? SBI_HART_HAS_TIME then Some (chars "time")
  else None.

(** [m] is the memory at [features_str]. *)
Definition sbi_hart_get_features_str (scratch : Z) (m : list Z) (nfstr : Z) : M (list Z) :=
  if nfstr <=? 0 then mret m
  else
    fv ← hart_get_features scratch;
    let m := sbi_memset m 0 0 (Z.to_nat nfstr) in
    match
      ('(m, offset) ←
         (if fv =? 0 then Some (m, 0%nat)
          else features_loop sbi_hart_feature_id2string [1; 2; 4; 8] fv m 0 nfstr);
       finish_features m offset nfstr)
    with
    | Some m => mret m
    | None => exits XUndef
    end.

(** Reading and writing back a register decides whether it is there. *)
Definition detect_csr (csr : Z) (trap : sbi_trap_info) : M (bool * sbi_trap_info) :=
  '(val, trap) ← csr_read_allowed csr trap;
  if cause trap =? 0 then
    trap ← csr_write_allowed csr trap val;
    mret (cause trap =? 0, trap)
  else mret (false, trap).

Fixpoint detect_pmp (l : list Z) (hf : Z) (trap : sbi_trap_info) : M unit :=
  match l with
  | [] => mret tt
  | csr :: l =>
      '(ok, trap) ← detect_csr csr trap;
      when ok (n ← load (hf + HF_PMP_COUNT); store (hf + HF_PMP_COUNT) (u32 (n + 1)));;
      detect_pmp l hf trap
  end.

Definition add_feature (hf feature : Z) : M unit :=
  f ← load (hf + HF_FEATURES); store (hf + HF_FEATURES) (f .| feature).

Definition trap0 : sbi_trap_info := mkTrap 0 0 0 0 0.

(** [trap.cause = 0] between the later probes only clears the cause; the other
    fields are not looked at. *)
Definition hart_detect_features (scratch : Z) : M unit :=
  hf ← hfeatures scratch;
  store (hf + HF_FEATURES) 0;;
  store (hf + HF_PMP_COUNT) 0;;
  detect_pmp (seqZ CSR_PMPADDR0 PMP_COUNT) hf trap0;;
  n ← load (hf + HF_PMP_COUNT);
  when (nz n) (add_feature hf SBI_HART_HAS_PMP);;
  '(ok, _) ← detect_csr CSR_SCOUNTEREN trap0;
  when ok (add_feature hf SBI_HART_HAS_SCOUNTEREN);;
  '(ok, _) ← detect_csr CSR_MCOUNTEREN trap0;
  when ok (add_feature hf SBI_HART_HAS_MCOUNTEREN);;
  '(_, trap) ← csr_read_allowed CSR_TIME trap0;
  when (cause trap =? 0) (add_feature hf SBI_HART_HAS_TIME).

Definition sbi_hart_init (scratch hartid : Z) (cold_boot : bool) : M Z :=
  off ← (if cold_boot then
           hx ← ext_A_to_Z "H";
           when hx (setg "sbi_hart_expected_trap_hext" 1);;
           off ← sbi_scratch_alloc_offset HF_SIZE "HART_FEATURES";
           setg "hart_features_offset" off;;
           mret off
         else mret 1);
  if off =? 0 then mret SBI_ENOMEM
  else
    hart_detect_features scratch;;
    mstatus_init scratch hartid;;
    rc ← fp_init hartid;
    if nz rc then mret rc
    else
      rc ← delegate_traps scratch hartid;
      if nz rc then mret rc else pmp_init scratch hartid.

(** [while (1) wfi();] *)
Definition sbi_hart_hang {A} : M A := exits XHang.

Definition sbi_hart_switch_mode (arg0 arg1 next_addr next_mode : Z) (next_virt : bool) : M unit :=
  (if next_mode =? PRV_M then mret tt
   else if next_mode =? PRV_S then ok ← ext_A_to_Z "S"; if ok : bool then mret tt else sbi_hart_hang
   else if next_mode =? PRV_U then ok ← ext_A_to_Z "U"; if ok : bool then mret tt else sbi_hart_hang
   else sbi_hart_hang);;
  val ← csr_read CSR_MSTATUS;
  let val := INSERT_FIELD val MSTATUS_MPP next_mode in
  let val := INSERT_FIELD val MSTATUS_MPIE 0 in
  hx ← ext_A_to_Z "H";
  let val := if hx : bool then INSERT_FIELD val MSTATUS_MPV (if next_virt then 1 else 0) else val in
  csr_write CSR_MSTATUS val;;
  csr_write CSR_MEPC next_addr;;
  (if next_mode =? PRV_S then
     csr_write CSR_STVEC next_addr;; csr_write CSR_SSCRATCH 0;; csr_write CSR_SIE 0;; csr_write CSR_SATP 0
   else if next_mode =? PRV_U then
     csr_write CSR_UTVEC next_addr;; csr_write CSR_USCRATCH 0;; csr_write CSR_UIE 0
   else mret tt);;
  exits (XMret arg0 arg1).
End Hart.

(** * Memory protection *)

Section PmpInit.
Context `{Hardware} `{Platform}.

(** The parts of the state that [pmp_init] reads. *)
Definition fw_log2 (s : st) (scratch : Z) : Z := log2roundup (mem_val s (scratch + SBI_SCRATCH_FW_SIZE_OFFSET)).
Definition hf_addr (s : st) (scratch : Z) : Z := scratch + gval s "hart_features_offset".
Definition has_feature (s : st) (scratch feature : Z) : bool :=
  nz (mem_val s (hf_addr s scratch + HF_FEATURES) .& feature).

Lemma pmp_matches_none_zero prev a : pmp_matches 0 prev 0 a = false.
Proof. done. Qed.

(** Entry 0 covers the firmware block, entry 1 everything. *)
Definition pmp_init_st (s : st) (scratch : Z) : st :=
  pmp_set_st 1 (PMP_R .| PMP_W .| PMP_X) 0 64
    (pmp_set_st 0 0 (mem_val s (scratch + SBI_SCRATCH_FW_START_OFFSET) .&
                     not64 (u64 (shl64 1 (fw_log2 s scratch) - 1))) (fw_log2 s scratch) s).

Lemma pmp_init_eq s scratch hartid :
  mem_val s (scratch + SBI_SCRATCH_PLATFORM_ADDR_OFFSET) <> 0 ->
  op_pmp_region_count (platform_ops the_platform) = None ->
  has_feature s scratch SBI_HART_HAS_PMP = true ->
  2 <= fw_log2 s scratch <= 64 ->
  pmp_init scratch hartid s = Ret 0 (pmp_init_st s scratch).
Proof.
  intros Hp Hops Hf Hl. unfold pmp_init, sbi_platform_ptr, sbi_hart_has_feature, hfeatures. repeat mstep.
  rewrite (proj2 (Z.eqb_neq _ _)) by done.
  fold (hf_addr s scratch). fold (has_feature s scratch SBI_HART_HAS_PMP). rewrite Hf. repeat mstep.
  fold (fw_log2 s scratch). rewrite (bind_ret_eq _ _ _ _ _ (pmp_set_eq 0 _ _ _ _ ltac:(done) Hl)).
  unfold sbi_platform_pmp_region_count, plat_call. rewrite Hops. simpl. repeat mstep.
  unfold sbi_hart_pmp_count, hfeatures. repeat mstep.
  rewrite (bind_ret_eq _ _ _ _ _ (pmp_set_eq 1 _ 0 64 _ ltac:(done) ltac:(done))). done.
Qed.

(** The region that [pmp_init] gives to entry 0 contains an address exactly
    when the address shares its aligned block with the start of the firmware. *)
Lemma fw_start_div start l a :
  fits 64 start -> 0 <= l < 64 ->
  (a / 2 ^ l =? (start .& not64 (u64 (shl64 1 l - 1))) / 2 ^ l) = (a / 2 ^ l =? start / 2 ^ l).
Proof.
  intros Hs Hl. rewrite shl64_1, u64_pow2_pred, land_not_ones by (done || lia).
  rewrite Z.mul_comm, Z.div_mul; [done|]. pose proof (Z.pow_pos_nonneg 2 l). lia.
Qed.

Lemma pmp_lookup_first s hart l n prev a :
  pmp_matches (pmp_cfg s hart n) prev (pmp_reg s hart n) a = true ->
  pmp_lookup s hart (n :: l) prev a = Some (pmp_cfg s hart n).
Proof. intros E. simpl. by rewrite E. Qed.

(** The base the code computes for entry 0. *)
Definition fw_base (s : st) (scratch : Z) : Z :=
  mem_val s (scratch + SBI_SCRATCH_FW_START_OFFSET) .& not64 (u64 (shl64 1 (fw_log2 s scratch) - 1)).

(** The two entries [pmp_init] writes. *)
Lemma pmp_init_entries s scratch :
  pmp_hw (cur s) -> pmp_regs_ok s (cur s) -> 2 <= fw_log2 s scratch < 56 ->
  fits 56 (mem_val s (scratch + SBI_SCRATCH_FW_START_OFFSET)) ->
  fits 56 (fw_base s scratch) /\
  pmp_cfg (pmp_init_st s scratch) (cur s) 0 = pmp_mode (fw_log2 s scratch) /\
  pmp_reg (pmp_init_st s scratch) (cur s) 0 = pmpaddr_encode (fw_base s scratch) (fw_log2 s scratch) mod 2 ^ 54 /\
  pmp_cfg (pmp_init_st s scratch) (cur s) 1 = PMP_R .| PMP_W .| PMP_X .| PMP_A_NAPOT /\
  pmp_reg (pmp_init_st s scratch) (cur s) 1 = pmpaddr_encode 0 64 mod 2 ^ 54.
Proof.
  intros Hhw Hok Hl Hstart. unfold pmp_init_st. fold (fw_base s scratch).
  assert (Hbase : fits 56 (fw_base s scratch)) by (by apply fits_land).
  set (L := fw_log2 s scratch) in *. set (base := fw_base s scratch) in *.
  set (s1 := pmp_set_st 0 0 base L s).
  assert (Hok1 : pmp_regs_ok s1 (cur s1)) by (apply (pmp_set_regs_ok 0 0 base L s); done).
  destruct (pmp_set_entries 1 0 (PMP_R .| PMP_W .| PMP_X) 0 64 s1) as [Ec Er]; [done..|].
  destruct (pmp_set_entries 0 0 0 base L s) as [Ec0 Er0]; [done..|].
  destruct (pmp_set_entries 1 1 (PMP_R .| PMP_W .| PMP_X) 0 64 s1) as [E1 R1]; [done..|].
  change (cur s1) with (cur s) in *. fold s1 in Ec0, Er0. rewrite Ec, Er, E1, R1. simpl. rewrite Ec0, Er0.
  split; [done|]. split; [done|]. split; [|done].
  unfold u64. rewrite wrap_small; [done|]. apply fits_pmpaddr_encode. unfold fits in *; lia.
Qed.

Lemma pmp_init_lookup s scratch a :
  pmp_hw (cur s) -> pmp_regs_ok s (cur s) -> 2 <= fw_log2 s scratch < 56 ->
  fits 56 (mem_val s (scratch + SBI_SCRATCH_FW_START_OFFSET)) -> fits 56 a ->
  pmp_lookup (pmp_init_st s scratch) (cur s) (seqZ 0 PMP_COUNT) 0 a =
  Some (if a / 2 ^ fw_log2 s scratch =? mem_val s (scratch + SBI_SCRATCH_FW_START_OFFSET) / 2 ^ fw_log2 s scratch
        then pmp_mode (fw_log2 s scratch) else PMP_R .| PMP_W .| PMP_X .| PMP_A_NAPOT).
Proof.
  intros Hhw Hok Hl Hstart Ha.
  destruct (pmp_init_entries s scratch Hhw Hok Hl Hstart) as (Hbase & E0 & R0 & E1 & R1).
  set (s2 := pmp_init_st s scratch) in *.
  change (pmp_lookup s2 (cur s) (seqZ 0 PMP_COUNT) 0 a) with
    (if pmp_matches (pmp_cfg s2 (cur s) 0) 0 (pmp_reg s2 (cur s) 0) a then Some (pmp_cfg s2 (cur s) 0)
     else pmp_lookup s2 (cur s) (1 :: seqZ 2 14) (pmp_reg s2 (cur s) 0) a).
  rewrite E0, R0, pmp_matches_stored; try done; [|unfold pmp_mode; by case_match|lia].
  unfold fw_base. rewrite fw_start_div; [|unfold fits in *; lia|lia].
  destruct (_ =? _); [done|].
  rewrite pmp_lookup_first; [by rewrite E1|]. rewrite E1, R1, pmp_matches_stored; try done.
  unfold fits in Ha. rewrite !Z.div_small by lia. done.
Qed.

Lemma pmp_init_get0 s scratch old :
  pmp_hw (cur s) -> pmp_regs_ok s (cur s) -> 2 <= fw_log2 s scratch < 56 ->
  fits 56 (mem_val s (scratch + SBI_SCRATCH_FW_START_OFFSET)) ->
  pmp_get 0 old (pmp_init_st s scratch) =
    Ret (0, (pmp_mode (fw_log2 s scratch),
             2 ^ fw_log2 s scratch * (mem_val s (scratch + SBI_SCRATCH_FW_START_OFFSET) / 2 ^ fw_log2 s scratch),
             2 ^ fw_log2 s scratch)) (pmp_init_st s scratch).
Proof.
  intros Hhw Hok Hl Hstart. rewrite pmp_get_eq by done.
  destruct (pmp_init_entries s scratch) as (Hb & E0 & R0 & _); [done..|].
  change (cur (pmp_init_st s scratch)) with (cur s). rewrite E0, R0.
  rewrite pmpaddr_stored_small, pmpaddr_decode_encode; try done; [|unfold pmp_mode; by case_match|lia..].
  rewrite (proj2 (Z.ltb_lt _ 64)), shl64_1 by lia. do 4 f_equal. unfold fw_base.
  rewrite shl64_1, u64_pow2_pred, land_not_ones by (unfold fits in *; lia). f_equal.
  rewrite Z.mul_comm, Z.div_mul; [done|]. pose proof (Z.pow_pos_nonneg 2 (fw_log2 s scratch)). lia.
Qed.
Lemma fw_log2_bounds s scratch : 2 < mem_val s (scratch + SBI_SCRATCH_FW_SIZE_OFFSET) <= 2 ^ 55 -> 2 <= fw_log2 s scratch < 56.
Proof.
  intros Hsize. unfold fw_log2. destruct (log2roundup_bounds (mem_val s (scratch + SBI_SCRATCH_FW_SIZE_OFFSET)))
    as (Hr & Hle & Hmin); [lia|]. split.
  - destruct (decide (2 <= log2roundup (mem_val s (scratch + SBI_SCRATCH_FW_SIZE_OFFSET)))); [done|].
    pose proof (Z.pow_le_mono_r 2 (log2roundup (mem_val s (scratch + SBI_SCRATCH_FW_SIZE_OFFSET))) 1). lia.
  - destruct (decide (log2roundup (mem_val s (scratch + SBI_SCRATCH_FW_SIZE_OFFSET)) <= 55)); [lia|].
    specialize (Hmin 55). lia.
Qed.

Lemma pmp_init_allows s scratch a perm :
  pmp_hw (cur s) -> pmp_regs_ok s (cur s) -> 2 <= fw_log2 s scratch < 56 ->
  fits 56 (mem_val s (scratch + SBI_SCRATCH_FW_START_OFFSET)) -> fits 56 a -> perm = PMP_R \/ perm = PMP_W \/ perm = PMP_X ->
  pmp_allows (pmp_init_st s scratch) (cur s) a perm =
  negb (a / 2 ^ fw_log2 s scratch =? mem_val s (scratch + SBI_SCRATCH_FW_START_OFFSET) / 2 ^ fw_log2 s scratch).
Proof.
  intros Hhw Hok Hlog Hstart Ha Hperm. unfold pmp_allows. rewrite pmp_init_lookup by done.
  destruct (_ =? _); [unfold pmp_mode; case_match|]; by destruct Hperm as [->|[->| ->]].
Qed.

(** The entries that [pmp_init] leaves alone. *)
Lemma pmp_init_others s scratch n :
  pmp_hw (cur s) -> pmp_regs_ok s (cur s) -> 2 <= n < PMP_COUNT -> pmp_cfg (pmp_init_st s scratch) (cur s) n = pmp_cfg s (cur s) n.
Proof.
  intros Hhw Hok Hn. unfold pmp_init_st. fold (fw_base s scratch). set (s1 := pmp_set_st 0 0 _ _ s).
  assert (Hok1 : pmp_regs_ok s1 (cur s1)) by (apply (pmp_set_regs_ok 0 0 (fw_base s scratch) (fw_log2 s scratch) s); done).
  destruct (pmp_set_entries 1 n (PMP_R .| PMP_W .| PMP_X) 0 64 s1) as [Ec _]; [done|done|done|lia|done|].
  destruct (pmp_set_entries 0 n 0 (fw_base s scratch) (fw_log2 s scratch) s) as [Ec0 _]; [done|done|done|lia|done|].
  change (cur s1) with (cur s) in *. rewrite Ec, (proj2 (Z.eqb_neq 1 n)) by lia. unfold s1. by rewrite Ec0, (proj2 (Z.eqb_neq 0 n)) by lia.
Qed.
End PmpInit.

(** C4: after [pmp_init] (on a platform without regions of its own) an access
    from S or U mode is refused exactly in the naturally aligned block of
    [2^log2roundup(fw_size)] bytes around the start of the firmware, and
    allowed everywhere else; so when the firmware starts on such a boundary,
    no byte of it can be read, written or executed. *)
Theorem pmp_init_protects_firmware `{Hardware} `{Platform} (s : st) (scratch hartid : Z) :
  mem_val s (scratch + SBI_SCRATCH_PLATFORM_ADDR_OFFSET) <> 0 ->
  op_pmp_region_count (platform_ops the_platform) = None ->
  has_feature s scratch SBI_HART_HAS_PMP = true -> pmp_hw (cur s) -> pmp_regs_ok s (cur s) ->
  2 < mem_val s (scratch + SBI_SCRATCH_FW_SIZE_OFFSET) <= 2 ^ 55 ->
  fits 56 (mem_val s (scratch + SBI_SCRATCH_FW_START_OFFSET)) ->
  exists s', pmp_init scratch hartid s = Ret 0 s' /\
    let start := mem_val s (scratch + SBI_SCRATCH_FW_START_OFFSET) in
    let size := mem_val s (scratch + SBI_SCRATCH_FW_SIZE_OFFSET) in
    let block := 2 ^ log2roundup size in
    (forall a perm, fits 56 a -> perm = PMP_R \/ perm = PMP_W \/ perm = PMP_X ->
       pmp_allows s' (cur s) a perm = negb (a / block =? start / block)) /\
    (start mod block = 0 -> forall a perm, fits 56 a -> perm = PMP_R \/ perm = PMP_W \/ perm = PMP_X ->
       start <= a < start + size -> pmp_allows s' (cur s) a perm = false).
Proof.
  intros Hp Hops Hf Hhw Hok Hsize Hstart.
  pose proof (fw_log2_bounds s scratch Hsize) as Hlog.
  exists (pmp_init_st s scratch). split; [apply pmp_init_eq; done || lia|]. cbv zeta.
  fold (fw_log2 s scratch). set (start := mem_val s (scratch + SBI_SCRATCH_FW_START_OFFSET)) in *.
  set (size := mem_val s (scratch + SBI_SCRATCH_FW_SIZE_OFFSET)) in *.
  assert (Hall : forall a perm, fits 56 a -> perm = PMP_R \/ perm = PMP_W \/ perm = PMP_X ->
    pmp_allows (pmp_init_st s scratch) (cur s) a perm =
    negb (a / 2 ^ fw_log2 s scratch =? start / 2 ^ fw_log2 s scratch)) by (intros a perm; by apply pmp_init_allows).
  split; [done|]. intros Hal a perm Ha Hperm Hrange. rewrite Hall by done.
  apply negb_false_iff, Z.eqb_eq.
  destruct (log2roundup_bounds size ltac:(lia)) as (_ & Hle & _).
  change (log2roundup size) with (fw_log2 s scratch) in Hle.
  pose proof (Z.div_mod start (2 ^ fw_log2 s scratch)) as Hdm. rewrite Hal in Hdm.
  symmetry. apply (Z.div_unique _ _ _ (a - start)); [left|]; lia.
Qed.

(** A hart whose scratch area describes firmware at 0x80000000, with PMP. *)
Definition fw_platform : Platform := Build_Platform (mkPlat 0 0 [] 0 1 8192 no_ops None) 0x80020000.
Definition fw_state : st :=
  set_mem (fun _ => {[ 0x80021000 + SBI_SCRATCH_PLATFORM_ADDR_OFFSET := 0x80010000;
                       0x80021000 + SBI_SCRATCH_FW_START_OFFSET := 0x80000000;
                       0x80021000 + SBI_SCRATCH_FW_SIZE_OFFSET := 0x1f000;
                       0x80021000 + 80 + HF_FEATURES := SBI_HART_HAS_PMP;
                       0x80021000 + 80 + HF_PMP_COUNT := 8 ]})
    (set_glob <["hart_features_offset"%string := 80]> boot_st).

Lemma pmp_init_protects_firmware_witness :
  exists s', @pmp_init pmp_plain_hw fw_platform 0x80021000 0 fw_state = Ret 0 s' /\
    (forall a perm, fits 56 a -> perm = PMP_R \/ perm = PMP_W \/ perm = PMP_X ->
       0x80000000 <= a < 0x80000000 + 0x1f000 -> pmp_allows s' 0 a perm = false).
Proof.
  destruct (@pmp_init_protects_firmware pmp_plain_hw fw_platform fw_state 0x80021000 0) as (s' & E & _ & Hd).
  - vm_compute. discriminate.
  - reflexivity.
  - vm_compute. reflexivity.
  - apply pmp_plain_hw_ok.
  - split; vm_compute; split; discriminate || reflexivity.
  - vm_compute. split; reflexivity || discriminate.
  - vm_compute. split; reflexivity || discriminate.
  - exists s'. split; [exact E|]. apply Hd. vm_compute. reflexivity.
Defined.

(** The address check of [sbi_hart_pmp_check_addr] takes the end of a
    region as part of it: the first byte after the firmware block is refused,
    although the protection hardware allows it. *)
Theorem pmp_check_addr_end_refused `{Hardware} `{Platform} (s : st) (scratch hartid : Z) :
  mem_val s (scratch + SBI_SCRATCH_PLATFORM_ADDR_OFFSET) <> 0 ->
  op_pmp_region_count (platform_ops the_platform) = None ->
  has_feature s scratch SBI_HART_HAS_PMP = true -> 0 < mem_val s (hf_addr s scratch + HF_PMP_COUNT) ->
  pmp_hw (cur s) -> pmp_regs_ok s (cur s) ->
  2 <= fw_log2 s scratch < 55 -> fits 55 (mem_val s (scratch + SBI_SCRATCH_FW_START_OFFSET)) ->
  exists s', pmp_init scratch hartid s = Ret 0 s' /\
    let block := 2 ^ fw_log2 s scratch in
    let stop := block * (mem_val s (scratch + SBI_SCRATCH_FW_START_OFFSET) / block) + block in
    sbi_hart_pmp_check_addr scratch stop PMP_X s' = Ret SBI_EINVALID_ADDR s' /\
    pmp_allows s' (cur s) stop PMP_X = true.
Proof.
  intros Hp Hops Hf Hcnt Hhw Hok Hl Hs. assert (Hs56 : fits 56 (mem_val s (scratch + SBI_SCRATCH_FW_START_OFFSET)))
    by (unfold fits in *; lia).
  exists (pmp_init_st s scratch). split; [apply pmp_init_eq; done || lia|]. cbv zeta.
  set (start := mem_val s (scratch + SBI_SCRATCH_FW_START_OFFSET)) in *. set (L := fw_log2 s scratch) in *.
  pose proof (Z.pow_pos_nonneg 2 L ltac:(lia) ltac:(lia)) as Hpos.
  pose proof (Z.pow_lt_mono_r 2 L 55 ltac:(lia) ltac:(lia) ltac:(lia)) as HL.
  pose proof (Z.mul_div_le start (2 ^ L) ltac:(lia)). pose proof (Z.div_pos start (2 ^ L)).
  set (base := 2 ^ L * (start / 2 ^ L)) in *.
  assert (Hb : 0 <= base < 2 ^ 55) by (unfold fits in Hs; nia).
  assert (Hst : fits 56 (base + 2 ^ L)) by (unfold fits; lia). split.
  - unfold sbi_hart_pmp_check_addr, sbi_hart_has_feature, sbi_hart_pmp_count, hfeatures. repeat mstep.
    set (s' := pmp_init_st s scratch).
    change (nz (mem_val s' (scratch + gval s' "hart_features_offset" + HF_FEATURES) .& SBI_HART_HAS_PMP))
      with (has_feature s scratch SBI_HART_HAS_PMP). rewrite Hf. repeat mstep.
    change (mem_val s' (scratch + gval s' "hart_features_offset" + HF_PMP_COUNT))
      with (mem_val s (hf_addr s scratch + HF_PMP_COUNT)).
    rewrite seqZ_cons by done. simpl pmp_check_loop. unfold s'.
    rewrite (bind_ret_eq _ _ _ _ _ (pmp_init_get0 s scratch (0, 0, 0) Hhw Hok ltac:(lia) Hs56)).
    fold L start base. unfold u64. rewrite wrap_small by (unfold fits in *; lia).
    rewrite (proj2 (Z.leb_le _ _)) by lia. rewrite Z.leb_refl.
    unfold pmp_mode. by destruct (L =? PMP_SHIFT).
  - unfold pmp_allows. rewrite pmp_init_lookup by (done || lia). fold L start.
    replace ((base + 2 ^ L) / 2 ^ L) with (start / 2 ^ L + 1).
    + by rewrite (proj2 (Z.eqb_neq _ _)) by lia.
    + unfold base. replace (2 ^ L * (start / 2 ^ L) + 2 ^ L) with ((start / 2 ^ L + 1) * 2 ^ L) by lia.
      by rewrite Z.div_mul by lia.
Qed.

Lemma pmp_check_addr_end_refused_witness :
  exists s', @pmp_init pmp_plain_hw fw_platform 0x80021000 0 fw_state = Ret 0 s' /\
    @sbi_hart_pmp_check_addr 0x80021000 0x80020000 PMP_X s' = Ret SBI_EINVALID_ADDR s'.
Proof.
  destruct (@pmp_check_addr_end_refused pmp_plain_hw fw_platform fw_state 0x80021000 0) as (s' & E & Hc & _).
  - vm_compute. discriminate.
  - reflexivity.
  - vm_compute. reflexivity.
  - vm_compute. reflexivity.
  - apply pmp_plain_hw_ok.
  - split; vm_compute; split; discriminate || reflexivity.
  - vm_compute. split; reflexivity || discriminate.
  - vm_compute. split; reflexivity || discriminate.
  - exists s'. split; [exact E|]. exact Hc.
Defined.

(** * Leaving machine mode *)

Section SwitchMode.
Context `{Hardware} `{Platform}.

(** Registers that keep what is written. *)
Definition csr_plain (hart : Z) : Prop := forall csr v, csr_warl hart csr v = v.

Definition misa_has (s : st) (k : Z) : bool := nz (s32 (csr_val s (cur s) CSR_MISA .& 2 ^ k)).

Lemma ext_A_to_Z_eq c k s :
  hd 0 (chars c) = 65 + k -> 0 <= k <= 25 -> csr_val s (cur s) CSR_MISA <> 0 ->
  ext_A_to_Z c s = Ret (misa_has s k) s.
Proof.
  intros Hc Hk Hm. unfold ext_A_to_Z, misa_extension, misa_extension_imp. rewrite Hc. repeat mstep.
  rewrite (proj2 (nz_true _)) by done. rewrite (proj2 (Z.leb_le 65 (65 + k))), (proj2 (Z.leb_le (65 + k) 90)) by lia.
  simpl andb. cbv iota. repeat mstep. unfold misa_has. replace (65 + k - 65) with k by lia.
  by rewrite shl64_1 by lia.
Qed.

(** Reading a register through a sequence of writes. *)
Lemma csr_val_put_plain s hart csr v csr' :
  cur s = hart -> csr_plain hart ->
  csr_val (put_csr csr v s) hart csr' = if csr' =? csr then u64 v else csr_val s hart csr'.
Proof. intros <- Hp. rewrite csr_val_put. by rewrite Hp. Qed.

(** The status register that [mret] consumes: mode in MPP, MPIE clear. *)
Definition mret_status (old next_mode : Z) : Z := INSERT_FIELD (INSERT_FIELD old MSTATUS_MPP next_mode) MSTATUS_MPIE 0.

Lemma mret_status_bits old next_mode i :
  fits 64 old -> fits 2 next_mode -> 0 <= i ->
  Z.testbit (mret_status old next_mode) i =
  if i =? 11 then Z.testbit next_mode 0 else if i =? 12 then Z.testbit next_mode 1
  else if i =? 7 then false else Z.testbit old i.
Proof.
  intros Ho Hm Hi. unfold mret_status, INSERT_FIELD.
  change (MSTATUS_MPP .& not64 (MSTATUS_MPP - 1)) with (2 ^ 11).
  change (u64 (0 * (MSTATUS_MPIE .& not64 (MSTATUS_MPIE - 1)))) with 0.
  change MSTATUS_MPP with (Z.shiftl 3 11). change MSTATUS_MPIE with (2 ^ 7).
  assert (u64 (next_mode * 2 ^ 11) = Z.shiftl next_mode 11) as ->.
  { rewrite Z.shiftl_mul_pow2 by lia. apply wrap_small. unfold fits in *. lia. }
  rewrite Z.lor_0_r. unfold not64. autorewrite with bits.
  assert (H3 : forall j, Z.testbit 3 j = (j =? 0) || (j =? 1)).
  { intros j. destruct (decide (0 <= j)); [|rewrite Z.testbit_neg_r by lia; bool_cases; done].
    change 3 with (Z.ones 2). rewrite Z.testbit_ones by lia. bool_cases; done. }
  rewrite H3. destruct (decide (64 <= i)).
  { rewrite !(testbit_fits 64 old) by (done || lia). rewrite !(testbit_fits 2 next_mode) by (done || lia).
    bool_cases; done. }
  destruct (decide (i < 11)).
  { rewrite (Z.testbit_neg_r next_mode) by lia. bool_cases; rewrite ?andb_false_r, ?andb_true_r, ?orb_false_r; done. }
  destruct (decide (12 < i)).
  { rewrite (testbit_fits 2 next_mode (i - 11)) by (done || lia).
    bool_cases; rewrite ?andb_false_r, ?andb_true_r, ?orb_false_r; done. }
  assert (i = 11 \/ i = 12) as [-> | ->] by lia; simpl; by rewrite ?andb_false_r, ?andb_true_r.
Qed.
End SwitchMode.

(** Switching to supervisor mode leaves machine mode by [mret] with the
    two arguments, at the requested address and privilege, with interrupts and
    address translation off, and no other bit of the status register changed. *)
Theorem sbi_hart_switch_mode_supervisor `{Hardware} `{Platform} (s : st) (arg0 arg1 next_addr : Z) (virt : bool) :
  csr_plain (cur s) -> csr_val s (cur s) CSR_MISA <> 0 -> misa_has s 18 = true -> misa_has s 7 = false ->
  fits 64 (csr_val s (cur s) CSR_MSTATUS) -> fits 64 next_addr ->
  exists s', sbi_hart_switch_mode arg0 arg1 next_addr PRV_S virt s = Exit (XMret arg0 arg1) s' /\
    let reg := csr_val s' (cur s) in
    reg CSR_MEPC = next_addr /\ reg CSR_STVEC = next_addr /\
    reg CSR_SATP = 0 /\ reg CSR_SIE = 0 /\ reg CSR_SSCRATCH = 0 /\
    (forall i, 0 <= i -> Z.testbit (reg CSR_MSTATUS) i =
       if i =? 11 then true else if i =? 12 then false else if i =? 7 then false
       else Z.testbit (csr_val s (cur s) CSR_MSTATUS) i) /\
    mem s' = mem s.
Proof.
  intros Hp Hm HS HH Hms Ha. unfold sbi_hart_switch_mode.
  change (PRV_S =? PRV_M) with false. change (PRV_S =? PRV_S) with true. cbv iota.
  rewrite bind_assoc, (bind_ret_eq _ _ _ _ _ (ext_A_to_Z_eq "S" 18 s eq_refl ltac:(lia) Hm)), HS.
  repeat mstep. rewrite (bind_ret_eq _ _ _ _ _ (ext_A_to_Z_eq "H" 7 s eq_refl ltac:(lia) Hm)), HH.
  repeat mstep. unfold exits. eexists. split; [done|]. cbv zeta.
  fold (mret_status (csr_val s (cur s) CSR_MSTATUS) PRV_S).
  set (ms := mret_status _ _).
  match goal with |- csr_val ?x _ _ = _ /\ _ => set (s' := x) end.
  assert (Hr : forall c, csr_val s' (cur s) c =
    if c =? CSR_SATP then 0 else if c =? CSR_SIE then 0 else if c =? CSR_SSCRATCH then 0
    else if c =? CSR_STVEC then next_addr else if c =? CSR_MEPC then next_addr
    else if c =? CSR_MSTATUS then u64 ms else csr_val s (cur s) c).
  { intros c. unfold s'. do 6 rewrite csr_val_put_plain by done.
    change (u64 0) with 0. unfold u64 at 1 2. by rewrite !(wrap_small 64 next_addr) by done. }
  rewrite !Hr. repeat (split; [done|]). split; [|done].
  intros i Hi. unfold ms. simpl. rewrite testbit_u64, mret_status_bits by (done || (split; lia)).
  destruct (Z.ltb_spec i 64).
  - simpl. bool_cases; done.
  - simpl. rewrite (testbit_fits 64) by (done || lia). bool_cases; done.
Qed.

(** A 64-bit hart with S and U modes. *)
Definition su_state : st := put_csr (H := plain_hw) CSR_MISA 0x8000000000140105 boot_st.

Lemma sbi_hart_switch_mode_supervisor_witness :
  exists s', @sbi_hart_switch_mode plain_hw fw_platform 0 0x82000000 0x80200000 PRV_S false su_state =
    Exit (XMret 0 0x82000000) s' /\ csr_val s' 0 CSR_MEPC = 0x80200000.
Proof.
  destruct (@sbi_hart_switch_mode_supervisor plain_hw fw_platform su_state 0 0x82000000 0x80200000 false)
    as (s' & E & Hmepc & _).
  - intros csr v. reflexivity.
  - vm_compute. discriminate.
  - vm_compute. reflexivity.
  - vm_compute. reflexivity.
  - vm_compute. split; discriminate || reflexivity.
  - split; lia.
  - exists s'. split; [exact E|exact Hmepc].
Defined.
