(* ===== verification/Hsm.v ===== *)
(** Hart state management, lib/sbi/sbi_hsm.c, with [sbi_init_count] of
    lib/sbi/sbi_init.c.

    Each hart has one state cell in its scratch area, changed by
    compare-and-exchange only.  The second half of the file is the protocol
    between a hart that starts another and the hart being started, step by
    step. *)

From Stdlib Require Import String.
From S2P Require Import Prelude Encoding Bitops Machine Format Platform Console Scratch Asm Hart.

Definition SBI_HART_STOPPED : Z := 0.
Definition SBI_HART_STOPPING : Z := 1.
Definition SBI_HART_STARTING : Z := 2.
Definition SBI_HART_STARTED : Z := 3.
Definition SBI_HART_UNKNOWN : Z := 4.

Definition sbi_hsm_hart_state_to_status (state : Z) : Z :=
  if state =? SBI_HART_STOPPED then SBI_HSM_HART_STATUS_STOPPED
  else if state =? SBI_HART_STOPPING then SBI_HSM_HART_STATUS_STOP_PENDING
  else if state =? SBI_HART_STARTING then SBI_HSM_HART_STATUS_START_PENDING
  else if state =? SBI_HART_STARTED then SBI_HSM_HART_STATUS_STARTED
  else SBI_EINVAL.

Section Hsm.
Context `{Hardware} `{Platform}.

(** Address of a hart's state cell. *)
Definition hdata (scratch : Z) : M Z := off ← getg "hart_data_offset"; mret (scratch + off).

Definition sbi_hsm_hart_get_state (hartid : Z) : M Z :=
  scratch ← sbi_hartid_to_scratch hartid;
  if scratch =? 0 then mret SBI_HART_UNKNOWN
  else a ← hdata scratch; v ← atomic_read a; mret (s32 v).

Definition sbi_hsm_hart_started (hartid : Z) : M bool :=
  st ← sbi_hsm_hart_get_state hartid; mret (st =? SBI_HART_STARTED).

(** [for (i = hbase; i < hcount; i++)] *)
Fixpoint started_loop (l : list Z) (hbase mask : Z) : M Z :=
  match l with
  | [] => mret mask
  | i :: l =>
      state ← sbi_hsm_hart_get_state (u32 i);
      started_loop l hbase
        (if state =? SBI_HART_STARTED then mask .| shl64 1 (i - hbase) else mask)
  end.

(** The result code and the mask. *)
Definition sbi_hsm_hart_started_mask (hbase : Z) : M (Z * Z) :=
  last ← sbi_scratch_last_hartid;
  let hcount := u32 (last + 1) in
  if hcount <=? hbase then mret (SBI_EINVAL, 0)
  else
    let hcount := if BITS_PER_LONG <? hcount - hbase then BITS_PER_LONG else hcount in
    mask ← started_loop (seqZ hbase (hcount - hbase)) hbase 0;
    mret (0, mask).

Definition sbi_hsm_prepare_next_jump (scratch hartid : Z) : M unit :=
  a ← hdata scratch;
  oldstate ← atomic_cmpxchg a SBI_HART_STARTING SBI_HART_STARTED;
  if u32 oldstate =? SBI_HART_STARTING then mret tt else sbi_hart_hang.

Definition sbi_hsm_hart_wait (scratch hartid : Z) : M unit :=
  plat ← sbi_platform_ptr scratch;
  a ← hdata scratch;
  saved_mie ← csr_read CSR_MIE;
  csr_set CSR_MIE MIP_MSIP;;
  poll (v ← atomic_read a;
        if v =? SBI_HART_STARTING then mret (Some tt) else wfi;; mret None);;
  csr_write CSR_MIE saved_mie;;
  sbi_platform_ipi_clear plat hartid.

(** [ATOMIC_INIT] for hart [i]. *)
Definition hsm_init_hart (hartid i : Z) : M unit :=
  rscratch ← sbi_hartid_to_scratch i;
  when (nz rscratch)
    (a ← hdata rscratch;
     store a (if i =? hartid then SBI_HART_STARTING else SBI_HART_STOPPED)).

Definition sbi_hsm_init (scratch hartid : Z) (cold_boot : bool) : M Z :=
  if cold_boot then
    off ← sbi_scratch_alloc_offset 8 "HART_DATA";
    setg "hart_data_offset" off;;
    if off =? 0 then mret SBI_ENOMEM
    else
      last ← sbi_scratch_last_hartid;
      for_each (seqZ 0 (last + 1)) (hsm_init_hart hartid);;
      mret 0
  else sbi_hsm_hart_wait scratch hartid;; mret 0.

Definition hsm_fail_exit : M unit :=
  h ← current_hartid;
  sbi_printf (chars "ERR: Failed stop hart [%u]" ++ [10]) [VInt h];;
  sbi_hart_hang.

Definition sbi_hsm_exit (scratch : Z) : M unit :=
  plat ← sbi_platform_ptr scratch;
  a ← hdata scratch;
  warmboot ← load (scratch + SBI_SCRATCH_WARMBOOT_ADDR_OFFSET);
  hstate ← atomic_cmpxchg a SBI_HART_STOPPING SBI_HART_STOPPED;
  if negb (u32 hstate =? SBI_HART_STOPPING) then hsm_fail_exit
  else
    match plat with
    | None => exits XUndef
    | Some p =>
        if sbi_platform_has_hart_hotplug p then sbi_platform_hart_stop plat;; hsm_fail_exit
        else exits (XJump warmboot 0 0)
    end.

Definition sbi_init_count (hartid : Z) : M Z :=
  off ← getg "init_count_offset";
  if off =? 0 then mret 0
  else
    scratch ← sbi_hartid_to_scratch hartid;
    if scratch =? 0 then mret 0 else load (scratch + off).

Definition sbi_hsm_hart_start (scratch hartid saddr priv : Z) : M Z :=
  plat ← sbi_platform_ptr scratch;
  rscratch ← sbi_hartid_to_scratch hartid;
  if rscratch =? 0 then mret SBI_EINVAL
  else
    a ← hdata rscratch;
    hstate ← atomic_cmpxchg a SBI_HART_STOPPED SBI_HART_STARTING;
    let hstate := u32 hstate in
    if hstate =? SBI_HART_STARTED then mret SBI_EALREADY
    else if negb (hstate =? SBI_HART_STOPPED) then mret SBI_EINVAL
    else
      rc ← sbi_hart_pmp_check_addr scratch saddr PMP_X;
      if nz rc then mret rc
      else
        init_count ← sbi_init_count hartid;
        store (rscratch + SBI_SCRATCH_NEXT_ARG1_OFFSET) priv;;
        store (rscratch + SBI_SCRATCH_NEXT_ADDR_OFFSET) saddr;;
        match plat with
        | None => exits XUndef
        | Some p =>
            if sbi_platform_has_hart_hotplug p ||
               (sbi_platform_has_hart_secondary_boot p && negb (nz init_count)) then
              warmboot ← load (scratch + SBI_SCRATCH_WARMBOOT_ADDR_OFFSET);
              sbi_platform_hart_start plat hartid warmboot
            else sbi_platform_ipi_send plat hartid;; mret 0
        end.

(** [sbi_exit] does not return; it is defined with the rest of the boot flow. *)
Definition sbi_hsm_hart_stop (sbi_exit : Z -> M unit) (scratch : Z) (exitnow : bool) : M Z :=
  hartid ← current_hartid;
  a ← hdata scratch;
  started ← sbi_hsm_hart_started hartid;
  if negb started then mret SBI_EINVAL
  else
    oldstate ← atomic_cmpxchg a SBI_HART_STARTED SBI_HART_STOPPING;
    if negb (s32 oldstate =? SBI_HART_STARTED) then
      sbi_printf (chars "%s: ERR: The hart is in invalid state [%u]" ++ [10])
        [VStr (Some (chars "sbi_hsm_hart_stop")); VInt oldstate];;
      mret SBI_EDENIED
    else
      when exitnow (sbi_exit scratch);;
      mret 0.
End Hsm.

(** * Reading the states *)

Section HsmProps.
Context `{Hardware} `{Platform}.

(** The state of hart [i] as the code reads it. *)
Definition hsm_state (s : st) (i : Z) : Z :=
  let p := default 0 (scratch_table s !! i) in
  if p =? 0 then SBI_HART_UNKNOWN else s32 (s64 (mem_val s (p + gval s "hart_data_offset"))).

Lemma get_state_eq i s :
  i < SBI_HARTMASK_MAX_BITS -> sbi_hsm_hart_get_state i s = Ret (hsm_state s i) s.
Proof.
  intros Hi. unfold sbi_hsm_hart_get_state, sbi_hartid_to_scratch, hsm_state, hdata, atomic_read.
  rewrite (proj2 (Z.ltb_lt _ _)) by done. mstep. destruct (_ =? 0); [done|]. by repeat mstep.
Qed.

Lemma started_loop_eq hbase s l : forall mask,
  Forall (fun i => 0 <= i < SBI_HARTMASK_MAX_BITS) l ->
  started_loop l hbase mask s =
  Ret (foldl (fun m i => if hsm_state s i =? SBI_HART_STARTED then m .| shl64 1 (i - hbase) else m) mask l) s.
Proof.
  induction l as [|i l IH]; intros mask Hall; simpl; [done|]. inversion_clear Hall as [|? ? Hi Hrest].
  unfold u32. rewrite wrap_small by (unfold fits, SBI_HARTMASK_MAX_BITS in *; lia).
  rewrite (bind_ret_eq _ _ _ _ _ (get_state_eq i s ltac:(lia))). by apply IH.
Qed.

Lemma started_fold_bit (f : Z -> bool) hbase k l : forall mask,
  0 <= k < 64 -> Forall (fun i => 0 <= i - hbase < 64) l ->
  Z.testbit (foldl (fun m i => if f i then m .| shl64 1 (i - hbase) else m) mask l) k =
  Z.testbit mask k || (bool_decide (hbase + k ∈ l) && f (hbase + k)).
Proof.
  induction l as [|i l IH]; intros mask Hk Hall; simpl; [by rewrite orb_false_r|].
  inversion_clear Hall as [|? ? Hi Hrest]. rewrite IH by done.
  assert (Z.testbit (if f i then mask .| shl64 1 (i - hbase) else mask) k =
          Z.testbit mask k || (bool_decide (hbase + k = i) && f (hbase + k))) as ->.
  { destruct (decide (hbase + k = i)) as [<-|Hne].
    - rewrite bool_decide_true by done. destruct (f (hbase + k)); [|by rewrite orb_false_r].
      rewrite shl64_1, Z.lor_spec by lia. f_equal. replace (hbase + k - hbase) with k by lia.
      apply Z.pow2_bits_true. lia.
    - rewrite bool_decide_false by done. simpl. rewrite orb_false_r. destruct (f i); [|done].
      rewrite shl64_1, Z.lor_spec, Z.pow2_bits_false by lia. by rewrite orb_false_r. }
  rewrite <- orb_assoc, <- andb_orb_distrib_l. do 2 f_equal.
  rewrite <- bool_decide_or. apply bool_decide_ext. by rewrite elem_of_cons.
Qed.
End HsmProps.

(** The harts the mask loop looks at. *)
Definition mask_stop (last hbase : Z) : Z :=
  if BITS_PER_LONG <? last + 1 - hbase then BITS_PER_LONG else last + 1.

(** The mask of started harts. *)
Lemma started_mask_eq (s : st) (hbase : Z) :
  0 <= gval s "last_hartid_having_scratch" < SBI_HARTMASK_MAX_BITS -> 0 <= hbase ->
  hbase <= gval s "last_hartid_having_scratch" ->
  exists mask, sbi_hsm_hart_started_mask hbase s = Ret (0, mask) s /\
    forall k, 0 <= k < 64 ->
      Z.testbit mask k =
      (hbase + k <? mask_stop (gval s "last_hartid_having_scratch") hbase) &&
      (hsm_state s (hbase + k) =? SBI_HART_STARTED).
Proof.
  intros Hlast Hb Hle. unfold sbi_hsm_hart_started_mask, sbi_scratch_last_hartid. mstep.
  set (last := gval s "last_hartid_having_scratch") in *. unfold SBI_HARTMASK_MAX_BITS in Hlast.
  unfold u32. rewrite wrap_small by (unfold fits; lia). rewrite (proj2 (Z.leb_gt _ _)) by lia.
  fold (mask_stop last hbase).
  assert (Hstop : mask_stop last hbase <= last + 1 /\ mask_stop last hbase - hbase <= 64).
  { unfold mask_stop, BITS_PER_LONG. destruct (Z.ltb_spec 64 (last + 1 - hbase)); lia. }
  erewrite bind_ret_eq; [|apply started_loop_eq; apply Forall_forall; intros i Hi%elem_of_seqZ;
    unfold SBI_HARTMASK_MAX_BITS; lia].
  eexists. split; [done|]. intros k Hk.
  rewrite (started_fold_bit (fun i => hsm_state s i =? SBI_HART_STARTED)).
  - rewrite Z.testbit_0_l. simpl. f_equal.
    destruct (Z.ltb_spec (hbase + k) (mask_stop last hbase)).
    + apply bool_decide_true, elem_of_seqZ. lia.
    + apply bool_decide_false. rewrite elem_of_seqZ. lia.
  - done.
  - apply Forall_forall. intros i Hi%elem_of_seqZ. lia.
Qed.

(** The mask of started harts from [hbase] has bit [k] exactly when hart
    [hbase + k] is in the started state and below the loop's bound: the last
    hart, or 64 when more than 64 harts follow [hbase]. *)
Theorem sbi_hsm_hart_started_mask_spec (s : st) (hbase : Z) :
  0 <= gval s "last_hartid_having_scratch" < SBI_HARTMASK_MAX_BITS -> 0 <= hbase ->
  hbase <= gval s "last_hartid_having_scratch" ->
  exists mask, sbi_hsm_hart_started_mask hbase s = Ret (0, mask) s /\
    forall k, 0 <= k < 64 ->
      Z.testbit mask k =
      (hbase + k <? mask_stop (gval s "last_hartid_having_scratch") hbase) &&
      (hsm_state s (hbase + k) =? SBI_HART_STARTED).
Proof. apply started_mask_eq. Qed.

(** Hart 64 of 101 is started. *)
Definition many_harts : st :=
  set_mem <[0x90000050 := SBI_HART_STARTED]>
    (set_scratch_table (fun _ => {[ 64 := 0x90000000 ]})
      (set_glob <["hart_data_offset"%string := 80]>
        (set_glob <["last_hartid_having_scratch"%string := 100]> boot_st))).

Lemma sbi_hsm_hart_started_mask_spec_witness :
  hsm_state many_harts 64 = SBI_HART_STARTED /\
  exists mask, sbi_hsm_hart_started_mask 1 many_harts = Ret (0, mask) many_harts /\ Z.testbit mask 63 = false.
Proof.
  split; [vm_compute; reflexivity|].
  destruct (sbi_hsm_hart_started_mask_spec many_harts 1) as (mask & E & Hm).
  - vm_compute. split; discriminate || reflexivity.
  - lia.
  - vm_compute. discriminate.
  - exists mask. split; [exact E|]. rewrite Hm by lia. vm_compute. reflexivity.
Defined.

(** * Starting a hart *)

Section Start.
Context `{Hardware} `{Platform}.

Lemma atomic_cmpxchg_eq a old new s :
  atomic_cmpxchg a old new s =
  Ret (s64 (mem_val s a)) (if s64 (mem_val s a) =? s64 old then set_mem <[a := u64 new]> s else s).
Proof. unfold atomic_cmpxchg. mstep. by destruct (_ =? _). Qed.

(** The cell of a hart that has a scratch area. *)
Definition hsm_cell (s : st) (i : Z) : Z := default 0 (scratch_table s !! i) + gval s "hart_data_offset".

(** A cell holds one of the four states. *)
Definition hsm_cell_ok (s : st) (i : Z) : Prop :=
  0 <= mem_val s (hsm_cell s i) <= 3.

Lemma s64_cell v : 0 <= v <= 3 -> s64 v = v.
Proof. intros. apply s64_small. lia. Qed.

(** The code up to and including the exchange of the state. *)
Lemma hart_start_exchange scratch i saddr priv s :
  0 <= i < SBI_HARTMASK_MAX_BITS -> default 0 (scratch_table s !! i) <> 0 -> hsm_cell_ok s i ->
  mem_val s (hsm_cell s i) <> SBI_HART_STOPPED ->
  sbi_hsm_hart_start scratch i saddr priv s =
  Ret (if mem_val s (hsm_cell s i) =? SBI_HART_STARTED then SBI_EALREADY else SBI_EINVAL) s.
Proof.
  intros Hi Hp Hok Hne. unfold sbi_hsm_hart_start, sbi_platform_ptr, sbi_hartid_to_scratch.
  rewrite (proj2 (Z.ltb_lt _ _)) by lia. repeat mstep. rewrite (proj2 (Z.eqb_neq _ 0)) by done.
  unfold hdata. repeat mstep. fold (hsm_cell s i). rewrite (bind_ret_eq _ _ _ _ _ (atomic_cmpxchg_eq _ _ _ _)).
  rewrite s64_cell by done. change (s64 SBI_HART_STOPPED) with SBI_HART_STOPPED.
  unfold u32. rewrite wrap_small by (unfold fits, hsm_cell_ok in *; lia).
  rewrite (proj2 (Z.eqb_neq (mem_val s (hsm_cell s i)) SBI_HART_STOPPED)) by done.
  by destruct (_ =? SBI_HART_STARTED).
Qed.

(** The state right after a successful exchange. *)
Definition starting (s : st) (i : Z) : st := set_mem <[hsm_cell s i := SBI_HART_STARTING]> s.

Lemma hart_start_won scratch i saddr priv s :
  0 <= i < SBI_HARTMASK_MAX_BITS -> default 0 (scratch_table s !! i) <> 0 ->
  mem_val s (hsm_cell s i) = SBI_HART_STOPPED ->
  sbi_hsm_hart_start scratch i saddr priv s =
  (rc ← sbi_hart_pmp_check_addr scratch saddr PMP_X;
   if nz rc then mret rc
   else
     init_count ← sbi_init_count i;
     store (default 0 (scratch_table s !! i) + SBI_SCRATCH_NEXT_ARG1_OFFSET) priv;;
     store (default 0 (scratch_table s !! i) + SBI_SCRATCH_NEXT_ADDR_OFFSET) saddr;;
     match (if mem_val s (scratch + SBI_SCRATCH_PLATFORM_ADDR_OFFSET) =? 0 then None else Some the_platform) with
     | None => exits XUndef
     | Some p =>
         if sbi_platform_has_hart_hotplug p ||
            (sbi_platform_has_hart_secondary_boot p && negb (nz init_count)) then
           warmboot ← load (scratch + SBI_SCRATCH_WARMBOOT_ADDR_OFFSET);
           sbi_platform_hart_start (Some p) i warmboot
         else sbi_platform_ipi_send (Some p) i;; mret 0
     end) (starting s i).
Proof.
  intros Hi Hp Hst. unfold sbi_hsm_hart_start, sbi_platform_ptr, sbi_hartid_to_scratch.
  rewrite (proj2 (Z.ltb_lt _ _)) by lia. repeat mstep. rewrite (proj2 (Z.eqb_neq _ 0)) by done.
  unfold hdata. repeat mstep. fold (hsm_cell s i). rewrite (bind_ret_eq _ _ _ _ _ (atomic_cmpxchg_eq _ _ _ _)).
  rewrite Hst. simpl. fold (starting s i). by destruct (_ =? 0).
Qed.
End Start.

(** Starting a hart that is not stopped changes nothing: the call reports
    "already available" for a started hart, and an invalid request for one on
    its way up or down. *)
Theorem sbi_hsm_hart_start_busy `{Hardware} `{Platform} (s : st) (scratch i saddr priv : Z) :
  0 <= i < SBI_HARTMASK_MAX_BITS -> default 0 (scratch_table s !! i) <> 0 -> hsm_cell_ok s i ->
  hsm_state s i <> SBI_HART_STOPPED ->
  sbi_hsm_hart_start scratch i saddr priv s =
  Ret (if hsm_state s i =? SBI_HART_STARTED then SBI_EALREADY else SBI_EINVAL) s.
Proof.
  intros Hi Hp Hok. unfold hsm_state. rewrite (proj2 (Z.eqb_neq _ 0)) by done. fold (hsm_cell s i).
  rewrite s64_cell by done. rewrite s32_small by (unfold hsm_cell_ok in Hok; lia).
  intros Hne. by apply hart_start_exchange.
Qed.

Lemma sbi_hsm_hart_start_busy_witness :
  @sbi_hsm_hart_start fw_platform 0 64 0x80200000 0 many_harts = Ret SBI_EALREADY many_harts.
Proof.
  rewrite (@sbi_hsm_hart_start_busy plain_hw fw_platform many_harts 0 64 0x80200000 0).
  - vm_compute. reflexivity.
  - unfold SBI_HARTMASK_MAX_BITS. lia.
  - vm_compute. discriminate.
  - vm_compute. split; discriminate.
  - vm_compute. discriminate.
Defined.

Lemma hsm_state_cell s i :
  default 0 (scratch_table s !! i) <> 0 -> hsm_cell_ok s i -> hsm_state s i = mem_val s (hsm_cell s i).
Proof.
  intros Hp Hok. unfold hsm_state. rewrite (proj2 (Z.eqb_neq _ 0)) by done. fold (hsm_cell s i).
  rewrite s64_cell by done. apply s32_small. unfold hsm_cell_ok in Hok; lia.
Qed.

Lemma starting_cell s i : mem_val (starting s i) (hsm_cell (starting s i) i) = SBI_HART_STARTING.
Proof. apply (mem_val_store s (hsm_cell s i)). Qed.

(** C40: a start request for a stopped hart that fails the address check
    reports the error but leaves the hart marked as starting: every later
    request for that hart is refused as invalid. *)
Theorem sbi_hsm_hart_start_refused_stuck `{Hardware} `{Platform} (s : st) (scratch i saddr priv rc : Z) :
  0 <= i < SBI_HARTMASK_MAX_BITS -> default 0 (scratch_table s !! i) <> 0 -> hsm_cell_ok s i ->
  hsm_state s i = SBI_HART_STOPPED -> rc <> 0 ->
  sbi_hart_pmp_check_addr scratch saddr PMP_X (starting s i) = Ret rc (starting s i) ->
  exists s', sbi_hsm_hart_start scratch i saddr priv s = Ret rc s' /\ hsm_state s' i = SBI_HART_STARTING /\
    (forall saddr' priv', sbi_hsm_hart_start scratch i saddr' priv' s' = Ret SBI_EINVAL s').
Proof.
  intros Hi Hp Hok Hst Hrc Hpmp. rewrite hsm_state_cell in Hst by done. exists (starting s i).
  rewrite hart_start_won by done. rewrite (bind_ret_eq _ _ _ _ _ Hpmp). rewrite (proj2 (nz_true rc)) by done.
  assert (Hok' : hsm_cell_ok (starting s i) i) by (unfold hsm_cell_ok; by rewrite starting_cell).
  split; [done|]. split; [by rewrite hsm_state_cell, starting_cell|].
  intros. by rewrite hart_start_exchange; rewrite ?starting_cell.
Qed.

(** Hart 1, stopped, next to the firmware of hart 0. *)
Definition two_fw_harts : st :=
  set_scratch_table <[1 := 0x80023000]>
    (set_glob <["hart_data_offset"%string := 96]>
      (@pmp_init_st pmp_plain_hw fw_state 0x80021000)).

Lemma sbi_hsm_hart_start_refused_stuck_witness :
  exists s', @sbi_hsm_hart_start fw_platform 0x80021000 1 0x80001000 0 two_fw_harts =
      Ret SBI_EINVALID_ADDR s' /\
    @sbi_hsm_hart_start fw_platform 0x80021000 1 0x80200000 0 s' = Ret SBI_EINVAL s'.
Proof.
  destruct (@sbi_hsm_hart_start_refused_stuck pmp_plain_hw fw_platform two_fw_harts 0x80021000 1 0x80001000 0
    SBI_EINVALID_ADDR) as (s' & E & _ & Hlater).
  - unfold SBI_HARTMASK_MAX_BITS. lia.
  - vm_compute. discriminate.
  - vm_compute. split; discriminate.
  - vm_compute. reflexivity.
  - discriminate.
  - vm_compute. reflexivity.
  - exists s'. split; [exact E|apply Hlater].
Defined.

(** A start request for a stopped hart that passes the address check
    marks the hart as starting, stores the entry address and argument in its
    scratch area and nothing else, and sends it one inter-processor
    interrupt. *)
Theorem sbi_hsm_hart_start_ok `{Hardware} `{Platform} (s : st) (scratch i saddr priv : Z) (send : Z -> M unit) :
  0 <= i < SBI_HARTMASK_MAX_BITS -> default 0 (scratch_table s !! i) <> 0 -> hsm_cell_ok s i ->
  hsm_state s i = SBI_HART_STOPPED ->
  sbi_hart_pmp_check_addr scratch saddr PMP_X (starting s i) = Ret 0 (starting s i) ->
  mem_val s (scratch + SBI_SCRATCH_PLATFORM_ADDR_OFFSET) <> 0 ->
  sbi_platform_has_hart_hotplug the_platform = false ->
  sbi_platform_has_hart_secondary_boot the_platform = false ->
  op_ipi_send (platform_ops the_platform) = Some send ->
  let sp := default 0 (scratch_table s !! i) in
  sbi_hsm_hart_start scratch i saddr priv s =
  (send i;; mret 0)
    (set_mem <[sp + SBI_SCRATCH_NEXT_ADDR_OFFSET := saddr]>
      (set_mem <[sp + SBI_SCRATCH_NEXT_ARG1_OFFSET := priv]>
        (set_mem <[hsm_cell s i := SBI_HART_STARTING]> s))).
Proof.
  intros Hi Hp Hok Hst Hpmp Hplat Hhp Hsb Hsend sp. rewrite hsm_state_cell in Hst by done.
  rewrite hart_start_won by done. rewrite (bind_ret_eq _ _ _ _ _ Hpmp). change (nz 0) with false. cbv iota.
  assert (Hc : exists n, sbi_init_count i (starting s i) = Ret n (starting s i)).
  { unfold sbi_init_count, sbi_hartid_to_scratch. rewrite (proj2 (Z.ltb_lt _ _)) by lia. mstep.
    destruct (_ =? 0); [by eexists|]. mstep. destruct (_ =? 0); by eexists. }
  destruct Hc as [n Hc]. rewrite (bind_ret_eq _ _ _ _ _ Hc). repeat mstep.
  rewrite (proj2 (Z.eqb_neq (mem_val s _) 0)) by done. rewrite Hhp, Hsb. simpl.
  unfold sbi_platform_ipi_send, plat_call. by rewrite Hsend.
Qed.

Lemma sbi_hsm_hart_start_ok_witness :
  exists s', @sbi_hsm_hart_start
      (Build_Platform (mkPlat 0 0 [] 0 2 8192 (console_ops 0) None) 0x80020000)
      0x80021000 1 0x80200000 7 two_fw_harts = Ret 0 s' /\
    mem_val s' (0x80023000 + SBI_SCRATCH_NEXT_ADDR_OFFSET) = 0x80200000 /\ events s' = [EvWrite 4 1 1].
Proof.
  eexists. split.
  - rewrite (@sbi_hsm_hart_start_ok pmp_plain_hw
      (Build_Platform (mkPlat 0 0 [] 0 2 8192 (console_ops 0) None) 0x80020000)
      two_fw_harts 0x80021000 1 0x80200000 7 (fun h => modify (add_event (EvWrite 4 h 1)))).
    + reflexivity.
    + unfold SBI_HARTMASK_MAX_BITS. lia.
    + vm_compute. discriminate.
    + vm_compute. split; discriminate.
    + vm_compute. reflexivity.
    + vm_compute. reflexivity.
    + vm_compute. discriminate.
    + reflexivity.
    + reflexivity.
    + reflexivity.
  - split; vm_compute; reflexivity.
Defined.

(** * The start protocol between harts

    One hart is the target of start requests from any number of others.  Each
    step is one access to the shared cells, in the order of the code. *)

(** Where a hart is inside [sbi_hsm_hart_start]. *)
Inductive starter_pc : Type :=
| SIdle
| SExchange (saddr : Z)
| SCheck (saddr : Z)
| SStore (saddr : Z)
| SNotify
| SDone (rc : Z).

(** Where the target is: in the next stage it was started at, between
    [sbi_hsm_hart_stop] and [sbi_hsm_exit], switched off by a platform with
    hotplug, in the loop of [sbi_hsm_hart_wait], past that loop, past [sbi_hsm_prepare_next_jump], or
    hung in one of the two error paths. *)
Inductive target_pc : Type :=
| TRunning (addr : Z)
| TExiting
| TOff
| TWaiting
| TWoken
| TPrepared
| THung.

Record hsm_proto : Type := mkProto {
  p_cell : Z;
  p_next_addr : Z;
  p_starter : Z -> starter_pc;
  p_target : target_pc
}.

Definition set_starter (p : hsm_proto) (h : Z) (pc : starter_pc) : Z -> starter_pc :=
  fun k => if k =? h then pc else p_starter p k.

Inductive hsm_step : hsm_proto -> hsm_proto -> Prop :=
| step_call p h saddr :
    p_starter p h = SIdle ->
    hsm_step p (mkProto (p_cell p) (p_next_addr p) (set_starter p h (SExchange saddr)) (p_target p))
| step_exchange p h saddr :
    p_starter p h = SExchange saddr ->
    hsm_step p
      (if p_cell p =? SBI_HART_STOPPED
       then mkProto SBI_HART_STARTING (p_next_addr p) (set_starter p h (SCheck saddr)) (p_target p)
       else mkProto (p_cell p) (p_next_addr p)
              (set_starter p h (SDone (if p_cell p =? SBI_HART_STARTED then SBI_EALREADY else SBI_EINVAL)))
              (p_target p))
| step_check_ok p h saddr :
    p_starter p h = SCheck saddr ->
    hsm_step p (mkProto (p_cell p) (p_next_addr p) (set_starter p h (SStore saddr)) (p_target p))
| step_check_fail p h saddr :
    p_starter p h = SCheck saddr ->
    hsm_step p (mkProto (p_cell p) (p_next_addr p) (set_starter p h (SDone SBI_EINVALID_ADDR)) (p_target p))
| step_store p h saddr :
    p_starter p h = SStore saddr ->
    hsm_step p (mkProto (p_cell p) saddr (set_starter p h SNotify) (p_target p))
| step_notify p h :
    p_starter p h = SNotify ->
    hsm_step p (mkProto (p_cell p) (p_next_addr p) (set_starter p h (SDone 0)) (p_target p))
| step_return p h rc :
    p_starter p h = SDone rc ->
    hsm_step p (mkProto (p_cell p) (p_next_addr p) (set_starter p h SIdle) (p_target p))
| step_stop p addr :
    p_target p = TRunning addr ->
    hsm_step p
      (if p_cell p =? SBI_HART_STARTED
       then mkProto SBI_HART_STOPPING (p_next_addr p) (p_starter p) TExiting else p)
| step_exit p :
    p_target p = TExiting ->
    hsm_step p
      (if p_cell p =? SBI_HART_STOPPING
       then mkProto SBI_HART_STOPPED (p_next_addr p) (p_starter p) TWaiting
       else mkProto (p_cell p) (p_next_addr p) (p_starter p) THung)
| step_exit_off p :
    p_target p = TExiting ->
    hsm_step p
      (if p_cell p =? SBI_HART_STOPPING
       then mkProto SBI_HART_STOPPED (p_next_addr p) (p_starter p) TOff
       else mkProto (p_cell p) (p_next_addr p) (p_starter p) THung)
| step_power_on p h rc :
    p_starter p h = SNotify -> p_target p = TOff ->
    hsm_step p (mkProto (p_cell p) (p_next_addr p) (set_starter p h (SDone rc)) (if rc =? 0 then TWaiting else TOff))
| step_wait p :
    p_target p = TWaiting ->
    hsm_step p
      (if p_cell p =? SBI_HART_STARTING
       then mkProto (p_cell p) (p_next_addr p) (p_starter p) TWoken else p)
| step_prepare p :
    p_target p = TWoken ->
    hsm_step p
      (if p_cell p =? SBI_HART_STARTING
       then mkProto SBI_HART_STARTED (p_next_addr p) (p_starter p) TPrepared
       else mkProto (p_cell p) (p_next_addr p) (p_starter p) THung)
| step_jump p :
    p_target p = TPrepared ->
    hsm_step p (mkProto (p_cell p) (p_next_addr p) (p_starter p) (TRunning (p_next_addr p))).

(** The target waits; its scratch area holds some earlier address. *)
Definition hsm_initial (addr0 : Z) : hsm_proto := mkProto SBI_HART_STOPPED addr0 (fun _ => SIdle) TWaiting.

Inductive hsm_reach (addr0 : Z) : hsm_proto -> Prop :=
| reach_init : hsm_reach addr0 (hsm_initial addr0)
| reach_step p q : hsm_reach addr0 p -> hsm_step p q -> hsm_reach addr0 q.

(** The cell agrees with where the target is. *)
Definition hsm_inv (p : hsm_proto) : Prop :=
  match p_target p with
  | TRunning _ | TPrepared => p_cell p = SBI_HART_STARTED
  | TExiting => p_cell p = SBI_HART_STOPPING
  | TOff | TWaiting => p_cell p = SBI_HART_STOPPED \/ p_cell p = SBI_HART_STARTING
  | TWoken => p_cell p = SBI_HART_STARTING
  | THung => False
  end.

Lemma hsm_inv_step p q : hsm_inv p -> hsm_step p q -> hsm_inv q.
Proof.
  intros Hinv Hstep. destruct Hstep; unfold hsm_inv in *; simpl in *; try done.
  - destruct (Z.eqb_spec (p_cell p) SBI_HART_STOPPED) as [E|]; simpl; [|done].
    rewrite E in Hinv. destruct (p_target p); simpl in *; try done; by right.
  - rewrite H in Hinv. rewrite Hinv. done.
  - rewrite H in Hinv. rewrite Hinv. by left.
  - rewrite H in Hinv. rewrite Hinv. by left.
  - rewrite H0 in Hinv. by destruct (rc =? 0).
  - rewrite H in Hinv. destruct (Z.eqb_spec (p_cell p) SBI_HART_STARTING); simpl; [done|]. by rewrite H.
  - rewrite H in Hinv. rewrite Hinv. done.
  - by rewrite H in Hinv.
Qed.

Lemma hsm_reach_inv addr0 p : hsm_reach addr0 p -> hsm_inv p.
Proof. induction 1; [by left|]. by eapply hsm_inv_step. Qed.

(** C3: in every interleaving of any number of harts calling
    [sbi_hsm_hart_start] with the target's own stop, exit, wait and jump, on
    platforms that switch a stopped hart off and on and on those that do not,
    the state cell agrees with what the target is doing, so neither of the
    target's error paths (a failed exit, a failed jump) is ever reached. *)
Theorem hsm_protocol_no_hang (addr0 : Z) (p : hsm_proto) :
  hsm_reach addr0 p ->
  p_target p <> THung /\
  (forall addr, p_target p = TRunning addr -> p_cell p = SBI_HART_STARTED) /\
  (p_target p = TExiting -> p_cell p = SBI_HART_STOPPING) /\
  (p_target p = TWaiting \/ p_target p = TOff -> p_cell p = SBI_HART_STOPPED \/ p_cell p = SBI_HART_STARTING).
Proof.
  intros Hr%hsm_reach_inv. unfold hsm_inv in Hr.
  destruct (p_target p); naive_solver.
Qed.

(** Hart 1 asks for an address; the target leaves its wait loop and jumps
    before hart 1 has stored it. *)
Lemma hsm_stale_run addr0 saddr :
  exists p, hsm_reach addr0 p /\ p_target p = TRunning addr0 /\
    p_starter p 1 = SCheck saddr /\ (forall h, h <> 1 -> p_starter p h = SIdle).
Proof.
  pose proof (reach_init addr0) as R.
  eassert (hsm_reach addr0 _) as R1 by (eapply reach_step; [exact R|by apply (step_call _ 1 saddr)]).
  eassert (hsm_reach addr0 _) as R2 by (eapply reach_step; [exact R1|by apply (step_exchange _ 1 saddr)]).
  eassert (hsm_reach addr0 _) as R3 by (eapply reach_step; [exact R2|by apply step_wait]).
  eassert (hsm_reach addr0 _) as R4 by (eapply reach_step; [exact R3|by apply step_prepare]).
  eassert (hsm_reach addr0 _) as R5 by (eapply reach_step; [exact R4|by apply step_jump]).
  eexists. split; [exact R5|]. split; [done|]. split; [done|].
  intros h Hh. simpl. unfold set_starter. simpl. by rewrite !(proj2 (Z.eqb_neq h 1)) by done.
Qed.

Lemma hsm_protocol_no_hang_witness :
  exists p, hsm_reach 0 p /\ p_target p <> THung /\ p_starter p 1 = SCheck 8.
Proof.
  destruct (hsm_stale_run 0 8) as (p & Hr & _ & Hs & _). exists p.
  destruct (hsm_protocol_no_hang 0 p Hr) as [Hn _]. auto.
Defined.

(** The target can be started at an address nobody asked for: since the
    starting state becomes visible before the entry address is stored, a
    target that is just entering its wait loop jumps to the address left from
    its previous start. *)
Theorem hsm_protocol_stale_address (addr0 saddr : Z) :
  exists p, hsm_reach addr0 p /\ p_target p = TRunning addr0 /\
    p_starter p 1 = SCheck saddr /\ (forall h, h <> 1 -> p_starter p h = SIdle).
Proof. apply hsm_stale_run. Qed.
