(* ===== verification/Tlb.v ===== *)
(** Remote TLB and instruction-cache flushes, lib/sbi/sbi_tlb.c and
    include/sbi/sbi_tlb.h: the flush requests, the queue each hart keeps of
    them, the merging of overlapping requests, and the handlers that the
    interrupt layer calls.  [sbi_tlb_request] and [sbi_tlb_init], which call
    that layer, are in Ipi.v. *)

From Stdlib Require Import String.
From S2P Require Import Prelude Encoding Bitops Cstring Locks Fifo Machine Format Platform Console Scratch.

Definition SBI_TLB_FLUSH_ALL : Z := ULONG_MAX.
Definition SBI_TLB_FIFO_NUM_ENTRIES : Z := 8.
Definition SBI_TLB_FLUSH_VMA : Z := 0.
Definition SBI_TLB_FLUSH_VMA_ASID : Z := 1.
Definition SBI_TLB_FLUSH_GVMA : Z := 2.
Definition SBI_TLB_FLUSH_GVMA_VMID : Z := 3.
Definition SBI_TLB_FLUSH_VVMA : Z := 4.
Definition SBI_TLB_FLUSH_VVMA_ASID : Z := 5.
Definition SBI_ITLB_FLUSH : Z := 6.
Definition HGATP_VMID_SHIFT : Z := 44.
Definition HGATP_VMID_MASK : Z := 0x03FFF00000000000.
Definition PAGE_SIZE : Z := 4096.

Record sbi_tlb_info : Type := mkTlb {
  tlb_start : Z;
  tlb_size : Z;
  tlb_asid : Z;
  tlb_vmid : Z;
  tlb_type : Z;
  tlb_smask : list Z
}.

#[global] Instance sbi_tlb_info_eq : EqDecision sbi_tlb_info.
Proof. solve_decision. Defined.

Definition SBI_TLB_INFO_INIT (start size asid vmid type src : Z) : sbi_tlb_info :=
  mkTlb start size asid vmid type (SBI_HARTMASK_INIT_EXCEPT [0; 0] src).
Definition SBI_TLB_INFO_SIZE : Z := 56.

(** The bytes of a request in a queue entry, and back. *)
Definition tlb_bytes (t : sbi_tlb_info) : list Z :=
  le_bytes 8 (tlb_start t) ++ le_bytes 8 (tlb_size t) ++ le_bytes 8 (tlb_asid t) ++
  le_bytes 8 (tlb_vmid t) ++ le_bytes 8 (tlb_type t) ++
  le_bytes 8 (nth 0 (tlb_smask t) 0) ++ le_bytes 8 (nth 1 (tlb_smask t) 0).
Definition word_at (k : nat) (l : list Z) : Z := le_word (take 8 (drop (8 * k) l)).
Definition tlb_of_bytes (l : list Z) : sbi_tlb_info :=
  mkTlb (word_at 0 l) (word_at 1 l) (word_at 2 l) (word_at 3 l) (word_at 4 l)
    [word_at 5 l; word_at 6 l].

(** * Local flushes *)

Section Flush.
Context `{Hardware} `{Platform}.

Definition insn (name : string) (args : list Z) : M unit := modify (add_event (EvInsn name args)).

Definition sbi_tlb_flush_all : M unit := insn "sfence.vma" [].

(** [for (i = 0; i < size; i += PAGE_SIZE) f(start + i)]: within a page of the
    end of the address space the counter wraps and the loop does not end. *)
Definition for_each_page (start size : Z) (f : Z -> M unit) : M unit :=
  if 2 ^ 64 - PAGE_SIZE <? size then exits XSpin
  else for_each (seqZ 0 ((size + PAGE_SIZE - 1) / PAGE_SIZE)) (fun k => f (u64 (start + PAGE_SIZE * k))).

Definition hgatp_vmid (vmid : Z) : Z := (vmid <<u HGATP_VMID_SHIFT) .& HGATP_VMID_MASK.
Definition is_zero_range (t : sbi_tlb_info) : bool := (tlb_start t =? 0) && (tlb_size t =? 0).
Definition is_flush_all (t : sbi_tlb_info) : bool := tlb_size t =? SBI_TLB_FLUSH_ALL.

Definition sbi_tlb_hfence_vvma (t : sbi_tlb_info) : M unit :=
  hgatp ← csr_swap CSR_HGATP (hgatp_vmid (tlb_vmid t));
  (if is_zero_range t || is_flush_all t then insn "hfence.vvma" []
   else for_each_page (tlb_start t) (tlb_size t) (fun a => insn "hfence.vvma va" [a]));;
  csr_write CSR_HGATP hgatp.

Definition sbi_tlb_hfence_gvma (t : sbi_tlb_info) : M unit :=
  if is_zero_range t || is_flush_all t then insn "hfence.gvma" []
  else for_each_page (tlb_start t) (tlb_size t) (fun a => insn "hfence.gvma gpa" [a]).

Definition sbi_tlb_sfence_vma (t : sbi_tlb_info) : M unit :=
  if is_zero_range t || is_flush_all t then sbi_tlb_flush_all
  else for_each_page (tlb_start t) (tlb_size t) (fun a => insn "sfence.vma va" [a]).

Definition sbi_tlb_hfence_vvma_asid (t : sbi_tlb_info) : M unit :=
  hgatp ← csr_swap CSR_HGATP (hgatp_vmid (tlb_vmid t));
  (if is_zero_range t then insn "hfence.vvma" []
   else if is_flush_all t then insn "hfence.vvma asid" [tlb_asid t]
   else for_each_page (tlb_start t) (tlb_size t) (fun a => insn "hfence.vvma va asid" [a; tlb_asid t]));;
  csr_write CSR_HGATP hgatp.

Definition sbi_tlb_hfence_gvma_vmid (t : sbi_tlb_info) : M unit :=
  if is_zero_range t then insn "hfence.gvma" []
  else if is_flush_all t then insn "hfence.gvma vmid" [tlb_vmid t]
  else for_each_page (tlb_start t) (tlb_size t) (fun a => insn "hfence.gvma gpa vmid" [a; tlb_vmid t]).

Definition sbi_tlb_sfence_vma_asid (t : sbi_tlb_info) : M unit :=
  if is_zero_range t then sbi_tlb_flush_all
  else if is_flush_all t then insn "sfence.vma asid" [tlb_asid t]
  else for_each_page (tlb_start t) (tlb_size t) (fun a => insn "sfence.vma va asid" [a; tlb_asid t]).

Definition sbi_tlb_local_flush (t : sbi_tlb_info) : M unit :=
  if tlb_type t =? SBI_TLB_FLUSH_VMA then sbi_tlb_sfence_vma t
  else if tlb_type t =? SBI_TLB_FLUSH_VMA_ASID then sbi_tlb_sfence_vma_asid t
  else if tlb_type t =? SBI_TLB_FLUSH_GVMA then sbi_tlb_hfence_gvma t
  else if tlb_type t =? SBI_TLB_FLUSH_GVMA_VMID then sbi_tlb_hfence_gvma_vmid t
  else if tlb_type t =? SBI_TLB_FLUSH_VVMA then sbi_tlb_hfence_vvma t
  else if tlb_type t =? SBI_TLB_FLUSH_VVMA_ASID then sbi_tlb_hfence_vvma_asid t
  else if tlb_type t =? SBI_ITLB_FLUSH then insn "fence.i" []
  else sbi_printf (chars "Invalid tlb flush request type [%lu]" ++ [10]) [VInt (tlb_type t)];; mret tt.

(** * Processing queued requests *)

Definition tlb_fifo_addr (scratch : Z) : M Z := off ← getg "tlb_fifo_off"; mret (scratch + off).
Definition tlb_sync_addr (scratch : Z) : M Z := off ← getg "tlb_sync_off"; mret (scratch + off).

(** Tell one requesting hart that its request is done:
    [while (atomic_raw_xchg_ulong(rtlb_sync, 1));] *)
Definition tlb_ack (rhartid : Z) : M unit :=
  rscratch ← sbi_hartid_to_scratch rhartid;
  when (nz rscratch)
    (a ← tlb_sync_addr rscratch;
     poll (v ← atomic_raw_xchg_ulong a 1; mret (if nz v then None else Some tt))).

Definition sbi_tlb_entry_process (t : sbi_tlb_info) : M unit :=
  sbi_tlb_local_flush t;;
  for_each (sbi_hartmask_for_each_hart (tlb_smask t)) tlb_ack.

(** [sbi_fifo_dequeue(tlb_fifo, &tinfo)]: the result and the entry. *)
Definition tlb_dequeue (a : Z) : M (Z * list Z) :=
  with_fifo a (fun f =>
    '(rc, f, d) ← sbi_fifo_dequeue f (Some (replicate 56 0));
    Some ((rc, default [] d), f)).

Fixpoint process_count_loop (n : nat) (a : Z) : M unit :=
  match n with
  | O => mret tt
  | S n =>
      '(rc, d) ← tlb_dequeue a;
      if nz rc then mret tt
      else sbi_tlb_entry_process (tlb_of_bytes d);; process_count_loop n a
  end.
(** The loop leaves after [count + 1] entries. *)
Definition sbi_tlb_process_count (scratch : Z) (count : nat) : M unit :=
  a ← tlb_fifo_addr scratch; process_count_loop (S count) a.

Definition tlb_process_one (a : Z) : M bool :=
  '(rc, d) ← tlb_dequeue a;
  if nz rc then mret false
  else sbi_tlb_entry_process (tlb_of_bytes d);; mret true.
Definition sbi_tlb_process (scratch : Z) : M unit :=
  a ← tlb_fifo_addr scratch; loop_while polls (tlb_process_one a).

Definition sbi_tlb_sync (scratch : Z) : M unit :=
  a ← tlb_sync_addr scratch;
  poll (v ← atomic_raw_xchg_ulong a 0;
        if nz v then mret (Some tt) else sbi_tlb_process_count scratch 1;; mret None).
End Flush.

(** * Merging *)

(** The result code and the entry after the check. *)
Definition __sbi_tlb_range_check (curr next : sbi_tlb_info) : Z * sbi_tlb_info :=
  let next_end := u64 (tlb_start next + tlb_size next) in
  let curr_end := u64 (tlb_start curr + tlb_size curr) in
  let mask := sbi_hartmask_or (tlb_smask curr) (tlb_smask curr) (tlb_smask next) in
  if (tlb_start next <=? tlb_start curr) && (curr_end <? next_end) then
    (SBI_FIFO_UPDATED,
     mkTlb (tlb_start next) (tlb_size next) (tlb_asid curr) (tlb_vmid curr) (tlb_type curr) mask)
  else if (tlb_start curr <=? tlb_start next) && (next_end <=? curr_end) then
    (SBI_FIFO_SKIP,
     mkTlb (tlb_start curr) (tlb_size curr) (tlb_asid curr) (tlb_vmid curr) (tlb_type curr) mask)
  else (SBI_FIFO_UNCHANGED, curr).

Definition tlb_update_info (next curr : sbi_tlb_info) : Z * sbi_tlb_info :=
  if (tlb_type next =? SBI_TLB_FLUSH_VMA_ASID) && (tlb_type curr =? SBI_TLB_FLUSH_VMA_ASID) then
    if tlb_asid next =? tlb_asid curr then __sbi_tlb_range_check curr next else (SBI_FIFO_UNCHANGED, curr)
  else if (tlb_type next =? SBI_TLB_FLUSH_VMA) && (tlb_type curr =? SBI_TLB_FLUSH_VMA) then
    __sbi_tlb_range_check curr next
  else (SBI_FIFO_UNCHANGED, curr).

(** The callback on the bytes of the new request and of a queued one. *)
Definition sbi_tlb_update_cb (input data : list Z) : Z * list Z :=
  let '(ret, curr) := tlb_update_info (tlb_of_bytes input) (tlb_of_bytes data) in (ret, tlb_bytes curr).

Section Update.
Context `{Hardware} `{Platform}.

(** [while (sbi_fifo_enqueue(...) < 0) { ... }] *)
Definition tlb_enqueue_wait (scratch a : Z) (t : sbi_tlb_info) (curr_hartid remote_hartid : Z) : M unit :=
  poll (rc ← with_fifo a (fun f => sbi_fifo_enqueue f (Some (tlb_bytes t)));
        if rc <? 0 then
          sbi_tlb_process_count scratch 1;;
          sbi_dprintf (chars "hart%d: hart%d tlb fifo full" ++ [10]) [VInt curr_hartid; VInt remote_hartid];;
          mret None
        else mret (Some tt)).

(** The result and the request, which an oversized range changes in place. *)
Definition sbi_tlb_update (scratch remote_scratch remote_hartid : Z) (t : sbi_tlb_info) :
    M (Z * sbi_tlb_info) :=
  curr_hartid ← current_hartid;
  limit ← getg "tlb_range_flush_limit";
  let t :=
    if limit <? tlb_size t
    then mkTlb 0 SBI_TLB_FLUSH_ALL (tlb_asid t) (tlb_vmid t) (tlb_type t) (tlb_smask t) else t in
  if remote_hartid =? curr_hartid then sbi_tlb_local_flush t;; mret (-1, t)
  else
    a ← tlb_fifo_addr remote_scratch;
    ret ← with_fifo a (fun f => sbi_fifo_inplace_update sbi_tlb_update_cb f (Some (tlb_bytes t)));
    if negb (ret =? SBI_FIFO_UNCHANGED) then mret (1, t)
    else tlb_enqueue_wait scratch a t curr_hartid remote_hartid;; mret (0, t).
End Update.

(** * Requests as bytes *)

Definition tlb_wf (t : sbi_tlb_info) : Prop :=
  fits 64 (tlb_start t) /\ fits 64 (tlb_size t) /\ fits 64 (tlb_asid t) /\ fits 64 (tlb_vmid t) /\
  fits 64 (tlb_type t) /\ hartmask_ok (tlb_smask t).

Lemma take_bytes x l : take 8 (le_bytes 8 x ++ l) = le_bytes 8 x.
Proof. rewrite take_app_le by (by rewrite length_le_bytes). apply take_ge. by rewrite length_le_bytes. Qed.
Lemma drop_bytes x l n : drop (8 + n) (le_bytes 8 x ++ l) = drop n l.
Proof. rewrite drop_app_ge by (rewrite length_le_bytes; lia). rewrite length_le_bytes. f_equal. lia. Qed.

Lemma tlb_of_bytes_bytes t : tlb_wf t -> tlb_of_bytes (tlb_bytes t) = t.
Proof.
  intros (H1 & H2 & H3 & H4 & H5 & Hm & Hl). destruct t as [start size asid vmid type smask].
  unfold tlb_of_bytes, tlb_bytes, word_at. cbn [tlb_start tlb_size tlb_asid tlb_vmid tlb_type tlb_smask] in *.
  destruct smask as [|m0 [|m1 []]]; try done. inversion_clear Hm as [|? ? Hm0 Hm']. inversion_clear Hm' as [|? ? Hm1 _].
  cbn [nth Nat.mul Nat.add].
  change 48%nat with (8 + (8 + (8 + (8 + (8 + (8 + 0))))))%nat. change 40%nat with (8 + (8 + (8 + (8 + (8 + 0)))))%nat.
  change 32%nat with (8 + (8 + (8 + (8 + 0))))%nat. change 24%nat with (8 + (8 + (8 + 0)))%nat.
  change 16%nat with (8 + (8 + 0))%nat. change (drop 8) with (@drop Z (8 + 0)).
  rewrite !drop_bytes, !drop_0, !take_bytes. rewrite (take_ge (le_bytes 8 m1)) by done.
  by rewrite !le_word_bytes64.
Qed.

Lemma length_tlb_bytes t : length (tlb_bytes t) = 56%nat.
Proof. unfold tlb_bytes. by rewrite !length_app, !length_le_bytes. Qed.

(** * Merging is sound *)

(** The addresses a request flushes. *)
Definition flushes (t : sbi_tlb_info) (a : Z) : Prop :=
  is_zero_range t = true \/ is_flush_all t = true \/ tlb_start t <= a < tlb_start t + tlb_size t.

(** A request given as a range: not the pair of zeros, and inside the address
    space. *)
Definition range_request (t : sbi_tlb_info) : Prop :=
  is_zero_range t = false /\ tlb_start t + tlb_size t < 2 ^ 64.

(** The address space a request names, as far as its type looks at it. *)
Definition same_space (e t : sbi_tlb_info) : Prop :=
  tlb_type e = tlb_type t /\
  (tlb_type t = SBI_TLB_FLUSH_VMA \/ tlb_type t = SBI_TLB_FLUSH_VMA_ASID /\ tlb_asid e = tlb_asid t \/
   tlb_asid e = tlb_asid t /\ tlb_vmid e = tlb_vmid t).

(** Serving [e] tells every hart that waits for [t], in the same address
    space, that its request is done. *)
Definition answers (e t : sbi_tlb_info) : Prop :=
  same_space e t /\
  (forall h, 0 <= h < SBI_HARTMASK_MAX_BITS -> bit (tlb_smask t) h = true -> bit (tlb_smask e) h = true).

(** Serving [e] flushes what [t] asks for. *)
Definition subsumes (e t : sbi_tlb_info) : Prop :=
  forall a, 0 <= a < 2 ^ 64 - 1 -> flushes t a -> flushes e a.

(** Serving [e] answers [t], after flushing what [t] asks for when that is
    given as a range. *)
Definition serves (e t : sbi_tlb_info) : Prop :=
  answers e t /\ (range_request t -> subsumes e t).

Lemma serves_refl t : serves t t.
Proof. split; [repeat split; auto|]. by intros _ a. Qed.

Lemma flush_all_range t :
  tlb_wf t -> range_request t -> is_flush_all t = true -> tlb_start t = 0 /\ tlb_size t = 2 ^ 64 - 1.
Proof.
  intros (Hs & _) [_ Hr] Hf. apply Z.eqb_eq in Hf. unfold SBI_TLB_FLUSH_ALL, ULONG_MAX, fits in *. lia.
Qed.

(** In a range request the flushed addresses are those of the range. *)
Lemma flushes_range t a :
  tlb_wf t -> range_request t -> 0 <= a < 2 ^ 64 - 1 ->
  flushes t a <-> tlb_start t <= a < tlb_start t + tlb_size t.
Proof.
  intros Hwf Hr Ha. unfold flushes. split; [|tauto].
  intros [Hz|[Hf|?]]; [|destruct (flush_all_range t Hwf Hr Hf); lia|done].
  destruct Hr as [Hz' _]. congruence.
Qed.

(** A range request lies in every request that starts no later and whose end,
    computed at 64 bits, is no earlier: an end that wraps around is below the
    start it was computed from. *)
Lemma subsumes_range e t :
  tlb_wf e -> tlb_wf t -> tlb_start e <= tlb_start t ->
  u64 (tlb_start t + tlb_size t) <= u64 (tlb_start e + tlb_size e) -> range_request t -> subsumes e t.
Proof.
  intros (Hs & Hz & _) Hwt Hst Hend Hr a Ha Hf. apply flushes_range in Hf; [|done..].
  destruct Hr as [_ Hr]. destruct Hwt as (Hts & Htz & _). unfold fits in *.
  right. right. unfold u64 in Hend. rewrite (wrap_small 64 (_ t + _)) in Hend by (unfold fits; lia).
  destruct (Z.lt_ge_cases (tlb_start e + tlb_size e) (2 ^ 64)).
  - rewrite wrap_small in Hend by (unfold fits; lia). lia.
  - unfold wrap in Hend. rewrite <- (Z_mod_plus_full _ (-1)), Z.mod_small in Hend by lia. lia.
Qed.

Lemma subsumes_same e t : tlb_start e = tlb_start t -> tlb_size e = tlb_size t -> subsumes e t.
Proof. intros E1 E2 a _. unfold flushes, is_zero_range, is_flush_all. by rewrite E1, E2. Qed.

Lemma range_check_sound curr next ret curr' :
  tlb_wf curr -> tlb_wf next -> same_space curr next ->
  __sbi_tlb_range_check curr next = (ret, curr') -> ret <> SBI_FIFO_UNCHANGED ->
  serves curr' curr /\ serves curr' next /\ tlb_wf curr'.
Proof.
  intros Hwc Hwn Hsp E Hne. unfold __sbi_tlb_range_check in E.
  pose proof Hwc as (Hcs & Hcz & ? & ? & ? & Hcm). pose proof Hwn as (Hns & Hnz & ? & ? & ? & Hnm).
  set (m := sbi_hartmask_or _ _ _) in E.
  assert (Hmask : forall h, 0 <= h < SBI_HARTMASK_MAX_BITS ->
    bit m h = bit (tlb_smask curr) h || bit (tlb_smask next) h).
  { intros h Hh. apply hartmask_or_bit; [apply Hcm|apply Hnm|done]. }
  pose proof (hartmask_ok_or _ _ Hcm Hnm) as Hmok. fold m in Hmok.
  assert (Ha : forall start size, let e := mkTlb start size (tlb_asid curr) (tlb_vmid curr) (tlb_type curr) m in
    fits 64 start -> fits 64 size -> answers e curr /\ answers e next /\ tlb_wf e).
  { intros start size e. split; [|split]; [| |unfold tlb_wf; simpl; tauto]; (split; [first [exact Hsp|repeat split; auto]|]);
      intros h Hh Hb; simpl; rewrite Hmask, Hb by done; [done|apply orb_true_r]. }
  destruct (_ && _) eqn:G1 in E; [|destruct (_ && _) eqn:G2 in E]; injection E as <- <-; [| |done].
  - apply andb_true_iff in G1 as [G1a%Z.leb_le G1b%Z.ltb_lt].
    destruct (Ha (tlb_start next) (tlb_size next)) as (? & ? & ?); [done..|].
    split; [|split; [|done]]; split; try done; intros Hr;
      [apply subsumes_range; simpl; done || lia|by apply subsumes_same].
  - apply andb_true_iff in G2 as [G2a%Z.leb_le G2b%Z.leb_le].
    destruct (Ha (tlb_start curr) (tlb_size curr)) as (? & ? & ?); [done..|].
    split; [|split; [|done]]; split; try done; intros Hr;
      [by apply subsumes_same|apply subsumes_range; simpl; done || lia].
Qed.

Lemma range_check_ret curr next r c :
  __sbi_tlb_range_check curr next = (r, c) ->
  (r = SBI_FIFO_UNCHANGED /\ c = curr) \/ (r = SBI_FIFO_SKIP \/ r = SBI_FIFO_UPDATED).
Proof. unfold __sbi_tlb_range_check. repeat case_match; intros; simplify_eq; auto. Qed.

Lemma update_info_sound curr next ret curr' :
  tlb_wf curr -> tlb_wf next -> tlb_update_info next curr = (ret, curr') ->
  (ret = SBI_FIFO_UNCHANGED /\ curr' = curr) \/
  ((ret = SBI_FIFO_SKIP \/ ret = SBI_FIFO_UPDATED) /\
   serves curr' curr /\ serves curr' next /\ tlb_wf curr').
Proof.
  intros Hwc Hwn E.
  assert (Hgo : same_space curr next -> __sbi_tlb_range_check curr next = (ret, curr') ->
    (ret = SBI_FIFO_UNCHANGED /\ curr' = curr) \/
    ((ret = SBI_FIFO_SKIP \/ ret = SBI_FIFO_UPDATED) /\
     serves curr' curr /\ serves curr' next /\ tlb_wf curr')).
  { intros Hsp E'. destruct (range_check_ret _ _ _ _ E') as [?|Hr]; [auto|right].
    split; [done|]. eapply range_check_sound; try done. by destruct Hr; subst. }
  unfold tlb_update_info in E.
  destruct (_ && _) eqn:G1 in E; [|destruct (_ && _) eqn:G2 in E; [|simplify_eq; auto]].
  - apply andb_true_iff in G1 as [G1a%Z.eqb_eq G1b%Z.eqb_eq].
    destruct (Z.eqb_spec (tlb_asid next) (tlb_asid curr)) as [Ha|]; [|simplify_eq; auto].
    apply Hgo; [|done]. split; [congruence|]. auto.
  - apply andb_true_iff in G2 as [G2a%Z.eqb_eq G2b%Z.eqb_eq].
    apply Hgo; [|done]. split; [congruence|]. auto.
Qed.

(** Every request of [l] is served by one of [l']. *)
Definition all_served (l' l : list sbi_tlb_info) : Prop :=
  forall t, t ∈ l -> exists e, e ∈ l' /\ serves e t.

(** One pass of merging over a queue of requests: either nothing
    changes, or one of the queued requests has been widened to the new one. *)
Lemma update_spec_sound t l :
  tlb_wf t -> Forall tlb_wf l ->
  exists ret l', update_spec sbi_tlb_update_cb (tlb_bytes t) (tlb_bytes <$> l) SBI_FIFO_UNCHANGED =
      (ret, tlb_bytes <$> l') /\ Forall tlb_wf l' /\
    ((ret = SBI_FIFO_UNCHANGED /\ l' = l) \/
     (ret <> SBI_FIFO_UNCHANGED /\ length l' = length l /\ all_served l' (t :: l))).
Proof.
  intros Ht. induction l as [|c l IH]; intros Hl.
  { exists SBI_FIFO_UNCHANGED, []. auto. }
  apply Forall_cons in Hl as [Hc Hl]. rewrite fmap_cons. cbn [update_spec].
  unfold sbi_tlb_update_cb at 1.
  rewrite !tlb_of_bytes_bytes by done. destruct (tlb_update_info t c) as [r c'] eqn:E.
  destruct (update_info_sound c t r c') as [[-> ->]|(Hr & S1 & S2 & Hw')]; try done.
  - destruct (IH Hl) as (r & l' & E' & Hl' & Hcase).
    change ((SBI_FIFO_UNCHANGED =? SBI_FIFO_SKIP) || (SBI_FIFO_UNCHANGED =? SBI_FIFO_UPDATED)) with false.
    cbv iota. rewrite E'. exists r, (c :: l'). split; [done|].
    split; [by constructor|]. destruct Hcase as [[-> ->]|(? & ? & Hs)]; [auto|].
    right. split; [done|]. split; [simpl; lia|]. intros x [->|[->|Hx]%elem_of_cons]%elem_of_cons.
    + destruct (Hs t) as (e & ? & ?); [rewrite elem_of_cons; auto|]. exists e. rewrite elem_of_cons. auto.
    + exists c. split; [rewrite !elem_of_cons; auto|apply serves_refl].
    + destruct (Hs x) as (e & ? & ?); [rewrite elem_of_cons; auto|]. exists e. rewrite elem_of_cons. auto.
  - assert ((r =? SBI_FIFO_SKIP) || (r =? SBI_FIFO_UPDATED) = true) as -> by (by destruct Hr; subst).
    exists r, (c' :: l). split; [done|]. split; [by constructor|]. right.
    split; [by destruct Hr; subst|]. split; [done|]. intros x [->|[->|Hx]%elem_of_cons]%elem_of_cons.
    + exists c'. rewrite elem_of_cons. auto.
    + exists c'. rewrite elem_of_cons. auto.
    + exists x. split; [rewrite !elem_of_cons; auto|apply serves_refl].
Qed.

Lemma update_cb_length t e : length (snd (sbi_tlb_update_cb t e)) = 56%nat.
Proof. unfold sbi_tlb_update_cb. destruct (tlb_update_info _ _). apply length_tlb_bytes. Qed.

Lemma with_fifo_eq {A} a op (r : A) f' s :
  op (Some (fifo_at s a)) = Some (r, Some f') -> with_fifo a op s = Ret r (set_queues <[a := f']> s).
Proof. intros E. unfold with_fifo. mstep. rewrite E. by mstep. Qed.

Lemma fifo_at_set s a f : fifo_at (set_queues <[a := f]> s) a = f.
Proof. unfold fifo_at. simpl. by rewrite lookup_insert_eq. Qed.
Lemma set_queues_twice s a f g :
  set_queues <[a := g]> (set_queues <[a := f]> s) = set_queues <[a := g]> s.
Proof. unfold set_queues. simpl. by rewrite insert_insert_eq. Qed.

(** The request after the limit on its size is applied. *)
Definition limited (s : st) (t : sbi_tlb_info) : sbi_tlb_info :=
  if gval s "tlb_range_flush_limit" <? tlb_size t
  then mkTlb 0 SBI_TLB_FLUSH_ALL (tlb_asid t) (tlb_vmid t) (tlb_type t) (tlb_smask t) else t.

Lemma limited_wf s t : tlb_wf t -> tlb_wf (limited s t).
Proof.
  intros (? & ? & ? & ? & ? & ?). unfold limited. case_match; [|done].
  unfold tlb_wf. simpl. unfold fits in *. unfold SBI_TLB_FLUSH_ALL, ULONG_MAX. repeat split; lia || apply H4.
Qed.

Lemma tlb_enqueue_wait_room `{Hardware} `{Platform} scratch a t ch rh f' s :
  (0 < polls)%nat -> sbi_fifo_enqueue (Some (fifo_at s a)) (Some (tlb_bytes t)) = Some (0, Some f') ->
  tlb_enqueue_wait scratch a t ch rh s = Ret tt (set_queues <[a := f']> s).
Proof.
  intros Hp E. unfold tlb_enqueue_wait, poll. destruct polls; [lia|]. cbn [wait_until].
  rewrite bind_assoc. by rewrite (bind_ret_eq _ _ _ _ _ (with_fifo_eq _ _ _ _ _ E)).
Qed.

(** C22: [sbi_tlb_update] for another hart whose queue has room: it returns 0
    or 1, nothing changes but that hart's queue, and every request that was
    pending there and the new one (a full flush when its size exceeds the
    limit) has a pending entry that answers it: same kind and address space,
    with every hart waiting for the request in the mask of the entry.  When
    the request is a range that ends inside the address space, the entry also
    flushes all of its addresses.  The flushes of the two other kinds of
    request, the pair of zeros and a range up to the end of the address
    space, are not promised: merging may lose them, as
    [tlb_merge_loses_full_flush] and [tlb_merge_loses_last_page] show. *)
Theorem sbi_tlb_update_serves `{Hardware} `{Platform} s scratch rscratch rhart t l :
  let a := rscratch + gval s "tlb_fifo_off" in
  rhart <> u32 (csr_val s (cur s) CSR_MHARTID) -> (0 < polls)%nat ->
  tlb_wf t -> Forall tlb_wf l ->
  fifo_ok (fifo_at s a) -> entry_size (fifo_at s a) = SBI_TLB_INFO_SIZE ->
  avail (fifo_at s a) < num_entries (fifo_at s a) -> abs (fifo_at s a) = tlb_bytes <$> l ->
  exists ret f' l', sbi_tlb_update scratch rscratch rhart t s = Ret (ret, limited s t) (set_queues <[a := f']> s) /\
    (ret = 0 \/ ret = 1) /\ fifo_ok f' /\ abs f' = tlb_bytes <$> l' /\ Forall tlb_wf l' /\
    all_served l' (limited s t :: l).
Proof.
  intros a Hh Hp Ht Hl Hok Hsz Hav Habs. unfold sbi_tlb_update. repeat mstep.
  fold (limited s t). rewrite (proj2 (Z.eqb_neq _ _) Hh). unfold tlb_fifo_addr. repeat mstep. fold a.
  pose proof (limited_wf s t Ht) as Ht'. set (t' := limited s t) in *.
  destruct (inplace_update_ok sbi_tlb_update_cb (fifo_at s a) (tlb_bytes t'))
    as (f1 & E1 & Hok1 & Habs1 & Hsz1 & Hnum1); [done|by intros e ->; rewrite update_cb_length, Hsz|].
  rewrite (bind_ret_eq _ _ _ _ _ (with_fifo_eq _ _ _ _ _ E1)). pose proof (length_abs _ (proj1 Hok)) as La.
  rewrite Habs in *.
  destruct (update_spec_sound t' l Ht' Hl) as (ret & l' & E & Hl' & Hcase). rewrite E in *. simpl in *.
  destruct Hcase as [[-> ->]|(Hne & Hlen & Hs)].
  2:{ rewrite (proj2 (Z.eqb_neq _ _) Hne). simpl. exists 1, f1, l'. auto 10. }
  change (negb (SBI_FIFO_UNCHANGED =? SBI_FIFO_UNCHANGED)) with false. cbv iota.
  pose proof (length_abs _ (proj1 Hok1)) as La1. rewrite Habs1 in La1.
  pose proof (ok_avail _ (proj1 Hok1)). pose proof (ok_avail _ (proj1 Hok)).
  pose proof (enqueue_ok f1 (tlb_bytes t') Hok1) as He.
  rewrite (proj2 (Z.eqb_neq (avail f1) _)) in He by lia.
  destruct He as (f2 & E2 & Hok2 & Habs2); [by rewrite length_tlb_bytes, Hsz1, Hsz|].
  exists 0, f2, (l ++ [t']). rewrite <- (fifo_at_set s a f1) in E2.
  erewrite bind_ret_eq; [|by apply tlb_enqueue_wait_room].
  rewrite set_queues_twice, fmap_app, <- Habs1. split; [done|]. do 3 (split; [by auto|]).
  split; [apply Forall_app; auto|]. intros x Hx. exists x. split; [|apply serves_refl].
  rewrite elem_of_app, list_elem_of_singleton. apply elem_of_cons in Hx. tauto.
Qed.

(** [tlb_wf] as a check. *)
Definition fits64b (x : Z) : bool := (0 <=? x) && (x <? 2 ^ 64).
Definition tlb_wfb (t : sbi_tlb_info) : bool :=
  forallb fits64b ([tlb_start t; tlb_size t; tlb_asid t; tlb_vmid t; tlb_type t] ++ tlb_smask t) &&
  (length (tlb_smask t) =? 2)%nat.
Lemma tlb_wf_dec t : tlb_wfb t = true -> tlb_wf t.
Proof.
  assert (Hf : forall x, fits64b x = true -> fits 64 x).
  { intros x. unfold fits64b. rewrite andb_true_iff, Z.leb_le, Z.ltb_lt. done. }
  unfold tlb_wfb. rewrite !andb_true_iff, Nat.eqb_eq, forallb_app.
  simpl. rewrite !andb_true_iff, forallb_forall.
  intros [[(H1 & H2 & H3 & H4 & H5 & _) Hm] Hl].
  do 5 (split; [by apply Hf|]). split; [|done]. apply List.Forall_forall. auto.
Qed.

Definition tlb_platform : Platform := Build_Platform (mkPlat 0 0 [] 0 2 8192 no_ops None) 0x80020000.
Definition demo_queue : sbi_fifo :=
  default (mkFifo [] 0 0 0 0 0)
    (r ← sbi_fifo_enqueue (Some (sbi_fifo_init (replicate 448 0) 8 56))
          (Some (tlb_bytes (mkTlb 0x1000 0x2000 0 0 SBI_TLB_FLUSH_VMA [1; 0]))); snd r).
Definition demo_state : st :=
  set_queues <[0x8001f040 := demo_queue]>
    (set_glob (fun g => <["tlb_fifo_off"%string := 64]> (<["tlb_range_flush_limit"%string := 0x10000]> g)) boot_st).

Definition demo_request : sbi_tlb_info := mkTlb 0 0x4000 0 0 SBI_TLB_FLUSH_VMA [2; 0].

Lemma sbi_tlb_update_serves_witness :
  exists ret f' l', @sbi_tlb_update plain_hw tlb_platform 0x8001e000 0x8001f000 1 demo_request demo_state =
    Ret (ret, limited demo_state demo_request)
      (set_queues <[0x8001f000 + gval demo_state "tlb_fifo_off" := f']> demo_state) /\
    (ret = 0 \/ ret = 1) /\ fifo_ok f' /\ abs f' = tlb_bytes <$> l' /\ Forall tlb_wf l' /\
    all_served l' [limited demo_state demo_request; mkTlb 0x1000 0x2000 0 0 SBI_TLB_FLUSH_VMA [1; 0]].
Proof.
  apply (@sbi_tlb_update_serves plain_hw tlb_platform).
  - vm_compute. discriminate.
  - simpl. lia.
  - by apply tlb_wf_dec.
  - constructor; [|constructor]. by apply tlb_wf_dec.
  - vm_compute. split; [|reflexivity]. constructor; vm_compute; repeat split; discriminate || reflexivity.
  - vm_compute. reflexivity.
  - vm_compute. reflexivity.
  - vm_compute. reflexivity.
Defined.

(** The pair [start = 0, size = 0] asks for a flush of everything, but
    merging takes it for the empty range at 0.  A queued range that starts at
    0 absorbs such a request (answer SKIP), and a queued request of that kind
    is narrowed to a later range that starts at 0 (answer UPDATED): in both
    cases what is left in the queue does not flush the first address after
    the range, which the full flush covers. *)
Theorem tlb_merge_loses_full_flush range full :
  tlb_type range = SBI_TLB_FLUSH_VMA -> tlb_type full = SBI_TLB_FLUSH_VMA ->
  tlb_start range = 0 -> 0 < tlb_size range < SBI_TLB_FLUSH_ALL ->
  tlb_start full = 0 -> tlb_size full = 0 ->
  flushes full (tlb_size range) /\
  (exists e, tlb_update_info full range = (SBI_FIFO_SKIP, e) /\ ~ flushes e (tlb_size range)) /\
  (exists e, tlb_update_info range full = (SBI_FIFO_UPDATED, e) /\ ~ flushes e (tlb_size range)).
Proof.
  unfold SBI_TLB_FLUSH_ALL, ULONG_MAX. intros Ht1 Ht2 Hs Hz Hs0 Hz0.
  assert (Hno : forall e, tlb_start e = 0 -> tlb_size e = tlb_size range -> ~ flushes e (tlb_size range)).
  { intros e E1 E2. unfold flushes, is_zero_range, is_flush_all. rewrite E1, E2.
    rewrite andb_true_iff, !Z.eqb_eq. unfold SBI_TLB_FLUSH_ALL, ULONG_MAX. lia. }
  split; [left; unfold is_zero_range; by rewrite Hs0, Hz0|].
  unfold tlb_update_info, __sbi_tlb_range_check. rewrite Ht1, Ht2, Hs, Hs0, Hz0, !Z.add_0_l.
  unfold u64. rewrite !wrap_small by (unfold fits; lia). simpl andb.
  rewrite (proj2 (Z.ltb_ge (tlb_size range) 0)), (proj2 (Z.ltb_lt 0 (tlb_size range))),
    (proj2 (Z.leb_le 0 (tlb_size range))) by lia. simpl.
  split; eexists; (split; [reflexivity|by apply Hno]).
Qed.

Lemma tlb_merge_loses_full_flush_witness :
  let range := mkTlb 0 0x1000 0 0 SBI_TLB_FLUSH_VMA [1; 0] in
  let full := mkTlb 0 0 0 0 SBI_TLB_FLUSH_VMA [2; 0] in
  exists e, tlb_update_info full range = (SBI_FIFO_SKIP, e) /\ ~ flushes e 0x1000.
Proof.
  intros range full.
  apply (tlb_merge_loses_full_flush range full); vm_compute; try split; reflexivity.
Defined.

(** The end of a range up to the end of the address space is computed as 0,
    so any queued range that starts no later absorbs it (answer SKIP), also
    one that ends before it and leaves its first address unflushed. *)
Lemma tlb_merge_loses_last_page range last :
  tlb_type range = SBI_TLB_FLUSH_VMA -> tlb_type last = SBI_TLB_FLUSH_VMA ->
  0 < tlb_size range < SBI_TLB_FLUSH_ALL -> 0 <= tlb_start range ->
  tlb_start range + tlb_size range <= tlb_start last -> tlb_start last + tlb_size last = 2 ^ 64 -> 0 < tlb_size last ->
  flushes last (tlb_start last) /\
  exists e, tlb_update_info last range = (SBI_FIFO_SKIP, e) /\ ~ flushes e (tlb_start last).
Proof.
  unfold SBI_TLB_FLUSH_ALL, ULONG_MAX. intros Ht1 Ht2 Hz Hs Hl Hend Hlz. split; [right; right; lia|].
  unfold tlb_update_info, __sbi_tlb_range_check. rewrite Ht1, Ht2, Hend. simpl andb. cbv iota.
  change (u64 (2 ^ 64)) with 0. unfold u64. rewrite wrap_small by (unfold fits; lia).
  rewrite (proj2 (Z.ltb_ge _ 0)), andb_false_r, !(proj2 (Z.leb_le _ _)) by lia. simpl.
  eexists. split; [done|]. unfold flushes, is_zero_range, is_flush_all. simpl.
  rewrite andb_true_iff, !Z.eqb_eq. unfold SBI_TLB_FLUSH_ALL, ULONG_MAX. lia.
Qed.

(** [sbi_tlb_process_count] with a count of 1 takes two requests. *)
Example process_count_one_takes_two :
  let q := default demo_queue (r ← sbi_fifo_enqueue (Some demo_queue)
             (Some (tlb_bytes (mkTlb 0x9000 0x1000 0 0 SBI_TLB_FLUSH_VMA [0; 0]))); snd r) in
  match @sbi_tlb_process_count plain_hw tlb_platform 0x8001f000 1 (set_queues <[0x8001f040 := q]> demo_state) with
  | Ret _ s => (avail q, avail (fifo_at s 0x8001f040)) = (2, 0)
  | Exit _ _ => False
  end.
Proof. vm_compute. reflexivity. Qed.
