(* ===== verification/Ipi.v ===== *)
(** Inter-processor interrupts, lib/sbi/sbi_ipi.c, with the two functions of
    lib/sbi/sbi_tlb.c that call it ([sbi_tlb_request], [sbi_tlb_init]).

    The event handlers are the three the firmware registers; [ipi_ops_array]
    says which slot holds which.  The handler of the halt event does not return
    when the hart stops: [sbi_exit], defined with the boot flow, is an
    argument. *)

From Stdlib Require Import String.
From S2P Require Import Prelude Encoding Bitops Cstring Locks Fifo Machine Format Platform Console Scratch Asm Hart Hsm Tlb.

Definition SBI_IPI_EVENT_MAX : Z := 64.

Section Ipi.
Context `{Hardware} `{Platform}.

(** [ipi_ops->update], where there is one; the request may be changed. *)
Definition ipi_update (ops : ipi_ops_id) (scratch rscratch rhart : Z) (data : option sbi_tlb_info) :
    M (Z * option sbi_tlb_info) :=
  match ops with
  | tlb_ops =>
      match data with
      | Some t => '(ret, t) ← sbi_tlb_update scratch rscratch rhart t; mret (ret, Some t)
      | None => exits XUndef
      end
  | _ => mret (0, data)
  end.
(** [ipi_ops->sync], where there is one. *)
Definition ipi_sync (ops : ipi_ops_id) (scratch : Z) : M unit :=
  match ops with tlb_ops => sbi_tlb_sync scratch | _ => mret tt end.

Definition ipi_data (scratch : Z) : M Z := off ← getg "ipi_data_off"; mret (scratch + off).

(** The result and the data, which the update may have changed. *)
Definition sbi_ipi_send (scratch remote_hartid event : Z) (data : option sbi_tlb_info) :
    M (Z * option sbi_tlb_info) :=
  plat ← sbi_platform_ptr scratch;
  ops ← gets (fun s => if SBI_IPI_EVENT_MAX <=? event then None else ipi_ops_array s !! event);
  match ops with
  | None => mret (SBI_EINVAL, data)
  | Some ops =>
      remote_scratch ← sbi_hartid_to_scratch remote_hartid;
      if remote_scratch =? 0 then mret (SBI_EINVAL, data)
      else
        a ← ipi_data remote_scratch;
        '(ret, data) ← ipi_update ops scratch remote_scratch remote_hartid data;
        if ret <? 0 then mret (ret, data)
        else
          atomic_raw_set_bit event a;;
          sbi_platform_ipi_send plat remote_hartid;;
          ipi_sync ops scratch;;
          mret (0, data)
  end.

(** [for (i = hbase; m; i++, m >>= 1)]: a 64-bit mask is zero after 64 turns. *)
Fixpoint send_loop (n : nat) (scratch i m event : Z) (data : option sbi_tlb_info) :
    M (option sbi_tlb_info) :=
  if m =? 0 then mret data
  else
    match n with
    | O => exits XSpin
    | S n =>
        data ← (if nz (m .& 1) then '(_, d) ← sbi_ipi_send scratch (u32 i) event data; mret d
                else mret data);
        send_loop n scratch (u64 (i + 1)) (m ≫ 1) event data
    end.

(** [while (!sbi_hsm_hart_started_mask(hbase, &m))]: each turn moves [hbase]
    on by 64, so that one turn per 64 harts and one more are enough. *)
Fixpoint send_all_loop (n : nat) (scratch hbase event : Z) (data : option sbi_tlb_info) :
    M (option sbi_tlb_info) :=
  match n with
  | O => exits XSpin
  | S n =>
      '(rc, m) ← sbi_hsm_hart_started_mask hbase;
      if nz rc then mret data
      else
        data ← send_loop 64 scratch hbase m event data;
        send_all_loop n scratch (u64 (hbase + BITS_PER_LONG)) event data
  end.
Definition hart_turns : M nat := last ← sbi_scratch_last_hartid; mret (S (S (Z.to_nat (u32 (last + 1) / 64)))).

Definition sbi_ipi_send_many (hmask hbase event : Z) (data : option sbi_tlb_info) :
    M (Z * option sbi_tlb_info) :=
  scratch ← sbi_scratch_thishart_ptr;
  if negb (hbase =? ULONG_MAX) then
    '(rc, m) ← sbi_hsm_hart_started_mask hbase;
    if nz rc then mret (rc, data)
    else data ← send_loop 64 scratch hbase (m .& hmask) event data; mret (0, data)
  else
    n ← hart_turns;
    data ← send_all_loop n scratch 0 event data;
    mret (0, data).

(** The first free slot of the array. *)
Definition free_slot (s : st) : option Z :=
  head (filter (fun i => ipi_ops_array s !! i = None) (seqZ 0 SBI_IPI_EVENT_MAX)).
Definition sbi_ipi_event_create (ops : ipi_ops_id) : M Z :=
  i ← gets free_slot;
  match i with
  | Some i => modify (set_ipi_ops_array <[i := ops]>);; mret i
  | None => mret SBI_ENOSPC
  end.
Definition sbi_ipi_event_destroy (event : Z) : M unit :=
  if SBI_IPI_EVENT_MAX <=? event then mret tt else modify (set_ipi_ops_array (delete event)).

Definition sbi_ipi_process_smode (scratch : Z) : M unit := csr_set CSR_MIP MIP_SSIP.

Definition sbi_ipi_send_smode (hmask hbase : Z) : M Z :=
  event ← getg "ipi_smode_event";
  '(rc, _) ← sbi_ipi_send_many hmask hbase event None; mret rc.
Definition sbi_ipi_clear_smode : M unit := csr_clear CSR_MIP MIP_SSIP.
Definition sbi_ipi_send_halt (hmask hbase : Z) : M Z :=
  event ← getg "ipi_halt_event";
  '(rc, _) ← sbi_ipi_send_many hmask hbase event None; mret rc.

Section Process.
Variable sbi_exit : Z -> M unit.

Definition sbi_ipi_process_halt (scratch : Z) : M unit :=
  sbi_hsm_hart_stop sbi_exit scratch true;; mret tt.

Definition ipi_process_ops (ops : ipi_ops_id) (scratch : Z) : M unit :=
  match ops with
  | ipi_smode_ops => sbi_ipi_process_smode scratch
  | ipi_halt_ops => sbi_ipi_process_halt scratch
  | tlb_ops => sbi_tlb_process scratch
  end.

(** The body of the loop for a set bit. *)
Definition process_event (scratch ipi_event : Z) : M unit :=
  ops ← gets (fun s => ipi_ops_array s !! ipi_event);
  match ops with Some ops => ipi_process_ops ops scratch | None => mret tt end.

(** [while (ipi_type)]: 64 turns empty a 64-bit word. *)
Fixpoint process_loop (n : nat) (scratch ipi_type ipi_event : Z) : M unit :=
  if ipi_type =? 0 then mret tt
  else
    match n with
    | O => exits XSpin
    | S n =>
        when (nz (ipi_type .& 1)) (process_event scratch ipi_event);;
        process_loop n scratch (ipi_type ≫ 1) (ipi_event + 1)
    end.

Definition sbi_ipi_process : M unit :=
  scratch ← sbi_scratch_thishart_ptr;
  plat ← sbi_platform_ptr scratch;
  a ← ipi_data scratch;
  hartid ← current_hartid;
  sbi_platform_ipi_clear plat hartid;;
  ipi_type ← atomic_raw_xchg_ulong a 0;
  process_loop 64 scratch ipi_type 0.

Definition sbi_ipi_exit (scratch : Z) : M unit :=
  csr_clear CSR_MIE MIP_MSIP;;
  sbi_ipi_process;;
  plat ← sbi_platform_ptr scratch;
  sbi_platform_ipi_exit plat.
End Process.

(** The part common to the cold and the warm boot. *)
Definition ipi_init_hart (scratch : Z) (cold_boot : bool) : M Z :=
  a ← ipi_data scratch;
  store a 0;;
  plat ← sbi_platform_ptr scratch;
  ret ← sbi_platform_ipi_init plat cold_boot;
  if nz ret then mret ret else csr_set CSR_MIE MIP_MSIP;; mret 0.

Definition sbi_ipi_init (scratch : Z) (cold_boot : bool) : M Z :=
  if cold_boot then
    off ← sbi_scratch_alloc_offset 8 "IPI_DATA";
    setg "ipi_data_off" off;;
    if off =? 0 then mret SBI_ENOMEM
    else
      ret ← sbi_ipi_event_create ipi_smode_ops;
      if ret <? 0 then mret ret
      else
        setg "ipi_smode_event" ret;;
        ret ← sbi_ipi_event_create ipi_halt_ops;
        if ret <? 0 then mret ret
        else setg "ipi_halt_event" ret;; ipi_init_hart scratch cold_boot
  else
    off ← getg "ipi_data_off";
    if off =? 0 then mret SBI_ENOMEM
    else
      smode ← getg "ipi_smode_event";
      halt ← getg "ipi_halt_event";
      if (SBI_IPI_EVENT_MAX <=? smode) || (SBI_IPI_EVENT_MAX <=? halt) then mret SBI_ENOSPC
      else ipi_init_hart scratch cold_boot.

(** * Requests of remote flushes *)

(** The result; the request itself may be widened. *)
Definition sbi_tlb_request (hmask hbase : Z) (tinfo : sbi_tlb_info) : M Z :=
  event ← getg "tlb_event";
  '(rc, _) ← sbi_ipi_send_many hmask hbase event (Some tinfo); mret rc.

(** [sizeof(struct sbi_fifo)] is 24. *)
Definition tlb_init_hart (scratch : Z) : M Z :=
  async ← tlb_sync_addr scratch;
  aq ← tlb_fifo_addr scratch;
  store async 0;;
  modify (set_queues
    <[aq := sbi_fifo_init (replicate (Z.to_nat (SBI_TLB_FIFO_NUM_ENTRIES * SBI_TLB_INFO_SIZE)) 0)
              SBI_TLB_FIFO_NUM_ENTRIES SBI_TLB_INFO_SIZE]>);;
  mret 0.

Definition sbi_tlb_init (scratch : Z) (cold_boot : bool) : M Z :=
  plat ← sbi_platform_ptr scratch;
  if cold_boot then
    sync_off ← sbi_scratch_alloc_offset 8 "IPI_TLB_SYNC";
    setg "tlb_sync_off" sync_off;;
    if sync_off =? 0 then mret SBI_ENOMEM
    else
      fifo_off ← sbi_scratch_alloc_offset 24 "IPI_TLB_FIFO";
      setg "tlb_fifo_off" fifo_off;;
      if fifo_off =? 0 then sbi_scratch_free_offset sync_off;; mret SBI_ENOMEM
      else
        mem_off ← sbi_scratch_alloc_offset (SBI_TLB_FIFO_NUM_ENTRIES * SBI_TLB_INFO_SIZE) "IPI_TLB_FIFO_MEM";
        setg "tlb_fifo_mem_off" mem_off;;
        if mem_off =? 0 then
          sbi_scratch_free_offset fifo_off;; sbi_scratch_free_offset sync_off;; mret SBI_ENOMEM
        else
          ret ← sbi_ipi_event_create tlb_ops;
          if ret <? 0 then
            sbi_scratch_free_offset mem_off;; sbi_scratch_free_offset fifo_off;;
            sbi_scratch_free_offset sync_off;; mret ret
          else
            setg "tlb_event" ret;;
            limit ← sbi_platform_tlbr_flush_limit plat;
            setg "tlb_range_flush_limit" limit;;
            tlb_init_hart scratch
  else
    sync_off ← getg "tlb_sync_off";
    fifo_off ← getg "tlb_fifo_off";
    mem_off ← getg "tlb_fifo_mem_off";
    if (sync_off =? 0) || (fifo_off =? 0) || (mem_off =? 0) then mret SBI_ENOMEM
    else
      event ← getg "tlb_event";
      if SBI_IPI_EVENT_MAX <=? event then mret SBI_ENOSPC else tlb_init_hart scratch.
End Ipi.

(** * The loops over a mask *)

Section Loops.
Context `{Hardware} `{Platform}.

(** The positions of the set bits of a [n]-bit mask whose bit 0 is position
    [i], in increasing order. *)
Definition mask_positions (i m : Z) (n : nat) : list Z :=
  filter (fun h => Z.testbit m (h - i) = true) (seqZ i (Z.of_nat n)).

Lemma mask_positions_0 i n : mask_positions i 0 n = [].
Proof.
  unfold mask_positions. induction (seqZ i (Z.of_nat n)) as [|h l IH]; [done|].
  rewrite filter_cons. rewrite Z.testbit_0_l. by rewrite decide_False by done.
Qed.

Lemma filter_agree (f g : Z -> bool) (l : list Z) :
  (forall x, x ∈ l -> f x = g x) -> filter (fun x => f x = true) l = filter (fun x => g x = true) l.
Proof.
  induction l as [|x l IH]; intros Hfg; [done|].
  rewrite !filter_cons, (Hfg x), IH by (intros; apply Hfg; rewrite elem_of_cons; auto) || by left. done.
Qed.

Lemma nz_land_1 m : nz (m .& 1) = Z.testbit m 0.
Proof.
  change 1 with (Z.ones 1). rewrite Z.land_ones by lia. change (2 ^ 1) with 2. rewrite <- Z.bit0_mod.
  by destruct (Z.testbit m 0).
Qed.

Lemma mask_positions_S i m n :
  mask_positions i m (S n) = (if nz (m .& 1) then [i] else []) ++ mask_positions (i + 1) (m ≫ 1) n.
Proof.
  unfold mask_positions. rewrite seqZ_cons, filter_cons, Z.sub_diag, nz_land_1 by lia.
  replace (Z.pred (Z.of_nat (S n))) with (Z.of_nat n) by lia.
  replace (filter (fun h => Z.testbit m (h - i) = true) (seqZ (Z.succ i) (Z.of_nat n)))
    with (filter (fun h => Z.testbit (m ≫ 1) (h - (i + 1)) = true) (seqZ (i + 1) (Z.of_nat n))).
  - by destruct (Z.testbit m 0).
  - apply filter_agree. intros h Hh%elem_of_seqZ.
    rewrite Z.shiftr_spec by lia. by replace (h - (i + 1) + 1) with (h - i) by lia.
Qed.

Lemma fits_shiftr1 n m : fits (Z.of_nat (S n)) m -> fits (Z.of_nat n) (m ≫ 1).
Proof.
  unfold fits. rewrite Nat2Z.inj_succ, Z.pow_succ_r, Z.shiftr_div_pow2 by lia. change (2 ^ 1) with 2.
  intros. split; [apply Z.div_pos; lia|apply Z.div_lt_upper_bound; lia].
Qed.

(** The loop of [sbi_ipi_process] handles the set bits in increasing order. *)
Lemma process_loop_eq sbi_exit scratch n : forall m i s,
  fits (Z.of_nat n) m ->
  process_loop sbi_exit n scratch m i s =
  for_each (mask_positions i m n) (process_event sbi_exit scratch) s.
Proof.
  induction n as [|n IH]; intros m i s Hm.
  - assert (m = 0) as -> by (unfold fits in Hm; simpl in Hm; lia). done.
  - cbn [process_loop]. destruct (Z.eqb_spec m 0) as [->|]; [by rewrite mask_positions_0|].
    rewrite mask_positions_S, for_each_app. destruct (nz (m .& 1)); simpl.
    + unfold mbind, M_bind. destruct (process_event _ _ _ _) as [[] s'|]; [|done].
      by apply IH, fits_shiftr1.
    + by apply IH, fits_shiftr1.
Qed.

(** Sending to each hart of a list, the data passed on. *)
Fixpoint send_targets (scratch event : Z) (l : list Z) (data : option sbi_tlb_info) :
    M (option sbi_tlb_info) :=
  match l with
  | [] => mret data
  | h :: l => '(_, data) ← sbi_ipi_send scratch h event data; send_targets scratch event l data
  end.

Lemma send_loop_eq scratch event n : forall m i data s,
  fits (Z.of_nat n) m -> 0 <= i -> i + Z.of_nat n < 2 ^ 32 ->
  send_loop n scratch i m event data s =
  send_targets scratch event (mask_positions i m n) data s.
Proof.
  induction n as [|n IH]; intros m i data s Hm Hi Hn.
  - assert (m = 0) as -> by (unfold fits in Hm; simpl in Hm; lia). done.
  - cbn [send_loop]. destruct (Z.eqb_spec m 0) as [->|]; [by rewrite mask_positions_0|].
    rewrite mask_positions_S. unfold u64, u32. rewrite !wrap_small by (unfold fits; lia).
    assert (IH' := fun d s => IH (m ≫ 1) (i + 1) d s (fits_shiftr1 n m Hm) ltac:(lia) ltac:(lia)).
    destruct (nz (m .& 1)); simpl; [|apply IH'].
    unfold mbind, M_bind. destruct (sbi_ipi_send _ _ _ _ _) as [[rc d] s'|]; [|done]. apply IH'.
Qed.
End Loops.

(** * What processing and sending do *)

(** [sbi_ipi_process] clears the interrupt at the platform, takes the
    pending word and clears it in one step, and then runs the handler of each
    pending event once, in increasing order of the event numbers; nothing is
    handled that was not pending, and the 64 turns of the model are all the
    loop makes. *)
Theorem sbi_ipi_process_spec `{Hardware} `{Platform} sbi_exit s s1 :
  let scratch := csr_val s (cur s) CSR_MSCRATCH in
  let a := scratch + gval s "ipi_data_off" in
  (plat ← sbi_platform_ptr scratch; sbi_platform_ipi_clear plat (u32 (csr_val s (cur s) CSR_MHARTID))) s
    = Ret tt s1 ->
  fits 64 (mem_val s1 a) ->
  sbi_ipi_process sbi_exit s =
  for_each (mask_positions 0 (mem_val s1 a) 64) (process_event sbi_exit scratch)
    (set_mem <[a := 0]> s1).
Proof.
  intros scratch a Hclear Hfit. unfold sbi_ipi_process, sbi_scratch_thishart_ptr, ipi_data, current_hartid,
    sbi_platform_ptr, atomic_raw_xchg_ulong in *.
  repeat mstep. rewrite !bind_assoc in Hclear. revert Hclear. repeat mstep. intros Hclear.
  fold scratch a. change (u64 0) with 0. unfold u64. rewrite wrap_small by done. by apply process_loop_eq.
Qed.

(** What a platform promises about sending an interrupt: it returns, and the
    firmware's own state is untouched. *)
Definition same_fw (s s' : st) : Prop :=
  cur s' = cur s /\ csrs s' = csrs s /\ mem s' = mem s /\ queues s' = queues s /\
  scratch_table s' = scratch_table s /\ glob s' = glob s /\ ipi_ops_array s' = ipi_ops_array s.
Class QuietIpi `{Platform} : Prop :=
  ipi_quiet : forall h s, exists s', sbi_platform_ipi_send (Some the_platform) h s = Ret tt s' /\ same_fw s s'.

Section Send.
Context `{Hardware} `{Platform} `{!QuietIpi}.

Lemma ipi_send_quiet scratch h s :
  exists plat, sbi_platform_ptr scratch s = Ret plat s /\
    (forall s0, exists s', sbi_platform_ipi_send plat h s0 = Ret tt s' /\ same_fw s0 s').
Proof.
  unfold sbi_platform_ptr. eexists. split; [by repeat mstep|]. intros s0.
  destruct (_ =? 0); [|apply ipi_quiet]. exists s0. by repeat split.
Qed.

(** The pending word of a hart. *)
Definition ipi_cell (s : st) (h : Z) : Z := default 0 (scratch_table s !! h) + gval s "ipi_data_off".

Lemma shl64_BIT_MASK e : 0 <= e < 64 -> BIT_MASK e = 2 ^ e.
Proof. intros. unfold BIT_MASK, BITS_PER_LONG. rewrite Z.mod_small by lia. by apply shl64_1. Qed.

(** Sending an event without an update or a sync handler. *)
Lemma sbi_ipi_send_plain scratch h e ops s :
  0 <= e < SBI_IPI_EVENT_MAX -> ipi_ops_array s !! e = Some ops -> ops <> tlb_ops ->
  h < SBI_HARTMASK_MAX_BITS -> default 0 (scratch_table s !! h) <> 0 ->
  exists s', sbi_ipi_send scratch h e None s = Ret (0, None) s' /\
    same_fw (set_mem <[ipi_cell s h := mem_val s (ipi_cell s h) .| 2 ^ e]> s) s'.
Proof.
  unfold SBI_IPI_EVENT_MAX. intros He Hops Hne Hh Hp. unfold sbi_ipi_send.
  destruct (ipi_send_quiet scratch h s) as (plat & Hplat & Hsend).
  rewrite (bind_ret_eq _ _ _ _ _ Hplat). mstep.
  unfold SBI_IPI_EVENT_MAX. rewrite (proj2 (Z.leb_gt 64 e)), Hops by lia. unfold sbi_hartid_to_scratch.
  rewrite (proj2 (Z.ltb_lt h SBI_HARTMASK_MAX_BITS)) by done. mstep. rewrite (proj2 (Z.eqb_neq _ 0) Hp).
  unfold ipi_data. repeat mstep.
  assert (Hup : forall a b c, ipi_update ops a b c None s = Ret (0, None) s) by (by destruct ops).
  assert (Hsy : forall a t, ipi_sync ops a t = Ret tt t) by (by destruct ops).
  rewrite (bind_ret_eq _ _ _ _ _ (Hup _ _ _)). change (0 <? 0) with false. cbv iota beta.
  unfold atomic_raw_set_bit, word_addr, BIT_WORD. change (e / BITS_PER_LONG) with (e / 64).
  rewrite Z.div_small, Z.mul_0_r, Z.add_0_r, shl64_BIT_MASK by lia. repeat mstep.
  destruct (Hsend (set_mem <[ipi_cell s h := mem_val s (ipi_cell s h) .| 2 ^ e]> s)) as (s' & E & Hs').
  exists s'. fold (ipi_cell s h). rewrite (bind_ret_eq _ _ _ _ _ E), (bind_ret_eq _ _ _ _ _ (Hsy _ _)). done.
Qed.

(** Sending one after another to harts with different pending words. *)
Lemma send_targets_plain scratch e ops l : forall s,
  0 <= e < SBI_IPI_EVENT_MAX -> ipi_ops_array s !! e = Some ops -> ops <> tlb_ops -> NoDup l ->
  (forall h, h ∈ l -> h < SBI_HARTMASK_MAX_BITS /\ default 0 (scratch_table s !! h) <> 0) ->
  (forall h h', h ∈ l -> h' ∈ l -> ipi_cell s h = ipi_cell s h' -> h = h') ->
  exists s', send_targets scratch e l None s = Ret None s' /\
    (forall h, h ∈ l -> mem_val s' (ipi_cell s h) = mem_val s (ipi_cell s h) .| 2 ^ e) /\
    (forall a, (forall h, h ∈ l -> a <> ipi_cell s h) -> mem_val s' a = mem_val s a).
Proof.
  induction l as [|h l IH]; intros s He Hops Hne Hnd Hok Hinj.
  { exists s. split; [done|]. split; [by intros ? ?%not_elem_of_nil|done]. }
  apply NoDup_cons in Hnd as [Hnot Hnd]. destruct (Hok h) as [Hh Hp]; [by left|].
  destruct (sbi_ipi_send_plain scratch h e ops s) as (s1 & E & _ & _ & Hm & _ & Ht & Hg & Ho); try done.
  simpl in Hm, Ht, Hg, Ho. cbn [send_targets]. rewrite (bind_ret_eq _ _ _ _ _ E).
  assert (Hcell : forall h, ipi_cell s1 h = ipi_cell s h) by (intros; unfold ipi_cell, gval; by rewrite Ht, Hg).
  destruct (IH s1) as (s2 & E2 & Hin & Hout); [done|by rewrite Ho|done|done| | |].
  { intros h' Hh'. rewrite Ht. apply Hok. by right. }
  { intros h1 h2 Hin1 Hin2. rewrite !Hcell. apply Hinj; by right. }
  exists s2. split; [done|]. setoid_rewrite Hcell in Hin. setoid_rewrite Hcell in Hout.
  assert (Hm1 : forall a, mem_val s1 a =
    if decide (a = ipi_cell s h) then mem_val s (ipi_cell s h) .| 2 ^ e else mem_val s a).
  { intros a. unfold mem_val at 1. rewrite Hm. destruct (decide _) as [->|].
    - by rewrite lookup_insert_eq.
    - by rewrite lookup_insert_ne. }
  split.
  - intros h' [->|Hh']%elem_of_cons.
    + rewrite Hout, Hm1, decide_True; [done|done|]. intros h2 Hh2 Heq. apply Hnot.
      replace h with h2; [done|]. apply Hinj; [by right|by left|done].
    + rewrite Hin, Hm1, decide_False; [done| |done]. intros Heq. apply Hnot.
      replace h with h'; [done|]. apply Hinj; [by right|by left|done].
  - intros a Ha. rewrite Hout, Hm1, decide_False; [done|apply Ha; by left|].
    intros h' Hh'. apply Ha. by right.
Qed.
End Send.

(** The harts an interrupt with this mask is meant for. *)
Definition ipi_target (s : st) (hmask hbase h : Z) : bool :=
  (hbase <=? h) && (h <? mask_stop (gval s "last_hartid_having_scratch") hbase) &&
  (hsm_state s h =? SBI_HART_STARTED) && Z.testbit hmask (h - hbase).

Lemma mask_stop_bound last hbase :
  0 <= hbase -> mask_stop last hbase <= last + 1 /\ mask_stop last hbase - hbase <= 64.
Proof. intros. unfold mask_stop, BITS_PER_LONG. destruct (Z.ltb_spec 64 (last + 1 - hbase)); lia. Qed.

Lemma started_has_scratch s h : hsm_state s h = SBI_HART_STARTED -> default 0 (scratch_table s !! h) <> 0.
Proof. unfold hsm_state. destruct (Z.eqb_spec (default 0 (scratch_table s !! h)) 0); done. Qed.

Lemma mask_positions_elem i m n h :
  h ∈ mask_positions i m n <-> i <= h < i + Z.of_nat n /\ Z.testbit m (h - i) = true.
Proof. unfold mask_positions. rewrite list_elem_of_filter, elem_of_seqZ. tauto. Qed.

(** An interrupt to supervisor mode sent with a hart mask and a base marks
    the event pending at exactly the harts that are started, in the mask and
    within the range of the started-mask query, and leaves every other pending
    word as it was. *)
Theorem sbi_ipi_send_smode_targets `{Hardware} `{Platform} `{!QuietIpi} s hmask hbase :
  let e := gval s "ipi_smode_event" in
  0 <= gval s "last_hartid_having_scratch" < SBI_HARTMASK_MAX_BITS ->
  0 <= hbase <= gval s "last_hartid_having_scratch" -> fits 64 hmask ->
  0 <= e < SBI_IPI_EVENT_MAX -> ipi_ops_array s !! e = Some ipi_smode_ops ->
  (forall h h', ipi_cell s h = ipi_cell s h' -> hsm_state s h = SBI_HART_STARTED -> h = h') ->
  exists s', sbi_ipi_send_smode hmask hbase s = Ret 0 s' /\
    forall h, mem_val s' (ipi_cell s h) =
      if ipi_target s hmask hbase h then mem_val s (ipi_cell s h) .| 2 ^ e else mem_val s (ipi_cell s h).
Proof.
  intros e Hlast Hb Hm He Hops Hinj. unfold sbi_ipi_send_smode, sbi_ipi_send_many, sbi_scratch_thishart_ptr.
  repeat mstep. unfold SBI_HARTMASK_MAX_BITS in Hlast.
  rewrite (proj2 (Z.eqb_neq hbase ULONG_MAX)) by (unfold ULONG_MAX; lia). simpl negb. cbv iota.
  destruct (started_mask_eq s hbase) as (mask & E & Hbits); [done|lia|lia|].
  rewrite bind_assoc, (bind_ret_eq _ _ _ _ _ E). change (nz 0) with false. cbv iota beta. rewrite bind_assoc.
  assert (Htgt : forall h, h ∈ mask_positions hbase (mask .& hmask) 64 <-> ipi_target s hmask hbase h = true).
  { intros h. rewrite mask_positions_elem, Z.land_spec, andb_true_iff. unfold ipi_target.
    rewrite !andb_true_iff, Z.leb_le, Z.ltb_lt, Z.eqb_eq.
    pose proof (mask_stop_bound (gval s "last_hartid_having_scratch") hbase ltac:(lia)).
    assert (Hb' : 0 <= h - hbase < 64 -> Z.testbit mask (h - hbase) = true <->
      h < mask_stop (gval s "last_hartid_having_scratch") hbase /\ hsm_state s h = SBI_HART_STARTED).
    { intros. rewrite Hbits, andb_true_iff, Z.ltb_lt, Z.eqb_eq by lia.
      by replace (hbase + (h - hbase)) with h by lia. }
    split; intros; [rewrite Hb' in *|rewrite Hb']; lia || tauto || (repeat split; tauto || lia). }
  destruct (send_targets_plain (csr_val s (cur s) CSR_MSCRATCH) e ipi_smode_ops
    (mask_positions hbase (mask .& hmask) 64) s) as (s' & Es & Hin & Hout); try done.
  { unfold mask_positions. apply NoDup_filter, NoDup_seqZ. }
  { intros h Hh%Htgt. unfold ipi_target in Hh. rewrite !andb_true_iff, Z.leb_le, Z.ltb_lt, Z.eqb_eq in Hh.
    pose proof (mask_stop_bound (gval s "last_hartid_having_scratch") hbase ltac:(lia)).
    split; [unfold SBI_HARTMASK_MAX_BITS; lia|apply started_has_scratch; tauto]. }
  { intros h h' Hh%Htgt _ Heq. apply (Hinj h h' Heq). unfold ipi_target in Hh.
    rewrite !andb_true_iff, Z.eqb_eq in Hh. tauto. }
  rewrite <- send_loop_eq in Es; [|rewrite Z.land_comm; by apply fits_land|lia|simpl; lia].
  rewrite (bind_ret_eq _ _ _ _ _ Es). exists s'. split; [done|]. intros h.
  destruct (ipi_target s hmask hbase h) eqn:Hh; [by apply Hin, Htgt|].
  apply Hout. intros h' Hh'%Htgt Heq. assert (h' = h) as ->; [|congruence].
  apply (Hinj h' h); [done|]. unfold ipi_target in Hh'. rewrite !andb_true_iff, Z.eqb_eq in Hh'. tauto.
Qed.

(** A platform without an interrupt device keeps the promise. *)
Lemma no_ipi_quiet (P : Platform) : op_ipi_send (platform_ops the_platform) = None -> @QuietIpi P.
Proof. intros E h s. exists s. unfold sbi_platform_ipi_send, plat_call. rewrite E. by repeat split. Qed.

(** Harts 0 and 1 are started; the supervisor event is slot 0. *)
Definition ipi_state : st :=
  set_ipi_ops_array <[0 := ipi_smode_ops]>
  (set_mem (fun _ => {[ 0x90000050 := SBI_HART_STARTED; 0x90001050 := SBI_HART_STARTED; 0x90001060 := 2 ]})
    (set_scratch_table (fun _ => {[ 0 := 0x90000000; 1 := 0x90001000 ]})
      (set_glob (fun g => <["hart_data_offset"%string := 80]> (<["ipi_data_off"%string := 96]>
        (<["ipi_smode_event"%string := 0]> (<["last_hartid_having_scratch"%string := 1]> g)))) boot_st))).

Lemma ipi_state_table h p : scratch_table ipi_state !! h = Some p -> h = 0 /\ p = 0x90000000 \/ h = 1 /\ p = 0x90001000.
Proof.
  simpl. rewrite lookup_insert_Some, lookup_singleton_Some. intuition congruence.
Qed.

Lemma sbi_ipi_send_smode_targets_witness :
  exists s', @sbi_ipi_send_smode plain_hw tlb_platform 2 0 ipi_state = Ret 0 s' /\
    mem_val s' 0x90000060 = 0 /\ mem_val s' 0x90001060 = 3.
Proof.
  assert (Hq : @QuietIpi tlb_platform) by (by apply no_ipi_quiet).
  destruct (@sbi_ipi_send_smode_targets plain_hw tlb_platform Hq ipi_state 2 0) as (s' & E & Hm).
  - vm_compute. split; discriminate || reflexivity.
  - vm_compute. split; discriminate.
  - vm_compute. split; discriminate || reflexivity.
  - vm_compute. split; discriminate || reflexivity.
  - vm_compute. reflexivity.
  - intros h h'. unfold ipi_cell, hsm_state. change (gval ipi_state "ipi_data_off") with 96.
    destruct (scratch_table ipi_state !! h) as [p|] eqn:Ep; [|simpl; discriminate].
    destruct (scratch_table ipi_state !! h') as [p'|] eqn:Ep'; simpl;
      [apply ipi_state_table in Ep, Ep'; lia|apply ipi_state_table in Ep; lia].
  - exists s'. split; [exact E|].
    replace 0x90000060 with (ipi_cell ipi_state 0) by (vm_compute; reflexivity).
    replace 0x90001060 with (ipi_cell ipi_state 1) by (vm_compute; reflexivity).
    rewrite !Hm. vm_compute. split; reflexivity.
Defined.

Lemma sbi_ipi_process_spec_witness :
  let s := set_csrs <[(0, CSR_MSCRATCH) := 0x90000000]> (set_mem <[0x90000060 := 1]> ipi_state) in
  match @sbi_ipi_process plain_hw tlb_platform (fun _ => exits XHang) s with
  | Ret _ s' => (csr_val s' 0 CSR_MIP, mem_val s' 0x90000060) = (MIP_SSIP, 0)
  | Exit _ _ => False
  end.
Proof.
  intros s. rewrite (@sbi_ipi_process_spec plain_hw tlb_platform _ s s).
  - vm_compute. reflexivity.
  - vm_compute. reflexivity.
  - vm_compute. split; discriminate || reflexivity.
Defined.
