(* ===== verification/Timer.v ===== *)
(** The timer, lib/sbi/sbi_timer.c: the source of the time value, the per-hart
    offset a hypervisor may set, and the hand-over of timer interrupts from
    machine to supervisor mode. *)

From Stdlib Require Import String.
From S2P Require Import Prelude Encoding Bitops Machine Format Platform Console Scratch Asm Hart.

(** [get_time_val]: NULL, [get_ticks] or [sbi_platform_timer_value]. *)
Definition TIME_NULL : Z := 0.
Definition TIME_TICKS : Z := 1.
Definition TIME_PLATFORM : Z := 2.

Section Timer.
Context `{Hardware} `{Platform}.

Definition get_ticks : M Z := csr_read CSR_TIME.

Definition sbi_timer_value : M Z :=
  f ← getg "get_time_val";
  plat ← sbi_platform_thishart_ptr;
  if f =? TIME_TICKS then get_ticks
  else if f =? TIME_PLATFORM then sbi_platform_timer_value plat
  else exits XUndef.

Definition time_delta : M Z :=
  scratch ← sbi_scratch_thishart_ptr; off ← getg "time_delta_off"; mret (scratch + off).

Definition sbi_timer_virt_value : M Z :=
  a ← time_delta; v ← sbi_timer_value; d ← load a; mret (u64 (v + d)).
Definition sbi_timer_get_delta : M Z := a ← time_delta; load a.
Definition sbi_timer_set_delta (delta : Z) : M unit := a ← time_delta; store a delta.
Definition sbi_timer_set_delta_upper (delta_upper : Z) : M unit :=
  a ← time_delta;
  d ← load a;
  store a ((d .& 0xffffffff) .| (delta_upper <<u 32)).

Definition sbi_timer_event_start (next_event : Z) : M unit :=
  plat ← sbi_platform_thishart_ptr;
  sbi_platform_timer_event_start plat next_event;;
  csr_clear CSR_MIP MIP_STIP;;
  csr_set CSR_MIE MIP_MTIP.

Definition sbi_timer_process : M unit :=
  csr_clear CSR_MIE MIP_MTIP;;
  csr_set CSR_MIP MIP_STIP.

Definition timer_init_hart (scratch : Z) (cold_boot : bool) : M Z :=
  plat ← sbi_platform_ptr scratch;
  off ← getg "time_delta_off";
  store (scratch + off) 0;;
  ret ← sbi_platform_timer_init plat cold_boot;
  if nz ret then mret ret
  else
    has_time ← sbi_hart_has_feature scratch SBI_HART_HAS_TIME;
    if (has_time : bool) then setg "get_time_val" TIME_TICKS;; mret 0
    else
      match plat with
      | None => exits XUndef
      | Some p =>
          if sbi_platform_has_timer_value p then setg "get_time_val" TIME_PLATFORM;; mret 0
          else mret SBI_ENODEV
      end.

Definition sbi_timer_init (scratch : Z) (cold_boot : bool) : M Z :=
  if cold_boot then
    off ← sbi_scratch_alloc_offset 8 "TIME_DELTA";
    setg "time_delta_off" off;;
    if off =? 0 then mret SBI_ENOMEM else timer_init_hart scratch cold_boot
  else
    off ← getg "time_delta_off";
    if off =? 0 then mret SBI_ENOMEM else timer_init_hart scratch cold_boot.

Definition sbi_timer_exit (scratch : Z) : M unit :=
  plat ← sbi_platform_ptr scratch;
  sbi_platform_timer_event_stop plat;;
  csr_clear CSR_MIP MIP_STIP;;
  csr_clear CSR_MIE MIP_MTIP;;
  sbi_platform_timer_exit plat.
End Timer.
