(* ===== verification/Trap.v ===== *)
(** Trap state and redirection, include/sbi/sbi_trap.h and
    [sbi_trap_redirect] of lib/sbi/sbi_trap.c, with the register-field macros
    of include/sbi/riscv_encoding.h.  The handler itself, which calls every
    other part, is in Handler.v. *)

From Stdlib Require Import String.
From S2P Require Import Prelude Encoding Bitops Machine Format Platform Console Scratch Asm Hart.

(** The 32 general registers in order ([zero] to [t6]) and the rest. *)
Record sbi_trap_regs : Type := mkRegs {
  gprs : list Z;
  mepc : Z;
  mstatus : Z;
  mstatusH : Z
}.

#[global] Instance sbi_trap_regs_eq : EqDecision sbi_trap_regs.
Proof. solve_decision. Defined.

Definition gpr (regs : sbi_trap_regs) (i : Z) : Z := nth (Z.to_nat i) (gprs regs) 0.
Definition set_gpr (i v : Z) (regs : sbi_trap_regs) : sbi_trap_regs :=
  mkRegs (<[Z.to_nat i := u64 v]> (gprs regs)) (mepc regs) (mstatus regs) (mstatusH regs).
Definition set_mepc (v : Z) (regs : sbi_trap_regs) : sbi_trap_regs :=
  mkRegs (gprs regs) (u64 v) (mstatus regs) (mstatusH regs).
Definition set_mstatus (v : Z) (regs : sbi_trap_regs) : sbi_trap_regs :=
  mkRegs (gprs regs) (mepc regs) v (mstatusH regs).

Definition REG_a0 : Z := 10.
Definition REG_a1 : Z := 11.
Definition REG_a2 : Z := 12.
Definition REG_a3 : Z := 13.
Definition REG_a4 : Z := 14.
Definition REG_a5 : Z := 15.
Definition REG_a6 : Z := 16.
Definition REG_a7 : Z := 17.

(** * Register fields of an instruction *)

Definition INSN_16BIT_MASK : Z := 3.
Definition INSN_32BIT_MASK : Z := 0x1c.
Definition INSN_IS_16BIT (insn : Z) : bool := negb ((insn .& INSN_16BIT_MASK) =? INSN_16BIT_MASK).
Definition INSN_IS_32BIT (insn : Z) : bool :=
  ((insn .& INSN_16BIT_MASK) =? INSN_16BIT_MASK) && negb ((insn .& INSN_32BIT_MASK) =? INSN_32BIT_MASK).
Definition INSN_LEN (insn : Z) : Z := if INSN_IS_16BIT insn then 2 else 4.
Definition LOG_REGBYTES : Z := 3.
Definition RV_X (x s n : Z) : Z := (x >>u s) .& (Z.shiftl 1 n - 1).
Definition RVC_RS1S (insn : Z) : Z := 8 + RV_X insn SH_RD 3.
Definition RVC_RS2S (insn : Z) : Z := 8 + RV_X insn SH_RS2C 3.
Definition RVC_RS2 (insn : Z) : Z := RV_X insn SH_RS2C 5.
Definition SHIFT_RIGHT (x y : Z) : Z := if y <? 0 then x <<u (- y) else x >>u y.
Definition REG_MASK : Z := Z.shiftl 1 (5 + LOG_REGBYTES) - Z.shiftl 1 LOG_REGBYTES.
(** Byte offset of the register in the saved state. *)
Definition REG_OFFSET (insn pos : Z) : Z := SHIFT_RIGHT insn (pos - LOG_REGBYTES) .& REG_MASK.
Definition REG_INDEX (insn pos : Z) : Z := REG_OFFSET insn pos / 8.
Definition GET_RM (insn : Z) : Z := (insn >>u 12) .& 7.
Definition GET_RS1 (insn : Z) (regs : sbi_trap_regs) : Z := gpr regs (REG_INDEX insn SH_RS1).
Definition GET_RS2 (insn : Z) (regs : sbi_trap_regs) : Z := gpr regs (REG_INDEX insn SH_RS2).
Definition GET_RS1S (insn : Z) (regs : sbi_trap_regs) : Z := gpr regs (REG_INDEX (RVC_RS1S insn) 0).
Definition GET_RS2S (insn : Z) (regs : sbi_trap_regs) : Z := gpr regs (REG_INDEX (RVC_RS2S insn) 0).
Definition GET_RS2C (insn : Z) (regs : sbi_trap_regs) : Z := gpr regs (REG_INDEX insn SH_RS2C).
Definition SET_RD (insn : Z) (regs : sbi_trap_regs) (val : Z) : sbi_trap_regs :=
  set_gpr (REG_INDEX insn SH_RD) val regs.

(** * Redirection *)

(** [x = (x & ~mask) | bits] *)
Definition put_field (x mask bits : Z) : Z := (x .& not64 mask) .| bits.

Section Redirect.
Context `{Hardware} `{Platform}.

(** The status register of the mode the trap goes to: previous privilege and
    interrupt-enable saved, interrupts disabled. *)
Definition push_status (status prev_mode : Z) : Z :=
  let status := put_field status MSTATUS_SPP (if prev_mode =? PRV_S then 1 <<u MSTATUS_SPP_SHIFT else 0) in
  let status := status .& not64 MSTATUS_SPIE in
  let status := if nz (status .& MSTATUS_SIE) then status .| (1 <<u MSTATUS_SPIE_SHIFT) else status in
  status .& not64 MSTATUS_SIE.

Definition redirect_vs (regs : sbi_trap_regs) (trap : sbi_trap_info) (prev_mode : Z) : M sbi_trap_regs :=
  csr_write CSR_VSTVAL (tval trap);;
  csr_write CSR_VSEPC (epc trap);;
  csr_write CSR_VSCAUSE (cause trap);;
  vec ← csr_read CSR_VSTVEC;
  let regs := set_mepc vec regs in
  let regs := set_mstatus (put_field (mstatus regs) MSTATUS_MPP (PRV_S <<u MSTATUS_MPP_SHIFT)) regs in
  vsstatus ← csr_read CSR_VSSTATUS;
  csr_write CSR_VSSTATUS (push_status vsstatus prev_mode);;
  mret regs.

Definition redirect_s (regs : sbi_trap_regs) (trap : sbi_trap_info) (prev_mode : Z) : M sbi_trap_regs :=
  csr_write CSR_STVAL (tval trap);;
  csr_write CSR_SEPC (epc trap);;
  csr_write CSR_SCAUSE (cause trap);;
  vec ← csr_read CSR_STVEC;
  let regs := set_mepc vec regs in
  let regs := set_mstatus (put_field (mstatus regs) MSTATUS_MPP (PRV_S <<u MSTATUS_MPP_SHIFT)) regs in
  mret (set_mstatus (push_status (mstatus regs) prev_mode) regs).

(** What the hypervisor learns of a trap out of a guest. *)
Definition redirect_hstatus (regs : sbi_trap_regs) (trap : sbi_trap_info) : M unit :=
  hstatus ← csr_read CSR_HSTATUS;
  let hstatus := put_field hstatus HSTATUS_SPVP (if nz (mstatus regs .& MSTATUS_SPP) then HSTATUS_SPVP else 0) in
  let hstatus := put_field hstatus HSTATUS_SPV HSTATUS_SPV in
  csr_write CSR_HSTATUS hstatus;;
  csr_write CSR_HTVAL (tval2 trap);;
  csr_write CSR_HTINST (tinst trap).

Definition guest_page_fault (cause : Z) : bool :=
  (cause =? CAUSE_FETCH_PAGE_FAULT) || (cause =? CAUSE_LOAD_PAGE_FAULT) || (cause =? CAUSE_STORE_PAGE_FAULT).

Definition sbi_trap_redirect (regs : sbi_trap_regs) (trap : sbi_trap_info) : M (Z * sbi_trap_regs) :=
  let prev_virt := nz (mstatus regs .& MSTATUS_MPV) in
  let prev_mode := (mstatus regs .& MSTATUS_MPP) >>u MSTATUS_MPP_SHIFT in
  if negb (prev_mode =? PRV_S) && negb (prev_mode =? PRV_U) then mret (SBI_ENOTSUPP, regs)
  else
    hext ← misa_extension 72;
    let next_virt := hext && prev_virt && guest_page_fault (cause trap) in
    let regs := set_mstatus (put_field (mstatus regs) MSTATUS_MPV (if next_virt then MSTATUS_MPV else 0)) regs in
    hext ← misa_extension 72;
    when (hext && prev_virt && negb next_virt) (redirect_hstatus regs trap);;
    regs ← (if next_virt then redirect_vs regs trap prev_mode else redirect_s regs trap prev_mode);
    mret (0, regs).
End Redirect.

(** Reading a general register back. *)
Lemma gpr_set_gpr i j v r :
  length (gprs r) = 32%nat -> 0 <= i < 32 -> 0 <= j -> gpr (set_gpr i v r) j = if j =? i then u64 v else gpr r j.
Proof.
  intros Hr Hi Hj. unfold gpr, set_gpr. cbn [gprs]. rewrite !nth_lookup. destruct (Z.eqb_spec j i) as [->|].
  - by rewrite list_lookup_insert_eq by lia.
  - by rewrite list_lookup_insert_ne by lia.
Qed.

(** * The bits of the status register *)

Lemma nz_land_pow2 x k : 0 <= k -> nz (x .& 2 ^ k) = Z.testbit x k.
Proof.
  intros Hk. destruct (Z.testbit x k) eqn:E.
  - apply nz_true. intros E0. apply (f_equal (fun y => Z.testbit y k)) in E0.
    by rewrite Z.land_spec, E, Z.pow2_bits_true, Z.testbit_0_l in E0 by done.
  - apply nz_false, Z.bits_inj'. intros i Hi. rewrite Z.land_spec, Z.testbit_0_l, Z.pow2_bits_eqb by done.
    destruct (Z.eqb_spec k i) as [->|]; [by rewrite E|apply andb_false_r].
Qed.

Lemma testbit_not64 m i : 0 <= i -> Z.testbit (not64 m) i = (i <? 64) && negb (Z.testbit m i).
Proof.
  intros Hi. unfold not64. rewrite testbit_u64 by done. destruct (i <? 64); simpl; [|done].
  by rewrite Z.lnot_spec.
Qed.

Lemma put_field_bits x m b i :
  fits 64 x -> 0 <= i ->
  Z.testbit (put_field x m b) i = (Z.testbit x i && negb (Z.testbit m i)) || Z.testbit b i.
Proof.
  intros Hx Hi. unfold put_field. rewrite Z.lor_spec, Z.land_spec, testbit_not64 by done. f_equal.
  destruct (Z.ltb_spec i 64); [done|]. by rewrite (testbit_fits 64) by (done || lia).
Qed.

Lemma put_field_fits x m b : fits 64 x -> fits 64 b -> fits 64 (put_field x m b).
Proof. intros. unfold put_field. eauto with fits. Qed.

Lemma push_status_eq status m :
  push_status status m =
  let x := put_field status (2 ^ 8) (if m =? PRV_S then 2 ^ 8 else 0) in
  put_field (put_field x (2 ^ 5) (if Z.testbit x 1 then 2 ^ 5 else 0)) (2 ^ 1) 0.
Proof.
  unfold push_status. change MSTATUS_SPP with (2 ^ 8). change (1 <<u MSTATUS_SPP_SHIFT) with (2 ^ 8).
  change MSTATUS_SPIE with (2 ^ 5). change (1 <<u MSTATUS_SPIE_SHIFT) with (2 ^ 5).
  change MSTATUS_SIE with (2 ^ 1). cbv zeta. set (x := put_field status _ _).
  rewrite nz_land_pow2, Z.land_spec, testbit_not64, testbit_pow2 by lia.
  change ((1 <? 64) && negb (1 =? 5)) with true. rewrite andb_true_r.
  unfold put_field. rewrite !Z.lor_0_r. by destruct (Z.testbit x 1); rewrite ?Z.lor_0_r.
Qed.

(** Previous mode in SPP, the interrupt enable moved to SPIE and cleared. *)
Lemma push_status_bits status m i :
  fits 64 status -> 0 <= i ->
  Z.testbit (push_status status m) i =
  if i =? 8 then m =? PRV_S else if i =? 5 then Z.testbit status 1 else if i =? 1 then false
  else Z.testbit status i.
Proof.
  intros Hf Hi. rewrite push_status_eq. cbv zeta.
  set (b := if m =? PRV_S then 2 ^ 8 else 0).
  assert (Hb : fits 64 b /\ forall j, 0 <= j -> Z.testbit b j = (m =? PRV_S) && (j =? 8)).
  { unfold b. destruct (m =? PRV_S); (split; [by (vm_compute; split; discriminate || reflexivity)|]); intros;
      rewrite ?testbit_pow2, ?Z.testbit_0_l by lia; done. }
  destruct Hb as [Hbf Hb]. set (x := put_field status _ _).
  assert (Hx : fits 64 x) by (by apply put_field_fits).
  assert (Hxb : forall j, 0 <= j -> Z.testbit x j =
    if j =? 8 then m =? PRV_S else Z.testbit status j).
  { intros j Hj. unfold x. rewrite put_field_bits, Hb, testbit_pow2 by (done || lia).
    destruct (j =? 8); destruct (m =? PRV_S), (Z.testbit status j); done. }
  set (c := if Z.testbit x 1 then 2 ^ 5 else 0).
  assert (Hc : fits 64 c /\ forall j, 0 <= j -> Z.testbit c j = Z.testbit status 1 && (j =? 5)).
  { unfold c. rewrite Hxb by lia. change (1 =? 8) with false. cbv iota. destruct (Z.testbit status 1);
       (split; [by (vm_compute; split; discriminate || reflexivity)|]); intros;
      rewrite ?testbit_pow2, ?Z.testbit_0_l by lia; done. }
  destruct Hc as [Hcf Hc].
  rewrite !put_field_bits, Hc, Hxb, !testbit_pow2, Z.testbit_0_l by (done || lia || by apply put_field_fits).
  destruct (Z.eqb_spec i 8), (Z.eqb_spec i 5), (Z.eqb_spec i 1); subst; try lia;
    cbn [Z.eqb Pos.eqb andb orb negb]; rewrite ?andb_false_r, ?andb_true_r, ?orb_false_r; try done.
Qed.

(** The status register that a trap out of S or U mode leaves for the return
    into S mode. *)
Definition redirected_bit (ms i : Z) : bool :=
  if i =? 39 then false else if i =? 12 then false else if i =? 11 then true
  else if i =? 8 then Z.testbit ms 11 else if i =? 5 then Z.testbit ms 1 else if i =? 1 then false
  else Z.testbit ms i.

(** Bit 12 clear means a previous mode of U or S, told apart by bit 11. *)
Lemma prev_mode_su ms :
  fits 64 ms -> Z.testbit ms 12 = false ->
  (ms .& MSTATUS_MPP) >>u MSTATUS_MPP_SHIFT = if Z.testbit ms 11 then PRV_S else PRV_U.
Proof.
  intros Hf H12. apply Z.bits_inj'. intros i Hi.
  assert (E : Z.testbit ((ms .& MSTATUS_MPP) >>u MSTATUS_MPP_SHIFT) i = (i =? 0) && Z.testbit ms 11).
  { unfold shr64. rewrite Z.shiftr_spec, Z.land_spec by done. change MSTATUS_MPP_SHIFT with 11.
    change MSTATUS_MPP with (2 ^ 11 .| 2 ^ 12). rewrite Z.lor_spec, !testbit_pow2 by lia.
    destruct (Z.eqb_spec (i + 11) 11), (Z.eqb_spec (i + 11) 12), (Z.eqb_spec i 0); subst; try lia;
      rewrite ?andb_false_r, ?andb_true_r; try done.
    by replace (i + 11) with 12 by lia. }
  rewrite E. destruct (Z.testbit ms 11); [|by rewrite andb_false_r, Z.testbit_0_l].
  change PRV_S with (2 ^ 0). by rewrite testbit_pow2, andb_true_r by lia.
Qed.

Lemma misa_extension_H `{Hardware} `{Platform} s :
  csr_val s (cur s) CSR_MISA <> 0 -> misa_extension 72 s = Ret (misa_has s 7) s.
Proof. intros. exact (ext_A_to_Z_eq "H" 7 s eq_refl ltac:(lia) ltac:(done)). Qed.

Lemma redirect_status_bits ms i :
  fits 64 ms -> Z.testbit ms 12 = false -> 0 <= i ->
  Z.testbit (push_status (put_field (put_field ms MSTATUS_MPV 0) MSTATUS_MPP (PRV_S <<u MSTATUS_MPP_SHIFT))
    (if Z.testbit ms 11 then PRV_S else PRV_U)) i = redirected_bit ms i.
Proof.
  intros Hf H12 Hi. change MSTATUS_MPV with (2 ^ 39). change (PRV_S <<u MSTATUS_MPP_SHIFT) with (2 ^ 11).
  change MSTATUS_MPP with (2 ^ 11 .| 2 ^ 12). set (x := put_field ms _ _).
  assert (Hx : fits 64 x) by (by apply put_field_fits).
  assert (Hy : fits 64 (put_field x (2 ^ 11 .| 2 ^ 12) (2 ^ 11))).
  { apply put_field_fits; [done|]. split; [discriminate|reflexivity]. }
  assert (Hbit : forall j, 0 <= j -> Z.testbit (put_field x (2 ^ 11 .| 2 ^ 12) (2 ^ 11)) j =
    if j =? 39 then false else if j =? 12 then false else if j =? 11 then true else Z.testbit ms j).
  { intros j Hj. unfold x. rewrite !put_field_bits, Z.lor_spec, !testbit_pow2, Z.testbit_0_l by done || lia.
    destruct (Z.eqb_spec j 39), (Z.eqb_spec j 12), (Z.eqb_spec j 11); subst; try lia;
      cbn [Z.eqb Pos.eqb andb orb negb]; rewrite ?andb_false_r, ?andb_true_r, ?orb_false_r; done. }
  rewrite push_status_bits, !Hbit by done || lia. unfold redirected_bit.
  destruct (Z.eqb_spec i 39), (Z.eqb_spec i 12), (Z.eqb_spec i 11), (Z.eqb_spec i 8), (Z.eqb_spec i 5);
    subst; try lia; try done.
  by destruct (Z.testbit ms 11).
Qed.

Lemma redirect_to_s_eq `{Hardware} `{Platform} s regs trap :
  csr_plain (cur s) -> csr_val s (cur s) CSR_MISA <> 0 -> misa_has s 7 = false ->
  fits 64 (mstatus regs) -> Z.testbit (mstatus regs) 12 = false ->
  fits 64 (csr_val s (cur s) CSR_STVEC) ->
  fits 64 (epc trap) -> fits 64 (cause trap) -> fits 64 (tval trap) ->
  exists s' regs', sbi_trap_redirect regs trap s = Ret (0, regs') s' /\
    gprs regs' = gprs regs /\ mepc regs' = csr_val s (cur s) CSR_STVEC /\
    (forall i, 0 <= i -> Z.testbit (mstatus regs') i = redirected_bit (mstatus regs) i) /\
    (forall c, csr_val s' (cur s) c =
       if c =? CSR_SEPC then epc trap else if c =? CSR_SCAUSE then cause trap
       else if c =? CSR_STVAL then tval trap else csr_val s (cur s) c).
Proof.
  intros Hp Hm HH Hf H12 Hv He Hc Ht. unfold sbi_trap_redirect.
  rewrite prev_mode_su by done.
  assert (Hguard : negb ((if Z.testbit (mstatus regs) 11 then PRV_S else PRV_U) =? PRV_S) &&
    negb ((if Z.testbit (mstatus regs) 11 then PRV_S else PRV_U) =? PRV_U) = false)
    by (by destruct (Z.testbit (mstatus regs) 11)).
  rewrite Hguard. rewrite (bind_ret_eq _ _ _ _ _ (misa_extension_H s Hm)), HH. cbn [andb].
  rewrite (bind_ret_eq _ _ _ _ _ (misa_extension_H s Hm)), HH. cbn [andb when].
  unfold redirect_s. repeat mstep.
  eexists _, _. split; [reflexivity|]. cbn [gprs mepc mstatus set_mepc set_mstatus].
  split; [done|]. split.
  { unfold u64. rewrite wrap_small; repeat rewrite csr_val_put_plain by done; done. }
  split; [intros; by apply redirect_status_bits|]. intros c. do 3 rewrite csr_val_put_plain by done.
  unfold u64. rewrite !wrap_small by done. by destruct (Z.eqb_spec c CSR_SCAUSE) as [->|].
Qed.

(** C24: a trap out of S or U mode that is handed down on a hart without the
    hypervisor extension: execution continues at the supervisor's trap vector
    in S mode with interrupts off; the supervisor's registers describe the trap; the
    previous mode and the previous interrupt enable are saved in SPP and SPIE;
    every other bit of the status word, every general register and every other
    control register are as before. *)
Theorem sbi_trap_redirect_to_s `{Hardware} `{Platform} s regs trap :
  csr_plain (cur s) -> csr_val s (cur s) CSR_MISA <> 0 -> misa_has s 7 = false ->
  fits 64 (mstatus regs) -> Z.testbit (mstatus regs) 12 = false ->
  fits 64 (csr_val s (cur s) CSR_STVEC) ->
  fits 64 (epc trap) -> fits 64 (cause trap) -> fits 64 (tval trap) ->
  exists s' regs', sbi_trap_redirect regs trap s = Ret (0, regs') s' /\
    gprs regs' = gprs regs /\ mepc regs' = csr_val s (cur s) CSR_STVEC /\
    (forall i, 0 <= i -> Z.testbit (mstatus regs') i = redirected_bit (mstatus regs) i) /\
    (forall c, csr_val s' (cur s) c =
       if c =? CSR_SEPC then epc trap else if c =? CSR_SCAUSE then cause trap
       else if c =? CSR_STVAL then tval trap else csr_val s (cur s) c).
Proof. apply redirect_to_s_eq. Qed.

Lemma sbi_trap_redirect_to_s_witness :
  exists s' regs', @sbi_trap_redirect plain_hw fw_platform (mkRegs (replicate 32 7) 0x80400000 0xa2 0)
      (mkTrap 0x80400000 CAUSE_LOAD_PAGE_FAULT 0x1000 0 0)
      (set_csrs <[(0, CSR_STVEC) := 0x80200000]> su_state) = Ret (0, regs') s' /\
    mepc regs' = 0x80200000 /\ Z.testbit (mstatus regs') 5 = true.
Proof.
  destruct (@sbi_trap_redirect_to_s plain_hw fw_platform (set_csrs <[(0, CSR_STVEC) := 0x80200000]> su_state)
    (mkRegs (replicate 32 7) 0x80400000 0xa2 0) (mkTrap 0x80400000 CAUSE_LOAD_PAGE_FAULT 0x1000 0 0))
    as (s' & regs' & E & _ & Hpc & Hms & _).
  - intros csr v. reflexivity.
  - vm_compute. discriminate.
  - vm_compute. reflexivity.
  - vm_compute. split; discriminate || reflexivity.
  - vm_compute. reflexivity.
  - vm_compute. split; discriminate || reflexivity.
  - vm_compute. split; discriminate || reflexivity.
  - vm_compute. split; discriminate || reflexivity.
  - vm_compute. split; discriminate || reflexivity.
  - exists s', regs'. split; [exact E|]. split; [rewrite Hpc; vm_compute; reflexivity|].
    rewrite Hms by lia. vm_compute. reflexivity.
Defined.

(** With the hypervisor extension, a trap out of a guest's supervisor mode
    that goes to the hypervisor records in SPVP the SPP bit from before the
    trap, not the mode the trap came from. *)
Example redirect_spvp_stale :
  let s := set_csrs <[(0, CSR_MISA) := 2 ^ 7]> boot_st in
  let ms := MSTATUS_MPV .| (PRV_S <<u MSTATUS_MPP_SHIFT) in
  match @sbi_trap_redirect plain_hw fw_platform (mkRegs (replicate 32 0) 0 ms 0)
          (mkTrap 0 CAUSE_LOAD_GUEST_PAGE_FAULT 0 0 0) s with
  | Ret (rc, regs) s' =>
      rc = 0 /\ Z.testbit (mstatus regs) 8 = true /\ csr_val s' 0 CSR_HSTATUS .& HSTATUS_SPVP = 0
  | Exit _ _ => False
  end.
Proof. vm_compute. auto. Qed.
