(* ===== verification/Unpriv.v ===== *)
(** Access to the memory of the interrupted context, lib/sbi/sbi_unpriv.c.

    [umem] is that memory by byte, as the context addresses it.  Address
    translation and protection are hardware: the class [Mmu] says which
    accesses fault, given the state with the status register as it is during
    the access. *)

From Stdlib Require Import String.
From S2P Require Import Prelude Encoding Bitops Machine Format Platform Console Scratch Asm Hart Trap.

(** [mem_fault s store width addr] is the cause and the trap value of a
    faulting access.  [reg_junk] is what an output register of an inline
    assembly block holds when the instruction that should have written it
    trapped, [access_pc] the address of that instruction, and [trap_vec] the
    addresses of the two handlers of expected traps. *)
Class Mmu : Type := {
  mem_fault : st -> bool -> Z -> Z -> option (Z * Z);
  reg_junk : Z;
  access_pc : Z;
  trap_vec : bool -> Z
}.

Section Unpriv.
Context `{Hardware} `{Platform} `{Mmu}.

(** Run [m] with the trap vector at the handler of expected traps and [bits]
    set in the status register. *)
Definition with_expected_trap {A} (bits : Z) (m : M A) : M A :=
  hext ← getg "sbi_hart_expected_trap_hext";
  mtvec ← csr_swap CSR_MTVEC (trap_vec (nz hext));
  mstatus ← csr_read_set CSR_MSTATUS bits;
  r ← m;
  csr_write CSR_MSTATUS mstatus;;
  csr_write CSR_MTVEC mtvec;;
  mret r.

Definition ubytes (s : st) (width : nat) (addr : Z) : list Z :=
  (fun i => default 0 (umem s !! u64 (addr + i))) <$> seqZ 0 (Z.of_nat width).

(** One load instruction; [old] is the register's value when it traps. *)
Definition load_insn (width addr old : Z) (trap : sbi_trap_info) : M (Z * sbi_trap_info) :=
  f ← gets (fun s => mem_fault s false width addr);
  match f with
  | Some (c, tv) => t ← expected_trap access_pc c tv; mret (old, t)
  | None => v ← gets (fun s => le_word (ubytes s (Z.to_nat width) addr)); mret (v, trap)
  end.
Definition store_insn (width addr v : Z) (trap : sbi_trap_info) : M sbi_trap_info :=
  f ← gets (fun s => mem_fault s true width addr);
  match f with
  | Some (c, tv) => expected_trap access_pc c tv
  | None =>
      modify (set_umem (fun m => foldl (fun m p => <[u64 (addr + p.1) := p.2]> m) m
        (zip (seqZ 0 width) (le_bytes (Z.to_nat width) v))));;
      mret trap
  end.

Definition clear_cause (trap : sbi_trap_info) : sbi_trap_info :=
  mkTrap (epc trap) 0 (tval trap) (tval2 trap) (tinst trap).
Definition set_cause (c tv : Z) (trap : sbi_trap_info) : sbi_trap_info :=
  mkTrap (epc trap) c tv (tval2 trap) (tinst trap).
Definition set_epc (pc : Z) (trap : sbi_trap_info) : sbi_trap_info :=
  mkTrap pc (cause trap) (tval trap) (tval2 trap) (tinst trap).

(** DEFINE_UNPRIVILEGED_LOAD_FUNCTION *)
Definition unpriv_load (width : Z) (conv : Z -> Z) (addr : Z) (trap : sbi_trap_info) : M (Z * sbi_trap_info) :=
  '(v, t) ← with_expected_trap MSTATUS_MPRV (load_insn width addr reg_junk (clear_cause trap));
  mret (conv v, t).
(** DEFINE_UNPRIVILEGED_STORE_FUNCTION *)
Definition unpriv_store (width addr v : Z) (trap : sbi_trap_info) : M sbi_trap_info :=
  with_expected_trap MSTATUS_MPRV (store_insn width addr v (clear_cause trap)).

Definition sbi_load_u8 := unpriv_load 1 (wrap 8).
Definition sbi_load_u16 := unpriv_load 2 (wrap 16).
Definition sbi_load_s8 := unpriv_load 1 (signed 8).
Definition sbi_load_s16 := unpriv_load 2 (signed 16).
Definition sbi_load_s32 := unpriv_load 4 (signed 32).
Definition sbi_load_u32 := unpriv_load 4 (wrap 32).
Definition sbi_load_u64 := unpriv_load 8 (wrap 64).
Definition sbi_load_ulong := unpriv_load 8 (wrap 64).
Definition sbi_store_u8 := unpriv_store 1.
Definition sbi_store_u16 := unpriv_store 2.
Definition sbi_store_u32 := unpriv_store 4.
Definition sbi_store_u64 := unpriv_store 8.

(** The fetch causes that stand for the load causes. *)
Definition fetch_cause (c : Z) : option Z :=
  if c =? CAUSE_LOAD_ACCESS then Some CAUSE_FETCH_ACCESS
  else if c =? CAUSE_LOAD_PAGE_FAULT then Some CAUSE_FETCH_PAGE_FAULT
  else if c =? CAUSE_LOAD_GUEST_PAGE_FAULT then Some CAUSE_FETCH_GUEST_PAGE_FAULT
  else None.

(** The second half of a 32-bit instruction is loaded when the low bits of the
    first are both set. *)
Definition sbi_get_insn (mepc : Z) (trap : sbi_trap_info) : M (Z * sbi_trap_info) :=
  '(insn, t) ← with_expected_trap (MSTATUS_MPRV .| MSTATUS_MXR)
    ('(insn, t) ← load_insn 2 mepc reg_junk (clear_cause trap);
     if (insn .& 3) =? 3 then
       '(hi, t) ← load_insn 2 (u64 (mepc + 2)) 0 t; mret (u64 (insn + (hi <<u 16)), t)
     else mret (insn, t));
  mret (insn, match fetch_cause (cause t) with Some c => set_cause c mepc t | None => t end).
End Unpriv.

(** Memory where no access faults. *)
Definition plain_mmu : Mmu :=
  {| mem_fault := fun _ _ _ _ => None; reg_junk := 0; access_pc := 0; trap_vec := fun _ => 0x80000400 |}.
