(* ===== verification/Misaligned.v ===== *)
(** Emulation of misaligned loads and stores,
    lib/sbi/sbi_misaligned_ldst.c, with the floating-point register macros of
    include/sbi/riscv_fp.h.

    The firmware is built for rv64imafdc, so that the branches for a 64-bit
    hart with floating-point registers are present. *)

From Stdlib Require Import String.
From S2P Require Import Prelude Encoding Bitops Machine Format Platform Console Scratch Asm Hart Trap Unpriv.

Section Misaligned.
Context `{Hardware} `{Platform} `{Mmu}.

(** * Floating-point registers

    They are kept with the other per-hart registers, at numbers above the
    control registers. *)

Definition FPR (i : Z) : Z := 0x1000 + i.
Definition FP_INDEX (insn pos : Z) : Z := (SHIFT_RIGHT insn (pos - 3) .& 0xf8) / 8.
Definition put_fpr (i v : Z) : M unit := modify (fun s => set_csrs <[(cur s, FPR i) := v]> s).
Definition GET_F64_REG (insn pos : Z) : M Z := csr_read (FPR (FP_INDEX insn pos)).
Definition GET_F32_REG (insn pos : Z) : M Z := v ← csr_read (FPR (FP_INDEX insn pos)); mret (s32 v).
Definition SET_F64_REG (insn pos v : Z) : M unit := put_fpr (FP_INDEX insn pos) (u64 v).
(** [fmv.s.x] sets the upper half of the register. *)
Definition SET_F32_REG (insn pos v : Z) : M unit :=
  put_fpr (FP_INDEX insn pos) (u32 v .| (Z.ones 32 <<u 32)).

Definition GET_F64_RS2 (insn : Z) : M Z := GET_F64_REG insn 20.
Definition GET_F32_RS2 (insn : Z) : M Z := GET_F32_REG insn 20.
Definition GET_F64_RS2C (insn : Z) : M Z := GET_F64_REG insn 2.
Definition GET_F64_RS2S (insn : Z) : M Z := GET_F64_REG (RVC_RS2S insn) 0.
Definition SET_F64_RD (insn v : Z) : M unit := SET_F64_REG insn 7 v.
Definition SET_F32_RD (insn v : Z) : M unit := SET_F32_REG insn 7 v.

(** * Loads *)

(** What the chain of conditions decides: length, shift, floating point, and
    the instruction with the destination moved to the usual field. *)
Record load_kind : Type := mkLoad { ld_len : Z; ld_shift : Z; ld_fp : bool; ld_insn : Z }.

Definition is_insn (mask match_ insn : Z) : bool := (insn .& mask) =? match_.
Definition rd_nonzero (insn : Z) : bool := nz ((insn >>u SH_RD) .& 0x1f).
Definition rd_compressed (insn : Z) : Z := RVC_RS2S insn <<u SH_RD.

Definition decode_load (insn : Z) : option load_kind :=
  if is_insn INSN_MASK_LW INSN_MATCH_LW insn then Some (mkLoad 4 (8 * (8 - 4)) false insn)
  else if is_insn INSN_MASK_LD INSN_MATCH_LD insn then Some (mkLoad 8 (8 * (8 - 8)) false insn)
  else if is_insn INSN_MASK_LWU INSN_MATCH_LWU insn then Some (mkLoad 4 0 false insn)
  else if is_insn INSN_MASK_FLD INSN_MATCH_FLD insn then Some (mkLoad 8 0 true insn)
  else if is_insn INSN_MASK_FLW INSN_MATCH_FLW insn then Some (mkLoad 4 0 true insn)
  else if is_insn INSN_MASK_LH INSN_MATCH_LH insn then Some (mkLoad 2 (8 * (8 - 2)) false insn)
  else if is_insn INSN_MASK_LHU INSN_MATCH_LHU insn then Some (mkLoad 2 0 false insn)
  else if is_insn INSN_MASK_C_LD INSN_MATCH_C_LD insn then Some (mkLoad 8 (8 * (8 - 8)) false (rd_compressed insn))
  else if is_insn INSN_MASK_C_LDSP INSN_MATCH_C_LDSP insn && rd_nonzero insn then
    Some (mkLoad 8 (8 * (8 - 8)) false insn)
  else if is_insn INSN_MASK_C_LW INSN_MATCH_C_LW insn then Some (mkLoad 4 (8 * (8 - 4)) false (rd_compressed insn))
  else if is_insn INSN_MASK_C_LWSP INSN_MATCH_C_LWSP insn && rd_nonzero insn then
    Some (mkLoad 4 (8 * (8 - 4)) false insn)
  else if is_insn INSN_MASK_C_FLD INSN_MATCH_C_FLD insn then Some (mkLoad 8 0 true (rd_compressed insn))
  else if is_insn INSN_MASK_C_FLDSP INSN_MATCH_C_FLDSP insn then Some (mkLoad 8 0 true insn)
  else None.

(** [for (i = 0; i < len; i++)]: the bytes read and the last trap. *)
Fixpoint load_bytes (n : nat) (addr : Z) (trap : sbi_trap_info) : M (list Z * sbi_trap_info) :=
  match n with
  | O => mret ([], trap)
  | S n =>
      '(b, trap) ← sbi_load_u8 addr trap;
      if nz (cause trap) then mret ([], trap)
      else '(l, trap) ← load_bytes n (u64 (addr + 1)) trap; mret (b :: l, trap)
  end.

(** The instruction, from the register that describes it or from memory. *)
Definition trapped_insn (tinst : Z) (regs : sbi_trap_regs) : M (Z * sbi_trap_info) :=
  if nz (tinst .& 1) then mret (tinst .| INSN_16BIT_MASK, mkTrap 0 0 0 0 0)
  else sbi_get_insn (mepc regs) (mkTrap 0 0 0 0 0).

Definition sbi_misaligned_load_handler (addr tval2 tinst : Z) (regs : sbi_trap_regs) :
    M (Z * sbi_trap_regs) :=
  '(insn, uptrap) ← trapped_insn tinst regs;
  if nz (cause uptrap) then sbi_trap_redirect regs (set_epc (mepc regs) uptrap)
  else
    match decode_load insn with
    | None => sbi_trap_redirect regs (mkTrap (mepc regs) CAUSE_MISALIGNED_LOAD addr tval2 tinst)
    | Some k =>
        '(bytes, uptrap) ← load_bytes (Z.to_nat (ld_len k)) addr uptrap;
        if nz (cause uptrap) then sbi_trap_redirect regs (set_epc (mepc regs) uptrap)
        else
          let val := le_word bytes in
          let insn := ld_insn k in
          regs ← (if negb (ld_fp k) then
                    mret (SET_RD insn regs ((val <<u ld_shift k) >>u ld_shift k))
                  else if ld_len k =? 8 then SET_F64_RD insn val;; mret regs
                  else SET_F32_RD insn val;; mret regs);
          mret (0, set_mepc (mepc regs + INSN_LEN insn) regs)
    end.

(** * Stores *)

(** The length and the value. *)
Definition decode_store (insn : Z) (regs : sbi_trap_regs) : M (option (Z * Z)) :=
  let int len v := mret (Some (len, v)) in
  let fp len (m : M Z) := v ← m; mret (Some (len, u64 v)) in
  if is_insn INSN_MASK_SW INSN_MATCH_SW insn then int 4 (GET_RS2 insn regs)
  else if is_insn INSN_MASK_SD INSN_MATCH_SD insn then int 8 (GET_RS2 insn regs)
  else if is_insn INSN_MASK_FSD INSN_MATCH_FSD insn then fp 8 (GET_F64_RS2 insn)
  else if is_insn INSN_MASK_FSW INSN_MATCH_FSW insn then fp 4 (GET_F32_RS2 insn)
  else if is_insn INSN_MASK_SH INSN_MATCH_SH insn then int 2 (GET_RS2 insn regs)
  else if is_insn INSN_MASK_C_SD INSN_MATCH_C_SD insn then int 8 (GET_RS2S insn regs)
  else if is_insn INSN_MASK_C_SDSP INSN_MATCH_C_SDSP insn && rd_nonzero insn then int 8 (GET_RS2C insn regs)
  else if is_insn INSN_MASK_C_SW INSN_MATCH_C_SW insn then int 4 (GET_RS2S insn regs)
  else if is_insn INSN_MASK_C_SWSP INSN_MATCH_C_SWSP insn && rd_nonzero insn then int 4 (GET_RS2C insn regs)
  else if is_insn INSN_MASK_C_FSD INSN_MATCH_C_FSD insn then fp 8 (GET_F64_RS2S insn)
  else if is_insn INSN_MASK_C_FSDSP INSN_MATCH_C_FSDSP insn then fp 8 (GET_F64_RS2C insn)
  else mret None.

Fixpoint store_bytes (bytes : list Z) (addr : Z) (trap : sbi_trap_info) : M sbi_trap_info :=
  match bytes with
  | [] => mret trap
  | b :: bytes =>
      trap ← sbi_store_u8 addr b trap;
      if nz (cause trap) then mret trap else store_bytes bytes (u64 (addr + 1)) trap
  end.

Definition sbi_misaligned_store_handler (addr tval2 tinst : Z) (regs : sbi_trap_regs) :
    M (Z * sbi_trap_regs) :=
  '(insn, uptrap) ← trapped_insn tinst regs;
  if nz (cause uptrap) then sbi_trap_redirect regs (set_epc (mepc regs) uptrap)
  else
    k ← decode_store insn regs;
    match k with
    | None => sbi_trap_redirect regs (mkTrap (mepc regs) CAUSE_MISALIGNED_STORE addr tval2 tinst)
    | Some (len, val) =>
        uptrap ← store_bytes (take (Z.to_nat len) (le_bytes 8 val)) addr uptrap;
        if nz (cause uptrap) then sbi_trap_redirect regs (set_epc (mepc regs) uptrap)
        else mret (0, set_mepc (mepc regs + INSN_LEN insn) regs)
    end.
End Misaligned.

(** * Loads that do not fault *)

Section LoadProps.
Context `{Hardware} `{Platform} `{Mmu}.

(** The same context: registers, memories and variables read the same. *)
Definition same_ctx (s s' : st) : Prop :=
  cur s' = cur s /\ (forall h c, csr_val s' h c = csr_val s h c) /\ mem s' = mem s /\ umem s' = umem s /\
  glob s' = glob s.

Lemma same_ctx_refl s : same_ctx s s.
Proof. by repeat split. Qed.
Lemma same_ctx_trans s1 s2 s3 : same_ctx s1 s2 -> same_ctx s2 s3 -> same_ctx s1 s3.
Proof.
  intros (C1 & R1 & M1 & U1 & G1) (C2 & R2 & M2 & U2 & G2). unfold same_ctx.
  rewrite C2, C1, M2, M1, U2, U1, G2, G1. repeat split. intros. by rewrite R2.
Qed.

(** The two registers an access changes for its duration hold words. *)
Definition ctx_ok (s : st) : Prop :=
  csr_plain (cur s) /\ fits 64 (csr_val s (cur s) CSR_MSTATUS) /\ fits 64 (csr_val s (cur s) CSR_MTVEC).

Lemma ctx_ok_same s s' : ctx_ok s -> same_ctx s s' -> ctx_ok s'.
Proof. intros (Hp & Hm & Ht) (C & R & _). unfold ctx_ok. by rewrite C, !R. Qed.

(** The state during an access, and after it. *)
Definition during (bits : Z) (s : st) : st :=
  let s1 := put_csr CSR_MTVEC (trap_vec (nz (gval s "sbi_hart_expected_trap_hext"))) s in
  put_csr CSR_MSTATUS (csr_val s1 (cur s) CSR_MSTATUS .| bits) s1.

Lemma put_csr_other s h csr v c :
  (h, c) <> (cur s, csr) -> csr_val (put_csr csr v s) h c = csr_val s h c.
Proof. intros. unfold csr_val, put_csr. simpl. by rewrite lookup_insert_ne. Qed.

(** An access whose body returns and touches none of the two registers. *)
Lemma with_expected_trap_ok {A} bits (m : M A) (r : A) s s1 :
  ctx_ok s -> m (during bits s) = Ret r s1 ->
  cur s1 = cur s -> (forall h c, csr_val s1 h c = csr_val (during bits s) h c) ->
  exists s', with_expected_trap bits m s = Ret r s' /\ cur s' = cur s /\
    (forall h c, csr_val s' h c = csr_val s h c) /\ mem s' = mem s1 /\ umem s' = umem s1 /\ glob s' = glob s1.
Proof.
  intros (Hp & Hms & Htv) E Hc Hr. unfold with_expected_trap, csr_swap, csr_read_set. repeat mstep.
  eexists. split; [done|]. split; [done|].
  split; [|by repeat split]. intros h c.
  assert (Hms' : csr_val (put_csr CSR_MTVEC (trap_vec (nz (gval s "sbi_hart_expected_trap_hext"))) s)
    (cur s) CSR_MSTATUS = csr_val s (cur s) CSR_MSTATUS) by (by apply put_csr_other; intros [=]).
  simpl cur. rewrite Hms'.
  destruct (decide (h = cur s)) as [->|Hh].
  - rewrite csr_val_put_plain by (exact Hc || done). destruct (Z.eqb_spec c CSR_MTVEC) as [->|Hne].
    { unfold u64. by rewrite wrap_small. }
    rewrite csr_val_put_plain by done. destruct (Z.eqb_spec c CSR_MSTATUS) as [->|Hne2].
    { unfold u64. by rewrite wrap_small. }
    rewrite Hr. unfold during. rewrite !put_csr_other; [done|simpl; congruence|simpl; congruence].
  - rewrite !put_csr_other by (simpl; congruence). rewrite Hr. unfold during.
    rewrite !put_csr_other by (simpl; congruence). done.
Qed.

(** No access of the given kind in the range faults. *)
Definition no_fault (store : bool) (addr : Z) (n : nat) : Prop :=
  forall s i, 0 <= i < Z.of_nat n -> mem_fault s store 1 (addr + i) = None.

Definition ubyte (s : st) (a : Z) : Z := default 0 (umem s !! a).

Lemma load_u8_ok addr trap s :
  ctx_ok s -> fits 64 addr -> fits 8 (ubyte s addr) -> no_fault false addr 1 ->
  exists s', sbi_load_u8 addr trap s = Ret (ubyte s addr, clear_cause trap) s' /\ same_ctx s s'.
Proof.
  intros Hok Ha Hb Hf. unfold sbi_load_u8, unpriv_load.
  destruct (with_expected_trap_ok MSTATUS_MPRV (load_insn 1 addr reg_junk (clear_cause trap))
    (ubyte s addr, clear_cause trap) s (during MSTATUS_MPRV s)) as (s' & E & Hrest); try done.
  { unfold load_insn. mstep. pose proof (Hf (during MSTATUS_MPRV s) 0 ltac:(lia)) as Hn.
    rewrite Z.add_0_r in Hn. rewrite Hn. repeat mstep. unfold ubytes. simpl. unfold u64.
    rewrite Z.add_0_r. change (Z.of_nat 0) with 0. rewrite !Z.add_0_r, (wrap_small 64) by done. done. }
  rewrite (bind_ret_eq _ _ _ _ _ E). rewrite wrap_small by done. by eexists.
Qed.

(** The bytes of a range that does not wrap. *)
Definition urange (s : st) (addr : Z) (n : nat) : list Z :=
  (fun i => ubyte s (addr + i)) <$> seqZ 0 (Z.of_nat n).

Lemma urange_S s addr n : urange s addr (S n) = ubyte s addr :: urange s (addr + 1) n.
Proof.
  unfold urange. rewrite seqZ_cons by lia. rewrite fmap_cons, Z.add_0_r. f_equal.
  replace (Z.pred (Z.of_nat (S n))) with (Z.of_nat n) by lia.
  apply list_eq. intros k. rewrite !list_lookup_fmap. change (Z.succ 0) with 1.
  destruct (decide (Z.of_nat k < Z.of_nat n)).
  - rewrite !lookup_seqZ_lt by lia. simpl. by replace (addr + 1 + (0 + Z.of_nat k)) with (addr + (1 + Z.of_nat k)) by lia.
  - rewrite !lookup_seqZ_ge by lia. done.
Qed.

Lemma load_bytes_ok n : forall addr trap s,
  ctx_ok s -> 0 <= addr -> addr + Z.of_nat n <= 2 ^ 64 - 1 -> cause trap = 0 ->
  (forall i, 0 <= i < Z.of_nat n -> fits 8 (ubyte s (addr + i))) -> no_fault false addr n ->
  exists t s', load_bytes n addr trap s = Ret (urange s addr n, t) s' /\ cause t = 0 /\ same_ctx s s'.
Proof.
  induction n as [|n IH]; intros addr trap s Hok Ha Hw Hc Hb Hf.
  { exists trap, s. split; [done|]. split; [done|apply same_ctx_refl]. }
  destruct (load_u8_ok addr trap s) as (s1 & E1 & H1'); [done|unfold fits; lia| | |].
  { specialize (Hb 0 ltac:(lia)). by rewrite Z.add_0_r in Hb. }
  { intros s0 i Hi. apply Hf. lia. }
  cbn [load_bytes]. rewrite (bind_ret_eq _ _ _ _ _ E1). change (nz (cause (clear_cause trap))) with false. cbv iota beta.
  unfold u64. rewrite wrap_small by (unfold fits; lia).
  assert (Hub : forall a, ubyte s1 a = ubyte s a).
  { destruct H1' as (_ & _ & _ & U & _). intros. unfold ubyte. by rewrite U. }
  destruct (IH (addr + 1) (clear_cause trap) s1) as (t & s2 & E2 & Ht & H2').
  - by eapply ctx_ok_same.
  - lia.
  - lia.
  - done.
  - intros i Hi. rewrite Hub. replace (addr + 1 + i) with (addr + (1 + i)) by lia. apply Hb. lia.
  - intros s0 i Hi. replace (addr + 1 + i) with (addr + (1 + i)) by lia. apply Hf. lia.
  - rewrite (bind_ret_eq _ _ _ _ _ E2). exists t, s2.
    assert (Hur : urange s1 (addr + 1) n = urange s (addr + 1) n).
    { unfold urange. apply list_fmap_ext. intros. by rewrite Hub. }
    rewrite urange_S, Hur. split; [done|]. split; [done|]. by eapply same_ctx_trans.
Qed.

Lemma le_word_bound l : Forall (fits 8) l -> fits (8 * Z.of_nat (length l)) (le_word l).
Proof.
  induction 1 as [|b l Hb Hl IH]; [done|]. simpl. unfold fits in *.
  replace (8 * Z.of_nat (S (length l))) with (8 + 8 * Z.of_nat (length l)) by lia.
  rewrite Z.pow_add_r by lia. change (2 ^ 8) with 256 in *. nia.
Qed.

Lemma urange_fits s addr len :
  0 <= len -> (forall a, fits 8 (ubyte s a)) -> fits (8 * len) (le_word (urange s addr (Z.to_nat len))).
Proof.
  intros Hn Hb. replace (8 * len) with (8 * Z.of_nat (length (urange s addr (Z.to_nat len)))).
  - apply le_word_bound, Forall_fmap, Forall_forall. intros. apply Hb.
  - unfold urange. rewrite length_fmap, length_seqZ. lia.
Qed.

(** Shifting a value of [64 - k] bits up and down again. *)
Lemma shl_shr_id v k : 0 <= k <= 64 -> fits (64 - k) v -> (v <<u k) >>u k = v.
Proof.
  intros Hk Hv. unfold shl64, shr64, u64, wrap. rewrite Z.shiftl_mul_pow2, Z.shiftr_div_pow2 by lia.
  assert (v * 2 ^ k < 2 ^ 64).
  { replace 64 with ((64 - k) + k) at 1 by lia. rewrite Z.pow_add_r by lia. unfold fits in Hv.
    apply Z.mul_lt_mono_pos_r; [apply Z.pow_pos_nonneg|]; lia. }
  unfold fits in Hv. rewrite Z.mod_small by (split; [apply Z.mul_nonneg_nonneg; lia|done]).
  apply Z.div_mul. lia.
Qed.

Lemma decode_load_shape insn k :
  decode_load insn = Some k -> (ld_len k = 2 \/ ld_len k = 4 \/ ld_len k = 8) /\
    (ld_shift k = 0 \/ ld_shift k = 64 - 8 * ld_len k).
Proof. unfold decode_load. intros E. repeat case_match; simplify_eq; simpl; lia. Qed.

Lemma load_handler_int addr tv2 tinst regs insn t k s s1 :
  ctx_ok s -> trapped_insn tinst regs s = Ret (insn, t) s1 -> same_ctx s s1 -> cause t = 0 ->
  decode_load insn = Some k -> ld_fp k = false ->
  0 <= addr -> addr + ld_len k < 2 ^ 64 ->
  (forall a, fits 8 (ubyte s a)) -> no_fault false addr (Z.to_nat (ld_len k)) ->
  exists s', sbi_misaligned_load_handler addr tv2 tinst regs s =
    Ret (0, set_mepc (mepc regs + INSN_LEN (ld_insn k))
              (SET_RD (ld_insn k) regs (le_word (urange s addr (Z.to_nat (ld_len k)))))) s' /\
    same_ctx s s'.
Proof.
  intros Hok Ei H1' Hc Hk Hfp Ha Hw Hb Hf. unfold sbi_misaligned_load_handler.
  rewrite (bind_ret_eq _ _ _ _ _ Ei), Hc, Hk. change (nz 0) with false. cbv iota beta.
  destruct (decode_load_shape _ _ Hk) as [Hlen Hsh].
  assert (Hub : forall a, ubyte s1 a = ubyte s a).
  { destruct H1' as (_ & _ & _ & U & _). intros. unfold ubyte. by rewrite U. }
  destruct (load_bytes_ok (Z.to_nat (ld_len k)) addr t s1) as (t2 & s2 & E2 & Ht2 & H2');
    [by eapply ctx_ok_same|done|lia|done|by intros; rewrite Hub|done|].
  rewrite (bind_ret_eq _ _ _ _ _ E2), Ht2, Hfp. change (nz 0) with false. cbv iota beta. change (negb false) with true. cbv iota beta. repeat mstep.
  assert (Hur : urange s1 addr (Z.to_nat (ld_len k)) = urange s addr (Z.to_nat (ld_len k))).
  { unfold urange. apply list_fmap_ext. intros. by rewrite Hub. }
  rewrite Hur. set (l := urange s addr _). exists s2. split; [|by eapply same_ctx_trans].
  assert (Hl : fits (8 * ld_len k) (le_word l)) by (apply urange_fits; done || lia).
  rewrite shl_shr_id; [done|lia|]. destruct Hsh as [-> | ->]; [|by replace (64 - (64 - 8 * ld_len k)) with (8 * ld_len k) by lia].
  unfold fits in *. split; [lia|]. eapply Z.lt_le_trans; [apply Hl|]. apply Z.pow_le_mono_r; lia.
Qed.
End LoadProps.

(** * The trapped instruction *)

Section Fetch.
Context `{Hardware} `{Platform} `{Mmu}.

(** The instruction at [pc] in memory. *)
Definition insn_at (s : st) (pc : Z) : Z :=
  let lo := le_word (ubytes s 2 pc) in
  if (lo .& 3) =? 3 then u64 (lo + (le_word (ubytes s 2 (u64 (pc + 2))) <<u 16)) else lo.

(** The instruction a handler works on, and that it can be had. *)
Definition the_insn (tinst : Z) (regs : sbi_trap_regs) (s : st) : Z :=
  if nz (tinst .& 1) then tinst .| INSN_16BIT_MASK else insn_at s (mepc regs).
Definition insn_readable (tinst : Z) (regs : sbi_trap_regs) : Prop :=
  nz (tinst .& 1) = true \/
  forall s, mem_fault s false 2 (mepc regs) = None /\ mem_fault s false 2 (u64 (mepc regs + 2)) = None.

Lemma trapped_insn_ok tinst regs s :
  ctx_ok s -> insn_readable tinst regs ->
  exists t s', trapped_insn tinst regs s = Ret (the_insn tinst regs s, t) s' /\ cause t = 0 /\ same_ctx s s'.
Proof.
  unfold insn_readable. intros Hok Hr. unfold trapped_insn, the_insn. destruct (nz (tinst .& 1)).
  { eexists _, _. split; [reflexivity|]. split; [done|apply same_ctx_refl]. }
  destruct Hr as [|Hr]; [done|]. unfold sbi_get_insn. set (bits := MSTATUS_MPRV .| MSTATUS_MXR).
  match goal with |- context [with_expected_trap bits ?m] =>
    destruct (with_expected_trap_ok bits m (insn_at s (mepc regs), clear_cause (mkTrap 0 0 0 0 0)) s (during bits s))
      as (s' & E & Hrest); try done end.
  { unfold load_insn. mstep. destruct (Hr (during bits s)) as [H2 H2']. rewrite H2. repeat mstep. unfold insn_at.
    change (ubytes (during bits s)) with (ubytes s). change (Z.to_nat 2) with 2%nat.
    destruct (_ =? 3); [|reflexivity]. repeat mstep. rewrite H2'. repeat mstep. reflexivity. }
  rewrite (bind_ret_eq _ _ _ _ _ E). eexists _, s'. split; [reflexivity|]. split; [done|]. done.
Qed.
End Fetch.

(** * The loads of the architecture *)

(** Bits [pos] to [pos + w - 1] of an instruction. *)
Definition insn_field (insn pos w : Z) : Z := Z.shiftr insn pos .& Z.ones w.

(** An integer load: the bytes it reads, whether it extends the sign of a
    value narrower than a register, and the destination. *)
Record int_load : Type := mkIntLoad { il_len : Z; il_signed : bool; il_rd : Z }.

(** The integer loads that can be misaligned, by the opcode and function
    fields of the instruction formats I, CL and CI. *)
Definition int_load_of (insn : Z) : option int_load :=
  let rd := insn_field insn 7 5 in
  let crd := 8 + insn_field insn 2 3 in
  let op := insn_field insn 0 2 in
  let funct3 := insn_field insn 12 3 in
  let cfunct3 := insn_field insn 13 3 in
  if op =? 3 then
    if insn_field insn 0 7 =? 3 then
      if funct3 =? 1 then Some (mkIntLoad 2 true rd)          (* lh *)
      else if funct3 =? 2 then Some (mkIntLoad 4 true rd)     (* lw *)
      else if funct3 =? 3 then Some (mkIntLoad 8 false rd)    (* ld *)
      else if funct3 =? 5 then Some (mkIntLoad 2 false rd)    (* lhu *)
      else if funct3 =? 6 then Some (mkIntLoad 4 false rd)    (* lwu *)
      else None
    else None
  else if op =? 0 then
    if cfunct3 =? 2 then Some (mkIntLoad 4 true crd)          (* c.lw *)
    else if cfunct3 =? 3 then Some (mkIntLoad 8 false crd)    (* c.ld *)
    else None
  else if (op =? 2) && negb (rd =? 0) then
    if cfunct3 =? 2 then Some (mkIntLoad 4 true rd)           (* c.lwsp *)
    else if cfunct3 =? 3 then Some (mkIntLoad 8 false rd)     (* c.ldsp *)
    else None
  else None.

(** What the load leaves in the register, for the bytes read as [v]. *)
Definition il_value (a : int_load) (v : Z) : Z :=
  if il_signed a then u64 (signed (8 * il_len a) v) else v.

(** A transformed instruction with bit 1 clear stands for a compressed one. *)
Definition compressed_form (tinst : Z) : bool := nz (tinst .& 1) && negb (nz (tinst .& 2)).

(** The bytes of the trapped instruction in memory. *)
Definition insn_bytes (tinst insn : Z) : Z := if compressed_form tinst then 2 else INSN_LEN insn.

Lemma field_bound insn pos w : 0 <= w -> 0 <= insn_field insn pos w < 2 ^ w.
Proof. intros Hw. unfold insn_field. rewrite Z.land_ones by done. apply Z.mod_pos_bound. by apply Z.pow_pos_nonneg. Qed.

(** Two fields under one mask. *)
Lemma land_fields insn w q v :
  0 <= w <= q -> 0 <= v ->
  insn .& (Z.ones w .| Z.shiftl (Z.ones v) q) = insn_field insn 0 w .| Z.shiftl (insn_field insn q v) q.
Proof.
  intros Hw Hv. unfold insn_field. rewrite Z.shiftr_0_r. apply Z.bits_inj'. intros i Hi.
  rewrite Z.land_spec, !Z.lor_spec, Z.land_spec, !Z.shiftl_spec by done.
  destruct (Z.ltb_spec i q).
  - rewrite !(Z.testbit_neg_r _ (i - q)) by lia. by rewrite !orb_false_r.
  - rewrite Z.land_spec, Z.shiftr_spec by lia. replace (i - q + q) with i by lia.
    rewrite (Z.ones_spec_high w) by lia. by rewrite andb_false_r.
Qed.

Lemma land_0x707f insn : insn .& 0x707f = insn_field insn 0 7 .| Z.shiftl (insn_field insn 12 3) 12.
Proof. apply (land_fields insn 7 12 3); lia. Qed.
Lemma land_0xe003 insn : insn .& 0xe003 = insn_field insn 0 2 .| Z.shiftl (insn_field insn 13 3) 13.
Proof. apply (land_fields insn 2 13 3); lia. Qed.

(** An uncompressed instruction has both low bits set. *)
Lemma not_uncompressed insn m : insn_field insn 0 2 <> 3 -> m .& 3 = 3 -> is_insn 0x707f m insn = false.
Proof.
  intros Hop Hm. apply Z.eqb_neq. intros E. apply Hop. unfold insn_field. rewrite Z.shiftr_0_r.
  change (Z.ones 2) with (0x707f .& 3). by rewrite Z.land_assoc, E.
Qed.

Lemma REG_INDEX_rd insn : REG_INDEX insn SH_RD = insn_field insn 7 5.
Proof.
  unfold REG_INDEX, REG_OFFSET, insn_field, SHIFT_RIGHT, shr64. change (SH_RD - LOG_REGBYTES) with 4. change (4 <? 0) with false.
  cbv iota. change REG_MASK with 248. change 8 with (2 ^ 3). rewrite <- Z.shiftr_div_pow2, Z.shiftr_land, Z.shiftr_shiftr by lia.
  done.
Qed.

Lemma INSN_LEN_field insn : INSN_LEN insn = if insn_field insn 0 2 =? 3 then 4 else 2.
Proof.
  unfold INSN_LEN, INSN_IS_16BIT, insn_field, INSN_16BIT_MASK. rewrite Z.shiftr_0_r. change (Z.ones 2) with 3.
  by destruct (_ =? 3).
Qed.

(** The destination of a compressed load, moved to the usual field, leaves a
    word that the length macro takes for a compressed instruction. *)
Lemma rd_compressed_fields insn :
  REG_INDEX (rd_compressed insn) SH_RD = 8 + insn_field insn 2 3 /\ INSN_LEN (rd_compressed insn) = 2.
Proof.
  unfold rd_compressed, RVC_RS2S. change (RV_X insn SH_RS2C 3) with (insn_field insn 2 3).
  pose proof (field_bound insn 2 3 ltac:(lia)) as Hf. set (f := insn_field insn 2 3) in *. clearbody f.
  change (2 ^ 3) with 8 in Hf.
  assert (f = 0 \/ f = 1 \/ f = 2 \/ f = 3 \/ f = 4 \/ f = 5 \/ f = 6 \/ f = 7) as Hc by lia.
  destruct_or! Hc; subst; by vm_compute.
Qed.

(** The chain of masks finds every integer load, with its length, destination
    and size. *)
Definition decodes (insn : Z) (a : int_load) : Prop :=
  exists k, decode_load insn = Some k /\ ld_fp k = false /\ ld_len k = il_len a /\
    REG_INDEX (ld_insn k) SH_RD = il_rd a /\ INSN_LEN (ld_insn k) = INSN_LEN insn.

Lemma decode_uncompressed insn len sg f m :
  insn_field insn 0 7 = 3 -> insn_field insn 12 3 = f -> m = 3 .| Z.shiftl f 12 ->
  (m = INSN_MATCH_LH /\ len = 2 \/ m = INSN_MATCH_LW /\ len = 4 \/ m = INSN_MATCH_LD /\ len = 8 \/
   m = INSN_MATCH_LHU /\ len = 2 \/ m = INSN_MATCH_LWU /\ len = 4) ->
  decodes insn (mkIntLoad len sg (insn_field insn 7 5)).
Proof.
  intros H7 Hf Hm Hc. pose proof (land_0x707f insn) as E. rewrite H7, Hf, <- Hm in E. clear Hm.
  unfold decodes, decode_load, is_insn.
  unfold INSN_MASK_LW, INSN_MASK_LD, INSN_MASK_LWU, INSN_MASK_FLD, INSN_MASK_FLW, INSN_MASK_LH, INSN_MASK_LHU.
  rewrite E. destruct Hc as [[-> ->]|[[-> ->]|[[-> ->]|[[-> ->]|[-> ->]]]]]; eexists; (split; [reflexivity|]);
    (split; [done|]); (split; [done|]); (split; [apply REG_INDEX_rd|done]).
Qed.

Lemma decode_compressed insn len sg f rd :
  insn_field insn 0 2 = 0 /\ rd = 8 + insn_field insn 2 3 \/ insn_field insn 0 2 = 2 /\ rd = insn_field insn 7 5 /\ rd <> 0 ->
  insn_field insn 13 3 = f -> (f = 2 /\ len = 4 \/ f = 3 /\ len = 8) -> decodes insn (mkIntLoad len sg rd).
Proof.
  intros Hop Hf Hc. assert (Hne : insn_field insn 0 2 <> 3) by lia.
  unfold decodes. rewrite (INSN_LEN_field insn), (proj2 (Z.eqb_neq _ _) Hne). unfold decode_load.
  unfold INSN_MASK_LW, INSN_MASK_LD, INSN_MASK_LWU, INSN_MASK_FLD, INSN_MASK_FLW, INSN_MASK_LH, INSN_MASK_LHU.
  rewrite !not_uncompressed by done. unfold is_insn.
  unfold INSN_MASK_C_LD, INSN_MASK_C_LDSP, INSN_MASK_C_LW, INSN_MASK_C_LWSP. rewrite land_0xe003, Hf.
  destruct Hop as [[-> ->]|(Ho & -> & Hrd)].
  - destruct (rd_compressed_fields insn) as [Hrd Hl]. destruct Hc as [[-> ->]|[-> ->]]; eexists; (split; [reflexivity|]);
      (split; [done|]); (split; [done|]); split; done.
  - assert (Hz : rd_nonzero insn = true) by (by apply nz_true).
    rewrite Hz, Ho. destruct Hc as [[-> ->]|[-> ->]]; eexists; (split; [reflexivity|]);
      (split; [done|]); (split; [done|]); (split; [apply REG_INDEX_rd|]);
      cbn [ld_insn]; by rewrite INSN_LEN_field, Ho.
Qed.

Lemma decode_int_load insn a : int_load_of insn = Some a -> decodes insn a.
Proof.
  unfold int_load_of. destruct (Z.eqb_spec (insn_field insn 0 2) 3) as [Hop|Hop].
  - destruct (Z.eqb_spec (insn_field insn 0 7) 3) as [H7|]; [|done].
    bool_cases; intros [= <-]; eapply decode_uncompressed; try done; auto 10.
  - destruct (Z.eqb_spec (insn_field insn 0 2) 0) as [H0|H0].
    + bool_cases; intros [= <-]; eapply decode_compressed; eauto.
    + bool_cases; intros [= <-]; eapply decode_compressed; eauto.
Qed.

(** Extending the sign changes a value exactly when its top bit is set. *)
Lemma il_value_iff a v :
  0 < il_len a < 8 \/ il_signed a = false -> fits (8 * il_len a) v ->
  v = il_value a v <-> (il_signed a = true -> v < 2 ^ (8 * il_len a - 1)).
Proof.
  intros Hl Hv. unfold il_value. destruct (il_signed a); [|done]. destruct Hl as [Hl|]; [|done].
  unfold signed. rewrite wrap_small by done. destruct (Z.ltb_spec v (2 ^ (8 * il_len a - 1))) as [Hlt|Hge].
  - unfold u64. rewrite wrap_small; [done|]. unfold fits in *. split; [lia|].
    eapply Z.lt_trans; [apply Hv|]. apply Z.pow_lt_mono_r; lia.
  - split; [|intros Hc; specialize (Hc eq_refl); lia]. intros E. exfalso.
    assert (2 ^ (8 * il_len a) < 2 ^ 64) by (apply Z.pow_lt_mono_r; lia).
    unfold u64, wrap, fits in *. rewrite <- (Z_mod_plus_full _ 1), Z.mod_small in E by lia. lia.
Qed.

Lemma int_load_of_len insn a : int_load_of insn = Some a -> 0 < il_len a < 8 \/ il_signed a = false.
Proof. unfold int_load_of. repeat case_match; intros; simplify_eq; simpl; lia || auto. Qed.

(** The program counter reaches the next instruction unless the instruction
    was given in transformed, compressed form. *)
Lemma next_pc_iff tinst regs s pc :
  let insn := the_insn tinst regs s in
  u64 (pc + INSN_LEN insn) = u64 (pc + insn_bytes tinst insn) <-> compressed_form tinst = false.
Proof.
  unfold insn_bytes. destruct (compressed_form tinst) eqn:Ec; [|done].
  apply andb_true_iff in Ec as [Ec _]. unfold the_insn. rewrite Ec.
  assert (INSN_LEN (tinst .| INSN_16BIT_MASK) = 4) as ->.
  { unfold INSN_LEN, INSN_IS_16BIT. rewrite Z.land_lor_distr_l, Z.land_diag.
    assert (tinst .& INSN_16BIT_MASK .| INSN_16BIT_MASK = INSN_16BIT_MASK) as ->; [|done].
    apply Z.bits_inj'. intros i Hi. rewrite Z.lor_spec, Z.land_spec. by destruct (Z.testbit tinst i), (Z.testbit _ i). }
  split; [|done]. unfold u64, wrap. intros Hw. exfalso.
  assert (((pc + 4) - (pc + 2)) mod 2 ^ 64 = 0) by (rewrite Zminus_mod, Hw, Z.sub_diag; done).
  replace (pc + 4 - (pc + 2)) with 2 in * by lia. done.
Qed.

(** C25: emulating a misaligned integer load whose bytes can be read: the
    handler returns 0, memory, control registers (the status register and the
    trap vector included) and variables are as before, no general register but
    the destination changes, and
    - the destination receives the little-endian value of the bytes.  That is
      what the architecture asks for exactly when the load is unsigned, is
      doubleword-wide, or reads a non-negative value: a negative value of
      [LH], [LW], [C.LW] or [C.LWSP] is left zero-extended;
    - the program counter moves by the length of the instruction word that was
      decoded.  That is the next instruction exactly when the trapped
      instruction was not given in transformed, compressed form, where the
      move is four bytes over an instruction of two. *)
Theorem misaligned_load_value `{Hardware} `{Platform} `{Mmu} addr tv2 tinst regs a s :
  let insn := the_insn tinst regs s in
  ctx_ok s -> insn_readable tinst regs -> int_load_of insn = Some a -> length (gprs regs) = 32%nat ->
  0 <= addr -> addr + il_len a < 2 ^ 64 ->
  (forall x, fits 8 (ubyte s x)) -> no_fault false addr (Z.to_nat (il_len a)) ->
  let v := le_word (urange s addr (Z.to_nat (il_len a))) in
  exists regs' s', sbi_misaligned_load_handler addr tv2 tinst regs s = Ret (0, regs') s' /\
    same_ctx s s' /\ mstatus regs' = mstatus regs /\
    (forall i, 0 <= i < 32 -> i <> il_rd a -> gpr regs' i = gpr regs i) /\
    gpr regs' (il_rd a) = v /\
    (gpr regs' (il_rd a) = il_value a v <-> (il_signed a = true -> v < 2 ^ (8 * il_len a - 1))) /\
    mepc regs' = u64 (mepc regs + INSN_LEN insn) /\
    (mepc regs' = u64 (mepc regs + insn_bytes tinst insn) <-> compressed_form tinst = false).
Proof.
  intros insn Hok Hri Ha Hl Haddr Hw Hb Hf v.
  destruct (trapped_insn_ok tinst regs s Hok Hri) as (t & s1 & Ei & Hc & Hs1). fold insn in Ei.
  destruct (decode_int_load _ _ Ha) as (k & Hk & Hfp & Hlen & Hrd & Hil). rewrite <- Hlen in Hw, Hf.
  destruct (load_handler_int addr tv2 tinst regs insn t k s s1) as (s' & E & Hs'); try done.
  rewrite Hlen, Hil in E. fold v in E. unfold SET_RD in E. rewrite Hrd in E.
  assert (Hv : fits (8 * il_len a) v).
  { apply urange_fits; [|done]. destruct (decode_load_shape _ _ Hk) as [? _]. lia. }
  assert (Hr : 0 <= il_rd a < 32) by (rewrite <- Hrd, REG_INDEX_rd; apply (field_bound _ 7 5); lia).
  exists (set_mepc (mepc regs + INSN_LEN insn) (set_gpr (il_rd a) v regs)), s'.
  split; [exact E|]. split; [done|]. split; [done|].
  assert (Hg : forall i, 0 <= i -> gpr (set_mepc (mepc regs + INSN_LEN insn) (set_gpr (il_rd a) v regs)) i =
    if i =? il_rd a then u64 v else gpr regs i) by (intros i Hi; by apply gpr_set_gpr).
  assert (Hu : u64 v = v).
  { apply wrap_small. destruct (decode_load_shape _ _ Hk) as [? _]. unfold fits in *. split; [lia|].
    eapply Z.lt_le_trans; [apply Hv|]. apply Z.pow_le_mono_r; lia. }
  split; [intros i Hi Hne; by rewrite Hg, (proj2 (Z.eqb_neq _ _) Hne) by lia|].
  rewrite Hg, Z.eqb_refl, Hu by lia. split; [done|]. split; [by apply il_value_iff; [eapply int_load_of_len|]|].
  split; [done|]. apply next_pc_iff.
Qed.

(** [lw a0, 0(a1)] at 0x80200000, and a word at 0x80300001. *)
Definition mis_state : st :=
  set_umem (fun _ => {[ 0x80200000 := 0x03; 0x80200001 := 0xa5; 0x80200002 := 0x05; 0x80200003 := 0;
                        0x80300001 := 0xfe; 0x80300002 := 0xff; 0x80300003 := 0xff; 0x80300004 := 0xff;
                        0x80300005 := 0x12 ]}) boot_st.
Definition mis_regs : sbi_trap_regs := mkRegs (replicate 32 0) 0x80200000 0x880 0.

Lemma mis_state_bytes a : fits 8 (ubyte mis_state a).
Proof.
  assert (Hall : map_Forall (fun _ v => fits 8 v) (umem mis_state)).
  { repeat (apply map_Forall_insert_2; [vm_compute; split; discriminate || reflexivity|]).
    apply map_Forall_empty. }
  unfold ubyte. destruct (umem mis_state !! a) as [v|] eqn:E; [|done]. by apply (Hall a).
Qed.

Lemma mis_state_ok : @ctx_ok plain_hw mis_state.
Proof. split; [by intros ? ?|]. vm_compute. repeat split; discriminate || reflexivity. Qed.

(** [lwu a0, 0(a1)] as the register that describes the trapped instruction,
    and the [lw a0, 0(a1)] in memory: the second reads -2 and leaves it
    zero-extended. *)
Lemma misaligned_load_value_witness :
  (exists regs' s', @sbi_misaligned_load_handler plain_hw fw_platform plain_mmu 0x80300001 0 0x6503 mis_regs mis_state =
    Ret (0, regs') s' /\ gpr regs' 10 = 0xfffffffe /\ gpr regs' 10 = il_value (mkIntLoad 4 false 10) 0xfffffffe /\
    mepc regs' = 0x80200004) /\
  exists regs' s', @sbi_misaligned_load_handler plain_hw fw_platform plain_mmu 0x80300001 0 0 mis_regs mis_state =
    Ret (0, regs') s' /\ gpr regs' 10 <> il_value (mkIntLoad 4 true 10) 0xfffffffe.
Proof.
  split.
  - destruct (@misaligned_load_value plain_hw fw_platform plain_mmu 0x80300001 0 0x6503 mis_regs
      (mkIntLoad 4 false 10) mis_state) as (regs' & s' & E & _ & _ & _ & Hv & Hi & Hpc & _);
      [apply mis_state_ok|by left|by vm_compute|done|lia|done|apply mis_state_bytes|done|].
    cbn [il_rd] in *. exists regs', s'. split; [exact E|]. split; [rewrite Hv; by vm_compute|]. split; [by apply Hi|].
    rewrite Hpc. by vm_compute.
  - destruct (@misaligned_load_value plain_hw fw_platform plain_mmu 0x80300001 0 0 mis_regs
      (mkIntLoad 4 true 10) mis_state) as (regs' & s' & E & _ & _ & _ & Hv & Hi & _);
      [apply mis_state_ok|by right|by vm_compute|done|lia|done|apply mis_state_bytes|done|].
    exists regs', s'. split; [exact E|]. intros Heq. pose proof (proj1 Hi Heq eq_refl) as Hlt. by vm_compute in Hlt.
Defined.

Lemma gpr_SET_RD insn regs v :
  length (gprs regs) = 32%nat -> fits 64 v -> gpr (SET_RD insn regs v) (REG_INDEX insn SH_RD) = v.
Proof.
  intros Hl Hv. pose proof (field_bound insn 7 5 ltac:(lia)). unfold SET_RD. rewrite REG_INDEX_rd.
  rewrite gpr_set_gpr, Z.eqb_refl by lia. by apply wrap_small.
Qed.

(** A misaligned [LW] of a word with the sign bit set leaves the
    zero-extended word in the destination register, where the architecture
    sign-extends it. *)
Theorem misaligned_lw_zero_extended `{Hardware} `{Platform} `{Mmu} addr tv2 tinst regs s :
  ctx_ok s -> fits 64 tinst -> nz (tinst .& 1) = true -> is_insn INSN_MASK_LW INSN_MATCH_LW (tinst .| 3) = true ->
  length (gprs regs) = 32%nat -> 0 <= addr -> addr + 4 < 2 ^ 64 -> (forall a, fits 8 (ubyte s a)) ->
  no_fault false addr 4 -> 2 ^ 31 <= le_word (urange s addr 4) ->
  exists regs' s', sbi_misaligned_load_handler addr tv2 tinst regs s = Ret (0, regs') s' /\
    let rd := REG_INDEX (tinst .| 3) SH_RD in
    gpr regs' rd = le_word (urange s addr 4) /\ gpr regs' rd <> u64 (signed 32 (le_word (urange s addr 4))).
Proof.
  intros Hok Htf Ht Hlw Hl Ha Hw Hb Hf Hneg.
  assert (Hk : decode_load (tinst .| 3) = Some (mkLoad 4 32 false (tinst .| 3))).
  { unfold decode_load. by rewrite Hlw. }
  destruct (load_handler_int addr tv2 tinst regs (tinst .| 3) (mkTrap 0 0 0 0 0)
    (mkLoad 4 32 false (tinst .| 3)) s s) as (s' & E & _); try done.
  { unfold trapped_insn. by rewrite Ht. }
  assert (Hv : fits 32 (le_word (urange s addr 4))) by (by apply (urange_fits s addr 4)).
  eexists _, s'. split; [exact E|]. cbv zeta.
  match goal with |- ?a = _ /\ _ => assert (Hrd : a = le_word (urange s addr 4)) end.
  { apply (gpr_SET_RD (tinst .| 3) regs); [done|unfold fits in *; lia]. }
  split; [exact Hrd|]. rewrite Hrd. unfold signed. rewrite wrap_small by done.
  change (2 ^ (32 - 1)) with (2 ^ 31). rewrite (proj2 (Z.ltb_ge _ _)) by lia. unfold u64, wrap.
  unfold fits in Hv. change (2 ^ 32) with 4294967296 in *. change (2 ^ 31) with 2147483648 in *.
  replace ((le_word (urange s addr 4) - 4294967296) mod 2 ^ 64)
    with (le_word (urange s addr 4) - 4294967296 + 2 ^ 64); [lia|].
  apply (Zmod_unique _ _ (-1)); lia.
Qed.

Lemma misaligned_lw_zero_extended_witness :
  exists regs' s', @sbi_misaligned_load_handler plain_hw fw_platform plain_mmu 0x80300001 0 0x2503 mis_regs
      mis_state = Ret (0, regs') s' /\ gpr regs' 10 = 0xfffffffe.
Proof.
  destruct (@misaligned_lw_zero_extended plain_hw fw_platform plain_mmu 0x80300001 0 0x2503 mis_regs mis_state)
    as (regs' & s' & E & Hrd & _).
  - apply mis_state_ok.
  - vm_compute. split; discriminate || reflexivity.
  - vm_compute. reflexivity.
  - vm_compute. reflexivity.
  - vm_compute. reflexivity.
  - lia.
  - vm_compute. reflexivity.
  - apply mis_state_bytes.
  - intros s i _. reflexivity.
  - vm_compute. discriminate.
  - exists regs', s'. split; [exact E|].
    replace 10 with (REG_INDEX (0x2503 .| 3) SH_RD) by (vm_compute; reflexivity).
    rewrite Hrd. vm_compute. reflexivity.
Defined.


(** * Stores that do not fault *)

Section StoreProps.
Context `{Hardware} `{Platform} `{Mmu}.

(** The same context but for the memory of the interrupted code. *)
Definition same_but_umem (s s' : st) : Prop :=
  cur s' = cur s /\ (forall h c, csr_val s' h c = csr_val s h c) /\ mem s' = mem s /\ glob s' = glob s.

Lemma same_but_umem_trans s1 s2 s3 : same_but_umem s1 s2 -> same_but_umem s2 s3 -> same_but_umem s1 s3.
Proof.
  intros (C1 & R1 & M1 & G1) (C2 & R2 & M2 & G2). unfold same_but_umem.
  rewrite C2, C1, M2, M1, G2, G1. repeat split. intros. by rewrite R2.
Qed.

Lemma ctx_ok_same' s s' : ctx_ok s -> same_but_umem s s' -> ctx_ok s'.
Proof. intros (Hp & Hm & Ht) (C & R & _). unfold ctx_ok. by rewrite C, !R. Qed.

Lemma store_u8_ok addr b trap s :
  ctx_ok s -> fits 64 addr -> fits 8 b -> no_fault true addr 1 ->
  exists s', sbi_store_u8 addr b trap s = Ret (clear_cause trap) s' /\ same_but_umem s s' /\
    umem s' = <[addr := b]> (umem s).
Proof.
  intros Hok Ha Hb Hf. unfold sbi_store_u8, unpriv_store.
  set (s1 := set_umem <[addr := b]> (during MSTATUS_MPRV s)).
  destruct (with_expected_trap_ok MSTATUS_MPRV (store_insn 1 addr b (clear_cause trap))
    (clear_cause trap) s s1) as (s' & E & Hc & Hr & Hm & Hu & Hg); try done.
  { unfold store_insn. mstep. pose proof (Hf (during MSTATUS_MPRV s) 0 ltac:(lia)) as Hn.
    rewrite Z.add_0_r in Hn. rewrite Hn. repeat mstep. unfold s1. do 2 f_equal. unfold set_umem. simpl.
    unfold u64. rewrite Z.add_0_r. by rewrite (wrap_small 64), (Z.mod_small b 256) by done. }
  exists s'. split; [done|]. split; [by repeat split|]. rewrite Hu. done.
Qed.

Lemma store_bytes_ok l : forall addr trap s,
  ctx_ok s -> 0 <= addr -> addr + Z.of_nat (length l) <= 2 ^ 64 - 1 -> cause trap = 0 ->
  Forall (fits 8) l -> no_fault true addr (length l) ->
  exists t s', store_bytes l addr trap s = Ret t s' /\ cause t = 0 /\ same_but_umem s s' /\
    forall a, ubyte s' a =
      if (addr <=? a) && (a <? addr + Z.of_nat (length l)) then nth (Z.to_nat (a - addr)) l 0 else ubyte s a.
Proof.
  induction l as [|b l IH]; intros addr trap s Hok Ha Hw Hc Hb Hf.
  { exists trap, s. split; [done|]. split; [done|]. split; [by repeat split|]. intros a. simpl.
    rewrite Z.add_0_r. destruct (Z.leb_spec addr a), (Z.ltb_spec a addr); simpl; done || lia. }
  inversion_clear Hb as [|? ? Hb0 Hbl]. simpl length in *.
  destruct (store_u8_ok addr b trap s) as (s1 & E1 & Hs1 & Hu1); [done|unfold fits; lia|done| |].
  { intros s0 i Hi. apply Hf. lia. }
  cbn [store_bytes]. rewrite (bind_ret_eq _ _ _ _ _ E1).
  change (nz (cause (clear_cause trap))) with false. cbv iota beta.
  unfold u64. rewrite wrap_small by (unfold fits; lia).
  destruct (IH (addr + 1) (clear_cause trap) s1) as (t & s2 & E2 & Ht & Hs2 & Hu2);
    [by eapply ctx_ok_same'|lia|lia|done|done| |].
  { intros s0 i Hi. replace (addr + 1 + i) with (addr + (1 + i)) by lia. apply Hf. lia. }
  exists t, s2. split; [done|]. split; [done|]. split; [by eapply same_but_umem_trans|].
  intros a. rewrite Hu2. unfold ubyte at 1. rewrite Hu1.
  destruct (Z.leb_spec (addr + 1) a), (Z.ltb_spec a (addr + 1 + Z.of_nat (length l))),
    (Z.leb_spec addr a), (Z.ltb_spec a (addr + Z.of_nat (S (length l)))); simpl andb; cbv iota; try lia.
  - replace (Z.to_nat (a - addr)) with (S (Z.to_nat (a - (addr + 1)))) by lia. done.
  - by rewrite lookup_insert_ne by lia.
  - assert (a = addr) as -> by lia. rewrite lookup_insert_eq, Z.sub_diag. done.
  - by rewrite lookup_insert_ne by lia.
Qed.

Lemma decode_store_shape insn regs s len v s' :
  decode_store insn regs s = Ret (Some (len, v)) s' -> s' = s /\ (len = 2 \/ len = 4 \/ len = 8).
Proof.
  unfold decode_store, GET_F64_RS2, GET_F32_RS2, GET_F64_RS2S, GET_F64_RS2C, GET_F64_REG, GET_F32_REG.
  unfold mbind, M_bind, csr_read, gets, mret, M_ret. repeat case_match; intros; simplify_eq; auto.
Qed.
End StoreProps.

Lemma le_bytes_fits n v : Forall (fits 8) (le_bytes n v).
Proof.
  revert v. induction n as [|n IH]; intros v; simpl; constructor; [|apply IH].
  by apply Z.mod_pos_bound.
Qed.



(** [c.sdsp a0, 0(sp)]: the bits tested are part of the offset, and a store
    at offset 0 is not emulated but redirected. *)
Example c_sdsp_offset_0_redirected :
  decode_store 0xe02a mis_regs mis_state = Ret None mis_state /\
  decode_store 0xe42a mis_regs mis_state = Ret (Some (8, 0)) mis_state.
Proof. vm_compute. auto. Qed.

(** A transformed instruction with bit 1 clear stands for a compressed one of
    two bytes; the handler moves the program counter by four. *)
Example transformed_compressed_skips_four :
  match @sbi_misaligned_load_handler plain_hw fw_platform plain_mmu 0x80300001 0 0x3501 mis_regs mis_state with
  | Ret (rc, regs) _ => (rc, mepc regs) = (0, 0x80200004)
  | Exit _ _ => False
  end.
Proof. vm_compute. reflexivity. Qed.
