(* ===== verification/Emulate.v ===== *)
(** Emulation of control-register instructions that trap,
    lib/sbi/sbi_emulate_csr.c and lib/sbi/sbi_illegal_insn.c, for a 64-bit
    hart. *)

From Stdlib Require Import String.
From S2P Require Import Prelude Encoding Bitops Machine Format Platform Console Scratch Asm Hart Timer Trap Unpriv.

Definition prev_mode (regs : sbi_trap_regs) : Z := (mstatus regs .& MSTATUS_MPP) >>u MSTATUS_MPP_SHIFT.
Definition prev_virt (regs : sbi_trap_regs) : bool := nz (mstatus regs .& MSTATUS_MPV).

Section Emulate.
Context `{Hardware} `{Platform} `{Mmu}.

(** [sbi_dprintf("%s: hartid%d: invalid csr_num=0x%x\n", ...)] *)
Definition invalid_csr (func : string) (ret csr_num : Z) : M Z :=
  h ← current_hartid;
  sbi_dprintf (chars "%s: hartid%d: invalid csr_num=0x%x" ++ [10])
    [VStr (Some (chars func)); VInt h; VInt csr_num];;
  mret ret.

(** The result code and the value. *)
Definition sbi_emulate_csr_read (csr_num : Z) (regs : sbi_trap_regs) : M (Z * Z) :=
  let virt := prev_virt regs in
  cen ← (if prev_mode regs =? PRV_U then csr_read CSR_SCOUNTEREN else mret ULONG_MAX);
  let enabled bit := nz ((cen >>u bit) .& 1) in
  let counter bit (m : M Z) := if negb (enabled bit) then mret (-1, 0) else v ← m; mret (0, v) in
  let invalid := r ← invalid_csr "sbi_emulate_csr_read" SBI_ENOTSUPP csr_num; mret (r, 0) in
  if csr_num =? CSR_HTIMEDELTA then
    if (prev_mode regs =? PRV_S) && negb virt then v ← sbi_timer_get_delta; mret (0, v) else invalid
  else if csr_num =? CSR_CYCLE then counter (CSR_CYCLE - CSR_CYCLE) (csr_read CSR_MCYCLE)
  else if csr_num =? CSR_TIME then
    counter (CSR_TIME - CSR_CYCLE) (if virt then sbi_timer_virt_value else sbi_timer_value)
  else if csr_num =? CSR_INSTRET then counter (CSR_INSTRET - CSR_CYCLE) (csr_read CSR_MINSTRET)
  else if csr_num =? CSR_MHPMCOUNTER3 then
    counter (3 + CSR_MHPMCOUNTER3 - CSR_MHPMCOUNTER3) (csr_read CSR_MHPMCOUNTER3)
  else if csr_num =? CSR_MHPMCOUNTER4 then
    counter (3 + CSR_MHPMCOUNTER4 - CSR_MHPMCOUNTER3) (csr_read CSR_MHPMCOUNTER4)
  else if csr_num =? CSR_MHPMEVENT3 then v ← csr_read CSR_MHPMEVENT3; mret (0, v)
  else if csr_num =? CSR_MHPMEVENT4 then v ← csr_read CSR_MHPMEVENT4; mret (0, v)
  else invalid.

Definition sbi_emulate_csr_write (csr_num : Z) (regs : sbi_trap_regs) (v : Z) : M Z :=
  let ok (m : M unit) := m;; mret 0 in
  let invalid := invalid_csr "sbi_emulate_csr_write" SBI_ENOTSUPP csr_num in
  if csr_num =? CSR_HTIMEDELTA then
    if (prev_mode regs =? PRV_S) && negb (prev_virt regs) then ok (sbi_timer_set_delta v) else invalid
  else if csr_num =? CSR_CYCLE then ok (csr_write CSR_MCYCLE v)
  else if csr_num =? CSR_INSTRET then ok (csr_write CSR_MINSTRET v)
  else if csr_num =? CSR_MHPMCOUNTER3 then ok (csr_write CSR_MHPMCOUNTER3 v)
  else if csr_num =? CSR_MHPMCOUNTER4 then ok (csr_write CSR_MHPMCOUNTER4 v)
  else if csr_num =? CSR_MHPMEVENT3 then ok (csr_write CSR_MHPMEVENT3 v)
  else if csr_num =? CSR_MHPMEVENT4 then ok (csr_write CSR_MHPMEVENT4 v)
  else invalid.

Definition truly_illegal_insn (insn : Z) (regs : sbi_trap_regs) : M (Z * sbi_trap_regs) :=
  sbi_trap_redirect regs (mkTrap (mepc regs) CAUSE_ILLEGAL_INSTRUCTION insn 0 0).

(** What the instruction does to the register: whether it is written, and the
    new value; [None] for an encoding that is not a register access. *)
Definition csr_insn_effect (insn rs1_num rs1_val csr : Z) : option (bool * Z) :=
  let rm := GET_RM insn in
  if rm =? 1 then Some (true, rs1_val)
  else if rm =? 2 then Some (nz rs1_num, csr .| rs1_val)
  else if rm =? 3 then Some (nz rs1_num, csr .& not64 rs1_val)
  else if rm =? 5 then Some (true, rs1_num)
  else if rm =? 6 then Some (nz rs1_num, csr .| rs1_num)
  else if rm =? 7 then Some (nz rs1_num, csr .& not64 rs1_num)
  else None.

Definition system_opcode_insn (insn : Z) (regs : sbi_trap_regs) : M (Z * sbi_trap_regs) :=
  let rs1_num := (insn >>u 15) .& 0x1f in
  let rs1_val := GET_RS1 insn regs in
  let csr_num := Z.shiftr (u32 insn) 20 in
  '(rc, csr) ← sbi_emulate_csr_read csr_num regs;
  if nz rc then truly_illegal_insn insn regs
  else
    match csr_insn_effect insn rs1_num rs1_val csr with
    | None => truly_illegal_insn insn regs
    | Some (do_write, new_csr_val) =>
        rc ← (if (do_write : bool) then sbi_emulate_csr_write csr_num regs new_csr_val else mret 0);
        if nz rc then truly_illegal_insn insn regs
        else
          let regs := SET_RD insn regs csr in
          mret (0, set_mepc (mepc regs + 4) regs)
    end.

(** Entry 28 of the table is [system_opcode_insn], the others are
    [truly_illegal_insn]. *)
Definition illegal_insn_table (i : Z) : Z -> sbi_trap_regs -> M (Z * sbi_trap_regs) :=
  if i =? 28 then system_opcode_insn else truly_illegal_insn.

Definition sbi_illegal_insn_handler (insn : Z) (regs : sbi_trap_regs) : M (Z * sbi_trap_regs) :=
  let dispatch insn := illegal_insn_table ((insn .& 0x7c) >>u 2) insn regs in
  if negb ((insn .& 3) =? 3) then
    '(insn, uptrap) ← (if insn =? 0 then sbi_get_insn (mepc regs) (mkTrap 0 0 0 0 0)
                       else mret (insn, mkTrap 0 0 0 0 0));
    if nz (cause uptrap) then sbi_trap_redirect regs (set_epc (mepc regs) uptrap)
    else if negb ((insn .& 3) =? 3) then truly_illegal_insn insn regs
    else dispatch insn
  else dispatch insn.
End Emulate.

(** * Properties *)

(** The machine-mode register behind an emulated one. *)
Definition machine_csr (csr_num : Z) : option Z :=
  if csr_num =? CSR_CYCLE then Some CSR_MCYCLE
  else if csr_num =? CSR_INSTRET then Some CSR_MINSTRET
  else if (csr_num =? CSR_MHPMCOUNTER3) || (csr_num =? CSR_MHPMCOUNTER4) ||
          (csr_num =? CSR_MHPMEVENT3) || (csr_num =? CSR_MHPMEVENT4) then Some csr_num
  else None.

(** A write to an emulated counter or event selector is carried out on the
    machine-mode register whatever the privilege mode it was attempted from,
    user mode included, and whatever the counter-enable registers hold. *)
Theorem emulate_csr_write_any_mode `{Hardware} `{Platform} csr_num m regs v s :
  machine_csr csr_num = Some m -> sbi_emulate_csr_write csr_num regs v s = Ret 0 (put_csr m v s).
Proof.
  unfold machine_csr, sbi_emulate_csr_write. intros E.
  destruct (Z.eqb_spec csr_num CSR_CYCLE) as [->|]; [injection E as <-; reflexivity|].
  destruct (Z.eqb_spec csr_num CSR_INSTRET) as [->|]; [injection E as <-; reflexivity|].
  destruct (Z.eqb_spec csr_num CSR_MHPMCOUNTER3) as [->|]; [injection E as <-; reflexivity|].
  destruct (Z.eqb_spec csr_num CSR_MHPMCOUNTER4) as [->|]; [injection E as <-; reflexivity|].
  destruct (Z.eqb_spec csr_num CSR_MHPMEVENT3) as [->|]; [injection E as <-; reflexivity|].
  destruct (Z.eqb_spec csr_num CSR_MHPMEVENT4) as [->|]; [injection E as <-; reflexivity|]. done.
Qed.

(** [csrw mhpmevent3, a1] from user mode, all counters disabled. *)
Definition user_regs : sbi_trap_regs := mkRegs (<[11%nat := 0x77]> (replicate 32 0)) 0x10000 0 0.

Lemma emulate_csr_write_any_mode_witness :
  @sbi_emulate_csr_write plain_hw fw_platform CSR_MHPMEVENT3 user_regs 0x77 boot_st =
    Ret 0 (@put_csr plain_hw CSR_MHPMEVENT3 0x77 boot_st) /\
  match @sbi_illegal_insn_handler plain_hw fw_platform plain_mmu 0x32359073 user_regs boot_st with
  | Ret (rc, regs) s => (rc, mepc regs, csr_val s 0 CSR_MHPMEVENT3) = (0, 0x10004, 0x77)
  | Exit _ _ => False
  end.
Proof.
  split; [apply emulate_csr_write_any_mode; vm_compute; reflexivity|]. vm_compute. reflexivity.
Defined.

(** The counter-enable bit of a counter. *)
Definition counter_bit (csr_num : Z) : option Z :=
  if csr_num =? CSR_CYCLE then Some 0
  else if csr_num =? CSR_TIME then Some 1
  else if csr_num =? CSR_INSTRET then Some 2
  else if csr_num =? CSR_MHPMCOUNTER3 then Some 3
  else if csr_num =? CSR_MHPMCOUNTER4 then Some 4
  else None.

Lemma shr_bit x k : 0 <= k -> nz ((x >>u k) .& 1) = Z.testbit x k.
Proof.
  intros. unfold shr64. change 1 with (2 ^ 0). rewrite nz_land_pow2, Z.shiftr_spec by lia.
  by rewrite Z.add_0_l.
Qed.

(** Reading a counter from user mode is refused without any effect when
    the supervisor has not enabled it. *)
Theorem emulate_csr_read_user_disabled `{Hardware} `{Platform} csr_num k regs s :
  counter_bit csr_num = Some k -> prev_mode regs = PRV_U ->
  Z.testbit (csr_val s (cur s) CSR_SCOUNTEREN) k = false ->
  sbi_emulate_csr_read csr_num regs s = Ret (-1, 0) s.
Proof.
  intros Hk Hu Hb. unfold sbi_emulate_csr_read. rewrite Hu. change (PRV_U =? PRV_U) with true. cbv iota. mstep.
  unfold counter_bit in Hk.
  assert (Hne : csr_num <> CSR_HTIMEDELTA) by (intros ->; vm_compute in Hk; discriminate).
  rewrite (proj2 (Z.eqb_neq _ _) Hne).
  repeat (case_match; [simplify_eq; cbv beta zeta;
    match goal with |- context [_ >>u ?b] => let v := eval vm_compute in b in change b with v end;
    rewrite shr_bit, Hb by lia; reflexivity|]). done.
Qed.

Lemma emulate_csr_read_user_disabled_witness :
  @sbi_emulate_csr_read plain_hw fw_platform CSR_TIME user_regs (set_csrs <[(0, CSR_SCOUNTEREN) := 5]> boot_st) =
    Ret (-1, 0) (set_csrs <[(0, CSR_SCOUNTEREN) := 5]> boot_st).
Proof. apply (@emulate_csr_read_user_disabled plain_hw fw_platform CSR_TIME 1); vm_compute; reflexivity. Defined.
