(* ===== verification/System.v ===== *)
(** Leaving the firmware: [sbi_exit] of lib/sbi/sbi_init.c and
    lib/sbi/sbi_system.c.

    [sbi_exit] processes the pending interrupts of the hart, and the handler of
    the halt event calls [sbi_exit] in turn; it does so only for a hart in the
    started state, which a hart that is exiting has left.  The definition
    unfolds the recursion twice. *)

From Stdlib Require Import String.
From S2P Require Import Prelude Encoding Bitops Machine Format Platform Console Scratch Asm Hart Hsm Tlb Ipi Timer.

Section System.
Context `{Hardware} `{Platform}.

Fixpoint sbi_exit_n (n : nat) (scratch : Z) : M unit :=
  match n with
  | O => exits XSpin
  | S n =>
      hartid ← current_hartid;
      plat ← sbi_platform_ptr scratch;
      when (sbi_platform_hart_invalid plat hartid) sbi_hart_hang;;
      sbi_platform_early_exit plat;;
      sbi_timer_exit scratch;;
      sbi_ipi_exit (sbi_exit_n n) scratch;;
      sbi_platform_irqchip_exit plat;;
      sbi_platform_final_exit plat;;
      sbi_hsm_exit scratch
  end.
Definition sbi_exit : Z -> M unit := sbi_exit_n 2.

(** The harts from [hbase] to halt; shifting by 64 or more is undefined. *)
Definition halt_mask (hmask cur_hartid hbase : Z) : M Z :=
  if hbase <=? cur_hartid then
    if cur_hartid - hbase <? 64 then mret (hmask .& not64 (1 <<u (cur_hartid - hbase))) else exits XUndef
  else mret hmask.

(** [while (!sbi_hsm_hart_started_mask(hbase, &hmask))] *)
Fixpoint halt_loop (n : nat) (cur_hartid hbase : Z) : M unit :=
  match n with
  | O => exits XSpin
  | S n =>
      '(rc, hmask) ← sbi_hsm_hart_started_mask hbase;
      if nz rc then mret tt
      else
        hmask ← halt_mask hmask cur_hartid hbase;
        when (nz hmask) (sbi_ipi_send_halt hmask hbase;; mret tt);;
        halt_loop n cur_hartid (u64 (hbase + BITS_PER_LONG))
  end.

Definition sbi_system_reset (platform_reset_type : Z) : M unit :=
  cur_hartid ← current_hartid;
  scratch ← sbi_scratch_thishart_ptr;
  n ← hart_turns;
  halt_loop n cur_hartid 0;;
  sbi_hsm_hart_stop sbi_exit scratch false;;
  plat ← sbi_platform_ptr scratch;
  sbi_platform_system_reset plat platform_reset_type;;
  sbi_exit scratch.
End System.
