(* ===== verification/Ecall.v ===== *)
(** The SBI calls, lib/sbi/sbi_ecall.c and the handlers of the extensions in
    sbi_ecall_base.c, sbi_ecall_hsm.c, sbi_ecall_legacy.c, sbi_ecall_replace.c
    and sbi_ecall_vendor.c. *)

From Stdlib Require Import String.
From S2P Require Import Prelude Encoding Bitops Machine Format Platform Console Scratch Asm Hart Hsm Tlb Ipi Timer System Trap Unpriv.

Definition SBI_ECALL_VERSION_MAJOR : Z := 0.
Definition SBI_ECALL_VERSION_MINOR : Z := 2.
Definition OPENSBI_VERSION : Z := Z.shiftl 0 16 .| 8.

Definition sbi_ecall_version_major : Z := SBI_ECALL_VERSION_MAJOR.
Definition sbi_ecall_version_minor : Z := SBI_ECALL_VERSION_MINOR.

(** The static descriptions of the extensions. *)
Definition ext_time := mkExt SBI_EXT_TIME SBI_EXT_TIME ecall_time false.
Definition ext_rfence := mkExt SBI_EXT_RFENCE SBI_EXT_RFENCE ecall_rfence false.
Definition ext_ipi := mkExt SBI_EXT_IPI SBI_EXT_IPI ecall_ipi false.
Definition ext_base := mkExt SBI_EXT_BASE SBI_EXT_BASE ecall_base false.
Definition ext_hsm := mkExt SBI_EXT_HSM SBI_EXT_HSM ecall_hsm false.
Definition ext_legacy := mkExt SBI_EXT_0_1_SET_TIMER SBI_EXT_0_1_SHUTDOWN ecall_legacy false.
Definition ext_vendor := mkExt SBI_EXT_VENDOR_START SBI_EXT_VENDOR_END ecall_vendor true.

#[global] Instance sbi_ecall_extension_eq : EqDecision sbi_ecall_extension.
Proof. solve_decision. Defined.

(** * Registration *)

Definition sbi_ecall_get_impid : M Z := getg "ecall_impid".
Definition sbi_ecall_set_impid (impid : Z) : M unit := setg "ecall_impid" impid.

Definition ext_covers (extid : Z) (t : sbi_ecall_extension) : bool :=
  (extid_start t <=? extid) && (extid <=? extid_end t).
Definition sbi_ecall_find_extension (extid : Z) : M (option sbi_ecall_extension) :=
  gets (fun s => List.find (ext_covers extid) (ecall_exts s)).

Definition ext_overlap (ext t : sbi_ecall_extension) : bool :=
  negb ((extid_end t <? extid_start ext) || (extid_end ext <? extid_start t)).
Definition sbi_ecall_register_extension (ext : sbi_ecall_extension) : M Z :=
  if extid_end ext <? extid_start ext then mret SBI_EINVAL
  else
    clash ← gets (fun s => existsb (ext_overlap ext) (ecall_exts s));
    if (clash : bool) then mret SBI_EINVAL
    else modify (set_ecall_exts (fun l => l ++ [ext]));; mret 0.

Definition sbi_ecall_unregister_extension (ext : sbi_ecall_extension) : M unit :=
  modify (set_ecall_exts (fun l => filter (fun t => t <> ext) l)).

(** Register each in turn until one fails. *)
Fixpoint register_all (l : list sbi_ecall_extension) : M Z :=
  match l with
  | [] => mret 0
  | ext :: l => ret ← sbi_ecall_register_extension ext; if nz ret then mret ret else register_all l
  end.
Definition sbi_ecall_init : M Z :=
  register_all [ext_time; ext_rfence; ext_ipi; ext_base; ext_hsm; ext_legacy; ext_vendor].

(** * Handlers

    Each gives the result code, the output value and the trap. *)

Definition answer : Type := Z * Z * sbi_trap_info.
Definition no_trap : sbi_trap_info := mkTrap 0 0 0 0 0.
Definition arg (args : list Z) (i : nat) : Z := nth i args 0.

Section Handlers.
Context `{Hardware} `{Platform} `{Mmu}.

(** A result code with the output value untouched. *)
Definition code (m : M Z) : M answer := rc ← m; mret (rc, 0, no_trap).

Definition sbi_ecall_time_handler (funcid : Z) (args : list Z) : M answer :=
  code (if funcid =? SBI_EXT_TIME_SET_TIMER then sbi_timer_event_start (arg args 0);; mret 0
        else mret SBI_ENOTSUPP).

Definition guest_vmid : M Z := v ← csr_read CSR_HGATP; mret ((v .& HGATP_VMID_MASK) >>u HGATP_VMID_SHIFT).

Definition sbi_ecall_rfence_handler (funcid : Z) (args : list Z) : M answer :=
  source_hart ← current_hartid;
  hext ← (if (SBI_EXT_RFENCE_REMOTE_HFENCE_GVMA <=? funcid) && (funcid <=? SBI_EXT_RFENCE_REMOTE_HFENCE_VVMA_ASID)
          then misa_extension 72 else mret true);
  let request start size asid vmid type :=
    sbi_tlb_request (arg args 0) (arg args 1) (SBI_TLB_INFO_INIT start size asid vmid type source_hart) in
  let start := arg args 2 in
  let size := arg args 3 in
  code
    (if negb hext then mret SBI_ENOTSUPP
     else if funcid =? SBI_EXT_RFENCE_REMOTE_FENCE_I then request 0 0 0 0 SBI_ITLB_FLUSH
     else if funcid =? SBI_EXT_RFENCE_REMOTE_HFENCE_GVMA then request start size 0 0 SBI_TLB_FLUSH_GVMA
     else if funcid =? SBI_EXT_RFENCE_REMOTE_HFENCE_GVMA_VMID then
       request start size 0 (arg args 4) SBI_TLB_FLUSH_GVMA_VMID
     else if funcid =? SBI_EXT_RFENCE_REMOTE_HFENCE_VVMA then
       vmid ← guest_vmid; request start size 0 vmid SBI_TLB_FLUSH_VVMA
     else if funcid =? SBI_EXT_RFENCE_REMOTE_HFENCE_VVMA_ASID then
       vmid ← guest_vmid; request start size (arg args 4) vmid SBI_TLB_FLUSH_VVMA_ASID
     else if funcid =? SBI_EXT_RFENCE_REMOTE_SFENCE_VMA then request start size 0 0 SBI_TLB_FLUSH_VMA
     else if funcid =? SBI_EXT_RFENCE_REMOTE_SFENCE_VMA_ASID then
       request start size (arg args 4) 0 SBI_TLB_FLUSH_VMA_ASID
     else mret SBI_ENOTSUPP).

Definition sbi_ecall_ipi_handler (funcid : Z) (args : list Z) : M answer :=
  code (if funcid =? SBI_EXT_IPI_SEND_IPI then sbi_ipi_send_smode (arg args 0) (arg args 1)
        else mret SBI_ENOTSUPP).

Definition sbi_ecall_hsm_handler (funcid : Z) (args : list Z) : M answer :=
  scratch ← sbi_scratch_thishart_ptr;
  ret ← (if funcid =? SBI_EXT_HSM_HART_START then
           sbi_hsm_hart_start scratch (u32 (arg args 0)) (arg args 1) (arg args 2)
         else if funcid =? SBI_EXT_HSM_HART_STOP then sbi_hsm_hart_stop sbi_exit scratch true
         else if funcid =? SBI_EXT_HSM_HART_GET_STATUS then
           hstate ← sbi_hsm_hart_get_state (u32 (arg args 0)); mret (sbi_hsm_hart_state_to_status hstate)
         else mret SBI_ENOTSUPP);
  mret (if 0 <=? ret then (0, ret, no_trap) else (ret, 0, no_trap)).

Definition sbi_ecall_vendor_probe (extid : Z) : M (Z * Z) :=
  plat ← sbi_platform_thishart_ptr;
  v ← sbi_platform_vendor_ext_check plat extid;
  mret (0, u64 v).
Definition sbi_ecall_vendor_handler (extid funcid : Z) (args : list Z) : M answer :=
  plat ← sbi_platform_thishart_ptr;
  sbi_platform_vendor_ext_provider plat extid funcid args 0 no_trap.

Definition sbi_ecall_base_probe (extid : Z) : M (Z * Z) :=
  ext ← sbi_ecall_find_extension extid;
  match ext with
  | None => mret (0, 0)
  | Some ext => if has_probe ext then sbi_ecall_vendor_probe extid else mret (0, 1)
  end.
Definition sbi_ecall_base_handler (funcid : Z) (args : list Z) : M answer :=
  let out (m : M Z) := v ← m; mret (0, v, no_trap) in
  if funcid =? SBI_EXT_BASE_GET_SPEC_VERSION then
    out (mret (((SBI_ECALL_VERSION_MAJOR <<u SBI_SPEC_VERSION_MAJOR_OFFSET) .&
                (SBI_SPEC_VERSION_MAJOR_MASK <<u SBI_SPEC_VERSION_MAJOR_OFFSET)) .| SBI_ECALL_VERSION_MINOR))
  else if funcid =? SBI_EXT_BASE_GET_IMP_ID then out sbi_ecall_get_impid
  else if funcid =? SBI_EXT_BASE_GET_IMP_VERSION then out (mret OPENSBI_VERSION)
  else if funcid =? SBI_EXT_BASE_GET_MVENDORID then out (csr_read CSR_MVENDORID)
  else if funcid =? SBI_EXT_BASE_GET_MARCHID then out (csr_read CSR_MARCHID)
  else if funcid =? SBI_EXT_BASE_GET_MIMPID then out (csr_read CSR_MIMPID)
  else if funcid =? SBI_EXT_BASE_PROBE_EXT then
    '(rc, v) ← sbi_ecall_base_probe (arg args 0); mret (rc, v, no_trap)
  else mret (SBI_ENOTSUPP, 0, no_trap).

(** The result code, the mask and the trap. *)
Definition sbi_load_hart_mask_unpriv (pmask : Z) : M (Z * Z * sbi_trap_info) :=
  if nz pmask then
    '(mask, uptrap) ← sbi_load_ulong pmask no_trap;
    if nz (cause uptrap) then mret (SBI_ETRAP, 0, uptrap) else mret (0, mask, uptrap)
  else '(_, mask) ← sbi_hsm_hart_started_mask 0; mret (0, mask, no_trap).

(** The calls that take a hart mask from the caller's memory. *)
Definition with_hart_mask (pmask : Z) (m : Z -> M Z) : M answer :=
  '(ret, hmask, trap) ← sbi_load_hart_mask_unpriv pmask;
  if negb (ret =? SBI_ETRAP) then ret ← m hmask; mret (ret, 0, trap) else mret (ret, 0, trap).

Definition sbi_ecall_legacy_handler (extid : Z) (args : list Z) : M answer :=
  source_hart ← current_hartid;
  let request start size asid type hmask :=
    sbi_tlb_request hmask 0 (SBI_TLB_INFO_INIT start size asid 0 type source_hart) in
  if extid =? SBI_EXT_0_1_SET_TIMER then code (sbi_timer_event_start (arg args 0);; mret 0)
  else if extid =? SBI_EXT_0_1_CONSOLE_PUTCHAR then code (sbi_putc (u8 (arg args 0));; mret 0)
  else if extid =? SBI_EXT_0_1_CONSOLE_GETCHAR then code sbi_getc
  else if extid =? SBI_EXT_0_1_CLEAR_IPI then code (sbi_ipi_clear_smode;; mret 0)
  else if extid =? SBI_EXT_0_1_SEND_IPI then
    with_hart_mask (arg args 0) (fun hmask => sbi_ipi_send_smode hmask 0)
  else if extid =? SBI_EXT_0_1_REMOTE_FENCE_I then
    with_hart_mask (arg args 0) (request 0 0 0 SBI_ITLB_FLUSH)
  else if extid =? SBI_EXT_0_1_REMOTE_SFENCE_VMA then
    with_hart_mask (arg args 0) (request (arg args 1) (arg args 2) 0 SBI_TLB_FLUSH_VMA)
  else if extid =? SBI_EXT_0_1_REMOTE_SFENCE_VMA_ASID then
    with_hart_mask (arg args 0) (request (arg args 1) (arg args 2) (arg args 3) SBI_TLB_FLUSH_VMA_ASID)
  else if extid =? SBI_EXT_0_1_SHUTDOWN then code (sbi_system_reset SBI_PLATFORM_RESET_SHUTDOWN;; mret 0)
  else mret (SBI_ENOTSUPP, 0, no_trap).

Definition ecall_handle (h : ecall_handler_id) (extid funcid : Z) (args : list Z) : M answer :=
  match h with
  | ecall_time => sbi_ecall_time_handler funcid args
  | ecall_rfence => sbi_ecall_rfence_handler funcid args
  | ecall_ipi => sbi_ecall_ipi_handler funcid args
  | ecall_hsm => sbi_ecall_hsm_handler funcid args
  | ecall_base => sbi_ecall_base_handler funcid args
  | ecall_legacy => sbi_ecall_legacy_handler extid args
  | ecall_vendor => sbi_ecall_vendor_handler extid funcid args
  end.

(** * The call itself *)

Definition is_0_1_spec (extid : Z) : bool :=
  (SBI_EXT_0_1_SET_TIMER <=? extid) && (extid <=? SBI_EXT_0_1_SHUTDOWN).

Definition sbi_ecall_handler (regs : sbi_trap_regs) : M (Z * sbi_trap_regs) :=
  let extension_id := gpr regs REG_a7 in
  let func_id := gpr regs REG_a6 in
  let args := [gpr regs REG_a0; gpr regs REG_a1; gpr regs REG_a2; gpr regs REG_a3; gpr regs REG_a4; gpr regs REG_a5] in
  ext ← sbi_ecall_find_extension extension_id;
  '(ret, out_val, trap) ←
    match ext with
    | Some ext => ecall_handle (ext_handler ext) extension_id func_id args
    | None => mret (SBI_ENOTSUPP, 0, no_trap)
    end;
  if ret =? SBI_ETRAP then
    '(_, regs) ← sbi_trap_redirect regs (set_epc (mepc regs) trap); mret (0, regs)
  else
    ret ← (if ret <? SBI_LAST_ERR then
             sbi_printf (chars "%s: Invalid error %d for ext=0x%lx func=0x%lx" ++ [10])
               [VStr (Some (chars "sbi_ecall_handler")); VInt ret; VInt extension_id; VInt func_id];;
             mret SBI_ERR_FAILED
           else mret ret);
    let regs := set_mepc (mepc regs + 4) regs in
    let regs := set_gpr REG_a0 ret regs in
    let legacy := match ext with Some _ => is_0_1_spec extension_id | None => false end in
    mret (0, if legacy then regs else set_gpr REG_a1 out_val regs).
End Handlers.

(** * The list of extensions *)

(** Well-formed: every range is non-empty and no two ranges share an id. *)
Definition exts_ok (l : list sbi_ecall_extension) : Prop :=
  Forall (fun t => extid_start t <= extid_end t) l /\
  forall i j t u, l !! i = Some t -> l !! j = Some u -> i <> j -> forall id, ~ (ext_covers id t = true /\ ext_covers id u = true).

Lemma ext_overlap_false ext t id :
  ext_overlap ext t = false -> ~ (ext_covers id ext = true /\ ext_covers id t = true).
Proof.
  unfold ext_overlap, ext_covers. rewrite negb_false_iff, orb_true_iff, !andb_true_iff, !Z.ltb_lt, !Z.leb_le. lia.
Qed.

Lemma existsb_false {A} (f : A -> bool) l : existsb f l = false -> forall x, x ∈ l -> f x = false.
Proof.
  intros E x Hx. destruct (f x) eqn:Ef; [|done]. rewrite <- E. symmetry. apply existsb_exists.
  exists x. split; [by apply list_elem_of_In|done].
Qed.

Lemma exts_ok_snoc l ext :
  exts_ok l -> extid_start ext <= extid_end ext -> existsb (ext_overlap ext) l = false -> exts_ok (l ++ [ext]).
Proof.
  intros [Hne Hd] He Hx. split; [by apply Forall_app; split; [|constructor]|].
  assert (Hnew : forall i t, l !! i = Some t -> forall id, ~ (ext_covers id ext = true /\ ext_covers id t = true)).
  { intros i t Hi id. apply ext_overlap_false. eapply existsb_false; [done|by eapply list_elem_of_lookup_2]. }
  intros i j t u Hi Hj Hij id [H1 H2].
  apply lookup_app_Some in Hi as [Hi|[Hli Hi]], Hj as [Hj|[Hlj Hj]];
    rewrite ?list_lookup_singleton_Some in *; destruct_and?; subst.
  - by apply (Hd i j t u Hi Hj Hij id).
  - by apply (Hnew i t Hi id).
  - by apply (Hnew j u Hj id).
  - lia.
Qed.

Lemma find_app_ext id l ext :
  List.find (ext_covers id) (l ++ [ext]) =
  match List.find (ext_covers id) l with
  | Some t => Some t
  | None => if ext_covers id ext then Some ext else None
  end.
Proof. induction l as [|t l IH]; simpl; [done|]. by destruct (ext_covers id t). Qed.

(** Registering an extension keeps the list well-formed: a range that is
    empty or shares an id with a registered one is refused and nothing
    changes; otherwise the ids of the new range are handled by the new
    extension from then on, and every other id as before. *)
Theorem sbi_ecall_register_extension_spec s ext :
  exts_ok (ecall_exts s) ->
  (sbi_ecall_register_extension ext s = Ret SBI_EINVAL s /\
   (extid_end ext < extid_start ext \/
    exists t id, t ∈ ecall_exts s /\ ext_covers id t = true /\ ext_covers id ext = true)) \/
  (exists s', sbi_ecall_register_extension ext s = Ret 0 s' /\ exts_ok (ecall_exts s') /\
   forall id, sbi_ecall_find_extension id s' =
     Ret (if ext_covers id ext then Some ext else List.find (ext_covers id) (ecall_exts s)) s').
Proof.
  intros Hok. unfold sbi_ecall_register_extension.
  destruct (Z.ltb_spec (extid_end ext) (extid_start ext)) as [Hlt|Hle]; [left; auto|]. mstep.
  destruct (existsb (ext_overlap ext) (ecall_exts s)) eqn:E.
  - left. split; [done|]. right. apply existsb_exists in E as (t & Ht & Ho).
    exists t, (Z.max (extid_start t) (extid_start ext)). split; [by apply list_elem_of_In|].
    destruct Hok as [Hne _]. rewrite Forall_forall in Hne. specialize (Hne t (proj2 (list_elem_of_In _ _) Ht)).
    unfold ext_overlap in Ho. rewrite negb_true_iff, orb_false_iff, !Z.ltb_ge in Ho.
    unfold ext_covers. rewrite !andb_true_iff, !Z.leb_le. lia.
  - right. mstep. eexists. split; [done|]. simpl. split; [by apply exts_ok_snoc|].
    intros id. unfold sbi_ecall_find_extension, gets. simpl. rewrite find_app_ext. f_equal.
    destruct (List.find (ext_covers id) (ecall_exts s)) as [t|] eqn:Ef; [|done].
    apply find_some in Ef as [Ht Hc]. destruct (ext_covers id ext) eqn:Ec; [|done].
    exfalso. apply (ext_overlap_false ext t id); [|done].
    eapply existsb_false; [done|]. by apply list_elem_of_In.
Qed.

(** A range that would shadow the base extension is refused. *)
Lemma sbi_ecall_register_extension_spec_witness :
  sbi_ecall_register_extension (mkExt 0x8 0x18 ecall_vendor false) (set_ecall_exts (fun _ => [ext_base]) boot_st) =
    Ret SBI_EINVAL (set_ecall_exts (fun _ => [ext_base]) boot_st).
Proof.
  destruct (sbi_ecall_register_extension_spec (set_ecall_exts (fun _ => [ext_base]) boot_st)
    (mkExt 0x8 0x18 ecall_vendor false)) as [[E _]|(s' & E & _)].
  - split; [repeat constructor; vm_compute; discriminate|].
    intros [|i] [|j] t u Hi Hj Hij; simpl in *; try done; by rewrite lookup_nil in *.
  - exact E.
  - vm_compute in E. discriminate.
Defined.

(** The handler of an extension id, by the ranges of the specification. *)
Definition handler_of (id : Z) : option ecall_handler_id :=
  if (0 <=? id) && (id <=? 8) then Some ecall_legacy
  else if id =? 0x10 then Some ecall_base
  else if id =? 0x54494D45 then Some ecall_time
  else if id =? 0x735049 then Some ecall_ipi
  else if id =? 0x52464E43 then Some ecall_rfence
  else if id =? 0x48534D then Some ecall_hsm
  else if (0x09000000 <=? id) && (id <=? 0x09FFFFFF) then Some ecall_vendor
  else None.

(** C28: after initialisation every extension id reaches the handler the SBI
    specification gives it, and no other id is handled. *)
Theorem sbi_ecall_init_dispatch s :
  ecall_exts s = [] ->
  exists s', sbi_ecall_init s = Ret 0 s' /\
    forall id, exists e, sbi_ecall_find_extension id s' = Ret e s' /\ ext_handler <$> e = handler_of id.
Proof.
  intros Hs. destruct s as [? ? ? ? ? ? ? ? exts ? ? ?]. simpl in Hs. subst exts.
  eexists. split; [reflexivity|].
  intros id. eexists. split; [reflexivity|]. unfold ext_covers, handler_of. simpl.
  unfold SBI_EXT_TIME, SBI_EXT_RFENCE, SBI_EXT_IPI, SBI_EXT_BASE, SBI_EXT_HSM, SBI_EXT_0_1_SET_TIMER,
    SBI_EXT_0_1_SHUTDOWN, SBI_EXT_VENDOR_START, SBI_EXT_VENDOR_END.
  bool_cases; subst; try lia; reflexivity.
Qed.

Lemma sbi_ecall_init_dispatch_witness :
  exists s', sbi_ecall_init boot_st = Ret 0 s' /\
    exists e, sbi_ecall_find_extension SBI_EXT_HSM s' = Ret e s' /\ ext_handler <$> e = Some ecall_hsm.
Proof.
  destruct (sbi_ecall_init_dispatch boot_st) as (s' & E & Hf); [reflexivity|].
  exists s'. split; [exact E|]. destruct (Hf SBI_EXT_HSM) as (e & He & Hh). exists e. split; [exact He|].
  rewrite Hh. vm_compute. reflexivity.
Defined.

(** * The call *)

Section Call.
Context `{Hardware} `{Platform} `{Mmu}.

(** What a call comes to: the handler of the extension that was found, or the
    answer for an unknown extension. *)
Definition call_of (regs : sbi_trap_regs) (ext : option sbi_ecall_extension) : M answer :=
  match ext with
  | Some ext => ecall_handle (ext_handler ext) (gpr regs REG_a7) (gpr regs REG_a6)
      [gpr regs REG_a0; gpr regs REG_a1; gpr regs REG_a2; gpr regs REG_a3; gpr regs REG_a4; gpr regs REG_a5]
  | None => mret (SBI_ENOTSUPP, 0, no_trap)
  end.

(** The message for a code that is no SBI error code. *)
Definition complain (regs : sbi_trap_regs) (ret : Z) : M unit :=
  if ret <? SBI_LAST_ERR then
    sbi_printf (chars "%s: Invalid error %d for ext=0x%lx func=0x%lx" ++ [10])
      [VStr (Some (chars "sbi_ecall_handler")); VInt ret; VInt (gpr regs REG_a7); VInt (gpr regs REG_a6)];; mret tt
  else mret tt.

(** The caller's registers after a call that answered [a0] and [a1], where
    [None] leaves [a1] alone. *)
Definition call_answered (regs regs' : sbi_trap_regs) (a0 : Z) (a1 : option Z) : Prop :=
  mepc regs' = u64 (mepc regs + 4) /\ mstatus regs' = mstatus regs /\ length (gprs regs') = 32%nat /\
  gpr regs' REG_a0 = u64 a0 /\
  gpr regs' REG_a1 = (match a1 with Some v => u64 v | None => gpr regs REG_a1 end) /\
  forall i, 0 <= i < 32 -> i <> REG_a0 -> i <> REG_a1 -> gpr regs' i = gpr regs i.

Lemma call_answered_intro regs a0 a1 :
  length (gprs regs) = 32%nat ->
  call_answered regs
    (let r := set_gpr REG_a0 a0 (set_mepc (mepc regs + 4) regs) in
     match a1 with Some v => set_gpr REG_a1 v r | None => r end) a0 a1.
Proof.
  intros Hl. unfold call_answered. cbv zeta.
  destruct a1; cbn [mepc mstatus gprs set_gpr set_mepc]; rewrite ?length_insert;
    repeat (split; [try reflexivity; try done|]);
    intros; rewrite !gpr_set_gpr; cbn [gprs set_gpr set_mepc]; rewrite ?length_insert; try done;
    unfold REG_a0, REG_a1 in *; bool_cases; done || lia.
Qed.

Definition is_legacy_call (regs : sbi_trap_regs) (ext : option sbi_ecall_extension) : bool :=
  match ext with Some _ => is_0_1_spec (gpr regs REG_a7) | None => false end.

(** The handler after the call itself. *)
Lemma sbi_ecall_handler_eq s s1 regs ext ret out trap :
  sbi_ecall_find_extension (gpr regs REG_a7) s = Ret ext s -> call_of regs ext s = Ret (ret, out, trap) s1 ->
  sbi_ecall_handler regs s =
  if ret =? SBI_ETRAP then ('(_, regs) ← sbi_trap_redirect regs (set_epc (mepc regs) trap); mret (0, regs)) s1
  else (complain regs ret;;
        mret (0, let r := set_gpr REG_a0 (if ret <? SBI_LAST_ERR then SBI_ERR_FAILED else ret)
                            (set_mepc (mepc regs + 4) regs) in
                 match (if is_legacy_call regs ext then None else Some out) with
                 | Some v => set_gpr REG_a1 v r | None => r end)) s1.
Proof.
  intros Hf Hc. unfold sbi_ecall_handler. rewrite (bind_ret_eq _ _ _ _ _ Hf).
  fold (call_of regs ext). rewrite (bind_ret_eq _ _ _ _ _ Hc). cbv iota beta.
  destruct (ret =? SBI_ETRAP); [done|]. unfold complain, is_legacy_call.
  assert (Hl : forall b (r : sbi_trap_regs), match (if b : bool then None else Some out) with
    | Some v => set_gpr REG_a1 v r | None => r end = if b then r else set_gpr REG_a1 out r) by (by intros []).
  rewrite Hl. destruct (ret <? SBI_LAST_ERR); [|done]. rewrite !bind_assoc.
  unfold mbind, M_bind. by destruct (sbi_printf _ _ _).
Qed.
End Call.

(** C27: every call whose handler returns, known extension or not, makes the
    trap handler's answer 0 and ends in one of three ways.
    - Any result but the two below, positive ones included: execution resumes
      after the [ecall] with the result in [a0] and the value in [a1], which
      the legacy calls leave alone; every other register and the status word
      are the caller's.  An unknown extension is such a call, with the result
      [SBI_ENOTSUPP].
    - A negative result that is no SBI error code: the same with the result
      [SBI_ERR_FAILED], after a message on the console.
    - The result [SBI_ETRAP], a fault on the caller's memory: the caller
      resumes at its trap vector in S mode with its general registers as they
      were, its exception registers describing the fault at the [ecall] (on a
      hart without the hypervisor extension, for a caller in S or U mode). *)
Theorem sbi_ecall_handler_returns `{Hardware} `{Platform} `{Mmu} s s1 regs ext ret out trap :
  length (gprs regs) = 32%nat ->
  sbi_ecall_find_extension (gpr regs REG_a7) s = Ret ext s -> call_of regs ext s = Ret (ret, out, trap) s1 ->
  let a1 := if is_legacy_call regs ext then None else Some out in
  (ret <> SBI_ETRAP -> SBI_LAST_ERR <= ret ->
   exists regs', sbi_ecall_handler regs s = Ret (0, regs') s1 /\ call_answered regs regs' ret a1) /\
  (ret <> SBI_ETRAP -> ret < SBI_LAST_ERR ->
   exists regs', sbi_ecall_handler regs s = (complain regs ret;; mret (0, regs')) s1 /\
     call_answered regs regs' SBI_ERR_FAILED a1) /\
  (ret = SBI_ETRAP ->
   csr_plain (cur s1) -> csr_val s1 (cur s1) CSR_MISA <> 0 -> misa_has s1 7 = false ->
   fits 64 (mstatus regs) -> Z.testbit (mstatus regs) 12 = false -> fits 64 (csr_val s1 (cur s1) CSR_STVEC) ->
   fits 64 (mepc regs) -> fits 64 (cause trap) -> fits 64 (tval trap) ->
   exists s' regs', sbi_ecall_handler regs s = Ret (0, regs') s' /\ gprs regs' = gprs regs /\
     mepc regs' = csr_val s1 (cur s1) CSR_STVEC /\
     (forall i, 0 <= i -> Z.testbit (mstatus regs') i = redirected_bit (mstatus regs) i) /\
     forall c, csr_val s' (cur s1) c =
       if c =? CSR_SEPC then mepc regs else if c =? CSR_SCAUSE then cause trap
       else if c =? CSR_STVAL then tval trap else csr_val s1 (cur s1) c).
Proof.
  intros Hl Hf Hc a1. rewrite (sbi_ecall_handler_eq _ _ _ _ _ _ _ Hf Hc). split; [|split].
  - intros Hne Hge. rewrite (proj2 (Z.eqb_neq _ _) Hne). unfold complain.
    rewrite (proj2 (Z.ltb_ge _ _) Hge). eexists. split; [reflexivity|]. by apply call_answered_intro.
  - intros Hne Hlt. rewrite (proj2 (Z.eqb_neq _ _) Hne), (proj2 (Z.ltb_lt _ _) Hlt).
    eexists. split; [reflexivity|]. by apply call_answered_intro.
  - intros -> Hp Hm HH Hms H12 Hv He Hca Ht. rewrite Z.eqb_refl.
    destruct (redirect_to_s_eq s1 regs (set_epc (mepc regs) trap)) as (s' & regs' & E & Hrest); try done.
    rewrite (bind_ret_eq _ _ _ _ _ E). by exists s', regs'.
Qed.

(** A call that probes for the hart-state extension, one to an extension
    that is not registered, and a legacy call whose hart mask is at an address
    that cannot be read. *)
Definition probe_regs : sbi_trap_regs :=
  mkRegs (<[17%nat := SBI_EXT_BASE]> (<[16%nat := SBI_EXT_BASE_PROBE_EXT]>
    (<[10%nat := SBI_EXT_HSM]> (replicate 32 5)))) 0x80200000 0 0.
Definition unknown_regs : sbi_trap_regs := mkRegs (<[17%nat := 0x12345]> (replicate 32 5)) 0x80200000 0 0.
Definition mask_regs : sbi_trap_regs :=
  mkRegs (<[17%nat := SBI_EXT_0_1_SEND_IPI]> (<[10%nat := 0x1000]> (replicate 32 5))) 0x80200000 0x880 0.
Definition call_state : st :=
  set_csrs <[(0, CSR_STVEC) := 0x80400000]> (set_ecall_exts (fun _ => [ext_base; ext_hsm; ext_legacy]) su_state).
Definition faulting_mmu : Mmu :=
  Build_Mmu (fun _ _ _ _ => Some (CAUSE_LOAD_PAGE_FAULT, 0x1000)) 0 0x80001234 (fun _ => 0x80001000).

Lemma sbi_ecall_handler_returns_witness :
  (exists regs', @sbi_ecall_handler plain_hw fw_platform plain_mmu probe_regs call_state = Ret (0, regs') call_state /\
     call_answered probe_regs regs' 0 (Some 1)) /\
  (exists regs', @sbi_ecall_handler plain_hw fw_platform plain_mmu unknown_regs call_state = Ret (0, regs') call_state /\
     call_answered unknown_regs regs' SBI_ENOTSUPP (Some 0)) /\
  exists s' regs', @sbi_ecall_handler plain_hw fw_platform faulting_mmu mask_regs call_state = Ret (0, regs') s' /\
    mepc regs' = 0x80400000 /\ csr_val s' 0 CSR_SEPC = 0x80200000.
Proof.
  split; [|split].
  - apply (@sbi_ecall_handler_returns plain_hw fw_platform plain_mmu call_state call_state probe_regs
      (Some ext_base) 0 1 no_trap); try reflexivity; vm_compute; discriminate.
  - apply (@sbi_ecall_handler_returns plain_hw fw_platform plain_mmu call_state call_state unknown_regs
      None SBI_ENOTSUPP 0 no_trap); try reflexivity; vm_compute; discriminate.
  - pose (r := @call_of plain_hw fw_platform faulting_mmu mask_regs (Some ext_legacy) call_state).
    destruct (@sbi_ecall_handler_returns plain_hw fw_platform faulting_mmu call_state
      (match r with Ret _ s => s | Exit _ s => s end) mask_regs (Some ext_legacy)
      SBI_ETRAP 0 (match r with Ret (_, _, t) _ => t | Exit _ _ => no_trap end)) as (_ & _ & Hr);
      [reflexivity..|vm_compute; reflexivity|].
    destruct Hr as (s' & regs' & E & _ & Hpc & _ & Hcsr);
      [first [reflexivity|by intros ? ?|by vm_compute|vm_compute; split; discriminate || reflexivity]..|].
    exists s', regs'. split; [exact E|]. split; [rewrite Hpc; vm_compute; reflexivity|].
    apply (Hcsr CSR_SEPC).
Defined.

(** Starting a hart or asking for its status with a hart id of 128 or more
    indexes the table of scratch areas out of its bounds, whatever the state:
    the id comes from the caller and is not checked. *)
Theorem ecall_hsm_hartid_unchecked `{Hardware} `{Platform} s funcid args :
  funcid = SBI_EXT_HSM_HART_START \/ funcid = SBI_EXT_HSM_HART_GET_STATUS ->
  SBI_HARTMASK_MAX_BITS <= u32 (arg args 0) ->
  sbi_ecall_hsm_handler funcid args s = Exit XUndef s.
Proof.
  intros Hf Hid. unfold sbi_ecall_hsm_handler, sbi_scratch_thishart_ptr. mstep.
  assert (Hu : forall s, sbi_hartid_to_scratch (u32 (arg args 0)) s = Exit XUndef s).
  { intros s0. unfold sbi_hartid_to_scratch. by rewrite (proj2 (Z.ltb_ge _ _)) by done. }
  destruct Hf as [-> | ->]; simpl Z.eqb; cbv iota.
  - erewrite bind_exit_eq; [done|]. unfold sbi_hsm_hart_start, sbi_platform_ptr. repeat mstep.
    erewrite bind_exit_eq; [done|]. apply Hu.
  - erewrite bind_exit_eq; [done|]. erewrite bind_exit_eq; [done|]. unfold sbi_hsm_hart_get_state.
    erewrite bind_exit_eq; [done|]. apply Hu.
Qed.

Lemma ecall_hsm_hartid_unchecked_witness :
  @sbi_ecall_hsm_handler plain_hw fw_platform SBI_EXT_HSM_HART_GET_STATUS [4096] boot_st = Exit XUndef boot_st.
Proof.
  apply ecall_hsm_hartid_unchecked; [right; reflexivity|]. vm_compute. discriminate.
Defined.
