(* ===== verification/Handler.v ===== *)
(** The trap handler of lib/sbi/sbi_trap.c: the dispatch of interrupts and
    exceptions to the parts that handle them. *)

From Stdlib Require Import String.
From S2P Require Import Prelude Encoding Bitops Machine Format Platform Console Scratch Asm Hart Hsm Tlb Ipi Timer System Trap Unpriv Misaligned Emulate Ecall.

Section Handler.
Context `{Hardware} `{Platform} `{Mmu}.

(** One line of the report with two named values. *)
Definition trap_line (hartid : Z) (name1 : string) (v1 : Z) (name2 : string) (v2 : Z) : M unit :=
  sbi_printf (chars "%s: hart%d: %s=0x%016lx %s=0x%016lx" ++ [10])
    [VStr (Some (chars "sbi_trap_error")); VInt hartid; VStr (Some (chars name1)); VInt v1;
     VStr (Some (chars name2)); VInt v2];; mret tt.

(** The pairs of general registers in the order of the report. *)
Definition trap_lines : list (string * Z * string * Z) :=
  [("ra", 1, "sp", 2); ("gp", 3, "tp", 4); ("s0", 8, "s1", 9); ("a0", 10, "a1", 11); ("a2", 12, "a3", 13);
   ("a4", 14, "a5", 15); ("a6", 16, "a7", 17); ("s2", 18, "s3", 19); ("s4", 20, "s5", 21); ("s6", 22, "s7", 23);
   ("s8", 24, "s9", 25); ("s10", 26, "s11", 27); ("t0", 5, "t1", 6); ("t2", 7, "t3", 28); ("t4", 29, "t5", 30)]%string.

Definition sbi_trap_error (msg : string) (rc mcause mtval mtval2 mtinst : Z) (regs : sbi_trap_regs) :
    M sbi_trap_regs :=
  let func := VStr (Some (chars "sbi_trap_error")) in
  hartid ← current_hartid;
  sbi_printf (chars "%s: hart%d: %s (error %d)" ++ [10]) [func; VInt hartid; VStr (Some (chars msg)); VInt rc];;
  sbi_printf (chars "%s: hart%d: mcause=0x%016lx mtval=0x%016lx" ++ [10])
    [func; VInt hartid; VInt mcause; VInt mtval];;
  hext ← misa_extension 72;
  when hext
    (sbi_printf (chars "%s: hart%d: mtval2=0x%016lx mtinst=0x%016lx" ++ [10])
       [func; VInt hartid; VInt mtval2; VInt mtinst];; mret tt);;
  sbi_printf (chars "%s: hart%d: mepc=0x%016lx mstatus=0x%016lx" ++ [10])
    [func; VInt hartid; VInt (mepc regs); VInt (mstatus regs)];;
  for_each trap_lines (fun '(n1, i1, n2, i2) => trap_line hartid n1 (gpr regs i1) n2 (gpr regs i2));;
  sbi_printf (chars "%s: hart%d: %s=0x%016lx" ++ [10])
    [func; VInt hartid; VStr (Some (chars "t6")); VInt (gpr regs 31)];;
  sbi_hart_hang.

(** The exceptions, with the message for a failure. *)
Definition handle_exception (mcause mtval mtval2 mtinst : Z) (regs : sbi_trap_regs) :
    M (string * (Z * sbi_trap_regs)) :=
  if mcause =? CAUSE_ILLEGAL_INSTRUCTION then
    r ← sbi_illegal_insn_handler mtval regs; mret ("illegal instruction handler failed"%string, r)
  else if mcause =? CAUSE_MISALIGNED_LOAD then
    r ← sbi_misaligned_load_handler mtval mtval2 mtinst regs; mret ("misaligned load handler failed"%string, r)
  else if mcause =? CAUSE_MISALIGNED_STORE then
    r ← sbi_misaligned_store_handler mtval mtval2 mtinst regs; mret ("misaligned store handler failed"%string, r)
  else if (mcause =? CAUSE_SUPERVISOR_ECALL) || (mcause =? CAUSE_HYPERVISOR_ECALL) then
    r ← sbi_ecall_handler regs; mret ("ecall handler failed"%string, r)
  else
    r ← sbi_trap_redirect regs (mkTrap (mepc regs) mcause mtval mtval2 mtinst);
    mret ("trap handler failed"%string, r).

(** The registers the interrupted code resumes with. *)
Definition sbi_trap_handler (regs : sbi_trap_regs) : M sbi_trap_regs :=
  mcause ← csr_read CSR_MCAUSE;
  mtval ← csr_read CSR_MTVAL;
  hext ← misa_extension 72;
  mtval2 ← (if (hext : bool) then csr_read CSR_MTVAL2 else mret 0);
  mtinst ← (if (hext : bool) then csr_read CSR_MTINST else mret 0);
  if nz (mcause .& (1 <<u 63)) then
    let mcause := mcause .& not64 (1 <<u 63) in
    if mcause =? IRQ_M_TIMER then sbi_timer_process;; mret regs
    else if mcause =? IRQ_M_SOFT then sbi_ipi_process sbi_exit;; mret regs
    else sbi_trap_error "unhandled external interrupt" SBI_ENOTSUPP mcause mtval mtval2 mtinst regs
  else
    '(msg, (rc, regs)) ← handle_exception mcause mtval mtval2 mtinst regs;
    if nz rc then sbi_trap_error msg rc mcause mtval mtval2 mtinst regs else mret regs.
End Handler.

(** * Properties *)

Section HandlerLemmas.
Context `{Hardware} `{Platform} `{Mmu}.

(** Code that does not come back. *)
Definition never_returns {A} (m : M A) : Prop := forall s a s', m s <> Ret a s'.

Lemma never_bind {A B} (m : M A) (f : A -> M B) : (forall a, never_returns (f a)) -> never_returns (m ≫= f).
Proof. intros Hf s b s'. unfold mbind, M_bind. destruct (m s); [apply Hf|done]. Qed.

Lemma sbi_trap_error_never msg rc mcause mtval mtval2 mtinst regs :
  never_returns (sbi_trap_error msg rc mcause mtval mtval2 mtinst regs).
Proof. unfold sbi_trap_error. repeat (apply never_bind; intros ?). intros ? ? ?. discriminate. Qed.

(** The registers the handler looks at do not change. *)
Lemma trap_extra_reads (hext : bool) (csr : Z) s : exists v, (if hext then csr_read csr else mret 0) s = Ret v s.
Proof. destruct hext; eexists; reflexivity. Qed.

(** The handler up to its dispatch on the cause. *)
Lemma sbi_trap_handler_eq regs s :
  csr_val s (cur s) CSR_MISA <> 0 ->
  exists tv2 ti, sbi_trap_handler regs s =
    (let mcause := csr_val s (cur s) CSR_MCAUSE in
     let mtval := csr_val s (cur s) CSR_MTVAL in
     if nz (mcause .& (1 <<u 63)) then
       let mcause := mcause .& not64 (1 <<u 63) in
       if mcause =? IRQ_M_TIMER then sbi_timer_process;; mret regs
       else if mcause =? IRQ_M_SOFT then sbi_ipi_process sbi_exit;; mret regs
       else sbi_trap_error "unhandled external interrupt" SBI_ENOTSUPP mcause mtval tv2 ti regs
     else
       '(msg, (rc, regs)) ← handle_exception mcause mtval tv2 ti regs;
       if nz rc then sbi_trap_error msg rc mcause mtval tv2 ti regs else mret regs) s.
Proof.
  intros Hm. unfold sbi_trap_handler. do 2 mstep. rewrite (bind_ret_eq _ _ _ _ _ (misa_extension_H s Hm)). cbv beta.
  destruct (trap_extra_reads (misa_has s 7) CSR_MTVAL2 s) as [tv2 E2].
  destruct (trap_extra_reads (misa_has s 7) CSR_MTINST s) as [ti E3].
  exists tv2, ti. by rewrite (bind_ret_eq _ _ _ _ _ E2), (bind_ret_eq _ _ _ _ _ E3).
Qed.
End HandlerLemmas.

(** Interrupted code is resumed only after its trap has been dealt with: if
    the trap handler returns, the cause was a machine timer or software
    interrupt, or an exception whose handler reported success and supplied
    the registers to resume with; in every other case the hart reports the
    trap and never comes back. *)
Theorem sbi_trap_handler_returns_handled `{Hardware} `{Platform} `{Mmu} regs regs' s s' :
  csr_val s (cur s) CSR_MISA <> 0 -> sbi_trap_handler regs s = Ret regs' s' ->
  let mcause := csr_val s (cur s) CSR_MCAUSE in
  (nz (mcause .& (1 <<u 63)) = true /\ regs' = regs /\
    (mcause .& not64 (1 <<u 63) = IRQ_M_TIMER \/ mcause .& not64 (1 <<u 63) = IRQ_M_SOFT)) \/
  (nz (mcause .& (1 <<u 63)) = false /\ exists msg tv2 ti,
    handle_exception mcause (csr_val s (cur s) CSR_MTVAL) tv2 ti regs s = Ret (msg, (0, regs')) s').
Proof.
  intros Hm E mcause. destruct (sbi_trap_handler_eq regs s Hm) as (tv2 & ti & Eq). rewrite E in Eq. cbv zeta in Eq.
  fold mcause in Eq. destruct (nz (mcause .& (1 <<u 63))) eqn:Ei.
  - left. split; [done|]. destruct (Z.eqb_spec (mcause .& not64 (1 <<u 63)) IRQ_M_TIMER) as [Et|_].
    { unfold mbind, M_bind in Eq. destruct (sbi_timer_process s); [|done]. injection Eq as -> _. auto. }
    destruct (Z.eqb_spec (mcause .& not64 (1 <<u 63)) IRQ_M_SOFT) as [Es|_].
    { unfold mbind, M_bind in Eq. destruct (sbi_ipi_process sbi_exit s); [|done]. injection Eq as -> _. auto. }
    symmetry in Eq. by apply sbi_trap_error_never in Eq.
  - right. split; [done|]. unfold mbind, M_bind in Eq.
    destruct (handle_exception _ _ _ _ _ _) as [[msg [rc r]] s1|] eqn:Eh; [|done].
    destruct (nz rc) eqn:Er; [symmetry in Eq; by apply sbi_trap_error_never in Eq|]. apply nz_false in Er as ->.
    injection Eq as -> ->. eauto.
Qed.

Lemma sbi_trap_handler_returns_handled_witness :
  let s := put_csr (H := plain_hw) CSR_MCAUSE (2 ^ 63 + 7) su_state in
  let regs := mkRegs (replicate 32 7) 0x80400000 0xa2 0 in
  exists s', @sbi_trap_handler plain_hw fw_platform plain_mmu regs s = Ret regs s' /\
    (csr_val s (cur s) CSR_MCAUSE .& not64 (1 <<u 63) = IRQ_M_TIMER \/
     csr_val s (cur s) CSR_MCAUSE .& not64 (1 <<u 63) = IRQ_M_SOFT).
Proof.
  intros s regs.
  assert (E : @sbi_trap_handler plain_hw fw_platform plain_mmu regs s =
    Ret regs (match @sbi_trap_handler plain_hw fw_platform plain_mmu regs s with Ret _ s => s | Exit _ s => s end))
    by (vm_compute; reflexivity).
  eexists. split; [exact E|].
  destruct (@sbi_trap_handler_returns_handled plain_hw fw_platform plain_mmu regs regs s _ ltac:(vm_compute; discriminate) E)
    as [(_ & _ & Hc)|[Hn _]]; [exact Hc|]. vm_compute in Hn. discriminate Hn.
Defined.

(** The state after a machine timer interrupt. *)
Definition timer_st `{Hardware} (s : st) : st :=
  let s := put_csr CSR_MIE (csr_val s (cur s) CSR_MIE .& not64 MIP_MTIP) s in
  put_csr CSR_MIP (csr_val s (cur s) CSR_MIP .| MIP_STIP) s.

Lemma timer_trap_eq `{Hardware} `{Platform} `{Mmu} regs s :
  csr_val s (cur s) CSR_MISA <> 0 -> csr_val s (cur s) CSR_MCAUSE = 2 ^ 63 + IRQ_M_TIMER -> sbi_trap_handler regs s = Ret regs (timer_st s).
Proof.
  intros Hm Hc. destruct (sbi_trap_handler_eq regs s Hm) as (tv2 & ti & ->). cbv zeta. rewrite Hc. reflexivity.
Qed.

Lemma timer_st_csrs `{Hardware} s c i :
  csr_plain (cur s) -> fits 64 (csr_val s (cur s) CSR_MIE) -> fits 64 (csr_val s (cur s) CSR_MIP) -> 0 <= i ->
  Z.testbit (csr_val (timer_st s) (cur s) c) i =
  if (c =? CSR_MIE) && (i =? 7) then false
  else if (c =? CSR_MIP) && (i =? 5) then true
  else Z.testbit (csr_val s (cur s) c) i.
Proof.
  intros Hp Hie Hip Hi. unfold timer_st. cbv zeta. cbn [cur put_csr set_csrs].
  do 3 rewrite csr_val_put_plain by done. change (CSR_MIP =? CSR_MIE) with false. cbv iota.
  change MIP_STIP with (2 ^ 5). change MIP_MTIP with (2 ^ 7).
  destruct (Z.eqb_spec c CSR_MIP) as [->|]; [|destruct (Z.eqb_spec c CSR_MIE) as [->|]; [|done]].
  - change (CSR_MIP =? CSR_MIE) with false. cbn [andb]. rewrite testbit_u64, Z.lor_spec, testbit_pow2 by lia.
    destruct (Z.ltb_spec i 64); cbn [andb].
    + destruct (i =? 5); [by rewrite orb_true_r|by rewrite orb_false_r].
    + rewrite (testbit_fits 64 _ i Hip) by lia. by replace (i =? 5) with false by lia.
  - cbn [andb]. rewrite testbit_u64, Z.land_spec, testbit_not64, testbit_pow2 by lia.
    destruct (Z.ltb_spec i 64); cbn [andb].
    + destruct (i =? 7); [by rewrite andb_false_r|by rewrite andb_true_r].
    + rewrite (testbit_fits 64 _ i Hie) by lia. by replace (i =? 7) with false by lia.
Qed.

(** A machine timer interrupt is handed to supervisor mode: the handler
    returns with the registers unchanged, the supervisor's timer interrupt
    pending, further machine timer interrupts disabled, and no other bit of
    any control register changed. *)
Theorem trap_timer_handover `{Hardware} `{Platform} `{Mmu} regs s :
  csr_plain (cur s) -> csr_val s (cur s) CSR_MISA <> 0 ->
  csr_val s (cur s) CSR_MCAUSE = 2 ^ 63 + IRQ_M_TIMER ->
  fits 64 (csr_val s (cur s) CSR_MIE) -> fits 64 (csr_val s (cur s) CSR_MIP) ->
  exists s', sbi_trap_handler regs s = Ret regs s' /\
    forall c i, 0 <= i -> Z.testbit (csr_val s' (cur s) c) i =
      if (c =? CSR_MIE) && (i =? 7) then false
      else if (c =? CSR_MIP) && (i =? 5) then true
      else Z.testbit (csr_val s (cur s) c) i.
Proof.
  intros Hp Hm Hc Hie Hip. exists (timer_st s). split; [by apply timer_trap_eq|]. intros c i Hi. by apply timer_st_csrs.
Qed.

(** A hart in supervisor mode with its machine timer interrupt enabled. *)
Definition timer_state : st :=
  put_csr (H := plain_hw) CSR_MIE 0x88 (put_csr (H := plain_hw) CSR_MCAUSE (2 ^ 63 + 7) su_state).

Lemma trap_timer_handover_witness :
  exists s', @sbi_trap_handler plain_hw fw_platform plain_mmu (mkRegs (replicate 32 7) 0x80400000 0xa2 0) timer_state =
    Ret (mkRegs (replicate 32 7) 0x80400000 0xa2 0) s' /\
    Z.testbit (csr_val s' 0 CSR_MIP) 5 = true /\ Z.testbit (csr_val s' 0 CSR_MIE) 7 = false.
Proof.
  destruct (@trap_timer_handover plain_hw fw_platform plain_mmu (mkRegs (replicate 32 7) 0x80400000 0xa2 0) timer_state)
    as (s' & E & Hb).
  - intros csr v. reflexivity.
  - vm_compute. discriminate.
  - vm_compute. reflexivity.
  - vm_compute. split; discriminate || reflexivity.
  - vm_compute. split; discriminate || reflexivity.
  - exists s'. split; [exact E|]. change 0 with (cur timer_state) at 1 2. rewrite !Hb by lia. split; reflexivity.
Defined.
