(* ===== verification/Init.v ===== *)
(** The boot flow, lib/sbi/sbi_init.c: the lottery for the boot hart, its
    initialisation sequence, and the other harts waiting for it.

    The second half of the file is the hand-over between the boot hart and a
    waiting hart, step by step. *)

From Stdlib Require Import String.
From S2P Require Import Prelude Encoding Bitops Locks Machine Format Platform Console Scratch Asm Hart Hsm Tlb Ipi Timer System Ecall.

(** The picture printed at boot, line by line. *)
Definition BANNER : list Z :=
  let line s := chars s ++ [10] in
  line "   ____                    _____ ____ _____" ++
  line "  / __ \                  / ____|  _ \_   _|" ++
  line " | |  | |_ __   ___ _ __ | (___ | |_) || |" ++
  line " | |  | | '_ \ / _ \ '_ \ \___ \|  _ < | |" ++
  line " | |__| | |_) |  __/ | | |____) | |_) || |_" ++
  line "  \____/| .__/ \___|_| |_|_____/|____/_____|" ++
  line "        | |" ++ line "        |_|" ++ [10].

Section Init.
Context `{Hardware} `{Platform}.

Definition say (format : string) (args : list varg) : M unit := sbi_printf (chars format ++ [10]) args;; mret tt.

Definition sbi_boot_prints (scratch hartid : Z) : M unit :=
  plat ← sbi_platform_ptr scratch;
  sbi_printf ([10] ++ chars "OpenSBI v%d.%d" ++ [10]) [VInt 0; VInt 8];;
  sbi_printf BANNER [];;
  xlen ← misa_xlen;
  (if xlen <? 1 then say "Error %d getting MISA XLEN" [VInt xlen];; sbi_hart_hang else mret tt);;
  say "Platform Name       : %s" [VStr (Some (sbi_platform_name plat))];;
  str ← match sbi_platform_get_features_str plat (replicate 128 0) 128 with
        | Some str => mret str
        | None => exits XUndef
        end;
  say "Platform Features   : %s" [VStr (Some str)];;
  say "Platform HART Count : %u" [VInt (sbi_platform_hart_count plat)];;
  say "Boot HART ID        : %u" [VInt hartid];;
  str ← misa_string xlen str 128;
  say "Boot HART ISA       : %s" [VStr (Some str)];;
  str ← sbi_hart_get_features_str scratch str 128;
  say "BOOT HART Features  : %s" [VStr (Some str)];;
  count ← sbi_hart_pmp_count scratch;
  say "BOOT HART PMP Count : %d" [VInt count];;
  fw_start ← load (scratch + SBI_SCRATCH_FW_START_OFFSET);
  say "Firmware Base       : 0x%lx" [VInt fw_start];;
  fw_size ← load (scratch + SBI_SCRATCH_FW_SIZE_OFFSET);
  say "Firmware Size       : %d KB" [VInt (u32 (fw_size / 1024))];;
  say "Runtime SBI Version : %d.%d" [VInt sbi_ecall_version_major; VInt sbi_ecall_version_minor];;
  sbi_printf [10] [];;
  sbi_hart_delegation_dump scratch;;
  sbi_hart_pmp_dump scratch.

(** [spin_lock] while others may hold and release the lock. *)
Definition spin_lock_wait (x : string) : M unit :=
  poll (l ← getg x;
        match spin_lock l with Some l' => setg x l';; mret (Some tt) | None => mret None end).

(** One turn of the outer loop: [Some] when the boot hart is done. *)
Definition coldboot_turn : M (option unit) :=
  coldboot_done ← getg "coldboot_done";
  if nz coldboot_done then mret (Some tt)
  else
    spin_unlock_var "coldboot_lock";;
    poll (wfi;;
          cmip ← csr_read CSR_MIP;
          mret (if nz (cmip .& MIP_MSIP) then Some tt else None));;
    spin_lock_wait "coldboot_lock";;
    mret None.

Definition wait_for_coldboot (scratch hartid : Z) : M unit :=
  plat ← sbi_platform_ptr scratch;
  saved_mie ← csr_read CSR_MIE;
  csr_set CSR_MIE MIP_MSIP;;
  spin_lock_wait "coldboot_lock";;
  modify (set_wait_hmask (sbi_hartmask_set_hart hartid));;
  poll coldboot_turn;;
  modify (set_wait_hmask (sbi_hartmask_clear_hart hartid));;
  spin_unlock_var "coldboot_lock";;
  csr_write CSR_MIE saved_mie;;
  sbi_platform_ipi_clear plat hartid.

(** The body of the loop over the harts. *)
Definition wake_hart (plat : option sbi_platform) (hartid i : Z) : M unit :=
  hmask ← gets coldboot_wait_hmask;
  when (negb (i =? hartid) && nz (sbi_hartmask_test_hart i hmask)) (sbi_platform_ipi_send plat i).

Definition wake_coldboot_harts (scratch hartid : Z) : M unit :=
  plat ← sbi_platform_ptr scratch;
  spin_lock_wait "coldboot_lock";;
  setg "coldboot_done" 1;;
  last ← sbi_scratch_last_hartid;
  for_each (seqZ 0 (last + 1)) (wake_hart plat hartid);;
  spin_unlock_var "coldboot_lock".

(** [if (rc) sbi_hart_hang();] *)
Definition or_hang (m : M Z) : M unit := rc ← m; when (nz rc) sbi_hart_hang.

(** The end of both boot sequences. *)
Definition jump_to_next (scratch hartid : Z) : M unit :=
  off ← getg "init_count_offset";
  count ← load (scratch + off);
  store (scratch + off) (u64 (count + 1));;
  sbi_hsm_prepare_next_jump scratch hartid;;
  arg1 ← load (scratch + SBI_SCRATCH_NEXT_ARG1_OFFSET);
  addr ← load (scratch + SBI_SCRATCH_NEXT_ADDR_OFFSET);
  mode ← load (scratch + SBI_SCRATCH_NEXT_MODE_OFFSET);
  sbi_hart_switch_mode hartid arg1 addr mode false.

Definition init_coldboot (scratch hartid : Z) : M unit :=
  plat ← sbi_platform_ptr scratch;
  or_hang (sbi_scratch_init scratch);;
  off ← sbi_scratch_alloc_offset 8 "INIT_COUNT";
  setg "init_count_offset" off;;
  when (off =? 0) sbi_hart_hang;;
  or_hang (sbi_hsm_init scratch hartid true);;
  or_hang (sbi_platform_early_init plat true);;
  or_hang (sbi_hart_init scratch hartid true);;
  or_hang (sbi_console_init scratch);;
  or_hang (sbi_platform_irqchip_init plat true);;
  or_hang (sbi_ipi_init scratch true);;
  or_hang (sbi_tlb_init scratch true);;
  or_hang (sbi_timer_init scratch true);;
  or_hang sbi_ecall_init;;
  or_hang (sbi_platform_final_init plat true);;
  options ← load (scratch + SBI_SCRATCH_OPTIONS_OFFSET);
  when (negb (nz (options .& SBI_SCRATCH_NO_BOOT_PRINTS))) (sbi_boot_prints scratch hartid);;
  wake_coldboot_harts scratch hartid;;
  jump_to_next scratch hartid.

Definition init_warmboot (scratch hartid : Z) : M unit :=
  plat ← sbi_platform_ptr scratch;
  wait_for_coldboot scratch hartid;;
  off ← getg "init_count_offset";
  when (off =? 0) sbi_hart_hang;;
  or_hang (sbi_hsm_init scratch hartid false);;
  or_hang (sbi_platform_early_init plat false);;
  or_hang (sbi_hart_init scratch hartid false);;
  or_hang (sbi_platform_irqchip_init plat false);;
  or_hang (sbi_ipi_init scratch false);;
  or_hang (sbi_tlb_init scratch false);;
  or_hang (sbi_timer_init scratch false);;
  or_hang (sbi_platform_final_init plat false);;
  jump_to_next scratch hartid.

(** [atomic_xchg(&coldboot_lottery, 1)] *)
Definition draw_lottery : M Z :=
  old ← getg "coldboot_lottery"; setg "coldboot_lottery" 1;; mret old.

Definition sbi_init (scratch : Z) : M unit :=
  hartid ← current_hartid;
  plat ← sbi_platform_ptr scratch;
  when ((SBI_HARTMASK_MAX_BITS <=? hartid) || sbi_platform_hart_invalid plat hartid) sbi_hart_hang;;
  old ← draw_lottery;
  if old =? 0 then init_coldboot scratch hartid else init_warmboot scratch hartid.
End Init.

(** A hart powers on: a platform without devices, the firmware at
    [0x80000000], the next stage at [0x80200000]. *)
Definition boot_platform : Platform := Build_Platform (mkPlat 0 0 (chars "demo") 1 1 8192 no_ops None) 0x80020000.
Definition boot_scratch : Z := 0x80021000.
Definition power_on : st :=
  set_csrs (fun _ => {[ (0, CSR_MSCRATCH) := boot_scratch; (0, CSR_MISA) := 0x8000000000141105 ]})
    (set_mem (fun _ => {[ boot_scratch + SBI_SCRATCH_PLATFORM_ADDR_OFFSET := 0x80010000;
                          boot_scratch + SBI_SCRATCH_FW_START_OFFSET := 0x80000000;
                          boot_scratch + SBI_SCRATCH_FW_SIZE_OFFSET := 0x20000;
                          boot_scratch + SBI_SCRATCH_NEXT_ARG1_OFFSET := 0x82200000;
                          boot_scratch + SBI_SCRATCH_NEXT_ADDR_OFFSET := 0x80200000;
                          boot_scratch + SBI_SCRATCH_NEXT_MODE_OFFSET := PRV_S ]}) boot_st).

(** The whole cold boot runs to its end: it leaves for the next stage in
    supervisor mode with the hart id and the argument, the seven extensions
    registered, this hart started, and the firmware's memory denied to the next stage. *)
Example cold_boot_runs :
  match @sbi_init pmp_plain_hw boot_platform boot_scratch power_on with
  | Exit (XMret a0 a1) s =>
      (a0, a1, csr_val s 0 CSR_MEPC) = (0, 0x82200000, 0x80200000) /\
      Z.testbit (csr_val s 0 CSR_MSTATUS) 11 = true /\ length (ecall_exts s) = 7%nat /\
      hsm_state s 0 = SBI_HART_STARTED /\
      pmp_allows s 0 0x80000000 PMP_R = false /\ pmp_allows s 0 0x80200000 PMP_R = true
  | _ => False
  end.
Proof. vm_compute. auto 10. Qed.

(** * The lottery *)

(** The harts draw one after another, in any order; what each one sees. *)
Fixpoint draws (harts : list Z) : M (list (Z * Z)) :=
  match harts with
  | [] => mret []
  | h :: harts => old ← draw_lottery; rest ← draws harts; mret ((h, old) :: rest)
  end.

Lemma draws_lost harts : forall s,
  gval s "coldboot_lottery" = 1 ->
  exists s', draws harts s = Ret ((fun h => (h, 1)) <$> harts) s' /\ gval s' "coldboot_lottery" = 1.
Proof.
  induction harts as [|h harts IH]; intros s Hs; [by exists s|]. cbn [draws]. unfold draw_lottery. repeat mstep.
  destruct (IH (set_glob <["coldboot_lottery"%string := 1]> s)) as (s' & E & Hs'); [by rewrite gval_set|].
  rewrite (bind_ret_eq _ _ _ _ _ E), Hs. by exists s'.
Qed.

(** Whatever the order in which the harts arrive, the lottery has exactly
    one winner, the first to arrive; every other hart takes the warm path. *)
Theorem coldboot_lottery_one_winner s first harts :
  gval s "coldboot_lottery" = 0 ->
  exists s', draws (first :: harts) s = Ret ((first, 0) :: ((fun h => (h, 1)) <$> harts)) s'.
Proof.
  intros Hs. cbn [draws]. unfold draw_lottery. repeat mstep.
  destruct (draws_lost harts (set_glob <["coldboot_lottery"%string := 1]> s)) as (s' & E & _); [by rewrite gval_set|].
  rewrite (bind_ret_eq _ _ _ _ _ E), Hs. by exists s'.
Qed.

Lemma coldboot_lottery_one_winner_witness :
  exists s', draws [2; 0; 1] boot_st = Ret [(2, 0); (0, 1); (1, 1)] s'.
Proof. apply (coldboot_lottery_one_winner boot_st 2 [0; 1]). vm_compute. reflexivity. Defined.

(** * The hand-over to the waiting harts

    [wait_for_coldboot] and [wake_coldboot_harts] as steps: what happens while
    the lock is held is one step for a waiting hart, and one step per examined
    hart for the boot hart. *)

Inductive warm_phase : Type :=
| WArrive      (* before [spin_lock] *)
| WChecking    (* the lock held and the mask bit set, at [while (!coldboot_done)] *)
| WWfi         (* in the [wfi] loop, the lock released *)
| WRelock      (* the software interrupt seen, at [spin_lock] *)
| WLeaving     (* the bit cleared and the lock released, before [ipi_clear] *)
| WBooting.    (* returned *)
Inductive cold_phase : Type :=
| CBusy                (* before [wake_coldboot_harts] *)
| CWaking (i : Z)      (* the lock held, at turn [i] of the loop *)
| CFree.               (* returned *)

Record boot_state : Type := mkBoot {
  b_done : bool;
  b_lock : option Z;
  b_mask : Z -> bool;
  b_msip : Z -> bool;
  b_warm : Z -> warm_phase;
  b_cold : cold_phase
}.

Definition upd {A} (f : Z -> A) (h : Z) (v : A) : Z -> A := fun k => if k =? h then v else f k.

Section Handover.
Variables boot_hart last : Z.

Inductive boot_step : boot_state -> boot_state -> Prop :=
| arrive h m p w c d : 0 <= h <= last -> h <> boot_hart -> w h = WArrive ->
    boot_step (mkBoot d None m p w c) (mkBoot d (Some h) (upd m h true) p (upd w h WChecking) c)
| sleep h l m p w c : w h = WChecking ->
    boot_step (mkBoot false l m p w c) (mkBoot false None m p (upd w h WWfi) c)
| wake h d l m p w c : w h = WWfi -> p h = true ->
    boot_step (mkBoot d l m p w c) (mkBoot d l m p (upd w h WRelock) c)
| relock h d m p w c : w h = WRelock ->
    boot_step (mkBoot d None m p w c) (mkBoot d (Some h) m p (upd w h WChecking) c)
| leave h l m p w c : w h = WChecking ->
    boot_step (mkBoot true l m p w c) (mkBoot true None (upd m h false) p (upd w h WLeaving) c)
| clear_ipi h d l m p w c : w h = WLeaving ->
    boot_step (mkBoot d l m p w c) (mkBoot d l m (upd p h false) (upd w h WBooting) c)
| cold_lock d m p w :
    boot_step (mkBoot d None m p w CBusy) (mkBoot true (Some boot_hart) m p w (CWaking 0))
| cold_wake d l m p w i : i <= last ->
    boot_step (mkBoot d l m p w (CWaking i))
      (mkBoot d l m (if negb (i =? boot_hart) && m i then upd p i true else p) w (CWaking (i + 1)))
| cold_unlock d l m p w i : last < i ->
    boot_step (mkBoot d l m p w (CWaking i)) (mkBoot d None m p w CFree)
| stray_ipi h d l m p w c :
    boot_step (mkBoot d l m p w c) (mkBoot d l m (upd p h true) w c).

Definition boot_start (s : boot_state) : Prop :=
  b_done s = false /\ b_lock s = None /\ (forall h, b_mask s h = false) /\ (forall h, b_warm s h = WArrive) /\
  b_cold s = CBusy.

Inductive boot_reach : boot_state -> Prop :=
| boot_reach_start s : boot_start s -> boot_reach s
| boot_reach_step s s' : boot_reach s -> boot_step s s' -> boot_reach s'.

(** A hart between arriving and leaving has its bit in the mask. *)
Definition waiting (w : warm_phase) : Prop := w = WChecking \/ w = WWfi \/ w = WRelock.

Record boot_inv (s : boot_state) : Prop := {
  inv_mask h : waiting (b_warm s h) -> b_mask s h = true /\ 0 <= h <= last /\ h <> boot_hart;
  inv_lock h : b_warm s h = WChecking -> b_lock s = Some h;
  inv_cold :
    match b_cold s with
    | CBusy => b_done s = false /\ forall h, b_warm s h <> WLeaving
    | CWaking i => b_done s = true /\ b_lock s = Some boot_hart /\ (forall h, b_warm s h <> WLeaving) /\
        forall h, 0 <= h < i -> h <> boot_hart -> b_mask s h = true -> b_msip s h = true
    | CFree => b_done s = true /\ forall h, b_warm s h = WWfi -> b_msip s h = true
    end
}.

Lemma boot_inv_start s : boot_start s -> boot_inv s.
Proof.
  intros (Hd & Hl & Hm & Hw & Hc). split.
  - intros h. rewrite Hw. by intros [?|[?|?]].
  - intros h. by rewrite Hw.
  - rewrite Hc. split; [done|]. intros h. by rewrite Hw.
Qed.

Lemma waiting_checking : waiting WChecking.
Proof. by left. Qed.

(** Look at hart [k] after a change at hart [h]. *)
Ltac at_hart k h := unfold upd; destruct (Z.eqb_spec k h) as [->|].

Lemma boot_inv_mask s s' : boot_inv s -> boot_step s s' ->
  forall k, waiting (b_warm s' k) -> b_mask s' k = true /\ 0 <= k <= last /\ k <> boot_hart.
Proof.
  intros [Im Il Ic] Hst k. destruct Hst; simpl in *; try apply Im; at_hart k h; try apply Im; auto.
  - intros _. apply Im. left. done.
  - intros _. apply Im. right. left. done.
  - intros _. apply Im. right. right. done.
  - unfold waiting. intuition discriminate.
  - unfold waiting. intuition discriminate.
Qed.

Lemma boot_inv_lock s s' : boot_inv s -> boot_step s s' ->
  forall k, b_warm s' k = WChecking -> b_lock s' = Some k.
Proof.
  intros [Im Il Ic] Hst k. destruct Hst; simpl in *; try apply Il; try (at_hart k h; try apply Il; try done).
  - intros E. specialize (Il k E). done.
  - intros E. pose proof (Il k E). pose proof (Il h ltac:(assumption)). congruence.
  - intros E. specialize (Il k E). done.
  - intros E. pose proof (Il k E). pose proof (Il h ltac:(assumption)). congruence.
  - intros E. specialize (Il k E). done.
  - intros E. pose proof (Il k E). destruct (Im k) as (_ & _ & ?); [rewrite E; apply waiting_checking|].
    destruct Ic as (_ & ? & _). congruence.
Qed.

Lemma boot_inv_cold s s' : boot_inv s -> boot_step s s' ->
  match b_cold s' with
  | CBusy => b_done s' = false /\ forall h, b_warm s' h <> WLeaving
  | CWaking i => b_done s' = true /\ b_lock s' = Some boot_hart /\ (forall h, b_warm s' h <> WLeaving) /\
      forall h, 0 <= h < i -> h <> boot_hart -> b_mask s' h = true -> b_msip s' h = true
  | CFree => b_done s' = true /\ forall h, b_warm s' h = WWfi -> b_msip s' h = true
  end.
Proof.
  intros [Im Il Ic] Hst. destruct Hst; simpl in *.
  - destruct c; [|by destruct Ic as (_ & ? & _)|]; destruct Ic as [Hd Hc]; (split; [done|]); intros k; at_hart k h; done || apply Hc.
  - destruct c; [|by destruct Ic as (? & _)|by destruct Ic as (? & _)]. destruct Ic as [Hd Hc].
    split; [done|]. intros k. at_hart k h; [done|apply Hc].
  - destruct c; [destruct Ic as [Hd Hc]|destruct Ic as (Hd & Hl & Hc & Hm)|destruct Ic as [Hd Hc]].
    + split; [done|]. intros k. at_hart k h; [done|apply Hc].
    + split; [done|]. split; [done|]. split; [|done]. intros k. at_hart k h; [done|apply Hc].
    + split; [done|]. intros k. at_hart k h; [done|apply Hc].
  - destruct c; [|by destruct Ic as (_ & ? & _)|]; destruct Ic as [Hd Hc]; (split; [done|]); intros k; at_hart k h; done || apply Hc.
  - destruct c; [by destruct Ic as (? & _)| |].
    + destruct Ic as (_ & Hl & _). pose proof (Il h ltac:(assumption)).
      destruct (Im h) as (_ & _ & ?); [by left|]. congruence.
    + destruct Ic as [Hd Hc]. split; [done|]. intros k. at_hart k h; [done|apply Hc].
  - destruct c; [by destruct Ic as (_ & Hc); destruct (Hc h)|by destruct Ic as (_ & _ & Hc & _); destruct (Hc h)|].
    destruct Ic as [Hd Hc]. split; [done|]. intros k. at_hart k h; [done|apply Hc].
  - destruct Ic as [Hd Hc]. split; [done|]. split; [done|]. split; [done|]. intros k ?. lia.
  - destruct Ic as (Hd & Hl & Hc & Hm). split; [done|]. split; [done|]. split; [done|].
    intros k Hk Hne Hmk. destruct (Z.eqb_spec i boot_hart) as [->|]; simpl.
    { apply Hm; [lia|done|done]. }
    destruct (m i) eqn:Emi.
    + at_hart k i; [done|]. apply Hm; [lia|done|done].
    + apply Hm; [|done|done]. assert (k <> i) by congruence. lia.
  - destruct Ic as (Hd & Hl & Hc & Hm). split; [done|]. intros k Hk.
    destruct (Im k) as (? & ? & ?); [rewrite Hk; right; by left|]. apply Hm; [lia|done|done].
  - destruct c; [done|destruct Ic as (Hd & Hl & Hc & Hm)|destruct Ic as [Hd Hc]].
    + split; [done|]. split; [done|]. split; [done|]. intros k. at_hart k h; [done|]. apply Hm.
    + split; [done|]. intros k. at_hart k h; [done|]. apply Hc.
Qed.

Lemma boot_reach_inv s : boot_reach s -> boot_inv s.
Proof.
  induction 1 as [s Hs|s s' _ IH Hst]; [by apply boot_inv_start|].
  split; [by eapply boot_inv_mask|by eapply boot_inv_lock|by eapply boot_inv_cold].
Qed.
End Handover.

(** C23: no wake-up is lost between the boot hart and the harts waiting for it:
    in every state reachable by any interleaving, once the boot hart has
    finished waking, each hart still in its wait loop has its software
    interrupt pending and can leave the loop, and a hart that holds the lock
    and checks the flag finds it set. *)
Theorem coldboot_no_lost_wakeup boot_hart last s h :
  boot_reach boot_hart last s -> b_cold s = CFree ->
  (b_warm s h = WWfi -> b_msip s h = true /\ exists s', boot_step boot_hart last s s' /\ b_warm s' h = WRelock) /\
  (b_warm s h = WChecking -> exists s', boot_step boot_hart last s s' /\ b_warm s' h = WLeaving).
Proof.
  intros Hr Hc. destruct (boot_reach_inv _ _ _ Hr) as [_ _ Ic]. rewrite Hc in Ic. destruct Ic as [Hd Hw].
  destruct s as [d l m p w c]. simpl in *. subst. split.
  - intros Hh. pose proof (Hw h Hh) as Hp. split; [done|]. eexists. split; [by eapply wake|].
    simpl. unfold upd. by rewrite Z.eqb_refl.
  - intros Hh. eexists. split; [by eapply leave|]. simpl. unfold upd. by rewrite Z.eqb_refl.
Qed.

(** Hart 1 arrives and sleeps before hart 0 wakes it. *)
Lemma coldboot_no_lost_wakeup_witness :
  exists s, boot_reach 0 1 s /\ b_cold s = CFree /\ b_warm s 1 = WWfi /\ b_msip s 1 = true.
Proof.
  set (f := fun _ : Z => false).
  assert (R0 : boot_reach 0 1 (mkBoot false None f f (fun _ => WArrive) CBusy)).
  { apply boot_reach_start. repeat split. }
  eassert (R1 : boot_reach 0 1 _) by (eapply boot_reach_step; [exact R0|apply (arrive 0 1 1); [lia|lia|done]]).
  eassert (R2 : boot_reach 0 1 _) by (eapply boot_reach_step; [exact R1|by apply (sleep 0 1 1)]).
  eassert (R3 : boot_reach 0 1 _) by (eapply boot_reach_step; [exact R2|apply (cold_lock 0 1)]).
  eassert (R4 : boot_reach 0 1 _) by (eapply boot_reach_step; [exact R3|apply (cold_wake 0 1); lia]).
  eassert (R5 : boot_reach 0 1 _) by (eapply boot_reach_step; [exact R4|apply (cold_wake 0 1); lia]).
  eassert (R6 : boot_reach 0 1 _) by (eapply boot_reach_step; [exact R5|apply (cold_unlock 0 1); lia]).
  eexists. split; [exact R6|]. split; [reflexivity|]. split; [reflexivity|].
  apply (coldboot_no_lost_wakeup 0 1 _ 1 R6); reflexivity.
Defined.
