(* ===== verification/FwBase.v ===== *)
(** The entry code of the firmware: firmware/fw_base.S, with the three variants
    fw_jump.S, fw_payload.S and fw_dynamic.S.

    An instruction is a step on the registers of the hart and the state of the
    machine; a label is the computation that starts there.  Memory is read and
    written in 64-bit cells at multiples of eight.  The code runs at the
    address it was loaded to until it has copied itself to the address it was
    linked to: [base] is where it runs, and [la] is relative to it. *)

From S2P Require Import Prelude Encoding Bitops Machine Platform Scratch Asm Hart Trap Unpriv Handler Init.

(** * Instructions *)

Module Reg.
Definition zero : Z := 0.
Definition ra : Z := 1.
Definition sp : Z := 2.
Definition gp : Z := 3.
Definition tp : Z := 4.
Definition t0 : Z := 5.
Definition t1 : Z := 6.
Definition t2 : Z := 7.
Definition s0 : Z := 8.
Definition s1 : Z := 9.
Definition a0 : Z := 10.
Definition a1 : Z := 11.
Definition a2 : Z := 12.
Definition a3 : Z := 13.
Definition a4 : Z := 14.
Definition a5 : Z := 15.
Definition a6 : Z := 16.
Definition a7 : Z := 17.
Definition s2 : Z := 18.
Definition s3 : Z := 19.
Definition s4 : Z := 20.
Definition s5 : Z := 21.
Definition s6 : Z := 22.
Definition s7 : Z := 23.
Definition s8 : Z := 24.
Definition s9 : Z := 25.
Definition s10 : Z := 26.
Definition s11 : Z := 27.
Definition t3 : Z := 28.
Definition t4 : Z := 29.
Definition t5 : Z := 30.
Definition t6 : Z := 31.
End Reg.
Import Reg.

(** The general registers by number; register 0 reads as zero. *)
Definition regs : Type := Z -> Z.
Definition rget (r : regs) (x : Z) : Z := if x =? 0 then 0 else r x.
Definition rset (x v : Z) (r : regs) : regs := fun y => if y =? x then v else r y.

Definition A (X : Type) : Type := regs -> M (X * regs).
#[global] Instance A_ret : MRet A := fun X x r => mret (x, r).
#[global] Instance A_bind : MBind A := fun X Y f m r => y ← m r; f y.1 y.2.
Definition lift {X} (m : M X) : A X := fun r => x ← m; mret (x, r).

Definition get (x : Z) : A Z := fun r => mret (rget r x, r).
Definition set (rd v : Z) : A unit := fun r => mret (tt, rset rd v r).

Definition add (rd x y : Z) : A unit := fun r => set rd (u64 (rget r x + rget r y)) r.
Definition sub (rd x y : Z) : A unit := fun r => set rd (u64 (rget r x - rget r y)) r.
Definition mul (rd x y : Z) : A unit := fun r => set rd (u64 (rget r x * rget r y)) r.
Definition and_ (rd x y : Z) : A unit := fun r => set rd (rget r x .& rget r y) r.
Definition or_ (rd x y : Z) : A unit := fun r => set rd (rget r x .| rget r y) r.
Definition addi (rd x i : Z) : A unit := fun r => set rd (u64 (rget r x + i)) r.
Definition andi (rd x i : Z) : A unit := fun r => set rd (rget r x .& u64 i) r.
Definition xori (rd x i : Z) : A unit := fun r => set rd (Z.lxor (rget r x) (u64 i)) r.
Definition srli (rd x i : Z) : A unit := fun r => set rd (rget r x >>u i) r.
Definition slli (rd x i : Z) : A unit := fun r => set rd (rget r x <<u i) r.
Definition li (rd v : Z) : A unit := set rd (u64 v).

Definition beq (x y : Z) : A bool := fun r => mret (rget r x =? rget r y, r).
Definition blt (x y : Z) : A bool := fun r => mret (s64 (rget r x) <? s64 (rget r y), r).
Definition bne (x y : Z) : A bool := c ← beq x y; mret (negb c).
Definition bge (x y : Z) : A bool := c ← blt x y; mret (negb c).
Definition ble (x y : Z) : A bool := bge y x.
Definition bgt (x y : Z) : A bool := blt y x.
Definition beqz (x : Z) : A bool := beq x zero.
Definition bnez (x : Z) : A bool := bne x zero.

Definition REG_L (rd off rs : Z) : A unit := fun r => v ← load (u64 (rget r rs + off)); set rd v r.
Definition REG_S (rs off rd : Z) : A unit := fun r => store (u64 (rget r rd + off)) (rget r rs);; mret (tt, r).
(** Half of the cell that the address lies in. *)
Definition lwu (rd off rs : Z) : A unit := fun r =>
  let addr := u64 (rget r rs + off) in
  w ← load (addr .& not64 7);
  set rd (if nz (addr .& 4) then u32 (w >>u 32) else u32 w) r.
Definition amoadd_w (rd rs addr : Z) : A unit := fun r =>
  old ← load (rget r addr);
  store (rget r addr) ((old .& not64 (2 ^ 32 - 1)) .| u32 (old + rget r rs));;
  set rd (u64 (s32 old)) r.

Section Csr.
Context `{Hardware}.
Definition csrr (rd csr : Z) : A unit := fun r => v ← csr_read csr; set rd v r.
Definition csrw (csr rs : Z) : A unit := fun r => csr_write csr (rget r rs);; mret (tt, r).
Definition csrrw (rd csr rs : Z) : A unit := fun r => v ← csr_swap csr (rget r rs); set rd v r.

(** The turns of a wait loop, until [m] is true. *)
Fixpoint await (n : nat) (m : A bool) : A unit :=
  match n with
  | O => lift (exits XSpin)
  | S n => c ← m; if (c : bool) then mret tt else lift others_act;; await n m
  end.
End Csr.

Definition MOV_3R (d0 x0 d1 x1 d2 x2 : Z) : A unit := add d0 x0 zero;; add d1 x1 zero;; add d2 x2 zero.
Definition MOV_5R (d0 x0 d1 x1 d2 x2 d3 x3 d4 x4 : Z) : A unit :=
  add d0 x0 zero;; add d1 x1 zero;; add d2 x2 zero;; add d3 x3 zero;; add d4 x4 zero.

(** Is [chk] in the range? *)
Definition BRANGE (start stop chk : Z) : A bool :=
  c ← blt chk start;
  if (c : bool) then mret false else c ← bge chk stop; mret (negb c).

Definition _start_hang : A unit := lift (exits XHang).
Definition hang_if (m : A bool) : A unit := c ← m; if (c : bool) then _start_hang else mret tt.

(** * The image *)

(** The addresses of the labels, as linked. *)
Class Image : Type := { sym : string -> Z }.

(** What the three variants of the firmware fill in.  They are called with the
    arguments of the previous stage in a0, a1 and a2. *)
Class Variant : Type := {
  fw_boot_hart : A unit;
  fw_save_info : A unit;
  fw_prev_arg1 : A unit;
  fw_next_arg1 : A unit;
  fw_next_addr : A unit;
  fw_next_mode : A unit;
  fw_options : A unit
}.

(** The platform's [fw_platform_init] (C, or the weak one of fw_base.S): from
    a0 to a4 to the address of the device tree.  A call of a C function leaves
    in the registers that are the caller's to save what [junk] says. *)
Class CRuntime : Type := {
  fw_platform_init_c : Z -> Z -> Z -> Z -> Z -> M Z;
  junk : regs -> Z -> Z;
  ret_addr : Z
}.

Definition BOOT_STATUS_RELOCATE_DONE : Z := 1.
Definition BOOT_STATUS_BOOT_HART_DONE : Z := 2.
Definition SIZEOF_POINTER : Z := 8.
Definition SBI_TRAP_REGS_SIZE : Z := 280.
Definition SBI_TRAP_REGS_OFFSET (i : Z) : Z := i * SIZEOF_POINTER.
Definition SBI_TRAP_REGS_mepc : Z := 32.
Definition SBI_TRAP_REGS_mstatus : Z := 33.
Definition SBI_TRAP_REGS_mstatusH : Z := 34.

Definition caller_saved (x : Z) : bool := (x =? 1) || ((5 <=? x) && (x <=? 7)) || ((10 <=? x) && (x <=? 17)) || (28 <=? x).

Section Entry.
Context `{Hardware} `{Platform} `{Mmu} `{Image} `{Variant} `{CRuntime}.

(** [call f], for code that returns to where it was called from. *)
Definition call (f : A unit) : A unit := set ra ret_addr;; f.
Definition c_call (m : M Z) : A unit := fun r =>
  v ← m; mret (tt, fun x => if x =? a0 then v else if caller_saved x then junk r x else r x).

Definition la (base rd : Z) (label : string) : A unit := set rd (u64 (sym label - sym "_fw_start" + base)).
(** A jump through a register goes on at [target] if that is what it holds. *)
Definition jr (x target : Z) (k : A unit) : A unit := v ← get x; if (v : Z) =? target then k else lift (exits XUndef).

(** The linked addresses. *)
Notation link := (sym "_fw_start").

(** ** Relocation *)

Fixpoint _relocate_copy_to_lower_loop (n : nat) : A unit :=
  match n with
  | O => lift (exits XSpin)
  | S n =>
      REG_L t3 0 t2;; REG_S t3 0 t0;;
      addi t0 t0 SIZEOF_POINTER;; addi t2 t2 SIZEOF_POINTER;;
      c ← blt t0 t1; if (c : bool) then _relocate_copy_to_lower_loop n else mret tt
  end.
Definition _relocate_copy_to_lower (base : Z) : A unit :=
  c ← ble t1 t2;
  (if (c : bool) then mret tt
   else
     la base t3 "_relocate_lottery";; hang_if (BRANGE t2 t1 t3);;
     la base t3 "_boot_status";; hang_if (BRANGE t2 t1 t3);;
     la base t3 "_relocate";; la base t5 "_relocate_done";;
     hang_if (BRANGE t2 t1 t3);; hang_if (BRANGE t2 t1 t5);; hang_if (BRANGE t3 t5 t2));;
  n ← (fun r => mret (S (Z.to_nat (rget r t1 - rget r t0)), r));
  _relocate_copy_to_lower_loop n.

Fixpoint _relocate_copy_to_upper_loop (n : nat) : A unit :=
  match n with
  | O => lift (exits XSpin)
  | S n =>
      addi t3 t3 (- SIZEOF_POINTER);; addi t1 t1 (- SIZEOF_POINTER);;
      REG_L t2 0 t3;; REG_S t2 0 t1;;
      c ← blt t0 t1; if (c : bool) then _relocate_copy_to_upper_loop n else mret tt
  end.
Definition _relocate_copy_to_upper (base : Z) : A unit :=
  c ← ble t3 t0;
  (if (c : bool) then mret tt
   else
     la base t2 "_relocate_lottery";; hang_if (BRANGE t0 t3 t2);;
     la base t2 "_boot_status";; hang_if (BRANGE t0 t3 t2);;
     la base t2 "_relocate";; la base t5 "_relocate_done";;
     hang_if (BRANGE t0 t3 t2);; hang_if (BRANGE t0 t3 t5);; hang_if (BRANGE t2 t5 t0));;
  n ← (fun r => mret (S (Z.to_nat (rget r t1 - rget r t0)), r));
  _relocate_copy_to_upper_loop n.

(** ** Set-up by the boot hart *)

Definition _reset_regs : A unit :=
  li sp 0;; li gp 0;; li tp 0;; li t0 0;; li t1 0;; li t2 0;; li s0 0;; li s1 0;;
  li a3 0;; li a4 0;; li a5 0;; li a6 0;; li a7 0;;
  li s2 0;; li s3 0;; li s4 0;; li s5 0;; li s6 0;; li s7 0;; li s8 0;; li s9 0;; li s10 0;; li s11 0;;
  li t3 0;; li t4 0;; li t5 0;; li t6 0;;
  csrw CSR_MSCRATCH zero.

Fixpoint _bss_zero (n : nat) : A unit :=
  match n with
  | O => lift (exits XSpin)
  | S n =>
      REG_S zero 0 s4;; addi s4 s4 SIZEOF_POINTER;;
      c ← blt s4 s5; if (c : bool) then _bss_zero n else mret tt
  end.

(** The fields of the structure [platform], whose address is in [rs]. *)
Definition plat_lwu (rd : Z) (field : sbi_platform -> Z) (rs : Z) : A unit :=
  p ← get rs; if (p : Z) =? u64 (sym "platform") then set rd (u32 (field the_platform)) else lift (exits XUndef).
Definition plat_index2id (rd rs : Z) : A unit :=
  p ← get rs;
  if (p : Z) =? u64 (sym "platform")
  then set rd (match hart_index2id the_platform with Some _ => sym "hart_index2id" | None => 0 end)
  else lift (exits XUndef).
(** [lwu rd, (rs)] in the table of hart ids. *)
Definition table_lwu (rd rs : Z) : A unit :=
  p ← get rs;
  match hart_index2id the_platform ≫= (fun tbl => tbl !! Z.to_nat ((p - sym "hart_index2id") / 4)) with
  | Some id => set rd (u32 id)
  | None => lift (exits XUndef)
  end.

(** A call that keeps a0, a1 and a2, with the result put where [k] says. *)
Definition call_3R (f k : A unit) : A unit :=
  MOV_3R s0 a0 s1 a1 s2 a2;; call f;; k;; MOV_3R a0 s0 a1 s1 a2 s2.

Definition scratch_fields : A unit :=
  la link a4 "_fw_start";; la link a5 "_fw_end";; mul t0 s7 s8;; add a5 a5 t0;; sub a5 a5 a4;;
  REG_S a4 SBI_SCRATCH_FW_START_OFFSET tp;; REG_S a5 SBI_SCRATCH_FW_SIZE_OFFSET tp;;
  call_3R fw_next_arg1 (REG_S a0 SBI_SCRATCH_NEXT_ARG1_OFFSET tp);;
  call_3R fw_next_addr (REG_S a0 SBI_SCRATCH_NEXT_ADDR_OFFSET tp);;
  call_3R fw_next_mode (REG_S a0 SBI_SCRATCH_NEXT_MODE_OFFSET tp);;
  la link a4 "_start_warm";; REG_S a4 SBI_SCRATCH_WARMBOOT_ADDR_OFFSET tp;;
  la link a4 "platform";; REG_S a4 SBI_SCRATCH_PLATFORM_ADDR_OFFSET tp;;
  la link a4 "_hartid_to_scratch";; REG_S a4 SBI_SCRATCH_HARTID_TO_SCRATCH_OFFSET tp;;
  REG_S zero SBI_SCRATCH_TMP0_OFFSET tp;;
  call_3R fw_options (REG_S a0 SBI_SCRATCH_OPTIONS_OFFSET tp).
Fixpoint _scratch_init (n : nat) : A unit :=
  match n with
  | O => lift (exits XSpin)
  | S n =>
      add tp t3 zero;; mul a5 s8 t1;; sub tp tp a5;; li a5 SBI_SCRATCH_SIZE;; sub tp tp a5;;
      scratch_fields;;
      add t1 t1 t2;;
      c ← blt t1 s7; if (c : bool) then _scratch_init n else mret tt
  end.

Fixpoint _fdt_reloc_again (n : nat) : A unit :=
  match n with
  | O => lift (exits XSpin)
  | S n =>
      REG_L t3 0 t0;; REG_S t3 0 t1;;
      addi t0 t0 SIZEOF_POINTER;; addi t1 t1 SIZEOF_POINTER;;
      c ← blt t1 t2; if (c : bool) then _fdt_reloc_again n else mret tt
  end.
(** The size of the device tree, in the byte order of the hart, to t2. *)
Definition fdt_size : A unit :=
  lwu t2 4 t0;;
  add t3 t2 zero;; srli t3 t3 16;; and_ t3 t3 a4;; slli t3 t3 8;;
  add t4 t2 zero;; srli t4 t4 8;; and_ t4 t4 a4;; slli t4 t4 16;;
  add t5 t2 zero;; and_ t5 t5 a4;; slli t5 t5 24;;
  srli t2 t2 24;; and_ t2 t2 a4;;
  or_ t2 t2 t3;; or_ t2 t2 t4;; or_ t2 t2 t5.
Definition _fdt_reloc : A unit :=
  c ← beqz a1;
  if (c : bool) then mret tt
  else
    li a3 (not64 (SIZEOF_POINTER - 1));; li a4 0xff;;
    call_3R fw_next_arg1 (add t1 a0 zero);;
    c ← beqz t1;
    if (c : bool) then mret tt
    else
      c ← beq t1 a1;
      if (c : bool) then mret tt
      else
        and_ t1 t1 a3;; add t0 a1 zero;; and_ t0 t0 a3;;
        fdt_size;;
        add t2 t1 t2;;
        c ← ble t2 t1;
        if (c : bool) then mret tt
        else n ← (fun r => mret (S (Z.to_nat (rget r t2 - rget r t1)), r)); _fdt_reloc_again n.

(** ** Every hart *)

(** The index of the hart in s6. *)
Fixpoint find_index (n : nat) : A unit :=
  match n with
  | O => lift (exits XSpin)
  | S n =>
      table_lwu a5 s9;;
      c ← beq a5 s6;
      if (c : bool) then mret tt
      else
        addi s9 s9 4;; addi a4 a4 1;;
        c ← blt a4 s7; if (c : bool) then find_index n else li a4 (-1)
  end.
Definition hart_index : A unit :=
  c ← beqz s9;
  if (c : bool) then mret tt
  else
    li a4 0;;
    n ← (fun r => mret (S (Z.to_nat (rget r s7)), r));
    find_index n;;
    add s6 a4 zero.
Definition _start_warm : A unit :=
  li ra 0;; call _reset_regs;;
  csrw CSR_MIE zero;; csrw CSR_MIP zero;;
  la link a4 "platform";; plat_lwu s7 hart_count a4;; plat_lwu s8 hart_stack_size a4;; plat_index2id s9 a4;;
  csrr s6 CSR_MHARTID;;
  hart_index;;
  c ← bge s6 s7;
  if (c : bool) then _start_hang
  else
    la link tp "_fw_end";; mul a5 s7 s8;; add tp tp a5;; mul a5 s8 s6;; sub tp tp a5;; li a5 SBI_SCRATCH_SIZE;; sub tp tp a5;;
    csrw CSR_MSCRATCH tp;;
    add sp tp zero;;
    la link a4 "_trap_handler";; csrw CSR_MTVEC a4;;
    csrr a0 CSR_MSCRATCH;;
    scratch ← get a0;
    c_call (sbi_init scratch;; mret 0);;
    _start_hang.

Definition _wait_for_boot_hart (base : Z) : A unit :=
  await polls (li t0 BOOT_STATUS_BOOT_HART_DONE;; la base t1 "_boot_status";; REG_L t1 0 t1;; beq t0 t1);;
  _start_warm.
Definition _wait_relocate_copy_done (base : Z) : A unit :=
  la base t0 "_start";; la base t1 "_link_start";; REG_L t1 0 t1;;
  c ← beq t0 t1;
  if (c : bool) then _wait_for_boot_hart base
  else
    la base t2 "_boot_status";; la base t3 "_wait_for_boot_hart";; sub t3 t3 t0;; add t3 t3 t1;;
    await polls (li t4 BOOT_STATUS_RELOCATE_DONE;; REG_L t5 0 t2;; c ← bgt t4 t5; mret (negb c));;
    jr t3 (u64 (sym "_wait_for_boot_hart")) (_wait_for_boot_hart link).

(** ** The boot hart *)

(** The copy of [_boot_status] that was loaded tells the waiting harts. *)
Definition mark_relocated : A unit :=
  la link t0 "_boot_status";; la link t1 "_link_start";; REG_L t1 0 t1;; la link t2 "_load_start";; REG_L t2 0 t2;;
  sub t0 t0 t1;; add t0 t0 t2;;
  li t1 BOOT_STATUS_RELOCATE_DONE;; REG_S t1 0 t0.
Definition _relocate_done : A unit :=
  mark_relocated;;
  li ra 0;; call _reset_regs;;
  la link s4 "_bss_start";; la link s5 "_bss_end";;
  n ← (fun r => mret (S (Z.to_nat (rget r s5 - rget r s4)), r)); _bss_zero n;;
  la link s4 "_start_hang";; csrw CSR_MTVEC s4;;
  la link s4 "_fw_end";; li s5 (SBI_SCRATCH_SIZE * 2);; add sp s4 s5;;
  MOV_5R s0 a0 s1 a1 s2 a2 s3 a3 s4 a4;; call fw_save_info;; MOV_5R a0 s0 a1 s1 a2 s2 a3 s3 a4 s4;;
  call_3R fw_prev_arg1 (add t1 a0 zero);;
  c ← beqz t1; (if (c : bool) then mret tt else add a1 t1 zero);;
  MOV_5R s0 a0 s1 a1 s2 a2 s3 a3 s4 a4;;
  v0 ← get a0; v1 ← get a1; v2 ← get a2; v3 ← get a3; v4 ← get a4;
  c_call (fw_platform_init_c v0 v1 v2 v3 v4);;
  add t0 a0 zero;; MOV_5R a0 s0 a1 s1 a2 s2 a3 s3 a4 s4;; add a1 t0 zero;;
  la link a4 "platform";; plat_lwu s7 hart_count a4;; plat_lwu s8 hart_stack_size a4;;
  la link tp "_fw_end";; mul a5 s7 s8;; add tp tp a5;; add t3 tp zero;; li t2 1;; li t1 0;;
  n ← (fun r => mret (S (Z.to_nat (rget r s7)), r)); _scratch_init n;;
  _fdt_reloc;;
  li t0 BOOT_STATUS_BOOT_HART_DONE;; la link t1 "_boot_status";; REG_S t0 0 t1;;
  _start_warm.

Definition _relocate (base : Z) : A unit :=
  la base t0 "_link_start";; REG_L t0 0 t0;; la base t1 "_link_end";; REG_L t1 0 t1;; la base t2 "_load_start";; REG_L t2 0 t2;;
  sub t3 t1 t0;; add t3 t3 t2;;
  c ← beq t0 t2;
  if (c : bool) then mret tt
  else
    la base t4 "_relocate_done";; sub t4 t4 t2;; add t4 t4 t0;;
    c ← blt t2 t0;
    (if (c : bool) then _relocate_copy_to_upper base else _relocate_copy_to_lower base);;
    jr t4 (u64 (sym "_relocate_done")) (mret tt).
Definition _try_lottery (base : Z) : A unit :=
  la base a6 "_relocate_lottery";; li a7 1;; amoadd_w a6 a7 a6;;
  c ← bnez a6;
  if (c : bool) then _wait_relocate_copy_done base
  else
    la base t0 "_load_start";; la base t1 "_start";; REG_S t1 0 t0;;
    _relocate base;;
    _relocate_done.
Definition _start (base : Z) : A unit :=
  MOV_3R s0 a0 s1 a1 s2 a2;; call fw_boot_hart;; add a6 a0 zero;; MOV_3R a0 s0 a1 s1 a2 s2;;
  li a7 (-1);;
  c ← beq a6 a7;
  if (c : bool) then _try_lottery base
  else c ← bne a0 a6; if (c : bool) then _wait_relocate_copy_done base else _try_lottery base.

(** ** Traps *)

Definition TRAP_REG (i : Z) : Z := SBI_TRAP_REGS_OFFSET i.

(** The C handler works on the structure at the address in a0. *)
Definition trap_regs_at (addr : Z) : M sbi_trap_regs :=
  gets (fun s => mkRegs ((fun i => mem_val s (u64 (addr + TRAP_REG i))) <$> seqZ 0 32) (mem_val s (u64 (addr + TRAP_REG SBI_TRAP_REGS_mepc)))
    (mem_val s (u64 (addr + TRAP_REG SBI_TRAP_REGS_mstatus))) (mem_val s (u64 (addr + TRAP_REG SBI_TRAP_REGS_mstatusH)))).
Definition put_trap_regs (addr : Z) (tr : sbi_trap_regs) : M unit :=
  for_each (seqZ 0 32) (fun i => store (u64 (addr + TRAP_REG i)) (gpr tr i));;
  store (u64 (addr + TRAP_REG SBI_TRAP_REGS_mepc)) (mepc tr);;
  store (u64 (addr + TRAP_REG SBI_TRAP_REGS_mstatus)) (mstatus tr);;
  store (u64 (addr + TRAP_REG SBI_TRAP_REGS_mstatusH)) (mstatusH tr).
Definition call_trap_handler (addr : Z) : M Z :=
  tr ← trap_regs_at addr; tr ← sbi_trap_handler tr; put_trap_regs addr tr;; mret 0.

(** The registers that are saved after sp and t0. *)
Definition saved_regs : list Z :=
  [zero; ra; gp; tp; t1; t2; s0; s1; a0; a1; a2; a3; a4; a5; a6; a7; s2; s3; s4; s5; s6; s7; s8; s9; s10; s11; t3; t4; t5; t6].
Fixpoint save_all (l : list Z) : A unit := match l with [] => mret tt | x :: l => REG_S x (TRAP_REG x) sp;; save_all l end.
Fixpoint restore_all (l : list Z) : A unit := match l with [] => mret tt | x :: l => REG_L x (TRAP_REG x) sp;; restore_all l end.

(** t0 is the original sp; sp is where the frame goes. *)
Definition _trap_handler_m_mode : A unit := add t0 sp zero;; addi sp sp (- SBI_TRAP_REGS_SIZE).
Definition _trap_handler_s_mode : A unit := add t0 sp zero;; addi sp tp (- SBI_TRAP_REGS_SIZE).
Definition trap_stack : A unit :=
  csrrw tp CSR_MSCRATCH tp;;
  REG_S t0 SBI_SCRATCH_TMP0_OFFSET tp;;
  csrr t0 CSR_MSTATUS;; srli t0 t0 MSTATUS_MPP_SHIFT;; andi t0 t0 PRV_M;; xori t0 t0 PRV_M;;
  c ← beq t0 zero;
  if (c : bool) then _trap_handler_m_mode else _trap_handler_s_mode.
Definition trap_save : A unit :=
  REG_S t0 (TRAP_REG sp) sp;;
  REG_L t0 SBI_SCRATCH_TMP0_OFFSET tp;;
  REG_S t0 (TRAP_REG t0) sp;;
  csrrw tp CSR_MSCRATCH tp;;
  csrr t0 CSR_MEPC;; REG_S t0 (TRAP_REG SBI_TRAP_REGS_mepc) sp;;
  csrr t0 CSR_MSTATUS;; REG_S t0 (TRAP_REG SBI_TRAP_REGS_mstatus) sp;;
  REG_S zero (TRAP_REG SBI_TRAP_REGS_mstatusH) sp;;
  save_all saved_regs.
Definition trap_restore : A unit :=
  restore_all (tail saved_regs);;
  REG_L t0 (TRAP_REG SBI_TRAP_REGS_mepc) sp;; csrw CSR_MEPC t0;;
  REG_L t0 (TRAP_REG SBI_TRAP_REGS_mstatus) sp;; csrw CSR_MSTATUS t0;;
  REG_L t0 (TRAP_REG t0) sp;;
  REG_L sp (TRAP_REG sp) sp.
Definition _trap_handler : A unit :=
  trap_stack;;
  trap_save;;
  add a0 sp zero;;
  frame ← get a0;
  c_call (call_trap_handler frame);;
  trap_restore.
End Entry.

(** * The variants *)

Section Variants.
Context `{Image}.
Notation link := (sym "_fw_start").

Definition fw_jump (FW_JUMP_FDT_ADDR : option Z) : Variant := {|
  fw_boot_hart := li a0 (-1);
  fw_save_info := mret tt;
  fw_prev_arg1 := add a0 zero zero;
  fw_next_arg1 := match FW_JUMP_FDT_ADDR with Some addr => li a0 addr | None => add a0 a1 zero end;
  fw_next_addr := la link a0 "_jump_addr";; REG_L a0 0 a0;
  fw_next_mode := li a0 PRV_S;
  fw_options := add a0 zero zero
|}.

(** With the device tree built in or not. *)
Definition fw_payload (fdt_built_in : bool) (FW_PAYLOAD_FDT_ADDR : option Z) : Variant := {|
  fw_boot_hart := li a0 (-1);
  fw_save_info := mret tt;
  fw_prev_arg1 := if fdt_built_in then la link a0 "fdt_bin" else add a0 zero zero;
  fw_next_arg1 := match FW_PAYLOAD_FDT_ADDR with Some addr => li a0 addr | None => add a0 a1 zero end;
  fw_next_addr := la link a0 "payload_bin";
  fw_next_mode := li a0 PRV_S;
  fw_options := add a0 zero zero
|}.

Definition FW_DYNAMIC_INFO_MAGIC_OFFSET : Z := 0.
Definition FW_DYNAMIC_INFO_VERSION_OFFSET : Z := 8.
Definition FW_DYNAMIC_INFO_NEXT_ADDR_OFFSET : Z := 16.
Definition FW_DYNAMIC_INFO_NEXT_MODE_OFFSET : Z := 24.
Definition FW_DYNAMIC_INFO_OPTIONS_OFFSET : Z := 32.
Definition FW_DYNAMIC_INFO_BOOT_HART_OFFSET : Z := 40.
Definition FW_DYNAMIC_INFO_MAGIC_VALUE : Z := 0x4942534f.
Definition FW_DYNAMIC_INFO_VERSION_MAX : Z := 2.

Definition _bad_dynamic_info : A unit := lift (exits XHang).

Definition dynamic_boot_hart : A unit :=
  li a1 FW_DYNAMIC_INFO_MAGIC_VALUE;; REG_L a0 FW_DYNAMIC_INFO_MAGIC_OFFSET a2;;
  c ← bne a0 a1;
  if (c : bool) then _bad_dynamic_info
  else
    li a1 FW_DYNAMIC_INFO_VERSION_MAX;; REG_L a0 FW_DYNAMIC_INFO_VERSION_OFFSET a2;;
    c ← bgt a0 a1;
    if (c : bool) then _bad_dynamic_info
    else
      li a1 2;;
      c ← blt a0 a1;
      if (c : bool) then li a0 (-1) else REG_L a0 FW_DYNAMIC_INFO_BOOT_HART_OFFSET a2.

Definition dynamic_save_info : A unit :=
  la link a4 "_dynamic_next_arg1";; REG_S a1 0 a4;;
  li a4 FW_DYNAMIC_INFO_MAGIC_VALUE;; REG_L a3 FW_DYNAMIC_INFO_MAGIC_OFFSET a2;;
  c ← bne a3 a4;
  if (c : bool) then _bad_dynamic_info
  else
    li a4 FW_DYNAMIC_INFO_VERSION_MAX;; REG_L a3 FW_DYNAMIC_INFO_VERSION_OFFSET a2;;
    c ← bgt a3 a4;
    if (c : bool) then _bad_dynamic_info
    else
      la link a4 "_dynamic_next_addr";; REG_L a3 FW_DYNAMIC_INFO_NEXT_ADDR_OFFSET a2;; REG_S a3 0 a4;;
      la link a4 "_dynamic_next_mode";; REG_L a3 FW_DYNAMIC_INFO_NEXT_MODE_OFFSET a2;; REG_S a3 0 a4;;
      la link a4 "_dynamic_options";; REG_L a3 FW_DYNAMIC_INFO_OPTIONS_OFFSET a2;; REG_S a3 0 a4;;
      li a4 2;; REG_L a3 FW_DYNAMIC_INFO_VERSION_OFFSET a2;;
      c ← blt a3 a4;
      if (c : bool) then mret tt
      else la link a4 "_dynamic_boot_hart";; REG_L a3 FW_DYNAMIC_INFO_BOOT_HART_OFFSET a2;; REG_S a3 0 a4.

Definition fw_dynamic : Variant := {|
  fw_boot_hart := dynamic_boot_hart;
  fw_save_info := dynamic_save_info;
  fw_prev_arg1 := add a0 zero zero;
  fw_next_arg1 := la link a0 "_dynamic_next_arg1";; REG_L a0 0 a0;
  fw_next_addr := la link a0 "_dynamic_next_addr";; REG_L a0 0 a0;
  fw_next_mode := la link a0 "_dynamic_next_mode";; REG_L a0 0 a0;
  fw_options := la link a0 "_dynamic_options";; REG_L a0 0 a0
|}.
End Variants.
