(* ===== verification/FwStep.v ===== *)
(** Running the entry code of FwBase one instruction at a time: the step
    lemmas and tactics, and memory after a sequence of stores or a copy. *)

From S2P Require Import Prelude Encoding Bitops Machine Platform Scratch Asm Hart Trap Unpriv Handler FwBase.
Import Reg.

(** * Running the instructions *)

Lemma abind {X Y} (m : A X) (f : X -> A Y) r s x r' s' : m r s = Ret (x, r') s' -> (m ≫= f) r s = f x r' s'.
Proof. intros E. unfold mbind, A_bind. unfold mbind, M_bind. by rewrite E. Qed.

Lemma abind_exit {X Y} (m : A X) (f : X -> A Y) r s e s' : m r s = Exit e s' -> (m ≫= f) r s = Exit e s'.
Proof. intros E. unfold mbind, A_bind. unfold mbind, M_bind. by rewrite E. Qed.

(** Decided by computation. *)
Ltac in_list := apply (bool_decide_unpack _); by vm_compute.

(** Reading a register by name after writing others. *)
Ltac rsimp := repeat match goal with |- context [rget (rset ?x ?v ?r) ?y] =>
  let b := eval vm_compute in (y =? x) in
  match b with true => change (rget (rset x v r) y) with v | false => change (rget (rset x v r) y) with (rget r y) end end.
Ltac astep := erewrite abind by reflexivity; cbv beta; rsimp;
  repeat match goal with
  | |- context [csr_val (set_mem ?f ?s) ?h ?c] => change (csr_val (set_mem f s) h c) with (csr_val s h c)
  | |- context [mem_val (put_csr ?c ?v ?s) ?a] => change (mem_val (put_csr c v s) a) with (mem_val s a)
  | |- context [cur (set_mem ?f ?s)] => change (cur (set_mem f s)) with (cur s)
  | |- context [cur (put_csr ?c ?v ?s)] => change (cur (put_csr c v s)) with (cur s)
  end.

Lemma REG_L_eq rd off rs r s : REG_L rd off rs r s = Ret (tt, rset rd (mem_val s (u64 (rget r rs + off))) r) s.
Proof. reflexivity. Qed.

(** Cells written in turn. *)
Definition stores_st (l : list (Z * Z)) (s : st) : st := foldl (fun s p => set_mem <[p.1 := p.2]> s) s l.

Lemma stores_st_app l1 l2 s : stores_st (l1 ++ l2) s = stores_st l2 (stores_st l1 s).
Proof. apply foldl_app. Qed.

Lemma mem_val_set s a v b : mem_val (set_mem <[a := v]> s) b = if b =? a then v else mem_val s b.
Proof.
  unfold mem_val, set_mem. cbn [mem]. destruct (Z.eqb_spec b a) as [->|Hn]; [by rewrite lookup_insert_eq|]. by rewrite lookup_insert_ne by done.
Qed.

Lemma stores_other l : forall s a, a ∉ map fst l -> mem_val (stores_st l s) a = mem_val s a.
Proof.
  induction l as [|[b v] l IH]; intros s a Ha; [done|]. cbn [stores_st foldl fst snd]. fold (stores_st l (set_mem <[b := v]> s)).
  cbn [map fst] in Ha. apply not_elem_of_cons in Ha as [Hb Hl]. rewrite IH by done. rewrite mem_val_set. by rewrite (proj2 (Z.eqb_neq a b)).
Qed.

Lemma stores_lookup l : forall s a v, NoDup (map fst l) -> (a, v) ∈ l -> mem_val (stores_st l s) a = v.
Proof.
  induction l as [|[b w] l IH]; intros s a v Hn Hin; [by apply not_elem_of_nil in Hin|]. cbn [stores_st foldl fst snd]. fold (stores_st l (set_mem <[b := w]> s)).
  cbn [map fst] in Hn. apply NoDup_cons in Hn as [Hb Hn]. apply elem_of_cons in Hin as [[= -> ->]|Hin]; [|by apply IH].
  rewrite stores_other by done. rewrite mem_val_set. by rewrite Z.eqb_refl.
Qed.

(** Nothing else changes. *)
Lemma stores_mem l : forall s, exists m, stores_st l s = set_mem (fun _ => m) s.
Proof.
  induction l as [|[b w] l IH]; intros s; [by exists (mem s); destruct s|]. destruct (IH (set_mem <[b := w]> s)) as [m E]. exists m. exact E.
Qed.

(** * Copies *)

(** [n] cells, first to last and last to first. *)
Fixpoint copy_asc (n : nat) (dst src : Z) (s : st) : st :=
  match n with
  | O => s
  | S n => copy_asc n (dst + 8) (src + 8) (set_mem <[dst := mem_val s src]> s)
  end.
Fixpoint copy_desc (n : nat) (dst src : Z) (s : st) : st :=
  match n with
  | O => s
  | S n => copy_desc n dst src (set_mem <[dst + 8 * Z.of_nat n := mem_val s (src + 8 * Z.of_nat n)]> s)
  end.

(** The cell at [a] after a copy that got it right. *)
Definition moved (n : nat) (dst src : Z) (s : st) (a : Z) : Z :=
  if (dst <=? a) && (a <? dst + 8 * Z.of_nat n) && ((a - dst) mod 8 =? 0) then mem_val s (src + (a - dst)) else mem_val s a.

Lemma moved_other n dst src s a : ~ (dst <= a < dst + 8 * Z.of_nat n) -> moved n dst src s a = mem_val s a.
Proof. intros Ha. unfold moved. destruct (_ && _) eqn:E; [|done]. rewrite !andb_true_iff in E. lia. Qed.

Lemma moved_cell n dst src s i : 0 <= i < Z.of_nat n -> moved n dst src s (dst + 8 * i) = mem_val s (src + 8 * i).
Proof.
  intros Hi. unfold moved. replace (dst + 8 * i - dst) with (8 * i) by lia. rewrite (Z.mul_comm 8 i), Z.mod_mul by lia.
  by rewrite (proj2 (Z.leb_le _ _)), (proj2 (Z.ltb_lt _ _)) by lia.
Qed.

(** Copying upwards is right when the destination is not above the source, or
    beyond its end. *)
Lemma copy_asc_moved n : forall dst src s a, dst <= src \/ src + 8 * Z.of_nat n <= dst -> (dst - src) mod 8 = 0 ->
  mem_val (copy_asc n dst src s) a = moved n dst src s a.
Proof.
  induction n as [|n IH]; intros dst src s a Hd Hm; cbn [copy_asc]; [rewrite moved_other; [done|lia]|].
  rewrite IH by (replace (dst + 8 - (src + 8)) with (dst - src) by lia; done || lia). unfold moved. rewrite !mem_val_set.
  destruct (Z.eq_dec a dst) as [->|Ha].
  - rewrite (proj2 (Z.leb_gt (dst + 8) dst)) by lia. cbn [andb]. rewrite Z.eqb_refl, (proj2 (Z.leb_le dst dst)), (proj2 (Z.ltb_lt dst _)), Z.sub_diag by lia.
    cbn. f_equal. lia.
  - replace (a - (dst + 8)) with (a - dst + (-1) * 8) by lia. rewrite Z.mod_add by lia. rewrite (proj2 (Z.eqb_neq a dst)) by done.
    destruct (Z.eqb_spec ((a - dst) mod 8) 0) as [E|E]; [|by rewrite !andb_false_r]. rewrite !andb_true_r.
    apply Z.mod_divide in E as [q Eq]; [|lia]. apply Z.mod_divide in Hm as [q2 Eq2]; [|lia].
    destruct ((dst + 8 <=? a) && (a <? dst + 8 + 8 * Z.of_nat n)) eqn:E1, ((dst <=? a) && (a <? dst + 8 * Z.of_nat (S n))) eqn:E2; rewrite ?andb_true_iff, ?andb_false_iff, ?Z.leb_le, ?Z.ltb_lt, ?Z.leb_gt, ?Z.ltb_ge in *; [|exfalso; lia|exfalso; lia|done].
    replace (src + 8 + (a - dst + -1 * 8)) with (src + (a - dst)) by lia. by rewrite (proj2 (Z.eqb_neq _ dst)) by lia.
Qed.

Lemma copy_desc_moved n : forall dst src s a, src <= dst \/ dst + 8 * Z.of_nat n <= src -> (dst - src) mod 8 = 0 ->
  mem_val (copy_desc n dst src s) a = moved n dst src s a.
Proof.
  induction n as [|n IH]; intros dst src s a Hd Hm; cbn [copy_desc]; [rewrite moved_other; [done|lia]|].
  rewrite IH by (done || lia). unfold moved. rewrite !mem_val_set. set (top := dst + 8 * Z.of_nat n).
  destruct (Z.eq_dec a top) as [->|Ha].
  - fold top. rewrite Z.ltb_irrefl, andb_false_r. cbn [andb]. rewrite Z.eqb_refl.
    unfold top. replace (dst + 8 * Z.of_nat n - dst) with (Z.of_nat n * 8) by lia. rewrite Z.mod_mul by lia.
    rewrite (proj2 (Z.leb_le dst _)), (proj2 (Z.ltb_lt _ _)) by lia. cbn. f_equal. lia.
  - rewrite (proj2 (Z.eqb_neq a top)) by done.
    destruct (Z.eqb_spec ((a - dst) mod 8) 0) as [E|E]; [|by rewrite !andb_false_r]. rewrite !andb_true_r.
    apply Z.mod_divide in E as [q Eq]; [|lia]. apply Z.mod_divide in Hm as [q2 Eq2]; [|lia].
    destruct ((dst <=? a) && (a <? top)) eqn:E1, ((dst <=? a) && (a <? dst + 8 * Z.of_nat (S n))) eqn:E2; unfold top in *;
      rewrite ?andb_true_iff, ?andb_false_iff, ?Z.leb_le, ?Z.ltb_lt, ?Z.leb_gt, ?Z.ltb_ge in *; [|exfalso; lia|exfalso; lia|done].
    by rewrite (proj2 (Z.eqb_neq _ (dst + 8 * Z.of_nat n))) by lia.
Qed.

(** C functions that leave other values in the registers they may use. *)
Definition demo_runtime : CRuntime := {| fw_platform_init_c := fun _ a1 _ _ _ => mret a1; junk := fun _ x => x + 1; ret_addr := 0x80000100 |}.
