(* ===== verification/FwTrap.v ===== *)
(** The trap entry of firmware/fw_base.S: what the C handler is given and what
    the interrupted program gets back. *)

From S2P Require Import Prelude Encoding Bitops Machine Platform Scratch Asm Hart Trap Unpriv Handler FwBase FwStep.
Import Reg.

(** * Saving and restoring *)

Lemma save_all_eq l : forall r s,
  save_all l r s = Ret (tt, r) (stores_st (map (fun x => (u64 (rget r sp + TRAP_REG x), rget r x)) l) s).
Proof. induction l as [|x l IH]; intros r s; [done|]. cbn [save_all]. erewrite abind by reflexivity. apply IH. Qed.

Lemma restore_all_eq l : forall r s, sp ∉ l ->
  exists r', restore_all l r s = Ret (tt, r') s /\ (forall x, x ∈ l -> r' x = mem_val s (u64 (rget r sp + TRAP_REG x))) /\ (forall x, x ∉ l -> r' x = r x).
Proof.
  induction l as [|x l IH]; intros r s Hsp; [exists r; split; [done|]; split; [intros x Hx; by apply not_elem_of_nil in Hx|done]|].
  apply not_elem_of_cons in Hsp as [Hx Hsp]. cbn [restore_all]. erewrite abind by reflexivity.
  set (r1 := rset x (mem_val s (u64 (rget r sp + TRAP_REG x))) r).
  assert (E1 : rget r1 sp = rget r sp) by (unfold r1, rget, rset; by rewrite (proj2 (Z.eqb_neq sp x) Hx)).
  destruct (IH r1 s Hsp) as (r' & E & Hin & Hout). exists r'. split; [exact E|]. rewrite E1 in Hin. split; intros y Hy.
  - destruct (decide (y ∈ l)) as [Hyl|Hyl]; [by apply Hin|]. rewrite Hout by done. apply elem_of_cons in Hy as [->|Hy]; [|done].
    unfold r1, rset. by rewrite Z.eqb_refl.
  - apply not_elem_of_cons in Hy as [Hyx Hyl]. rewrite Hout by done. unfold r1, rset. by rewrite (proj2 (Z.eqb_neq y x)).
Qed.

(** * The trap frame *)

Section Frame.
Context `{Hardware} `{Platform} `{Mmu} `{Image} `{Variant} `{CRuntime}.

(** The frame of a hart that traps with registers [r]. *)
Definition frame_of (r : regs) (s : st) : sbi_trap_regs :=
  mkRegs (rget r <$> seqZ 0 32) (csr_val s (cur s) CSR_MEPC) (csr_val s (cur s) CSR_MSTATUS) 0.

(** Where it is put: below the scratch area, or on the stack of code that was
    running in machine mode. *)
Definition from_m_mode (s : st) : bool := (csr_val s (cur s) CSR_MSTATUS >>u MSTATUS_MPP_SHIFT) .& PRV_M =? PRV_M.
Definition frame_top (r : regs) (s : st) : Z := if from_m_mode s then rget r sp else csr_val s (cur s) CSR_MSCRATCH.
Definition frame_at (r : regs) (s : st) : Z := frame_top r s - SBI_TRAP_REGS_SIZE.

(** The cells in the order in which they are written. *)
Definition frame_order : list Z := [sp; t0; SBI_TRAP_REGS_mepc; SBI_TRAP_REGS_mstatus; SBI_TRAP_REGS_mstatusH] ++ saved_regs.
Definition frame_val (r : regs) (s : st) (i : Z) : Z :=
  if i =? SBI_TRAP_REGS_mepc then csr_val s (cur s) CSR_MEPC
  else if i =? SBI_TRAP_REGS_mstatus then csr_val s (cur s) CSR_MSTATUS
  else if i =? SBI_TRAP_REGS_mstatusH then 0
  else rget r i.
Definition entry_st (r : regs) (s : st) : st :=
  let scratch := csr_val s (cur s) CSR_MSCRATCH in
  stores_st ((u64 (scratch + SBI_SCRATCH_TMP0_OFFSET), rget r t0) :: map (fun i => (u64 (frame_at r s + TRAP_REG i), frame_val r s i)) frame_order)
    (put_csr CSR_MSCRATCH scratch (put_csr CSR_MSCRATCH (rget r tp) s)).

Context (r : regs) (s : st) (Hsc : forall v, csr_warl (cur s) CSR_MSCRATCH v = v) (Hr : forall x, fits 64 (r x)).
Context (Hms : fits 64 (csr_val s (cur s) CSR_MSCRATCH)) (Hst : fits 64 (csr_val s (cur s) CSR_MSTATUS)).
Context (Htop : SBI_TRAP_REGS_SIZE <= frame_top r s < 2 ^ 64).
Notation scratch := (csr_val s (cur s) CSR_MSCRATCH).
Context (Htmp : u64 (scratch + SBI_SCRATCH_TMP0_OFFSET) <> frame_at r s + TRAP_REG sp).

Lemma rget_fits x : fits 64 (rget r x).
Proof. unfold rget. destruct (x =? 0); [done|apply Hr]. Qed.

Lemma u64_rget x : u64 (rget r x + 0) = rget r x.
Proof. rewrite Z.add_0_r. unfold u64. apply wrap_small, rget_fits. Qed.

Lemma mode_test : (Z.lxor ((csr_val s (cur s) CSR_MSTATUS >>u MSTATUS_MPP_SHIFT) .& u64 PRV_M) (u64 PRV_M) =? 0) = from_m_mode s.
Proof.
  unfold from_m_mode. change (u64 PRV_M) with PRV_M. set (x := _ .& PRV_M). destruct (Z.eqb_spec x PRV_M) as [->|Hx]; [done|].
  apply Z.eqb_neq. intros E. apply Z.lxor_eq in E. done.
Qed.

Lemma trap_stack_eq : exists r1, trap_stack r s = Ret (tt, r1) (set_mem <[u64 (scratch + SBI_SCRATCH_TMP0_OFFSET) := rget r t0]> (put_csr CSR_MSCRATCH (rget r tp) s)) /\
  r1 tp = scratch /\ r1 sp = frame_at r s /\ r1 t0 = rget r sp /\ forall x, x <> tp -> x <> sp -> x <> t0 -> r1 x = r x.
Proof.
  unfold trap_stack. do 4 astep. rewrite csr_val_put. change (CSR_MSTATUS =? CSR_MSCRATCH) with false. cbv iota. do 3 astep.
  change (rget r zero) with 0. rewrite mode_test. unfold frame_at, frame_top in *. pose proof (u64_rget sp) as Esp.
  assert (Hsub : forall x, SBI_TRAP_REGS_SIZE <= x < 2 ^ 64 -> u64 (x + - SBI_TRAP_REGS_SIZE) = x - SBI_TRAP_REGS_SIZE).
  { intros x Hx. unfold u64. apply wrap_small. unfold fits, SBI_TRAP_REGS_SIZE in *. lia. }
  destruct (from_m_mode s); unfold _trap_handler_m_mode, _trap_handler_s_mode; astep; change (rget r zero) with 0; rewrite Esp; unfold addi; rsimp;
    (eexists; split; [reflexivity|]); (split; [reflexivity|]); (split; [cbv [rset]; change (sp =? sp) with true; cbv iota; by apply Hsub|]); (split; [reflexivity|]);
    intros x H1x H2x H3x; unfold rset; by rewrite !(proj2 (Z.eqb_neq x _)) by done.
Qed.

Lemma frame_cell i : 0 <= i < 35 -> u64 (frame_at r s + TRAP_REG i) = frame_at r s + 8 * i.
Proof.
  intros Hi. unfold TRAP_REG, SBI_TRAP_REGS_OFFSET, SIZEOF_POINTER. rewrite (Z.mul_comm i). unfold u64. apply wrap_small.
  unfold fits, frame_at, SBI_TRAP_REGS_SIZE in *. lia.
Qed.

Lemma entry_csrs : let b := put_csr CSR_MSCRATCH scratch (put_csr CSR_MSCRATCH (rget r tp) s) in
  forall c, c <> CSR_MSCRATCH -> csr_val b (cur b) c = csr_val s (cur s) c.
Proof.
  intros b c Hc. unfold b. set (s1 := put_csr CSR_MSCRATCH (rget r tp) s). change (cur (put_csr _ _ s1)) with (cur s1). rewrite csr_val_put, (proj2 (Z.eqb_neq _ _)) by done.
  unfold s1. change (cur (put_csr _ _ s)) with (cur s). by rewrite csr_val_put, (proj2 (Z.eqb_neq _ _)) by done.
Qed.

(** The frame and the scratch pointer are in place. *)
Lemma trap_save_eq r1 : r1 tp = scratch -> r1 sp = frame_at r s -> r1 t0 = rget r sp -> (forall x, x <> tp -> x <> sp -> x <> t0 -> r1 x = r x) ->
  exists r2, trap_save r1 (set_mem <[u64 (scratch + SBI_SCRATCH_TMP0_OFFSET) := rget r t0]> (put_csr CSR_MSCRATCH (rget r tp) s)) = Ret (tt, r2) (entry_st r s) /\
    rget r2 sp = frame_at r s.
Proof.
  intros Etp Esp Et0 Eo. change (rget r1 tp = scratch) in Etp. change (rget r1 sp = frame_at r s) in Esp. change (rget r1 t0 = rget r sp) in Et0.
  unfold trap_save. do 2 astep. rewrite Etp, Esp, Et0. rewrite mem_val_set, (proj2 (Z.eqb_neq _ _)) by (rewrite frame_cell by done; done).
  rewrite mem_val_set, Z.eqb_refl. do 2 astep. rewrite Esp, Etp. rewrite csr_val_put, Z.eqb_refl, Hsc, (wrap_small 64 (rget r tp) (rget_fits tp) : u64 _ = _).
  repeat match goal with |- context [put_csr ?c ?v (set_mem ?f ?s')] => change (put_csr c v (set_mem f s')) with (set_mem f (put_csr c v s')) end.
  pose proof entry_csrs as Hb. set (b := put_csr CSR_MSCRATCH scratch _) in *. do 2 astep. rewrite (Hb CSR_MEPC), Esp by done. do 2 astep. rewrite (Hb CSR_MSTATUS), Esp by done.
  astep. rewrite Esp. change (rget r1 zero) with 0. rewrite save_all_eq. rsimp. rewrite Esp. set (r2 := rset t0 _ _). exists r2. split; [|exact Esp].
  assert (Em : map (fun x => (u64 (frame_at r s + TRAP_REG x), rget r2 x)) saved_regs = map (fun i => (u64 (frame_at r s + TRAP_REG i), frame_val r s i)) saved_regs).
  { apply map_ext_in. intros x Hx. f_equal. apply list_elem_of_In in Hx. revert x Hx. apply Forall_forall. unfold r2. repeat constructor; unfold rget, rset, frame_val; cbn; apply Eo; done. }
  rewrite Em. unfold entry_st, frame_order. rewrite map_app, app_comm_cons, stores_st_app. fold b. reflexivity.
Qed.

Lemma frame_index i : 0 <= i < 35 -> i ∈ frame_order.
Proof.
  intros Hi. assert (E : forallb (fun i => bool_decide (i ∈ frame_order)) (seqZ 0 35) = true) by (by vm_compute).
  pose proof (forallb_seqZ _ 35 i E Hi) as H'. by apply bool_decide_eq_true in H'.
Qed.

Lemma saved_index x : 1 <= x < 32 -> x <> sp -> x <> t0 -> x ∈ tail saved_regs.
Proof.
  intros Hx Hs Ht. assert (E : forallb (fun x => bool_decide (x = 0) || bool_decide (x = sp) || bool_decide (x = t0) || bool_decide (x ∈ tail saved_regs)) (seqZ 0 32) = true) by (by vm_compute).
  pose proof (forallb_seqZ _ 32 x E ltac:(lia)) as H'. rewrite !orb_true_iff, !bool_decide_eq_true in H'. destruct H' as [[[?|?]|?]|?]; [lia|done..].
Qed.

Lemma frame_order_range i : i ∈ frame_order -> 0 <= i < 35.
Proof. revert i. apply Forall_forall. apply (bool_decide_unpack _). by vm_compute. Qed.

(** Cells of the frame written in some order, each once. *)
Lemma frame_stored val l s' i : NoDup l -> Forall (fun i => 0 <= i < 35) l -> i ∈ l ->
  mem_val (stores_st (map (fun i => (u64 (frame_at r s + TRAP_REG i), val i)) l) s') (u64 (frame_at r s + TRAP_REG i)) = val i.
Proof.
  intros Hn Hl Hi. apply stores_lookup.
  - rewrite map_map. cbn [fst]. rewrite (map_ext_in _ (fun i => frame_at r s + 8 * i)).
    + assert (Inj (=) (=) (fun i => frame_at r s + 8 * i)) by (intros a b E; lia). by apply NoDup_fmap_2.
    + intros a Ha. apply frame_cell. rewrite Forall_forall in Hl. by apply Hl, list_elem_of_In.
  - apply list_elem_of_In, (in_map (fun i => (u64 (frame_at r s + TRAP_REG i), val i))). by apply list_elem_of_In.
Qed.

Lemma entry_cell i : 0 <= i < 35 -> mem_val (entry_st r s) (u64 (frame_at r s + TRAP_REG i)) = frame_val r s i.
Proof.
  intros Hi. unfold entry_st. cbn [stores_st foldl]. apply (frame_stored (frame_val r s) frame_order); [apply (bool_decide_unpack _); by vm_compute| |by apply frame_index].
  apply Forall_forall. apply frame_order_range.
Qed.

Lemma trap_regs_entry : trap_regs_at (frame_at r s) (entry_st r s) = Ret (frame_of r s) (entry_st r s).
Proof.
  unfold trap_regs_at, gets. f_equal. rewrite !entry_cell by done. unfold frame_of. f_equal. apply list_fmap_ext. intros n i Hn.
  apply list_elem_of_lookup_2, elem_of_seqZ in Hn. rewrite entry_cell by lia. unfold frame_val, SBI_TRAP_REGS_mepc, SBI_TRAP_REGS_mstatus, SBI_TRAP_REGS_mstatusH.
  by rewrite !(proj2 (Z.eqb_neq i _)) by lia.
Qed.

(** The frame after the handler. *)
Definition tr_val (tr : sbi_trap_regs) (i : Z) : Z :=
  if i =? SBI_TRAP_REGS_mepc then mepc tr else if i =? SBI_TRAP_REGS_mstatus then mstatus tr else if i =? SBI_TRAP_REGS_mstatusH then mstatusH tr else gpr tr i.
Definition handled_st (tr : sbi_trap_regs) (s2 : st) : st := stores_st (map (fun i => (u64 (frame_at r s + TRAP_REG i), tr_val tr i)) (seqZ 0 35)) s2.

Lemma put_trap_regs_eq tr s2 : put_trap_regs (frame_at r s) tr s2 = Ret tt (handled_st tr s2).
Proof. reflexivity. Qed.

Lemma handled_cell tr s2 i : 0 <= i < 35 -> mem_val (handled_st tr s2) (u64 (frame_at r s + TRAP_REG i)) = tr_val tr i.
Proof.
  intros Hi. apply (frame_stored (tr_val tr) (seqZ 0 35)); [apply NoDup_seqZ| |by apply elem_of_seqZ]. apply Forall_forall. intros j Hj. apply elem_of_seqZ in Hj. lia.
Qed.

Lemma call_handler_eq : call_trap_handler (frame_at r s) (entry_st r s) =
  match sbi_trap_handler (frame_of r s) (entry_st r s) with Ret tr s2 => Ret 0 (handled_st tr s2) | Exit e s2 => Exit e s2 end.
Proof.
  unfold call_trap_handler. rewrite (bind_ret_eq _ _ _ _ _ trap_regs_entry). unfold mbind, M_bind. destruct (sbi_trap_handler _ _) as [tr s2|]; [|done].
  by rewrite put_trap_regs_eq.
Qed.

(** The interrupted program goes on with the registers of the frame. *)
Definition left_st (tr : sbi_trap_regs) (s2 : st) : st := put_csr CSR_MSTATUS (mstatus tr) (put_csr CSR_MEPC (mepc tr) (handled_st tr s2)).

Lemma trap_restore_eq r3 tr s2 : rget r3 sp = frame_at r s ->
  exists r4, trap_restore r3 (handled_st tr s2) = Ret (tt, r4) (left_st tr s2) /\ forall x, 1 <= x < 32 -> r4 x = gpr tr x.
Proof.
  intros Esp. unfold trap_restore. destruct (restore_all_eq (tail saved_regs) r3 (handled_st tr s2)) as (r' & E & Hin & Hout).
  { apply (bool_decide_unpack _). by vm_compute. }
  rewrite (abind _ _ _ _ _ _ _ E). assert (Esp' : rget r' sp = frame_at r s) by (rewrite <- Esp; apply Hout; apply (bool_decide_unpack _); by vm_compute).
  clear E. pose proof (handled_cell tr s2) as Hcell. set (s3 := handled_st tr s2) in *.
  assert (Hc : forall i, Z.leb 0 i && Z.ltb i 35 = true -> mem_val s3 (u64 (frame_at r s + TRAP_REG i)) = tr_val tr i) by (intros i Hi; apply Hcell; lia).
  clear Hcell. astep. rewrite Esp', (Hc SBI_TRAP_REGS_mepc eq_refl). do 2 astep.
  rewrite Esp', (Hc SBI_TRAP_REGS_mstatus eq_refl). astep. astep. rewrite Esp', (Hc t0 eq_refl). rewrite REG_L_eq. rsimp. rewrite Esp'.
  repeat match goal with |- context [mem_val (put_csr ?c ?v ?s) ?a] => change (mem_val (put_csr c v s) a) with (mem_val s a) end. rewrite (Hc sp eq_refl).
  eexists. split; [reflexivity|]. intros x Hx. unfold rset. rewrite Esp in Hin.
  destruct (Z.eqb_spec x sp) as [->|Hsp]; [done|]. destruct (Z.eqb_spec x t0) as [->|Ht0]; [done|].
  rewrite Hin by (by apply saved_index). rewrite Hc by lia. unfold tr_val, SBI_TRAP_REGS_mepc, SBI_TRAP_REGS_mstatus, SBI_TRAP_REGS_mstatusH.
  by rewrite !(proj2 (Z.eqb_neq x _)) by lia.
Qed.

(** The whole entry: save, handle, restore. *)
Lemma trap_handler_eq :
  match sbi_trap_handler (frame_of r s) (entry_st r s) with
  | Ret tr s2 => exists r', _trap_handler r s = Ret (tt, r') (left_st tr s2) /\ forall x, 1 <= x < 32 -> r' x = gpr tr x
  | Exit e s2 => _trap_handler r s = Exit e s2
  end.
Proof.
  destruct trap_stack_eq as (r1 & E1 & Etp & Esp & Et0 & Eo). destruct (trap_save_eq r1 Etp Esp Et0 Eo) as (r2 & E2 & Esp2). pose proof call_handler_eq as Ec.
  assert (Hpre : forall R : outcome (unit * regs), (let r3 := rset a0 (frame_at r s) r2 in (c_call (call_trap_handler (frame_at r s)) ≫= fun _ => trap_restore) r3 (entry_st r s) = R) -> _trap_handler r s = R).
  { intros R HR. unfold _trap_handler. rewrite (abind _ _ _ _ _ _ _ E1), (abind _ _ _ _ _ _ _ E2). do 2 astep. change (rget r2 zero) with 0.
    rewrite Z.add_0_r, Esp2. unfold u64. rewrite wrap_small by (pose proof Htop; unfold fits, frame_at, SBI_TRAP_REGS_SIZE in *; lia). exact HR. }
  destruct (sbi_trap_handler _ _) as [tr s2|e s2].
  - set (r3 := fun x => if x =? a0 then 0 else if caller_saved x then junk (rset a0 (frame_at r s) r2) x else rset a0 (frame_at r s) r2 x).
    destruct (trap_restore_eq r3 tr s2) as (r4 & E4 & Hr4); [exact Esp2|]. exists r4. split; [|done]. apply Hpre. cbv zeta.
    rewrite (abind _ _ _ _ tt r3 (handled_st tr s2)); [exact E4|]. unfold c_call. rewrite (bind_ret_eq _ _ _ _ _ Ec). done.
  - apply Hpre. cbv zeta. apply abind_exit. unfold c_call. by rewrite (bind_exit_eq _ _ _ _ _ Ec).
Qed.
End Frame.

(** * A timer interrupt *)

Section Timer.
Context `{Hardware} (r : regs) (s : st) (Hp : csr_plain (cur s)) (Hms : fits 64 (csr_val s (cur s) CSR_MSCRATCH)).

Lemma entry_csr c : csr_val (entry_st r s) (cur s) c = csr_val s (cur s) c.
Proof.
  unfold entry_st. set (l := _ :: _). destruct (stores_mem l (put_csr CSR_MSCRATCH (csr_val s (cur s) CSR_MSCRATCH) (put_csr CSR_MSCRATCH (rget r tp) s))) as [m ->].
  change (csr_val (set_mem _ ?s) ?h ?c) with (csr_val s h c). do 2 rewrite (csr_val_put_plain _ (cur s)) by done.
  destruct (Z.eqb_spec c CSR_MSCRATCH) as [->|]; [|done]. unfold u64. by apply wrap_small.
Qed.

Lemma entry_cur : cur (entry_st r s) = cur s.
Proof. unfold entry_st. set (l := _ :: _). by destruct (stores_mem l (put_csr CSR_MSCRATCH (csr_val s (cur s) CSR_MSCRATCH) (put_csr CSR_MSCRATCH (rget r tp) s))) as [m ->]. Qed.

(** Outside the frame and the cell for t0 the memory stays as it is. *)
Definition outside_frame (a : Z) : Prop :=
  a <> u64 (csr_val s (cur s) CSR_MSCRATCH + SBI_SCRATCH_TMP0_OFFSET) /\ ~ (frame_at r s <= a < frame_top r s).
Context (Htop : SBI_TRAP_REGS_SIZE <= frame_top r s < 2 ^ 64).

Lemma outside_cells a l val s' : outside_frame a -> Forall (fun i => 0 <= i < 35) l ->
  mem_val (stores_st (map (fun i => (u64 (frame_at r s + TRAP_REG i), val i)) l) s') a = mem_val s' a.
Proof.
  intros [_ Ha] Hl. apply stores_other. rewrite map_map. cbn [fst]. intros Hin. apply list_elem_of_In, in_map_iff in Hin as (i & <- & Hi).
  rewrite Forall_forall in Hl. specialize (Hl i ltac:(by apply list_elem_of_In)). apply Ha. rewrite frame_cell by done. unfold frame_at, SBI_TRAP_REGS_SIZE in *. lia.
Qed.

Lemma entry_outside a : outside_frame a -> mem_val (entry_st r s) a = mem_val s a.
Proof.
  intros Ha. unfold entry_st. cbn [stores_st foldl]. fold (stores_st (map (fun i => (u64 (frame_at r s + TRAP_REG i), frame_val r s i)) frame_order)).
  etransitivity; [apply (outside_cells a frame_order (frame_val r s)); [done|apply Forall_forall, frame_order_range]|]. cbn [fst snd].
  rewrite mem_val_set, (proj2 (Z.eqb_neq _ _)) by apply Ha. done.
Qed.

Lemma left_csr c : (forall c, fits 64 (csr_val s (cur s) c)) ->
  csr_val (left_st r s (frame_of r s) (timer_st (entry_st r s))) (cur s) c = csr_val (timer_st (entry_st r s)) (cur s) c.
Proof.
  intros Hf. set (s2 := timer_st (entry_st r s)). assert (Hcur : cur s2 = cur s) by apply entry_cur.
  assert (Hother : forall c, c <> CSR_MIE -> c <> CSR_MIP -> csr_val s2 (cur s) c = csr_val s (cur s) c).
  { intros c' H1 H2. rewrite <- entry_csr. unfold s2, timer_st. cbv zeta. rewrite (csr_val_put_plain _ (cur s)), (proj2 (Z.eqb_neq c' _)) by (apply entry_cur || done).
    by rewrite (csr_val_put_plain _ (cur s)), (proj2 (Z.eqb_neq c' _)) by (apply entry_cur || done). }
  unfold left_st, handled_st. destruct (stores_mem (map (fun i => (u64 (frame_at r s + TRAP_REG i), tr_val (frame_of r s) i)) (seqZ 0 35)) s2) as [m ->].
  do 2 rewrite (csr_val_put_plain _ (cur s)) by done. change (csr_val (set_mem _ ?s) ?h ?c) with (csr_val s h c). cbn [mstatus mepc frame_of].
  destruct (Z.eqb_spec c CSR_MSTATUS) as [->|]; [|destruct (Z.eqb_spec c CSR_MEPC) as [->|]; [|done]]; rewrite Hother by done; unfold u64; by apply wrap_small.
Qed.
End Timer.

(** C7: The machine timer interrupts a program, from the first instruction of the
    trap entry to the last: the program goes on where it was, with every
    register as it was, and finds the supervisor's timer interrupt pending.
    Machine timer interrupts are disabled, no other bit of a control register
    changes, and no memory but the frame and the cell for t0. *)
Theorem trap_timer_transparent `{Hardware} `{Platform} `{Mmu} `{CRuntime} r s :
  let scratch := csr_val s (cur s) CSR_MSCRATCH in
  csr_plain (cur s) -> (forall x, fits 64 (r x)) -> (forall c, fits 64 (csr_val s (cur s) c)) ->
  csr_val s (cur s) CSR_MISA <> 0 -> csr_val s (cur s) CSR_MCAUSE = 2 ^ 63 + IRQ_M_TIMER ->
  SBI_TRAP_REGS_SIZE <= frame_top r s < 2 ^ 64 -> u64 (scratch + SBI_SCRATCH_TMP0_OFFSET) <> frame_at r s + TRAP_REG sp ->
  exists r' s', _trap_handler r s = Ret (tt, r') s' /\ (forall x, 1 <= x < 32 -> r' x = r x) /\
    (forall a, outside_frame r s a -> mem_val s' a = mem_val s a) /\
    forall c i, 0 <= i -> Z.testbit (csr_val s' (cur s) c) i =
      if (c =? CSR_MIE) && (i =? 7) then false else if (c =? CSR_MIP) && (i =? 5) then true else Z.testbit (csr_val s (cur s) c) i.
Proof.
  intros scratch Hp Hr Hcs Hmisa Hcause Htop Htmp. pose proof (trap_handler_eq r s (fun v => Hp _ v) Hr Htop Htmp) as Ht.
  pose proof (entry_csr r s Hp (Hcs _)) as Hec. pose proof (entry_cur r s) as Hcur.
  rewrite (timer_trap_eq (frame_of r s) (entry_st r s)) in Ht by (rewrite Hcur, Hec; done). destruct Ht as (r' & E & Hr'). exists r', (left_st r s (frame_of r s) (timer_st (entry_st r s))).
  split; [exact E|]. split; [|split].
  - intros x Hx. rewrite Hr' by done. unfold gpr, frame_of. cbn [gprs]. 
    rewrite (nth_lookup_Some _ _ _ (rget r x)); [unfold rget; by rewrite (proj2 (Z.eqb_neq x 0)) by lia|].
    rewrite list_lookup_fmap, lookup_seqZ_lt by lia. cbn. do 2 f_equal. lia.
  - intros a Ha. unfold left_st, handled_st. repeat change (mem_val (put_csr ?c ?v ?s) a) with (mem_val s a).
    rewrite (outside_cells r s Htop a (seqZ 0 35) _ (timer_st (entry_st r s)) Ha).
    + change (mem_val (timer_st (entry_st r s)) a) with (mem_val (entry_st r s) a). by apply entry_outside.
    + apply Forall_forall. intros i Hi. apply elem_of_seqZ in Hi. lia.
  - intros c i Hi. rewrite left_csr by done. rewrite <- Hcur. rewrite timer_st_csrs by (rewrite ?Hcur, ?Hec; done). by rewrite Hcur, Hec.
Qed.

(** * Examples *)

(** A program in supervisor mode whose registers hold their own number, times
    16, with the scratch area of its hart at [0x80021000]. *)
Definition demo_regs : regs := fun x => (16 * x) mod 2 ^ 64.
Definition demo_trap_st : st := put_csr (H := plain_hw) CSR_MSCRATCH 0x80021000 timer_state.

Lemma csrs_fit s : forallb (fun p => (0 <=? p.2) && (p.2 <? 2 ^ 64)) (map_to_list (csrs s)) = true -> forall c, fits 64 (csr_val s (cur s) c).
Proof.
  intros Hf c. unfold csr_val. destruct (csrs s !! (cur s, c)) as [v|] eqn:E; [|done]. cbn. rewrite forallb_forall in Hf.
  specialize (Hf ((cur s, c), v)). cbn [snd] in Hf. unfold fits. assert (Hin : In (cur s, c, v) (map_to_list (csrs s))) by (by apply list_elem_of_In, elem_of_map_to_list). specialize (Hf Hin). lia.
Qed.

Lemma trap_timer_transparent_witness :
  exists r' s', @_trap_handler plain_hw fw_platform plain_mmu demo_runtime demo_regs demo_trap_st = Ret (tt, r') s' /\
    (forall x, 1 <= x < 32 -> r' x = demo_regs x) /\ Z.testbit (csr_val s' 0 CSR_MIP) 5 = true /\ mem_val s' 0x80020000 = 0.
Proof.
  destruct (@trap_timer_transparent plain_hw fw_platform plain_mmu demo_runtime demo_regs demo_trap_st) as (r' & s' & E & Hr & Hm & Hc).
  - intros csr v. reflexivity.
  - intros x. unfold demo_regs, fits. apply Z.mod_pos_bound. lia.
  - apply (csrs_fit demo_trap_st). vm_compute. reflexivity.
  - vm_compute. discriminate.
  - vm_compute. reflexivity.
  - vm_compute. split; discriminate || reflexivity.
  - vm_compute. discriminate.
  - exists r', s'. split; [exact E|]. split; [exact Hr|]. split.
    + change 0 with (cur demo_trap_st) at 1. rewrite Hc by lia. reflexivity.
    + rewrite Hm; [reflexivity|]. split; [vm_compute; discriminate|]. vm_compute. intros [H _]. by apply H.
Defined.
