(* ===== verification/FwReloc.v ===== *)
(** The relocation of the firmware in firmware/fw_base.S: copying the image
    from where it was loaded to where it was linked, and the hand-over to the
    harts that wait for it. *)

From S2P Require Import Prelude Encoding Bitops Machine Platform Scratch Asm Hart Trap Unpriv Handler Init FwBase FwStep.
Import Reg.

(** * The copy loops *)

Lemma rget_set_eq x v r : x <> 0 -> rget (rset x v r) x = v.
Proof. intros Hx. unfold rget, rset. by rewrite (proj2 (Z.eqb_neq x 0)), Z.eqb_refl by done. Qed.
Lemma rget_set_ne x y v r : y <> x -> rget (rset x v r) y = rget r y.
Proof. intros Hx. unfold rget, rset. by rewrite (proj2 (Z.eqb_neq y x)) by done. Qed.

(** A loop that copies upwards through t3, from [src] to [dst] until [stop],
    and moves [x] on before [y]: the shape of two loops of the file. *)
Section Forward.
Variable src dst stop x y : Z.

Fixpoint fwd_loop (n : nat) : A unit :=
  match n with
  | O => lift (exits XSpin)
  | S n =>
      REG_L t3 0 src;; REG_S t3 0 dst;;
      addi x x SIZEOF_POINTER;; addi y y SIZEOF_POINTER;;
      c ← blt dst stop; if (c : bool) then fwd_loop n else mret tt
  end.
End Forward.

Lemma u64_of x : 0 <= x < 2 ^ 63 -> u64 x = x.
Proof. intros Hx. unfold u64. apply wrap_small. unfold fits. lia. Qed.

Lemma u64_0 x : 0 <= x < 2 ^ 63 -> u64 (x + 0) = x.
Proof. rewrite Z.add_0_r. apply u64_of. Qed.

(** Registers other than those of the list are as they were. *)
Definition keeps (l : list Z) (r r' : regs) : Prop := forall x, x ∉ l -> r' x = r x.

Lemma keeps_refl l r : keeps l r r.
Proof. by intros x _. Qed.
Lemma keeps_set l x v r r' : x ∈ l -> keeps l r r' -> keeps l r (rset x v r').
Proof. intros Hx Hk y Hy. unfold rset. destruct (Z.eqb_spec y x) as [->|Hn]; [done|by apply Hk]. Qed.
Lemma keeps_trans l r r1 r2 : keeps l r r1 -> keeps l r1 r2 -> keeps l r r2.
Proof. intros H1 H2 x Hx. rewrite (H2 x Hx). by apply H1. Qed.
Lemma keeps_sub l l' r r' : Forall (.∈ l') l -> keeps l r r' -> keeps l' r r'.
Proof. intros Hl Hk x Hx. apply Hk. intros Hi. rewrite Forall_forall in Hl. by apply Hx, Hl. Qed.
Lemma keeps_get l r r' x : keeps l r r' -> x ∉ l -> rget r' x = rget r x.
Proof. intros Hk Hx. unfold rget. by rewrite (Hk x Hx). Qed.

Ltac keeps := repeat (apply keeps_set; [first [in_list | set_solver]|]); try apply keeps_refl.

Lemma fwd_loop_eq src dst stop x y n : (x, y) = (dst, src) \/ (x, y) = (src, dst) -> src <> 0 -> dst <> 0 -> NoDup [t3; src; dst; stop] -> forall fuel r s S D,
  (n < fuel)%nat -> rget r src = S -> rget r dst = D -> 0 <= S -> S + 8 * (Z.of_nat n + 1) < 2 ^ 63 -> 0 <= D -> D + 8 * (Z.of_nat n + 1) < 2 ^ 63 ->
  D + 8 * Z.of_nat n < rget r stop <= D + 8 * (Z.of_nat n + 1) ->
  exists r', fwd_loop src dst stop x y fuel r s = Ret (tt, r') (copy_asc (1 + n) D S s) /\ keeps [t3; src; dst] r r'.
Proof.
  intros Hxy Hs0 Hd0 Hnd. rewrite !NoDup_cons, !not_elem_of_cons in Hnd. destruct Hnd as ((H1 & H2 & H3 & _) & (H4 & H5 & _) & (H6 & _) & _).
  induction n as [|n IH]; intros [|fuel] r s S D Hf ES ED HS HS' HD HD' Hstop; try lia; cbn [fwd_loop]; repeat erewrite abind by reflexivity; cbv beta; destruct Hxy as [[= -> ->]|[= -> ->]];
    repeat first [rewrite (rget_set_eq src) by done | rewrite (rget_set_eq dst) by done | rewrite (rget_set_eq t3) by done | rewrite rget_set_ne by done];
    rewrite ?ES, ?ED; rewrite !u64_0 by lia; unfold SIZEOF_POINTER; rewrite !u64_of by lia; rewrite !s64_small by lia.
  1, 2: rewrite (proj2 (Z.ltb_ge _ _)) by lia; eexists; (split; [reflexivity|]); keeps.
  all: rewrite (proj2 (Z.ltb_lt _ _)) by lia;
    match goal with |- context [fwd_loop _ _ _ _ _ _ (rset ?z ?v ?r0) _] => set (r1 := rset z v r0) end;
    assert (Kr : keeps [t3; src; dst] r r1) by (unfold r1; keeps);
    destruct (IH fuel r1 (set_mem <[D := mem_val s S]> s) (S + 8) (D + 8)) as (r' & E & K); try lia;
    try (unfold r1; repeat first [by rewrite rget_set_eq | rewrite rget_set_ne by done]); try lia;
    (exists r'; split; [exact E|]; by apply (keeps_trans _ _ r1)).
Qed.

Lemma lower_loop_fwd : _relocate_copy_to_lower_loop = fwd_loop t2 t0 t1 t0 t2.
Proof. reflexivity. Qed.
Lemma fdt_loop_fwd : _fdt_reloc_again = fwd_loop t0 t1 t2 t0 t1.
Proof. reflexivity. Qed.

Lemma upper_loop_eq n : forall fuel r s S D, (n < fuel)%nat ->
  rget r t3 = S + 8 * (Z.of_nat n + 1) -> rget r t1 = D + 8 * (Z.of_nat n + 1) -> rget r t0 = D ->
  0 <= S -> S + 8 * (Z.of_nat n + 1) < 2 ^ 63 -> 0 <= D -> D + 8 * (Z.of_nat n + 1) < 2 ^ 63 ->
  exists r', _relocate_copy_to_upper_loop fuel r s = Ret (tt, r') (copy_desc (1 + n) D S s) /\ keeps [t1; t2; t3] r r'.
Proof.
  induction n as [|n IH]; intros [|fuel] r s S D Hf E3 E1 E0 HS HS' HD HD'; try lia; cbn [_relocate_copy_to_upper_loop]; do 4 astep; rewrite ?E3, ?E1, ?E0;
    unfold SIZEOF_POINTER; rewrite !(u64_of (_ + - (8))), !u64_0 by lia; astep; rewrite E0, !s64_small by lia.
  - rewrite (proj2 (Z.ltb_ge _ _)) by lia. replace (D + 8 * (Z.of_nat 0 + 1) + - (8)) with (D + 8 * 0) by lia.
    replace (S + 8 * (Z.of_nat 0 + 1) + - (8)) with (S + 8 * 0) by lia. eexists. split; [reflexivity|keeps].
  - rewrite (proj2 (Z.ltb_lt _ _)) by lia. set (r1 := rset t2 _ _). set (s1 := set_mem _ s).
    destruct (IH fuel r1 s1 S D) as (r' & E & K); try lia; try (unfold r1; rsimp; lia).
    exists r'. split; [|apply (keeps_trans _ _ r1); [unfold r1; keeps|exact K]]. rewrite E. f_equal.
    change (copy_desc (1 + Datatypes.S n) D S s) with (copy_desc (1 + n) D S (set_mem <[D + 8 * Z.of_nat (1 + n) := mem_val s (S + 8 * Z.of_nat (1 + n))]> s)).
    unfold s1. do 2 f_equal. f_equal; [|f_equal]; lia.
Qed.

(** * Where the image is *)

Section Reloc.
Context `{Hardware} `{Platform} `{Mmu} `{Image} `{Variant} `{CRuntime}.
Notation link := (sym "_fw_start").

(** The address of a label in the image at [base]. *)
Definition at_base (base : Z) (label : string) : Z := sym label - link + base.

(** The labels that the code refers to while it moves. *)
Definition cell_labels : list string := ["_relocate_lottery"; "_boot_status"; "_load_start"; "_link_start"; "_link_end"].
Definition code_labels : list string := ["_relocate"; "_wait_for_boot_hart"; "_relocate_done"].

(** An image of [n + 1] cells, linked at [_fw_start] and loaded at [load]. *)
Record layout (n : nat) (load : Z) : Prop := mkLayout {
  lay_end : sym "_fw_reloc_end" = link + 8 * (Z.of_nat n + 1);
  lay_link : 0 <= link /\ link + 8 * (Z.of_nat n + 1) < 2 ^ 63;
  lay_load : 0 <= load /\ load + 8 * (Z.of_nat n + 1) < 2 ^ 63;
  lay_align : (link - load) mod 8 = 0;
  lay_labels : forall l, l ∈ cell_labels ++ code_labels -> 0 <= sym l - link < 8 * (Z.of_nat n + 1);
  lay_cells : forall l, l ∈ cell_labels -> (sym l - link) mod 8 = 0;
  lay_distinct : NoDup (sym <$> cell_labels);
  lay_code : sym "_relocate" <= sym "_relocate_done";
  lay_start : sym "_start" = link
}.

(** What the linker put in the image, and where it says it was loaded. *)
Record linked (load : Z) (s : st) : Prop := mkLinked {
  in_start : mem_val s (at_base load "_link_start") = link;
  in_end : mem_val s (at_base load "_link_end") = sym "_fw_reloc_end"
}.

(** Is code or data that is in use between [lo] and [hi]? *)
Definition in_range (lo hi x : Z) : bool := (lo <=? x) && (x <? hi).
Definition unsafe (load lo hi : Z) : bool :=
  in_range lo hi (at_base load "_relocate_lottery") || in_range lo hi (at_base load "_boot_status") ||
  in_range lo hi (at_base load "_relocate") || in_range lo hi (at_base load "_relocate_done") ||
  in_range (at_base load "_relocate") (at_base load "_relocate_done") lo.
(** The two places overlap, and in the overlap is something in use. *)
Definition clobbers (n : nat) (load : Z) : bool :=
  let lo := Z.max load link in
  let hi := Z.min load link + 8 * (Z.of_nat n + 1) in
  (lo <? hi) && unsafe load lo hi.

Definition small (x : Z) : Prop := 0 <= x < 2 ^ 63.

Lemma la_small base l rd r s : small (at_base base l) -> la base rd l r s = Ret (tt, rset rd (at_base base l) r) s.
Proof. intros Hs. unfold la, set. unfold at_base in Hs |- *. rewrite u64_of by exact Hs. reflexivity. Qed.

Section Image.
Context (n : nat) (load : Z) (Hl : layout n load).
Notation size := (8 * (Z.of_nat n + 1)).

Lemma at_load l : l ∈ cell_labels ++ code_labels -> load <= at_base load l < load + size.
Proof. intros Hin. pose proof (lay_labels _ _ Hl l Hin). unfold at_base. lia. Qed.

Lemma small_at_load l : l ∈ cell_labels ++ code_labels -> small (at_base load l).
Proof. intros Hin. pose proof (at_load l Hin). pose proof (lay_load _ _ Hl). unfold small. lia. Qed.

Lemma la_load l rd r s : l ∈ cell_labels ++ code_labels -> la load rd l r s = Ret (tt, rset rd (at_base load l) r) s.
Proof. intros Hin. by apply la_small, small_at_load. Qed.

Lemma guard_eq a b c r s : small (rget r a) -> small (rget r b) -> small (rget r c) ->
  hang_if (BRANGE a b c) r s = if in_range (rget r a) (rget r b) (rget r c) then Exit XHang s else Ret (tt, r) s.
Proof.
  unfold small. intros Ha Hb Hc. unfold hang_if, BRANGE, bge, in_range. rewrite Z.leb_antisym. cbv [mbind A_bind M_bind blt mret A_ret M_ret]. cbn [fst snd].
  rewrite !s64_small by lia. destruct (rget r c <? rget r a); [done|]. cbn.
  rewrite !s64_small, negb_involutive by lia. by destruct (rget r c <? rget r b).
Qed.

Lemma guard_step a b c r s (k : unit -> A unit) : small (rget r a) -> small (rget r b) -> small (rget r c) ->
  (hang_if (BRANGE a b c) ≫= k) r s = if in_range (rget r a) (rget r b) (rget r c) then Exit XHang s else k tt r s.
Proof.
  intros Ha Hb Hc. pose proof (guard_eq a b c r s Ha Hb Hc) as E.
  destruct (in_range _ _ _); [by rewrite (abind_exit _ _ _ _ _ _ E)|by rewrite (abind _ _ _ _ _ _ _ E)].
Qed.

(** The checks of both directions. *)
Definition guards (tmp lo hi : Z) : A unit :=
  la load tmp "_relocate_lottery";; hang_if (BRANGE lo hi tmp);;
  la load tmp "_boot_status";; hang_if (BRANGE lo hi tmp);;
  la load tmp "_relocate";; la load t5 "_relocate_done";;
  hang_if (BRANGE lo hi tmp);; hang_if (BRANGE lo hi t5);; hang_if (BRANGE tmp t5 lo).

Ltac rgets := repeat first [rewrite rget_set_eq by done | rewrite rget_set_ne by done].
Ltac guard_side := rgets; first [done | apply small_at_load; in_list].

Lemma guards_eq tmp lo hi r s : tmp <> 0 -> NoDup [tmp; t5; lo; hi] -> small (rget r lo) -> small (rget r hi) ->
  guards tmp lo hi r s =
    if unsafe load (rget r lo) (rget r hi) then Exit XHang s else Ret (tt, rset t5 (at_base load "_relocate_done") (rset tmp (at_base load "_relocate")
      (rset tmp (at_base load "_boot_status") (rset tmp (at_base load "_relocate_lottery") r)))) s.
Proof.
  intros Ht Hnd Hlo Hhi. rewrite !NoDup_cons, !not_elem_of_cons in Hnd. destruct Hnd as ((N1 & N2 & N3 & _) & (N4 & N5 & _) & (N6 & _) & _).
  assert (Ht5 : t5 <> 0) by done. unfold guards, unsafe.
  do 2 (erewrite abind by (apply la_load; in_list); rewrite guard_step by guard_side; rgets; destruct (in_range _ _ (at_base load _)); [done|]).
  do 2 (erewrite abind by (apply la_load; in_list)). do 2 (rewrite guard_step by guard_side; rgets; destruct (in_range _ _ (at_base load _)); [done|]).
  rewrite guard_eq by guard_side. rgets. by destruct (in_range _ _ _).
Qed.

Lemma guarded_eq tmp lo hi (k : A unit) r s : tmp <> 0 -> NoDup [tmp; t5; lo; hi] -> small (rget r lo) -> small (rget r hi) ->
  let m := c ← ble hi lo; (if (c : bool) then mret tt else guards tmp lo hi);; k in
  if (rget r lo <? rget r hi) && unsafe load (rget r lo) (rget r hi) then m r s = Exit XHang s
  else exists r', m r s = k r' s /\ keeps [tmp; t5] r r'.
Proof.
  intros Ht Hnd Hlo Hhi m. unfold m, ble, bge. erewrite abind by reflexivity. cbv beta. cbn [fst snd]. rewrite !s64_small by (unfold small in *; lia).
  destruct (_ <? _); cbn [andb negb]; [|eexists; split; [by erewrite abind by reflexivity|apply keeps_refl]].
  pose proof (guards_eq tmp lo hi r s Ht Hnd Hlo Hhi) as E. destruct (unsafe _ _ _); [by rewrite (abind_exit _ _ _ _ _ _ E)|].
  eexists. split; [by rewrite (abind _ _ _ _ _ _ _ E)|]. keeps.
Qed.

Lemma copy_to_lower_eq r s : rget r t0 = link -> rget r t1 = link + size -> rget r t2 = load -> link < load ->
  if clobbers n load then _relocate_copy_to_lower load r s = Exit XHang s
  else exists r', _relocate_copy_to_lower load r s = Ret (tt, r') (copy_asc (1 + n) link load s) /\ keeps [t0; t2; t3; t5] r r'.
Proof.
  intros E0 E1 E2 Hlt. pose proof (lay_link _ _ Hl). pose proof (lay_load _ _ Hl). unfold clobbers. rewrite Z.max_l, Z.min_r by lia.
  pose proof (guarded_eq t3 t2 t1 ((fun r => mret (S (Z.to_nat (rget r t1 - rget r t0)), r)) ≫= _relocate_copy_to_lower_loop) r s) as Hg.
  rewrite E2, E1 in Hg. specialize (Hg ltac:(done) ltac:(in_list) ltac:(unfold small; lia) ltac:(unfold small; lia)). cbv zeta in Hg.
  destruct (_ && _); [exact Hg|]. destruct Hg as (r1 & E & K). rewrite (E : _relocate_copy_to_lower load r s = _). astep.
  rewrite (keeps_get _ _ _ t0 K), (keeps_get _ _ _ t1 K), E0, E1 by in_list. rewrite lower_loop_fwd.
  destruct (fwd_loop_eq t2 t0 t1 t0 t2 n (or_introl eq_refl)) with (fuel := S (Z.to_nat (link + size - link))) (r := r1) (s := s) (S := load) (D := link) as (r2 & E' & K2);
    try done; try lia; try in_list; try (rewrite (keeps_get _ _ _ _ K) by in_list; (done || lia)).
  exists r2. split; [exact E'|]. apply (keeps_trans _ _ r1); [apply (keeps_sub [t3; t5])|apply (keeps_sub [t3; t2; t0])]; (done || in_list).
Qed.

Lemma copy_to_upper_eq r s : rget r t0 = link -> rget r t1 = link + size -> rget r t3 = load + size -> load < link ->
  if clobbers n load then _relocate_copy_to_upper load r s = Exit XHang s
  else exists r', _relocate_copy_to_upper load r s = Ret (tt, r') (copy_desc (1 + n) link load s) /\ keeps [t1; t2; t3; t5] r r'.
Proof.
  intros E0 E1 E3 Hlt. pose proof (lay_link _ _ Hl). pose proof (lay_load _ _ Hl). unfold clobbers. rewrite Z.max_r, Z.min_l by lia.
  pose proof (guarded_eq t2 t0 t3 ((fun r => mret (S (Z.to_nat (rget r t1 - rget r t0)), r)) ≫= _relocate_copy_to_upper_loop) r s) as Hg.
  rewrite E0, E3 in Hg. specialize (Hg ltac:(done) ltac:(in_list) ltac:(unfold small; lia) ltac:(unfold small; lia)). cbv zeta in Hg.
  destruct (_ && _); [exact Hg|]. destruct Hg as (r1 & E & K). rewrite (E : _relocate_copy_to_upper load r s = _). astep.
  rewrite (keeps_get _ _ _ t0 K), (keeps_get _ _ _ t1 K), E0, E1 by in_list.
  destruct (upper_loop_eq n (S (Z.to_nat (link + size - link))) r1 s load link) as (r2 & E' & K2); try lia; try (rewrite (keeps_get _ _ _ _ K) by in_list; (done || lia)).
  exists r2. split; [exact E'|]. apply (keeps_trans _ _ r1); [apply (keeps_sub [t2; t5])|apply (keeps_sub [t1; t2; t3])]; (done || in_list).
Qed.

(** The registers with the bounds of the copy. *)
Lemma relocate_bounds r s : linked load s -> mem_val s (at_base load "_load_start") = load ->
  exists r1, keeps [t0; t1; t2; t3] r r1 /\ rget r1 t0 = link /\ rget r1 t1 = link + size /\ rget r1 t2 = load /\ rget r1 t3 = load + size /\
    _relocate load r s = (c ← beq t0 t2;
      if (c : bool) then mret tt
      else
        la load t4 "_relocate_done";; sub t4 t4 t2;; add t4 t4 t0;;
        c ← blt t2 t0;
        (if (c : bool) then _relocate_copy_to_upper load else _relocate_copy_to_lower load);;
        jr t4 (u64 (sym "_relocate_done")) (mret tt)) r1 s.
Proof.
  intros [Es Ee] El. pose proof (lay_link _ _ Hl). pose proof (lay_load _ _ Hl). rewrite (lay_end _ _ Hl) in Ee.
  pose proof (small_at_load "_link_start" ltac:(in_list)) as S1. pose proof (small_at_load "_link_end" ltac:(in_list)) as S2. pose proof (small_at_load "_load_start" ltac:(in_list)) as S3.
  unfold _relocate.
  erewrite abind by (apply la_load; in_list). astep. rewrite (u64_0 _ S1), Es. erewrite abind by (apply la_load; in_list). astep. rewrite (u64_0 _ S2), Ee.
  erewrite abind by (apply la_load; in_list). astep. rewrite (u64_0 _ S3), El. do 2 astep.
  rewrite (u64_of (link + size - link)), (u64_of (link + size - link + load)) by lia.
  match goal with |- context [(beq t0 t2 ≫= _) ?x _] => exists x end. split; [keeps|]. rsimp. repeat split; lia.
Qed.

Lemma relocate_done_addr : u64 (u64 (at_base load "_relocate_done" - load) + link) = sym "_relocate_done" /\ u64 (sym "_relocate_done") = sym "_relocate_done".
Proof.
  pose proof (lay_link _ _ Hl). pose proof (lay_labels _ _ Hl "_relocate_done" ltac:(in_list)). unfold at_base.
  rewrite (u64_of (_ - load)) by lia. split; [replace (_ + link) with (sym "_relocate_done") by lia|]; apply u64_of; lia.
Qed.

(** The registers and the memory after the move. *)
Definition reloc_regs : list Z := [t0; t1; t2; t3; t4; t5].

Lemma relocate_eq r s : linked load s -> mem_val s (at_base load "_load_start") = load ->
  if negb (load =? link) && clobbers n load then _relocate load r s = Exit XHang s
  else exists r' s', _relocate load r s = Ret (tt, r') s' /\ keeps reloc_regs r r' /\
    (s' = s /\ load = link \/ s' = copy_asc (1 + n) link load s /\ link < load \/ s' = copy_desc (1 + n) link load s /\ load < link).
Proof.
  intros Hk El. pose proof (lay_link _ _ Hl). pose proof (lay_load _ _ Hl). destruct relocate_done_addr as [Ea Ea'].
  destruct (relocate_bounds r s Hk El) as (r1 & K1 & F0 & F1 & F2 & F3 & E). rewrite E. clear E. astep. cbn [fst snd]. rewrite F0, F2, (Z.eqb_sym link).
  assert (Kl : forall r', keeps reloc_regs r1 r' -> keeps reloc_regs r r') by (intros r' K; apply (keeps_trans _ _ r1); [apply (keeps_sub [t0; t1; t2; t3]); [in_list|]|]; done).
  destruct (Z.eqb_spec load link) as [Hx|Hx]; cbn [negb andb]; [exists r1, s; split; [done|]; split; [apply Kl, keeps_refl|]; left; split; [done|exact Hx]|].
  erewrite abind by (apply la_load; in_list). do 3 astep. cbn [fst snd]. rewrite F0, F2, Ea, !s64_small by lia. set (r2 := rset t4 _ _).
  assert (K2 : keeps reloc_regs r1 r2) by (unfold r2; keeps).
  destruct (Z.ltb_spec load link) as [Hlt|Hge].
  - pose proof (copy_to_upper_eq r2 s F0 F1 F3 Hlt) as Hc. destruct (clobbers n load); [by rewrite (abind_exit _ _ _ _ _ _ Hc)|].
    destruct Hc as (r3 & E3 & K3). rewrite (abind _ _ _ _ _ _ _ E3). unfold jr. astep. cbn [fst snd]. rewrite (keeps_get _ _ _ t4 K3), Ea' by in_list. unfold r2. rsimp. rewrite Z.eqb_refl.
    exists r3, (copy_desc (1 + n) link load s). split; [done|]. split; [|right; right; done]. apply Kl, (keeps_trans _ _ r2); [done|]. by apply (keeps_sub [t1; t2; t3; t5]); [in_list|].
  - pose proof (copy_to_lower_eq r2 s F0 F1 F2 ltac:(lia)) as Hc. destruct (clobbers n load); [by rewrite (abind_exit _ _ _ _ _ _ Hc)|].
    destruct Hc as (r3 & E3 & K3). rewrite (abind _ _ _ _ _ _ _ E3). unfold jr. astep. cbn [fst snd]. rewrite (keeps_get _ _ _ t4 K3), Ea' by in_list. unfold r2. rsimp. rewrite Z.eqb_refl.
    exists r3, (copy_asc (1 + n) link load s). split; [done|]. split; [|right; left; split; [done|lia]]. apply Kl, (keeps_trans _ _ r2); [done|]. by apply (keeps_sub [t0; t2; t3; t5]); [in_list|].
Qed.

(** What the harts use while the image moves: the cells through which they
    synchronise and the code from [_relocate] to [_relocate_done], which the
    waiting harts run too. *)
Definition in_use (a : Z) : Prop :=
  a = at_base load "_relocate_lottery" \/ a = at_base load "_boot_status" \/ at_base load "_relocate" <= a < at_base load "_relocate_done".

Lemma in_use_apart a : clobbers n load = false -> load <> link -> in_use a -> ~ (link <= a < link + size).
Proof.
  intros Hc Hx Hu Ha. pose proof (at_load "_relocate_lottery" ltac:(in_list)). pose proof (at_load "_boot_status" ltac:(in_list)).
  pose proof (at_load "_relocate" ltac:(in_list)). pose proof (at_load "_relocate_done" ltac:(in_list)). unfold clobbers in Hc. cbv zeta in Hc.
  assert (Hin : load <= a < load + size) by (unfold in_use in Hu; lia).
  rewrite (proj2 (Z.ltb_lt _ _)) in Hc by lia. cbn [andb] in Hc. unfold unsafe, in_range in Hc. rewrite !orb_false_iff, !andb_false_iff, !Z.leb_gt, !Z.ltb_ge in Hc.
  unfold in_use in Hu. lia.
Qed.
End Image.

Lemma copy_asc_only_mem n : forall dst src s, exists m, copy_asc n dst src s = set_mem (fun _ => m) s.
Proof. induction n as [|n IH]; intros dst src s; [by exists (mem s); destruct s|]. destruct (IH (dst + 8) (src + 8) (set_mem <[dst := mem_val s src]> s)) as [m E]. by exists m. Qed.
Lemma copy_desc_only_mem n : forall dst src s, exists m, copy_desc n dst src s = set_mem (fun _ => m) s.
Proof.
  induction n as [|n IH]; intros dst src s; [by exists (mem s); destruct s|].
  destruct (IH dst src (set_mem <[dst + 8 * Z.of_nat n := mem_val s (src + 8 * Z.of_nat n)]> s)) as [m E]. by exists m.
Qed.

Lemma moved_same n a s x : moved n a a s x = mem_val s x.
Proof. unfold moved. destruct (_ && _); [|done]. f_equal. lia. Qed.

Lemma relocate_moved n load r s : layout n load -> linked load s -> mem_val s (at_base load "_load_start") = load ->
  load = link \/ clobbers n load = false -> exists r' m, let s' := set_mem (fun _ => m) s in
    _relocate load r s = Ret (tt, r') s' /\ keeps reloc_regs r r' /\ forall a, mem_val s' a = moved (1 + n) link load s a.
Proof.
  intros Hl Hk El Hok. pose proof (relocate_eq n load Hl r s Hk El) as Hr.
  assert (Hb : negb (load =? link) && clobbers n load = false) by (destruct (Z.eqb_spec load link); [done|]; destruct Hok; done). rewrite Hb in Hr.
  destruct Hr as (r' & s' & E & K & Hs).
  assert (Hm : forall a, mem_val s' a = moved (1 + n) link load s a).
  { intros a. pose proof (lay_align _ _ Hl) as Ha. destruct Hs as [[-> ->]|[[-> Hlt]|[-> Hlt]]]; [by rewrite moved_same|apply copy_asc_moved; [lia|done]|apply copy_desc_moved; [lia|done]]. }
  assert (Ho : exists m, s' = set_mem (fun _ => m) s).
  { destruct Hs as [[-> _]|[[-> _]|[-> _]]]; [by exists (mem s); destruct s|apply copy_asc_only_mem|apply copy_desc_only_mem]. }
  destruct Ho as [m ->]. by exists r', m.
Qed.

Lemma moved_in_use n load s a : layout n load -> load = link \/ clobbers n load = false -> in_use load a -> moved (1 + n) link load s a = mem_val s a.
Proof.
  intros Hl Hok Hu. destruct (Z.eq_dec load link) as [->|Hx]; [apply moved_same|]. destruct Hok as [Hok|Hok]; [done|].
  apply moved_other. pose proof (in_use_apart n load Hl a Hok Hx Hu). lia.
Qed.

(** C8: The firmware, loaded anywhere, moves itself to where it is linked.  Every
    word of the image arrives, whether or not the two places overlap and
    whichever is lower; no memory outside the destination changes; the code
    that is running and the words through which the harts synchronise stay as
    they are.  When the overlap would take in any of these the hart stops and
    memory is unchanged. *)
Theorem relocate_correct n load r s : layout n load -> linked load s -> mem_val s (at_base load "_load_start") = load ->
  (load <> link -> clobbers n load = true -> _relocate load r s = Exit XHang s) /\
  (load = link \/ clobbers n load = false -> exists r' m, let s' := set_mem (fun _ => m) s in
    _relocate load r s = Ret (tt, r') s' /\ keeps reloc_regs r r' /\
    (forall i, 0 <= i <= Z.of_nat n -> mem_val s' (link + 8 * i) = mem_val s (load + 8 * i)) /\
    (forall a, ~ (link <= a < link + 8 * (Z.of_nat n + 1)) -> mem_val s' a = mem_val s a) /\
    (forall a, in_use load a -> mem_val s' a = mem_val s a)).
Proof.
  intros Hl Hk El. split.
  - intros Hx Hc. pose proof (relocate_eq n load Hl r s Hk El) as Hr. by rewrite Hc, (proj2 (Z.eqb_neq _ _) Hx) in Hr.
  - intros Hok. destruct (relocate_moved n load r s Hl Hk El Hok) as (r' & m & E & K & Hm). cbv zeta in Hm. exists r', m. split; [done|]. split; [done|].
    split; [intros i Hi; rewrite Hm; apply moved_cell; lia|]. split; intros a Ha; rewrite Hm; [apply moved_other; lia|by apply moved_in_use].
Qed.

(** ** The signal *)

(** A cell of the image in its new place. *)
Lemma moved_label n load s l : layout n load -> l ∈ cell_labels -> moved (1 + n) link load s (sym l) = mem_val s (at_base load l).
Proof.
  intros Hl Hin. pose proof (lay_cells _ _ Hl l Hin) as Hc. pose proof (lay_labels _ _ Hl l ltac:(apply elem_of_app; by left)).
  apply Z.mod_divide in Hc as [q Eq]; [|lia]. replace (sym l) with (link + 8 * q) by lia. rewrite moved_cell by lia. f_equal. unfold at_base. lia.
Qed.

Lemma small_label n load l : layout n load -> l ∈ cell_labels ++ code_labels -> small (at_base link l) /\ at_base link l = sym l.
Proof. intros Hl Hin. pose proof (lay_labels _ _ Hl l Hin). pose proof (lay_link _ _ Hl). unfold small, at_base. lia. Qed.

(** The boot hart tells the harts that run in the image it came from. *)
Theorem boot_hart_signals n load r s : layout n load -> linked load s -> mem_val s (at_base load "_load_start") = load ->
  load = link \/ clobbers n load = false ->
  exists r' m, let s' := set_mem (fun _ => m) s in
    (_relocate load;; mark_relocated) r s = Ret (tt, r') s' /\ keeps reloc_regs r r' /\
    mem_val s' (at_base load "_boot_status") = BOOT_STATUS_RELOCATE_DONE /\
    (forall a, a <> at_base load "_boot_status" -> mem_val s' a = moved (1 + n) link load s a) /\
    (load <> link -> mem_val s' (sym "_boot_status") = mem_val s (at_base load "_boot_status")).
Proof.
  intros Hl Hk El Hok. destruct (relocate_moved n load r s Hl Hk El Hok) as (r1 & m & E & K & Hm). cbv zeta in E, Hm. set (s1 := set_mem (fun _ => m) s) in *.
  destruct (small_label n load "_boot_status" Hl ltac:(in_list)) as [S1 E1]. destruct (small_label n load "_link_start" Hl ltac:(in_list)) as [S2 E2].
  destruct (small_label n load "_load_start" Hl ltac:(in_list)) as [S3 E3]. pose proof (small_at_load n load Hl "_boot_status" ltac:(in_list)) as S4.
  rewrite (abind _ _ _ _ _ _ _ E). unfold mark_relocated. erewrite abind by (by apply la_small). erewrite abind by (by apply la_small). astep.
  erewrite abind by (by apply la_small). astep. rewrite !u64_0, E1, E2, E3, !Hm, !(moved_label n load) by (done || in_list). destruct Hk as [Hk _]. rewrite Hk, El.
  do 3 astep. pose proof (lay_labels _ _ Hl "_boot_status" ltac:(in_list)) as Hb. pose proof (lay_link _ _ Hl). rewrite (u64_of (sym "_boot_status" - link)) by lia. fold (at_base load "_boot_status"). rewrite (u64_of _ S4).
  unfold REG_S. rsimp. rewrite (u64_0 _ S4). eexists _, (<[at_base load "_boot_status" := BOOT_STATUS_RELOCATE_DONE]> (mem s1)). cbv zeta.
  change (set_mem (fun _ => <[_ := _]> (mem s1)) s) with (set_mem <[at_base load "_boot_status" := BOOT_STATUS_RELOCATE_DONE]> s1).
  split; [reflexivity|]. split; [apply (keeps_trans _ _ r1); [done|keeps]|]. split; [by rewrite mem_val_set, Z.eqb_refl|].
  assert (Ho : forall a, a <> at_base load "_boot_status" -> mem_val (set_mem <[at_base load "_boot_status" := BOOT_STATUS_RELOCATE_DONE]> s1) a = moved (1 + n) link load s a)
    by (intros a Ha; by rewrite mem_val_set, (proj2 (Z.eqb_neq _ _)), Hm by done).
  split; [exact Ho|]. intros Hx. rewrite Ho by (unfold at_base; lia). apply (moved_label n load); [done|in_list].
Qed.

(** * The harts that wait *)

(** [others_act] as a function. *)
Definition turn (s : st) : st := tick (interfere (ticks s) s).
Definition turns (k : nat) (s : st) : st := Nat.iter k turn s.

Lemma turns_S k s : turns (S k) s = turns k (turn s).
Proof. apply Nat.iter_succ_r. Qed.
Lemma turns_add k1 k2 s : turns (k1 + k2) s = turns k2 (turns k1 s).
Proof. revert s. induction k1 as [|k1 IH]; intros s; [done|]. cbn [Nat.add]. by rewrite !turns_S, IH. Qed.

(** A loop whose test does not change the state, and whose registers settle
    after the first test, ends at the first turn at which the test holds. *)
Lemma await_eq (m : A bool) (test : st -> bool) (P : regs -> Prop) k : (forall r s, P r -> exists r', m r s = Ret (test s, r') s /\ P r') ->
  forall fuel r s, P r -> (k < fuel)%nat -> (forall j, (j < k)%nat -> test (turns j s) = false) -> test (turns k s) = true ->
  exists r', await fuel m r s = Ret (tt, r') (turns k s) /\ P r'.
Proof.
  intros Hm. induction k as [|k IH]; intros [|fuel] r s HP Hf Hno Hyes; try lia; cbn [await]; destruct (Hm r s HP) as (r1 & E & HP1); rewrite (abind _ _ _ _ _ _ _ E).
  - change (turns 0 s) with s in *. rewrite Hyes. by exists r1.
  - rewrite (Hno 0%nat ltac:(lia) : test s = false). erewrite abind by reflexivity. cbn [fst snd]. fold (turn s). rewrite turns_S in Hyes |- *.
    apply IH; [done|lia| |done]. intros j Hj. rewrite <- turns_S. apply Hno. lia.
Qed.

Definition wait_regs : list Z := [t0; t1; t2; t3; t4; t5].

Lemma wait_for_boot_hart_eq base k r s : small (at_base base "_boot_status") -> (k < polls)%nat ->
  (forall j, (j < k)%nat -> mem_val (turns j s) (at_base base "_boot_status") <> BOOT_STATUS_BOOT_HART_DONE) ->
  mem_val (turns k s) (at_base base "_boot_status") = BOOT_STATUS_BOOT_HART_DONE ->
  exists r', _wait_for_boot_hart base r s = _start_warm r' (turns k s) /\ keeps [t0; t1] r r'.
Proof.
  intros Hs Hk Hno Hyes. unfold _wait_for_boot_hart.
  destruct (await_eq (li t0 BOOT_STATUS_BOOT_HART_DONE;; la base t1 "_boot_status";; REG_L t1 0 t1;; beq t0 t1)
    (fun s => BOOT_STATUS_BOOT_HART_DONE =? mem_val s (at_base base "_boot_status")) (keeps [t0; t1] r) k) with (fuel := polls) (r := r) (s := s) as (r' & E & K); try done.
  - intros r0 s0 K. astep. erewrite abind by (by apply la_small). astep. unfold beq. rsimp. rewrite u64_0 by done.
    eexists. split; [reflexivity|]. by do 3 (apply keeps_set; [set_solver|]).
  - intros j Hj. apply Z.eqb_neq. intros E. by apply (Hno j Hj).
  - by apply Z.eqb_eq.
  - exists r'. split; [by rewrite (abind _ _ _ _ _ _ _ E)|done].
Qed.

(** C11: A hart that lost the lottery.  The boot hart signals in the image as loaded
    at turn [k1] that the copy is done, and in the image as linked, [k2] turns
    later, that everything is set up: the hart enters [_start_warm] at that
    turn and not before, with the arguments of the previous stage in place. *)
Theorem waiting_hart_released n load r s k1 k2 : layout n load -> linked load s -> (k1 < polls)%nat -> (k2 < polls)%nat ->
  (load = link -> k1 = 0%nat) ->
  (load <> link -> (forall j, (j < k1)%nat -> mem_val (turns j s) (at_base load "_boot_status") = 0) /\
    mem_val (turns k1 s) (at_base load "_boot_status") = BOOT_STATUS_RELOCATE_DONE) ->
  (forall j, (j < k2)%nat -> mem_val (turns (k1 + j) s) (sym "_boot_status") <> BOOT_STATUS_BOOT_HART_DONE) ->
  mem_val (turns (k1 + k2) s) (sym "_boot_status") = BOOT_STATUS_BOOT_HART_DONE ->
  exists r', _wait_relocate_copy_done load r s = _start_warm r' (turns (k1 + k2) s) /\ keeps wait_regs r r'.
Proof.
  intros Hl [Es _] Hk1 Hk2 Hsame Hmoved Hno Hyes. pose proof (lay_link _ _ Hl). pose proof (lay_load _ _ Hl).
  pose proof (small_at_load n load Hl "_link_start" ltac:(in_list)) as S1. pose proof (small_at_load n load Hl "_boot_status" ltac:(in_list)) as S2.
  pose proof (lay_labels _ _ Hl "_boot_status" ltac:(in_list)) as Hb. pose proof (lay_labels _ _ Hl "_wait_for_boot_hart" ltac:(in_list)) as Hw.
  assert (E0 : at_base load "_start" = load) by (unfold at_base; rewrite (lay_start _ _ Hl); lia).
  assert (Eb : at_base link "_boot_status" = sym "_boot_status") by (unfold at_base; lia).
  assert (S0 : small (at_base load "_start")) by (rewrite E0; unfold small; lia).
  unfold _wait_relocate_copy_done. erewrite abind by (by apply la_small). erewrite abind by (by apply la_small). do 2 astep. rewrite E0, (u64_0 _ S1), Es.
  destruct (Z.eqb_spec load link) as [Hx|Hx].
  - rewrite (Hsame Hx) in *. cbn [Nat.add] in *. rewrite <- Eb in Hno, Hyes.
    match goal with |- context [_wait_for_boot_hart _ ?x _] => destruct (wait_for_boot_hart_eq load k2 x s) as (r' & E & K) end; [done|done|by rewrite Hx|by rewrite Hx|].
    exists r'. split; [exact E|]. eapply keeps_trans; [|apply (keeps_sub [t0; t1]); [in_list|exact K]]. keeps.
  - destruct (Hmoved Hx) as [Hm0 Hm1]. erewrite abind by (by apply la_small). erewrite abind by (apply (la_load n); [done|in_list]). do 2 astep.
    assert (Ew : u64 (u64 (at_base load "_wait_for_boot_hart" - load) + link) = sym "_wait_for_boot_hart").
    { unfold at_base. rewrite (u64_of (_ - load)) by lia. replace (_ + link) with (sym "_wait_for_boot_hart") by lia. apply u64_of. lia. }
    rewrite Ew. set (r1 := rset t3 _ _).
    destruct (await_eq (li t4 BOOT_STATUS_RELOCATE_DONE;; REG_L t5 0 t2;; c ← bgt t4 t5; mret (negb c))
      (fun s => BOOT_STATUS_RELOCATE_DONE <=? s64 (mem_val s (at_base load "_boot_status"))) (keeps [t4; t5] r1) k1) with (fuel := polls) (r := r1) (s := s) as (r2 & E & K); try done.
    + intros r0 s0 K. do 3 astep. rewrite (keeps_get _ _ _ t2 K) by in_list. unfold r1. rsimp. rewrite u64_0 by done. cbn [fst snd].
      eexists. split; [rewrite Z.leb_antisym; reflexivity|]. by do 2 (apply keeps_set; [set_solver|]).
    + intros j Hj. by rewrite (Hm0 j Hj).
    + by rewrite Hm1.
    + rewrite (abind _ _ _ _ _ _ _ E). unfold jr. astep. rewrite (keeps_get _ _ _ t3 K) by in_list. rewrite (u64_of (sym "_wait_for_boot_hart")) by lia. unfold r1 at 1. rsimp. rewrite Z.eqb_refl.
      destruct (wait_for_boot_hart_eq link k2 r2 (turns k1 s)) as (r' & E' & K'); rewrite ?Eb; [unfold small; lia|done|intros j Hj; rewrite <- turns_add; by apply Hno|by rewrite <- turns_add|].
      exists r'. rewrite turns_add. split; [exact E'|]. apply (keeps_trans _ _ r2); [apply (keeps_trans _ _ r1)|]; [unfold r1; keeps|apply (keeps_sub [t4; t5]); [in_list|done]|apply (keeps_sub [t0; t1]); [in_list|done]].
Qed.
End Reloc.

(** * An image in memory *)

(** 4 KiB of image, linked at [0x80000000]. *)
Definition demo_symbols : gmap string Z := list_to_map [
  ("_fw_start", 0x80000000); ("_start", 0x80000000); ("_relocate", 0x80000040); ("_relocate_done", 0x80000130); ("_wait_for_boot_hart", 0x80000300);
  ("_relocate_lottery", 0x80000400); ("_boot_status", 0x80000408); ("_load_start", 0x80000410); ("_link_start", 0x80000418); ("_link_end", 0x80000420);
  ("_start_warm", 0x80000318); ("_hartid_to_scratch", 0x80000428); ("_start_hang", 0x80000460); ("_trap_handler", 0x80000480);
  ("_jump_addr", 0x80000800); ("platform", 0x80000900); ("hart_index2id", 0x80000a00); ("_bss_start", 0x80001000); ("_bss_end", 0x80001100); ("_fw_reloc_end", 0x80001000); ("_fw_end", 0x80020000)]%string.
Definition demo_image : Image := {| sym := fun l => default 0 (demo_symbols !! l) |}.

(** The image at [load], with [_load_start] filled in. *)
Definition loaded_st (load : Z) : st :=
  set_mem (fun _ => {[ load + 0x410 := load; load + 0x418 := 0x80000000; load + 0x420 := 0x80001000; load + 0x800 := 0x80200000 ]}) boot_st.

Lemma demo_layout load : 0 <= load -> load + 4096 < 2 ^ 63 -> load mod 8 = 0 -> @layout demo_image 511 load.
Proof.
  intros H1 H2 H3. constructor.
  - reflexivity.
  - split; reflexivity || discriminate.
  - change (8 * (Z.of_nat 511 + 1)) with 4096. lia.
  - change (@sym demo_image "_fw_start") with 0x80000000. by rewrite Zminus_mod, H3.
  - apply (Forall_forall (fun l => 0 <= @sym demo_image l - 0x80000000 < 4096)). in_list.
  - apply (Forall_forall (fun l => (@sym demo_image l - 0x80000000) mod 8 = 0)). in_list.
  - in_list.
  - discriminate.
  - reflexivity.
Qed.

(** Loaded 2 KiB below where it belongs the image is moved, from its end; 2 KiB
    above, the code would overwrite itself, and stops. *)
Lemma relocate_correct_witness :
  (exists r' s', @_relocate demo_image 0x7ffff800 (fun _ => 0) (loaded_st 0x7ffff800) = Ret (tt, r') s' /\
    mem_val s' 0x80000800 = 0x80200000 /\ mem_val s' 0x80000410 = 0x7ffff800) /\
  @_relocate demo_image 0x80000800 (fun _ => 0) (loaded_st 0x80000800) = Exit XHang (loaded_st 0x80000800).
Proof.
  split.
  - destruct (@relocate_correct demo_image 511 0x7ffff800 (fun _ => 0) (loaded_st 0x7ffff800)) as [_ Hm].
    + by apply demo_layout.
    + by constructor; vm_compute.
    + by vm_compute.
    + destruct Hm as (r' & m & E & _ & Hc & _); [right; by vm_compute|]. eexists r', _. split; [exact E|]. cbv zeta in Hc.
      split; [apply (Hc 256)|apply (Hc 130)]; lia.
  - apply (@relocate_correct demo_image 511 0x80000800); [by apply demo_layout|by constructor; vm_compute|by vm_compute|done|by vm_compute].
Defined.

(** The boot hart as the others see it: it signals at the first turn and at the
    third. *)
Definition release_hw (load : Z) : Hardware :=
  {| csr_exists := fun _ _ => true; csr_warl := fun _ _ v => v; csr_pc := fun _ => 0; dev_read := fun _ _ _ => 0;
     interfere := fun t s => if (t =? 0)%nat then set_mem <[load + 0x408 := 1]> s else if (t =? 2)%nat then set_mem <[0x80000408 := 2]> s else s; polls := 8 |}.

Lemma waiting_hart_released_witness :
  exists r', @_wait_relocate_copy_done (release_hw 0x7ffff800) boot_platform demo_image demo_runtime 0x7ffff800 (fun x => x) (loaded_st 0x7ffff800) =
    @_start_warm (release_hw 0x7ffff800) boot_platform demo_image demo_runtime r' (@turns (release_hw 0x7ffff800) 3 (loaded_st 0x7ffff800)) /\ r' a0 = a0.
Proof.
  destruct (@waiting_hart_released (release_hw 0x7ffff800) boot_platform demo_image demo_runtime 511 0x7ffff800 (fun x => x) (loaded_st 0x7ffff800) 1 2) as (r' & E & K).
  - by apply demo_layout.
  - by constructor; vm_compute.
  - apply Nat.ltb_lt. reflexivity.
  - apply Nat.ltb_lt. reflexivity.
  - intros Hx. discriminate Hx.
  - intros _. split; [|by vm_compute]. intros [|j] Hj; [by vm_compute|lia].
  - intros [|[|j]] Hj; [by vm_compute|by vm_compute|lia].
  - by vm_compute.
  - exists r'. split; [exact E|]. apply K. in_list.
Defined.
