(* ===== verification/FwBoot.v ===== *)
(** The set-up of the harts in firmware/fw_base.S: the scratch area that a hart
    takes for its own, and the scratch areas that the boot hart fills in. *)

From S2P Require Import Prelude Encoding Bitops Machine Platform Scratch Asm Hart Trap Unpriv Handler Init FwBase FwStep FwReloc.
Import Reg.

Section Warm.
Context `{Hardware} `{Platform} `{Image} `{CRuntime}.
Notation link := (sym "_fw_start").

(** The platform as the assembly reads it. *)
Record platform_ok : Prop := mkPlatOk {
  pl_count : 0 < hart_count the_platform < 2 ^ 32 - 1;
  pl_size : fits 32 (hart_stack_size the_platform);
  pl_end : sym "_fw_end" = fw_end;
  pl_fits : 0 <= fw_end < 2 ^ 63;
  pl_start : 0 <= link;
  pl_table : forall tbl, hart_index2id the_platform = Some tbl ->
    hart_count the_platform <= Z.of_nat (length tbl) /\ Forall (fits 32) tbl /\
    0 < sym "hart_index2id" /\ sym "hart_index2id" + 4 * hart_count the_platform < 2 ^ 63
}.

(** * The index of a hart *)

(** As [sbi_platform_hart_index] has it, except for a hart that is not in the
    table: the assembly has -1 in 64 bits. *)
Definition warm_index (h : Z) : Z :=
  match hart_index2id the_platform with
  | Some tbl => let k := hart_index_loop (Z.to_nat (hart_count the_platform)) 0 tbl h in if k =? 2 ^ 32 - 1 then 2 ^ 64 - 1 else k
  | None => h
  end.

Lemma table_lwu_eq tbl id i r s : hart_index2id the_platform = Some tbl -> Forall (fits 32) tbl -> rget r s9 = sym "hart_index2id" + 4 * i ->
  tbl !! Z.to_nat i = Some id -> table_lwu a5 s9 r s = Ret (tt, rset a5 id r) s.
Proof.
  intros Ht Hf E9 Eid. unfold table_lwu. astep. rewrite E9, Ht. cbn [mbind option_bind]. replace (sym "hart_index2id" + 4 * i - sym "hart_index2id") with (i * 4) by lia.
  rewrite Z.div_mul, Eid by lia. unfold set, u32. rewrite (wrap_small 32 id); [done|]. rewrite Forall_lookup in Hf. by apply (Hf (Z.to_nat i)).
Qed.

Lemma find_index_eq tbl h n : hart_index2id the_platform = Some tbl -> Forall (fits 32) tbl -> 0 < sym "hart_index2id" ->
  forall fuel i r s, (n < fuel)%nat -> 0 <= i -> i + Z.of_nat n + 1 < 2 ^ 32 -> i + Z.of_nat n + 1 <= Z.of_nat (length tbl) ->
  sym "hart_index2id" + 4 * (i + Z.of_nat n + 1) < 2 ^ 63 ->
  rget r s9 = sym "hart_index2id" + 4 * i -> rget r a4 = i -> rget r s7 = i + Z.of_nat n + 1 -> rget r s6 = h ->
  exists r', find_index fuel r s = Ret (tt, r') s /\ keeps [a4; a5; s9] r r' /\
    rget r' a4 = let k := hart_index_loop (S n) i tbl h in if k =? 2 ^ 32 - 1 then 2 ^ 64 - 1 else k.
Proof.
  intros Ht Hf Hsym. induction n as [|n IH]; intros [|fuel] i r s Hfu Hi Hb Hlen Hend E9 E4 E7 E6; try lia;
    (destruct (lookup_lt_is_Some_2 tbl (Z.to_nat i)) as [id Eid]; [lia|]); cbn [find_index];
    rewrite (abind _ _ _ _ _ _ _ (table_lwu_eq tbl id i r s Ht Hf E9 Eid)); astep; rewrite E6; cbn [hart_index_loop]; rewrite Eid;
    (destruct (decide (Some id = Some h)) as [[= ->]|Hne]; [rewrite Z.eqb_refl; exists (rset a5 h r); (split; [done|]); (split; [keeps|]); rsimp; cbv zeta; rewrite (proj2 (Z.eqb_neq _ _)) by lia; exact E4|]);
    rewrite (proj2 (Z.eqb_neq id h)) by congruence; do 3 astep; rewrite E9, E4, E7, !(u64_of (_ + 4)), !(u64_of (i + 1)), !s64_small by lia.
  - rewrite (proj2 (Z.ltb_ge _ _)) by lia. eexists. split; [reflexivity|]. split; [keeps|]. reflexivity.
  - rewrite (proj2 (Z.ltb_lt _ _)) by lia. set (r1 := rset a4 _ _).
    destruct (IH fuel (i + 1) r1 s) as (r' & E & K & Ea); try lia; try (unfold r1; rsimp; lia).
    exists r'. split; [exact E|]. split; [apply (keeps_trans _ _ r1); [unfold r1; keeps|done]|exact Ea].
Qed.

Definition table_addr : Z := match hart_index2id the_platform with Some _ => sym "hart_index2id" | None => 0 end.

Lemma hart_index_eq h r s : platform_ok -> fits 32 h -> rget r s6 = h -> rget r s7 = hart_count the_platform -> rget r s9 = table_addr ->
  exists r', hart_index r s = Ret (tt, r') s /\ keeps [a4; a5; s6; s9] r r' /\ rget r' s6 = warm_index h.
Proof.
  intros [Hc _ _ _ _ Ht] Hh E6 E7 E9. unfold hart_index, table_addr, warm_index in *. astep. rewrite E9.
  destruct (hart_index2id the_platform) as [tbl|] eqn:Et; [|exists r; split; [done|]; split; [apply keeps_refl|exact E6]].
  destruct (Ht tbl eq_refl) as (Hlen & Hf & Hs & He). rewrite (proj2 (Z.eqb_neq _ _)) by (change (rget r zero) with 0; lia).
  do 2 astep. rewrite E7. set (r1 := rset a4 _ _). set (n := Z.to_nat (hart_count the_platform - 1)).
  destruct (find_index_eq tbl h n Et Hf Hs (S (Z.to_nat (hart_count the_platform))) 0 r1 s) as (r2 & E & K & Ea); try (unfold n; lia); try (unfold r1; rsimp; (done || unfold n; lia)).
  rewrite (abind _ _ _ _ _ _ _ E). replace (S n) with (Z.to_nat (hart_count the_platform)) in Ea by (unfold n; lia). cbv zeta in *. unfold add, set. rewrite Ea. change (rget r2 zero) with 0.
  eexists. split; [reflexivity|]. split; [keeps; apply (keeps_trans _ _ r1); [unfold r1; keeps|]; by apply (keeps_sub [a4; a5; s9]); [in_list|]|].
  rsimp. rewrite Z.add_0_r. unfold u64. apply wrap_small. destruct (hart_index_loop_spec tbl h (Z.to_nat (hart_count the_platform)) 0) as [(k & Hk & -> & _)|[-> _]]; [lia| |done].
  rewrite (proj2 (Z.eqb_neq _ _)) by lia. unfold fits. lia.
Qed.

(** * Taking a scratch area *)

Lemma reset_regs_eq r s : exists r', _reset_regs r s = Ret (tt, r') (put_csr CSR_MSCRATCH 0 s) /\
  r' a0 = r a0 /\ r' a1 = r a1 /\ r' a2 = r a2 /\ rget r' a3 = 0 /\ rget r' a4 = 0.
Proof. eexists. split; [reflexivity|]. repeat split; reflexivity. Qed.

(** The registers of a hart when it enters [sbi_init]: no interrupts, its
    scratch area and the trap handler. *)
Definition warm_st (scratch : Z) (s : st) : st :=
  put_csr CSR_MTVEC (at_base link "_trap_handler") (put_csr CSR_MSCRATCH scratch (put_csr CSR_MIP 0 (put_csr CSR_MIE 0 (put_csr CSR_MSCRATCH 0 s)))).

Definition enter_sbi_init (scratch : Z) (s : st) : outcome (unit * regs) :=
  match sbi_init scratch (warm_st scratch s) with Ret _ s' => Exit XHang s' | Exit e s' => Exit e s' end.

Definition quiet_st (s : st) : st := put_csr CSR_MIP 0 (put_csr CSR_MIE 0 (put_csr CSR_MSCRATCH 0 s)).

Lemma at_link l : at_base link l = sym l.
Proof. unfold at_base. lia. Qed.

Lemma quiet_csr s c : c <> CSR_MIP -> c <> CSR_MIE -> c <> CSR_MSCRATCH -> csr_val (quiet_st s) (cur s) c = csr_val s (cur s) c.
Proof.
  intros H1' H2' H3'. unfold quiet_st. set (s1 := put_csr CSR_MSCRATCH 0 s). set (s2 := put_csr CSR_MIE 0 s1).
  change (cur s) with (cur s2) at 1. rewrite csr_val_put, (proj2 (Z.eqb_neq c _)) by done.
  change (cur s2) with (cur s1). unfold s2. rewrite csr_val_put, (proj2 (Z.eqb_neq c _)) by done.
  change (cur s1) with (cur s). unfold s1. by rewrite csr_val_put, (proj2 (Z.eqb_neq c _)) by done.
Qed.

(** Reading a field of the platform. *)
Lemma plat_lwu_eq rd f rs r s : rget r rs = u64 (sym "platform") -> plat_lwu rd f rs r s = Ret (tt, rset rd (u32 (f the_platform)) r) s.
Proof. intros E. unfold plat_lwu. astep. by rewrite E, Z.eqb_refl. Qed.
Lemma plat_index2id_eq rd rs r s : rget r rs = u64 (sym "platform") -> plat_index2id rd rs r s = Ret (tt, rset rd table_addr r) s.
Proof. intros E. unfold plat_index2id. astep. by rewrite E, Z.eqb_refl. Qed.

Lemma u64_dec x : exists k, u64 x = x + k * 2 ^ 64.
Proof. exists (- (x / 2 ^ 64)). unfold u64, wrap. rewrite Z.mod_eq by lia. lia. Qed.
Lemma s64_dec x : exists k, s64 x = x + k * 2 ^ 64.
Proof.
  destruct (u64_dec x) as [k E]. unfold s64, signed. fold (u64 x). cbv zeta. rewrite E. destruct (_ <? _); [by exists k|]. exists (k - 1). lia.
Qed.
Lemma u64_same x y k : x = y + k * 2 ^ 64 -> u64 x = u64 y.
Proof. intros ->. unfold u64, wrap. apply Z_mod_plus_full. Qed.

Lemma scratch_addr w h :
  u64 (u64 (u64 (fw_end + u64 (hart_count the_platform * hart_stack_size the_platform)) - u64 (hart_stack_size the_platform * w)) - u64 SBI_SCRATCH_SIZE) =
  _hartid_to_scratch h (s64 w).
Proof.
  unfold _hartid_to_scratch. set (n := hart_count the_platform). set (z := hart_stack_size the_platform). change (u64 SBI_SCRATCH_SIZE) with SBI_SCRATCH_SIZE.
  destruct (s64_dec w) as [k0 ->]. destruct (u64_dec (n * z)) as [k1 ->]. destruct (u64_dec (z * w)) as [k2 ->].
  destruct (u64_dec (fw_end + (n * z + k1 * 2 ^ 64))) as [k3 ->].
  match goal with |- u64 (u64 ?x - _) = _ => destruct (u64_dec x) as [k4 ->] end. apply (u64_same _ _ (k1 + k3 - k2 + k4 + k0 * z)). ring.
Qed.

Lemma u32_of x : fits 32 x -> u32 x = x.
Proof. apply wrap_small. Qed.

Lemma warm_scratch h w s : (forall v, csr_warl (cur s) CSR_MSCRATCH v = v) -> let p := _hartid_to_scratch h w in csr_val (warm_st p s) (cur s) CSR_MSCRATCH = p.
Proof.
  intros Hw p. unfold warm_st. set (s2 := put_csr CSR_MIP 0 _). set (s3 := put_csr CSR_MSCRATCH p s2).
  change (cur s) with (cur s3) at 1. rewrite csr_val_put. change (CSR_MSCRATCH =? CSR_MTVEC) with false. cbv iota.
  change (cur s3) with (cur s2). unfold s3. rewrite csr_val_put, Z.eqb_refl. change (cur s2) with (cur s). rewrite Hw. unfold u64 at 1. apply wrap_wrap. lia.
Qed.

Lemma take_scratch_eq h w r s : platform_ok -> (forall v, csr_warl (cur s) CSR_MSCRATCH v = v) -> 0 <= sym "_trap_handler" < 2 ^ 63 ->
  rget r s6 = w -> rget r s7 = hart_count the_platform -> rget r s8 = hart_stack_size the_platform ->
  (la link tp "_fw_end";; mul a5 s7 s8;; add tp tp a5;; mul a5 s8 s6;; sub tp tp a5;; li a5 SBI_SCRATCH_SIZE;; sub tp tp a5;;
    csrw CSR_MSCRATCH tp;;
    add sp tp zero;;
    la link a4 "_trap_handler";; csrw CSR_MTVEC a4;;
    csrr a0 CSR_MSCRATCH;;
    scratch ← get a0;
    c_call (sbi_init scratch;; mret 0);;
    _start_hang) r (quiet_st s) = enter_sbi_init (_hartid_to_scratch h (s64 w)) s.
Proof.
  intros Hp Hw Ht E6 E7 E8. destruct Hp as [_ _ Ee Hf _ _].
  erewrite abind by (apply la_small; rewrite at_link, Ee; exact Hf). rewrite at_link, Ee. do 6 astep. rewrite E6, E7, E8, (scratch_addr w h). set (p := _hartid_to_scratch h (s64 w)).
  do 2 astep. erewrite abind by (apply la_small; rewrite at_link; exact Ht).
  astep. change (put_csr CSR_MTVEC _ _) with (warm_st p s).
  assert (Ep : csr_val (warm_st p s) (cur s) CSR_MSCRATCH = p) by (by apply warm_scratch).
  astep. change (cur (warm_st p s)) with (cur s). rewrite Ep. set (r1 := rset a0 _ _). astep. change (rget r1 a0) with p.
  unfold enter_sbi_init, c_call, _start_hang, lift, exits. unfold mbind at 1, A_bind, mbind at 1, M_bind at 1. unfold mbind, M_bind. by destruct (sbi_init p (warm_st p s)).
Qed.

Lemma start_warm_eq h r s : platform_ok -> fits 32 h -> csr_val s (cur s) CSR_MHARTID = h -> (forall v, csr_warl (cur s) CSR_MSCRATCH v = v) ->
  0 <= sym "platform" < 2 ^ 63 -> 0 <= sym "_trap_handler" < 2 ^ 63 ->
  _start_warm r s = if hart_count the_platform <=? s64 (warm_index h) then Exit XHang (quiet_st s) else enter_sbi_init (_hartid_to_scratch h (s64 (warm_index h))) s.
Proof.
  intros Hp Hh Eh Hw Hpl Htr. unfold _start_warm, call. astep.
  destruct (reset_regs_eq (rset ra ret_addr (rset ra (u64 0) r)) s) as (r1 & E1 & _). erewrite abind by (erewrite abind by reflexivity; exact E1).
  do 2 astep. change (rget r1 zero) with 0. fold (quiet_st s).
  erewrite abind by (apply la_small; rewrite at_link; exact Hpl). rewrite at_link.
  do 2 (erewrite abind by (apply plat_lwu_eq; rsimp; symmetry; by apply u64_of)). erewrite abind by (apply plat_index2id_eq; rsimp; symmetry; by apply u64_of).
  astep. change (cur (quiet_st s)) with (cur s). rewrite quiet_csr, Eh by done.
  pose proof (pl_count Hp) as Hc. pose proof (pl_size Hp) as Hz. rewrite (u32_of (hart_count the_platform)), (u32_of (hart_stack_size the_platform)) by (done || unfold fits; lia).
  match goal with |- (hart_index ≫= _) ?x _ = _ => destruct (hart_index_eq h x (quiet_st s) Hp Hh) as (r2 & E2 & K2 & E6); [done|done|done|] end.
  rewrite (abind _ _ _ _ _ _ _ E2). unfold bge. astep. rewrite E6, (keeps_get _ _ _ s7 K2) by in_list. cbn [fst snd]. rsimp. rewrite (s64_small (hart_count the_platform)) by lia. rewrite (Z.leb_antisym _ (hart_count the_platform)).
  destruct (_ <? _); [|done]. cbn [negb]. apply take_scratch_eq; try done; rewrite (keeps_get _ _ _ _ K2) by in_list; reflexivity.
Qed.

(** The addresses that the entry code puts in registers. *)
Definition symbols_ok : Prop := 0 <= sym "platform" < 2 ^ 63 /\ 0 <= sym "_trap_handler" < 2 ^ 63.

(** C10: A hart that the platform lists takes the scratch area that the C code
    computes for it: the search for the index in assembly agrees with
    [sbi_platform_hart_index] and the address with [_hartid_to_scratch].  It
    enters [sbi_init] there, with interrupts disabled and cleared, the scratch
    register set and the trap handler installed. *)
Theorem start_warm_scratch h r s : platform_ok -> symbols_ok -> fits 32 h -> csr_val s (cur s) CSR_MHARTID = h -> (forall v, csr_warl (cur s) CSR_MSCRATCH v = v) ->
  sbi_platform_hart_invalid (Some the_platform) h = false ->
  let scratch := _hartid_to_scratch h (sbi_platform_hart_index (Some the_platform) h) in
  _start_warm r s = enter_sbi_init scratch s /\
  csr_val (warm_st scratch s) (cur s) CSR_MSCRATCH = scratch.
Proof.
  intros Hp [H1' H2'] Hh Eh Hw Hv scratch. split; [|by apply warm_scratch].
  rewrite (start_warm_eq h r s) by done. pose proof (pl_count Hp) as Hc.
  destruct (hart_index_valid the_platform h) as [Hi _]; [unfold fits in Hh; lia|lia|done|].
  assert (E : warm_index h = sbi_platform_hart_index (Some the_platform) h).
  { unfold warm_index, sbi_platform_hart_index in *. destruct (hart_index2id the_platform); [|done]. cbv zeta. by rewrite (proj2 (Z.eqb_neq _ _)) by lia. }
  rewrite E, s64_small by lia. by rewrite (proj2 (Z.leb_gt _ _)) by lia.
Qed.

(** C39: A hart with an id that is not valid stops if the platform has no index
    table.  If it has one, the hart gets the index -1, which the signed
    comparison lets pass, and goes on in [sbi_init] with an area beyond the
    stacks of the firmware as its scratch area. *)
Theorem start_warm_invalid_hart h r s : platform_ok -> symbols_ok -> fits 32 h -> csr_val s (cur s) CSR_MHARTID = h -> (forall v, csr_warl (cur s) CSR_MSCRATCH v = v) ->
  sbi_platform_hart_invalid (Some the_platform) h = true ->
  _start_warm r s = match hart_index2id the_platform with
    | None => Exit XHang (quiet_st s)
    | Some _ => enter_sbi_init (u64 (fw_end + (hart_count the_platform + 1) * hart_stack_size the_platform - SBI_SCRATCH_SIZE)) s
    end.
Proof.
  intros Hp [H1' H2'] Hh Eh Hw Hv. rewrite (start_warm_eq h r s) by done. pose proof (pl_count Hp) as Hc.
  unfold sbi_platform_hart_invalid, sbi_platform_hart_index in Hv. unfold warm_index. destruct (hart_index2id the_platform) as [tbl|].
  - destruct (hart_index_loop_spec tbl h (Z.to_nat (hart_count the_platform)) 0) as [(k & Hk & E & _)|[E _]]; [lia|rewrite E in Hv; lia|].
    rewrite E. cbv zeta. rewrite Z.eqb_refl. change (s64 (2 ^ 64 - 1)) with (-1). rewrite (proj2 (Z.leb_gt _ _)) by lia.
    unfold _hartid_to_scratch. by replace (hart_count the_platform - -1) with (hart_count the_platform + 1) by lia.
  - unfold fits in Hh. rewrite s64_small by lia. by rewrite Hv.
Qed.
End Warm.

(** Two harts, 1 and 4, of which the table gives the indices. *)
Definition duo_platform : Platform := Build_Platform (mkPlat 0 0 (chars "duo") 1 2 8192 no_ops (Some [1; 4])) 0x80020000.
Definition hart_st (h : Z) : st := set_csrs (fun _ => {[ (0, CSR_MHARTID) := h ]}) boot_st.

Lemma duo_platform_ok : @platform_ok duo_platform demo_image.
Proof.
  constructor; [in_list|unfold fits; in_list|reflexivity|in_list|in_list|]. intros tbl [= <-].
  split; [in_list|]. split; [repeat constructor; discriminate|in_list].
Qed.
Lemma demo_symbols_ok : @symbols_ok demo_image.
Proof. unfold symbols_ok. in_list. Qed.

(** Hart 4 has the second stack from the end. *)
Lemma start_warm_scratch_witness :
  @_start_warm plain_hw duo_platform demo_image demo_runtime (fun _ => 0) (hart_st 4) = @enter_sbi_init plain_hw duo_platform demo_image 0x80021000 (hart_st 4).
Proof.
  destruct (@start_warm_scratch plain_hw duo_platform demo_image demo_runtime 4 (fun _ => 0) (hart_st 4) duo_platform_ok demo_symbols_ok) as [E _].
  - split; [discriminate|reflexivity].
  - reflexivity.
  - intros v. reflexivity.
  - reflexivity.
  - exact E.
Defined.

(** Hart 0, which the platform does not list, takes what follows the stacks. *)
Lemma start_warm_invalid_hart_witness :
  @_start_warm plain_hw duo_platform demo_image demo_runtime (fun _ => 0) (hart_st 0) = @enter_sbi_init plain_hw duo_platform demo_image 0x80025000 (hart_st 0).
Proof.
  etransitivity.
  - apply (@start_warm_invalid_hart plain_hw duo_platform demo_image demo_runtime 0 (fun _ => 0) (hart_st 0) duo_platform_ok demo_symbols_ok).
    + split; [discriminate|reflexivity].
    + reflexivity.
    + intros v. reflexivity.
    + reflexivity.
  - cbn [hart_index2id the_platform duo_platform]. f_equal.
Defined.
