(* ===== verification/FwScratch.v ===== *)
(** The boot hart's part of firmware/fw_base.S between the relocation and the
    release of the other harts: the scratch areas of all harts, with what the
    firmware's variant says about the next stage, and the device tree. *)

From S2P Require Import Prelude Encoding Bitops Machine Platform Scratch Asm Hart Trap Unpriv Handler Init FwBase FwStep FwReloc FwBoot.
Import Reg.

(** * What a variant promises *)

(** [f] leaves in a0 a value that depends on a1 and on memory, and touches no
    other register. *)
Definition returns (f : A unit) (val : Z -> st -> Z) : Prop :=
  forall r s, exists r', f r s = Ret (tt, r') s /\ rget r' a0 = val (rget r a1) s /\ keeps [a0] r r'.

(** The value depends on nothing from [limit] on. *)
Definition depends_below (limit : Z) (val : Z -> st -> Z) : Prop :=
  forall x s s', (forall a, a < limit -> mem_val s a = mem_val s' a) -> val x s = val x s'.

Class VariantOk `{Platform} `{Variant} : Type := {
  prev_arg1_val : Z -> st -> Z;
  next_arg1_val : Z -> st -> Z;
  next_addr_val : Z -> st -> Z;
  next_mode_val : Z -> st -> Z;
  options_val : Z -> st -> Z;
  prev_arg1_ok : returns fw_prev_arg1 prev_arg1_val;
  next_arg1_ok : returns fw_next_arg1 next_arg1_val;
  next_addr_ok : returns fw_next_addr next_addr_val;
  next_mode_ok : returns fw_next_mode next_mode_val;
  options_ok : returns fw_options options_val;
  next_arg1_below : depends_below fw_end next_arg1_val;
  next_addr_below : depends_below fw_end next_addr_val;
  next_mode_below : depends_below fw_end next_mode_val;
  options_below : depends_below fw_end options_val
}.

Lemma returns_li v : returns (li a0 v) (fun _ _ => u64 v).
Proof. intros r s. eexists. split; [reflexivity|]. split; [reflexivity|keeps]. Qed.
Lemma returns_zero : returns (add a0 zero zero) (fun _ _ => 0).
Proof. intros r s. eexists. split; [reflexivity|]. split; [reflexivity|keeps]. Qed.
Lemma returns_a1 : returns (add a0 a1 zero) (fun x _ => u64 (x + 0)).
Proof. intros r s. eexists. split; [reflexivity|]. split; [reflexivity|keeps]. Qed.
Lemma returns_cell `{Image} base l : returns (la base a0 l;; REG_L a0 0 a0) (fun _ s => mem_val s (u64 (u64 (at_base base l) + 0))).
Proof. intros r s. eexists. split; [reflexivity|]. split; [reflexivity|keeps]. Qed.
Lemma returns_la `{Image} base l : returns (la base a0 l) (fun _ _ => u64 (at_base base l)).
Proof. intros r s. eexists. split; [reflexivity|]. split; [reflexivity|keeps]. Qed.

Lemma below_const limit (f : Z -> Z) : depends_below limit (fun x _ => f x).
Proof. by intros x s s' _. Qed.
Lemma below_cell limit a : a < limit -> depends_below limit (fun _ s => mem_val s a).
Proof. intros Ha x s s' Hs. by apply Hs. Qed.

Create HintDb variant.
#[export] Hint Resolve returns_li returns_zero returns_a1 returns_cell returns_la below_const below_cell : variant.

Section Variants.
Context `{Platform} `{Image}.
Notation link := (sym "_fw_start").

(** The address of a cell of the image, as the code computes it. *)
Definition cell_at (l : string) : Z := u64 (u64 (at_base link l) + 0).

#[refine] Definition fw_jump_ok (FW_JUMP_FDT_ADDR : option Z) (Hj : cell_at "_jump_addr" < fw_end) : @VariantOk _ (fw_jump FW_JUMP_FDT_ADDR) :=
  {| prev_arg1_val := fun _ _ => 0;
     next_arg1_val := fun x _ => match FW_JUMP_FDT_ADDR with Some addr => u64 addr | None => u64 (x + 0) end;
     next_addr_val := fun _ s => mem_val s (cell_at "_jump_addr");
     next_mode_val := fun _ _ => PRV_S;
     options_val := fun _ _ => 0 |}.
Proof. all: try destruct FW_JUMP_FDT_ADDR; cbn; auto with variant. Defined.

#[refine] Definition fw_payload_ok (fdt_built_in : bool) (FW_PAYLOAD_FDT_ADDR : option Z) : @VariantOk _ (fw_payload fdt_built_in FW_PAYLOAD_FDT_ADDR) :=
  {| prev_arg1_val := fun _ _ => if fdt_built_in then u64 (at_base link "fdt_bin") else 0;
     next_arg1_val := fun x _ => match FW_PAYLOAD_FDT_ADDR with Some addr => u64 addr | None => u64 (x + 0) end;
     next_addr_val := fun _ _ => u64 (at_base link "payload_bin");
     next_mode_val := fun _ _ => PRV_S;
     options_val := fun _ _ => 0 |}.
Proof. all: try destruct FW_PAYLOAD_FDT_ADDR; try destruct fdt_built_in; cbn; auto with variant. Defined.

#[refine] Definition fw_dynamic_ok (H1 : cell_at "_dynamic_next_arg1" < fw_end) (H2 : cell_at "_dynamic_next_addr" < fw_end)
    (H3 : cell_at "_dynamic_next_mode" < fw_end) (H4 : cell_at "_dynamic_options" < fw_end) : @VariantOk _ fw_dynamic :=
  {| prev_arg1_val := fun _ _ => 0;
     next_arg1_val := fun _ s => mem_val s (cell_at "_dynamic_next_arg1");
     next_addr_val := fun _ s => mem_val s (cell_at "_dynamic_next_addr");
     next_mode_val := fun _ s => mem_val s (cell_at "_dynamic_next_mode");
     options_val := fun _ s => mem_val s (cell_at "_dynamic_options") |}.
Proof. all: cbn; auto with variant. Defined.
End Variants.

(** * One scratch area *)

Section Fill.
Context `{Hardware} `{Platform} `{Image} `{Variant} `{CRuntime} `{!VariantOk}.
Notation link := (sym "_fw_start").

(** The arguments of the previous stage are words. *)
Definition args_fit (r : regs) : Prop := fits 64 (r a0) /\ fits 64 (r a1) /\ fits 64 (r a2).

Lemma save_3R r s : args_fit r -> MOV_3R s0 a0 s1 a1 s2 a2 r s = Ret (tt, rset s2 (r a2) (rset s1 (r a1) (rset s0 (r a0) r))) s.
Proof.
  intros (F0 & F1 & F2). transitivity (Ret (tt, rset s2 (u64 (r a2 + 0)) (rset s1 (u64 (r a1 + 0)) (rset s0 (u64 (r a0 + 0)) r))) s); [reflexivity|].
  rewrite !Z.add_0_r. unfold u64. by rewrite !wrap_small.
Qed.
Lemma restore_3R r s : fits 64 (r s0) -> fits 64 (r s1) -> fits 64 (r s2) ->
  MOV_3R a0 s0 a1 s1 a2 s2 r s = Ret (tt, rset a2 (r s2) (rset a1 (r s1) (rset a0 (r s0) r))) s.
Proof.
  intros F0 F1 F2. transitivity (Ret (tt, rset a2 (u64 (r s2 + 0)) (rset a1 (u64 (r s1 + 0)) (rset a0 (u64 (r s0 + 0)) r))) s); [reflexivity|].
  rewrite !Z.add_0_r. unfold u64. by rewrite !wrap_small.
Qed.

(** A function of the variant is called and [k] makes use of its result; a0, a1
    and a2 are as before. *)
Lemma call_3R_eq f val (k : A unit) l (Q : regs -> Prop) s' r s : returns f val -> args_fit r -> s0 ∉ l -> s1 ∉ l -> s2 ∉ l ->
  (forall r', rget r' a0 = val (rget r a1) s -> keeps [ra; s0; s1; s2; a0] r r' -> exists r2, k r' s = Ret (tt, r2) s' /\ keeps l r' r2 /\ Q r2) ->
  exists r' r2, call_3R f k r s = Ret (tt, r') s' /\ keeps (l ++ [ra; s0; s1; s2]) r r' /\ keeps [a0; a1; a2] r2 r' /\ Q r2.
Proof.
  intros Hf Ha N0 N1 N2 Hk. unfold call_3R, call. rewrite (abind _ _ _ _ _ _ _ (save_3R r s Ha)). set (r0 := rset s2 _ _).
  destruct (Hf (rset ra ret_addr r0) s) as (r2 & E2 & V2 & K2). change (rget (rset ra ret_addr r0) a1) with (rget r a1) in V2.
  assert (Ec : (set ra ret_addr;; f) r0 s = Ret (tt, r2) s) by (erewrite abind by reflexivity; exact E2). rewrite (abind _ _ _ _ _ _ _ Ec).
  assert (Kr : keeps [ra; s0; s1; s2; a0] r (rset ra ret_addr r0)) by (unfold r0; keeps).
  destruct (Hk r2 V2) as (r3 & E3 & K3 & HQ); [apply (keeps_trans _ _ _ _ Kr); by apply (keeps_sub [a0]); [in_list|]|]. rewrite (abind _ _ _ _ _ _ _ E3).
  assert (F0 : r3 s0 = r a0) by (rewrite K3, K2 by (done || in_list); reflexivity). assert (F1 : r3 s1 = r a1) by (rewrite K3, K2 by (done || in_list); reflexivity).
  assert (F2 : r3 s2 = r a2) by (rewrite K3, K2 by (done || in_list); reflexivity). destruct Ha as (A0 & A1 & A2).
  rewrite restore_3R by (rewrite ?F0, ?F1, ?F2; done). eexists _, r3. split; [reflexivity|]. split; [|split; [keeps|done]]. rewrite F0, F1, F2. intros x Hx. unfold rset.
  destruct (Z.eqb_spec x a2) as [->|]; [done|]. destruct (Z.eqb_spec x a1) as [->|]; [done|]. destruct (Z.eqb_spec x a0) as [->|]; [done|].
  rewrite not_elem_of_app in Hx. destruct Hx as [Hl Hx]. rewrite K3, K2 by (done || (intros Hi; apply list_elem_of_singleton in Hi; done)). apply Kr. set_solver.
Qed.

Lemma call_store_eq f val off r s : returns f val -> args_fit r ->
  exists r', call_3R f (REG_S a0 off tp) r s = Ret (tt, r') (set_mem <[u64 (rget r tp + off) := val (rget r a1) s]> s) /\ keeps [ra; s0; s1; s2] r r'.
Proof.
  intros Hf Ha. edestruct (call_3R_eq f val (REG_S a0 off tp) [] (fun _ => True)) as (r' & _ & E & K & _); [exact Hf|exact Ha|in_list..| |by exists r'].
  intros r' V K. exists r'. split; [|split; [apply keeps_refl|done]]. unfold REG_S. erewrite (keeps_get _ _ _ tp K) by in_list. rewrite V. reflexivity.
Qed.

(** The fields of a scratch area, in the order in which they are written; [x]
    is the argument a1 of the previous stage. *)
Definition scratch_cells (x : Z) (s : st) : list (Z * Z) :=
  [(SBI_SCRATCH_FW_START_OFFSET, link);
   (SBI_SCRATCH_FW_SIZE_OFFSET, fw_end + hart_count the_platform * hart_stack_size the_platform - link);
   (SBI_SCRATCH_NEXT_ARG1_OFFSET, next_arg1_val x s);
   (SBI_SCRATCH_NEXT_ADDR_OFFSET, next_addr_val x s);
   (SBI_SCRATCH_NEXT_MODE_OFFSET, next_mode_val x s);
   (SBI_SCRATCH_WARMBOOT_ADDR_OFFSET, sym "_start_warm");
   (SBI_SCRATCH_PLATFORM_ADDR_OFFSET, sym "platform");
   (SBI_SCRATCH_HARTID_TO_SCRATCH_OFFSET, sym "_hartid_to_scratch");
   (SBI_SCRATCH_TMP0_OFFSET, 0);
   (SBI_SCRATCH_OPTIONS_OFFSET, options_val x s)].
Definition fill (area x : Z) (s : st) : st := stores_st (map (fun c => (area + c.1, c.2)) (scratch_cells x s)) s.

Definition field_regs : list Z := [a4; a5; t0; ra; s0; s1; s2].

(** What is in memory below the scratch areas. *)
Definition agree (s s' : st) : Prop := forall a, a < fw_end -> mem_val s a = mem_val s' a.

Record image_ok : Prop := mkImageOk {
  im_plat : platform_ok;
  im_link : link <= fw_end;
  im_top : fw_end + hart_count the_platform * hart_stack_size the_platform < 2 ^ 63;
  im_size : SBI_SCRATCH_SIZE <= hart_stack_size the_platform;
  im_labels : forall l, l ∈ ["_start_warm"; "platform"; "_hartid_to_scratch"]%string -> 0 <= sym l < 2 ^ 63
}.

Lemma la_link l rd r s : small (sym l) -> la link rd l r s = Ret (tt, rset rd (sym l) r) s.
Proof. intros Hs. rewrite la_small; unfold at_base; replace (sym l - link + link) with (sym l) by lia; done. Qed.

Section Area.
Context (Hi : image_ok) (area : Z) (r0 : regs) (s : st).
Context (Harea : fw_end <= area) (Htop : area + 80 < 2 ^ 63) (Etp : rget r0 tp = area) (Hargs : args_fit r0).

Lemma field_addr off : 0 <= off < 80 -> u64 (area + off) = area + off.
Proof. intros Ho. apply u64_of. pose proof (pl_fits (im_plat Hi)). lia. Qed.

Lemma field_call f val off r s' : returns f val -> depends_below fw_end val -> 0 <= off < 80 -> keeps field_regs r0 r -> agree s s' ->
  exists r', call_3R f (REG_S a0 off tp) r s' = Ret (tt, r') (set_mem <[area + off := val (r0 a1) s]> s') /\ keeps field_regs r0 r'.
Proof.
  intros Hf Hd Ho K Ha. assert (Hr : args_fit r) by (unfold args_fit; rewrite !K by in_list; exact Hargs).
  destruct (call_store_eq f val off r s' Hf Hr) as (r' & E & K'). exists r'. split; [|apply (keeps_trans _ _ r); [done|]; by apply (keeps_sub [ra; s0; s1; s2]); [in_list|]].
  rewrite E, (keeps_get _ _ _ tp K), Etp, field_addr, (keeps_get _ _ _ a1 K) by (in_list || done). do 2 f_equal. f_equal. symmetry. by apply Hd.
Qed.

Lemma agree_set off v s' : 0 <= off -> agree s s' -> agree s (set_mem <[area + off := v]> s').
Proof. intros Ho Ha a Hlt. rewrite mem_val_set, (proj2 (Z.eqb_neq _ _)) by lia. by apply Ha. Qed.

Lemma field_store rs off v r s' : 0 <= off < 80 -> rget r tp = area -> rget r rs = v -> REG_S rs off tp r s' = Ret (tt, r) (set_mem <[area + off := v]> s').
Proof. intros Ho E1 E2. unfold REG_S. rewrite E1, E2, field_addr by done. reflexivity. Qed.

Ltac fcall law below := match goal with |- context [(call_3R ?f (REG_S a0 ?off tp) ≫= _) ?r1 ?s1] =>
  let r' := fresh "r" in let E := fresh "E" in let K := fresh "K" in let G := fresh "G" in
  assert (G : agree s s1) by (repeat (apply agree_set; [done|]); assumption || by intros a _);
  destruct (field_call f _ off r1 s1 law below ltac:(done) ltac:(keeps; assumption) G) as (r' & E & K); rewrite (abind _ _ _ _ _ _ _ E); clear E G end.
Ltac fstore := erewrite abind by (apply field_store; [done|rsimp; first [exact Etp | rewrite (keeps_get field_regs r0 _ tp) by (assumption || in_list); exact Etp]|reflexivity]).

Lemma scratch_fields_eq : rget r0 s7 = hart_count the_platform -> rget r0 s8 = hart_stack_size the_platform ->
  exists r', scratch_fields r0 s = Ret (tt, r') (fill area (r0 a1) s) /\ keeps field_regs r0 r'.
Proof.
  intros E7 E8. pose proof (pl_fits (im_plat Hi)) as Hf. pose proof (pl_start (im_plat Hi)) as Hl. pose proof (im_link Hi). pose proof (im_top Hi). pose proof (pl_count (im_plat Hi)). pose proof (pl_size (im_plat Hi)) as Hz. unfold fits in Hz.
  assert (Hm : 0 <= hart_count the_platform * hart_stack_size the_platform) by nia.
  unfold scratch_fields. erewrite abind by (apply la_link; unfold small; lia). erewrite abind by (apply la_link; rewrite (pl_end (im_plat Hi)); exact Hf). rewrite (pl_end (im_plat Hi)).
  do 3 astep. rewrite E7, E8, (u64_of (_ * _)), (u64_of (fw_end + _)), (u64_of (_ - link)) by lia.
  do 2 fstore. rsimp. set (v1 := _ - link).
  fcall next_arg1_ok next_arg1_below. fcall next_addr_ok next_addr_below. fcall next_mode_ok next_mode_below.
  erewrite abind by (apply la_link, (im_labels Hi); set_solver). fstore. rsimp.
  erewrite abind by (apply la_link, (im_labels Hi); set_solver). fstore. rsimp.
  erewrite abind by (apply la_link, (im_labels Hi); set_solver). fstore. rsimp. fstore. change (rget _ zero) with 0.
  match goal with |- context [call_3R fw_options (REG_S a0 ?off tp) ?r1 ?s1] =>
    destruct (field_call fw_options _ off r1 s1 options_ok options_below) as (r' & E' & K'); [done|keeps; assumption|repeat (apply agree_set; [done|]); by intros a _|] end.
  exists r'. split; [rewrite E'; reflexivity|done].
Qed.
End Area.

(** * All scratch areas *)

Definition area_of (i : Z) : Z := fw_end + (hart_count the_platform - i) * hart_stack_size the_platform - SBI_SCRATCH_SIZE.
Definition fill_from (x : Z) (s : st) (i n : Z) : st := foldl (fun s i => fill (area_of i) x s) s (seqZ i n).

Lemma area_bounds i : image_ok -> 0 <= i < hart_count the_platform ->
  fw_end <= area_of i /\ area_of i + SBI_SCRATCH_SIZE <= fw_end + hart_count the_platform * hart_stack_size the_platform < 2 ^ 63.
Proof. intros [_ _ Ht Hz _] Hi. unfold area_of, SBI_SCRATCH_SIZE in *. nia. Qed.

Lemma area_is_scratch h i : image_ok -> 0 <= i < hart_count the_platform -> area_of i = _hartid_to_scratch h i.
Proof. intros Hok Hi. symmetry. apply u64_of. pose proof (area_bounds i Hok Hi). pose proof (pl_fits (im_plat Hok)). unfold area_of, SBI_SCRATCH_SIZE in *. lia. Qed.

Lemma fill_other area x s a : ~ (area <= a < area + 80) -> mem_val (fill area x s) a = mem_val s a.
Proof.
  intros Ha. apply stores_other. rewrite map_map. cbn [fst scratch_cells map]. rewrite !not_elem_of_cons. repeat split; try apply not_elem_of_nil; cbn; intros ->; apply Ha;
    unfold SBI_SCRATCH_FW_START_OFFSET, SBI_SCRATCH_FW_SIZE_OFFSET, SBI_SCRATCH_NEXT_ARG1_OFFSET, SBI_SCRATCH_NEXT_ADDR_OFFSET, SBI_SCRATCH_NEXT_MODE_OFFSET, SBI_SCRATCH_WARMBOOT_ADDR_OFFSET, SBI_SCRATCH_PLATFORM_ADDR_OFFSET, SBI_SCRATCH_HARTID_TO_SCRATCH_OFFSET, SBI_SCRATCH_TMP0_OFFSET, SBI_SCRATCH_OPTIONS_OFFSET; lia.
Qed.

Lemma fill_cell area x s off v : (off, v) ∈ scratch_cells x s -> mem_val (fill area x s) (area + off) = v.
Proof.
  intros Hin. apply stores_lookup.
  - rewrite map_map. cbn [fst]. rewrite <- (map_map fst (fun o => area + o)). assert (Inj (=) (=) (fun o => area + o)) by (intros a b E; lia). apply NoDup_fmap_2; [done|]. cbn. in_list.
  - apply list_elem_of_In, (in_map (fun c => (area + c.1, c.2)) _ (off, v)). by apply list_elem_of_In.
Qed.

Lemma cells_agree x s s' : agree s s' -> scratch_cells x s = scratch_cells x s'.
Proof.
  intros Ha. unfold scratch_cells. by rewrite (next_arg1_below x s s'), (next_addr_below x s s'), (next_mode_below x s s'), (options_below x s s').
Qed.

Lemma fill_agree area x s : fw_end <= area -> agree s (fill area x s).
Proof. intros Ha a Hlt. symmetry. apply fill_other. lia. Qed.

(** The areas from index [i] on have their fields, and nothing else changes. *)
Lemma fill_from_spec x n : image_ok -> forall i s, 0 <= i -> i + Z.of_nat n <= hart_count the_platform ->
  let s' := fill_from x s i (Z.of_nat n) in agree s s' /\
  (forall j off v, i <= j < i + Z.of_nat n -> (off, v) ∈ scratch_cells x s -> mem_val s' (area_of j + off) = v) /\
  (forall a, (forall j, i <= j < i + Z.of_nat n -> ~ (area_of j <= a < area_of j + 80)) -> mem_val s' a = mem_val s a).
Proof.
  intros Hok. induction n as [|n IH]; intros i s Hi Hn; [split; [by intros a _|]; split; [intros; lia|done]|].
  unfold fill_from. rewrite seqZ_cons by lia. cbn [foldl]. replace (Z.pred (Z.of_nat (S n))) with (Z.of_nat n) by lia. fold (fill_from x (fill (area_of i) x s) (Z.succ i) (Z.of_nat n)).
  destruct (IH (Z.succ i) (fill (area_of i) x s)) as (IA & IC & IO); [lia|lia|]. cbv zeta in *.
  destruct (area_bounds i Hok) as [Hb _]; [lia|]. pose proof (fill_agree (area_of i) x s Hb) as Ha.
  assert (Hdis : forall j, i < j < hart_count the_platform -> area_of j + 80 <= area_of i) by (intros j Hj; pose proof (im_size Hok); unfold area_of, SBI_SCRATCH_SIZE in *; nia).
  split; [|split].
  - intros a Hlt. rewrite (Ha a Hlt). by apply IA.
  - intros j off v Hj Hin. destruct (Z.eq_dec j i) as [->|Hne]; [|apply IC; [lia|]; by rewrite <- (cells_agree x s)].
    assert (Ho : 0 <= off < 80) by (revert Hin; unfold scratch_cells; rewrite !elem_of_cons; intros Hin; repeat destruct Hin as [[= -> ->]|Hin]; try done; by apply not_elem_of_nil in Hin).
    rewrite IO; [by apply fill_cell|]. intros j' Hj'. pose proof (Hdis j' ltac:(lia)). lia.
  - intros a Hout. rewrite IO by (intros j Hj; apply Hout; lia). apply fill_other, Hout. lia.
Qed.

Definition init_regs : list Z := tp :: t1 :: field_regs.

(** [add tp t3; mul a5 s8 t1; sub; li a5; sub]. *)
Lemma area_addr i : image_ok -> 0 <= i < hart_count the_platform ->
  u64 (u64 (u64 (fw_end + hart_count the_platform * hart_stack_size the_platform + 0) - u64 (hart_stack_size the_platform * i)) - u64 SBI_SCRATCH_SIZE) = area_of i.
Proof.
  intros Hok Hi. pose proof (area_bounds i Hok Hi) as [H1' H2']. pose proof (pl_fits (im_plat Hok)). pose proof (pl_size (im_plat Hok)) as Hz. unfold fits in Hz.
  assert (Hm : 0 <= hart_stack_size the_platform * i <= hart_count the_platform * hart_stack_size the_platform) by nia.
  assert (E : (hart_count the_platform - i) * hart_stack_size the_platform = hart_count the_platform * hart_stack_size the_platform - hart_stack_size the_platform * i) by ring.
  unfold area_of in *. rewrite E in *. change (u64 SBI_SCRATCH_SIZE) with SBI_SCRATCH_SIZE in *. unfold SBI_SCRATCH_SIZE in *. rewrite (u64_of (_ + 0)), (u64_of (_ * i)) by lia. rewrite (u64_of (_ - _ * i)) by lia. rewrite u64_of by lia. lia.
Qed.

Lemma scratch_init_eq n : image_ok -> forall fuel i r s, (n < fuel)%nat -> 0 <= i -> i + Z.of_nat n + 1 = hart_count the_platform ->
  rget r t1 = i -> rget r t2 = 1 -> rget r t3 = fw_end + hart_count the_platform * hart_stack_size the_platform ->
  rget r s7 = hart_count the_platform -> rget r s8 = hart_stack_size the_platform -> args_fit r ->
  exists r', _scratch_init fuel r s = Ret (tt, r') (fill_from (r a1) s i (Z.of_nat n + 1)) /\ keeps init_regs r r'.
Proof.
  intros Hok. pose proof (pl_count (im_plat Hok)) as Hc. induction n as [|n IH]; intros [|fuel] i r s Hfu Hi Hn E1 E2 E3 E7 E8 Ha; try lia; cbn [_scratch_init]; do 5 astep;
    change (rget r zero) with 0; rewrite E1, E3, E8, (area_addr i Hok) by lia; destruct (area_bounds i Hok) as [Hb1 Hb2]; try lia;
    match goal with |- context [(scratch_fields ≫= _) ?x _] => set (r1 := x) end;
    assert (K1 : keeps init_regs r r1) by (unfold r1; keeps);
    (assert (Ha1 : args_fit r1) by exact Ha);
    (destruct (scratch_fields_eq Hok (area_of i) r1 s) as (r2 & F & K2); [done|unfold SBI_SCRATCH_SIZE in *; lia|reflexivity|done|exact E7|exact E8|]);
    rewrite (abind _ _ _ _ _ _ _ F); change (r1 a1) with (r a1); do 2 astep;
    rewrite (keeps_get _ _ _ t1 K2), (keeps_get _ _ _ t2 K2), (keeps_get _ _ _ s7 K2) by in_list; change (rget r1 t1) with (rget r t1); change (rget r1 t2) with (rget r t2); change (rget r1 s7) with (rget r s7);
    rewrite E1, E2, E7, (u64_of (i + 1)), !s64_small by lia; set (r3 := rset t1 (i + 1) r2);
    assert (K3 : keeps init_regs r r3) by (unfold r3; keeps; apply (keeps_trans _ _ r1); [done|]; by apply (keeps_sub field_regs); [in_list|]).
  - rewrite (proj2 (Z.ltb_ge _ _)) by lia. exists r3. split; [reflexivity|done].
  - rewrite (proj2 (Z.ltb_lt _ _)) by lia.
    destruct (IH fuel (i + 1) r3 (fill (area_of i) (r a1) s)) as (r' & E & K); try lia; try reflexivity;
      try (unfold r3; rsimp; rewrite (keeps_get _ _ _ _ K2) by in_list; assumption).
    + unfold args_fit. rewrite !K3 by in_list. exact Ha.
    + exists r'. split; [|by apply (keeps_trans _ _ r3)]. rewrite E, (K3 a1) by in_list. f_equal. unfold fill_from. rewrite (seqZ_cons i) by lia. cbn [foldl].
      f_equal. f_equal; lia.
Qed.

Lemma fill_from_only_mem x n : forall i s, exists m, fill_from x s i (Z.of_nat n) = set_mem (fun _ => m) s.
Proof.
  induction n as [|n IH]; intros i s; [by exists (mem s); destruct s|]. unfold fill_from. rewrite seqZ_cons by lia. cbn [foldl]. replace (Z.pred (Z.of_nat (S n))) with (Z.of_nat n) by lia.
  fold (fill_from x (fill (area_of i) x s) (Z.succ i) (Z.of_nat n)). destruct (stores_mem (map (fun c => (area_of i + c.1, c.2)) (scratch_cells x s)) s) as [m Em].
  destruct (IH (Z.succ i) (fill (area_of i) x s)) as [m' E]. exists m'. rewrite E. unfold fill. by rewrite Em.
Qed.

(** The registers when the loop is entered. *)
Record init_entry (r : regs) : Prop := mkEntry {
  en_t1 : rget r t1 = 0;
  en_t2 : rget r t2 = 1;
  en_t3 : rget r t3 = fw_end + hart_count the_platform * hart_stack_size the_platform;
  en_s7 : rget r s7 = hart_count the_platform;
  en_s8 : rget r s8 = hart_stack_size the_platform;
  en_args : args_fit r
}.

(** C9: The loop over the harts.  Every hart of the platform has in its scratch
    area, at the address that the C code computes for it, the bounds of the
    firmware, the argument, address and mode of the next stage as the variant
    gives them, the entry points and the options; memory outside the stacks is
    as it was. *)
Theorem scratch_init_correct r s : image_ok -> init_entry r ->
  exists r' m, let s' := set_mem (fun _ => m) s in
    _scratch_init (S (Z.to_nat (hart_count the_platform))) r s = Ret (tt, r') s' /\ keeps init_regs r r' /\
    (forall h off v, 0 <= h -> sbi_platform_hart_invalid (Some the_platform) h = false -> (off, v) ∈ scratch_cells (r a1) s ->
       mem_val s' (_hartid_to_scratch h (sbi_platform_hart_index (Some the_platform) h) + off) = v) /\
    (forall a, a < fw_end \/ fw_end + hart_count the_platform * hart_stack_size the_platform <= a -> mem_val s' a = mem_val s a).
Proof.
  intros Hok [E1 E2 E3 E7 E8 Ha]. pose proof (pl_count (im_plat Hok)) as Hc. set (n := Z.to_nat (hart_count the_platform - 1)).
  destruct (scratch_init_eq n Hok (S (Z.to_nat (hart_count the_platform))) 0 r s) as (r' & E & K); try done; [unfold n; lia..|].
  replace (Z.of_nat n + 1) with (Z.of_nat (S n)) in E by lia. destruct (fill_from_only_mem (r a1) (S n) 0 s) as [m Em]. exists r', m. cbv zeta. rewrite <- Em.
  destruct (fill_from_spec (r a1) (S n) Hok 0 s) as (_ & HC & HO); [lia|unfold n; lia|]. cbv zeta in HC, HO. split; [exact E|]. split; [done|]. split.
  - intros h off v Hh Hv Hin. destruct (hart_index_valid the_platform h) as [Hi _]; [done|lia|done|]. rewrite <- area_is_scratch by done. apply HC; [unfold n; lia|done].
  - intros a Hout. apply HO. intros j Hj Hin. destruct (area_bounds j Hok) as [Hb1 Hb2]; [unfold n in *; lia|]. unfold SBI_SCRATCH_SIZE in *. lia.
Qed.
End Fill.

(** The two harts of FwBoot, with a next stage to jump to. *)
Lemma jump_addr_below : @cell_at demo_image "_jump_addr" < @fw_end duo_platform.
Proof. reflexivity. Qed.
Definition duo_jump : @VariantOk duo_platform (@fw_jump demo_image (Some 0x82200000)) := @fw_jump_ok duo_platform demo_image (Some 0x82200000) jump_addr_below.
Lemma duo_image_ok : @image_ok duo_platform demo_image.
Proof.
  constructor; [apply duo_platform_ok|in_list|in_list|in_list|]. apply (Forall_forall (fun l => 0 <= @sym demo_image l < 2 ^ 63)). in_list.
Qed.
Definition init_demo_regs : regs := fun x => if x =? t2 then 1 else if x =? t3 then 0x80024000 else if x =? s7 then 2 else if x =? s8 then 8192 else if x =? a1 then 0x81000000 else 0.

Lemma scratch_init_correct_witness :
  exists r' s', @_scratch_init demo_image (@fw_jump demo_image (Some 0x82200000)) demo_runtime 3 init_demo_regs (loaded_st 0x80000000) = Ret (tt, r') s' /\
    mem_val s' (0x80023000 + SBI_SCRATCH_NEXT_ARG1_OFFSET) = 0x82200000 /\ mem_val s' (0x80021000 + SBI_SCRATCH_NEXT_ADDR_OFFSET) = 0x80200000.
Proof.
  destruct (@scratch_init_correct duo_platform demo_image (@fw_jump demo_image (Some 0x82200000)) demo_runtime duo_jump init_demo_regs (loaded_st 0x80000000) duo_image_ok) as (r' & m & E & _ & HC & _).
  - constructor; [reflexivity..|]. unfold args_fit, fits. cbn. lia.
  - eexists r', _. split; [exact E|]. cbv zeta in HC. split.
    + apply (HC 1 SBI_SCRATCH_NEXT_ARG1_OFFSET 0x82200000); [lia|reflexivity|in_list].
    + apply (HC 4 SBI_SCRATCH_NEXT_ADDR_OFFSET 0x80200000); [lia|reflexivity|in_list].
Defined.
