(* ===== verification/Serial.v ===== *)
(** The serial drivers: lib/utils/serial/uart8250.c, sifive-uart.c and
    shakti-uart.c.

    A driver's file-level variables are variables of the firmware state; its
    device is reached through the register accessors, whose record of accesses
    is what the theorems speak of. *)

From Stdlib Require Import String.
From S2P Require Import Prelude Encoding Machine.

(** * What the devices have been told *)

(** The value last written to a register, from the record of accesses. *)
Fixpoint last_write (evs : list event) (a : Z) : option Z :=
  match evs with
  | [] => None
  | e :: evs =>
      match last_write evs a with
      | Some v => Some v
      | None => match e with EvWrite _ b v => if a =? b then Some v else None | _ => None end
      end
  end.

Lemma last_write_app evs evs' a :
  last_write (evs ++ evs') a = match last_write evs' a with Some v => Some v | None => last_write evs a end.
Proof.
  induction evs as [|e evs IH]; simpl; [by destruct (last_write evs' a)|]. rewrite IH. by destruct (last_write evs' a).
Qed.

(** * uart8250.c *)

Definition UART_RBR_OFFSET : Z := 0.
Definition UART_THR_OFFSET : Z := 0.
Definition UART_DLL_OFFSET : Z := 0.
Definition UART_IER_OFFSET : Z := 1.
Definition UART_DLM_OFFSET : Z := 1.
Definition UART_FCR_OFFSET : Z := 2.
Definition UART_LCR_OFFSET : Z := 3.
Definition UART_MCR_OFFSET : Z := 4.
Definition UART_LSR_OFFSET : Z := 5.
Definition UART_SCR_OFFSET : Z := 7.
Definition UART_LSR_THRE : Z := 32.
Definition UART_LSR_DR : Z := 1.

Section Uart8250.
Context `{Hardware}.

Definition uart8250_get_reg (num : Z) : M Z :=
  shift ← getg "uart8250_reg_shift";
  width ← getg "uart8250_reg_width";
  base ← getg "uart8250_base";
  let offset := u32 (Z.shiftl num shift) in
  if width =? 1 then readb (base + offset)
  else if width =? 2 then readw (base + offset)
  else readl (base + offset).

Definition uart8250_set_reg (num val : Z) : M unit :=
  shift ← getg "uart8250_reg_shift";
  width ← getg "uart8250_reg_width";
  base ← getg "uart8250_base";
  let offset := u32 (Z.shiftl num shift) in
  if width =? 1 then writeb val (base + offset)
  else if width =? 2 then writew val (base + offset)
  else writel val (base + offset).

Definition uart8250_putc (ch : Z) : M unit :=
  poll (v ← uart8250_get_reg UART_LSR_OFFSET;
        mret (if v .& UART_LSR_THRE =? 0 then None else Some tt));;
  uart8250_set_reg UART_THR_OFFSET ch.

(** The register value becomes an [int]. *)
Definition uart8250_getc : M Z :=
  v ← uart8250_get_reg UART_LSR_OFFSET;
  if nz (v .& UART_LSR_DR) then v ← uart8250_get_reg UART_RBR_OFFSET; mret (s32 v) else mret (-1).

(** Division by zero is undefined. *)
Definition uart8250_init (base in_freq baudrate reg_shift reg_width : Z) : M Z :=
  setg "uart8250_base" base;;
  setg "uart8250_reg_shift" reg_shift;;
  setg "uart8250_reg_width" reg_width;;
  setg "uart8250_in_freq" in_freq;;
  setg "uart8250_baudrate" baudrate;;
  if u32 (16 * baudrate) =? 0 then exits XUndef
  else
    let bdiv := u16 (in_freq / u32 (16 * baudrate)) in
    uart8250_set_reg UART_IER_OFFSET 0;;
    uart8250_set_reg UART_LCR_OFFSET 128;;
    when (nz bdiv)
      (uart8250_set_reg UART_DLL_OFFSET (bdiv .& 255);;
       uart8250_set_reg UART_DLM_OFFSET (Z.shiftr bdiv 8 .& 255));;
    uart8250_set_reg UART_LCR_OFFSET 3;;
    uart8250_set_reg UART_FCR_OFFSET 1;;
    uart8250_set_reg UART_MCR_OFFSET 0;;
    uart8250_get_reg UART_LSR_OFFSET;;
    uart8250_get_reg UART_RBR_OFFSET;;
    uart8250_set_reg UART_SCR_OFFSET 0;;
    mret 0.
End Uart8250.

(** * sifive-uart.c *)

Definition SIFIVE_TXFIFO : Z := 0.
Definition SIFIVE_RXFIFO : Z := 1.
Definition SIFIVE_TXCTRL : Z := 2.
Definition SIFIVE_RXCTRL : Z := 3.
Definition SIFIVE_IE : Z := 4.
Definition SIFIVE_DIV : Z := 6.
Definition UART_TXFIFO_FULL : Z := 2147483648.
Definition UART_RXFIFO_EMPTY : Z := 2147483648.
Definition UART_RXFIFO_DATA : Z := 255.

Section SifiveUart.
Context `{Hardware}.

(** The arguments are 64 bits wide, the result 32. *)
Definition uart_min_clk_divisor (in_freq max_target_hz : Z) : Z :=
  let quotient := u64 (in_freq + max_target_hz - 1) / max_target_hz in
  if quotient =? 0 then 0 else u32 (quotient - 1).

Definition sifive_get_reg (num : Z) : M Z := base ← getg "sifive_uart_base"; readl (base + u32 (num * 4)).
Definition sifive_set_reg (num val : Z) : M unit := base ← getg "sifive_uart_base"; writel val (base + u32 (num * 4)).

Definition sifive_uart_putc (ch : Z) : M unit :=
  poll (v ← sifive_get_reg SIFIVE_TXFIFO;
        mret (if nz (v .& UART_TXFIFO_FULL) then None else Some tt));;
  sifive_set_reg SIFIVE_TXFIFO ch.

Definition sifive_uart_getc : M Z :=
  ret ← sifive_get_reg SIFIVE_RXFIFO;
  mret (if nz (ret .& UART_RXFIFO_EMPTY) then -1 else ret .& UART_RXFIFO_DATA).

Definition sifive_uart_init (base in_freq baudrate : Z) : M Z :=
  setg "sifive_uart_base" base;;
  setg "sifive_uart_in_freq" in_freq;;
  setg "sifive_uart_baudrate" baudrate;;
  (if nz in_freq then
     if baudrate =? 0 then exits XUndef
     else sifive_set_reg SIFIVE_DIV (uart_min_clk_divisor in_freq baudrate)
   else mret tt);;
  sifive_set_reg SIFIVE_IE 0;;
  sifive_set_reg SIFIVE_TXCTRL 1;;
  sifive_set_reg SIFIVE_RXCTRL 1;;
  mret 0.
End SifiveUart.

(** * shakti-uart.c *)

Definition REG_BAUD : Z := 0.
Definition REG_TX : Z := 4.
Definition REG_RX : Z := 8.
Definition REG_STATUS : Z := 12.

Section ShaktiUart.
Context `{Hardware}.

Definition shakti_uart_putc (ch : Z) : M unit :=
  base ← getg "shakti_uart_base";
  poll (v ← readw (base + REG_STATUS); mret (if v .& 2 =? 0 then None else Some tt));;
  writeb ch (base + REG_TX).

Definition shakti_uart_getc : M Z :=
  base ← getg "shakti_uart_base";
  status ← readw (base + REG_STATUS);
  if nz (status .& 8) then readb (base + REG_RX) else mret (-1).

Definition shakti_uart_init (base in_freq baudrate : Z) : M Z :=
  setg "shakti_uart_base" base;;
  if u32 (16 * baudrate) =? 0 then exits XUndef
  else writew (u16 (in_freq / u32 (16 * baudrate))) (base + REG_BAUD);; mret 0.
End ShaktiUart.

(** * The contract of a driver *)

(** The status register says [ready] at the [k]-th look, the other harts and
    the devices acting between two looks. *)
Fixpoint ready_after `{Hardware} (status : M Z) (ready : Z -> bool) (k : nat) (s s1 : st) : Prop :=
  match k with
  | O => exists v, status s = Ret v s1 /\ ready v = true
  | S k => exists v s0, status s = Ret v s0 /\ ready v = false /\
             ready_after status ready k (tick (interfere (ticks s0) s0)) s1
  end.

(** The last access was a read of the register at [source], and [r] is the low
    byte of what the device answered. *)
Definition byte_from (source : Z * Z) (r : Z) (s : st) : Prop :=
  exists v, last (events s) = Some (EvRead source.1 source.2 v) /\ r = u8 v.

(** What the console expects of a driver in a state [ok] that its
    initialisation sets up, with a device that keeps to its registers:
    reading always answers, with -1 or with the byte that the receive register
    [source] held; and sending returns exactly when the device gets ready
    within the turns that are looked at, having written the character once, to
    the transmit register [dest], right after that look. *)
Class SerialDriver `{Hardware} (ok : st -> Prop) (source : st -> Z * Z) (status : st -> M Z) (ready : Z -> bool)
    (dest : st -> st -> Z * Z) (putc : Z -> M unit) (getc : M Z) : Prop := {
  getc_byte s : ok s -> exists r s', getc s = Ret r s' /\ (r = -1 \/ byte_from (source s) r s');
  putc_sends ch s s' : putc ch s = Ret tt s' <->
    exists k s1, (k < polls)%nat /\ ready_after (status s) ready k s s1 /\
      let '(w, a) := dest s s1 in s' = add_event (EvWrite w a (wrap (8 * w) ch)) s1
}.

Section Contract.
Context `{Hardware}.

Lemma bind_ret_inv {A B} (m : M A) (f : A -> M B) s b s' :
  (m ≫= f) s = Ret b s' -> exists a s1, m s = Ret a s1 /\ f a s1 = Ret b s'.
Proof. unfold mbind, M_bind. destruct (m s); [eauto|done]. Qed.

(** A wait for a register ends when the register is found ready. *)
Lemma wait_ready_iff (status : M Z) (test : Z -> option unit) (ready : Z -> bool) n s s1 :
  (forall v, test v = if ready v then Some tt else None) -> (forall s, exists v s', status s = Ret v s') ->
  wait_until n (v ← status; mret (test v)) s = Ret tt s1 <-> exists k, (k < n)%nat /\ ready_after status ready k s s1.
Proof.
  intros Ht Hst. revert s. induction n as [|n IH]; intros s; simpl; [split; [done|intros (? & ? & _); lia]|].
  destruct (Hst s) as (v & s0 & E). unfold mbind, M_bind. rewrite E. unfold mret, M_ret. rewrite Ht.
  destruct (ready v) eqn:Er.
  - split; [intros [= ->]; exists O; split; [lia|]; by exists v|]. intros ([|k] & Hk & Ha); simpl in Ha.
    + destruct Ha as (v' & E' & _). congruence.
    + destruct Ha as (v' & s0' & E' & Hn & _). congruence.
  - unfold others_act, modify. etrans; [apply IH|]. split.
    + intros (k & Hk & Ha). exists (S k). split; [lia|]. by exists v, s0.
    + intros ([|k] & Hk & Ha); simpl in Ha.
      * destruct Ha as (v' & E' & Hr). congruence.
      * destruct Ha as (v' & s0' & E' & _ & Ha). exists k. split; [lia|]. congruence.
Qed.

(** Sending: wait, then write. *)
Lemma putc_iff (status : M Z) (test : Z -> option unit) (ready : Z -> bool) (dest : st -> Z * Z) (wr : M unit) ch s s' :
  (forall v, test v = if ready v then Some tt else None) -> (forall s, exists v s', status s = Ret v s') ->
  (forall s1, wr s1 = Ret tt (let '(w, a) := dest s1 in add_event (EvWrite w a (wrap (8 * w) ch)) s1)) ->
  (poll (v ← status; mret (test v));; wr) s = Ret tt s' <->
  exists k s1, (k < polls)%nat /\ ready_after status ready k s s1 /\
    let '(w, a) := dest s1 in s' = add_event (EvWrite w a (wrap (8 * w) ch)) s1.
Proof.
  intros Ht Hst Hw. split.
  - intros ([] & s1 & Hp & E)%bind_ret_inv. apply (wait_ready_iff _ _ _ _ _ _ Ht Hst) in Hp as (k & Hk & Ha).
    exists k, s1. split; [done|]. split; [done|]. rewrite Hw in E. destruct (dest s1). by simplify_eq.
  - intros (k & s1 & Hk & Ha & E). rewrite (bind_ret_eq _ _ _ tt s1).
    + rewrite Hw. destruct (dest s1). by subst.
    + apply (wait_ready_iff _ _ _ _ _ _ Ht Hst). eauto.
Qed.

(** The variables the register accessors use are not changed by accesses. *)
Lemma getg_bind {A} x (f : Z -> M A) s : (getg x ≫= f) s = f (gval s x) s.
Proof. done. Qed.

(** Where the 8250 driver finds a register: width of the access and address. *)
Definition reg8250 (num : Z) (s : st) : Z * Z :=
  let w := gval s "uart8250_reg_width" in
  (if w =? 1 then 1 else if w =? 2 then 2 else 4, gval s "uart8250_base" + u32 (Z.shiftl num (gval s "uart8250_reg_shift"))).

Lemma uart8250_get_reg_eq num s : let '(w, a) := reg8250 num s in
  let v := wrap (8 * w) (dev_read (events s) w a) in uart8250_get_reg num s = Ret v (add_event (EvRead w a v) s).
Proof. unfold reg8250, uart8250_get_reg. rewrite !getg_bind. destruct (_ =? 1); [done|]. by destruct (_ =? 2). Qed.

Lemma uart8250_set_reg_eq num v s :
  uart8250_set_reg num v s = Ret tt (let '(w, a) := reg8250 num s in add_event (EvWrite w a (wrap (8 * w) v)) s).
Proof. unfold reg8250, uart8250_set_reg. rewrite !getg_bind. destruct (_ =? 1); [done|]. by destruct (_ =? 2). Qed.

Lemma byte_from_read w a v r s : r = u8 v -> byte_from (w, a) r (add_event (EvRead w a v) s).
Proof. intros ->. exists v. split; [|done]. simpl. apply last_snoc. Qed.

#[global] Instance sifive_driver :
  SerialDriver (fun _ => True) (fun s => (4, gval s "sifive_uart_base" + u32 (SIFIVE_RXFIFO * 4))) (fun _ => sifive_get_reg SIFIVE_TXFIFO) (fun v => negb (nz (v .& UART_TXFIFO_FULL)))
    (fun _ s => (4, gval s "sifive_uart_base" + u32 (SIFIVE_TXFIFO * 4))) sifive_uart_putc sifive_uart_getc.
Proof.
  split.
  - intros s _. eexists _, _. split; [reflexivity|]. destruct (nz _); [by left|]. right.
    apply byte_from_read. change UART_RXFIFO_DATA with (Z.ones 8). by rewrite Z.land_ones by lia.
  - intros ch s s'. apply (putc_iff _ _ _ (fun s => (4, gval s "sifive_uart_base" + u32 (SIFIVE_TXFIFO * 4)))).
    + intros v. by destruct (nz _).
    + intros s0. eexists _, _. reflexivity.
    + done.
Qed.

#[global] Instance shakti_driver :
  SerialDriver (fun _ => True) (fun s => (1, gval s "shakti_uart_base" + REG_RX)) (fun s => readw (gval s "shakti_uart_base" + REG_STATUS)) (fun v => negb (v .& 2 =? 0))
    (fun s _ => (1, gval s "shakti_uart_base" + REG_TX)) shakti_uart_putc shakti_uart_getc.
Proof.
  split.
  - intros s _. unfold shakti_uart_getc. rewrite getg_bind. repeat mstep. destruct (nz _).
    + eexists _, _. split; [reflexivity|]. right. apply byte_from_read. symmetry. by apply wrap_wrap.
    + eexists _, _. split; [reflexivity|]. by left.
  - intros ch s s'. unfold shakti_uart_putc. rewrite getg_bind.
    apply (putc_iff _ _ _ (fun _ => (1, gval s "shakti_uart_base" + REG_TX))).
    + intros v. by destruct (_ =? 0).
    + intros s0. eexists _, _. reflexivity.
    + done.
Qed.

(** The registers of the device are bytes: however wide the access, the upper
    bits of what the receive register answers are zero. *)
Definition byte_registers (s : st) : Prop :=
  let '(w, a) := reg8250 UART_RBR_OFFSET s in forall evs, fits 8 (wrap (8 * w) (dev_read evs w a)).

Lemma byte_registers_narrow s : gval s "uart8250_reg_width" = 1 -> byte_registers s.
Proof. intros E. unfold byte_registers, reg8250. rewrite E. simpl. intros. by apply wrap_fits. Qed.

Lemma s32_byte v : fits 8 v -> s32 v = u8 v.
Proof.
  intros Hv. unfold s32, signed, u8. rewrite !wrap_small by (unfold fits in *; lia).
  by rewrite (proj2 (Z.ltb_lt _ _)) by (unfold fits in *; lia).
Qed.

#[global] Instance uart8250_driver :
  SerialDriver byte_registers (reg8250 UART_RBR_OFFSET) (fun _ => uart8250_get_reg UART_LSR_OFFSET)
    (fun v => negb (v .& UART_LSR_THRE =? 0)) (fun _ => reg8250 UART_THR_OFFSET) uart8250_putc uart8250_getc.
Proof.
  split.
  - intros s Hw. unfold uart8250_getc.
    pose proof (uart8250_get_reg_eq UART_LSR_OFFSET s) as E. destruct (reg8250 UART_LSR_OFFSET s) as [w a].
    rewrite (bind_ret_eq _ _ _ _ _ E). destruct (nz _); [|eexists _, _; split; [reflexivity|by left]].
    match goal with |- context [(_ ≫= _) ?x] => set (s1 := x) end.
    pose proof (uart8250_get_reg_eq UART_RBR_OFFSET s1) as E1. unfold byte_registers in Hw.
    change (reg8250 UART_RBR_OFFSET s1) with (reg8250 UART_RBR_OFFSET s) in E1.
    destruct (reg8250 UART_RBR_OFFSET s) as [w1 a1]. rewrite (bind_ret_eq _ _ _ _ _ E1).
    eexists _, _. split; [reflexivity|]. right. by apply byte_from_read, s32_byte.
  - intros ch s s'. apply (putc_iff _ _ _ (reg8250 UART_THR_OFFSET)).
    + intros v. by destruct (_ =? 0).
    + intros s0. pose proof (uart8250_get_reg_eq UART_LSR_OFFSET s0) as E. destruct (reg8250 _ _). eauto.
    + intros s1. apply uart8250_set_reg_eq.
Qed.
End Contract.

(** * The divisors *)

Lemma min_clk_divisor_eq f hz :
  0 < f -> 0 < hz -> f + hz - 1 < 2 ^ 64 -> f <= hz * 2 ^ 32 ->
  uart_min_clk_divisor f hz = (f - 1) / hz.
Proof.
  intros Hf Hh Ho Hq. unfold uart_min_clk_divisor. unfold u64. rewrite wrap_small by (unfold fits; lia).
  replace (f + hz - 1) with (1 * hz + (f - 1)) by lia. rewrite Z.div_add_l by lia.
  assert (0 <= (f - 1) / hz < 2 ^ 32) by (split; [apply Z.div_pos; lia|apply Z.div_lt_upper_bound; lia]).
  replace (1 + (f - 1) / hz =? 0) with false by lia. unfold u32. rewrite wrap_small by (unfold fits; lia). lia.
Qed.

(** A 16550 as the driver sees it: two registers share an address with the
    divisor latch, selected by the top bit of the line control register. *)
Record uart_regs : Type := mkUart { dll : Z; dlm : Z; ier : Z; lcr : Z; fcr : Z; mcr : Z; scr : Z; thr : list Z }.

Definition dev8250 (base shift : Z) (r : uart_regs) (e : event) : uart_regs :=
  match e with
  | EvWrite _ a v =>
      let dlab := Z.testbit (lcr r) 7 in
      let off := Z.shiftr (a - base) shift in
      if off =? 0 then if dlab then mkUart v (dlm r) (ier r) (lcr r) (fcr r) (mcr r) (scr r) (thr r)
                       else mkUart (dll r) (dlm r) (ier r) (lcr r) (fcr r) (mcr r) (scr r) (thr r ++ [v])
      else if off =? 1 then if dlab then mkUart (dll r) v (ier r) (lcr r) (fcr r) (mcr r) (scr r) (thr r)
                            else mkUart (dll r) (dlm r) v (lcr r) (fcr r) (mcr r) (scr r) (thr r)
      else if off =? 2 then mkUart (dll r) (dlm r) (ier r) (lcr r) v (mcr r) (scr r) (thr r)
      else if off =? 3 then mkUart (dll r) (dlm r) (ier r) v (fcr r) (mcr r) (scr r) (thr r)
      else if off =? 4 then mkUart (dll r) (dlm r) (ier r) (lcr r) (fcr r) v (scr r) (thr r)
      else if off =? 7 then mkUart (dll r) (dlm r) (ier r) (lcr r) (fcr r) (mcr r) v (thr r)
      else r
  | _ => r
  end.

Section Init8250.
Context `{Hardware}.

(** The driver's variables, as [uart8250_init] sets them. *)
Definition uart8250_set (s : st) (base shift width : Z) : Prop :=
  gval s "uart8250_base" = base /\ gval s "uart8250_reg_shift" = shift /\ gval s "uart8250_reg_width" = width.

(** A register access of the driver, as the device sees it. *)
Lemma set_reg_event s base shift width num v :
  uart8250_set s base shift width -> 0 <= shift <= 8 -> 0 <= num < 16 -> fits 8 v ->
  exists w, uart8250_set_reg num v s = Ret tt (add_event (EvWrite w (base + Z.shiftl num shift) v) s).
Proof.
  intros (Hb & Hs & Hw) Hsh Hn Hv. unfold uart8250_set_reg. rewrite !getg_bind, Hb, Hs, Hw.
  assert (Hoff : u32 (Z.shiftl num shift) = Z.shiftl num shift).
  { apply wrap_small. rewrite Z.shiftl_mul_pow2 by lia. pose proof (Z.pow_le_mono_r 2 shift 8). pose proof (Z.pow_pos_nonneg 2 shift).
    unfold fits. nia. }
  rewrite Hoff. assert (Hwr : forall w, w = 1 \/ w = 2 \/ w = 4 -> wrap (8 * w) v = v).
  { intros w Hw'. apply wrap_small. unfold fits in *. destruct Hw' as [-> | [-> | ->]]; simpl; lia. }
  destruct (width =? 1); [|destruct (width =? 2)]; eexists; unfold writeb, writew, writel, __raw_writeb, __raw_writew, __raw_writel, io_write, modify;
    rewrite Hwr by auto; reflexivity.
Qed.

Lemma get_reg_event s num :
  exists w a v, uart8250_get_reg num s = Ret v (add_event (EvRead w a v) s).
Proof.
  unfold uart8250_get_reg. rewrite !getg_bind. destruct (_ =? 1); [|destruct (_ =? 2)]; do 3 eexists; reflexivity.
Qed.
(** One access of the driver in a sequence: the device sees it, and the
    driver's variables stay. *)
Lemma set_reg_step {A} (f : unit -> M A) s base shift width num v :
  uart8250_set s base shift width -> 0 <= shift <= 8 -> 0 <= num < 16 -> fits 8 v ->
  exists w s', (uart8250_set_reg num v ≫= f) s = f tt s' /\ uart8250_set s' base shift width /\
    events s' = events s ++ [EvWrite w (base + Z.shiftl num shift) v].
Proof.
  intros Hs Hsh Hn Hv. destruct (set_reg_event s base shift width num v) as [w E]; [done..|].
  exists w, (add_event (EvWrite w (base + Z.shiftl num shift) v) s). rewrite (bind_ret_eq _ _ _ _ _ E). done.
Qed.
Lemma get_reg_step {A} (f : Z -> M A) s base shift width num :
  uart8250_set s base shift width ->
  exists w a v s', (uart8250_get_reg num ≫= f) s = f v s' /\ uart8250_set s' base shift width /\
    events s' = events s ++ [EvRead w a v].
Proof.
  intros Hs. destruct (get_reg_event s num) as (w & a & v & E).
  exists w, a, v, (add_event (EvRead w a v) s). rewrite (bind_ret_eq _ _ _ _ _ E). done.
Qed.

Lemma dev8250_write base shift r w num v :
  0 <= shift -> 0 <= num ->
  dev8250 base shift r (EvWrite w (base + Z.shiftl num shift) v) = dev8250 0 0 r (EvWrite w num v).
Proof.
  intros Hs Hn. unfold dev8250.
  replace (Z.shiftr (base + Z.shiftl num shift - base) shift) with num; [by rewrite Z.sub_0_r, Z.shiftr_0_r|].
  replace (base + Z.shiftl num shift - base) with (Z.shiftl num shift) by lia.
  by rewrite Z.shiftr_shiftl_l, Z.sub_diag by lia.
Qed.
End Init8250.

Lemma divisor_bytes q : 0 <= q < 2 ^ 16 -> q .& 255 + 256 * (Z.shiftr q 8 .& 255) = q.
Proof.
  intros Hq. change 255 with (Z.ones 8). rewrite !Z.land_ones, Z.shiftr_div_pow2 by lia. change (2 ^ 8) with 256.
  rewrite (Z.mod_small (q / 256)) by (split; [apply Z.div_pos; lia|apply Z.div_lt_upper_bound; lia]).
  pose proof (Z.div_mod q 256 ltac:(lia)). lia.
Qed.

(** * Properties *)

Ltac set_step :=
  rewrite ?bind_assoc;
  match goal with Hs : uart8250_set ?s ?b ?sh ?w |- context [(uart8250_set_reg ?n ?v ≫= ?f) ?s] =>
    destruct (set_reg_step f s b sh w n v Hs) as (? & ? & -> & ? & ?);
    [lia|vm_compute; split; discriminate || reflexivity
    |first [assumption|vm_compute; split; discriminate || reflexivity]|clear Hs]
  end.
Ltac get_step :=
  match goal with Hs : uart8250_set ?s ?b ?sh ?w |- context [(uart8250_get_reg ?n ≫= ?f) ?s] =>
    destruct (get_reg_step f s b sh w n Hs) as (? & ? & ? & ? & -> & ? & ?); clear Hs
  end.

(** [uart8250_init] leaves the device with the divisor of the requested baud
    rate, eight data bits without parity, the queues on, interrupts and modem
    control off, and sends nothing: the two halves of the divisor reach the
    latch and not the registers that share its addresses. *)
Theorem uart8250_init_programs `{Hardware} base in_freq baudrate shift width s r :
  0 <= shift <= 8 -> 0 < baudrate -> 16 * baudrate < 2 ^ 32 -> 0 < in_freq / (16 * baudrate) < 2 ^ 16 ->
  Z.testbit (lcr r) 7 = false ->
  exists s' evs, uart8250_init base in_freq baudrate shift width s = Ret 0 s' /\ events s' = events s ++ evs /\
    let r' := foldl (dev8250 base shift) r evs in
    dll r' + 256 * dlm r' = in_freq / (16 * baudrate) /\ ier r' = 0 /\ lcr r' = 3 /\ fcr r' = 1 /\ mcr r' = 0 /\
    thr r' = thr r.
Proof.
  intros Hsh Hb Hb' Hq Hl. unfold uart8250_init. repeat mstep.
  unfold u32 at 1. rewrite (wrap_small 32 (16 * baudrate)) by (unfold fits; lia). rewrite (proj2 (Z.eqb_neq (16 * baudrate) 0)) by lia.
  set (q := in_freq / (16 * baudrate)) in *. unfold u32. rewrite (wrap_small 32 (16 * baudrate)) by (unfold fits; lia). fold q.
  unfold u16. rewrite (wrap_small 16 q) by (unfold fits; lia). cbv zeta. rewrite (proj2 (nz_true q)) by lia. unfold when.
  match goal with |- context [(_ ≫= _) ?x = _] => set (s0 := x) end.
  assert (Hset : uart8250_set s0 base shift width) by (unfold uart8250_set, s0; by gvals).
  assert (He0 : events s0 = events s) by done. clearbody s0.
  assert (Hlo : fits 8 (q .& 255)). { rewrite Z.land_comm. apply fits_land; [by vm_compute|lia]. }
  assert (Hhi : fits 8 (Z.shiftr q 8 .& 255)). { rewrite Z.land_comm. apply fits_land; [by vm_compute|lia]. }
  do 7 set_step. do 2 get_step. set_step.
  eexists _, _. split; [reflexivity|]. split.
  { repeat match goal with He : events ?x = _ |- context [events ?x] => rewrite He end.
    rewrite <- !app_assoc. reflexivity. }
  cbn [app foldl]. rewrite !dev8250_write by (lia || by vm_compute).
  destruct r as [l0 m0 i0 c0 f0 d0 p0 t0]. cbn [lcr] in Hl.
  match goal with |- context [dev8250 0 0 (mkUart _ _ _ _ _ _ _ _) ?e] =>
    replace (dev8250 0 0 (mkUart l0 m0 i0 c0 f0 d0 p0 t0) e) with (mkUart l0 m0 0 c0 f0 d0 p0 t0)
      by (unfold dev8250; cbn [lcr]; rewrite Hl; reflexivity) end.
  match goal with |- dll ?R + _ = _ /\ _ =>
    replace R with (mkUart (q .& 255) (Z.shiftr q 8 .& 255) 0 3 1 0 0 t0) by reflexivity end.
  cbn [dll dlm ier lcr fcr mcr thr]. split; [|done]. rewrite <- (divisor_bytes q) at 3 by lia. done.
Qed.

Lemma uart8250_init_programs_witness :
  exists s' evs, @uart8250_init plain_hw 0x10000000 3686400 115200 0 1 st0 = Ret 0 s' /\ events s' = evs /\
    dll (foldl (dev8250 0x10000000 0) (mkUart 0 0 0 0 0 0 0 []) evs) = 2.
Proof.
  destruct (@uart8250_init_programs plain_hw 0x10000000 3686400 115200 0 1 st0 (mkUart 0 0 0 0 0 0 0 []))
    as (s' & evs & E & Hev & Hd & _).
  - lia.
  - lia.
  - lia.
  - vm_compute. split; reflexivity.
  - reflexivity.
  - exists s', evs. split; [exact E|]. split; [exact Hev|]. vm_compute in E. injection E as <-. simpl in Hev. subst evs.
    vm_compute. reflexivity.
Defined.

(** The divisor of the SiFive UART is the least one that does not exceed the
    requested rate. *)
Theorem uart_min_clk_divisor_least f hz :
  0 < f -> 0 < hz -> f + hz - 1 < 2 ^ 64 -> f <= hz * 2 ^ 32 ->
  let d := uart_min_clk_divisor f hz in
  0 <= d /\ f <= hz * (d + 1) /\ forall d', 0 <= d' -> f <= hz * (d' + 1) -> d <= d'.
Proof.
  intros Hf Hh Ho Hq d. unfold d. rewrite min_clk_divisor_eq by done.
  pose proof (Z.div_mod (f - 1) hz ltac:(lia)). pose proof (Z.mod_pos_bound (f - 1) hz ltac:(lia)).
  split; [apply Z.div_pos; lia|]. split; [lia|]. intros d' Hd' Hle.
  apply Z.lt_succ_r, Z.div_lt_upper_bound; lia.
Qed.

Lemma uart_min_clk_divisor_least_witness :
  uart_min_clk_divisor 50000000 115200 = 434 /\ 50000000 <= 115200 * (434 + 1).
Proof.
  split; [vm_compute; reflexivity|].
  exact (proj1 (proj2 (uart_min_clk_divisor_least 50000000 115200 eq_refl eq_refl eq_refl ltac:(vm_compute; discriminate)))).
Defined.

(** With upper bits set the 8250 driver answers neither -1 nor a byte. *)
Definition wide_hw : Hardware :=
  Build_Hardware (fun _ _ => true) (fun _ _ v => v) (fun _ => 0)
    (fun _ _ a => if a =? 0x10000014 then 0x61 else 0x5a00041) (fun _ s => s) 4.
Definition wide_state : st :=
  set_glob (fun g => <["uart8250_base"%string := 0x10000000]> (<["uart8250_reg_shift"%string := 2]>
    (<["uart8250_reg_width"%string := 4]> g))) st0.
Example uart8250_getc_wide :
  match @uart8250_getc wide_hw wide_state with Ret r _ => r = 0x5a00041 | Exit _ _ => False end.
Proof. vm_compute. reflexivity. Qed.

(** C36: Every serial driver of the directory gives the console what it relies
    on: a read always answers, with -1 or with the byte that the receive
    register held, and sending a character returns exactly when the device
    gets ready within the turns looked at, the character having gone out once,
    to the transmit register, right after the device said that it could take
    it.  The read of the 8250 driver, which does not mask the register, is
    covered for every access width provided that the device's registers are
    bytes, that is, that the upper bits of a wider access read as zero; at
    width 1 there are none. *)
Theorem serial_drivers_contract `{Hardware} :
  SerialDriver (fun _ => True) (fun s => (4, gval s "sifive_uart_base" + u32 (SIFIVE_RXFIFO * 4)))
    (fun _ => sifive_get_reg SIFIVE_TXFIFO) (fun v => negb (nz (v .& UART_TXFIFO_FULL)))
    (fun _ s => (4, gval s "sifive_uart_base" + u32 (SIFIVE_TXFIFO * 4))) sifive_uart_putc sifive_uart_getc /\
  SerialDriver (fun _ => True) (fun s => (1, gval s "shakti_uart_base" + REG_RX))
    (fun s => readw (gval s "shakti_uart_base" + REG_STATUS)) (fun v => negb (v .& 2 =? 0))
    (fun s _ => (1, gval s "shakti_uart_base" + REG_TX)) shakti_uart_putc shakti_uart_getc /\
  SerialDriver byte_registers (reg8250 UART_RBR_OFFSET) (fun _ => uart8250_get_reg UART_LSR_OFFSET)
    (fun v => negb (v .& UART_LSR_THRE =? 0)) (fun _ => reg8250 UART_THR_OFFSET) uart8250_putc uart8250_getc /\
  forall s, gval s "uart8250_reg_width" = 1 -> byte_registers s.
Proof. split; [apply _|]. split; [apply _|]. split; [apply _|]. apply byte_registers_narrow. Qed.

(** A 16550 behind 32-bit registers four bytes apart, with data and room. *)
Definition byte_hw : Hardware :=
  Build_Hardware (fun _ _ => true) (fun _ _ v => v) (fun _ => 0)
    (fun _ _ a => if a =? 0x10000014 then 0x61 else 0x41) (fun _ s => s) 4.

Lemma serial_drivers_contract_witness :
  @byte_registers byte_hw wide_state /\
  (exists s', @uart8250_getc byte_hw wide_state = Ret 0x41 s') /\
  exists s', @uart8250_putc byte_hw 0x42 wide_state = Ret tt s' /\
    last (events s') = Some (EvWrite 4 0x10000000 0x42).
Proof.
  destruct (@serial_drivers_contract byte_hw) as (_ & _ & D & _).
  assert (Hb : @byte_registers byte_hw wide_state).
  { intros evs. vm_compute. split; discriminate || reflexivity. }
  split; [exact Hb|]. split.
  - destruct (@getc_byte _ _ _ _ _ _ _ _ D wide_state Hb) as (r & s' & E & _). exists s'. rewrite E.
    vm_compute in E. injection E as <- _. reflexivity.
  - eexists. split.
    + apply (@putc_sends _ _ _ _ _ _ _ _ D). exists 0%nat. eexists. split; [vm_compute; lia|].
      split; [exists 0x61; split; vm_compute; reflexivity|]. simpl. reflexivity.
    + vm_compute. reflexivity.
Defined.
