(* ===== verification/Clint.v ===== *)
(** The core-local interruptor: lib/utils/sys/clint.c (and the structure of
    include/sbi_utils/sys/clint.h).

    A [struct clint_data] is a record in the firmware's memory, reached by its
    address; the two tables from harts to their device are file-level arrays.
    The pointers to the access functions are codes. *)

From stdpp Require Import pretty.
From Stdlib Require Import String.
From S2P Require Import Prelude Encoding Bitops Machine Format Platform Hsm Tlb Ipi Serial.

Definition CLINT_TIME_CMP_OFF : Z := 16384.
Definition CLINT_TIME_VAL_OFF : Z := 49144.

(** The fields of [struct clint_data], by their offsets. *)
Definition clint_addr : Z := 0.
Definition clint_first_hartid : Z := 8.
Definition clint_hart_count : Z := 12.
Definition clint_has_64bit_mmio : Z := 16.
Definition clint_ipi : Z := 24.
Definition clint_time_delta_reference : Z := 32.
Definition clint_time_delta_computed : Z := 40.
Definition clint_time_delta : Z := 48.
Definition clint_time_val : Z := 56.
Definition clint_time_cmp : Z := 64.
Definition clint_time_rd : Z := 72.
Definition clint_time_wr : Z := 80.

(** The element of a file-level array. *)
Definition elem (x : string) (i : Z) : string := (x ++ pretty i)%string.

(** Reading or writing outside a table of [SBI_HARTMASK_MAX_BITS] elements is
    undefined. *)
Definition tbl_get (x : string) (i : Z) : M Z :=
  if (0 <=? i) && (i <? SBI_HARTMASK_MAX_BITS) then getg (elem x i) else exits XUndef.
Definition tbl_set (x : string) (i v : Z) : M unit :=
  if (0 <=? i) && (i <? SBI_HARTMASK_MAX_BITS) then setg (elem x i) v else exits XUndef.

Definition ipi_table : string := "clint_ipi_hartid2data".
Definition timer_table : string := "clint_timer_hartid2data".

(** The access functions. *)
Definition CLINT_RW32 : Z := 0.
Definition CLINT_RW64 : Z := 1.

Section Clint.
Context `{Hardware}.

(** ** Inter-processor interrupts *)

(** [clint_ipi_send] and [clint_ipi_clear] differ in the value; the parameter
    is an unsigned 32-bit number. *)
Definition clint_ipi_write (v target_hart : Z) : M unit :=
  let target_hart := u32 target_hart in
  if SBI_HARTMASK_MAX_BITS <=? target_hart then mret tt
  else
    clint ← tbl_get ipi_table target_hart;
    if clint =? 0 then mret tt
    else
      ipi ← load (clint + clint_ipi);
      first ← load (clint + clint_first_hartid);
      writel v (ipi + 4 * u32 (target_hart - first)).

Definition clint_ipi_send (target_hart : Z) : M unit := clint_ipi_write 1 target_hart.
Definition clint_ipi_clear (target_hart : Z) : M unit := clint_ipi_write 0 target_hart.

Definition clint_warm_ipi_init : M Z := h ← current_hartid; clint_ipi_clear h;; mret 0.

Definition tbl_fill (x : string) (clint : Z) : M unit :=
  count ← load (clint + clint_hart_count);
  first ← load (clint + clint_first_hartid);
  for_each (seqZ 0 count) (fun i => tbl_set x (u32 (first + i)) clint).

Definition clint_cold_ipi_init (clint : Z) : M Z :=
  if clint =? 0 then mret SBI_EINVAL
  else
    addr ← load (clint + clint_addr);
    store (clint + clint_ipi) addr;;
    tbl_fill ipi_table clint;;
    mret 0.

(** ** The timer *)

Definition clint_time_rd64 (addr : Z) : M Z := readq addr.
Definition clint_time_wr64 (value addr : Z) : M unit := writeq value addr.

(** One turn of the loop reads the halves as high, low, high. *)
Definition rd32_turn (addr : Z) : M (option Z) :=
  hi ← readl (addr + 4);
  lo ← readl addr;
  hi' ← readl (addr + 4);
  mret (if hi =? hi' then Some (Z.shiftl hi 32 .| lo) else None).
Definition clint_time_rd32 (addr : Z) : M Z := poll (rd32_turn addr).
Definition clint_time_wr32 (value addr : Z) : M unit :=
  writel (value .& (2 ^ 32 - 1)) addr;;
  writel (Z.shiftr value 32) (addr + 4).

(** Through the function pointers of the structure. *)
Definition time_rd (clint : Z) : M Z :=
  f ← load (clint + clint_time_rd);
  v ← load (clint + clint_time_val);
  if f =? CLINT_RW64 then clint_time_rd64 v else clint_time_rd32 v.
Definition time_wr (clint value hart : Z) : M unit :=
  f ← load (clint + clint_time_wr);
  cmp ← load (clint + clint_time_cmp);
  first ← load (clint + clint_first_hartid);
  let addr := cmp + 8 * u32 (hart - first) in
  if f =? CLINT_RW64 then clint_time_wr64 value addr else clint_time_wr32 value addr.

(** The device of the current hart; using it when there is none is undefined. *)
Definition this_timer : M (Z * Z) :=
  h ← current_hartid;
  clint ← tbl_get timer_table h;
  if clint =? 0 then exits XUndef else mret (h, clint).

Definition clint_timer_value : M Z :=
  '(h, clint) ← this_timer;
  v ← time_rd clint;
  delta ← load (clint + clint_time_delta);
  mret (u64 (v + delta)).

Definition clint_timer_event_stop : M unit :=
  '(h, clint) ← this_timer; time_wr clint (2 ^ 64 - 1) h.

Definition clint_timer_event_start (next_event : Z) : M unit :=
  '(h, clint) ← this_timer;
  delta ← load (clint + clint_time_delta);
  time_wr clint (u64 (next_event - delta)) h.

(** The offset to the reference clock, computed by the first hart to come. *)
Definition compute_delta (clint reference : Z) : M unit :=
  computed ← atomic_raw_xchg_ulong (clint + clint_time_delta_computed) 1;
  if computed =? 0 then
    v1 ← time_rd clint;
    mv ← time_rd reference;
    v2 ← time_rd clint;
    store (clint + clint_time_delta) (u64 (mv - (v1 / 2 + v2 / 2)))
  else mret tt.

Definition clint_warm_timer_init : M Z :=
  h ← current_hartid;
  clint ← tbl_get timer_table h;
  if clint =? 0 then mret SBI_ENODEV
  else
    reference ← load (clint + clint_time_delta_reference);
    (if reference =? 0 then mret tt else compute_delta clint reference);;
    time_wr clint (2 ^ 64 - 1) h;;
    mret 0.

Definition clint_cold_timer_init (clint reference : Z) : M Z :=
  if clint =? 0 then mret SBI_EINVAL
  else
    store (clint + clint_time_delta_reference) reference;;
    store (clint + clint_time_delta_computed) 0;;
    store (clint + clint_time_delta) 0;;
    addr ← load (clint + clint_addr);
    store (clint + clint_time_val) (addr + CLINT_TIME_VAL_OFF);;
    store (clint + clint_time_cmp) (addr + CLINT_TIME_CMP_OFF);;
    store (clint + clint_time_rd) CLINT_RW32;;
    store (clint + clint_time_wr) CLINT_RW32;;
    wide ← load (clint + clint_has_64bit_mmio);
    when (nz wide) (store (clint + clint_time_rd) CLINT_RW64;; store (clint + clint_time_wr) CLINT_RW64);;
    tbl_fill timer_table clint;;
    mret 0.
End Clint.

(** * The tables *)

Lemma elem_inj x i j : elem x i = elem x j -> i = j.
Proof. unfold elem. intros E%(inj (String.append x)). by apply (inj pretty) in E. Qed.

Section Tables.
Context `{Hardware}.

(** Only file-level variables differ. *)
Definition same_but_glob (s s' : st) : Prop :=
  cur s' = cur s /\ csrs s' = csrs s /\ mem s' = mem s /\ events s' = events s.

Lemma tbl_fill_spec x clint s :
  let first := mem_val s (clint + clint_first_hartid) in
  let count := mem_val s (clint + clint_hart_count) in
  0 <= first -> 0 <= count -> first + count <= SBI_HARTMASK_MAX_BITS ->
  exists s', tbl_fill x clint s = Ret tt s' /\ same_but_glob s s' /\
    (forall h, first <= h < first + count -> gval s' (elem x h) = clint) /\
    (forall y, (forall h, first <= h < first + count -> y <> elem x h) -> gval s' y = gval s y).
Proof.
  intros first count Hf Hc Hle. unfold SBI_HARTMASK_MAX_BITS in Hle.
  set (g := fun s i => set_glob <[elem x (first + i) := clint]> s).
  exists (foldl g s (seqZ 0 count)). split.
  { unfold tbl_fill. repeat mstep. apply for_each_fold. intros i s' Hi%elem_of_seqZ. unfold tbl_set, u32.
    rewrite wrap_small by (unfold fits; lia). unfold SBI_HARTMASK_MAX_BITS.
    fold first. replace ((0 <=? first + i) && (first + i <? 128)) with true by lia. done. }
  assert (Hgen : forall l s0, same_but_glob s0 (foldl g s0 l) /\
    (forall h, h ∈ l -> gval (foldl g s0 l) (elem x (first + h)) = clint) /\
    (forall y, (forall h, h ∈ l -> y <> elem x (first + h)) -> gval (foldl g s0 l) y = gval s0 y)).
  { clear. induction l as [|i l IH] using rev_ind; intros s0.
    { split; [done|]. split; [by intros ? ?%not_elem_of_nil|done]. }
    rewrite foldl_app. destruct (IH s0) as (Hs & Hin & Hout). cbn [foldl]. unfold g at 1 3 5. split; [done|]. split.
    - intros h Hh. destruct (decide (h = i)) as [->|]; [by rewrite gval_set|].
      apply elem_of_app in Hh as [Hh|Hh]; [|by apply list_elem_of_singleton in Hh].
      rewrite gval_set_ne; [by apply Hin|]. intros E%elem_inj. lia.
    - intros y Hy. rewrite gval_set_ne; [apply Hout; set_solver|]. intros E. apply (Hy i); [set_solver|done]. }
  destruct (Hgen (seqZ 0 count) s) as (Hs & Hin & Hout). split; [done|]. split.
  - intros h Hh. replace h with (first + (h - first)) by lia. apply Hin, elem_of_seqZ. lia.
  - intros y Hy. apply Hout. intros h Hh%elem_of_seqZ. apply Hy. lia.
Qed.

Lemma tbl_get_eq x i s : 0 <= i < SBI_HARTMASK_MAX_BITS -> tbl_get x i s = Ret (gval s (elem x i)) s.
Proof. intros Hi. unfold tbl_get. by replace ((0 <=? i) && (i <? SBI_HARTMASK_MAX_BITS)) with true by lia. Qed.

(** The write of an interrupt word, whatever the table holds. *)
Lemma clint_ipi_write_eq v h s :
  clint_ipi_write v h s =
    let h := u32 h in
    let clint := gval s (elem ipi_table h) in
    if (SBI_HARTMASK_MAX_BITS <=? h) || (clint =? 0) then Ret tt s
    else Ret tt (add_event (EvWrite 4 (mem_val s (clint + clint_ipi) +
           4 * u32 (h - mem_val s (clint + clint_first_hartid))) (wrap 32 v)) s).
Proof.
  unfold clint_ipi_write. cbv zeta. pose proof (fits_u32 h) as Hf. unfold fits in Hf.
  destruct (Z.leb_spec SBI_HARTMASK_MAX_BITS (u32 h)); [done|]. cbn [orb].
  rewrite (bind_ret_eq _ _ _ _ _ (tbl_get_eq ipi_table (u32 h) s ltac:(lia))). by destruct (_ =? 0).
Qed.

(** A platform that sends its interrupts through this device leaves the
    firmware's state alone. *)
Lemma clint_ipi_quiet (P : Platform) :
  op_ipi_send (platform_ops the_platform) = Some clint_ipi_send -> @QuietIpi P.
Proof.
  intros E h s. unfold sbi_platform_ipi_send, plat_call. rewrite E. unfold clint_ipi_send. cbn [mbind option_bind].
  rewrite clint_ipi_write_eq. cbv zeta. destruct (_ || _); eexists; (split; [reflexivity|]); by repeat split.
Qed.
End Tables.

(** * Properties *)

(** Two tables share no element. *)
Lemma tables_differ i j : elem timer_table i <> elem ipi_table j.
Proof. discriminate. Qed.

(** After [clint_cold_ipi_init] on a structure that covers harts [first] to
    [first + count - 1], sending an interrupt to one of them writes 1 to its
    own word of that device and does nothing else; clearing it writes 0 to
    the same word; a hart that had no device before still has none. *)
Theorem clint_ipi_routes clint s :
  let first := mem_val s (clint + clint_first_hartid) in
  let count := mem_val s (clint + clint_hart_count) in
  clint <> 0 -> 0 <= first -> 0 <= count -> first + count <= SBI_HARTMASK_MAX_BITS ->
  exists s1, clint_cold_ipi_init clint s = Ret 0 s1 /\
    (forall h s', first <= h < first + count -> mem s' = mem s1 -> glob s' = glob s1 ->
      let a := mem_val s (clint + clint_addr) + 4 * (h - first) in
      clint_ipi_send h s' = Ret tt (add_event (EvWrite 4 a 1) s') /\
      clint_ipi_clear h s' = Ret tt (add_event (EvWrite 4 a 0) s')) /\
    (forall h, fits 32 h -> ~ first <= h < first + count -> gval s (elem ipi_table h) = 0 ->
      clint_ipi_send h s1 = Ret tt s1).
Proof.
  intros first count Hc Hf Hn Hle. unfold SBI_HARTMASK_MAX_BITS in Hle.
  set (s0 := set_mem <[clint + clint_ipi := mem_val s (clint + clint_addr)]> s).
  assert (Hfirst : mem_val s0 (clint + clint_first_hartid) = first) by (apply mem_val_store_ne; unfold clint_ipi, clint_first_hartid; lia).
  assert (Hcount : mem_val s0 (clint + clint_hart_count) = count) by (apply mem_val_store_ne; unfold clint_ipi, clint_hart_count; lia).
  destruct (tbl_fill_spec ipi_table clint s0) as (s1 & E & (_ & _ & Hm & _) & Hin & Hout);
    rewrite ?Hfirst, ?Hcount in *; [lia..|unfold SBI_HARTMASK_MAX_BITS; lia|].
  exists s1. split; [|split].
  - unfold clint_cold_ipi_init. rewrite (proj2 (Z.eqb_neq clint 0) Hc). by repeat mstep.
  - intros h s' Hh Em Eg a.
    assert (Hw : forall v, clint_ipi_write v h s' = Ret tt (add_event (EvWrite 4 a (wrap 32 v)) s')).
    { intros v. rewrite clint_ipi_write_eq. cbv zeta. unfold u32. rewrite (wrap_small 32 h) by (unfold fits; lia).
      unfold gval. rewrite Eg. fold (gval s1 (elem ipi_table h)). rewrite Hin by lia. unfold SBI_HARTMASK_MAX_BITS.
      replace ((128 <=? h) || (clint =? 0)) with false by lia. unfold mem_val. rewrite Em, Hm.
      fold (mem_val s0 (clint + clint_ipi)). fold (mem_val s0 (clint + clint_first_hartid)). rewrite Hfirst.
      unfold s0 at 1. rewrite mem_val_store, wrap_small by (unfold fits; lia). done. }
    split; apply Hw.
  - intros h Hh Hno Hz. unfold clint_ipi_send. rewrite clint_ipi_write_eq. cbv zeta. unfold u32. rewrite (wrap_small 32 h) by done.
    rewrite Hout; [|intros k Hk E'%elem_inj; lia]. change (gval s0 (elem ipi_table h)) with (gval s (elem ipi_table h)).
    rewrite Hz. by rewrite orb_true_r.
Qed.

(** A device at 0x2000000 for harts 0 to 3. *)
Definition clint_st : st :=
  set_mem (fun _ => {[ 4096 := 0x2000000; 4104 := 0; 4108 := 4; 4112 := 1 ]}) st0.

Lemma clint_ipi_routes_witness :
  exists s1, clint_cold_ipi_init 4096 clint_st = Ret 0 s1 /\
    clint_ipi_send 2 s1 = Ret tt (add_event (EvWrite 4 0x2000008 1) s1).
Proof.
  destruct (clint_ipi_routes 4096 clint_st) as (s1 & E & Hs & _).
  - discriminate.
  - vm_compute. discriminate.
  - vm_compute. discriminate.
  - vm_compute. discriminate.
  - exists s1. split; [exact E|]. apply (Hs 2 s1); [vm_compute; split; discriminate || reflexivity|reflexivity..].
Defined.

(** ** The clock *)

(** A 64-bit counter at address [a] that only goes up, whatever happens in
    between, and whose halves can be read separately. *)
Class Clock (a : Z) `{Hardware} : Type := {
  clock : list event -> Z;
  clock_fits evs : fits 64 (clock evs);
  clock_hi evs : dev_read evs 4 (a + 4) = Z.shiftr (clock evs) 32;
  clock_lo evs : dev_read evs 4 a = wrap 32 (clock evs);
  clock_mono evs e : clock evs <= clock (evs ++ [e]);
  clock_others n s : clock (events s) <= clock (events (interfere n s))
}.

Section ReadClock.
Context (a : Z) `{Clock a}.

Lemma clock_join evs : Z.shiftl (Z.shiftr (clock evs) 32) 32 .| wrap 32 (clock evs) = clock evs.
Proof.
  apply Z.bits_inj'. intros i Hi. rewrite Z.lor_spec, testbit_shiftl, testbit_wrap by lia.
  destruct (Z.ltb_spec i 32).
  - rewrite (Z.testbit_neg_r _ (i - 32)) by lia. by rewrite andb_false_r.
  - rewrite testbit_shiftr by lia. replace (0 <=? i) with true by lia. rewrite orb_false_r. simpl. f_equal. lia.
Qed.

Lemma shiftr_clock_fits evs : wrap 32 (Z.shiftr (clock evs) 32) = Z.shiftr (clock evs) 32.
Proof.
  apply wrap_small. pose proof (clock_fits evs). unfold fits in *. rewrite Z.shiftr_div_pow2 by lia.
  split; [apply Z.div_pos; lia|apply Z.div_lt_upper_bound; lia].
Qed.

(** One turn that succeeds has read the counter as it was at the low half. *)
Lemma rd32_turn_snapshot s v s' :
  rd32_turn a s = Ret (Some v) s' -> clock (events s) <= v <= clock (events s').
Proof.
  unfold rd32_turn, readl, __raw_readl, io_read, gets, modify, mbind, M_bind, mret, M_ret. cbn.
  set (e1 := events s). rewrite !clock_hi.
  set (e2 := e1 ++ _). rewrite !clock_lo. set (e3 := e2 ++ _). change (8 * 4) with 32. intros E.
  pose proof (clock_mono e1 _ : clock e1 <= clock e2) as H12. pose proof (clock_mono e2 _ : clock e2 <= clock e3) as H23.
  destruct (Z.eqb_spec (wrap 32 (Z.shiftr (clock e1) 32)) (wrap 32 (Z.shiftr (clock e3) 32))) as [Eh|]; [|done].
  injection E as Ev <-. rewrite !shiftr_clock_fits in Eh. rewrite shiftr_clock_fits in Ev.
  assert (E2 : Z.shiftr (clock e1) 32 = Z.shiftr (clock e2) 32).
  { rewrite !Z.shiftr_div_pow2 in Eh |- * by lia. apply Z.le_antisymm; [apply Z.div_le_mono; lia|].
    rewrite Eh. apply Z.div_le_mono; lia. }
  rewrite wrap_wrap in Ev by lia. rewrite E2, clock_join in Ev. subst v. cbn.
  split; [done|]. etrans; [exact H23|]. apply clock_mono.
Qed.

Lemma rd32_turn_mono s r s' : rd32_turn a s = Ret r s' -> clock (events s) <= clock (events s').
Proof.
  intros E. injection E as _ <-. cbn. etrans; [apply clock_mono|]. etrans; [apply clock_mono|]. apply clock_mono.
Qed.

Lemma rd32_loop_snapshot n s v s' :
  wait_until n (rd32_turn a) s = Ret v s' -> clock (events s) <= v <= clock (events s').
Proof.
  revert s. induction n as [|n IH]; intros s; simpl; [done|]. unfold mbind at 1, M_bind at 1.
  destruct (rd32_turn a s) as [[w|] s1|e s1] eqn:E; [|..|done].
  - intros [= -> ->]. by apply rd32_turn_snapshot.
  - unfold others_act, modify, mbind, M_bind. intros Hv. apply IH in Hv. cbn in Hv.
    pose proof (rd32_turn_mono _ _ _ E). pose proof (clock_others (ticks s1) s1). lia.
Qed.

(** The counter gains less than [2^29] between two accesses of the hart. *)
Definition slow_clock : Prop :=
  (forall evs e, clock (evs ++ [e]) < clock evs + 2 ^ 29) /\
  (forall n s, clock (events (interfere n s)) < clock (events s) + 2 ^ 29).

(** One turn makes three accesses, and succeeds when the high half was the
    same at the first and at the last. *)
Lemma rd32_turn_eq s : exists e1 e2 e3 r, let evs := events s in
  rd32_turn a s = Ret r (add_event e3 (add_event e2 (add_event e1 s))) /\
  (r = None -> Z.shiftr (clock evs) 32 <> Z.shiftr (clock ((evs ++ [e1]) ++ [e2])) 32).
Proof.
  do 4 eexists. split; [reflexivity|]. cbn. rewrite !clock_hi. change (8 * 4) with 32. rewrite !shiftr_clock_fits.
  match goal with |- context [if ?x =? ?y then _ else _] => destruct (Z.eqb_spec x y) as [E|E]; [done|] end. done.
Qed.

(** A carry into the high half is rare enough for the second turn to succeed. *)
Lemma rd32_returns : (2 <= polls)%nat -> slow_clock -> forall s, exists v s', clint_time_rd32 a s = Ret v s'.
Proof.
  intros Hp [He Ho] s. unfold clint_time_rd32, poll. destruct polls as [|[|n]]; [lia..|]. cbn [wait_until].
  destruct (rd32_turn_eq s) as (e1 & e2 & e3 & r & E & Hr). rewrite (bind_ret_eq _ _ _ _ _ E).
  destruct r as [v|]; [eexists _, _; reflexivity|]. specialize (Hr eq_refl).
  set (s1 := add_event e3 (add_event e2 (add_event e1 s))) in *.
  set (s2 := tick (interfere (ticks s1) s1)).
  rewrite (bind_ret_eq others_act _ s1 tt s2) by done.
  destruct (rd32_turn_eq s2) as (f1 & f2 & f3 & r & E2 & Hr2). rewrite (bind_ret_eq _ _ _ _ _ E2).
  destruct r as [v|]; [eexists _, _; reflexivity|]. specialize (Hr2 eq_refl). exfalso.
  pose proof (clock_others (ticks s1) s1) as M0. pose proof (Ho (ticks s1) s1) as L0.
  change (events (interfere (ticks s1) s1)) with (events s2) in *.
  change (events s1) with (((events s ++ [e1]) ++ [e2]) ++ [e3]) in *.
  pose proof (clock_mono (events s) e1). pose proof (clock_mono (events s ++ [e1]) e2).
  pose proof (clock_mono ((events s ++ [e1]) ++ [e2]) e3). pose proof (clock_mono (events s2) f1).
  pose proof (clock_mono (events s2 ++ [f1]) f2).
  pose proof (He (events s) e1). pose proof (He (events s ++ [e1]) e2). pose proof (He ((events s ++ [e1]) ++ [e2]) e3).
  pose proof (He (events s2) f1). pose proof (He (events s2 ++ [f1]) f2).
  rewrite !Z.shiftr_div_pow2 in Hr, Hr2 by lia.
  generalize dependent (clock (events s)). generalize dependent (clock ((events s ++ [e1]) ++ [e2])).
  generalize dependent (clock ((events s2 ++ [f1]) ++ [f2])). generalize dependent (clock (events s2)). intros. 
  Z.to_euclidean_division_equations. lia.
Qed.
End ReadClock.

(** C35: Reading the 64-bit clock by halves on a bus with 32-bit accesses gives a
    value the clock really had between the call and the return, even when the
    low half overflows while it is being read; and it returns, after two turns
    at most, when the clock gains less than [2^29] between two accesses. *)
Theorem clint_time_rd32_snapshot a `{Clock a} s :
  (forall v s', clint_time_rd32 a s = Ret v s' -> clock (events s) <= v <= clock (events s')) /\
  ((2 <= polls)%nat -> slow_clock a -> exists v s', clint_time_rd32 a s = Ret v s').
Proof. split; [intros v s'; apply rd32_loop_snapshot|]. intros Hp Hs. exact (rd32_returns a Hp Hs s). Qed.

(** A clock that stands just before an overflow of its low half and advances
    with every access. *)
Definition tick_clock (evs : list event) : Z := Z.min (2 ^ 33 - 2 + Z.of_nat (length evs)) (2 ^ 64 - 1).
Definition tick_hw : Hardware :=
  {| csr_exists := fun _ _ => true; csr_warl := fun _ _ v => v; csr_pc := fun _ => 0;
     dev_read := fun evs w b => if b =? 49144 then wrap 32 (tick_clock evs) else Z.shiftr (tick_clock evs) 32;
     interfere := fun _ s => s; polls := 8 |}.

Definition tick_is_clock : @Clock 49144 tick_hw.
Proof.
  refine {| clock := tick_clock |}; intros; simpl.
  - unfold tick_clock, fits. lia.
  - done.
  - done.
  - unfold tick_clock. rewrite length_app. simpl. lia.
  - done.
Defined.

Lemma tick_is_slow : @slow_clock 49144 tick_hw tick_is_clock.
Proof. split; intros; unfold clock; simpl; unfold tick_clock; rewrite ?length_app; simpl; lia. Qed.

Lemma clint_time_rd32_snapshot_witness :
  exists v s', @clint_time_rd32 tick_hw 49144 st0 = Ret v s' /\ 2 ^ 33 - 2 <= v <= tick_clock (events s').
Proof.
  destruct (@clint_time_rd32_snapshot 49144 tick_hw tick_is_clock st0) as [Hv He].
  destruct He as (v & s' & E); [vm_compute; repeat constructor|exact tick_is_slow|].
  exists v, s'. split; [exact E|]. exact (Hv v s' E).
Defined.

(** The comparator of a hart, as the device holds it: a 64-bit register that
    can be written whole or by halves. *)
Definition reg64_step (a : Z) (r : Z) (e : event) : Z :=
  match e with
  | EvWrite 8 b v => if b =? a then v else r
  | EvWrite 4 b v =>
      if b =? a then 2 ^ 32 * (r / 2 ^ 32) + v else if b =? a + 4 then 2 ^ 32 * v + r mod 2 ^ 32 else r
  | _ => r
  end.

Section Comparator.
Context `{Hardware}.

(** The device and hart of the caller. *)
Definition timer_of (s : st) (h clint : Z) : Prop :=
  csr_val s (cur s) CSR_MHARTID = h /\ 0 <= h < SBI_HARTMASK_MAX_BITS /\
  gval s (elem timer_table h) = clint /\ clint <> 0.

Lemma this_timer_eq s h clint : timer_of s h clint -> this_timer s = Ret (h, clint) s.
Proof.
  intros (Eh & Hh & Eg & Hc). unfold SBI_HARTMASK_MAX_BITS in Hh. unfold this_timer, current_hartid. repeat mstep. rewrite Eh. unfold u32.
  rewrite wrap_small by (unfold fits; lia). rewrite (bind_ret_eq _ _ _ _ _ (tbl_get_eq timer_table h s Hh)).
  rewrite Eg. by rewrite (proj2 (Z.eqb_neq clint 0) Hc).
Qed.

(** Where the comparator of a hart is. *)
Definition cmp_addr (s : st) (clint h : Z) : Z :=
  mem_val s (clint + clint_time_cmp) + 8 * (h - mem_val s (clint + clint_first_hartid)).

Lemma time_wr_programs s clint v h :
  fits 64 v -> fits 32 (h - mem_val s (clint + clint_first_hartid)) ->
  exists evs, time_wr clint v h s = Ret tt (mkSt (cur s) (csrs s) (mem s) (queues s) (scratch_table s) (glob s)
      (ipi_ops_array s) (coldboot_wait_hmask s) (ecall_exts s) (umem s) (events s ++ evs) (ticks s)) /\
    forall r, fits 64 r -> foldl (reg64_step (cmp_addr s clint h)) r evs = v.
Proof.
  intros Hv Hh. unfold time_wr. repeat mstep. unfold u32. rewrite (wrap_small 32 _ Hh). fold (cmp_addr s clint h).
  set (a := cmp_addr s clint h). destruct (_ =? CLINT_RW64).
  - exists [EvWrite 8 a v]. split; [|intros r _; simpl; by rewrite Z.eqb_refl].
    unfold clint_time_wr64, writeq, __raw_writeq, io_write, modify, add_event. by rewrite wrap_small.
  - exists [EvWrite 4 a (wrap 32 v); EvWrite 4 (a + 4) (Z.shiftr v 32)]. split.
    + unfold clint_time_wr32, writel, __raw_writel, io_write, modify, add_event, mbind, M_bind. simpl. change (8 * 4) with 32.
      assert (E : forall x, x .& (2 ^ 32 - 1) = wrap 32 x) by (intros; change (2 ^ 32 - 1) with (Z.ones 32); by apply Z.land_ones).
      rewrite E, wrap_wrap, <- app_assoc by lia. cbn [app]. rewrite (wrap_small 32 (Z.shiftr v 32)); [done|].
      unfold fits in *. rewrite Z.shiftr_div_pow2 by lia. split; [apply Z.div_pos; lia|apply Z.div_lt_upper_bound; lia].
    + intros r Hr. cbn [foldl reg64_step]. rewrite Z.eqb_refl. replace (a + 4 =? a) with false by lia. rewrite Z.eqb_refl.
      rewrite Z.shiftr_div_pow2 by lia.
      assert (El : (2 ^ 32 * (r / 2 ^ 32) + wrap 32 v) mod 2 ^ 32 = v mod 2 ^ 32).
      { rewrite (Z.add_comm (2 ^ 32 * _)), (Z.mul_comm (2 ^ 32)), Z.mod_add by lia. apply Z.mod_mod. lia. }
      rewrite El.
      pose proof (Z.div_mod v (2 ^ 32) ltac:(lia)). lia.
Qed.
End Comparator.

(** Moving a time between the two clocks: [delta] is the difference as an
    unsigned number, that is modulo 2^64. *)
Lemma delta_compare next t delta :
  fits 64 delta -> 0 <= next - s64 delta < 2 ^ 64 -> 0 <= t + s64 delta < 2 ^ 64 ->
  u64 (next - delta) <= t <-> next <= u64 (t + delta).
Proof.
  intros Hd Hn Ht. assert (Es : exists k, s64 delta = delta + k * 2 ^ 64).
  { unfold s64, signed. rewrite wrap_small by done. destruct (_ <? _); [exists 0|exists (-1)]; lia. }
  destruct Es as [k Ek].
  assert (E1 : u64 (next - delta) = next - s64 delta).
  { unfold u64, wrap. rewrite <- (Z.mod_small _ _ Hn). rewrite Ek. replace (next - (delta + k * 2 ^ 64)) with (next - delta + (- k) * 2 ^ 64) by lia.
    by rewrite Z.mod_add by lia. }
  assert (E2 : u64 (t + delta) = t + s64 delta).
  { unfold u64, wrap. rewrite <- (Z.mod_small _ _ Ht). rewrite Ek. rewrite Z.add_assoc. by rewrite Z.mod_add by lia. }
  lia.
Qed.

(** [clint_timer_event_start] leaves in the comparator of the calling hart,
    written whole or by halves, the value that makes the timer interrupt
    pending exactly when the time the firmware reads reaches the requested
    one, the offset between the clocks included. *)
Theorem clint_timer_event_start_fires s h clint next :
  let delta := mem_val s (clint + clint_time_delta) in
  timer_of s h clint -> fits 64 delta -> fits 32 (h - mem_val s (clint + clint_first_hartid)) ->
  0 <= next - s64 delta < 2 ^ 64 ->
  exists s' evs, clint_timer_event_start next s = Ret tt s' /\ events s' = events s ++ evs /\
    forall r t, fits 64 r -> 0 <= t + s64 delta < 2 ^ 64 ->
      foldl (reg64_step (cmp_addr s clint h)) r evs <= t <-> next <= u64 (t + delta).
Proof.
  intros delta Ht Hd Hh Hn. destruct (time_wr_programs s clint (u64 (next - delta)) h (fits_u64 _) Hh) as (evs & E & Hr).
  eexists _, evs. split.
  { unfold clint_timer_event_start. rewrite (bind_ret_eq _ _ _ _ _ (this_timer_eq s h clint Ht)). cbv beta iota.
    mstep. exact E. }
  split; [reflexivity|]. intros r t Hr64 Ht'. rewrite Hr by done. by apply delta_compare.
Qed.

(** The device of [clint_st] with its timer set up for hart 0. *)
Definition clint_timer_st : st :=
  match clint_cold_timer_init 4096 0 clint_st with Ret _ s => s | Exit _ s => s end.

Lemma clint_timer_event_start_fires_witness :
  exists s' evs, clint_timer_event_start 5000 clint_timer_st = Ret tt s' /\ events s' = evs /\
    (foldl (reg64_step 0x2004000) 0 evs <= 4999 <-> 5000 <= 4999).
Proof.
  destruct (clint_timer_event_start_fires clint_timer_st 0 4096 5000) as (s' & evs & E & He & Hf).
  - vm_compute. repeat split; discriminate || reflexivity.
  - vm_compute. split; discriminate || reflexivity.
  - vm_compute. split; discriminate || reflexivity.
  - vm_compute. split; discriminate || reflexivity.
  - exists s', evs. split; [exact E|]. split; [rewrite He; vm_compute; reflexivity|].
    apply (Hf 0 4999); vm_compute; split; discriminate || reflexivity.
Defined.

(** Written by halves, low half first, the comparator passes through a value
    below both the old and the new one: going from 0x1ffffffff to 0x200000000
    it holds 0x100000000 in between. *)
Example wr32_dips : reg64_step 0 0x1ffffffff (EvWrite 4 0 0) = 0x100000000.
Proof. reflexivity. Qed.
