(* ===== verification/Plic.v ===== *)
(** The platform-level interrupt controller: lib/utils/irqchip/plic.c. *)

From S2P Require Import Prelude Encoding Machine Platform Serial.

Definition PLIC_PRIORITY_BASE : Z := 0.
Definition PLIC_ENABLE_BASE : Z := 8192.
Definition PLIC_ENABLE_STRIDE : Z := 128.
Definition PLIC_CONTEXT_BASE : Z := 2097152.
Definition PLIC_CONTEXT_STRIDE : Z := 4096.

Record plic_data : Type := mkPlic { plic_addr : Z; num_src : Z }.

(** Offsets are computed in unsigned 32-bit arithmetic. *)
Definition plic_set_priority (plic : plic_data) (source val : Z) : M unit :=
  writel val (plic_addr plic + PLIC_PRIORITY_BASE + u32 (4 * source)).

Definition plic_set_thresh (plic : option plic_data) (cntxid val : Z) : M unit :=
  match plic with
  | None => mret tt
  | Some plic => writel val (plic_addr plic + PLIC_CONTEXT_BASE + u32 (PLIC_CONTEXT_STRIDE * cntxid))
  end.

Definition plic_set_ie (plic : option plic_data) (cntxid word_index val : Z) : M unit :=
  match plic with
  | None => mret tt
  | Some plic =>
      writel val (plic_addr plic + PLIC_ENABLE_BASE + u32 (PLIC_ENABLE_STRIDE * cntxid) + u32 (word_index * 4))
  end.

Definition disable_all (plic : plic_data) (cntxid : Z) : M unit :=
  let ie_words := num_src plic / 32 + 1 in
  for_each (seqZ 0 ie_words) (fun i => plic_set_ie (Some plic) cntxid i 0).

Definition plic_warm_irqchip_init (plic : option plic_data) (m_cntx_id s_cntx_id : Z) : M Z :=
  match plic with
  | None => mret SBI_EINVAL
  | Some p =>
      when (-1 <? m_cntx_id) (disable_all p m_cntx_id);;
      when (-1 <? s_cntx_id) (disable_all p s_cntx_id);;
      when (-1 <? m_cntx_id) (plic_set_thresh plic m_cntx_id 7);;
      when (-1 <? s_cntx_id) (plic_set_thresh plic s_cntx_id 7);;
      mret 0
  end.

Definition plic_cold_irqchip_init (plic : option plic_data) : M Z :=
  match plic with
  | None => mret SBI_EINVAL
  | Some p => for_each (seqZ 1 (num_src p)) (fun i => plic_set_priority p i 0);; mret 0
  end.

(** * Properties *)

(** Registers of the device: the enable word of a source for a context, its bit
    in the word, the threshold of a context, the priority of a source. *)
Definition enable_addr (p : plic_data) (cntx src : Z) : Z :=
  plic_addr p + PLIC_ENABLE_BASE + PLIC_ENABLE_STRIDE * cntx + 4 * (src / 32).
Definition thresh_addr (p : plic_data) (cntx : Z) : Z :=
  plic_addr p + PLIC_CONTEXT_BASE + PLIC_CONTEXT_STRIDE * cntx.
Definition priority_addr (p : plic_data) (src : Z) : Z := plic_addr p + PLIC_PRIORITY_BASE + 4 * src.

(** A device within the limits of the specification: 1023 sources and 15872
    contexts. *)
Definition plic_ok (p : plic_data) : Prop := 0 <= num_src p <= 1023.
Definition cntx_ok (c : Z) : Prop := -1 <= c < 15872.

(** The accesses of a run of writes. *)
Definition writes (l : list (Z * Z)) : list event := (fun '(a, v) => EvWrite 4 a v) <$> l.

(** The state after recording accesses. *)
Definition log_events (l : list event) (s : st) : st := foldl (fun s e => add_event e s) s l.
Lemma events_log l s : events (log_events l s) = events s ++ l.
Proof.
  revert s. induction l as [|e l IH]; intros s; [simpl; by rewrite app_nil_r|].
  change (log_events (e :: l) s) with (log_events l (add_event e s)). rewrite IH. simpl. by rewrite <- app_assoc.
Qed.
Lemma log_events_app l l' s : log_events (l ++ l') s = log_events l' (log_events l s).
Proof. apply foldl_app. Qed.

Lemma for_each_writes {A} (l : list A) (f : A -> M unit) (g : A -> Z * Z) s :
  (forall x s, x ∈ l -> f x s = Ret tt (add_event (EvWrite 4 (g x).1 (g x).2) s)) ->
  for_each l f s = Ret tt (log_events (writes (g <$> l)) s).
Proof.
  intros Hf. rewrite (for_each_fold l f (fun s x => add_event (EvWrite 4 (g x).1 (g x).2) s)) by done.
  f_equal. unfold log_events, writes. revert s. clear. induction l as [|x l IH]; intros s; [done|]. cbn. rewrite IH. by destruct (g x).
Qed.

Definition disable_writes (p : plic_data) (c : Z) : list (Z * Z) :=
  (fun i => (plic_addr p + PLIC_ENABLE_BASE + PLIC_ENABLE_STRIDE * c + 4 * i, 0)) <$> seqZ 0 (num_src p / 32 + 1).

Lemma disable_all_eq p c s :
  plic_ok p -> 0 <= c < 15872 -> disable_all p c s = Ret tt (log_events (writes (disable_writes p c)) s).
Proof.
  intros [Hn Hn'] Hc. unfold disable_all. apply for_each_writes. intros i s' Hi%elem_of_seqZ.
  assert (num_src p / 32 <= 31) by (apply Z.lt_succ_r, Z.div_lt_upper_bound; lia).
  unfold plic_set_ie, writel, __raw_writel, io_write, modify, u32, PLIC_ENABLE_STRIDE, PLIC_ENABLE_BASE.
  rewrite !(wrap_small 32 _) by (unfold fits; lia). cbn. do 4 f_equal. lia.
Qed.

Lemma set_thresh_eq p c s : 0 <= c < 15872 -> plic_set_thresh (Some p) c 7 s = Ret tt (log_events (writes [(thresh_addr p c, 7)]) s).
Proof.
  intros Hc. unfold plic_set_thresh, writel, __raw_writel, io_write, modify, u32, PLIC_CONTEXT_STRIDE, PLIC_CONTEXT_BASE.
  rewrite (wrap_small 32 (4096 * c)) by (unfold fits; lia). done.
Qed.

(** What warm initialisation writes. *)
Definition warm_writes (p : plic_data) (m s : Z) : list (Z * Z) :=
  (if -1 <? m then disable_writes p m else []) ++ (if -1 <? s then disable_writes p s else []) ++
  (if -1 <? m then [(thresh_addr p m, 7)] else []) ++ (if -1 <? s then [(thresh_addr p s, 7)] else []).

Lemma when_writes (b : bool) m l s :
  (b = true -> m s = Ret tt (log_events (writes l) s)) ->
  when b m s = Ret tt (log_events (writes (if b then l else [])) s).
Proof. destruct b; intros Hm; [by apply Hm|done]. Qed.

Lemma when_disable p c s :
  plic_ok p -> cntx_ok c ->
  when (-1 <? c) (disable_all p c) s = Ret tt (log_events (writes (if -1 <? c then disable_writes p c else [])) s).
Proof. unfold cntx_ok. intros Hp Hc. apply when_writes. intros E. apply disable_all_eq; [done|lia]. Qed.
Lemma when_thresh p c s :
  cntx_ok c -> when (-1 <? c) (plic_set_thresh (Some p) c 7) s =
    Ret tt (log_events (writes (if -1 <? c then [(thresh_addr p c, 7)] else [])) s).
Proof. unfold cntx_ok. intros Hc. apply when_writes. intros E. apply set_thresh_eq. lia. Qed.

Lemma warm_init_eq p m c s :
  plic_ok p -> cntx_ok m -> cntx_ok c ->
  plic_warm_irqchip_init (Some p) m c s = Ret 0 (log_events (writes (warm_writes p m c)) s).
Proof.
  intros Hp Hm Hc. unfold plic_warm_irqchip_init.
  rewrite (bind_ret_eq _ _ _ _ _ (when_disable p m s Hp Hm)), (bind_ret_eq _ _ _ _ _ (when_disable p c _ Hp Hc)).
  rewrite (bind_ret_eq _ _ _ _ _ (when_thresh p m _ Hm)), (bind_ret_eq _ _ _ _ _ (when_thresh p c _ Hc)).
  unfold warm_writes. rewrite <- !log_events_app. unfold writes. by rewrite !fmap_app.
Qed.

Lemma last_write_none l a : (forall w, (a, w) ∉ l) -> last_write (writes l) a = None.
Proof.
  induction l as [|[b v] l IH]; intros Ha; [done|]. cbn. fold (writes l). rewrite IH by set_solver.
  destruct (Z.eqb_spec a b) as [->|]; [|done]. destruct (Ha v). left.
Qed.
Lemma last_write_some l a v : (a, v) ∈ l -> (forall w, (a, w) ∈ l -> w = v) -> last_write (writes l) a = Some v.
Proof.
  induction l as [|[b w] l IH]; intros Hin Hv; [by apply not_elem_of_nil in Hin|]. cbn. fold (writes l).
  destruct (decide ((a, v) ∈ l)) as [Hl|Hl].
  - rewrite IH; [done|done|set_solver].
  - rewrite last_write_none; [|intros w' Hw'; assert (w' = v) as -> by (apply Hv; by right); done].
    apply elem_of_cons in Hin as [[= -> ->]|]; [by rewrite Z.eqb_refl|done].
Qed.

Lemma elem_of_disable p c a w :
  plic_ok p -> (a, w) ∈ disable_writes p c <-> w = 0 /\ exists src, 0 <= src <= num_src p /\ a = enable_addr p c src.
Proof.
  intros [Hn _]. unfold disable_writes, enable_addr. rewrite list_elem_of_fmap. split.
  - intros (i & [= -> ->] & Hi%elem_of_seqZ). split; [done|]. exists (32 * i).
    split; [|rewrite (Z.mul_comm 32 i), Z.div_mul by lia; done]. pose proof (Z.mul_div_le (num_src p) 32 ltac:(lia)). lia.
  - intros (-> & src & Hs & ->). exists (src / 32). split; [done|]. apply elem_of_seqZ.
    pose proof (Z.div_pos src 32). pose proof (Z.div_le_mono src (num_src p) 32 ltac:(lia)). lia.
Qed.

(** After [plic_warm_irqchip_init] every interrupt source is disabled for
    both contexts of the hart and both thresholds mask all priorities; no
    other register of the device has been written. *)
Theorem plic_warm_init_disables p m c s :
  plic_ok p -> 0 <= m < 15872 -> 0 <= c < 15872 ->
  exists s', plic_warm_irqchip_init (Some p) m c s = Ret 0 s' /\
    (forall k src, k = m \/ k = c -> 1 <= src <= num_src p -> last_write (events s') (enable_addr p k src) = Some 0) /\
    (forall k, k = m \/ k = c -> last_write (events s') (thresh_addr p k) = Some 7) /\
    (forall a, (forall k src, k = m \/ k = c -> 0 <= src <= num_src p -> a <> enable_addr p k src) ->
      a <> thresh_addr p m -> a <> thresh_addr p c -> last_write (events s') a = last_write (events s) a).
Proof.
  intros Hp Hm Hc. eexists. split; [apply warm_init_eq; unfold cntx_ok; (done || lia)|]. rewrite events_log.
  unfold warm_writes. replace (-1 <? m) with true by lia. replace (-1 <? c) with true by lia.
  set (l := disable_writes p m ++ disable_writes p c ++ [(thresh_addr p m, 7)] ++ [(thresh_addr p c, 7)]).
  assert (Hl : forall a w, (a, w) ∈ l <->
    (w = 0 /\ exists k src, (k = m \/ k = c) /\ 0 <= src <= num_src p /\ a = enable_addr p k src) \/
    (w = 7 /\ (a = thresh_addr p m \/ a = thresh_addr p c))).
  { intros a w. unfold l. rewrite !elem_of_app, !elem_of_disable, !list_elem_of_singleton by done. split.
    - intros [(-> & src & Hs & ->)|[(-> & src & Hs & ->)|[[= -> ->]|[= -> ->]]]]; [left; eauto 10..|right; auto|right; auto].
    - intros [(-> & k & src & [-> | ->] & Hs & ->)|[-> [-> | ->]]]; [left; eauto|right; left; eauto|auto..]. }
  assert (Hne : forall k src k', 0 <= k < 15872 -> 0 <= src <= num_src p -> 0 <= k' -> enable_addr p k src <> thresh_addr p k').
  { intros k src k' Hk Hs Hk'. destruct Hp as [_ Hp]. pose proof (Z.div_lt_upper_bound src 32 32 ltac:(lia) ltac:(lia)).
    unfold enable_addr, thresh_addr, PLIC_ENABLE_BASE, PLIC_ENABLE_STRIDE, PLIC_CONTEXT_BASE, PLIC_CONTEXT_STRIDE. lia. }
  split; [|split].
  - intros k src Hk Hs. rewrite last_write_app, (last_write_some l _ 0); [done|apply Hl; left; split; [done|]; exists k, src; split; [done|split; [lia|done]]|].
    intros w Hw%Hl. destruct Hw as [[-> _]|[-> [E|E]]]; [done|exfalso..]; revert E; apply Hne; lia.
  - intros k Hk. rewrite last_write_app, (last_write_some l _ 7); [done|apply Hl; right; split; [done|]; destruct Hk as [-> | ->]; auto|].
    intros w Hw%Hl. destruct Hw as [(-> & k' & src & Hk' & Hs & E)|[-> _]]; [exfalso|done]. revert E. apply not_eq_sym, Hne; lia.
  - intros a Ha Hm' Hc'. rewrite last_write_app, last_write_none; [done|]. intros w Hw%Hl.
    destruct Hw as [(_ & k & src & Hk & Hs & E)|[_ [E|E]]]; [by apply (Ha k src)|done..].
Qed.

Lemma plic_warm_init_disables_witness :
  exists s', plic_warm_irqchip_init (Some (mkPlic 0xc000000 38)) 0 1 st0 = Ret 0 s' /\
    last_write (events s') 0xc002004 = Some 0 /\ last_write (events s') 0xc201000 = Some 7.
Proof.
  destruct (plic_warm_init_disables (mkPlic 0xc000000 38) 0 1 st0) as (s' & E & He & Ht & _).
  - vm_compute. split; discriminate.
  - lia.
  - lia.
  - exists s'. split; [exact E|]. split; [apply (He 0 37); simpl; lia|apply (Ht 1); lia].
Defined.

(** [plic_cold_irqchip_init] gives every source of the device priority 0,
    which never interrupts. *)
Theorem plic_cold_init_priorities p s :
  plic_ok p ->
  exists s', plic_cold_irqchip_init (Some p) s = Ret 0 s' /\
    forall src, 1 <= src <= num_src p -> last_write (events s') (priority_addr p src) = Some 0.
Proof.
  intros [Hn Hn']. assert (E : for_each (seqZ 1 (num_src p)) (fun i => plic_set_priority p i 0) s =
    Ret tt (log_events (writes ((fun i => (priority_addr p i, 0)) <$> seqZ 1 (num_src p))) s)).
  { apply for_each_writes. intros i s' Hi%elem_of_seqZ.
    unfold plic_set_priority, writel, __raw_writel, io_write, modify, u32. rewrite (wrap_small 32 (4 * i)) by (unfold fits; lia). done. }
  eexists. split; [unfold plic_cold_irqchip_init; by rewrite (bind_ret_eq _ _ _ _ _ E)|].
  intros src Hs. rewrite events_log, last_write_app, (last_write_some _ _ 0); [done| |].
  - apply list_elem_of_fmap. exists src. split; [done|]. apply elem_of_seqZ. lia.
  - intros w Hw. apply list_elem_of_fmap in Hw as (i & [= _ ->] & _). done.
Qed.

Lemma plic_cold_init_priorities_witness :
  exists s', plic_cold_irqchip_init (Some (mkPlic 0xc000000 38)) st0 = Ret 0 s' /\
    last_write (events s') 0xc000098 = Some 0.
Proof.
  destruct (plic_cold_init_priorities (mkPlic 0xc000000 38) st0) as (s' & E & He).
  - vm_compute. split; discriminate.
  - exists s'. split; [exact E|]. apply (He 38). simpl. lia.
Defined.
