(* ===== verification/Htif.v ===== *)
(** Talking to the host: lib/utils/sys/htif.c (the 64-bit version), and the test
    finisher of lib/utils/sys/sifive_test.c.

    The two words shared with the host are file-level variables; the host acts
    on them while the firmware waits. *)

From Stdlib Require Import String.
From S2P Require Import Prelude Encoding Locks Machine Platform.

Definition HTIF_DATA_MASK : Z := Z.ones 48.
Definition HTIF_DATA_SHIFT : Z := 0.
Definition HTIF_CMD_MASK : Z := Z.ones 8.
Definition HTIF_CMD_SHIFT : Z := 48.
Definition HTIF_DEV_MASK : Z := Z.ones 8.
Definition HTIF_DEV_SHIFT : Z := 56.
Definition HTIF_DEV_CONSOLE : Z := 1.
Definition HTIF_CONSOLE_CMD_GETC : Z := 0.
Definition HTIF_CONSOLE_CMD_PUTC : Z := 1.

Definition TOHOST_CMD (dev cmd payload : Z) : Z :=
  (dev <<u HTIF_DEV_SHIFT) .| (cmd <<u HTIF_CMD_SHIFT) .| u64 payload.
Definition FROMHOST_DEV (v : Z) : Z := (v >>u HTIF_DEV_SHIFT) .& HTIF_DEV_MASK.
Definition FROMHOST_CMD (v : Z) : Z := (v >>u HTIF_CMD_SHIFT) .& HTIF_CMD_MASK.
Definition FROMHOST_DATA (v : Z) : Z := (v >>u HTIF_DATA_SHIFT) .& HTIF_DATA_MASK.

Section Htif.
Context `{Hardware}.

(** An answer that is not for the console stops the hart with an illegal
    instruction. *)
Definition __check_fromhost : M unit :=
  fh ← getg "fromhost";
  if fh =? 0 then mret tt
  else
    setg "fromhost" 0;;
    if negb (FROMHOST_DEV fh =? HTIF_DEV_CONSOLE) then exits XUndef
    else if FROMHOST_CMD fh =? HTIF_CONSOLE_CMD_GETC then
      setg "htif_console_buf" (1 + u8 (FROMHOST_DATA fh))
    else if FROMHOST_CMD fh =? HTIF_CONSOLE_CMD_PUTC then mret tt
    else exits XUndef.

Definition __set_tohost (dev cmd data : Z) : M unit :=
  poll (t ← getg "tohost";
        if t =? 0 then mret (Some tt) else __check_fromhost;; mret None);;
  setg "tohost" (TOHOST_CMD dev cmd data).

Definition htif_putc (ch : Z) : M unit :=
  spin_lock_var "htif_lock";;
  __set_tohost HTIF_DEV_CONSOLE HTIF_CONSOLE_CMD_PUTC (u8 ch);;
  spin_unlock_var "htif_lock".

Definition htif_getc : M Z :=
  spin_lock_var "htif_lock";;
  __check_fromhost;;
  ch ← getg "htif_console_buf";
  when (0 <=? ch)
    (setg "htif_console_buf" (-1);; __set_tohost HTIF_DEV_CONSOLE HTIF_CONSOLE_CMD_GETC 0);;
  spin_unlock_var "htif_lock";;
  mret (ch - 1).

(** The two assignments are repeated for ever. *)
Definition htif_system_reset (type : Z) : M Z :=
  setg "fromhost" 0;; setg "tohost" 1;; exits XHang.

(** sifive_test.c *)
Definition FINISHER_PASS : Z := 21845.
Definition FINISHER_RESET : Z := 30583.

Definition sifive_test_init (base : Z) : M Z := setg "sifive_test_base" base;; mret 0.

Definition sifive_test_system_reset (type : Z) : M Z :=
  base ← getg "sifive_test_base";
  (if type =? SBI_PLATFORM_RESET_SHUTDOWN then writew FINISHER_PASS base
   else if (type =? SBI_PLATFORM_RESET_COLD) || (type =? SBI_PLATFORM_RESET_WARM) then writew FINISHER_RESET base
   else mret tt);;
  mret 0.
End Htif.

(** * The command word *)

Lemma tohost_cmd_sum dev cmd data :
  fits 8 dev -> fits 8 cmd -> fits 48 data -> TOHOST_CMD dev cmd data = 2 ^ 56 * dev + (2 ^ 48 * cmd + data).
Proof.
  unfold fits. intros Hd Hc Hp. unfold TOHOST_CMD, HTIF_DEV_SHIFT, HTIF_CMD_SHIFT, shl64, u64.
  rewrite !Z.shiftl_mul_pow2 by lia.
  rewrite !wrap_small by (unfold fits; lia). rewrite (Z.mul_comm dev), (Z.mul_comm cmd), <- Z.lor_assoc.
  rewrite (lor_high_low cmd data 48) by (unfold fits; lia). rewrite lor_high_low by (unfold fits; lia). done.
Qed.

(** Fields of a word above and below a bit. *)
Lemma shiftr_high_low q r n : 0 <= n -> fits n r -> Z.shiftr (2 ^ n * q + r) n = q.
Proof.
  intros Hn Hr. rewrite Z.shiftr_div_pow2, Z.mul_comm by done. unfold fits in Hr. rewrite Z.div_add_l by lia.
  rewrite Z.div_small by done. lia.
Qed.

Lemma tohost_fields dev cmd data :
  fits 8 dev -> fits 8 cmd -> fits 48 data ->
  let w := TOHOST_CMD dev cmd data in
  FROMHOST_DEV w = dev /\ FROMHOST_CMD w = cmd /\ FROMHOST_DATA w = data.
Proof.
  intros Hd Hc Hp w. unfold w. rewrite tohost_cmd_sum by done.
  unfold FROMHOST_DEV, FROMHOST_CMD, FROMHOST_DATA, shr64, HTIF_DEV_SHIFT, HTIF_CMD_SHIFT, HTIF_DATA_SHIFT, HTIF_DEV_MASK, HTIF_CMD_MASK, HTIF_DATA_MASK.
  rewrite !Z.land_ones by lia. split; [|split].
  - rewrite shiftr_high_low by (unfold fits in *; lia). by apply wrap_small.
  - replace (2 ^ 56 * dev + (2 ^ 48 * cmd + data)) with (2 ^ 48 * (256 * dev + cmd) + data) by lia.
    rewrite shiftr_high_low by (done || lia). change (2 ^ 8) with 256. rewrite Z.add_comm, Z.mul_comm, Z.mod_add by lia. by apply (wrap_small 8).
  - rewrite Z.shiftr_0_r. replace (2 ^ 56 * dev + (2 ^ 48 * cmd + data)) with (data + (256 * dev + cmd) * 2 ^ 48) by lia.
    rewrite Z.mod_add by lia. by apply wrap_small.
Qed.

(** A command word sent to the host and read back with the macros for the
    answers gives the device, the command and the data it was made of. *)
Theorem htif_cmd_roundtrip dev cmd data :
  fits 8 dev -> fits 8 cmd -> fits 48 data ->
  let w := TOHOST_CMD dev cmd data in
  FROMHOST_DEV w = dev /\ FROMHOST_CMD w = cmd /\ FROMHOST_DATA w = data.
Proof. apply tohost_fields. Qed.

Lemma htif_cmd_roundtrip_witness :
  FROMHOST_DEV (TOHOST_CMD 1 0 65) = 1 /\ FROMHOST_CMD (TOHOST_CMD 1 0 65) = 0 /\ FROMHOST_DATA (TOHOST_CMD 1 0 65) = 65.
Proof. apply (htif_cmd_roundtrip 1 0 65); vm_compute; split; discriminate || reflexivity. Defined.

(** The variables of the driver. *)
Definition htif_vars (s : st) (lock tohost fromhost buf : Z) : Prop :=
  gval s "htif_lock" = lock /\ gval s "tohost" = tohost /\ gval s "fromhost" = fromhost /\ gval s "htif_console_buf" = buf.

Lemma set_tohost_ready `{Hardware} dev cmd data s :
  (0 < polls)%nat -> gval s "tohost" = 0 ->
  __set_tohost dev cmd data s = Ret tt (set_glob <["tohost" := TOHOST_CMD dev cmd data]> s).
Proof.
  intros Hp Ht. unfold __set_tohost, poll. destruct polls as [|n]; [lia|]. cbn [wait_until].
  rewrite !bind_assoc. mstep. rewrite Ht. done.
Qed.

(** Reading the console through the host: when the host has answered a
    request with a character and taken the last command, [htif_getc] returns
    that character and leaves one new request; while a request is
    outstanding it answers -2 and changes nothing but the lock, which it
    gives back. *)
Theorem htif_getc_answers `{Hardware} s ch buf :
  (0 < polls)%nat -> fits 8 ch ->
  (htif_vars s 0 0 (TOHOST_CMD HTIF_DEV_CONSOLE HTIF_CONSOLE_CMD_GETC ch) buf ->
    exists s', htif_getc s = Ret ch s' /\ htif_vars s' 0 (TOHOST_CMD HTIF_DEV_CONSOLE HTIF_CONSOLE_CMD_GETC 0) 0 (-1)) /\
  (forall t, htif_vars s 0 t 0 (-1) -> exists s', htif_getc s = Ret (-2) s' /\ htif_vars s' 0 t 0 (-1)).
Proof.
  intros Hp Hc.
  assert (Hc48 : fits 48 ch) by (unfold fits in *; lia).
  destruct (tohost_fields HTIF_DEV_CONSOLE HTIF_CONSOLE_CMD_GETC ch) as (Ed & Ec & Eda); [by vm_compute..|done|].
  assert (Hne : TOHOST_CMD HTIF_DEV_CONSOLE HTIF_CONSOLE_CMD_GETC ch <> 0).
  { rewrite tohost_cmd_sum; [|by vm_compute..|done]. unfold HTIF_DEV_CONSOLE, HTIF_CONSOLE_CMD_GETC. unfold fits in Hc. lia. }
  split.
  - intros (Hl & Ht & Hf & Hb). unfold htif_getc, __check_fromhost. repeat mstep. gvals. rewrite Hf.
    rewrite (proj2 (Z.eqb_neq _ 0) Hne).
    rewrite Ed, Ec, Eda. cbn [negb Z.eqb]. change (negb (HTIF_DEV_CONSOLE =? HTIF_DEV_CONSOLE)) with false.
    change (HTIF_CONSOLE_CMD_GETC =? HTIF_CONSOLE_CMD_GETC) with true. cbv iota. repeat mstep. gvals.
    unfold u8. rewrite (wrap_small 8 ch Hc). replace (0 <=? 1 + ch) with true by (unfold fits in Hc; lia). unfold when.
    repeat mstep. rewrite ?bind_assoc. erewrite bind_ret_eq by (apply set_tohost_ready; [done|by gvals]). repeat mstep. gvals. cbn [spin_unlock].
    eexists. split; [unfold mret, M_ret; f_equal; lia|]. unfold htif_vars. by gvals.
  - intros t (Hl & Ht & Hf & Hb). unfold htif_getc, __check_fromhost. repeat mstep. gvals. rewrite Hf.
    change (0 =? 0) with true. cbv iota. repeat mstep. gvals. rewrite Hb. unfold when. change (0 <=? -1) with false. cbv iota.
    repeat mstep. gvals. eexists. split; [reflexivity|]. unfold htif_vars. by gvals.
Qed.

(** The host has sent the letter A. *)
Definition htif_st : st :=
  set_glob <["fromhost"%string := TOHOST_CMD 1 0 65]> (set_glob <["htif_console_buf"%string := -1]> st0).

Lemma htif_getc_answers_witness :
  exists s', @htif_getc plain_hw htif_st = Ret 65 s' /\ htif_vars s' 0 (TOHOST_CMD 1 0 0) 0 (-1).
Proof.
  apply (@htif_getc_answers plain_hw htif_st 65 (-1)).
  - simpl. lia.
  - vm_compute. split; discriminate || reflexivity.
  - vm_compute. repeat split; reflexivity.
Defined.
