(* ===== verification/Crc.v ===== *)
(** The checksum of the SD-card boot loader (sdboot/sd.c: [crc16_round]): the
    byte-wise routine computes the CRC-16 of the SD specification, whose
    definition by shifting one bit at a time through the generator
    [x^16 + x^12 + x^5 + 1] is [crc_bits], and what that checksum detects. *)

From S2P Require Import Prelude.

(** * The routine of the code *)

Definition crc16_round (crc data : Z) : Z :=
  let crc := u16 (u8 (Z.shiftr crc 8) .| Z.shiftl crc 8) in
  let crc := u16 (crc .^ data) in
  let crc := u16 (crc .^ (u8 (Z.shiftr crc 4) .& 15)) in
  let crc := u16 (crc .^ Z.shiftl crc 12) in
  u16 (crc .^ Z.shiftl (crc .& 255) 5).

(** The checksum of a block, as the loop of [copy] accumulates it. *)
Definition crc16 (l : list Z) : Z := foldl crc16_round 0 l.

(** * The reference definition *)

Definition crc_poly : Z := 4129.

(** One bit enters the register; when the bit shifted out differs from it the
    generator is subtracted. *)
Definition crc_bit (r : Z) (b : bool) : Z :=
  let r' := u16 (Z.shiftl r 1) in
  if xorb (Z.testbit r 15) b then r' .^ crc_poly else r'.

Definition crc_bits (r : Z) (l : list bool) : Z := foldl crc_bit r l.

(** The bits of a byte and of a block, most significant first. *)
Definition byte_bits (d : Z) : list bool :=
  [Z.testbit d 7; Z.testbit d 6; Z.testbit d 5; Z.testbit d 4;
   Z.testbit d 3; Z.testbit d 2; Z.testbit d 1; Z.testbit d 0].
Definition bits_of (l : list Z) : list bool := l ≫= byte_bits.

Definition xor_bits (l m : list bool) : list bool := zip_with xorb l m.

(** * Linearity *)

Lemma fits_poly : fits 16 crc_poly.
Proof. unfold fits, crc_poly. lia. Qed.

Lemma fits_crc_bit r b : fits 16 (crc_bit r b).
Proof. unfold crc_bit. pose proof fits_poly. destruct (xorb _ _); auto with fits. Qed.

Lemma fits_crc_bits l r : fits 16 r -> fits 16 (crc_bits r l).
Proof. revert r. induction l as [|b l IH]; intros r Hr; simpl; [done|]. apply IH, fits_crc_bit. Qed.

Lemma crc_bit_xor r s b c : crc_bit (r .^ s) (xorb b c) = crc_bit r b .^ crc_bit s c.
Proof.
  assert (E : u16 (Z.shiftl (r .^ s) 1) = u16 (Z.shiftl r 1) .^ u16 (Z.shiftl s 1)).
  { bit_ext i. destruct (i <? 16), (0 <=? i); done. }
  unfold crc_bit. rewrite Z.lxor_spec, E.
  destruct (Z.testbit r 15), (Z.testbit s 15), b, c; simpl; bit_ext i;
    destruct (Z.testbit crc_poly i), (i <? 16), (0 <=? i), (Z.testbit r (i - 1)), (Z.testbit s (i - 1)); done.
Qed.

Lemma crc_bits_xor l m r s :
  length l = length m -> crc_bits (r .^ s) (xor_bits l m) = crc_bits r l .^ crc_bits s m.
Proof.
  revert m r s. induction l as [|b l IH]; intros [|c m] r s Hl; simplify_eq/=; [done|].
  unfold crc_bits, xor_bits in *. simpl. rewrite crc_bit_xor. by apply IH.
Qed.

Lemma crc_bits_app r l m : crc_bits r (l ++ m) = crc_bits (crc_bits r l) m.
Proof. unfold crc_bits. by rewrite foldl_app. Qed.

(** The register with a byte added to its upper half takes eight zero bits as
    the register itself takes the bits of the byte. *)
Lemma crc_bits_byte r d :
  fits 8 d -> crc_bits r (byte_bits d) = crc_bits (r .^ Z.shiftl d 8) (byte_bits 0).
Proof.
  intros Hd.
  assert (E : crc_bits 0 (byte_bits d) = crc_bits (Z.shiftl d 8) (byte_bits 0)).
  { assert (H : forallb (fun d => crc_bits 0 (byte_bits d) =? crc_bits (Z.shiftl d 8) (byte_bits 0)) (seqZ 0 256) = true)
      by (vm_compute; reflexivity).
    rewrite forallb_forall in H. apply Z.eqb_eq, H, list_elem_of_In, elem_of_seqZ. unfold fits in Hd. lia. }
  replace (byte_bits d) with (xor_bits (byte_bits 0) (byte_bits d)) by done.
  rewrite <- (Z.lxor_0_r r) at 1. rewrite crc_bits_xor by done. rewrite E.
  rewrite <- crc_bits_xor by done. done.
Qed.

(** * The two agree *)

Lemma crc16_round_data crc data :
  fits 16 crc -> fits 8 data -> crc16_round crc data = crc16_round (crc .^ Z.shiftl data 8) 0.
Proof.
  intros Hc Hd.
  assert (E : u16 (u16 (u8 (Z.shiftr crc 8) .| Z.shiftl crc 8) .^ data) =
              u16 (u16 (u8 (Z.shiftr (crc .^ Z.shiftl data 8) 8) .| Z.shiftl (crc .^ Z.shiftl data 8) 8) .^ 0)).
  { bit_ext i. replace (i + 8 - 8) with i by lia. replace (0 <=? i + 8) with true by lia.
    replace (0 <=? i) with true by lia. destruct (Z.ltb_spec i 8); simpl.
    - rewrite !(Z.testbit_neg_r _ (i - 8)), (Z.testbit_neg_r _ (i - 8 - 8)) by lia.
      destruct (i <? 16), (0 <=? i - 8), (Z.testbit crc (i + 8)), (Z.testbit data i); done.
    - rewrite (testbit_fits 8 data i) by (done || lia).
      destruct (Z.ltb_spec i 16); simpl; [|done]. rewrite (Z.testbit_neg_r data (i - 8 - 8)) by lia.
      destruct (0 <=? i - 8), (Z.testbit crc (i - 8)); done. }
  unfold crc16_round. rewrite E. done.
Qed.

(** Two additive functions that agree on the powers of two agree. *)
Definition additive (f : Z -> Z) : Prop := forall r s, f (r .^ s) = f r .^ f s.

Lemma additive_ext f g (n : nat) :
  additive f -> additive g -> (forall k, (k < n)%nat -> f (2 ^ Z.of_nat k) = g (2 ^ Z.of_nat k)) ->
  forall r, fits (Z.of_nat n) r -> f r = g r.
Proof.
  intros Hf Hg. assert (H0 : forall h, additive h -> h 0 = 0).
  { intros h Hh. rewrite <- (Z.lxor_nilpotent 0) at 1. rewrite Hh. apply Z.lxor_nilpotent. }
  induction n as [|n IH]; intros Hk r Hr.
  { replace r with 0 by (unfold fits in Hr; simpl in Hr; lia). by rewrite !H0. }
  assert (E : r = wrap (Z.of_nat n) r .^ (if Z.testbit r (Z.of_nat n) then 2 ^ Z.of_nat n else 0)).
  { apply Z.bits_inj'. intros i Hi. rewrite Z.lxor_spec, testbit_wrap by lia.
    destruct (Z.lt_trichotomy i (Z.of_nat n)) as [Hlt|[->|Hgt]].
    - replace (i <? Z.of_nat n) with true by lia. destruct (Z.testbit r (Z.of_nat n)); simpl;
        rewrite ?Z.testbit_0_l, ?testbit_pow2 by lia; rewrite ?xorb_false_r; [|done].
      replace (i =? Z.of_nat n) with false by lia. by rewrite xorb_false_r.
    - rewrite Z.ltb_irrefl. simpl. destruct (Z.testbit r (Z.of_nat n)) eqn:Eb;
        [|by rewrite Z.testbit_0_l]. by rewrite testbit_pow2, Z.eqb_refl by lia.
    - rewrite (testbit_fits (Z.of_nat (S n)) r i) by (done || lia). rewrite andb_false_r. simpl.
      destruct (Z.testbit r (Z.of_nat n)); rewrite ?Z.testbit_0_l, ?testbit_pow2 by lia; [|done].
      by replace (i =? Z.of_nat n) with false by lia. }
  rewrite E, Hf, Hg. f_equal.
  - apply IH; [|apply wrap_fits; lia]. intros k Hlt. apply Hk. lia.
  - destruct (Z.testbit r (Z.of_nat n)); [apply Hk; lia|by rewrite !H0].
Qed.

(** Split a bit goal into its atoms. *)
Ltac bit_atoms :=
  repeat match goal with
  | |- context [?a <? ?b] => destruct (a <? b)
  | |- context [?a <=? ?b] => destruct (a <=? b)
  | |- context [Z.testbit ?x ?i] => destruct (Z.testbit x i)
  end; try reflexivity.

Lemma additive_swap : additive (fun c => u16 (u16 (u8 (Z.shiftr c 8) .| Z.shiftl c 8) .^ 0)).
Proof.
  intros r s. bit_ext i. destruct (Z.ltb_spec i 8); simpl.
  - rewrite !(Z.testbit_neg_r _ (i - 8)) by lia. bit_atoms.
  - bit_atoms.
Qed.
Lemma additive_fold4 : additive (fun c => u16 (c .^ (u8 (Z.shiftr c 4) .& 15))).
Proof. intros r s. bit_ext i. bit_atoms. Qed.
Lemma additive_fold12 : additive (fun c => u16 (c .^ Z.shiftl c 12)).
Proof. intros r s. bit_ext i. bit_atoms. Qed.
Lemma additive_fold5 : additive (fun c => u16 (c .^ Z.shiftl (c .& 255) 5)).
Proof. intros r s. bit_ext i. bit_atoms. Qed.

Lemma crc16_round_additive : additive (fun r => crc16_round r 0).
Proof.
  intros r s. unfold crc16_round. cbv zeta. rewrite (additive_swap r s). cbv beta.
  rewrite (additive_fold4 _ _). cbv beta. rewrite (additive_fold12 _ _). cbv beta. apply (additive_fold5 _ _).
Qed.

Lemma crc16_round_zero r : fits 16 r -> crc16_round r 0 = crc_bits r (byte_bits 0).
Proof.
  apply (additive_ext (fun r => crc16_round r 0) (fun r => crc_bits r (byte_bits 0)) 16).
  - apply crc16_round_additive.
  - intros a b. by rewrite <- crc_bits_xor.
  - intros k Hk. do 16 (destruct k as [|k]; [vm_compute; reflexivity|]). lia.
Qed.

Lemma crc16_round_eq crc data :
  fits 16 crc -> fits 8 data -> crc16_round crc data = crc_bits crc (byte_bits data).
Proof.
  intros Hc Hd. rewrite crc16_round_data, crc_bits_byte by done. apply crc16_round_zero.
  apply fits_lxor; [done| |lia]. apply fits_of_bits; [lia|apply Z.shiftl_nonneg; unfold fits in Hd; lia|].
  intros i Hi. rewrite testbit_shiftl, (testbit_fits 8) by (done || lia). by rewrite andb_false_r.
Qed.

Lemma fits_crc16_round crc data : fits 16 (crc16_round crc data).
Proof. unfold crc16_round. auto with fits. Qed.

Lemma crc16_fold l r : fits 16 r -> Forall (fits 8) l -> foldl crc16_round r l = crc_bits r (bits_of l).
Proof.
  revert r. induction l as [|d l IH]; intros r Hr Hl; [done|]. inversion_clear Hl.
  unfold bits_of. cbn [foldl mbind list_bind]. rewrite crc_bits_app, IH by auto using fits_crc16_round.
  by rewrite crc16_round_eq.
Qed.

Lemma crc16_bits l : Forall (fits 8) l -> crc16 l = crc_bits 0 (bits_of l).
Proof. apply crc16_fold. by apply fits_0. Qed.

Lemma fits_crc16 l : fits 16 (crc16 l).
Proof.
  unfold crc16. destruct l as [|d l] using rev_ind; simpl; [by apply fits_0|].
  rewrite foldl_app. apply fits_crc16_round.
Qed.

(** * What the check detects *)

(** The comparison at the end of a sector: the two bytes after the data,
    against the accumulated checksum. *)
Definition frame_ok (data : list Z) (hi lo : Z) : bool :=
  crc16 data =? u16 (Z.shiftl hi 8) .| lo.

(** At most sixteen bits bring the register to zero exactly when they are its
    leading bits and the rest of it is clear. *)
Lemma crc_bits_zero l : forall r,
  fits 16 r -> Z.of_nat (length l) <= 16 ->
  crc_bits r l = 0 <->
    (forall k b, l !! k = Some b -> b = Z.testbit r (15 - Z.of_nat k)) /\
    (forall j, 0 <= j < 16 - Z.of_nat (length l) -> Z.testbit r j = false).
Proof.
  induction l as [|b l IH]; intros r Hr Hl; cbn [length] in Hl.
  { simpl. split.
    - intros ->. split; [done|]. intros. by rewrite Z.testbit_0_l.
    - intros [_ Hj]. apply Z.bits_inj'. intros i Hi. rewrite Z.testbit_0_l.
      destruct (decide (i < 16)); [apply Hj; simpl; lia|apply (testbit_fits 16); [done|lia]]. }
  change (crc_bits r (b :: l)) with (crc_bits (crc_bit r b) l). rewrite IH by (apply fits_crc_bit || lia).
  assert (Hlow : Z.testbit (crc_bit r b) 0 = xorb (Z.testbit r 15) b).
  { unfold crc_bit. destruct (xorb _ _); autorewrite with bits; done. }
  assert (Hup : forall i, b = Z.testbit r 15 -> 0 < i < 16 -> Z.testbit (crc_bit r b) i = Z.testbit r (i - 1)).
  { intros i -> Hi. unfold crc_bit. rewrite xorb_nilpotent. cbv iota zeta. autorewrite with bits.
    replace (i <? 16) with true by lia. by replace (0 <=? i) with true by lia. }
  split.
  - intros [Hk Hj]. assert (Hb : b = Z.testbit r 15).
    { specialize (Hj 0 ltac:(lia)). rewrite Hlow in Hj. by destruct b, (Z.testbit r 15). }
    split.
    + intros [|k] c Hc; simpl in Hc; [injection Hc as <-; exact Hb|]. rewrite (Hk k c Hc).
      pose proof (lookup_lt_Some _ _ _ Hc). rewrite Hup by (done || lia). f_equal. lia.
    + intros j Hj'. cbn [length] in Hj'. rewrite <- (Hj (j + 1)) by lia. rewrite Hup by (done || lia). f_equal. lia.
  - intros [Hk Hj]. assert (Hb : b = Z.testbit r 15) by (by apply (Hk O)). split.
    + intros k c Hc. rewrite (Hk (S k) c Hc). pose proof (lookup_lt_Some _ _ _ Hc).
      rewrite Hup by (done || lia). f_equal. lia.
    + intros j Hj'. destruct (decide (j = 0)) as [->|]; [by rewrite Hlow, Hb, xorb_nilpotent|].
      rewrite Hup by (done || lia). apply Hj. cbn [length]. lia.
Qed.

Lemma crc_bits_pad n r : fits 16 r -> crc_bits r (replicate n false) = 0 <-> r = 0.
Proof.
  revert r. induction n as [|n IH]; intros r Hr; [done|].
  change (crc_bits (crc_bit r false) (replicate n false) = 0 <-> r = 0). rewrite IH by apply fits_crc_bit.
  pose proof (crc_bits_zero [false] r Hr ltac:(simpl; lia)) as H. change (crc_bits r [false]) with (crc_bit r false) in H.
  rewrite H. split.
  - intros [Hk Hj]. apply Z.bits_inj'. intros i Hi. rewrite Z.testbit_0_l.
    destruct (decide (i < 15)); [apply Hj; simpl; lia|].
    destruct (decide (i = 15)) as [->|]; [|apply (testbit_fits 16); [done|lia]]. symmetry. by apply (Hk O).
  - intros ->. split; [|intros; by rewrite Z.testbit_0_l]. intros k b Hb. rewrite Z.testbit_0_l.
    destruct k; by simplify_eq/=.
Qed.

(** A frame passes the check exactly when its checksum bytes included it leaves
    the register at zero. *)
Lemma frame_ok_residue data hi lo :
  Forall (fits 8) data -> fits 8 hi -> fits 8 lo ->
  frame_ok data hi lo = true <-> crc_bits 0 (bits_of (data ++ [hi; lo])) = 0.
Proof.
  intros Hd Hh Hl. unfold bits_of. rewrite bind_app, crc_bits_app. fold (bits_of data). rewrite <- crc16_bits by done.
  pose proof (fits_crc16 data) as Hc. set (c := crc16 data) in *.
  rewrite crc_bits_zero by (done || (cbn; lia)). unfold frame_ok. rewrite Z.eqb_eq. fold c.
  assert (E : forall i, 0 <= i < 16 -> Z.testbit (u16 (Z.shiftl hi 8) .| lo) i = if i <? 8 then Z.testbit lo i else Z.testbit hi (i - 8)).
  { intros i Hi. autorewrite with bits. destruct (Z.ltb_spec i 8); simpl.
    - rewrite (Z.testbit_neg_r hi) by lia. by rewrite !andb_false_r.
    - rewrite (testbit_fits 8 lo) by (done || lia). replace (i <? 16) with true by lia.
      replace (0 <=? i) with true by lia. simpl. by rewrite orb_false_r. }
  split.
  - intros Ec. split; [|simpl; lia]. intros k b Hb. rewrite Ec.
    do 16 (destruct k as [|k]; [simpl in Hb; injection Hb as <-; rewrite E by lia; reflexivity|]). done.
  - intros [Hk _]. apply Z.bits_inj'. intros i Hi. destruct (decide (i < 16)).
    + rewrite E by lia. assert (Hi' : exists k, (k < 16)%nat /\ i = 15 - Z.of_nat k) by (exists (Z.to_nat (15 - i)); lia).
      destruct Hi' as (k & Hk16 & ->).
      assert (Hlen : (k < length ([hi; lo] ≫= byte_bits))%nat) by (cbn; lia).
      apply lookup_lt_is_Some_2 in Hlen as [b Hb]. rewrite <- (Hk _ _ Hb).
      do 16 (destruct k as [|k]; [simpl in Hb; injection Hb as <-; reflexivity|]). lia.
    + rewrite (testbit_fits 16 c), (testbit_fits 16 (_ .| _)); (done || lia || idtac).
      apply fits_lor; [auto with fits| |lia]. unfold fits in *. lia.
Qed.

(** Two bit sequences that differ, and only within sixteen consecutive bits. *)
Definition burst (l m : list bool) : Prop :=
  exists a e c, xor_bits l m = replicate a false ++ e ++ replicate c false /\
    (length e <= 16)%nat /\ true ∈ e.

Lemma xor_bits_twice l m : length l = length m -> xor_bits l (xor_bits l m) = m.
Proof.
  revert m. induction l as [|b l IH]; intros [|c m] Hl; simplify_eq/=; [done|].
  rewrite IH by done. by destruct b, c.
Qed.

Lemma length_xor_bits l m : length l = length m -> length (xor_bits l m) = length l.
Proof. intros H. unfold xor_bits. rewrite length_zip_with. lia. Qed.

Lemma burst_residue l m :
  length l = length m -> burst l m -> crc_bits 0 l = 0 -> crc_bits 0 m <> 0.
Proof.
  intros Hl (a & e & c & Ex & He & Ht) H0 Hm.
  rewrite <- (xor_bits_twice l m Hl) in Hm. change 0 with (0 .^ 0) in Hm at 1.
  rewrite crc_bits_xor in Hm by (by rewrite length_xor_bits). rewrite H0, Z.lxor_0_l, Ex, !crc_bits_app in Hm.
  rewrite (proj2 (crc_bits_pad a 0 (fits_0 16 ltac:(lia))) eq_refl) in Hm.
  apply crc_bits_pad in Hm; [|apply fits_crc_bits, fits_0; lia].
  apply crc_bits_zero in Hm as [Hk _]; [|apply fits_0; lia|lia].
  apply list_elem_of_lookup in Ht as [k Hk']. specialize (Hk _ _ Hk'). by rewrite Z.testbit_0_l in Hk.
Qed.

(** A valid frame damaged by a burst does not pass the check. *)
Lemma burst_refused data hi lo data' hi' lo' :
  Forall (fits 8) (data ++ [hi; lo]) -> Forall (fits 8) (data' ++ [hi'; lo']) -> length data = length data' ->
  frame_ok data hi lo = true -> burst (bits_of (data ++ [hi; lo])) (bits_of (data' ++ [hi'; lo'])) ->
  frame_ok data' hi' lo' = false.
Proof.
  intros H1 H2 Hl Hok Hb. apply not_true_is_false. intros Hok'.
  rewrite !Forall_app, !Forall_cons in H1, H2. destruct H1 as (Hd & Hh & Hlo & _), H2 as (Hd' & Hh' & Hlo' & _).
  apply frame_ok_residue in Hok, Hok'; try done. revert Hok'. eapply burst_residue; [|done..].
  unfold bits_of. rewrite !bind_app, !length_app. f_equal.
  clear -Hl. revert data' Hl. induction data as [|d data IH]; intros [|d' data'] Hl; simplify_eq/=; [done|]. by rewrite (IH data').
Qed.

(** C33: The byte-at-a-time routine of the loader computes the CRC-16 of the SD
    specification: its result is that of shifting the eight bits of the byte,
    most significant first, through the generator [x^16 + x^12 + x^5 + 1]. *)
Theorem crc16_round_bitwise crc data :
  fits 16 crc -> fits 8 data -> crc16_round crc data = crc_bits crc (byte_bits data).
Proof. apply crc16_round_eq. Qed.

Lemma crc16_round_bitwise_witness : crc16_round 4660 171 = crc_bits 4660 (byte_bits 171).
Proof. apply crc16_round_bitwise; vm_compute; split; discriminate || reflexivity. Defined.
