(* ===== verification/Sdboot.v ===== *)
(** The SD-card boot loader of the board (zcu102/sdboot: sd.c, kprintf.c,
    kprintf.h and the entry code head.S): it brings up the card over SPI, reads
    the payload into memory sector by sector, checking each sector's checksum,
    and jumps to it.

    The loader runs alone on the boot hart and talks to two devices.  What it
    reads from the SPI receive register is the list [rx] of the state, which
    every polling loop consumes; running out of it means that the loader is
    still waiting ([More]).  What the UART answers to the [n]-th attempt to
    send a character is [uart_tx n].  Every access is recorded in [trace]. *)

From S2P Require Import Prelude Crc.

(** * Constants of the board (platform.h, devices/spi.h, devices/uart.h, sd.c) *)

Definition SPI_REG_SCKDIV : Z := 0.
Definition SPI_REG_CSMODE : Z := 24.
Definition SPI_REG_TXFIFO : Z := 72.
Definition SPI_CSMODE_AUTO : Z := 0.
Definition SPI_CSMODE_HOLD : Z := 2.
Definition SPI_CSMODE_OFF : Z := 3.
Definition UART_REG_TXCTRL : Z := 8.
Definition UART_TXEN : Z := 1.
Definition MEMORY_MEM_ADDR : Z := 2147483648.
Definition MEMORY_MEM_SIZE : Z := 268435456.
Definition PAYLOAD_DEST : Z := MEMORY_MEM_ADDR.
Definition PAYLOAD_SIZE_B : Z := Z.shiftl 128 20.
Definition SECTOR_SIZE_B : Z := 512.
Definition PAYLOAD_SIZE : Z := PAYLOAD_SIZE_B / SECTOR_SIZE_B.
Definition BBL_PARTITION_START_SECTOR : Z := 34.

(** * State *)

Inductive sd_event : Type :=
| SpiWrite (reg val : Z)
| UartWrite (reg val : Z)
| UartAmo (c r : Z)
| FenceI.

Record sd_st : Type := mkSd {
  rx : list Z;
  uart_n : nat;
  dram : gmap Z Z;
  trace : list sd_event
}.

Inductive sd_out (A : Type) : Type :=
| Done (a : A) (s : sd_st)
| More
| Undef.
Arguments Done {A} a s.
Arguments More {A}.
Arguments Undef {A}.

Definition SD (A : Type) : Type := sd_st -> sd_out A.

#[global] Instance SD_ret : MRet SD := fun A a s => Done a s.
#[global] Instance SD_bind : MBind SD := fun A B f m s =>
  match m s with Done a s' => f a s' | More => More | Undef => Undef end.

(** What the board contributes: the answers of the UART, how many of them the
    model looks at for one character, the clock the divisors are computed
    from, and the address of the device tree in the boot ROM. *)
Class Board : Type := {
  uart_tx : nat -> Z;
  uart_polls : nat;
  TL_CLK : Z;
  dtb : Z
}.

(** The UART takes a character after at most [uart_polls] attempts. *)
Definition uart_drains `{Board} : Prop :=
  forall n, exists k, (k < uart_polls)%nat /\ 0 <= s32 (uart_tx (n + k)).

Section Loader.
Context `{Board}.

(** * Device access *)

Definition log (e : sd_event) : SD unit := fun s =>
  Done tt (mkSd (rx s) (uart_n s) (dram s) (trace s ++ [e])).

Definition spi_write (reg val : Z) : SD unit := log (SpiWrite reg (u32 val)).
Definition store8 (p x : Z) : SD unit := fun s =>
  Done tt (mkSd (rx s) (uart_n s) (<[p := u8 x]> (dram s)) (trace s)).

(** Reads of the receive register until one is not negative. *)
Fixpoint rx_poll (l : list Z) : option (Z * list Z) :=
  match l with
  | [] => None
  | r :: l => if s32 r <? 0 then rx_poll l else Some (u8 r, l)
  end.

Definition spi_read : SD Z := fun s =>
  match rx_poll (rx s) with
  | Some (r, l) => Done r (mkSd l (uart_n s) (dram s) (trace s))
  | None => More
  end.

Definition spi_xfer (d : Z) : SD Z :=
  spi_write SPI_REG_TXFIFO (u8 d);; spi_read.

Definition sd_dummy : SD Z := spi_xfer 255.

(** * The UART *)

Fixpoint kputc_loop (fuel : nat) (c : Z) : SD unit :=
  match fuel with
  | O => fun _ => More
  | S fuel => fun s =>
    let r := uart_tx (uart_n s) in
    let s := mkSd (rx s) (S (uart_n s)) (dram s) (trace s ++ [UartAmo c r]) in
    if s32 r <? 0 then kputc_loop fuel c s else Done tt s
  end.
Definition kputc (c : Z) : SD unit := kputc_loop uart_polls c.

Fixpoint kputs_loop (s : list Z) : SD unit :=
  match s with
  | [] => mret tt
  | c :: s => if c =? 0 then mret tt else kputc c;; kputs_loop s
  end.
Definition kputs (s : list Z) : SD unit :=
  kputs_loop s;; kputc 13;; kputc 10.

(** An argument of [kprintf]: an integer of the promoted type, or a string. *)
Inductive karg : Type := KInt (n : Z) | KStr (s : list Z).

(** The digits of a [%x] conversion, [k] of them left. *)
Fixpoint kput_hex (n : Z) (k : nat) : SD unit :=
  match k with
  | O => mret tt
  | S k =>
    let d := Z.shiftr n (4 * Z.of_nat k) .& 15 in
    kputc (if d <? 10 then 48 + d else 97 + d - 10);; kput_hex n k
  end.

Definition hex_digits (is_long is_char : bool) : nat :=
  if is_long then 16 else if is_char then 2 else 8.

(** One conversion letter: [None] when the argument it needs is not there. *)
Definition kprintf_conv (c : Z) (is_long is_char : bool) (args : list karg) : option (SD unit * list karg) :=
  if c =? 120 then
    match args with
    | KInt n :: args => Some (kput_hex (if is_long then u64 n else u32 n) (hex_digits is_long is_char), args)
    | _ => None
    end
  else if c =? 115 then
    match args with KStr s :: args => Some (kputs_loop s, args) | _ => None end
  else if c =? 99 then
    match args with KInt n :: args => Some (kputc (u8 n), args) | _ => None end
  else Some (mret tt, args).

Fixpoint kprintf_loop (fmt : list Z) (is_format is_long is_char : bool) (args : list karg) : SD unit :=
  match fmt with
  | [] => mret tt
  | c :: fmt =>
    if c =? 0 then mret tt
    else if is_format then
      if c =? 108 then kprintf_loop fmt true true is_char args
      else if c =? 104 then kprintf_loop fmt true is_long true args
      else match kprintf_conv c is_long is_char args with
      | Some (m, args) => m;; kprintf_loop fmt false false false args
      | None => fun _ => Undef
      end
    else if c =? 37 then kprintf_loop fmt true is_long is_char args
    else kputc c;; kprintf_loop fmt is_format is_long is_char args
  end.
Definition kprintf (fmt : list Z) (args : list karg) : SD unit :=
  kprintf_loop fmt false false false args.

(** * The card *)

(** The do-while loop of [sd_cmd], [n] turns left. *)
Fixpoint sd_wait (n : nat) : SD Z :=
  match n with
  | O => fun _ => More
  | S n =>
    r ← sd_dummy;
    if negb (nz (r .& 128)) then mret r
    else match n with
    | O => kputs (chars "sd_cmd: timeout");; mret r
    | S _ => sd_wait n
    end
  end.

Definition sd_cmd (cmd arg crc : Z) : SD Z :=
  spi_write SPI_REG_CSMODE SPI_CSMODE_HOLD;;
  sd_dummy;;
  spi_xfer cmd;;
  spi_xfer (u8 (Z.shiftr arg 24));;
  spi_xfer (u8 (Z.shiftr arg 16));;
  spi_xfer (u8 (Z.shiftr arg 8));;
  spi_xfer (u8 arg);;
  spi_xfer crc;;
  sd_wait 1000.

Definition sd_cmd_end : SD unit :=
  sd_dummy;; spi_write SPI_REG_CSMODE SPI_CSMODE_AUTO.

Fixpoint dummies (n : nat) : SD unit :=
  match n with O => mret tt | S n => sd_dummy;; dummies n end.

Definition sd_poweron : SD unit :=
  spi_write SPI_REG_SCKDIV (TL_CLK / 300000);;
  spi_write SPI_REG_CSMODE SPI_CSMODE_OFF;;
  dummies 10;;
  spi_write SPI_REG_CSMODE SPI_CSMODE_AUTO.

(** The functions return the C truth value of "the step failed". *)
Definition differs (x y : Z) : bool := negb (x =? y).

Definition sd_cmd0 : SD bool :=
  kputs (chars "CMD0");;
  r ← sd_cmd 64 0 149;
  sd_cmd_end;;
  mret (differs r 1).

Definition sd_cmd8 : SD bool :=
  kputs (chars "CMD8");;
  r ← sd_cmd 72 426 135;
  sd_dummy;; sd_dummy;;
  v ← sd_dummy;
  p ← sd_dummy;
  sd_cmd_end;;
  mret (differs r 1 || differs (v .& 15) 1 || differs p 170).

Definition sd_cmd55 : SD unit :=
  sd_cmd 119 0 101;; sd_cmd_end.

(** Each turn reads from the card, so the length of what is left to read
    bounds the turns. *)
Fixpoint acmd41_loop (fuel : nat) : SD Z :=
  match fuel with
  | O => fun _ => More
  | S fuel =>
    sd_cmd55;;
    r ← sd_cmd 105 1073741824 119;
    if r =? 1 then acmd41_loop fuel else mret r
  end.
Definition acmd41_wait : SD Z := fun s => acmd41_loop (S (length (rx s))) s.
Definition sd_acmd41 : SD bool :=
  kputs (chars "ACMD41");;
  r ← acmd41_wait;
  mret (differs r 0).

Definition sd_cmd58 : SD bool :=
  kputs (chars "CMD58");;
  r ← sd_cmd 122 0 253;
  v ← sd_dummy;
  sd_dummy;; sd_dummy;; sd_dummy;;
  sd_cmd_end;;
  mret (differs r 0 || differs (v .& 128) 128).

Definition sd_cmd16 : SD bool :=
  kputs (chars "CMD16");;
  r ← sd_cmd 80 512 21;
  sd_cmd_end;;
  mret (differs r 0).

(** * Copying the payload *)

Definition SPIN_SHIFT : Z := 6.
Definition SPIN_UPDATE (i : Z) : bool := negb (nz (i .& (Z.shiftl 1 SPIN_SHIFT - 1))).
Definition SPIN_INDEX (i : Z) : Z := Z.shiftr i SPIN_SHIFT .& 3.
Definition spinner : list Z := [45; 47; 124; 92].

(** Skip answers until the start token of a sector. *)
Fixpoint token_loop (fuel : nat) : SD unit :=
  match fuel with
  | O => fun _ => More
  | S fuel => x ← sd_dummy; if x =? 254 then mret tt else token_loop fuel
  end.
Definition wait_token : SD unit := fun s => token_loop (S (length (rx s))) s.

(** The bytes of a sector, [n] of them left: the destination pointer and the
    checksum so far are updated with each. *)
Fixpoint read_sector (n : nat) (p crc : Z) : SD (Z * Z) :=
  match n with
  | O => mret (p, crc)
  | S n =>
    x ← sd_dummy;
    store8 p x;;
    read_sector n (p + 1) (crc16_round crc x)
  end.

Definition spin (i : Z) : SD unit :=
  if SPIN_UPDATE i then kputc 8;; kputc (nth (Z.to_nat (SPIN_INDEX i)) spinner 0) else mret tt.

(** The sectors, [i] of them left; the answer is the [rc] of [copy].  The body
    runs before [i] is looked at. *)
Fixpoint copy_loop (i : nat) (p : Z) : SD Z :=
  wait_token;;
  '(p, crc) ← read_sector (Z.to_nat SECTOR_SIZE_B) p 0;
  h ← sd_dummy;
  l ← sd_dummy;
  if crc =? (u16 (Z.shiftl h 8) .| l) then
    spin (Z.of_nat i);;
    match i with S (S _ as i') => copy_loop i' p | _ => mret 0 end
  else
    kputs (8 :: chars "- CRC mismatch ");; mret 1.

(** [copy] for a payload of [size] bytes. *)
Definition copy_n (size : Z) : SD bool :=
  kputs (chars "CMD18");;
  kprintf (chars "LOADING 0x%xB PAYLOAD" ++ [13; 10]) [KInt size];;
  kprintf (chars "LOADING  ") [];;
  spi_write SPI_REG_SCKDIV (TL_CLK / 5000000);;
  r ← sd_cmd 82 BBL_PARTITION_START_SECTOR 225;
  if differs r 0 then
    sd_cmd_end;; mret true
  else
    rc ← copy_loop (Z.to_nat (size / SECTOR_SIZE_B)) PAYLOAD_DEST;
    sd_cmd_end;;
    sd_cmd 76 0 1;;
    sd_cmd_end;;
    kputs [8; 32];;
    mret (nz rc).
Definition copy : SD bool := copy_n PAYLOAD_SIZE_B.

(** The short-circuiting chain of steps. *)
Fixpoint any_fails (l : list (SD bool)) : SD bool :=
  match l with
  | [] => mret false
  | m :: l => b ← m; if (b : bool) then mret true else any_fails l
  end.

(** [main] of the board, for a payload of [size] bytes. *)
Definition main_n (size : Z) : SD Z :=
  log (UartWrite UART_REG_TXCTRL UART_TXEN);;
  kputs (chars "INIT");;
  sd_poweron;;
  failed ← any_fails [sd_cmd0; sd_cmd8; sd_acmd41; sd_cmd58; sd_cmd16; copy_n size];
  if (failed : bool) then kputs (chars "ERROR");; mret 1
  else
    kputs (chars "BOOT");;
    log FenceI;;
    mret 0.
Definition main : SD Z := main_n PAYLOAD_SIZE_B.

(** The entry code on the boot hart: where it jumps, with [a0] and [a1]. *)
Definition prog_start (mhartid size : Z) : SD (Z * Z * Z) :=
  main_n size;;
  mret (PAYLOAD_DEST, mhartid, dtb).

End Loader.

#[global] Arguments copy_loop : simpl never.

(** How the loop of [copy] goes on. *)
Definition copy_rest `{Board} (i : nat) (p : Z) : SD Z := match i with S (S _ as i') => copy_loop i' p | _ => mret 0 end.

(** The times its body runs for a payload of [size] bytes. *)
Definition sectors (size : Z) : nat := Nat.max 1 (Z.to_nat (size / SECTOR_SIZE_B)).

(** * Runs *)

(** The run ends, in a state that satisfies [Q]. *)
Definition runs {A} (m : SD A) (s : sd_st) (Q : A -> sd_st -> Prop) : Prop :=
  match m s with Done a s' => Q a s' | _ => False end.
(** If the run ends, it is in such a state. *)
Definition ensures {A} (m : SD A) (s : sd_st) (Q : A -> sd_st -> Prop) : Prop :=
  match m s with Done a s' => Q a s' | _ => True end.

Lemma runs_ret {A} (a : A) s (Q : A -> sd_st -> Prop) : Q a s -> runs (mret a) s Q.
Proof. done. Qed.
Lemma runs_bind {A B} (m : SD A) (f : A -> SD B) s (P : A -> sd_st -> Prop) Q :
  runs m s P -> (forall a s', P a s' -> runs (f a) s' Q) -> runs (m ≫= f) s Q.
Proof. unfold runs, mbind, SD_bind. intros HP Hf. destruct (m s); [by apply Hf|done..]. Qed.
Lemma runs_mono {A} (m : SD A) s (P Q : A -> sd_st -> Prop) :
  runs m s P -> (forall a s', P a s' -> Q a s') -> runs m s Q.
Proof. unfold runs. destruct (m s); auto. Qed.
Lemma ensures_ret {A} (a : A) s (Q : A -> sd_st -> Prop) : Q a s -> ensures (mret a) s Q.
Proof. done. Qed.
Lemma ensures_bind {A B} (m : SD A) (f : A -> SD B) s (P : A -> sd_st -> Prop) Q :
  ensures m s P -> (forall a s', P a s' -> ensures (f a) s' Q) -> ensures (m ≫= f) s Q.
Proof. unfold ensures, mbind, SD_bind. intros HP Hf. destruct (m s); [by apply Hf|done..]. Qed.
Lemma ensures_mono {A} (m : SD A) s (P Q : A -> sd_st -> Prop) :
  ensures m s P -> (forall a s', P a s' -> Q a s') -> ensures m s Q.
Proof. unfold ensures. destruct (m s); auto. Qed.

(** The bytes sent to the card, and the text the UART has taken. *)
Definition sent_of (e : sd_event) : option Z :=
  match e with SpiWrite reg v => if reg =? SPI_REG_TXFIFO then Some v else None | _ => None end.
Definition sent (s : sd_st) : list Z := omap sent_of (trace s).
Definition text_of (e : sd_event) : option Z :=
  match e with UartAmo c r => if s32 r <? 0 then None else Some c | _ => None end.
Definition text (s : sd_st) : list Z := omap text_of (trace s).

(** Printing leaves the card and the memory alone. *)
Definition same_io (s s' : sd_st) : Prop := rx s' = rx s /\ dram s' = dram s /\ sent s' = sent s.

Lemma same_io_refl s : same_io s s.
Proof. done. Qed.
Lemma same_io_trans s1 s2 s3 : same_io s1 s2 -> same_io s2 s3 -> same_io s1 s3.
Proof. unfold same_io. naive_solver congruence. Qed.

(** [n] bytes received one after the other. *)
Fixpoint rx_take (n : nat) (l : list Z) : option (list Z * list Z) :=
  match n with
  | O => Some ([], l)
  | S n => '(x, l) ← rx_poll l; '(xs, l) ← rx_take n l; Some (x :: xs, l)
  end.

Definition receives (l bs l' : list Z) : Prop := rx_take (length bs) l = Some (bs, l').

Lemma receives_cons l x bs l' :
  receives l (x :: bs) l' <-> exists l1, rx_poll l = Some (x, l1) /\ receives l1 bs l'.
Proof.
  unfold receives. simpl. destruct (rx_poll l) as [[y l1]|]; simpl; [|naive_solver].
  split.
  - intros Ht. destruct (rx_take (length bs) l1) as [[ys l2]|] eqn:E; simplify_eq/=. eauto.
  - intros (l2 & [= -> ->] & ->). done.
Qed.
Lemma receives_nil l l' : receives l [] l' <-> l' = l.
Proof. unfold receives. simpl. naive_solver. Qed.

Lemma receives_app bs1 bs2 l l' :
  receives l (bs1 ++ bs2) l' <-> exists l1, receives l bs1 l1 /\ receives l1 bs2 l'.
Proof.
  revert l. induction bs1 as [|x bs1 IH]; intros l; cbn [app].
  - setoid_rewrite receives_nil. naive_solver.
  - setoid_rewrite receives_cons. setoid_rewrite IH. naive_solver.
Qed.

Lemma rx_poll_byte l x l' : rx_poll l = Some (x, l') -> fits 8 x /\ (length l' < length l)%nat.
Proof.
  induction l as [|r l IH]; simpl; [done|]. destruct (s32 r <? 0).
  - intros [? ?]%IH. split; [done|lia].
  - intros [= <- <-]. auto with fits.
Qed.

Lemma receives_fits l bs l' : receives l bs l' -> Forall (fits 8) bs.
Proof.
  revert l. induction bs as [|x bs IH]; intros l Hr; constructor; apply receives_cons in Hr as (l1 & Hp & Hr).
  - by apply rx_poll_byte in Hp as [? _].
  - eauto.
Qed.

(** Memory after storing bytes from an address on. *)
Fixpoint write_bytes (p : Z) (l : list Z) (m : gmap Z Z) : gmap Z Z :=
  match l with [] => m | x :: l => write_bytes (p + 1) l (<[p := x]> m) end.

Lemma write_bytes_app p l1 l2 m :
  write_bytes p (l1 ++ l2) m = write_bytes (p + Z.of_nat (length l1)) l2 (write_bytes p l1 m).
Proof.
  revert p m. induction l1 as [|x l1 IH]; intros p m; simpl; [by rewrite Z.add_0_r|].
  rewrite IH. f_equal. lia.
Qed.

Lemma lookup_write_bytes p l m a :
  write_bytes p l m !! a = if decide (p <= a < p + Z.of_nat (length l)) then l !! Z.to_nat (a - p) else m !! a.
Proof.
  revert p m. induction l as [|x l IH]; intros p m; cbn [write_bytes length].
  { rewrite decide_False by lia. done. }
  rewrite IH. destruct (decide (a = p)) as [->|].
  - rewrite decide_False, decide_True by lia. by rewrite lookup_insert_eq, Z.sub_diag.
  - destruct (decide (p + 1 <= a < p + 1 + Z.of_nat (length l))).
    + rewrite decide_True by lia. replace (Z.to_nat (a - p)) with (S (Z.to_nat (a - (p + 1)))) by lia. done.
    + rewrite decide_False by lia. by rewrite lookup_insert_ne.
Qed.

Create HintDb keeps discriminated.

Section Proofs.
Context `{Board}.

(** ** Steps that leave the memory alone *)

Definition keeps {A} (m : SD A) : Prop :=
  forall s, ensures m s (fun _ s' => dram s' = dram s /\ rx s' `suffix_of` rx s).

Lemma keeps_ret {A} (a : A) : keeps (mret a).
Proof. by intros s. Qed.
Lemma keeps_bind {A B} (m : SD A) (f : A -> SD B) : keeps m -> (forall a, keeps (f a)) -> keeps (m ≫= f).
Proof.
  intros Hm Hf s. eapply ensures_bind; [apply Hm|]. intros a s' [Hd Hr].
  eapply ensures_mono; [apply Hf|]. intros b s'' [Hd' Hr']. split; [congruence|by etrans].
Qed.
Lemma keeps_log e : keeps (log e).
Proof. by intros s. Qed.
Lemma keeps_more {A} : keeps (fun _ => @More A).
Proof. by intros s. Qed.
Lemma keeps_undef {A} : keeps (fun _ => @Undef A).
Proof. by intros s. Qed.
Lemma keeps_if {A} (b : bool) (m m' : SD A) : keeps m -> keeps m' -> keeps (if b then m else m').
Proof. by destruct b. Qed.

Lemma rx_poll_suffix l x l' : rx_poll l = Some (x, l') -> l' `suffix_of` l.
Proof.
  induction l as [|r l IH]; simpl; [done|]. destruct (s32 r <? 0).
  - intros Hl. by apply suffix_cons_r, IH.
  - intros [= _ <-]. by exists [r].
Qed.

Lemma keeps_spi_read : keeps spi_read.
Proof.
  intros s. unfold ensures, spi_read. destruct (rx_poll (rx s)) as [[x l]|] eqn:E; [|done].
  split; [done|]. by eapply rx_poll_suffix.
Qed.

Lemma keeps_kputc c : keeps (kputc c).
Proof.
  unfold kputc. induction uart_polls as [|n IH]; [apply keeps_more|]. intros s. unfold ensures. cbn [kputc_loop].
  destruct (s32 (uart_tx (uart_n s)) <? 0); [|done]. apply (IH (mkSd _ _ _ _)).
Qed.

#[local] Hint Resolve keeps_ret keeps_bind keeps_log keeps_more keeps_undef keeps_if keeps_spi_read keeps_kputc : keeps.
Ltac keeps :=
  repeat match goal with |- keeps (mbind _ _) => apply keeps_bind; [|intros ?] end; eauto with keeps.

Lemma keeps_spi_xfer d : keeps (spi_xfer d).
Proof. unfold spi_xfer, spi_write. keeps. Qed.
Lemma keeps_kputs_loop l : keeps (kputs_loop l).
Proof. induction l as [|c l IH]; simpl; [|destruct (c =? 0)]; keeps. Qed.
#[local] Hint Resolve keeps_spi_xfer keeps_kputs_loop : keeps.
Lemma keeps_kputs l : keeps (kputs l).
Proof. unfold kputs. keeps. Qed.
Lemma keeps_kput_hex n k : keeps (kput_hex n k).
Proof. induction k as [|k IH]; simpl; keeps. Qed.
#[local] Hint Resolve keeps_kputs keeps_kput_hex : keeps.

Lemma keeps_kprintf_conv c b1 b2 args m args' : kprintf_conv c b1 b2 args = Some (m, args') -> keeps m.
Proof.
  unfold kprintf_conv. repeat case_match; intros; simplify_eq; eauto with keeps.
Qed.
Lemma keeps_kprintf_loop fmt b1 b2 b3 args : keeps (kprintf_loop fmt b1 b2 b3 args).
Proof.
  revert b1 b2 b3 args. induction fmt as [|c fmt IH]; intros b1 b2 b3 args; simpl; [keeps|].
  repeat case_match; keeps; eauto using keeps_kprintf_conv.
Qed.
Lemma keeps_kprintf fmt args : keeps (kprintf fmt args).
Proof. apply keeps_kprintf_loop. Qed.

Lemma keeps_sd_dummy : keeps sd_dummy.
Proof. apply keeps_spi_xfer. Qed.
#[local] Hint Resolve keeps_kprintf keeps_sd_dummy : keeps.
Lemma keeps_sd_wait n : keeps (sd_wait n).
Proof.
  induction n as [|n IH]; [apply keeps_more|]. cbn [sd_wait]. keeps. apply keeps_if; [keeps|]. destruct n; [keeps|exact IH].
Qed.
Lemma keeps_sd_cmd_end : keeps sd_cmd_end.
Proof. unfold sd_cmd_end, spi_write. keeps. Qed.
#[local] Hint Resolve keeps_sd_wait keeps_sd_cmd_end : keeps.
Lemma keeps_sd_cmd cmd arg crc : keeps (sd_cmd cmd arg crc).
Proof. unfold sd_cmd, spi_write. keeps. Qed.
#[local] Hint Resolve keeps_sd_cmd : keeps.
Lemma keeps_acmd41_loop n : keeps (acmd41_loop n).
Proof. induction n as [|n IH]; simpl; unfold sd_cmd55; keeps. Qed.
Lemma keeps_token_loop n : keeps (token_loop n).
Proof. induction n as [|n IH]; simpl; keeps. Qed.
Lemma keeps_dummies n : keeps (dummies n).
Proof. induction n as [|n IH]; simpl; keeps. Qed.
#[local] Hint Resolve keeps_dummies : keeps.

Lemma keeps_sd_poweron : keeps sd_poweron.
Proof. unfold sd_poweron, spi_write. keeps. Qed.
Lemma keeps_acmd41_wait : keeps acmd41_wait.
Proof. intros s. apply keeps_acmd41_loop. Qed.
#[local] Hint Resolve keeps_acmd41_wait : keeps.

(** The five steps before the copy. *)
Lemma keeps_init_steps : Forall keeps [sd_cmd0; sd_cmd8; sd_acmd41; sd_cmd58; sd_cmd16].
Proof.
  repeat constructor; unfold sd_cmd0, sd_cmd8, sd_acmd41, sd_cmd58, sd_cmd16; keeps.
Qed.

End Proofs.

(** * What the steps do *)

Section Steps.
Context `{Board}.

Lemma ensures_xfer d s :
  ensures (spi_xfer d) s (fun x s' =>
    rx_poll (rx s) = Some (x, rx s') /\ dram s' = dram s /\ sent s' = sent s ++ [u8 d]).
Proof.
  unfold ensures, spi_xfer, spi_write, log, spi_read, mbind, SD_bind. simpl.
  destruct (rx_poll (rx s)) as [[x l]|]; [|done]. repeat split. unfold sent. simpl. rewrite omap_app. simpl.
  unfold u32. rewrite (wrap_small 32 (u8 d)); [done|]. pose proof (fits_u8 d). unfold fits in *. lia.
Qed.

Lemma runs_ensures {A} (m : SD A) s (P Q : A -> sd_st -> Prop) :
  runs m s P -> ensures m s Q -> runs m s (fun a s' => P a s' /\ Q a s').
Proof. unfold runs, ensures. destruct (m s); done. Qed.

Lemma runs_xfer d s x l :
  rx_poll (rx s) = Some (x, l) ->
  runs (spi_xfer d) s (fun y s' => y = x /\ rx s' = l /\ dram s' = dram s /\ sent s' = sent s ++ [u8 d]).
Proof.
  intros Hp. assert (Hr : runs (spi_xfer d) s (fun _ _ => True)).
  { unfold runs, spi_xfer, spi_write, log, spi_read, mbind, SD_bind. simpl. by rewrite Hp. }
  eapply runs_mono; [apply (runs_ensures _ _ _ _ Hr (ensures_xfer d s))|].
  intros y s' (_ & Hp' & Hd & Hs). rewrite Hp in Hp'. by simplify_eq.
Qed.

(** ** The console *)

(** The run ends having printed the characters, and nothing else. *)
Definition kprints {A} (l : list Z) (m : SD A) : Prop :=
  forall s, runs m s (fun _ s' => same_io s s' /\ text s' = text s ++ l).

Lemma kprints_ret {A} (a : A) : kprints [] (mret a).
Proof. intros s. apply runs_ret. by rewrite app_nil_r. Qed.
Lemma kprints_bind {A B} l1 l2 (m : SD A) (f : A -> SD B) :
  kprints l1 m -> (forall a, kprints l2 (f a)) -> kprints (l1 ++ l2) (m ≫= f).
Proof.
  intros Hm Hf s. eapply runs_bind; [apply Hm|]. intros a s' [Hio Ht].
  eapply runs_mono; [apply Hf|]. intros b s'' [Hio' Ht']. split; [by eapply same_io_trans|].
  by rewrite Ht', Ht, app_assoc.
Qed.

Lemma kputc_loop_runs c fuel s :
  (exists k, (k < fuel)%nat /\ 0 <= s32 (uart_tx (uart_n s + k))) ->
  runs (kputc_loop fuel c) s (fun _ s' => same_io s s' /\ text s' = text s ++ [c]).
Proof.
  revert s. induction fuel as [|fuel IH]; intros s (k & Hk & Hr); [lia|].
  unfold runs. cbn [kputc_loop]. destruct (s32 (uart_tx (uart_n s)) <? 0) eqn:E.
  - eapply (runs_mono _ (mkSd _ _ _ _)).
    + apply IH. exists (k - 1)%nat. cbn [uart_n]. destruct k as [|k].
      { rewrite Nat.add_0_r in Hr. lia. }
      split; [lia|]. by replace (S (uart_n s) + (S k - 1))%nat with (uart_n s + S k)%nat by lia.
    + intros [] s' [(Hrx & Hd & Hs) Ht]. unfold same_io, sent, text in *. simpl in *.
      rewrite omap_app in *. simpl in *. rewrite E, !app_nil_r in *. done.
  - unfold same_io, sent, text. simpl. rewrite !omap_app. simpl. by rewrite E, app_nil_r.
Qed.

Hypothesis drains : uart_drains.

Lemma kprints_kputc c : kprints [c] (kputc c).
Proof. intros s. apply kputc_loop_runs, drains. Qed.

(** The characters of a C string. *)
Fixpoint c_string (l : list Z) : list Z :=
  match l with [] => [] | c :: l => if c =? 0 then [] else c :: c_string l end.

Lemma kprints_kputs_loop l : kprints (c_string l) (kputs_loop l).
Proof.
  induction l as [|c l IH]; simpl; [apply kprints_ret|]. destruct (c =? 0); [apply kprints_ret|].
  apply (kprints_bind [c]); [apply kprints_kputc|done].
Qed.
Lemma kprints_kputs l : kprints (c_string l ++ [13; 10]) (kputs l).
Proof.
  unfold kputs. apply kprints_bind; [apply kprints_kputs_loop|]. intros _.
  apply (kprints_bind [13] [10]); [apply kprints_kputc|]. intros _. apply kprints_kputc.
Qed.

(** The text of a hexadecimal field of [k] digits. *)
Definition hex_char (d : Z) : Z := if d <? 10 then 48 + d else 97 + d - 10.
Fixpoint hex_text (n : Z) (k : nat) : list Z :=
  match k with O => [] | S k => hex_char (Z.shiftr n (4 * Z.of_nat k) .& 15) :: hex_text n k end.

Lemma kprints_kput_hex n k : kprints (hex_text n k) (kput_hex n k).
Proof.
  induction k as [|k IH]; cbn [hex_text kput_hex]; [apply kprints_ret|].
  apply (kprints_bind [_]); [apply kprints_kputc|done].
Qed.

(** What a format asks to be printed; nothing when it needs an argument that
    is not there. *)
Definition kconv_text (c : Z) (is_long is_char : bool) (args : list karg) : option (list Z * list karg) :=
  if c =? 120 then
    match args with
    | KInt n :: args => Some (hex_text (if is_long then u64 n else u32 n) (hex_digits is_long is_char), args)
    | _ => None
    end
  else if c =? 115 then match args with KStr s :: args => Some (c_string s, args) | _ => None end
  else if c =? 99 then match args with KInt n :: args => Some ([u8 n], args) | _ => None end
  else Some ([], args).
Fixpoint kformat (fmt : list Z) (is_format is_long is_char : bool) (args : list karg) : option (list Z) :=
  match fmt with
  | [] => Some []
  | c :: fmt =>
    if c =? 0 then Some []
    else if is_format then
      if c =? 108 then kformat fmt true true is_char args
      else if c =? 104 then kformat fmt true is_long true args
      else '(l, args) ← kconv_text c is_long is_char args; app l <$> kformat fmt false false false args
    else if c =? 37 then kformat fmt true is_long is_char args
    else cons c <$> kformat fmt is_format is_long is_char args
  end.

Lemma kprints_kprintf_conv c b1 b2 args l args' :
  kconv_text c b1 b2 args = Some (l, args') -> exists m, kprintf_conv c b1 b2 args = Some (m, args') /\ kprints l m.
Proof.
  unfold kconv_text, kprintf_conv.
  destruct (c =? 120), (c =? 115), (c =? 99); destruct args as [|[n|s] args]; intros; simplify_eq;
    eexists; (split; [reflexivity|]);
    auto using kprints_kput_hex, kprints_kputs_loop, kprints_kputc, kprints_ret.
Qed.

Lemma kprints_kprintf_loop fmt b1 b2 b3 args l :
  kformat fmt b1 b2 b3 args = Some l -> kprints l (kprintf_loop fmt b1 b2 b3 args).
Proof.
  revert b1 b2 b3 args l. induction fmt as [|c fmt IH]; intros b1 b2 b3 args l; cbn [kformat kprintf_loop].
  { intros [= <-]. apply kprints_ret. }
  destruct (c =? 0); [intros [= <-]; apply kprints_ret|]. destruct b1; [|destruct (c =? 37); [apply IH|]].
  - destruct (c =? 108); [apply IH|]. destruct (c =? 104); [apply IH|].
    destruct (kconv_text c b2 b3 args) as [[l1 args']|] eqn:E; cbn; [|done].
    intros (l2 & Hl & ->)%fmap_Some. apply kprints_kprintf_conv in E as (m & -> & Hm).
    apply kprints_bind; [done|]. intros _. by apply IH.
  - intros (l2 & Hl & ->)%fmap_Some. apply (kprints_bind [c] l2); [apply kprints_kputc|]. intros _. by apply IH.
Qed.

End Steps.

(** * The card's answers *)

(** The answer to a command: the bytes that come while the command goes out,
    then bytes with the top bit set, then the answer; a thousand bytes with
    the top bit set are a timeout. *)
Definition busy_byte (b : Z) : bool := nz (b .& 128).
Definition answered (n : nat) (l : list Z) (r : Z) (l' : list Z) : Prop :=
  exists busy, receives l (busy ++ [r]) l' /\ Forall (fun b => busy_byte b = true) busy /\
    (length busy < n)%nat /\ (busy_byte r = true -> S (length busy) = n).
Definition cmd_answer (l : list Z) (r : Z) (l' : list Z) : Prop :=
  exists pre l1, length pre = 7%nat /\ receives l pre l1 /\ answered 1000 l1 r l'.

Section Card.
Context `{Board}.
Hypothesis drains : uart_drains.

(** The run ends having exchanged bytes only: what is left to read, and what
    was sent. *)
Definition talks (s : sd_st) (l out : list Z) (s' : sd_st) : Prop :=
  rx s' = l /\ dram s' = dram s /\ sent s' = sent s ++ out.

Lemma talks_trans s1 s2 s3 l1 l2 o1 o2 : talks s1 l1 o1 s2 -> talks s2 l2 o2 s3 -> talks s1 l2 (o1 ++ o2) s3.
Proof. intros (? & ? & Hs1) (? & ? & Hs2). repeat split; [done|congruence|]. by rewrite Hs2, Hs1, app_assoc. Qed.
Lemma talks_same_io s s' : same_io s s' -> talks s (rx s) [] s'.
Proof. intros (? & ? & ?). repeat split; [done..|]. by rewrite app_nil_r. Qed.

Lemma xfer_talks d s x l :
  rx_poll (rx s) = Some (x, l) -> runs (spi_xfer d) s (fun y s' => y = x /\ talks s l [u8 d] s').
Proof. apply runs_xfer. Qed.

Lemma kprints_talks {A} l (m : SD A) s : kprints l m -> runs m s (fun _ s' => talks s (rx s) [] s').
Proof. intros Hp. eapply runs_mono; [apply Hp|]. intros a s' [Hio _]. by apply talks_same_io. Qed.

Lemma log_talks reg v s : reg <> SPI_REG_TXFIFO -> runs (spi_write reg v) s (fun _ s' => talks s (rx s) [] s').
Proof.
  intros Hr. unfold runs, spi_write, log, talks, sent. simpl. rewrite omap_app. simpl.
  replace (reg =? SPI_REG_TXFIFO) with false by lia. done.
Qed.

(** Run one exchange and continue from the state after it; [R] speaks of the
    bytes sent from the first state on. *)
Lemma runs_step {A B} (m : SD A) (f : A -> SD B) s l o a l' (R : list Z -> B -> Prop) :
  runs m s (fun y s' => y = a /\ talks s l o s') ->
  (forall s', rx s' = l -> runs (f a) s' (fun b s'' => exists o', R (o ++ o') b /\ talks s' l' o' s'')) ->
  runs (m ≫= f) s (fun b s'' => exists o', R o' b /\ talks s l' o' s'').
Proof.
  intros Hm Hf. eapply runs_bind; [exact Hm|]. intros y s' [-> Ht]. eapply runs_mono; [apply Hf, Ht|].
  intros b s'' (o' & HR & Ht'). eexists. split; [exact HR|]. by eapply talks_trans.
Qed.

Ltac xfer :=
  eapply runs_step;
  [apply xfer_talks; match goal with Hs : rx ?s = _ |- rx_poll (rx ?s) = _ => rewrite Hs end; eassumption
  |intros ? ?].

Lemma sd_wait_runs n s r l :
  answered n (rx s) r l ->
  runs (sd_wait n) s (fun a s' => exists k, (k <= n)%nat /\ a = r /\ talks s l (replicate k 255) s').
Proof.
  revert s. induction n as [|n IH]; intros s (busy & Hr & Hb & Hn & Ht); [lia|]. cbn [sd_wait].
  destruct busy as [|b busy]; cbn [app] in Hr; apply receives_cons in Hr as (l1 & Hp & Hr);
    (eapply runs_bind; [apply (xfer_talks 255), Hp|]); intros y s' [-> Htk]; fold (busy_byte r).
  - apply receives_nil in Hr as <-. destruct (busy_byte r) eqn:Er; cbn [negb].
    + specialize (Ht eq_refl). cbn [length] in Ht. replace n with O by lia.
      eapply runs_bind; [eapply kprints_talks, kprints_kputs, drains|]. intros ? s'' Htk'. apply runs_ret.
      exists 1%nat. split; [lia|]. split; [done|]. rewrite (proj1 Htk) in Htk'. exact (talks_trans _ _ _ _ _ _ _ Htk Htk').
    + apply runs_ret. exists 1%nat. split; [lia|]. split; [done|exact Htk].
  - inversion_clear Hb as [|? ? Eb Hb']. unfold busy_byte in Eb. rewrite Eb. cbn [negb]. cbn [length] in Hn, Ht.
    destruct n as [|n]; [lia|]. destruct Htk as (Hrx & Htk). eapply runs_mono.
    + apply IH. rewrite Hrx. exists busy. split; [done|]. split; [done|]. split; [lia|]. intros E. specialize (Ht E). lia.
    + intros a s'' (k & Hk & -> & Htk'). exists (S k). split; [lia|]. split; [done|].
      change (replicate (S k) 255) with ([u8 255] ++ replicate k 255). eapply talks_trans; [|done]. done.
Qed.

(** The six bytes of a command after the byte that selects the card. *)
Definition cmd_frame (cmd arg crc : Z) : list Z :=
  [u8 cmd; u8 (Z.shiftr arg 24); u8 (Z.shiftr arg 16); u8 (Z.shiftr arg 8); u8 arg; u8 crc].

Lemma u8_u8 x : u8 (u8 x) = u8 x.
Proof. by apply wrap_wrap. Qed.

Lemma sd_cmd_runs cmd arg crc s r l :
  cmd_answer (rx s) r l ->
  runs (sd_cmd cmd arg crc) s (fun a s' => exists k, (k <= 1000)%nat /\ a = r /\
    talks s l (255 :: cmd_frame cmd arg crc ++ replicate k 255) s').
Proof.
  intros (pre & l1 & Hlen & Hpre & Ha).
  do 7 (destruct pre as [|? pre]; [done|]). destruct pre; [|done]. clear Hlen.
  repeat (apply receives_cons in Hpre as (? & ? & Hpre)). apply receives_nil in Hpre as ->.
  unfold sd_cmd. eapply runs_mono.
  - eapply (runs_step (spi_write _ _) _ _ _ _ tt l (fun o a => exists k, (k <= 1000)%nat /\ a = r /\ o = 255 :: cmd_frame cmd arg crc ++ replicate k 255)).
    { eapply runs_mono; [by apply log_talks|]. by intros [] ? ?. }
    intros s0 Hs0. do 7 xfer.
    match goal with Hs : rx ?s = _ |- runs _ ?s _ => rewrite <- Hs in Ha end.
    eapply runs_mono; [by apply sd_wait_runs|]. intros a sf (k & Hk & -> & Ht). eexists. split; [|exact Ht].
    exists k. rewrite !u8_u8. done.
  - intros a s' (o & (k & Hk & -> & ->) & Ht). eauto.
Qed.

(** Given enough bytes, whatever they are, a command is answered. *)
Lemma answered_total n l bs l' :
  receives l bs l' -> length bs = S n -> exists r l1, answered (S n) l r l1.
Proof.
  revert l bs. induction n as [|n IH]; intros l [|b bs] Hr Hl; simplify_eq/=.
  - destruct bs; [|done]. exists b, l'. exists []. repeat split; [done..|]. simpl. lia.
  - apply receives_cons in Hr as (l1 & Hp & Hr). destruct (busy_byte b) eqn:Eb.
    + destruct (IH _ _ Hr) as (r & l2 & busy & Hr' & Hb & Hn & Ht); [done|]. exists r, l2, (b :: busy).
      split; [apply receives_cons; eauto|]. split; [by constructor|]. simpl. split; [lia|]. intros E. specialize (Ht E). lia.
    + exists b, l1, []. split; [apply receives_cons; exists l1; by rewrite receives_nil|]. split; [done|]. simpl. split; [lia|congruence].
Qed.

Lemma cmd_answer_total l bs l' :
  receives l bs l' -> length bs = 1007%nat -> exists r l1, cmd_answer l r l1.
Proof.
  intros Hr Hl. rewrite <- (take_drop 7 bs) in Hr. apply receives_app in Hr as (l1 & Hr1 & Hr2).
  destruct (answered_total 999 _ _ _ Hr2) as (r & l2 & Ha); [rewrite length_drop; lia|].
  exists r, l2, (take 7 bs), l1. split; [|done]. rewrite length_take. lia.
Qed.

(** ** Sectors *)

Lemma token_loop_runs fuel s pre l :
  receives (rx s) (pre ++ [254]) l -> Forall (fun b => b <> 254) pre -> (length pre < fuel)%nat ->
  runs (token_loop fuel) s (fun _ s' => rx s' = l /\ dram s' = dram s).
Proof.
  revert s pre. induction fuel as [|fuel IH]; intros s pre Hr Hp Hn; [lia|]. cbn [token_loop].
  destruct pre as [|b pre]; cbn [app] in Hr; apply receives_cons in Hr as (l1 & Hpo & Hr);
    (eapply runs_bind; [apply (xfer_talks 255), Hpo|]); intros y s' [-> (Hrx & Hd & _)].
  - apply receives_nil in Hr as ->. by apply runs_ret.
  - inversion_clear Hp as [|? ? Hb Hp']. rewrite (proj2 (Z.eqb_neq b 254) Hb). eapply runs_mono.
    + apply (IH s' pre); [by rewrite Hrx|done|simpl in Hn; lia].
    + intros u s'' [? Hd']. split; [done|congruence].
Qed.

Lemma receives_length l bs l' : receives l bs l' -> (length bs + length l' <= length l)%nat.
Proof.
  revert l. induction bs as [|b bs IH]; intros l Hr; [apply receives_nil in Hr as ->; simpl; lia|].
  apply receives_cons in Hr as (l1 & [_ Hp]%rx_poll_byte & Hr). apply IH in Hr. simpl. lia.
Qed.

Lemma wait_token_runs s pre l :
  receives (rx s) (pre ++ [254]) l -> Forall (fun b => b <> 254) pre ->
  runs wait_token s (fun _ s' => rx s' = l /\ dram s' = dram s).
Proof.
  intros Hr Hp. eapply token_loop_runs; [done..|]. apply receives_length in Hr. rewrite length_app in Hr. simpl in Hr. lia.
Qed.

Lemma token_loop_ensures fuel s :
  ensures (token_loop fuel) s (fun _ s' => dram s' = dram s /\
    exists pre, receives (rx s) (pre ++ [254]) (rx s') /\ Forall (fun b => b <> 254) pre).
Proof.
  revert s. induction fuel as [|fuel IH]; intros s; [done|]. cbn [token_loop].
  eapply ensures_bind; [apply (ensures_xfer 255)|]. intros x s' (Hp & Hd & _). destruct (Z.eqb_spec x 254) as [->|Hx].
  - apply ensures_ret. split; [done|]. exists []. split; [apply receives_cons; eexists; split; [done|]; by apply receives_nil|done].
  - eapply ensures_mono; [apply IH|]. intros u s'' (Hd' & pre & Hr & Hf). split; [congruence|].
    exists (x :: pre). split; [|by constructor]. apply receives_cons. eauto.
Qed.

Lemma store8_eq p x s : store8 p x s = Done tt (mkSd (rx s) (uart_n s) (<[p := u8 x]> (dram s)) (trace s)).
Proof. done. Qed.

Lemma read_sector_runs n p crc s data l :
  receives (rx s) data l -> length data = n ->
  runs (read_sector n p crc) s (fun a s' => a = (p + Z.of_nat n, foldl crc16_round crc data) /\
    rx s' = l /\ dram s' = write_bytes p data (dram s)).
Proof.
  revert p crc s data. induction n as [|n IH]; intros p crc s [|x data] Hr Hl; simplify_eq/=.
  { apply receives_nil in Hr as ->. apply runs_ret. by rewrite Z.add_0_r. }
  apply receives_cons in Hr as (l1 & Hp & Hr). eapply runs_bind; [apply (xfer_talks 255), Hp|].
  intros y s' [-> (Hrx & Hd & _)]. apply rx_poll_byte in Hp as [Hx _].
  eapply (runs_bind _ _ _ (fun _ s'' => rx s'' = l1 /\ dram s'' = <[p := x]> (dram s))).
  { unfold runs. rewrite store8_eq. cbn. unfold u8. by rewrite Hd, (wrap_small 8 x Hx). }
  intros [] s'' [Hrx' Hd']. eapply runs_mono; [by apply (IH (p + 1) _ s'' data); [rewrite Hrx'|]|].
  intros a s3 (-> & ? & Hd3). split; [f_equal; lia|]. split; [done|]. by rewrite Hd3, Hd'.
Qed.

Lemma read_sector_ensures n p crc s :
  ensures (read_sector n p crc) s (fun a s' => exists data, length data = n /\ receives (rx s) data (rx s') /\
    a = (p + Z.of_nat n, foldl crc16_round crc data) /\ dram s' = write_bytes p data (dram s)).
Proof.
  revert p crc s. induction n as [|n IH]; intros p crc s; simpl.
  { apply ensures_ret. exists []. repeat split. simpl. by rewrite Z.add_0_r. }
  eapply ensures_bind; [apply (ensures_xfer 255)|]. intros x s' (Hp & Hd & _).
  pose proof (proj1 (rx_poll_byte _ _ _ Hp)) as Hx.
  eapply (ensures_bind _ _ _ (fun _ s'' => rx s'' = rx s' /\ dram s'' = <[p := x]> (dram s))).
  { unfold ensures. rewrite store8_eq. cbn. unfold u8. by rewrite Hd, (wrap_small 8 x Hx). }
  intros [] s'' [Hrx' Hd']. eapply ensures_mono; [apply IH|]. intros a s3 (data & Hl & Hr & -> & Hd3).
  exists (x :: data). split; [simpl; lia|]. split; [apply receives_cons; exists (rx s'); split; [done|congruence]|].
  split; [simpl; f_equal; lia|]. simpl. by rewrite Hd3, Hd'.
Qed.

(** A frame on the wire: filler bytes, the start token, the data and two
    checksum bytes. *)
Definition frame_in (l data : list Z) (hi lo : Z) (l' : list Z) : Prop :=
  exists pre l1, receives l (pre ++ [254]) l1 /\ Forall (fun b => b <> 254) pre /\
    receives l1 (data ++ [hi; lo]) l' /\ length data = 512%nat.

(** A run of frames that pass the check, with their data. *)
Inductive sectors_in : list Z -> list (list Z) -> list Z -> Prop :=
| sectors_nil l : sectors_in l [] l
| sectors_cons l data hi lo l1 ds l2 :
    frame_in l data hi lo l1 -> frame_ok data hi lo = true -> sectors_in l1 ds l2 ->
    sectors_in l (data :: ds) l2.

Lemma spin_kprints i : exists l, kprints l (spin i).
Proof.
  unfold spin. destruct (SPIN_UPDATE i); [|eexists; apply kprints_ret].
  eexists. apply kprints_bind; [by apply kprints_kputc|]. intros _. by apply kprints_kputc.
Qed.

Lemma quiet_kputc c s : ensures (kputc c) s (fun _ s' => same_io s s').
Proof.
  unfold kputc. revert s. induction uart_polls as [|n IH]; intros s; [done|]. unfold ensures. cbn [kputc_loop].
  assert (E : same_io s (mkSd (rx s) (S (uart_n s)) (dram s) (trace s ++ [UartAmo c (uart_tx (uart_n s))]))).
  { repeat split. unfold sent. simpl. rewrite omap_app. simpl. by rewrite app_nil_r. }
  destruct (s32 (uart_tx (uart_n s)) <? 0); [|done].
  eapply (ensures_mono _ _ _ _ (IH (mkSd _ _ _ _))). intros ? ?. by apply same_io_trans.
Qed.
Lemma quiet_spin i s : ensures (spin i) s (fun _ s' => same_io s s').
Proof.
  unfold spin. destruct (SPIN_UPDATE i); [|by apply ensures_ret].
  eapply ensures_bind; [apply quiet_kputc|]. intros [] s' Hs. eapply ensures_mono; [apply quiet_kputc|].
  intros [] s''. by apply same_io_trans.
Qed.

Lemma copy_loop_eq i p :
  copy_loop i p =
  (wait_token;;
   '(p, crc) ← read_sector (Z.to_nat SECTOR_SIZE_B) p 0;
   h ← sd_dummy;
   l ← sd_dummy;
   if crc =? (u16 (Z.shiftl h 8) .| l) then spin (Z.of_nat i);; copy_rest i p
   else kputs (8 :: chars "- CRC mismatch ");; mret 1).
Proof. by destruct i. Qed.

(** The body of the loop on a frame: the data are stored, and the comparison
    of the checksums decides how the loop goes on. *)
Lemma copy_loop_frame i p s data hi lo l Q :
  frame_in (rx s) data hi lo l ->
  (forall s', rx s' = l -> dram s' = write_bytes p data (dram s) ->
    runs (if frame_ok data hi lo then spin (Z.of_nat i);; copy_rest i (p + 512)
          else kputs (8 :: chars "- CRC mismatch ");; mret 1) s' Q) ->
  runs (copy_loop i p) s Q.
Proof.
  intros (pre & l1 & Hpre & Hne & Hr & Hlen) HQ. rewrite copy_loop_eq.
  eapply runs_bind; [by eapply wait_token_runs|]. intros [] s1 [Hrx1 Hd1].
  apply receives_app in Hr as (l2 & Hdata & Hr). rewrite <- Hrx1 in Hdata.
  eapply runs_bind; [by eapply read_sector_runs|]. intros a s2 (-> & Hrx2 & Hd2). cbv beta iota.
  apply receives_cons in Hr as (l3 & Hhi & Hr). rewrite <- Hrx2 in Hhi.
  eapply runs_bind; [by apply (xfer_talks 255)|]. intros h s3 (-> & Hrx3 & Hd3 & _).
  apply receives_cons in Hr as (l4 & Hlo & ->%receives_nil). rewrite <- Hrx3 in Hlo.
  eapply runs_bind; [by apply (xfer_talks 255)|]. intros h s4 (-> & Hrx4 & Hd4 & _).
  apply (HQ s4); [done|]. congruence.
Qed.

Lemma copy_loop_runs i p s ds l :
  sectors_in (rx s) ds l -> length ds = Nat.max 1 i ->
  runs (copy_loop i p) s (fun rc s' => rc = 0 /\ rx s' = l /\ dram s' = write_bytes p (concat ds) (dram s)).
Proof.
  revert p s ds. induction i as [|i IH]; intros p s [|data ds] Hs Hl; simpl in Hl; try lia;
    inversion Hs as [|? ? hi lo l1 ? ? Hf Hok Hs']; subst;
    (eapply copy_loop_frame; [done|]); intros s1 Hrx1 Hd1; rewrite Hok.
  all: match goal with |- runs (spin ?k;; _) _ _ => destruct (spin_kprints k) as [tx Htx] end.
  all: eapply runs_bind; [apply Htx|]; intros [] s2 [(Hrx2 & Hd2 & _) _]; cbv beta.
  all: assert (Hlen : length data = 512%nat) by (destruct Hf as (? & ? & _ & _ & _ & ->); done).
  all: assert (Hdone : ds = [] -> runs (mret 0) s2 (fun rc s' => rc = 0 /\ rx s' = l /\ dram s' = write_bytes p (concat (data :: ds)) (dram s)))
    by (intros ->; inversion Hs'; subst; apply runs_ret; split; [done|]; split; [congruence|]; cbn [concat]; rewrite app_nil_r; congruence).
  - apply Hdone. by destruct ds.
  - destruct i as [|i]; [apply Hdone; by destruct ds|]. cbn [copy_rest].
    eapply runs_mono; [apply (IH (p + 512) s2 ds); [by rewrite Hrx2, Hrx1|simpl in *; lia]|].
    intros rc s3 (-> & ? & Hd3). split; [done|]. split; [done|].
    rewrite Hd3, Hd2, Hd1. cbn [concat]. by rewrite write_bytes_app, Hlen.
Qed.

(** A frame that does not pass the check, after some that do. *)
Lemma copy_loop_refuses i p s ds l data hi lo l' :
  sectors_in (rx s) ds l -> (length ds < Nat.max 1 i)%nat -> frame_in l data hi lo l' -> frame_ok data hi lo = false ->
  runs (copy_loop i p) s (fun rc s' => rc = 1 /\ rx s' = l').
Proof.
  intros Hs. remember (rx s) as l0 eqn:E. revert i p s E.
  induction Hs as [l0|l0 d h o l1 ds l2 Hf Hok Hs IH]; intros i p s -> Hi Hbad Hno; cbn [length] in Hi.
  - eapply copy_loop_frame; [done|]. intros s1 Hrx1 Hd1. rewrite Hno.
    eapply runs_bind; [by apply kprints_kputs|]. intros [] s2 [(Hrx2 & _) _]. apply runs_ret. split; [done|congruence].
  - eapply copy_loop_frame; [done|]. intros s1 Hrx1 Hd1. rewrite Hok.
    destruct (spin_kprints (Z.of_nat i)) as [tx Htx].
    eapply runs_bind; [apply Htx|]. intros [] s2 [(Hrx2 & Hd2 & _) _]. cbv beta.
    destruct i as [|[|i]]; [lia..|]. cbn [copy_rest]. apply IH; [congruence|lia|done..].
Qed.

Lemma copy_loop_ensures i p s :
  ensures (copy_loop i p) s (fun rc s' => rc = 0 -> exists ds, length ds = Nat.max 1 i /\ sectors_in (rx s) ds (rx s') /\
    dram s' = write_bytes p (concat ds) (dram s)).
Proof.
  revert p s. induction i as [|i IH]; intros p s; rewrite copy_loop_eq.
  all: eapply ensures_bind; [apply token_loop_ensures|]; intros [] s1 (Hd1 & pre & Hpre & Hne).
  all: eapply ensures_bind; [apply read_sector_ensures|]; intros a s2 (data & Hlen & Hdata & -> & Hd2); cbv beta iota.
  all: eapply ensures_bind; [apply (ensures_xfer 255)|]; intros hi s3 (Hhi & Hd3 & _).
  all: eapply ensures_bind; [apply (ensures_xfer 255)|]; intros lo s4 (Hlo & Hd4 & _).
  all: fold (crc16 data); fold (frame_ok data hi lo); destruct (frame_ok data hi lo) eqn:Hok;
    [|eapply ensures_bind; [by apply keeps_kputs|]; intros [] s5 _; by apply ensures_ret].
  all: assert (Hf : frame_in (rx s) data hi lo (rx s4))
    by (exists pre, (rx s1); split; [done|]; split; [done|]; split; [|done]; apply receives_app; exists (rx s2); split; [done|];
        apply receives_cons; exists (rx s3); split; [done|]; apply receives_cons; exists (rx s4); by rewrite receives_nil).
  all: eapply (ensures_bind _ _ _ (fun _ s' => same_io s4 s')); [apply quiet_spin|]; intros [] s5 (Hrx5 & Hd5 & _).
  all: assert (Hone : sectors_in (rx s) [data] (rx s5) /\ dram s5 = write_bytes p (concat [data]) (dram s))
    by (rewrite Hrx5; split; [econstructor; [exact Hf|done|constructor]|]; cbn [concat]; rewrite app_nil_r; congruence).
  - apply ensures_ret. intros _. by exists [data].
  - destruct i as [|i]; [apply ensures_ret; intros _; by exists [data]|]. cbn [copy_rest].
    eapply ensures_mono; [apply IH|]. intros rc s6 Hrc ->.
    destruct (Hrc eq_refl) as (ds & Hl & Hs & Hd6). exists (data :: ds). split; [simpl in *; lia|].
    rewrite Hrx5 in Hs. split; [by econstructor|]. cbn [concat]. rewrite write_bytes_app, Hlen, Hd6, Hd5, Hd4, Hd3, Hd2, Hd1. done.
Qed.

End Card.

(** * Whole runs *)

(** A card that comes up and sends the payload: the bytes it answers during
    each step of the loader, as relations between what is left to read before
    and after. *)
Definition cmd0_in (l l' : list Z) : Prop :=
  exists l1 x, cmd_answer l 1 l1 /\ receives l1 [x] l'.
Definition cmd8_in (l l' : list Z) : Prop :=
  exists l1 a b v x, cmd_answer l 1 l1 /\ receives l1 [a; b; v; 170; x] l' /\ v .& 15 = 1.
Definition acmd41_turn (l : list Z) (r : Z) (l' : list Z) : Prop :=
  exists r0 l1 x l2, cmd_answer l r0 l1 /\ receives l1 [x] l2 /\ cmd_answer l2 r l'.
Inductive acmd41_in : list Z -> list Z -> Prop :=
| acmd41_ready l l' : acmd41_turn l 0 l' -> acmd41_in l l'
| acmd41_idle l l1 l' : acmd41_turn l 1 l1 -> acmd41_in l1 l' -> acmd41_in l l'.
Definition cmd58_in (l l' : list Z) : Prop :=
  exists l1 v a b c x, cmd_answer l 0 l1 /\ receives l1 [v; a; b; c; x] l' /\ v .& 128 = 128.
Definition cmd16_in (l l' : list Z) : Prop :=
  exists l1 x, cmd_answer l 0 l1 /\ receives l1 [x] l'.
Definition copy_in (size : Z) (ds : list (list Z)) (l l' : list Z) : Prop :=
  exists l1 l2 x l3 r l4 y, cmd_answer l 0 l1 /\ sectors_in l1 ds l2 /\ length ds = sectors size /\
    receives l2 [x] l3 /\ cmd_answer l3 r l4 /\ receives l4 [y] l'.
Definition good_card (size : Z) (ds : list (list Z)) (l l' : list Z) : Prop :=
  exists bs l0 l1 l2 l3 l4 l5, length bs = 10%nat /\ receives l bs l0 /\ cmd0_in l0 l1 /\ cmd8_in l1 l2 /\
    acmd41_in l2 l3 /\ cmd58_in l3 l4 /\ cmd16_in l4 l5 /\ copy_in size ds l5 l'.

Section Whole.
Context `{Board}.
Hypothesis drains : uart_drains.

Definition moves (s : sd_st) (l : list Z) (s' : sd_st) : Prop := rx s' = l /\ dram s' = dram s.

(** Run a step that moves on in the stream. *)
Lemma runs_moves {A B} (m : SD A) (f : A -> SD B) s l a l' (Q : B -> Prop) :
  runs m s (fun y s' => y = a /\ moves s l s') ->
  (forall s', rx s' = l -> runs (f a) s' (fun b s'' => Q b /\ moves s' l' s'')) ->
  runs (m ≫= f) s (fun b s'' => Q b /\ moves s l' s'').
Proof.
  intros Hm Hf. eapply runs_bind; [exact Hm|]. intros y s' [-> [Hr Hd]].
  eapply runs_mono; [by apply Hf|]. intros b s'' [HQ [Hr' Hd']]. split; [done|]. split; [done|congruence].
Qed.

Lemma kprints_moves l (m : SD unit) s : kprints l m -> runs m s (fun y s' => y = tt /\ moves s (rx s) s').
Proof. intros Hp. eapply runs_mono; [apply Hp|]. intros [] s' [(? & ? & _) _]. done. Qed.
Lemma write_moves reg v s : runs (spi_write reg v) s (fun y s' => y = tt /\ moves s (rx s) s').
Proof. done. Qed.
Lemma cmd_moves cmd arg crc s r l :
  cmd_answer (rx s) r l -> runs (sd_cmd cmd arg crc) s (fun y s' => y = r /\ moves s l s').
Proof.
  intros Ha. eapply runs_mono; [by apply sd_cmd_runs|]. intros y s' (k & _ & -> & ? & ? & _). done.
Qed.
Lemma dummy_moves s x l : rx_poll (rx s) = Some (x, l) -> runs sd_dummy s (fun y s' => y = x /\ moves s l s').
Proof. intros Hp. eapply runs_mono; [by apply (xfer_talks 255)|]. intros y s' (-> & ? & ? & _). done. Qed.
Lemma end_moves s x l : receives (rx s) [x] l -> runs sd_cmd_end s (fun y s' => y = tt /\ moves s l s').
Proof.
  intros (l1 & Hp & ->%receives_nil)%receives_cons. eapply runs_moves; [by apply dummy_moves|].
  intros s' <-. apply write_moves.
Qed.
Lemma dummies_moves n s bs l :
  receives (rx s) bs l -> length bs = n -> runs (dummies n) s (fun y s' => y = tt /\ moves s l s').
Proof.
  revert s bs. induction n as [|n IH]; intros s [|b bs] Hr Hl; simplify_eq/=.
  { apply receives_nil in Hr as ->. by apply runs_ret. }
  apply receives_cons in Hr as (l1 & Hp & Hr). eapply runs_moves; [by apply dummy_moves|].
  intros s' Hs'. apply (IH s' bs); [by rewrite Hs'|done].
Qed.

(** One step of a run, from the relation that describes it. *)
Ltac on_stream tac :=
  match goal with
  | Hs : rx ?s = _ |- runs _ ?s _ => tac; rewrite Hs; eassumption
  | |- _ => tac; eassumption
  end.
Ltac rstep :=
  match goal with
  | |- runs (mret _) _ _ => apply runs_ret
  | |- runs (mbind _ (kputs _)) _ _ => eapply runs_moves; [by eapply kprints_moves, kprints_kputs|intros ? ?]
  | |- runs (mbind _ (spi_write _ _)) _ _ => eapply runs_moves; [apply write_moves|intros ? ?]
  | |- runs (mbind _ (sd_cmd _ _ _)) _ _ => eapply runs_moves; [on_stream ltac:(apply cmd_moves)|intros ? ?]
  | |- runs (mbind _ sd_dummy) _ _ => eapply runs_moves; [on_stream ltac:(apply dummy_moves)|intros ? ?]
  | |- runs (mbind _ sd_cmd_end) _ _ => eapply runs_moves; [on_stream ltac:(eapply end_moves)|intros ? ?]
  end; simplify_eq.

Definition step_ok (m : SD bool) (R : list Z -> list Z -> Prop) : Prop :=
  forall s l, R (rx s) l -> runs m s (fun b s' => b = false /\ moves s l s').

Ltac unroll_receives :=
  repeat match goal with
  | Hr : receives _ (_ :: _ :: _) _ |- _ => apply receives_cons in Hr as (? & ? & Hr)
  end.

Lemma sd_cmd0_ok : step_ok sd_cmd0 cmd0_in.
Proof. intros s l (l1 & x & Ha & Hr). unfold sd_cmd0. repeat rstep. done. Qed.

Lemma sd_cmd8_ok : step_ok sd_cmd8 cmd8_in.
Proof.
  intros s l (l1 & a & b & v & x & Ha & Hr & Hv). unroll_receives. unfold sd_cmd8. repeat rstep. by rewrite Hv.
Qed.

Lemma acmd41_turn_length l r l' : acmd41_turn l r l' -> (length l' < length l)%nat.
Proof.
  intros (r0 & l1 & x & l2 & (pre & l3 & Hp & Hr & busy & Hb & _) & Hx & (pre' & l4 & _ & Hr' & busy' & Hb' & _)).
  apply receives_length in Hr, Hb, Hx, Hr', Hb'. lia.
Qed.

Lemma cmd55_moves s r l1 x l :
  cmd_answer (rx s) r l1 -> receives l1 [x] l -> runs sd_cmd55 s (fun y s' => y = tt /\ moves s l s').
Proof.
  intros Ha Hr. unfold sd_cmd55. eapply runs_moves; [by apply cmd_moves|]. intros s' <-. by eapply end_moves.
Qed.

Lemma acmd41_loop_ok fuel s l :
  acmd41_in (rx s) l -> (length (rx s) < fuel)%nat ->
  runs (acmd41_loop fuel) s (fun y s' => y = 0 /\ moves s l s').
Proof.
  revert s. induction fuel as [|fuel IH]; intros s Hin Hf; [lia|]. cbn [acmd41_loop].
  inversion Hin as [? ? Ht|? l1 ? Ht Hin']; subst; pose proof (acmd41_turn_length _ _ _ Ht) as Hlt;
    destruct Ht as (r0 & l2 & x & l3 & Ha & Hx & Ha'); (eapply runs_moves; [by eapply cmd55_moves|]); intros s1 Hs1.
  - rstep. by apply runs_ret.
  - rstep. change (1 =? 1) with true. cbv iota. apply IH; [done|lia].
Qed.

Lemma sd_acmd41_ok : step_ok sd_acmd41 acmd41_in.
Proof.
  intros s l Hin. unfold sd_acmd41. rstep. rename H0 into Hs.
  eapply (runs_moves _ _ _ l 0); [|intros ? <-; by apply runs_ret].
  apply (acmd41_loop_ok (S (length (rx s')))); [by rewrite Hs|lia].
Qed.

Lemma sd_cmd58_ok : step_ok sd_cmd58 cmd58_in.
Proof.
  intros s l (l1 & v & a & b & c & x & Ha & Hr & Hv). unroll_receives. unfold sd_cmd58. repeat rstep. by rewrite Hv.
Qed.

Lemma sd_cmd16_ok : step_ok sd_cmd16 cmd16_in.
Proof. intros s l (l1 & x & Ha & Hr). unfold sd_cmd16. repeat rstep. done. Qed.

(** The two messages of [copy]. *)
Lemma copy_kprints size :
  exists l1 l2, kprints l1 (kprintf (chars "LOADING 0x%xB PAYLOAD" ++ [13; 10]) [KInt size]) /\
    kprints l2 (kprintf (chars "LOADING  ") []).
Proof. do 2 eexists. split; apply kprints_kprintf_loop; done || reflexivity. Qed.

(** [copy] up to the answer to its command. *)
Lemma copy_n_runs size s r l1 Q :
  cmd_answer (rx s) r l1 ->
  (forall s', rx s' = l1 -> dram s' = dram s ->
    runs (if differs r 0 then sd_cmd_end;; mret true
          else rc ← copy_loop (Z.to_nat (size / SECTOR_SIZE_B)) PAYLOAD_DEST;
               sd_cmd_end;; sd_cmd 76 0 1;; sd_cmd_end;; kputs [8; 32];; mret (nz rc)) s' Q) ->
  runs (copy_n size) s Q.
Proof.
  intros Ha HQ. destruct (copy_kprints size) as (t1 & t2 & Hp1 & Hp2). unfold copy_n.
  eapply runs_bind; [by apply kprints_kputs|]. intros [] s1 [(Hr1 & Hd1 & _) _]. cbv beta.
  eapply runs_bind; [apply Hp1|]. intros [] s2 [(Hr2 & Hd2 & _) _]. cbv beta.
  eapply runs_bind; [apply Hp2|]. intros [] s3 [(Hr3 & Hd3 & _) _]. cbv beta.
  eapply runs_bind; [apply write_moves|]. intros [] s4 (_ & Hr4 & Hd4). cbv beta.
  eapply runs_bind; [apply cmd_moves; by rewrite Hr4, Hr3, Hr2, Hr1|]. intros y s5 (-> & Hr5 & Hd5).
  apply HQ; congruence.
Qed.

(** The commands after the loop. *)
Lemma copy_tail_ok rc s x l3 r l4 y l :
  receives (rx s) [x] l3 -> cmd_answer l3 r l4 -> receives l4 [y] l ->
  runs (sd_cmd_end;; sd_cmd 76 0 1;; sd_cmd_end;; kputs [8; 32];; mret (nz rc)) s
    (fun b s' => b = nz rc /\ moves s l s').
Proof. intros Hx Hr Hy. repeat rstep. split; [done|]. split; congruence. Qed.

Lemma copy_n_ok size ds s l :
  copy_in size ds (rx s) l ->
  runs (copy_n size) s (fun b s' => b = false /\ rx s' = l /\ dram s' = write_bytes PAYLOAD_DEST (concat ds) (dram s)).
Proof.
  intros (l1 & l2 & x & l3 & r & l4 & y & Ha & Hs & Hl & Hx & Hr & Hy).
  eapply copy_n_runs; [done|]. intros s1 Hrx1 Hd1. cbn [differs]. change (differs 0 0) with false. cbv iota.
  eapply runs_bind; [eapply copy_loop_runs; [done|by rewrite Hrx1|done]|]. intros rc s2 (-> & Hrx2 & Hd2). cbv beta.
  rewrite <- Hrx2 in Hx. eapply runs_mono; [by eapply copy_tail_ok|].
  intros b s3 (-> & ? & Hd3). split; [done|]. split; [done|]. congruence.
Qed.

(** [main] up to the chain of steps. *)
Lemma main_n_runs size s bs l0 Q :
  receives (rx s) bs l0 -> length bs = 10%nat ->
  (forall s', rx s' = l0 -> dram s' = dram s ->
    runs (failed ← any_fails [sd_cmd0; sd_cmd8; sd_acmd41; sd_cmd58; sd_cmd16; copy_n size];
          if (failed : bool) then kputs (chars "ERROR");; mret 1
          else kputs (chars "BOOT");; log FenceI;; mret 0) s' Q) ->
  runs (main_n size) s Q.
Proof.
  intros Hr Hl HQ. unfold main_n.
  eapply (runs_bind _ _ _ (fun _ s' => moves s (rx s) s')); [done|]. intros [] s1 [Hr1 Hd1].
  eapply runs_bind; [by apply kprints_kputs|]. intros [] s2 [(Hr2 & Hd2 & _) _]. cbv beta.
  eapply (runs_bind _ _ _ (fun y s' => y = tt /\ moves s2 l0 s')).
  { unfold sd_poweron. do 2 rstep. eapply runs_moves; [eapply dummies_moves; [|done]|].
    - match goal with E1 : rx ?a = rx _, E2 : rx ?b = rx ?a |- receives (rx ?b) _ _ => rewrite E2, E1, Hr2, Hr1; exact Hr end.
    - intros s5 <-. apply write_moves. }
  intros ? s3 (_ & Hr3 & Hd3). apply HQ; congruence.
Qed.

Lemma any_fails_ok m steps s R l (Q : bool -> sd_st -> Prop) :
  step_ok m R -> R (rx s) l ->
  (forall s', rx s' = l -> dram s' = dram s -> runs (any_fails steps) s' Q) -> runs (any_fails (m :: steps)) s Q.
Proof.
  intros Hm HR HQ. cbn [any_fails]. eapply runs_bind; [by apply Hm|]. intros b s' (-> & Hr & Hd). by apply HQ.
Qed.

Lemma main_n_ok size ds s l :
  good_card size ds (rx s) l ->
  runs (main_n size) s (fun rc s' => rc = 0 /\ dram s' = write_bytes PAYLOAD_DEST (concat ds) (dram s)).
Proof.
  intros (bs & l0 & l1 & l2 & l3 & l4 & l5 & Hbs & Hr & H0 & H8 & H41 & H58 & H16 & Hc).
  eapply main_n_runs; [done..|]. intros s0 Hr0 Hd0.
  eapply (runs_bind _ _ _ (fun b s' => b = false /\ dram s' = write_bytes PAYLOAD_DEST (concat ds) (dram s))).
  - eapply (any_fails_ok _ _ _ _ l1); [apply sd_cmd0_ok|by rewrite Hr0|]. intros s1 Hr1 Hd1.
    eapply (any_fails_ok _ _ _ _ l2); [apply sd_cmd8_ok|by rewrite Hr1|]. intros s2 Hr2 Hd2.
    eapply (any_fails_ok _ _ _ _ l3); [apply sd_acmd41_ok|by rewrite Hr2|]. intros s3 Hr3 Hd3.
    eapply (any_fails_ok _ _ _ _ l4); [apply sd_cmd58_ok|by rewrite Hr3|]. intros s4 Hr4 Hd4.
    eapply (any_fails_ok _ _ _ _ l5); [apply sd_cmd16_ok|by rewrite Hr4|]. intros s5 Hr5 Hd5.
    cbn [any_fails]. rewrite <- Hr5 in Hc. eapply runs_bind; [by apply copy_n_ok|]. intros b s6 (-> & _ & Hd6).
    apply runs_ret. split; [done|congruence].
  - intros b s1 [-> Hd1]. eapply runs_bind; [by apply kprints_kputs|]. intros [] s2 [(_ & Hd2 & _) _].
    apply (runs_bind _ _ _ (fun _ s' => dram s' = dram s2)); [done|]. intros [] s3 Hd3. apply runs_ret. split; [done|congruence].
Qed.

End Whole.

(** ** What a successful run has done *)

Section Sound.
Context `{Board}.

(** The payload in memory is a run of sectors that the card sent, each with the
    checksum that came with it. *)
Definition loaded (size : Z) (s s' : sd_st) : Prop :=
  exists ds l l', l `suffix_of` rx s /\ sectors_in l ds l' /\ length ds = sectors size /\
    dram s' = write_bytes PAYLOAD_DEST (concat ds) (dram s).

Lemma loaded_from size s0 s s' :
  dram s = dram s0 -> rx s `suffix_of` rx s0 -> loaded size s s' -> loaded size s0 s'.
Proof. intros Hd Hr (ds & l & l' & ? & ? & ? & ?). exists ds, l, l'. rewrite <- Hd. split; [by etrans|done]. Qed.

Lemma ensures_keeps {A B} (m : SD A) (f : A -> SD B) s0 s Q :
  keeps m -> dram s = dram s0 -> rx s `suffix_of` rx s0 ->
  (forall a s', dram s' = dram s0 -> rx s' `suffix_of` rx s0 -> ensures (f a) s' Q) -> ensures (m ≫= f) s Q.
Proof.
  intros Hm Hd Hr Hf. eapply ensures_bind; [apply Hm|]. intros a s' [? ?]. apply Hf; [congruence|by etrans].
Qed.

Lemma copy_n_ensures size s : ensures (copy_n size) s (fun b s' => b = false -> loaded size s s').
Proof.
  unfold copy_n.
  eapply (ensures_keeps _ _ s s); [apply keeps_kputs|done..|]. intros [] s1 Hd1 Hr1.
  eapply (ensures_keeps _ _ s s1); [apply keeps_kprintf|done..|]. intros [] s2 Hd2 Hr2.
  eapply (ensures_keeps _ _ s s2); [apply keeps_kprintf|done..|]. intros [] s3 Hd3 Hr3.
  eapply (ensures_keeps _ _ s s3); [apply keeps_log|done..|]. intros [] s4 Hd4 Hr4.
  eapply (ensures_keeps _ _ s s4); [apply keeps_sd_cmd|done..|]. intros r s5 Hd5 Hr5. cbv beta.
  destruct (differs r 0).
  { eapply ensures_bind; [apply keeps_sd_cmd_end|]. intros [] s6 _. by apply ensures_ret. }
  eapply ensures_bind; [apply copy_loop_ensures|]. intros rc s6 Hrc. cbv beta.
  eapply (ensures_keeps _ _ s6 s6); [apply keeps_sd_cmd_end|done..|]. intros [] s7 Hd7 Hr7.
  eapply (ensures_keeps _ _ s6 s7); [apply keeps_sd_cmd|done..|]. intros ? s8 Hd8 Hr8.
  eapply (ensures_keeps _ _ s6 s8); [apply keeps_sd_cmd_end|done..|]. intros [] s9 Hd9 Hr9.
  eapply (ensures_keeps _ _ s6 s9); [apply keeps_kputs|done..|]. intros [] s10 Hd10 Hr10.
  apply ensures_ret. intros ->%nz_false. destruct (Hrc eq_refl) as (ds & Hl & Hs & Hd).
  exists ds, (rx s5), (rx s6). split; [done|]. split; [done|]. split; [done|]. congruence.
Qed.

Lemma any_fails_ensures steps m s0 s (Q : sd_st -> Prop) :
  Forall keeps steps -> dram s = dram s0 -> rx s `suffix_of` rx s0 ->
  (forall s', dram s' = dram s0 -> rx s' `suffix_of` rx s0 -> ensures m s' (fun b s'' => b = false -> Q s'')) ->
  ensures (any_fails (steps ++ [m])) s (fun b s'' => b = false -> Q s'').
Proof.
  intros Hk. revert s. induction Hk as [|m' steps Hm' Hk IH]; intros s Hd Hr HQ; cbn [app any_fails].
  - eapply ensures_bind; [by apply HQ|]. intros b s' Hb. cbv beta in Hb. destruct b; apply ensures_ret; auto.
  - eapply (ensures_keeps _ _ s0); [done..|]. intros b s' Hd' Hr'. destruct b; [by apply ensures_ret|by apply IH].
Qed.

Lemma main_n_ensures size s : ensures (main_n size) s (fun rc s' => rc = 0 -> loaded size s s').
Proof.
  unfold main_n.
  eapply (ensures_keeps _ _ s s); [apply keeps_log|done..|]. intros [] s1 Hd1 Hr1.
  eapply (ensures_keeps _ _ s s1); [apply keeps_kputs|done..|]. intros [] s2 Hd2 Hr2.
  eapply (ensures_keeps _ _ s s2); [apply keeps_sd_poweron|done..|]. intros [] s3 Hd3 Hr3.
  eapply ensures_bind.
  { apply (any_fails_ensures [sd_cmd0; sd_cmd8; sd_acmd41; sd_cmd58; sd_cmd16] (copy_n size) s s3 (loaded size s));
      [apply keeps_init_steps|done..|]. intros s' Hd Hr. eapply ensures_mono; [apply copy_n_ensures|].
    intros b s'' Hb E. by eapply loaded_from, Hb. }
  intros b s4 Hb. cbv beta in Hb. destruct b.
  - eapply ensures_bind; [apply keeps_kputs|]. intros [] s5 _. by apply ensures_ret.
  - eapply (ensures_keeps _ _ s4 s4); [apply keeps_kputs|done..|]. intros [] s5 Hd5 Hr5.
    eapply (ensures_keeps _ _ s4 s5); [apply keeps_log|done..|]. intros [] s6 Hd6 Hr6.
    apply ensures_ret. intros _. destruct (Hb eq_refl) as (ds & l & l' & ? & ? & ? & ?).
    exists ds, l, l'. repeat (split; [done|]). congruence.
Qed.

End Sound.

(** * Properties *)

(** The value of a hexadecimal text. *)
Definition hex_val (c : Z) : Z := if c <? 58 then c - 48 else c - 87.
Definition read_hex (l : list Z) : Z := foldl (fun n c => 16 * n + hex_val c) 0 l.

Lemma hex_val_char d : 0 <= d < 16 -> hex_val (hex_char d) = d.
Proof. intros. unfold hex_val, hex_char. bool_cases. Qed.

Lemma read_hex_text n k : 0 <= n -> read_hex (hex_text n k) = n mod 16 ^ Z.of_nat k.
Proof.
  intros Hn. unfold read_hex.
  assert (E : forall k acc, foldl (fun n c => 16 * n + hex_val c) acc (hex_text n k) = 16 ^ Z.of_nat k * acc + n mod 16 ^ Z.of_nat k).
  { clear k. induction k as [|k IH]; intros acc; cbn [hex_text foldl]; [rewrite Z.mod_1_r; lia|].
    assert (Ed : Z.shiftr n (4 * Z.of_nat k) .& 15 = (n / 16 ^ Z.of_nat k) mod 16).
    { change 15 with (Z.ones 4). rewrite Z.land_ones, Z.shiftr_div_pow2 by lia. by rewrite Z.pow_mul_r by lia. }
    rewrite IH, Ed, hex_val_char by (apply Z.mod_pos_bound; lia). rewrite Nat2Z.inj_succ, Z.pow_succ_r by lia.
    rewrite (Z.mul_comm 16 (16 ^ _)), Z.rem_mul_r by (try apply Z.pow_nonzero; lia). ring. }
  rewrite E. lia.
Qed.

(** A board whose UART is full on every third attempt, with a 100 MHz bus. *)
Definition demo_board : Board := {|
  uart_tx n := if (n mod 3 =? 0)%nat then 2147483648 else 0;
  uart_polls := 2; TL_CLK := 100000000; dtb := 69632 |}.

Lemma demo_board_drains : @uart_drains demo_board.
Proof.
  intros n. cbn [uart_tx uart_polls demo_board]. destruct (Nat.eqb_spec (n mod 3) 0) as [E|E].
  - exists 1%nat. split; [lia|]. replace ((n + 1) mod 3)%nat with 1%nat; [done|].
    rewrite Nat.Div0.add_mod, E. done.
  - exists O. split; [lia|]. rewrite Nat.add_0_r. apply Nat.eqb_neq in E. by rewrite E.
Qed.

(** A card that holds one sector. *)
Definition demo_sector : list Z := (fun k => (7 * k + k / 256) mod 256) <$> seqZ 0 512.
Definition demo_cmd (r : Z) : list Z := replicate 7 255 ++ [255; r].
Definition demo_frame : list Z :=
  [255; 254] ++ demo_sector ++ [crc16 demo_sector / 256; crc16 demo_sector mod 256].
Definition demo_parts : list (list Z) :=
  [replicate 10 255; demo_cmd 1 ++ [255]; demo_cmd 1 ++ [0; 0; 1; 170; 255];
   demo_cmd 1 ++ [255] ++ demo_cmd 1; demo_cmd 0 ++ [255] ++ demo_cmd 0; demo_cmd 0 ++ [192; 255; 128; 0; 255];
   demo_cmd 0 ++ [255]; demo_cmd 0; demo_frame; [255]; demo_cmd 0 ++ [255]].
(** What is left to read from a part of the run on. *)
Definition demo_from (k : nat) : list Z := concat (drop k demo_parts).
Definition demo_st : sd_st := mkSd (demo_from 0) 0 ∅ [].

Lemma receives_bytes bs l : Forall (fits 8) bs -> receives (bs ++ l) bs l.
Proof.
  induction 1 as [|b bs Hb Hbs IH]; [by apply receives_nil|]. apply receives_cons. exists (bs ++ l). split; [|done].
  cbn [rx_poll app]. unfold fits in Hb. rewrite s32_small by lia. replace (b <? 0) with false by lia.
  unfold u8. by rewrite wrap_small.
Qed.

Lemma demo_answer r l : fits 8 r -> busy_byte r = false -> cmd_answer (demo_cmd r ++ l) r l.
Proof.
  intros Hr Hb. exists (replicate 7 255), ([255; r] ++ l). split; [done|]. split.
  - apply (receives_bytes (replicate 7 255)). apply Forall_replicate. by vm_compute.
  - exists [255]. split; [apply (receives_bytes [255; r]); constructor; [by vm_compute|constructor; [done|constructor]]|].
    split; [by repeat constructor|].
    split; [simpl; lia|congruence].
Qed.

Lemma fits_forallb w l : forallb (fun b => (0 <=? b) && (b <? 2 ^ w)) l = true -> Forall (fits w) l.
Proof. rewrite forallb_forall, Forall_forall. intros Hl x Hx%list_elem_of_In%Hl. unfold fits. lia. Qed.

Lemma demo_frame_in l :
  frame_in (demo_frame ++ l) demo_sector (crc16 demo_sector / 256) (crc16 demo_sector mod 256) l.
Proof.
  unfold demo_frame. rewrite <- !app_assoc. eexists [255], _. split.
  { apply (receives_bytes ([255] ++ [254])). by apply fits_forallb. }
  split; [by repeat constructor|]. split; [|by vm_compute].
  rewrite app_assoc. apply receives_bytes, fits_forallb. vm_compute. reflexivity.
Qed.

Lemma demo_card : good_card 512 [demo_sector] (rx demo_st) [].
Proof.
  assert (Hone : forall x l, fits 8 x -> receives (x :: l) [x] l) by (intros; apply (receives_bytes [x]); by constructor).
  exists (replicate 10 255), (demo_from 1), (demo_from 2), (demo_from 3), (demo_from 5), (demo_from 6), (demo_from 7).
  split; [done|]. split; [apply receives_bytes, fits_forallb; reflexivity|].
  split; [eexists _, 255; split; [by apply demo_answer|by apply Hone]|].
  split; [eexists _, 0, 0, 1, 255; split; [by apply demo_answer|split; [|done]]|].
  { apply (receives_bytes [0; 0; 1; 170; 255]). by apply fits_forallb. }
  split.
  { eapply acmd41_idle; [|apply acmd41_ready]; eexists _, _, 255, _; (split; [by apply demo_answer|split; [by apply Hone|by apply demo_answer]]). }
  split; [eexists _, 192, 255, 128, 0, 255; split; [by apply demo_answer|split; [|done]]|].
  { apply (receives_bytes [192; 255; 128; 0; 255]). by apply fits_forallb. }
  split; [eexists _, 255; split; [by apply demo_answer|by apply Hone]|].
  eexists (demo_from 8), (demo_from 9), 255, (demo_from 10), 0, [255], 255.
  split; [by apply demo_answer|]. split; [|split; [done|split; [by apply Hone|split; [by apply demo_answer|by apply Hone]]]].
  eapply sectors_cons; [apply demo_frame_in|vm_compute; reflexivity|apply sectors_nil].
Qed.

Lemma runs_done {A} (m : SD A) s a (Q : sd_st -> Prop) :
  runs m s (fun b s' => b = a /\ Q s') -> exists s', m s = Done a s' /\ Q s'.
Proof. unfold runs. destruct (m s) as [b s'| |]; [|done..]. intros [-> HQ]. eauto. Qed.

Lemma demo_run : exists s', @main_n demo_board 512 demo_st = Done 0 s'.
Proof.
  destruct (runs_done _ _ _ _ (@main_n_ok demo_board demo_board_drains _ _ _ _ demo_card)) as (s' & E & _). by exists s'.
Qed.

(** C1: A card that comes up and sends the payload boots: whatever the number of
    polls, idle answers and filler bytes, [main] returns 0, the sectors are
    in memory in order from [PAYLOAD_DEST] on, and no other byte of memory
    has changed. *)
Theorem sd_main_boots `{Board} size ds s l :
  uart_drains -> good_card size ds (rx s) l ->
  exists s', main_n size s = Done 0 s' /\ dram s' = write_bytes PAYLOAD_DEST (concat ds) (dram s).
Proof.
  intros Hu Hg. exact (runs_done _ _ _ _ (main_n_ok Hu _ _ _ _ Hg)).
Qed.

Lemma sd_main_boots_witness :
  exists s', @main_n demo_board 512 demo_st = Done 0 s' /\ dram s' = write_bytes PAYLOAD_DEST (concat [demo_sector]) ∅.
Proof. exact (@sd_main_boots demo_board 512 [demo_sector] demo_st [] demo_board_drains demo_card). Defined.

(** C21: [main] returns 0 only with the whole payload in place: every sector in
    memory was sent by the card as one frame and passed the comparison with
    the checksum sent with it, and nothing outside the payload was written. *)
Theorem sd_main_sound `{Board} size s s' :
  main_n size s = Done 0 s' -> loaded size s s'.
Proof. intros E. pose proof (main_n_ensures size s) as Hm. unfold ensures in Hm. rewrite E in Hm. by apply Hm. Qed.

Lemma sd_main_sound_witness : exists s', @main_n demo_board 512 demo_st = Done 0 s' /\ loaded 512 demo_st s'.
Proof.
  destruct demo_run as [s' E]. exists s'. split; [exact E|]. exact (@sd_main_sound demo_board 512 demo_st s' E).
Defined.

(** C34: A sector damaged on the way, in any pattern of wrong bits within sixteen
    consecutive ones, checksum bytes included, is refused: [copy] fails. *)
Theorem sd_copy_burst_refused `{Board} size s l1 ds l2 data hi lo data' hi' lo' l3 x l4 r l5 y l :
  uart_drains -> cmd_answer (rx s) 0 l1 -> sectors_in l1 ds l2 -> (length ds < Z.to_nat (size / SECTOR_SIZE_B))%nat ->
  frame_in l2 data' hi' lo' l3 -> receives l3 [x] l4 -> cmd_answer l4 r l5 -> receives l5 [y] l ->
  Forall (fits 8) (data ++ [hi; lo]) -> length data = 512%nat -> frame_ok data hi lo = true ->
  burst (bits_of (data ++ [hi; lo])) (bits_of (data' ++ [hi'; lo'])) ->
  runs (copy_n size) s (fun failed s' => failed = true /\ rx s' = l).
Proof.
  intros Hu Ha Hs Hn Hf Hx Hr Hy Hd Hlen Hok Hb.
  assert (Hbad : frame_ok data' hi' lo' = false).
  { destruct Hf as (pre & l0 & _ & _ & Hdata & Hlen'). apply receives_fits in Hdata.
    eapply burst_refused; [exact Hd|done|congruence|done..]. }
  eapply (copy_n_runs Hu); [done|]. intros s1 Hrx1 _. change (differs 0 0) with false. cbv iota. rewrite <- Hrx1 in Hs.
  eapply runs_bind; [eapply (copy_loop_refuses Hu); [done|lia|done..]|]. intros rc s2 (-> & Hrx2). rewrite <- Hrx2 in Hx.
  eapply runs_mono; [by eapply (copy_tail_ok Hu)|]. intros b s3 (-> & ? & _). done.
Qed.

(** The first two ones of the first byte arrive as zeros. *)
Definition demo_damaged : list Z := 192 :: tl demo_sector.
Definition demo_bad : list Z :=
  demo_cmd 0 ++ ([254] ++ demo_damaged ++ [crc16 demo_sector / 256; crc16 demo_sector mod 256]) ++ [255] ++ demo_cmd 0 ++ [255].

Lemma sd_copy_burst_refused_witness :
  runs (@copy_n demo_board 512) (mkSd demo_bad 0 ∅ []) (fun failed s' => failed = true /\ rx s' = []).
Proof.
  eapply (@sd_copy_burst_refused demo_board 512 _ _ [] _ demo_sector (crc16 demo_sector / 256) (crc16 demo_sector mod 256)
    demo_damaged (crc16 demo_sector / 256) (crc16 demo_sector mod 256) _ 255 _ 0 _ 255 []).
  - apply demo_board_drains.
  - by apply demo_answer.
  - apply sectors_nil.
  - vm_compute. lia.
  - rewrite <- !app_assoc. eexists [], _. split; [by apply (receives_bytes [254]), fits_forallb|]. split; [done|].
    split; [|by vm_compute]. rewrite app_assoc. apply receives_bytes, fits_forallb. vm_compute. reflexivity.
  - by apply (receives_bytes [255]), fits_forallb.
  - by apply demo_answer.
  - by apply (receives_bytes [255]), fits_forallb.
  - apply fits_forallb. vm_compute. reflexivity.
  - by vm_compute.
  - vm_compute. reflexivity.
  - exists O, [true; true], (8 * 514 - 2)%nat. split; [vm_compute; reflexivity|]. split; [simpl; lia|constructor].
Defined.

(** C37: A command always ends: given 1007 bytes, whatever they are, [sd_cmd]
    returns the first byte without the top bit among the thousand after the
    command, or the last of them after a timeout message; it has sent the six
    bytes of the command between bytes of ones, and touched no memory. *)
Theorem sd_cmd_ends `{Board} cmd arg crc s bs l :
  uart_drains -> receives (rx s) bs l -> length bs = 1007%nat ->
  exists r s' k, sd_cmd cmd arg crc s = Done r s' /\ cmd_answer (rx s) r (rx s') /\ dram s' = dram s /\
    (k <= 1000)%nat /\ sent s' = sent s ++ 255 :: cmd_frame cmd arg crc ++ replicate k 255.
Proof.
  intros Hu Hr Hl. destruct (cmd_answer_total _ _ _ Hr Hl) as (r & l1 & Ha).
  pose proof (sd_cmd_runs Hu cmd arg crc _ _ _ Ha) as Hc. unfold runs in Hc.
  destruct (sd_cmd cmd arg crc s) as [a s'| |]; [|done..]. destruct Hc as (k & Hk & -> & Hrx & Hd & Hs).
  exists r, s', k. rewrite Hrx. done.
Qed.

Lemma sd_cmd_ends_witness :
  exists r s' k, @sd_cmd demo_board 64 0 149 (mkSd (replicate 1007 255) 0 ∅ []) = Done r s' /\
    cmd_answer (replicate 1007 255) r (rx s') /\ dram s' = ∅ /\
    (k <= 1000)%nat /\ sent s' = 255 :: cmd_frame 64 0 149 ++ replicate k 255.
Proof.
  apply (@sd_cmd_ends demo_board 64 0 149 (mkSd (replicate 1007 255) 0 ∅ []) (replicate 1007 255) []).
  - apply demo_board_drains.
  - vm_compute. reflexivity.
  - apply length_replicate.
Defined.

(** A card that does not come up does not stop the boot: when the answer to
    the first command is not the idle state, [main] reports the error, but
    the entry code ignores what it returns and jumps to memory that nothing
    has been written to. *)
Theorem prog_start_ignores_failure `{Board} h size s bs l0 r l1 x l :
  uart_drains -> receives (rx s) bs l0 -> length bs = 10%nat ->
  cmd_answer l0 r l1 -> r <> 1 -> receives l1 [x] l ->
  runs (prog_start h size) s (fun j s' => j = (PAYLOAD_DEST, h, dtb) /\ dram s' = dram s).
Proof.
  intros Hu Hbs Hl Ha Hr Hx. unfold prog_start.
  eapply (runs_bind _ _ _ (fun rc s' => rc = 1 /\ dram s' = dram s)); [|intros rc s' [_ Hd]; by apply runs_ret].
  eapply (main_n_runs Hu); [done..|]. intros s0 Hr0 Hd0.
  eapply (runs_bind _ _ _ (fun b s' => b = true /\ dram s' = dram s)).
  - cbn [any_fails]. eapply (runs_bind _ _ _ (fun b s' => b = true /\ dram s' = dram s)).
    + unfold sd_cmd0. eapply runs_bind; [by apply (kprints_kputs Hu)|]. intros [] s1 [(Hr1 & Hd1 & _) _]. cbv beta.
      eapply runs_bind; [apply (cmd_moves Hu); by rewrite Hr1, Hr0|]. intros y s2 (-> & Hr2 & Hd2). cbv beta.
      rewrite <- Hr2 in Hx. eapply runs_bind; [by eapply end_moves|]. intros ? s3 (_ & _ & Hd3). apply runs_ret.
      split; [|congruence]. unfold differs. by rewrite (proj2 (Z.eqb_neq r 1) Hr).
    + intros b s1 [-> Hd1]. by apply runs_ret.
  - intros b s1 [-> Hd1]. eapply runs_bind; [by apply (kprints_kputs Hu)|]. intros [] s2 [(_ & Hd2 & _) _].
    apply runs_ret. split; [done|congruence].
Qed.

(** A card that answers the reset with an error. *)
Definition demo_dead : sd_st := mkSd (replicate 10 255 ++ demo_cmd 5 ++ [255]) 0 ∅ [].

Lemma prog_start_ignores_failure_witness :
  runs (@prog_start demo_board 0 512) demo_dead
    (fun j s' => j = (PAYLOAD_DEST, 0, @dtb demo_board) /\ dram s' = dram demo_dead).
Proof.
  apply (@prog_start_ignores_failure demo_board 0 512 demo_dead (replicate 10 255) (demo_cmd 5 ++ [255]) 5 [255] 255 []).
  - apply demo_board_drains.
  - apply receives_bytes. by apply fits_forallb.
  - done.
  - by apply demo_answer.
  - done.
  - by apply (receives_bytes [255]), fits_forallb.
Defined.

(** The [%x] of [kprintf] kprints eight lower-case digits that read back as
    the 32-bit value of the argument. *)
Theorem kprintf_hex_roundtrip `{Board} n :
  uart_drains ->
  kprints (hex_text (u32 n) 8) (kprintf (chars "%x") [KInt n]) /\ read_hex (hex_text (u32 n) 8) = u32 n.
Proof.
  intros Hu. split.
  - apply (kprints_kprintf_loop Hu). reflexivity.
  - rewrite read_hex_text by apply fits_u32. apply Z.mod_small. apply fits_u32.
Qed.

Lemma kprintf_hex_roundtrip_witness :
  kprints (chars "0000beef") (@kprintf demo_board (chars "%x") [KInt 48879]) /\
  read_hex (chars "0000beef") = 48879.
Proof. exact (@kprintf_hex_roundtrip demo_board 48879 demo_board_drains). Defined.
