(* ===== verification/Smp.v ===== *)
(** The entry and release of the harts around the boot loader
    (zcu102/sdboot/include/smp.h: [smp_pause], [smp_resume]; head.S).

    Hart 0 runs the loader; the others wait for a software interrupt.  When the
    loader is done, hart 0 raises the software interrupt of every hart, and each
    hart, hart 0 included, waits for its own, clears it, and looks at the
    interrupt words of all harts in turn, going on only past one that is clear.
    The harts are the [cores] that exist; the interrupt word of a hart that does
    not exist ignores writes and reads as zero. *)

From S2P Require Import Prelude.

#[local] Open Scope nat_scope.

(** smp.h: the number of interrupt words the macros go through. *)
Definition MAX_HARTS : nat := 32.

(** Where a hart is: in the loader, raising the interrupt of hart [n], waiting
    for its own, clearing it, looking at the word of hart [n], or past the
    jump to the payload. *)
Inductive smp_pc : Type :=
| SMain
| SRaise (n : nat)
| SWait
| SClear
| SScan (n : nat)
| SPayload.

Record smp_st : Type := mkSmp { msip : nat -> bool; spc : nat -> smp_pc }.

Definition upd {A} (f : nat -> A) (h : nat) (v : A) : nat -> A :=
  fun k => if decide (k = h) then v else f k.

Section Smp.
Context (cores : nat).

(** The write of an interrupt word. *)
Definition write_msip (f : nat -> bool) (n : nat) (b : bool) : nat -> bool :=
  if n <? cores then upd f n b else f.

(** After raising the interrupt of hart [n]. *)
Definition after_raise (n : nat) : smp_pc := if S n <? MAX_HARTS then SRaise (S n) else SWait.
(** After finding the word of hart [n] clear. *)
Definition after_scan (n : nat) : smp_pc := if S n <? MAX_HARTS then SScan (S n) else SPayload.

Inductive smp_step : smp_st -> smp_st -> Prop :=
| smp_main m f : f 0 = SMain -> smp_step (mkSmp m f) (mkSmp m (upd f 0 (SRaise 0)))
| smp_raise m f h n : h < cores -> f h = SRaise n ->
    smp_step (mkSmp m f) (mkSmp (write_msip m n true) (upd f h (after_raise n)))
| smp_wake m f h : h < cores -> f h = SWait -> m h = true -> smp_step (mkSmp m f) (mkSmp m (upd f h SClear))
| smp_clear m f h : h < cores -> f h = SClear ->
    smp_step (mkSmp m f) (mkSmp (write_msip m h false) (upd f h (SScan 0)))
| smp_scan m f h n : h < cores -> f h = SScan n -> m n = false ->
    smp_step (mkSmp m f) (mkSmp m (upd f h (after_scan n))).

(** [smp_pause]: hart 0 goes on to [main], the others to the wait loop. *)
Definition smp_pause (h : nat) : smp_pc := if decide (h = 0) then SMain else SWait.
Definition smp_init : smp_st := mkSmp (fun _ => false) smp_pause.

Inductive smp_reach : smp_st -> Prop :=
| smp_start : smp_reach smp_init
| smp_next s s' : smp_reach s -> smp_step s s' -> smp_reach s'.

(** A hart that has cleared its interrupt. *)
Definition acked (p : smp_pc) : bool := match p with SScan _ | SPayload => true | _ => false end.
(** How many interrupts hart 0 has raised. *)
Definition raised (p : smp_pc) : nat := match p with SMain => 0 | SRaise n => n | _ => MAX_HARTS end.

(** The words a hart has gone past. *)
Definition passed (p : smp_pc) : nat := match p with SScan n => n | SPayload => MAX_HARTS | _ => 0 end.

Definition pc_ok (h : nat) (p : smp_pc) : Prop :=
  match p with SMain => h = 0 | SRaise n => h = 0 /\ n < MAX_HARTS | SScan n => n < MAX_HARTS | _ => True end.

Record smp_inv (s : smp_st) : Prop := {
  inv_pc : forall h, h < cores -> pc_ok h (spc s h);
  inv_out : forall h, cores <= h -> msip s h = false;
  inv_before : forall h, 0 < h < cores -> raised (spc s 0) <= h -> spc s h = SWait /\ msip s h = false;
  inv_zero : raised (spc s 0) = 0 -> msip s 0 = false;
  inv_after : forall h, h < cores -> h < raised (spc s 0) -> msip s h = negb (acked (spc s h));
  inv_passed : forall h j, h < cores -> j < cores -> j < passed (spc s h) -> acked (spc s j) = true
}.

Context (some : 0 < cores) (few : cores <= MAX_HARTS).

Lemma upd_eq {A} (f : nat -> A) h v : upd f h v h = v.
Proof. unfold upd. by rewrite decide_True. Qed.
Lemma upd_ne {A} (f : nat -> A) h v k : k <> h -> upd f h v k = f k.
Proof. intros. unfold upd. by rewrite decide_False. Qed.

Lemma smp_inv_init : smp_inv smp_init.
Proof.
  unfold smp_init, smp_pause. split; cbn; intros; try done; repeat case_decide; simpl in *; try done; try lia.
Qed.

(** A hart that has cleared its interrupt had it raised. *)
Lemma acked_raised s h : smp_inv s -> h < cores -> acked (spc s h) = true -> h < raised (spc s 0).
Proof.
  intros Hi Hh Ha. destruct (decide (h = 0)) as [->|]; [destruct (spc s 0); simpl in *; unfold MAX_HARTS in *; (done || lia)|].
  destruct (decide (h < raised (spc s 0))); [done|]. destruct (inv_before s Hi h) as [E _]; [lia..|]. by rewrite E in Ha.
Qed.

(** A word that reads as clear after the words before it belongs to a hart that
    has cleared it. *)
Lemma scan_acked s h n :
  smp_inv s -> h < cores -> n < cores -> spc s h = SScan n -> msip s n = false -> acked (spc s n) = true.
Proof.
  intros Hi Hh Hn Hpc Hm. assert (Hr : n < raised (spc s 0)).
  { destruct (decide (n = 0)) as [->|].
    - pose proof (acked_raised s h Hi Hh). rewrite Hpc in *. simpl in *. specialize (H eq_refl). lia.
    - assert (Ha : acked (spc s 0) = true). { apply (inv_passed s Hi h 0 Hh some). rewrite Hpc. simpl. lia. }
      destruct (spc s 0); simpl in *; done || lia. }
  pose proof (inv_after s Hi n Hn Hr) as E. rewrite Hm in E. by destruct (acked (spc s n)).
Qed.

Ltac smp_cases :=
  unfold upd in *; repeat case_decide; subst; simpl in *; try done; try lia.

Lemma smp_inv_main m f : f 0 = SMain -> smp_inv (mkSmp m f) -> smp_inv (mkSmp m (upd f 0 (SRaise 0))).
Proof.
  intros E [I1 I2 I3 I4 I5 I6]. simpl in *. rewrite E in *. simpl in *. split; cbn; intros; smp_cases; eauto.
  specialize (I6 h 0 H H0 H1). by rewrite E in I6.
Qed.

Lemma smp_inv_raise m f h n :
  h < cores -> f h = SRaise n -> smp_inv (mkSmp m f) ->
  smp_inv (mkSmp (write_msip m n true) (upd f h (after_raise n))).
Proof.
  intros Hh E [I1 I2 I3 I4 I5 I6]. simpl in *. pose proof (I1 h Hh) as Hpc. rewrite E in Hpc. destruct Hpc as [-> Hn].
  rewrite E in *. simpl in *.
  assert (Hr : raised (after_raise n) = S n).
  { unfold after_raise. destruct (Nat.ltb_spec (S n) MAX_HARTS); simpl; lia. }
  assert (Ha : acked (after_raise n) = false) by (unfold after_raise; by destruct (S n <? MAX_HARTS)).
  assert (Hnot : forall h, h < cores -> 0 < passed (f h) -> False).
  { intros h Hh' Hp. specialize (I6 h 0 Hh' Hh Hp). by rewrite E in I6. }
  split; cbn; rewrite ?upd_eq, ?Hr.
  - intros h Hh'. destruct (decide (h = 0)) as [->|]; [|rewrite upd_ne by done; auto].
    rewrite upd_eq. unfold after_raise. destruct (Nat.ltb_spec (S n) MAX_HARTS); simpl; auto.
  - intros h Hh'. unfold write_msip. destruct (Nat.ltb_spec n cores); [rewrite upd_ne by lia|]; auto.
  - intros h Hh' Hle. rewrite upd_ne by lia. unfold write_msip.
    destruct (Nat.ltb_spec n cores); [rewrite upd_ne by lia|]; apply I3; lia.
  - lia.
  - intros h Hh' Hlt. unfold write_msip. destruct (decide (h = n)) as [->|].
    + destruct (Nat.ltb_spec n cores); [|lia]. rewrite upd_eq. destruct (decide (n = 0)) as [->|]; [by rewrite upd_eq, Ha|].
      rewrite upd_ne by done. destruct (I3 n) as [-> _]; [lia..|]. done.
    + assert (E' : (if n <? cores then upd m n true else m) h = m h) by (destruct (n <? cores); [by apply upd_ne|done]).
      rewrite E'. destruct (decide (h = 0)) as [->|]; [rewrite upd_eq, Ha|rewrite upd_ne by done; apply I5; lia].
      specialize (I5 0 Hh ltac:(lia)). by rewrite E in I5.
  - intros h j Hh' Hj Hp. exfalso. destruct (decide (h = 0)) as [->|].
    + rewrite upd_eq in Hp. unfold after_raise in Hp. destruct (S n <? MAX_HARTS); simpl in Hp; lia.
    + rewrite upd_ne in Hp by done. apply (Hnot h); [done|lia].
Qed.

(** A hart other than in the loader and its raising loop moves on. *)
Lemma smp_inv_move m m' f h p :
  h < cores -> raised (f h) = MAX_HARTS -> raised p = MAX_HARTS -> pc_ok h p ->
  m' h = negb (acked p) -> (forall k, k <> h -> m' k = m k) ->
  (acked (f h) = true -> acked p = true) -> (h < raised (f 0)) ->
  (forall j, j < cores -> j < passed p -> acked (upd f h p j) = true) ->
  smp_inv (mkSmp m f) -> smp_inv (mkSmp m' (upd f h p)).
Proof.
  intros Hh Hr Hr' Hok Hm Hm' Hack Hup Hpass [I1 I2 I3 I4 I5 I6]. simpl in *.
  assert (E0 : raised (upd f h p 0) = raised (f 0)) by (unfold upd; case_decide; congruence).
  split; cbn; rewrite ?E0.
  - intros k Hk. destruct (decide (k = h)) as [->|]; [by rewrite upd_eq|rewrite upd_ne by done; auto].
  - intros k Hk. rewrite Hm' by lia. auto.
  - intros k Hk Hle. rewrite Hm', upd_ne by lia. auto.
  - intros Hz. lia.
  - intros k Hk Hlt. destruct (decide (k = h)) as [->|]; [by rewrite upd_eq|]. rewrite Hm', upd_ne by done. auto.
  - intros k j Hk Hj Hp. destruct (decide (k = h)) as [->|]; [rewrite upd_eq in Hp; auto|]. rewrite upd_ne in Hp by done.
    specialize (I6 k j Hk Hj Hp). destruct (decide (j = h)) as [->|]; [rewrite upd_eq; auto|by rewrite upd_ne].
Qed.

Lemma smp_step_inv s s' : smp_step s s' -> smp_inv s -> smp_inv s'.
Proof.
  destruct 1 as [m f E|m f h n Hh E|m f h Hh E Hm|m f h Hh E|m f h n Hh E Hm]; intros Hi.
  - by apply smp_inv_main.
  - by apply smp_inv_raise.
  - assert (Hup : h < raised (f 0)).
    { destruct (decide (h < raised (f 0))); [done|]. destruct (decide (h = 0)) as [->|].
      - rewrite E in *. simpl in *. unfold MAX_HARTS in *. lia.
      - destruct (inv_before _ Hi h) as [_ Hf]; simpl in *; [lia..|congruence]. }
    apply (smp_inv_move m); rewrite ?E; try done. simpl. intros. lia.
  - assert (Hup : h < raised (f 0)).
    { destruct (decide (h < raised (f 0))); [done|]. destruct (decide (h = 0)) as [->|].
      - rewrite E in *. simpl in *. unfold MAX_HARTS in *. lia.
      - destruct (inv_before _ Hi h) as [Hf _]; simpl in *; [lia..|congruence]. }
    apply (smp_inv_move m); rewrite ?E; try done.
    + simpl. unfold MAX_HARTS. lia.
    + unfold write_msip. destruct (Nat.ltb_spec h cores); [by rewrite upd_eq|lia].
    + intros k Hk. unfold write_msip. destruct (h <? cores); [by apply upd_ne|done].
    + simpl. intros. lia.
  - pose proof (acked_raised _ h Hi Hh ltac:(simpl; by rewrite E)) as Hup. simpl in Hup.
    pose proof (inv_pc _ Hi h Hh) as Hok. simpl in Hok. rewrite E in Hok. simpl in Hok.
    assert (Hack : acked (after_scan n) = true) by (unfold after_scan; by destruct (S n <? MAX_HARTS)).
    apply (smp_inv_move m); rewrite ?E, ?Hack; try done.
    + unfold after_scan. by destruct (S n <? MAX_HARTS).
    + unfold after_scan. destruct (Nat.ltb_spec (S n) MAX_HARTS); done.
    + pose proof (inv_after _ Hi h Hh Hup) as Hma. simpl in Hma. by rewrite Hma, E.
    + intros j Hj Hp. assert (Hjn : j <= n).
      { unfold after_scan in Hp. destruct (Nat.ltb_spec (S n) MAX_HARTS); simpl in Hp; unfold MAX_HARTS in *; lia. }
      destruct (decide (j = h)) as [->|]; [by rewrite upd_eq|]. rewrite upd_ne by done.
      destruct (decide (j = n)) as [->|]; [by apply (scan_acked _ h n Hi)|].
      apply (inv_passed _ Hi h j Hh Hj). simpl. rewrite E. simpl. lia.
Qed.

Lemma smp_reach_inv s : smp_reach s -> smp_inv s.
Proof. induction 1; [apply smp_inv_init|by eapply smp_step_inv]. Qed.

(** ** Every run ends with all harts released *)

(** What a hart still has to do. *)
Definition todo (p : smp_pc) : nat :=
  match p with
  | SMain => 200
  | SRaise n => 150 - n
  | SWait => 100
  | SClear => 99
  | SScan n => 90 - n
  | SPayload => 0
  end.
Definition smp_todo (s : smp_st) : nat := sum_list_with (fun h => todo (spc s h)) (seq 0 cores).

Lemma sum_upd (g : smp_pc -> nat) f h p l :
  NoDup l -> h ∈ l -> g p < g (f h) ->
  sum_list_with (fun k => g (upd f h p k)) l < sum_list_with (fun k => g (f k)) l.
Proof.
  intros Hnd Hin Hlt. induction Hnd as [|k l Hk Hnd IH]; [by apply not_elem_of_nil in Hin|]. simpl.
  destruct (decide (k = h)) as [->|].
  - rewrite upd_eq. assert (E : sum_list_with (fun k => g (upd f h p k)) l = sum_list_with (fun k => g (f k)) l).
    { clear -Hk. induction l as [|j l IH]; [done|]. simpl. rewrite upd_ne, IH by set_solver. done. }
    lia.
  - rewrite upd_ne by done. apply elem_of_cons in Hin as [->|Hin]; [done|]. specialize (IH Hin). lia.
Qed.

Lemma smp_step_todo s s' : smp_inv s -> smp_step s s' -> smp_todo s' < smp_todo s.
Proof.
  intros Hi Hs. unfold smp_todo. destruct Hs as [m f E|m f h n Hh E|m f h Hh E Hm|m f h Hh E|m f h n Hh E Hm]; simpl;
    apply sum_upd; try apply NoDup_seq; try (apply elem_of_seq; lia); rewrite E; simpl; try lia.
  - pose proof (inv_pc _ Hi h Hh) as Hok. simpl in Hok. rewrite E in Hok. destruct Hok as [_ Hok]. unfold MAX_HARTS in Hok.
    unfold after_raise. destruct (S n <? MAX_HARTS); simpl; lia.
  - pose proof (inv_pc _ Hi h Hh) as Hok. simpl in Hok. rewrite E in Hok. simpl in Hok. unfold MAX_HARTS in Hok.
    unfold after_scan. destruct (S n <? MAX_HARTS); simpl; lia.
Qed.

(** As long as a hart is not released, some hart can go on. *)
Lemma smp_progress s h : smp_inv s -> h < cores -> spc s h <> SPayload -> exists s', smp_step s s'.
Proof.
  intros Hi Hh Hp. destruct s as [m f]. simpl in *.
  assert (Hgo : forall k, k < cores -> k < raised (f 0) -> acked (f k) = false -> exists s', smp_step (mkSmp m f) s').
  { intros k Hk Hr Ha. pose proof (inv_after _ Hi k Hk Hr) as Hm. simpl in Hm. rewrite Ha in Hm. simpl in Hm.
    destruct (f k) eqn:E; try done.
    - pose proof (inv_pc _ Hi k Hk) as Hok. simpl in Hok. rewrite E in Hok. simpl in Hok. subst k. eexists. by apply smp_main.
    - eexists. by eapply smp_raise.
    - eexists. by eapply smp_wake.
    - eexists. by eapply smp_clear. }
  destruct (acked (f 0)) eqn:E0.
  - assert (Hr : raised (f 0) = MAX_HARTS) by (by destruct (f 0)).
    assert (Hc : {exists k, k < cores /\ acked (f k) = false} + {forall k, k < cores -> acked (f k) = true}).
    { destruct (decide (Forall (fun k => acked (f k) = true) (seq 0 cores))) as [Hf|Hf].
      - right. rewrite Forall_forall in Hf. intros k Hk. apply Hf, elem_of_seq. lia.
      - left. apply not_Forall_Exists in Hf; [|intros k; apply _]. apply Exists_exists in Hf as (k & Hin & Hk).
        apply elem_of_seq in Hin. exists k. split; [lia|by apply not_true_is_false]. }
    destruct Hc as [(k & Hk & Ha)|Hall]; [apply (Hgo k); [done|lia|done]|].
    pose proof (Hall h Hh) as Ha. destruct (f h) eqn:E; try done. eexists. eapply smp_scan; [exact Hh|exact E|].
    destruct (decide (n < cores)); [|apply (inv_out _ Hi); lia].
    pose proof (inv_after _ Hi n) as Hma. simpl in Hma. rewrite Hma by lia. by rewrite Hall.
  - destruct (f 0) eqn:E; try done.
    + eexists. by apply smp_main.
    + eexists. by eapply (smp_raise _ _ 0).
    + apply (Hgo 0 some); [simpl; unfold MAX_HARTS; lia|by rewrite E].
    + eexists. by eapply (smp_clear _ _ 0).
Qed.

#[global] Instance smp_pc_eq : EqDecision smp_pc.
Proof. solve_decision. Defined.

Lemma smp_stuck_done s :
  smp_inv s -> (forall s', ~ smp_step s s') -> forall h, h < cores -> spc s h = SPayload.
Proof.
  intros Hi Hno h Hh. destruct (decide (spc s h = SPayload)); [done|].
  destruct (smp_progress s h) as [s' Hs]; [done..|]. by destruct (Hno s').
Qed.

Lemma smp_finishes n s :
  smp_todo s <= n -> smp_reach s -> exists s', smp_reach s' /\ forall h, h < cores -> spc s' h = SPayload.
Proof.
  revert s. induction n as [|n IH]; intros s Hn Hr; pose proof (smp_reach_inv s Hr) as Hi;
    destruct (decide (Forall (fun h => spc s h = SPayload) (seq 0 cores))) as [Hf|Hf];
    try (exists s; split; [done|]; intros h Hh; rewrite Forall_forall in Hf; apply Hf, elem_of_seq; lia);
    (apply not_Forall_Exists in Hf; [|intros k; apply _]); apply Exists_exists in Hf as (h & Hin & Hh);
    apply elem_of_seq in Hin; destruct (smp_progress s h) as [s' Hs]; (done || lia || idtac);
    pose proof (smp_step_todo s s' Hi Hs); [lia|].
  apply (IH s'); [lia|by eapply smp_next].
Qed.

Lemma smp_nsteps n s s' : smp_reach s -> nsteps smp_step n s s' -> smp_reach s' /\ n + smp_todo s' <= smp_todo s.
Proof.
  intros Hr Hn. induction Hn as [s|n s1 s2 s3 Hs Hn IH]; [done|].
  pose proof (smp_step_todo s1 s2 (smp_reach_inv _ Hr) Hs). destruct IH as [? ?]; [by eapply smp_next|]. split; [done|lia].
Qed.

End Smp.

(** C30: No hart leaves for the payload early: in every state reachable by any
    interleaving, when one hart has jumped, every hart has been released by
    hart 0, which has therefore finished loading, and has acknowledged it. *)
Theorem smp_barrier cores s h k :
  0 < cores <= MAX_HARTS -> smp_reach cores s -> h < cores -> spc s h = SPayload -> k < cores ->
  acked (spc s k) = true.
Proof.
  intros [Hs Hf] Hr Hh Hp Hk. apply (inv_passed _ _ (smp_reach_inv _ Hs Hf s Hr) h k Hh Hk).
  rewrite Hp. simpl. lia.
Qed.

Lemma smp_barrier_witness : exists s, smp_reach 4 s /\ spc s 3 = SPayload /\ acked (spc s 0) = true.
Proof.
  assert (Hs : 0 < 4) by lia. assert (Hf : 4 <= MAX_HARTS) by (unfold MAX_HARTS; lia).
  destruct (smp_finishes 4 Hs Hf _ (smp_init) (le_n _) (smp_start 4)) as (s & Hr & Hall).
  exists s. split; [exact Hr|]. split; [apply Hall; lia|].
  apply (smp_barrier 4 s 3 0); [lia|exact Hr|lia|apply Hall; lia|lia].
Defined.


