(* ===== verification/Fdt.v ===== *)
(** Reading a flattened device tree: lib/utils/libfdt/fdt.c, fdt_ro.c,
    fdt_addresses.c and the inline functions of libfdt.h and libfdt_internal.h.

    A blob is the list of bytes of the memory it lies in; a pointer into it is
    a position, and [from] what can be read from there on.  Reading outside the
    memory is undefined ([None]).  A pointer that may be null is an option; a
    function that also stores a length or an error returns both.  [int] is 32
    bits and wraps around.  The loops are bounded by the length of the blob,
    which every turn advances in; [None] when the bound is reached is proved
    not to happen. *)

From S2P Require Import Prelude Cstring.

(** * Constants of fdt.h and libfdt.h *)

Definition FDT_MAGIC : Z := 3490578157.
Definition FDT_SW_MAGIC : Z := 4294967295 - FDT_MAGIC.
Definition FDT_TAGSIZE : Z := 4.
Definition FDT_BEGIN_NODE : Z := 1.
Definition FDT_END_NODE : Z := 2.
Definition FDT_PROP : Z := 3.
Definition FDT_NOP : Z := 4.
Definition FDT_END : Z := 9.
Definition FDT_V1_SIZE : Z := 28.
Definition FDT_V2_SIZE : Z := 32.
Definition FDT_V3_SIZE : Z := 36.
Definition FDT_V16_SIZE : Z := FDT_V3_SIZE.
Definition FDT_V17_SIZE : Z := 40.
Definition FDT_FIRST_SUPPORTED_VERSION : Z := 2.
Definition FDT_LAST_SUPPORTED_VERSION : Z := 17.
Definition INT_MAX : Z := 2147483647.
Definition FDT_MAX_PHANDLE : Z := 4294967294.
Definition FDT_MAX_NCELLS : Z := 4.

Definition FDT_ERR_NOTFOUND : Z := 1.
Definition FDT_ERR_NOSPACE : Z := 3.
Definition FDT_ERR_BADOFFSET : Z := 4.
Definition FDT_ERR_BADPATH : Z := 5.
Definition FDT_ERR_BADPHANDLE : Z := 6.
Definition FDT_ERR_BADSTATE : Z := 7.
Definition FDT_ERR_TRUNCATED : Z := 8.
Definition FDT_ERR_BADMAGIC : Z := 9.
Definition FDT_ERR_BADVERSION : Z := 10.
Definition FDT_ERR_BADSTRUCTURE : Z := 11.
Definition FDT_ERR_INTERNAL : Z := 13.
Definition FDT_ERR_BADNCELLS : Z := 14.
Definition FDT_ERR_BADVALUE : Z := 15.
Definition FDT_ERR_NOPHANDLES : Z := 17.

(** * Loads *)

(** The bytes from position [p] on. *)
Definition from (fdt : list Z) (p : Z) : list Z := if p <? 0 then [] else drop (Z.to_nat p) fdt.

Definition fdt32_ld (bp : list Z) : option Z :=
  match bp with
  | b0 :: b1 :: b2 :: b3 :: _ => Some (Z.shiftl b0 24 .| Z.shiftl b1 16 .| Z.shiftl b2 8 .| b3)
  | _ => None
  end.
Definition fdt64_ld (bp : list Z) : option Z :=
  match bp with
  | b0 :: b1 :: b2 :: b3 :: b4 :: b5 :: b6 :: b7 :: _ =>
      Some (Z.shiftl b0 56 .| Z.shiftl b1 48 .| Z.shiftl b2 40 .| Z.shiftl b3 32 .|
            Z.shiftl b4 24 .| Z.shiftl b5 16 .| Z.shiftl b6 8 .| b7)
  | _ => None
  end.

(** The fields of [struct fdt_header]. *)
Definition fdt_get_header (fdt : list Z) (field : Z) : option Z := fdt32_ld (from fdt field).
Definition fdt_magic (fdt : list Z) : option Z := fdt_get_header fdt 0.
Definition fdt_totalsize (fdt : list Z) : option Z := fdt_get_header fdt 4.
Definition fdt_off_dt_struct (fdt : list Z) : option Z := fdt_get_header fdt 8.
Definition fdt_off_dt_strings (fdt : list Z) : option Z := fdt_get_header fdt 12.
Definition fdt_off_mem_rsvmap (fdt : list Z) : option Z := fdt_get_header fdt 16.
Definition fdt_version (fdt : list Z) : option Z := fdt_get_header fdt 20.
Definition fdt_last_comp_version (fdt : list Z) : option Z := fdt_get_header fdt 24.
Definition fdt_size_dt_strings (fdt : list Z) : option Z := fdt_get_header fdt 32.
Definition fdt_size_dt_struct (fdt : list Z) : option Z := fdt_get_header fdt 36.

Definition FDT_ALIGN (x a : Z) : Z := (x + a - 1) .& Z.lnot (a - 1).
Definition FDT_TAGALIGN (x : Z) : Z := s32 (FDT_ALIGN x FDT_TAGSIZE).

(** * fdt.c *)

Definition fdt_ro_probe_ (fdt : list Z) : option Z :=
  totalsize ← fdt_totalsize fdt;
  magic ← fdt_magic fdt;
  err ← (if magic =? FDT_MAGIC then
           version ← fdt_version fdt;
           if version <? FDT_FIRST_SUPPORTED_VERSION then Some (- FDT_ERR_BADVERSION)
           else
             last ← fdt_last_comp_version fdt;
             Some (if FDT_LAST_SUPPORTED_VERSION <? last then - FDT_ERR_BADVERSION else 0)
         else if magic =? FDT_SW_MAGIC then
           size ← fdt_size_dt_struct fdt;
           Some (if size =? 0 then - FDT_ERR_BADSTATE else 0)
         else Some (- FDT_ERR_BADMAGIC));
  Some (if err <? 0 then err else if totalsize <? INT_MAX then totalsize else - FDT_ERR_TRUNCATED).

(** [FDT_RO_PROBE(fdt); k] *)
Definition FDT_RO_PROBE (fdt : list Z) (k : option Z) : option Z :=
  r ← fdt_ro_probe_ fdt; if r <? 0 then Some r else k.

Definition check_off_ (hdrsize totalsize off : Z) : bool := (hdrsize <=? off) && (off <=? totalsize).

Definition check_block_ (hdrsize totalsize base size : Z) : bool :=
  if negb (check_off_ hdrsize totalsize base) then false
  else if u32 (base + size) <? base then false
  else check_off_ hdrsize totalsize (u32 (base + size)).

Definition fdt_header_size_ (version : Z) : Z :=
  if version <=? 1 then FDT_V1_SIZE
  else if version <=? 2 then FDT_V2_SIZE
  else if version <=? 3 then FDT_V3_SIZE
  else if version <=? 16 then FDT_V16_SIZE
  else FDT_V17_SIZE.

Definition fdt_check_header (fdt : list Z) : option Z :=
  magic ← fdt_magic fdt;
  if negb (magic =? FDT_MAGIC) then Some (- FDT_ERR_BADMAGIC) else
  version ← fdt_version fdt;
  let hdrsize := fdt_header_size_ version in
  if version <? FDT_FIRST_SUPPORTED_VERSION then Some (- FDT_ERR_BADVERSION) else
  last ← fdt_last_comp_version fdt;
  totalsize ← fdt_totalsize fdt;
  off_rsv ← fdt_off_mem_rsvmap fdt;
  off_struct ← fdt_off_dt_struct fdt;
  off_strings ← fdt_off_dt_strings fdt;
  if FDT_LAST_SUPPORTED_VERSION <? last then Some (- FDT_ERR_BADVERSION)
  else if version <? last then Some (- FDT_ERR_BADVERSION)
  else if (totalsize <? hdrsize) || (INT_MAX <? totalsize) then Some (- FDT_ERR_TRUNCATED)
  else if negb (check_off_ hdrsize totalsize off_rsv) then Some (- FDT_ERR_TRUNCATED)
  else
    ok ← (if version <? 17 then Some (check_off_ hdrsize totalsize off_struct)
          else size ← fdt_size_dt_struct fdt; Some (check_block_ hdrsize totalsize off_struct size));
    if negb ok then Some (- FDT_ERR_TRUNCATED)
    else
      size ← fdt_size_dt_strings fdt;
      Some (if negb (check_block_ hdrsize totalsize off_strings size) then - FDT_ERR_TRUNCATED else 0).

Definition fdt_offset_ptr_ (fdt : list Z) (offset : Z) : option Z :=
  off ← fdt_off_dt_struct fdt; Some (off + offset).

Definition fdt_offset_ptr (fdt : list Z) (offset len : Z) : option (option Z) :=
  off ← fdt_off_dt_struct fdt;
  totalsize ← fdt_totalsize fdt;
  let absoffset := u32 (offset + off) in
  if (absoffset <? u32 offset) || (u32 (absoffset + len) <? absoffset) || (totalsize <? u32 (absoffset + len)) then Some None
  else
    version ← fdt_version fdt;
    bad ← (if 17 <=? version then
             size ← fdt_size_dt_struct fdt;
             Some ((u32 (offset + len) <? u32 offset) || (size <? u32 (offset + len)))
           else Some false);
    if bad : bool then Some None else Some <$> fdt_offset_ptr_ fdt offset.

(** [do { p = fdt_offset_ptr(fdt, offset++, 1); } while (p && ( *p != 0));]
    gives the offset reached, or [None] at the end of the block. *)
Fixpoint skip_name (n : nat) (fdt : list Z) (offset : Z) : option (option Z) :=
  match n with
  | O => None
  | S n =>
      p ← fdt_offset_ptr fdt offset 1;
      match p with
      | None => Some None
      | Some p =>
          c ← head (from fdt p);
          if c =? 0 then Some (Some (s32 (offset + 1))) else skip_name n fdt (s32 (offset + 1))
      end
  end.

(** The offset after the contents of a tag, before alignment; [None] when the
    tag is unknown or its contents run over the end. *)
Definition skip_contents (fdt : list Z) (tag offset : Z) : option (option Z) :=
  if tag =? FDT_BEGIN_NODE then skip_name (S (length fdt)) fdt offset
  else if tag =? FDT_PROP then
    lenp ← fdt_offset_ptr fdt offset 4;
    match lenp with
    | None => Some None
    | Some lenp =>
        len ← fdt32_ld (from fdt lenp);
        version ← fdt_version fdt;
        let offset := s32 (offset + 8 + len) in
        Some (Some (if (version <? 16) && (8 <=? len) && negb (u32 (offset - len) mod 8 =? 0)
                    then s32 (offset + 4) else offset))
    end
  else if (tag =? FDT_END) || (tag =? FDT_END_NODE) || (tag =? FDT_NOP) then Some (Some offset)
  else Some None.

Definition fdt_next_tag (fdt : list Z) (startoffset : Z) : option (Z * Z) :=
  tagp ← fdt_offset_ptr fdt startoffset FDT_TAGSIZE;
  match tagp with
  | None => Some (FDT_END, - FDT_ERR_TRUNCATED)
  | Some tagp =>
      tag ← fdt32_ld (from fdt tagp);
      r ← skip_contents fdt tag (s32 (startoffset + FDT_TAGSIZE));
      match r with
      | None => Some (FDT_END, - FDT_ERR_BADSTRUCTURE)
      | Some offset =>
          p ← fdt_offset_ptr fdt startoffset (u32 (offset - startoffset));
          match p with
          | None => Some (FDT_END, - FDT_ERR_BADSTRUCTURE)
          | Some _ => Some (tag, FDT_TAGALIGN offset)
          end
      end
  end.

(** [fdt_check_node_offset_] and [fdt_check_prop_offset_]. *)
Definition check_tag_offset (want : Z) (fdt : list Z) (offset : Z) : option Z :=
  if (offset <? 0) || nz (offset mod FDT_TAGSIZE) then Some (- FDT_ERR_BADOFFSET)
  else
    '(tag, next) ← fdt_next_tag fdt offset;
    Some (if tag =? want then next else - FDT_ERR_BADOFFSET).
Definition fdt_check_node_offset_ : list Z -> Z -> option Z := check_tag_offset FDT_BEGIN_NODE.
Definition fdt_check_prop_offset_ : list Z -> Z -> option Z := check_tag_offset FDT_PROP.

(** [depth] is the pointed-to counter, or [None] for a null pointer. *)
Fixpoint next_node_loop (n : nat) (fdt : list Z) (offset : Z) (depth : option Z) : option (Z * option Z) :=
  match n with
  | O => None
  | S n =>
      '(tag, nextoffset) ← fdt_next_tag fdt offset;
      if tag =? FDT_BEGIN_NODE then Some (offset, (fun d => s32 (d + 1)) <$> depth)
      else if tag =? FDT_END_NODE then
        match depth with
        | Some d =>
            let d := s32 (d - 1) in
            if d <? 0 then Some (nextoffset, Some d) else next_node_loop n fdt nextoffset (Some d)
        | None => next_node_loop n fdt nextoffset None
        end
      else if tag =? FDT_END then
        let quiet := match depth with Some _ => false | None => true end in
        Some (if (0 <=? nextoffset) || ((nextoffset =? - FDT_ERR_TRUNCATED) && quiet)
              then - FDT_ERR_NOTFOUND else nextoffset, depth)
      else next_node_loop n fdt nextoffset depth
  end.

Definition fdt_next_node (fdt : list Z) (offset : Z) (depth : option Z) : option (Z * option Z) :=
  nextoffset ← (if 0 <=? offset then fdt_check_node_offset_ fdt offset else Some 0);
  if nextoffset <? 0 then Some (nextoffset, depth) else next_node_loop (S (length fdt)) fdt nextoffset depth.

Definition fdt_first_subnode (fdt : list Z) (offset : Z) : option Z :=
  '(offset, depth) ← fdt_next_node fdt offset (Some 0);
  Some (if (offset <? 0) || negb (default 0 depth =? 1) then - FDT_ERR_NOTFOUND else offset).

Fixpoint next_subnode_loop (n : nat) (fdt : list Z) (offset depth : Z) : option Z :=
  match n with
  | O => None
  | S n =>
      '(offset, d) ← fdt_next_node fdt offset (Some depth);
      let depth := default 0 d in
      if (offset <? 0) || (depth <? 1) then Some (- FDT_ERR_NOTFOUND)
      else if 1 <? depth then next_subnode_loop n fdt offset depth
      else Some offset
  end.
Definition fdt_next_subnode (fdt : list Z) (offset : Z) : option Z :=
  next_subnode_loop (S (length fdt)) fdt offset 1.

(** [fdt_for_each_subnode]: the offsets the loop visits. *)
Fixpoint subnodes_from (n : nat) (fdt : list Z) (node : Z) : option (list Z) :=
  if node <? 0 then Some []
  else
    match n with
    | O => None
    | S n => next ← fdt_next_subnode fdt node; cons node <$> subnodes_from n fdt next
    end.
Definition fdt_for_each_subnode (fdt : list Z) (parent : Z) : option (list Z) :=
  node ← fdt_first_subnode fdt parent; subnodes_from (S (length fdt)) fdt node.

(** * fdt_ro.c *)

(** The string, or the error; with the length. *)
Definition fdt_get_string (fdt : list Z) (stroffset : Z) : option (option Z * Z) :=
  totalsize ← fdt_ro_probe_ fdt;
  off ← fdt_off_dt_strings fdt;
  let absoffset := u32 (stroffset + off) in
  if totalsize <? 0 then Some (None, totalsize)
  else if totalsize <=? absoffset then Some (None, - FDT_ERR_BADOFFSET)
  else
    let len := totalsize - absoffset in
    magic ← fdt_magic fdt;
    r ← (if magic =? FDT_MAGIC then
           if stroffset <? 0 then Some (inl (- FDT_ERR_BADOFFSET))
           else
             version ← fdt_version fdt;
             if 17 <=? version then
               size ← fdt_size_dt_strings fdt;
               Some (if size <=? stroffset then inl (- FDT_ERR_BADOFFSET) else inr (Z.min (size - stroffset) len))
             else Some (inr len)
         else if magic =? FDT_SW_MAGIC then
           size ← fdt_size_dt_strings fdt;
           Some (if (0 <=? stroffset) || (u32 stroffset <? u32 (- size)) then inl (- FDT_ERR_BADOFFSET)
                 else inr (Z.min (- stroffset) len))
         else Some (inl (- FDT_ERR_INTERNAL)));
    match r with
    | inl err => Some (None, err)
    | inr len =>
        n ← sbi_memchr (from fdt absoffset) 0 (Z.to_nat len);
        match n with
        | None => Some (None, - FDT_ERR_TRUNCATED)
        | Some n => Some (Some absoffset, n)
        end
    end.

Definition fdt_string_eq_ (fdt : list Z) (stroffset : Z) (s : list Z) (len : Z) : option bool :=
  '(p, slen) ← fdt_get_string fdt stroffset;
  match p with
  | Some p => if slen =? len then c ← sbi_memcmp (from fdt p) s (Z.to_nat len); Some (c =? 0) else Some false
  | None => Some false
  end.

(** Before version 16 the name is a full path, of which the last part counts. *)
Definition fdt_get_name (fdt : list Z) (nodeoffset : Z) : option (option Z * Z) :=
  nh ← fdt_offset_ptr_ fdt nodeoffset;
  err ← fdt_ro_probe_ fdt;
  if err <? 0 then Some (None, err)
  else
    err ← fdt_check_node_offset_ fdt nodeoffset;
    if err <? 0 then Some (None, err)
    else
      let nameptr := nh + FDT_TAGSIZE in
      version ← fdt_version fdt;
      r ← (if version <? 16 then
             leaf ← sbi_strrchr (from fdt nameptr) 47;
             Some (option_map (fun l => nameptr + l + 1) leaf)
           else Some (Some nameptr));
      match r with
      | None => Some (None, - FDT_ERR_BADSTRUCTURE)
      | Some nameptr => len ← sbi_strlen (from fdt nameptr); Some (Some nameptr, s32 len)
      end.

Definition fdt_nodename_eq_ (fdt : list Z) (offset : Z) (s : list Z) (len : Z) : option bool :=
  '(p, olen) ← fdt_get_name fdt offset;
  match p with
  | None => Some false
  | Some p =>
      if olen <? len then Some false
      else
        c ← sbi_memcmp (from fdt p) s (Z.to_nat len);
        if negb (c =? 0) then Some false
        else
          e ← head (from fdt (p + len));
          if e =? 0 then Some true
          else at_ ← sbi_memchr s 64 (Z.to_nat len); Some (match at_ with None => e =? 64 | Some _ => false end)
  end.

Fixpoint nextprop_loop (n : nat) (fdt : list Z) (offset : Z) : option Z :=
  match n with
  | O => None
  | S n =>
      '(tag, nextoffset) ← fdt_next_tag fdt offset;
      if tag =? FDT_END then Some (if 0 <=? nextoffset then - FDT_ERR_BADSTRUCTURE else nextoffset)
      else if tag =? FDT_PROP then Some offset
      else if tag =? FDT_NOP then nextprop_loop n fdt nextoffset
      else Some (- FDT_ERR_NOTFOUND)
  end.
Definition nextprop_ (fdt : list Z) (offset : Z) : option Z := nextprop_loop (S (length fdt)) fdt offset.

Definition fdt_first_property_offset (fdt : list Z) (nodeoffset : Z) : option Z :=
  offset ← fdt_check_node_offset_ fdt nodeoffset;
  if offset <? 0 then Some offset else nextprop_ fdt offset.
Definition fdt_next_property_offset (fdt : list Z) (offset : Z) : option Z :=
  offset ← fdt_check_prop_offset_ fdt offset;
  if offset <? 0 then Some offset else nextprop_ fdt offset.

(** The property, as the position of its header, and its length or the error. *)
Definition fdt_get_property_by_offset_ (fdt : list Z) (offset : Z) : option (option Z * Z) :=
  err ← fdt_check_prop_offset_ fdt offset;
  if err <? 0 then Some (None, err)
  else
    prop ← fdt_offset_ptr_ fdt offset;
    len ← fdt32_ld (from fdt (prop + 4));
    Some (Some prop, s32 len).

(** The loop of [fdt_get_property_namelen_]: property, offset, length or error. *)
Fixpoint find_property (n : nat) (fdt : list Z) (offset : Z) (name : list Z) (namelen : Z) :
    option (option (Z * Z) * Z) :=
  if offset <? 0 then Some (None, offset)
  else
    match n with
    | O => None
    | S n =>
        '(prop, len) ← fdt_get_property_by_offset_ fdt offset;
        match prop with
        | None => Some (None, - FDT_ERR_INTERNAL)
        | Some prop =>
            nameoff ← fdt32_ld (from fdt (prop + 8));
            eq ← fdt_string_eq_ fdt (s32 nameoff) name namelen;
            if eq : bool then Some (Some (prop, offset), len)
            else offset ← fdt_next_property_offset fdt offset; find_property n fdt offset name namelen
        end
    end.
Definition fdt_get_property_namelen_ (fdt : list Z) (offset : Z) (name : list Z) (namelen : Z) :
    option (option (Z * Z) * Z) :=
  offset ← fdt_first_property_offset fdt offset;
  find_property (S (length fdt)) fdt offset name namelen.

(** Where the value of a property lies: before version 16 values of eight bytes
    or more are aligned. *)
Definition prop_data (fdt : list Z) (prop poffset : Z) : option Z :=
  version ← fdt_version fdt;
  len ← fdt32_ld (from fdt (prop + 4));
  Some (if (version <? 16) && nz ((poffset + 12) mod 8) && (8 <=? len) then prop + 12 + 4 else prop + 12).

Definition fdt_getprop_namelen (fdt : list Z) (nodeoffset : Z) (name : list Z) (namelen : Z) : option (option Z * Z) :=
  '(prop, len) ← fdt_get_property_namelen_ fdt nodeoffset name namelen;
  match prop with
  | None => Some (None, len)
  | Some (prop, poffset) => data ← prop_data fdt prop poffset; Some (Some data, len)
  end.

(** Names are C strings, given by their bytes with the terminator. *)
Definition fdt_getprop (fdt : list Z) (nodeoffset : Z) (name : list Z) : option (option Z * Z) :=
  namelen ← sbi_strlen name; fdt_getprop_namelen fdt nodeoffset name (s32 namelen).

(** Value, name and length. *)
Definition fdt_getprop_by_offset (fdt : list Z) (offset : Z) : option (option (Z * Z) * Z) :=
  '(prop, len) ← fdt_get_property_by_offset_ fdt offset;
  match prop with
  | None => Some (None, len)
  | Some prop =>
      nameoff ← fdt32_ld (from fdt (prop + 8));
      '(name, namelen) ← fdt_get_string fdt (s32 nameoff);
      match name with
      | None => Some (None, namelen)
      | Some name => data ← prop_data fdt prop offset; Some (Some (data, name), len)
      end
  end.

(** A literal with its terminator. *)
Definition cstring (s : string) : list Z := chars s ++ [0].

Definition fdt_get_phandle (fdt : list Z) (nodeoffset : Z) : option Z :=
  '(php, len) ← fdt_getprop fdt nodeoffset (cstring "phandle");
  match php, len =? 4 with
  | Some php, true => fdt32_ld (from fdt php)
  | _, _ =>
      '(php, len) ← fdt_getprop fdt nodeoffset (cstring "linux,phandle");
      match php, len =? 4 with
      | Some php, true => fdt32_ld (from fdt php)
      | _, _ => Some 0
      end
  end.

(** ** Navigation *)

Fixpoint subnode_loop (n : nat) (fdt : list Z) (offset depth : Z) (name : list Z) (namelen : Z) : option Z :=
  if (0 <=? offset) && (0 <=? depth) then
    match n with
    | O => None
    | S n =>
        hit ← (if depth =? 1 then fdt_nodename_eq_ fdt offset name namelen else Some false);
        if hit : bool then Some offset
        else '(offset, d) ← fdt_next_node fdt offset (Some depth); subnode_loop n fdt offset (default 0 d) name namelen
    end
  else Some (if depth <? 0 then - FDT_ERR_NOTFOUND else offset).
Definition fdt_subnode_offset_namelen (fdt : list Z) (offset : Z) (name : list Z) (namelen : Z) : option Z :=
  FDT_RO_PROBE fdt (subnode_loop (S (length fdt)) fdt offset 0 name namelen).

(** The loop over the parts of a path: [len] bytes of [p] are left. *)
Fixpoint path_loop (n : nat) (fdt : list Z) (p : list Z) (len offset : Z) : option Z :=
  if len <=? 0 then Some offset
  else
    match n with
    | O => None
    | S n =>
        c ← head p;
        if c =? 47 then
          if len =? 1 then Some offset else path_loop n fdt (tail p) (len - 1) offset
        else
          q ← sbi_memchr p 47 (Z.to_nat len);
          let k := default len q in
          offset ← fdt_subnode_offset_namelen fdt offset p k;
          if offset <? 0 then Some offset else path_loop n fdt (drop (Z.to_nat k) p) (len - k) offset
    end.

(** A path that does not start with a slash starts with an alias, whose value
    is a path in turn: [n] bounds the nesting. *)
Fixpoint fdt_path_offset_namelen (n : nat) (fdt : list Z) (path : list Z) (namelen : Z) : option Z :=
  FDT_RO_PROBE fdt (
    c ← head path;
    if c =? 47 then path_loop (S (length path)) fdt path namelen 0
    else
      match n with
      | O => None
      | S n =>
          q ← sbi_memchr path 47 (Z.to_nat namelen);
          let k := default namelen q in
          aliasoffset ← fdt_path_offset_namelen n fdt (cstring "/aliases") 8;
          if aliasoffset <? 0 then Some (- FDT_ERR_BADPATH)
          else
            '(p, _) ← fdt_getprop_namelen fdt aliasoffset path k;
            match p with
            | None => Some (- FDT_ERR_BADPATH)
            | Some p =>
                len ← sbi_strlen (from fdt p);
                offset ← fdt_path_offset_namelen n fdt (from fdt p) (s32 len);
                path_loop (S (length path)) fdt (drop (Z.to_nat k) path) (namelen - k) offset
            end
      end).
Definition fdt_path_offset (n : nat) (fdt path : list Z) : option Z :=
  len ← sbi_strlen path; fdt_path_offset_namelen n fdt path (s32 len).

(** The loop shared by the functions that look a node up by its position:
    [found] is applied to each node up to [nodeoffset]. *)
Fixpoint supernode_loop (n : nat) (fdt : list Z) (nodeoffset supernodedepth offset depth supernodeoffset : Z) :
    option (Z * option Z) :=
  if (0 <=? offset) && (offset <=? nodeoffset) then
    match n with
    | O => None
    | S n =>
        let supernodeoffset := if depth =? supernodedepth then offset else supernodeoffset in
        if offset =? nodeoffset then
          Some (if depth <? supernodedepth then - FDT_ERR_NOTFOUND else supernodeoffset, Some depth)
        else
          '(offset, d) ← fdt_next_node fdt offset (Some depth);
          supernode_loop n fdt nodeoffset supernodedepth offset (default 0 d) supernodeoffset
    end
  else Some (if (offset =? - FDT_ERR_NOTFOUND) || (0 <=? offset) then - FDT_ERR_BADOFFSET
             else if offset =? - FDT_ERR_BADOFFSET then - FDT_ERR_BADSTRUCTURE else offset, None).

(** The result, and the depth of the node where it was found. *)
Definition fdt_supernode_atdepth_offset (fdt : list Z) (nodeoffset supernodedepth : Z) : option (Z * option Z) :=
  r ← fdt_ro_probe_ fdt;
  if r <? 0 then Some (r, None)
  else if supernodedepth <? 0 then Some (- FDT_ERR_NOTFOUND, None)
  else supernode_loop (S (length fdt)) fdt nodeoffset supernodedepth 0 0 (- FDT_ERR_INTERNAL).

(** When the call succeeds it has stored the depth. *)
Definition fdt_node_depth (fdt : list Z) (nodeoffset : Z) : option Z :=
  '(err, nodedepth) ← fdt_supernode_atdepth_offset fdt nodeoffset 0;
  if nz err then Some (if err <? 0 then err else - FDT_ERR_INTERNAL) else nodedepth.

Definition fdt_parent_offset (fdt : list Z) (nodeoffset : Z) : option Z :=
  nodedepth ← fdt_node_depth fdt nodeoffset;
  if nodedepth <? 0 then Some nodedepth
  else '(r, _) ← fdt_supernode_atdepth_offset fdt nodeoffset (nodedepth - 1); Some r.

(** ** Searching the whole tree *)

(** [for (offset = fdt_next_node(fdt, start, NULL); offset >= 0; ...)] with a
    test that may return. *)
Fixpoint scan_nodes (n : nat) (fdt : list Z) (offset : Z) (test : Z -> option (option Z)) : option Z :=
  if offset <? 0 then Some offset
  else
    match n with
    | O => None
    | S n =>
        r ← test offset;
        match r with
        | Some v => Some v
        | None => '(offset, _) ← fdt_next_node fdt offset None; scan_nodes n fdt offset test
        end
    end.
Definition scan_from (fdt : list Z) (startoffset : Z) (test : Z -> option (option Z)) : option Z :=
  '(offset, _) ← fdt_next_node fdt startoffset None; scan_nodes (S (length fdt)) fdt offset test.

Definition fdt_node_offset_by_prop_value (fdt : list Z) (startoffset : Z) (propname propval : list Z) (proplen : Z) :
    option Z :=
  FDT_RO_PROBE fdt (scan_from fdt startoffset (fun offset =>
    '(val, len) ← fdt_getprop fdt offset propname;
    match val with
    | Some val =>
        if len =? proplen then
          c ← sbi_memcmp (from fdt val) propval (Z.to_nat len); Some (if c =? 0 then Some offset else None)
        else Some None
    | None => Some None
    end)).

Definition fdt_node_offset_by_phandle (fdt : list Z) (phandle : Z) : option Z :=
  if (phandle =? 0) || (phandle =? 4294967295) then Some (- FDT_ERR_BADPHANDLE)
  else
    FDT_RO_PROBE fdt (scan_from fdt (-1) (fun offset =>
      p ← fdt_get_phandle fdt offset; Some (if p =? phandle then Some offset else None))).

Fixpoint stringlist_contains_loop (n : nat) (strlist : list Z) (listlen : Z) (str : list Z) (len : Z) : option Z :=
  if len <=? listlen then
    match n with
    | O => None
    | S n =>
        c ← sbi_memcmp str strlist (Z.to_nat (len + 1));
        if c =? 0 then Some 1
        else
          p ← sbi_memchr strlist 0 (Z.to_nat listlen);
          match p with
          | None => Some 0
          | Some p => stringlist_contains_loop n (drop (Z.to_nat (p + 1)) strlist) (listlen - (p + 1)) str len
          end
    end
  else Some 0.
Definition fdt_stringlist_contains (strlist : list Z) (listlen : Z) (str : list Z) : option Z :=
  len ← sbi_strlen str;
  stringlist_contains_loop (S (Z.to_nat listlen)) strlist listlen str (s32 len).

Definition fdt_node_check_compatible (fdt : list Z) (nodeoffset : Z) (compatible : list Z) : option Z :=
  '(prop, len) ← fdt_getprop fdt nodeoffset (cstring "compatible");
  match prop with
  | None => Some len
  | Some prop => r ← fdt_stringlist_contains (from fdt prop) len compatible; Some (if nz r then 0 else 1)
  end.

Definition fdt_node_offset_by_compatible (fdt : list Z) (startoffset : Z) (compatible : list Z) : option Z :=
  FDT_RO_PROBE fdt (scan_from fdt startoffset (fun offset =>
    err ← fdt_node_check_compatible fdt offset compatible;
    Some (if (err <? 0) && negb (err =? - FDT_ERR_NOTFOUND) then Some err
          else if err =? 0 then Some offset else None))).

(** The loop of [fdt_find_max_phandle]. *)
Fixpoint max_phandle_loop (n : nat) (fdt : list Z) (offset max : Z) : option (Z * Z) :=
  match n with
  | O => None
  | S n =>
      '(offset, _) ← fdt_next_node fdt offset None;
      if offset <? 0 then Some (if offset =? - FDT_ERR_NOTFOUND then 0 else offset, max)
      else value ← fdt_get_phandle fdt offset; max_phandle_loop n fdt offset (Z.max value max)
  end.
(** The result, and the value stored when it is 0. *)
Definition fdt_find_max_phandle (fdt : list Z) : option (Z * Z) := max_phandle_loop (S (length fdt)) fdt (-1) 0.

Definition fdt_generate_phandle (fdt : list Z) : option (Z * Z) :=
  '(err, max) ← fdt_find_max_phandle fdt;
  Some (if err <? 0 then (err, 0) else if max =? FDT_MAX_PHANDLE then (- FDT_ERR_NOPHANDLES, 0) else (0, max + 1)).

(** ** The memory reservation block *)

Definition fdt_mem_rsv (fdt : list Z) (n : Z) : option (option Z) :=
  off ← fdt_off_mem_rsvmap fdt;
  totalsize ← fdt_totalsize fdt;
  let offset := s32 (n * 16) in
  let absoffset := s32 (off + offset) in
  Some (if u32 absoffset <? off then None
        else if u64 (totalsize - 16) <? u64 absoffset then None
        else Some (off + n * 16)).

(** Result, address and size. *)
Definition fdt_get_mem_rsv (fdt : list Z) (n : Z) : option (Z * Z * Z) :=
  r ← fdt_ro_probe_ fdt;
  if r <? 0 then Some (r, 0, 0)
  else
    re ← fdt_mem_rsv fdt n;
    match re with
    | None => Some (- FDT_ERR_BADOFFSET, 0, 0)
    | Some re => a ← fdt64_ld (from fdt re); s ← fdt64_ld (from fdt (re + 8)); Some (0, a, s)
    end.

Fixpoint num_mem_rsv_loop (n : nat) (fdt : list Z) (i : Z) : option Z :=
  match n with
  | O => None
  | S n =>
      re ← fdt_mem_rsv fdt i;
      match re with
      | None => Some (- FDT_ERR_TRUNCATED)
      | Some re => size ← fdt64_ld (from fdt (re + 8)); if size =? 0 then Some i else num_mem_rsv_loop n fdt (i + 1)
      end
  end.
Definition fdt_num_mem_rsv (fdt : list Z) : option Z := num_mem_rsv_loop (S (length fdt)) fdt 0.

(** ** Checking everything *)

Fixpoint check_full_loop (n : nat) (fdt : list Z) (offset depth : Z) : option Z :=
  match n with
  | O => None
  | S n =>
      '(tag, nextoffset) ← fdt_next_tag fdt offset;
      if nextoffset <? 0 then Some nextoffset
      else if tag =? FDT_NOP then check_full_loop n fdt nextoffset depth
      else if tag =? FDT_END then Some (if nz depth then - FDT_ERR_BADSTRUCTURE else 0)
      else if tag =? FDT_BEGIN_NODE then
        if INT_MAX <? u32 (depth + 1) then Some (- FDT_ERR_BADSTRUCTURE)
        else check_full_loop n fdt nextoffset (u32 (depth + 1))
      else if tag =? FDT_END_NODE then
        if depth =? 0 then Some (- FDT_ERR_BADSTRUCTURE) else check_full_loop n fdt nextoffset (depth - 1)
      else if tag =? FDT_PROP then
        '(prop, err) ← fdt_getprop_by_offset fdt offset;
        match prop with None => Some err | Some _ => check_full_loop n fdt nextoffset depth end
      else Some (- FDT_ERR_INTERNAL)
  end.

Definition fdt_check_full (fdt : list Z) (bufsize : Z) : option Z :=
  if bufsize <? FDT_V1_SIZE then Some (- FDT_ERR_TRUNCATED)
  else
    err ← fdt_check_header fdt;
    if nz err then Some err
    else
      totalsize ← fdt_totalsize fdt;
      if bufsize <? totalsize then Some (- FDT_ERR_TRUNCATED)
      else
        num_memrsv ← fdt_num_mem_rsv fdt;
        if num_memrsv <? 0 then Some num_memrsv else check_full_loop (S (length fdt)) fdt 0 0.

(** * fdt_addresses.c *)

Definition fdt_cells (fdt : list Z) (nodeoffset : Z) (name : list Z) : option Z :=
  '(c, len) ← fdt_getprop fdt nodeoffset name;
  match c with
  | None => Some len
  | Some c =>
      if negb (len =? 4) then Some (- FDT_ERR_BADNCELLS)
      else val ← fdt32_ld (from fdt c); Some (if FDT_MAX_NCELLS <? val then - FDT_ERR_BADNCELLS else val)
  end.
Definition fdt_address_cells (fdt : list Z) (nodeoffset : Z) : option Z :=
  val ← fdt_cells fdt nodeoffset (cstring "#address-cells");
  Some (if val =? 0 then - FDT_ERR_BADNCELLS else if val =? - FDT_ERR_NOTFOUND then 2 else val).
Definition fdt_size_cells (fdt : list Z) (nodeoffset : Z) : option Z :=
  val ← fdt_cells fdt nodeoffset (cstring "#size-cells");
  Some (if val =? - FDT_ERR_NOTFOUND then 1 else val).
