(* ===== verification/FwFdt.v ===== *)
(** The device tree that firmware/fw_base.S hands to the next stage: [_fdt_reloc]
    finds its size and copies it to where the next stage expects it. *)

From S2P Require Import Prelude Encoding Bitops Machine Platform Scratch Asm Hart Hsm Trap Unpriv Handler Init FwBase FwStep FwReloc FwBoot FwScratch Fdt.
Import Reg.

(** * Bytes of memory *)

(** Byte [a] of memory: a cell holds eight, the lowest first. *)
Definition byte_at (s : st) (a : Z) : Z := (mem_val s (a - a mod 8) >>u (8 * (a mod 8))) .& 0xff.
Definition bytes_at (s : st) (a n : Z) : list Z := byte_at s <$> seqZ a n.

(** The second half of a cell, as [fdt32_ld] reads it. *)
Lemma word_byte w k : 0 <= k < 4 -> (u32 (w >>u 32) >>u (8 * k)) .& 0xff = (w >>u (8 * (4 + k))) .& 0xff.
Proof.
  intros Hk. unfold shr64. apply Z.bits_inj'. intros i Hi. change 0xff with (Z.ones 8). rewrite !Z.land_spec, !Z.testbit_ones_nonneg by lia.
  destruct (Z.ltb_spec i 8) as [Hlt|Hge]; [|by rewrite !andb_false_r]. rewrite !andb_true_r. rewrite !Z.shiftr_spec, testbit_u32, Z.shiftr_spec by lia.
  rewrite (proj2 (Z.ltb_lt _ _)) by lia. cbn [andb]. f_equal. lia.
Qed.

Lemma byte_shl b k : 0 <= k <= 24 -> (b .& 0xff) <<u k = Z.shiftl (b .& 0xff) k.
Proof.
  intros Hk. unfold shl64, u64. apply wrap_small. unfold fits. change 0xff with (Z.ones 8). rewrite Z.land_ones, Z.shiftl_mul_pow2 by lia.
  pose proof (Z.mod_pos_bound b (2 ^ 8) ltac:(lia)). assert (0 < 2 ^ k <= 2 ^ 24) by (split; [apply Z.pow_pos_nonneg|apply Z.pow_le_mono_r]; lia). nia.
Qed.

Lemma size_word w : fdt32_ld (map (fun k => (w >>u (8 * k)) .& 0xff) [4; 5; 6; 7]) =
  Some (((u32 (w >>u 32) >>u 24) .& 0xff) .| (((u32 (w >>u 32) >>u 16) .& 0xff) <<u 8) .| (((u32 (w >>u 32) >>u 8) .& 0xff) <<u 16) .| ((u32 (w >>u 32) .& 0xff) <<u 24)).
Proof.
  set (v := u32 (w >>u 32)). change (v .& 0xff) with ((v >>u (8 * 0)) .& 0xff). rewrite !byte_shl by lia. unfold v.
  rewrite (word_byte w 3 ltac:(lia) : (u32 (w >>u 32) >>u 24) .& 0xff = _), (word_byte w 2 ltac:(lia) : (u32 (w >>u 32) >>u 16) .& 0xff = _), (word_byte w 1 ltac:(lia) : (u32 (w >>u 32) >>u 8) .& 0xff = _), (word_byte w 0) by lia.
  cbn [map fdt32_ld]. f_equal. change (4 + 0) with 4. change (4 + 1) with 5. change (4 + 2) with 6. change (4 + 3) with 7.
  set (b4 := (w >>u (8 * 4)) .& 0xff). set (b5 := (w >>u (8 * 5)) .& 0xff). set (b6 := (w >>u (8 * 6)) .& 0xff). set (b7 := (w >>u (8 * 7)) .& 0xff).
  apply Z.bits_inj'. intros i _. rewrite !Z.lor_spec. by destruct (Z.testbit b7 i), (Z.testbit (Z.shiftl b6 8) i), (Z.testbit (Z.shiftl b5 16) i), (Z.testbit (Z.shiftl b4 24) i).
Qed.

Lemma byte_in_cell s a k : a mod 8 = 0 -> 0 <= k < 8 -> byte_at s (a + k) = (mem_val s a >>u (8 * k)) .& 0xff.
Proof.
  intros Ha Hk. unfold byte_at. assert (E : (a + k) mod 8 = k) by (rewrite Zplus_mod, Ha, Z.add_0_l, Z.mod_mod, Z.mod_small; lia). rewrite E.
  by replace (a + k - k) with a by lia.
Qed.

(** The size field of a device tree at an address that is a multiple of 8. *)
Lemma totalsize_bytes s a : a mod 8 = 0 -> bytes_at s (a + 4) 4 = map (fun k => (mem_val s a >>u (8 * k)) .& 0xff) [4; 5; 6; 7].
Proof.
  intros Ha. unfold bytes_at. change (seqZ (a + 4) 4) with ([0 + (a + 4); 1 + (a + 4); 2 + (a + 4); 3 + (a + 4)]). cbn [fmap list_fmap map].
  replace (0 + (a + 4)) with (a + 4) by lia. replace (1 + (a + 4)) with (a + 5) by lia. replace (2 + (a + 4)) with (a + 6) by lia. replace (3 + (a + 4)) with (a + 7) by lia.
  by rewrite !byte_in_cell by (done || lia).
Qed.

(** Rounding down to a multiple of 8. *)
Lemma land_not7 x : fits 64 x -> x .& not64 7 = x - x mod 8.
Proof.
  intros Hx. assert (E : x - x mod 8 = Z.shiftl (Z.shiftr x 3) 3) by (rewrite Z.shiftl_mul_pow2, Z.shiftr_div_pow2 by lia; change (2 ^ 3) with 8; pose proof (Z.div_mod x 8 ltac:(lia)); lia).
  rewrite E. apply Z.bits_inj'. intros i Hi. rewrite Z.land_spec, Z.shiftl_spec by lia. unfold not64. rewrite testbit_u64, Z.lnot_spec by lia. change 7 with (Z.ones 3). rewrite Z.testbit_ones_nonneg by lia.
  destruct (Z.ltb_spec i 3) as [Hlt|Hge]; [by rewrite (Z.testbit_neg_r _ (i - 3)), !andb_false_r by lia|].
  rewrite Z.shiftr_spec, Z.sub_add by lia. cbn [negb]. rewrite andb_true_r. destruct (Z.ltb_spec i 64) as [H64|H64]; [by rewrite andb_true_r|].
  rewrite andb_false_r. symmetry. destruct (Z.eq_dec x 0) as [->|Hn]; [apply Z.bits_0|]. apply Z.bits_above_log2; [unfold fits in Hx; lia|].
  assert (Z.log2 x < 64) by (apply Z.log2_lt_pow2; unfold fits in Hx; lia). lia.
Qed.

Lemma land_4 a : a mod 8 = 0 -> nz ((a + 4) .& 4) = true.
Proof.
  intros Ha. unfold nz. apply negb_true_iff, Z.eqb_neq. intros E. assert (Hb : Z.testbit ((a + 4) .& 4) 2 = true); [|by rewrite E in Hb].
  rewrite Z.land_spec. change (Z.testbit 4 2) with true. rewrite andb_true_r. apply Z.testbit_true; [lia|]. change (2 ^ 2) with 4.
  apply Z.mod_divide in Ha as [q ->]; [|lia]. replace (q * 8 + 4) with ((2 * q + 1) * 4) by lia. rewrite Z.div_mul by lia. rewrite Z.add_comm, Z.mul_comm. apply Z.mod_add. lia.
Qed.

(** * The copy *)

Section Tree.
Context `{Hardware} `{Platform} `{Image} `{Variant} `{CRuntime} `{!VariantOk}.

Lemma fdt_size_eq a r s : a mod 8 = 0 -> 0 <= a < 2 ^ 63 - 8 -> rget r t0 = a -> rget r a4 = 0xff ->
  exists r', fdt_size r s = Ret (tt, r') s /\ keeps [t2; t3; t4; t5] r r' /\ fdt32_ld (bytes_at s (a + 4) 4) = Some (rget r' t2).
Proof.
  intros Ha Hs E0 E4. unfold fdt_size.
  assert (El : lwu t2 4 t0 r s = Ret (tt, rset t2 (u32 (mem_val s a >>u 32)) r) s).
  { unfold lwu. rewrite E0, (u64_of (a + 4)) by lia. rewrite land_not7 by (unfold fits; lia). rewrite land_4 by done.
    assert (E : (a + 4) mod 8 = 4) by (rewrite Zplus_mod, Ha; reflexivity). rewrite E. replace (a + 4 - 4) with a by lia. reflexivity. }
  rewrite (abind _ _ _ _ _ _ _ El). set (v := u32 _). assert (Ev : u64 (v + 0) = v).
  { rewrite Z.add_0_r. apply wrap_small. pose proof (wrap_fits 32 (mem_val s a >>u 32) ltac:(lia)) as Hf. fold (u32 (mem_val s a >>u 32)) in Hf. fold v in Hf. unfold fits in *. lia. }
  do 15 astep. change (rget r zero) with 0. rewrite E4, Ev. unfold or_, set. eexists. split; [reflexivity|]. split; [keeps|]. rsimp. rewrite totalsize_bytes by done. apply size_word.
Qed.

Definition fdt_regs : list Z := [ra; s0; s1; s2; a3; a4; t0; t1; t2; t3; t4; t5].

(** The tree is copied or is left where it is. *)
Lemma fdt_dest r s : args_fit r -> r a1 <> 0 -> fits 64 (next_arg1_val (r a1) s) ->
  exists r1, keeps fdt_regs r r1 /\ rget r1 t1 = next_arg1_val (r a1) s /\ rget r1 a3 = not64 7 /\ rget r1 a4 = 0xff /\
    _fdt_reloc r s = (c ← beqz t1;
      if (c : bool) then mret tt
      else
        c ← beq t1 a1;
        if (c : bool) then mret tt
        else
          and_ t1 t1 a3;; add t0 a1 zero;; and_ t0 t0 a3;;
          fdt_size;;
          add t2 t1 t2;;
          c ← ble t2 t1;
          if (c : bool) then mret tt
          else n ← (fun r => mret (S (Z.to_nat (rget r t2 - rget r t1)), r)); _fdt_reloc_again n) r1 s.
Proof.
  intros Ha Hx Hf. unfold _fdt_reloc, beqz. astep. change (rget r zero) with 0. change (rget r a1) with (r a1). rewrite (proj2 (Z.eqb_neq _ _)) by done. do 2 astep.
  set (r1 := rset a4 _ _). assert (Ha1 : args_fit r1) by exact Ha.
  destruct (call_3R_eq fw_next_arg1 next_arg1_val (add t1 a0 zero) [t1] (fun r2 => rget r2 t1 = next_arg1_val (r a1) s) s r1 s next_arg1_ok Ha1) as (r2 & r3 & E & K & K3 & HQ); [in_list..| |].
  - intros r' V _. eexists. split; [reflexivity|]. split; [keeps|]. rsimp. change (rget r' zero) with 0. rewrite V, Z.add_0_r. by apply wrap_small.
  - rewrite (abind _ _ _ _ _ _ _ E). exists r2. assert (K1 : keeps fdt_regs r r1) by (unfold r1; keeps).
    split; [apply (keeps_trans _ _ _ _ K1); by apply (keeps_sub ([t1] ++ [ra; s0; s1; s2])); [in_list|]|].
    split; [by rewrite (keeps_get _ _ _ t1 K3) by in_list|]. split; [by rewrite (keeps_get _ _ _ a3 K) by in_list|]. split; [by rewrite (keeps_get _ _ _ a4 K) by in_list|reflexivity].
Qed.

(** Cells that have moved hold the same bytes. *)
Lemma moved_bytes n dst src s s' size : (forall a, mem_val s' a = moved n dst src s a) -> dst mod 8 = 0 -> src mod 8 = 0 -> size <= 8 * Z.of_nat n ->
  bytes_at s' dst size = bytes_at s src size.
Proof.
  intros Hm Hd Hs Hn. unfold bytes_at. apply list_eq. intros k. rewrite !list_lookup_fmap. destruct (decide (Z.of_nat k < size)) as [Hk|Hk]; [|by rewrite !lookup_seqZ_ge by lia].
  rewrite !lookup_seqZ_lt by lia. cbn [fmap option_fmap option_map]. f_equal. set (i := Z.of_nat k). set (q := i / 8). set (j := i mod 8).
  pose proof (Z.div_mod i 8 ltac:(lia)) as Ei. pose proof (Z.mod_pos_bound i 8 ltac:(lia)) as Hj. fold q j in Ei, Hj.
  replace (dst + i) with (dst + 8 * q + j) by lia. replace (src + i) with (src + 8 * q + j) by lia.
  rewrite !byte_in_cell by (done || (rewrite (Z.mul_comm 8 q), Z.mod_add; (done || lia))). rewrite Hm, moved_cell by lia. done.
Qed.

Lemma fdt_copy_eq r s size : args_fit r -> let src := r a1 in let dst := next_arg1_val src s in
  src <> 0 -> dst <> 0 -> dst <> src -> src mod 8 = 0 -> dst mod 8 = 0 ->
  fdt32_ld (bytes_at s (src + 4) 4) = Some size -> 0 < size -> 0 <= src -> src + size < 2 ^ 63 - 8 -> 0 <= dst -> dst + size < 2 ^ 63 - 8 ->
  exists r', _fdt_reloc r s = Ret (tt, r') (copy_asc (1 + Z.to_nat ((size - 1) / 8)) dst src s) /\ keeps fdt_regs r r'.
Proof.
  intros Ha src dst Hs0 Hd0 Hne Hs8 Hd8 Hsize Hpos Hs Hs63 Hd Hd63.
  destruct (fdt_dest r s Ha Hs0) as (r1 & K1 & E1 & E3 & E4 & E); [fold src dst; unfold fits; lia|]. fold src dst in E1. rewrite E. clear E. unfold beqz. astep. rewrite E1. change (rget r1 zero) with 0.
  rewrite (proj2 (Z.eqb_neq dst 0)) by done. astep. rewrite E1, (keeps_get _ _ _ a1 K1) by in_list. change (rget r a1) with src. rewrite (proj2 (Z.eqb_neq dst src)) by done.
  do 3 astep. rewrite E1, E3, (keeps_get _ _ _ a1 K1) by in_list. change (rget r a1) with src. change (rget r1 zero) with 0. rewrite u64_0 by lia.
  rewrite !land_not7, Hs8, Hd8, !Z.sub_0_r by (unfold fits; lia). set (r2 := rset t0 src _).
  destruct (fdt_size_eq src r2 s Hs8 ltac:(lia) eq_refl E4) as (r3 & E5 & K3 & E6). rewrite Hsize in E6. injection E6 as E6. rewrite (abind _ _ _ _ _ _ _ E5).
  unfold ble, bge. do 2 astep. cbn [fst snd]. rewrite <- E6, (keeps_get _ _ _ t1 K3) by in_list. change (rget r2 t1) with dst. rewrite (u64_of (dst + size)), !s64_small by lia.
  rewrite (proj2 (Z.ltb_lt _ _)) by lia. cbn [negb]. astep. rewrite (keeps_get _ _ _ t1 K3) by in_list. change (rget r2 t1) with dst. rewrite fdt_loop_fwd.
  set (n := Z.to_nat ((size - 1) / 8)). pose proof (Z.div_mod (size - 1) 8 ltac:(lia)). pose proof (Z.mod_pos_bound (size - 1) 8 ltac:(lia)). pose proof (Z.div_pos (size - 1) 8 ltac:(lia) ltac:(lia)).
  assert (Hn : 8 * Z.of_nat n < size <= 8 * (Z.of_nat n + 1)) by (unfold n; lia). set (r5 := rset t2 (dst + size) r3).
  assert (F0 : rget r5 t0 = src) by (unfold r5; rsimp; rewrite (keeps_get _ _ _ _ K3) by in_list; reflexivity).
  assert (F1 : rget r5 t1 = dst) by (unfold r5; rsimp; rewrite (keeps_get _ _ _ _ K3) by in_list; reflexivity).
  destruct (fwd_loop_eq t0 t1 t2 t0 t1 n (or_intror eq_refl) ltac:(discriminate) ltac:(discriminate) ltac:(in_list) (S (Z.to_nat (dst + size - dst))) r5 s src dst) as (r4 & E7 & K4);
    [lia|exact F0|exact F1|lia|lia|lia|lia|change (rget r5 t2) with (dst + size); lia|].
  exists r4. split; [exact E7|]. apply (keeps_trans _ _ _ _ K1). apply (keeps_trans _ _ r5); [|apply (keeps_sub [t3; t0; t1]); [in_list|done]].
  unfold r5. keeps. apply (keeps_trans _ _ r2); [unfold r2; keeps|]. by apply (keeps_sub [t2; t3; t4; t5]); [in_list|].
Qed.

(** Nothing is copied without a tree, without a place for it, or when it is in
    its place. *)
Lemma fdt_stays r s : args_fit r -> let src := r a1 in let dst := next_arg1_val src s in
  fits 64 dst -> src = 0 \/ dst = 0 \/ dst = src -> exists r', _fdt_reloc r s = Ret (tt, r') s /\ keeps fdt_regs r r'.
Proof.
  intros Ha src dst Hf Hc. destruct (Z.eq_dec src 0) as [Hz|Hz].
  { exists r. split; [|keeps]. unfold _fdt_reloc, beqz. astep. change (rget r zero) with 0. change (rget r a1) with src. by rewrite Hz. }
  destruct (fdt_dest r s Ha Hz Hf) as (r1 & K1 & E1 & _ & _ & E). fold src dst in E1. exists r1. split; [|done].
  rewrite E. unfold beqz. astep. rewrite E1. change (rget r1 zero) with 0. destruct (Z.eqb_spec dst 0) as [|Hd]; [done|].
  astep. rewrite E1, (keeps_get _ _ _ a1 K1) by in_list. change (rget r a1) with src. destruct Hc as [|[|Hc]]; try done. by rewrite Hc, Z.eqb_refl.
Qed.

(** The size in whole words, as the loop copies it. *)
Definition word_size (size : Z) : Z := 8 * ((size + 7) / 8).

Lemma word_size_eq size : 0 < size -> word_size size = 8 * Z.of_nat (1 + Z.to_nat ((size - 1) / 8)).
Proof.
  intros. unfold word_size. replace (size + 7) with (size - 1 + 1 * 8) by lia. rewrite Z.div_add by lia.
  pose proof (Z.div_pos (size - 1) 8 ltac:(lia) ltac:(lia)). lia.
Qed.

(** C12: The device tree of the previous stage, at [src], and the place where
    the next stage expects it, [dst].  When one of them is null or they are the
    same, nothing is copied and memory is as it was.  Otherwise, when both are
    multiples of 8, lie below [2 ^ 63] and [dst] is not inside the words of the
    tree, the words that hold the tree (its size as the header says, read as
    [fdt32_ld] reads it) are copied: the bytes at [dst] are those that were at
    [src], up to the size rounded up to a multiple of 8.  So up to 7 bytes
    behind the copy are overwritten with what follows the tree; no memory but
    these words changes. *)
Theorem fdt_reloc_moves r s size : args_fit r -> let src := r a1 in let dst := next_arg1_val src s in fits 64 dst ->
  (src = 0 \/ dst = 0 \/ dst = src -> exists r', _fdt_reloc r s = Ret (tt, r') s /\ keeps fdt_regs r r') /\
  (src <> 0 -> dst <> 0 -> dst <> src -> src mod 8 = 0 -> dst mod 8 = 0 ->
   fdt32_ld (bytes_at s (src + 4) 4) = Some size -> 0 < size -> 0 <= src -> src + size < 2 ^ 63 - 8 -> dst + size < 2 ^ 63 - 8 ->
   dst <= src \/ src + word_size size <= dst ->
   exists r' m, let s' := set_mem (fun _ => m) s in
     _fdt_reloc r s = Ret (tt, r') s' /\ keeps fdt_regs r r' /\
     bytes_at s' dst (word_size size) = bytes_at s src (word_size size) /\
     (forall a, ~ (dst <= a < dst + word_size size) -> mem_val s' a = mem_val s a)).
Proof.
  intros Ha src dst Hf. split; [by apply fdt_stays|]. intros Hs0 Hd0 Hne Hs8 Hd8 Hsize Hpos Hs Hs63 Hd63 Hov.
  assert (Hd : 0 <= dst) by apply Hf. destruct (fdt_copy_eq r s size) as (r' & E & K); try done.
  rewrite word_size_eq in * by done.
  fold src dst in E. set (n := Z.to_nat ((size - 1) / 8)) in *. destruct (copy_asc_only_mem (1 + n) dst src s) as [m Em]. exists r', m. cbv zeta. rewrite <- Em.
  assert (Hm : forall a, mem_val (copy_asc (1 + n) dst src s) a = moved (1 + n) dst src s a) by (intros a; apply copy_asc_moved; [lia|by rewrite Zminus_mod, Hs8, Hd8]).
  split; [exact E|]. split; [done|]. split; [by apply (moved_bytes (1 + n))|]. intros a Hout. rewrite Hm. apply moved_other. lia.
Qed.
End Tree.

(** * A run *)

(** Reset: the image of FwReloc loaded 2 KiB below where it is linked, hart 0
    with a device tree of 16 bytes at [0x81000000]. *)
Definition reset_st : st :=
  set_csrs (fun _ => {[ (0, CSR_MISA) := 0x8000000000141105 ]})
    (set_mem (fun m => <[0x81000000 := 0x10000000edfe0dd0]> (<[0x81000008 := 0x1234]> m)) (loaded_st 0x7ffff800)).
Definition reset_regs : regs := fun x => if x =? a1 then 0x81000000 else 0.

(** From the first instruction to the next stage: the firmware moves to where it
    belongs, prepares the scratch area, copies the device tree, takes its
    scratch area, initialises the machine and leaves for the next stage with
    the address of the copy. *)
Example firmware_boots :
  match @_start pmp_plain_hw boot_platform demo_image (@fw_jump demo_image (Some 0x82200000)) demo_runtime 0x7ffff800 reset_regs reset_st with
  | Exit (XMret hartid fdt) s =>
      (hartid, fdt, csr_val s 0 CSR_MEPC) = (0, 0x82200000, 0x80200000) /\
      bytes_at s 0x82200000 16 = bytes_at reset_st 0x81000000 16 /\
      csr_val s 0 CSR_MTVEC = 0x80000480 /\ csr_val s 0 CSR_MSCRATCH = boot_scratch /\
      mem_val s (0x7ffff800 + 0x408) = BOOT_STATUS_RELOCATE_DONE /\ mem_val s 0x80000408 = BOOT_STATUS_BOOT_HART_DONE /\
      hsm_state s 0 = SBI_HART_STARTED /\ pmp_allows s 0 0x80000000 PMP_R = false
  | _ => False
  end.
Proof. vm_compute. auto 10. Qed.

(** The tree of 16 bytes, and one of 13 of which the loop copies 16. *)
Definition odd_st : st := set_mem <[0x81000000 := 0x0d000000edfe0dd0]> reset_st.

Lemma fdt_reloc_moves_witness :
  (exists r' s', @_fdt_reloc (@fw_jump demo_image (Some 0x82200000)) demo_runtime reset_regs reset_st = Ret (tt, r') s' /\
    bytes_at s' 0x82200000 16 = bytes_at reset_st 0x81000000 16) /\
  (exists r' s', @_fdt_reloc (@fw_jump demo_image (Some 0x82200000)) demo_runtime reset_regs odd_st = Ret (tt, r') s' /\
    bytes_at s' 0x82200000 16 = bytes_at odd_st 0x81000000 16) /\
  exists r', @_fdt_reloc (@fw_jump demo_image (Some 0x81000000)) demo_runtime reset_regs odd_st = Ret (tt, r') odd_st.
Proof.
  split; [|split].
  - destruct (@fdt_reloc_moves duo_platform (@fw_jump demo_image (Some 0x82200000)) demo_runtime duo_jump reset_regs reset_st 16) as [_ Hc];
      [unfold args_fit, fits; cbn; lia|vm_compute; split; discriminate || reflexivity|].
    destruct Hc as (r' & m & E & _ & Hb & _); [first [discriminate|reflexivity|vm_compute; reflexivity|right; discriminate]..|].
    eexists r', _. split; [exact E|exact Hb].
  - destruct (@fdt_reloc_moves duo_platform (@fw_jump demo_image (Some 0x82200000)) demo_runtime duo_jump reset_regs odd_st 13) as [_ Hc];
      [unfold args_fit, fits; cbn; lia|vm_compute; split; discriminate || reflexivity|].
    destruct Hc as (r' & m & E & _ & Hb & _); [first [discriminate|reflexivity|vm_compute; reflexivity|right; discriminate]..|].
    eexists r', _. split; [exact E|exact Hb].
  - destruct (@fdt_reloc_moves duo_platform (@fw_jump demo_image (Some 0x81000000)) demo_runtime (@fw_jump_ok duo_platform demo_image (Some 0x81000000) jump_addr_below) reset_regs odd_st 13) as [Hc _];
      [unfold args_fit, fits; cbn; lia|vm_compute; split; discriminate || reflexivity|].
    destruct Hc as (r' & E & _); [by right; right|]. by exists r'.
Defined.
