(* ===== verification/FdtTag.v ===== *)
(** The lowest layer of the device-tree reader: [fdt_next_tag] on any blob.
    It never reads outside the blob, and it moves forward unless a property
    claims a length close to [2^32]; with such a property the reader stands
    still for ever. *)

From S2P Require Import Prelude Cstring Fdt.

(** * Reading words *)

Lemma length_from fdt p : 0 <= p -> length (from fdt p) = (length fdt - Z.to_nat p)%nat.
Proof. intros. unfold from. replace (p <? 0) with false by lia. apply length_drop. Qed.

Lemma length_from_le fdt p : (length (from fdt p) <= length fdt)%nat.
Proof. unfold from. destruct (p <? 0); [simpl; lia|]. rewrite length_drop. lia. Qed.

Lemma from_from fdt p n : 0 <= p -> drop n (from fdt p) = from fdt (p + Z.of_nat n).
Proof.
  intros Hp. assert (Hq : 0 <= p + Z.of_nat n) by lia. unfold from.
  rewrite (proj2 (Z.ltb_ge _ _) Hp), (proj2 (Z.ltb_ge _ _) Hq).
  rewrite drop_drop. f_equal. lia.
Qed.

Lemma fdt32_ld_some l : (4 <= length l)%nat -> Forall (fits 8) l -> exists v, fdt32_ld l = Some v /\ fits 32 v.
Proof.
  destruct l as [|b0 [|b1 [|b2 [|b3 l]]]]; simpl; try lia. intros _ H. eexists. split; [reflexivity|].
  assert (Hs : forall b k, fits 8 b -> 0 <= k <= 24 -> fits 32 (Z.shiftl b k)).
  { intros b k Hb Hk. unfold fits in *. rewrite Z.shiftl_mul_pow2 by lia. pose proof (Z.pow_le_mono_r 2 k 24).
    pose proof (Z.pow_pos_nonneg 2 k). change (2 ^ 24) with 16777216 in *. nia. }
  decompose_Forall_hyps. repeat apply fits_lor; try lia; try (apply Hs; [done|lia]).
  unfold fits in *. lia.
Qed.

(** What is assumed of a blob: its header can be read, and it lies whole in its
    memory, which is smaller than 2 GiB. *)
Record valid (fdt : list Z) : Prop := {
  valid_header : (40 <= length fdt)%nat;
  valid_bytes : Forall (fits 8) fdt;
  valid_total : default 0 (fdt_totalsize fdt) <= Z.of_nat (length fdt);
  valid_length : Z.of_nat (length fdt) < 2 ^ 31 - 8
}.

(** The header fields as numbers. *)
Definition total (fdt : list Z) : Z := default 0 (fdt_totalsize fdt).
Definition soff (fdt : list Z) : Z := default 0 (fdt_off_dt_struct fdt).
Definition ssize (fdt : list Z) : Z := default 0 (fdt_size_dt_struct fdt).
Definition vers (fdt : list Z) : Z := default 0 (fdt_version fdt).

Section Valid.
Context (fdt : list Z) (Hv : valid fdt).

Lemma from_fits p : Forall (fits 8) (from fdt p).
Proof. unfold from. destruct (p <? 0); [constructor|]. apply Forall_drop, Hv. Qed.

Lemma ld_inside p : 0 <= p -> p + 4 <= Z.of_nat (length fdt) -> exists v, fdt32_ld (from fdt p) = Some v /\ fits 32 v.
Proof. intros. apply fdt32_ld_some; [|apply from_fits]. rewrite length_from by done. lia. Qed.

Lemma header_some f : 0 <= f <= 36 -> exists v, fdt_get_header fdt f = Some v /\ fits 32 v.
Proof. intros. apply ld_inside; [lia|]. pose proof (valid_header _ Hv). lia. Qed.

Lemma header_total : fdt_totalsize fdt = Some (total fdt) /\ fits 32 (total fdt).
Proof. unfold total, fdt_totalsize. destruct (header_some 4) as (v & -> & Hf); [lia|]. done. Qed.
Lemma header_soff : fdt_off_dt_struct fdt = Some (soff fdt) /\ fits 32 (soff fdt).
Proof. unfold soff, fdt_off_dt_struct. destruct (header_some 8) as (v & -> & Hf); [lia|]. done. Qed.
Lemma header_ssize : fdt_size_dt_struct fdt = Some (ssize fdt) /\ fits 32 (ssize fdt).
Proof. unfold ssize, fdt_size_dt_struct. destruct (header_some 36) as (v & -> & Hf); [lia|]. done. Qed.
Lemma header_vers : fdt_version fdt = Some (vers fdt) /\ fits 32 (vers fdt).
Proof. unfold vers, fdt_version. destruct (header_some 20) as (v & -> & Hf); [lia|]. done. Qed.

Lemma total_bound : total fdt <= Z.of_nat (length fdt).
Proof. apply Hv. Qed.

(** * Pointers into the structure block *)

(** [len] bytes from [offset] on lie in the structure block. *)
Definition in_block (offset len : Z) : bool :=
  (soff fdt + offset + len <=? total fdt) && ((vers fdt <? 17) || (offset + len <=? ssize fdt)).

Lemma wrap_once x : 2 ^ 32 <= x < 2 * 2 ^ 32 -> u32 x = x - 2 ^ 32.
Proof. intros. unfold u32, wrap. rewrite <- (Z.mod_add x (-1)) by lia. apply Z.mod_small. lia. Qed.

Lemma fdt_offset_ptr_eq offset len : 0 <= offset < 2 ^ 31 -> fits 32 len ->
  fdt_offset_ptr fdt offset len = Some (if in_block offset len then Some (soff fdt + offset) else None).
Proof.
  intros Ho Hl. unfold fdt_offset_ptr, fdt_offset_ptr_, in_block. destruct header_soff as [-> Hs], header_total as [-> Ht].
  destruct header_vers as [-> Hve], header_ssize as [-> Hss]. cbn [mbind option_bind fmap option_fmap option_map].
  pose proof total_bound. pose proof (valid_length _ Hv). unfold fits in *.
  assert (E1 : u32 offset = offset) by (apply wrap_small; unfold fits; lia). rewrite E1.
  destruct (decide (offset + soff fdt < 2 ^ 32)) as [H1|H1].
  - assert (E2 : u32 (offset + soff fdt) = offset + soff fdt) by (apply wrap_small; unfold fits; lia). rewrite E2.
    destruct (decide (offset + soff fdt + len < 2 ^ 32)) as [H2|H2].
    + assert (E3 : u32 (offset + soff fdt + len) = offset + soff fdt + len) by (apply wrap_small; unfold fits; lia). rewrite E3.
      assert (E4 : u32 (offset + len) = offset + len) by (apply wrap_small; unfold fits; lia). rewrite E4.
      bool_cases; done.
    + rewrite (wrap_once (offset + soff fdt + len)) by lia. bool_cases; done.
  - rewrite (wrap_once (offset + soff fdt)) by lia. replace (offset + soff fdt - 2 ^ 32 <? offset) with true by lia. cbn [orb].
    replace (soff fdt + offset + len <=? total fdt) with false by lia. done.
Qed.

Lemma in_block_bound offset len : in_block offset len = true -> soff fdt + offset + len <= Z.of_nat (length fdt).
Proof. unfold in_block. intros [H _]%andb_prop. pose proof total_bound. lia. Qed.

Lemma in_block_mono o l o' l' : in_block o l = true -> o' + l' <= o + l -> in_block o' l' = true.
Proof. unfold in_block. intros H Hle. bool_cases; done. Qed.

(** A pointer that was granted can be read. *)
Lemma head_inside p : 0 <= p < Z.of_nat (length fdt) -> exists c, head (from fdt p) = Some c.
Proof.
  intros Hp. pose proof (length_from fdt p ltac:(lia)) as Hl. destruct (from fdt p); [simpl in Hl; lia|]. by eexists.
Qed.

(** * Skipping a name *)

Lemma skip_name_ok n : forall offset, 0 <= offset < 2 ^ 31 -> (0 < n)%nat -> Z.of_nat (length fdt) - offset < Z.of_nat n ->
  exists r, skip_name n fdt offset = Some r /\
    match r with Some o => offset < o /\ in_block (o - 1) 1 = true | None => True end.
Proof.
  induction n as [|n IH]; intros offset Ho Hn Hf; [lia|]. simpl.
  rewrite fdt_offset_ptr_eq by (done || (unfold fits; lia)). simpl. destruct (in_block offset 1) eqn:Eb; [|by eexists].
  pose proof (in_block_bound _ _ Eb) as Hb. pose proof (valid_length _ Hv). destruct header_soff as [_ Hs]. unfold fits in Hs.
  destruct (head_inside (soff fdt + offset)) as [c ->]; [lia|]. simpl. rewrite s32_small by lia.
  destruct (c =? 0).
  - eexists. split; [reflexivity|]. split; [lia|]. by replace (offset + 1 - 1) with offset by lia.
  - destruct (IH (offset + 1)) as (r & -> & Hr); [lia..|]. exists r. split; [done|]. destruct r; [|done]. split; [lia|apply Hr].
Qed.

Lemma head_drop {A} (l : list A) n : head (drop n l) = l !! n.
Proof. revert n. induction l as [|x l IH]; intros [|n]; simpl; auto. Qed.

(** Skipping a name ends after its terminator. *)
Lemma skip_name_cstr name : forall n offset,
  0 <= offset -> cstr name (from fdt (soff fdt + offset)) -> in_block offset (Z.of_nat (length name) + 1) = true ->
  (length name < n)%nat -> skip_name n fdt offset = Some (Some (offset + Z.of_nat (length name) + 1)).
Proof.
  induction name as [|x name IH]; intros n offset Ho [Hc [r Hr]] Hb Hn; (destruct n as [|n]; [simpl in Hn; lia|]); simpl.
  all: pose proof (in_block_bound _ _ Hb) as Hb'; pose proof (valid_length _ Hv); destruct header_soff as [_ Hs]; unfold fits in Hs.
  all: simpl length in *; rewrite fdt_offset_ptr_eq by (unfold fits; lia).
  all: rewrite (in_block_mono _ _ offset 1 Hb) by lia; simpl; rewrite Hr; simpl.
  - rewrite s32_small by lia. do 2 f_equal. lia.
  - apply Forall_cons in Hc as [[_ Hx] Hc]. rewrite (proj2 (Z.eqb_neq x 0)) by done. rewrite s32_small by lia.
    rewrite IH; [f_equal; f_equal; lia|lia| | |lia].
    + split; [done|]. exists r. rewrite Z.add_assoc. change 1 with (Z.of_nat 1). rewrite <- from_from by lia. by rewrite Hr.
    + apply (in_block_mono _ _ _ _ Hb). lia.
Qed.

(** * Wrap-around and alignment *)

Lemma s32_congr x y : u32 x = u32 y -> - 2 ^ 31 <= y < 2 ^ 31 -> s32 x = y.
Proof. intros E Hy. rewrite <- (s32_small y) by done. unfold s32, signed. unfold u32 in E. by rewrite E. Qed.

Lemma u32_signed x : u32 (s32 x) = u32 x.
Proof.
  unfold s32, signed, u32, wrap. destruct (_ <? _); [by rewrite Z.mod_mod|].
  rewrite <- Z.add_opp_r. change (- 2 ^ 32) with (-1 * 2 ^ 32). by rewrite Z.mod_add, Z.mod_mod.
Qed.

Lemma s32_s32 x : s32 (s32 x) = s32 x.
Proof. unfold s32 at 1 3, signed. pose proof (u32_signed x) as E. unfold u32 in E. by rewrite E. Qed.

Lemma u32_add_l x y : u32 (u32 x + y) = u32 (x + y).
Proof. unfold u32, wrap. by rewrite Z.add_mod_idemp_l. Qed.

Lemma u32_s32_add x y : u32 (s32 x + y) = u32 (x + y).
Proof. by rewrite <- u32_add_l, u32_signed, u32_add_l. Qed.

Lemma align_size x : FDT_ALIGN x FDT_TAGSIZE = 4 * ((x + 3) / 4).
Proof.
  unfold FDT_ALIGN, FDT_TAGSIZE. replace (x + 4 - 1) with (x + 3) by lia. change (4 - 1) with (Z.ones 2).
  rewrite <- Z.ldiff_land, Z.ldiff_ones_r, Z.shiftr_div_pow2, Z.shiftl_mul_pow2 by lia. change (2 ^ 2) with 4. lia.
Qed.

Lemma tagalign_eq x : 0 <= x < 2 ^ 31 - 4 -> FDT_TAGALIGN x = 4 * ((x + 3) / 4).
Proof. intros Hx. unfold FDT_TAGALIGN. rewrite align_size, s32_small; [done|]. Z.to_euclidean_division_equations. lia. Qed.

(** * One tag *)

Definition known_tag (tag : Z) : Prop :=
  tag = FDT_BEGIN_NODE \/ tag = FDT_END_NODE \/ tag = FDT_PROP \/ tag = FDT_NOP \/ tag = FDT_END.

(** The length a property at [o] claims. *)
Definition prop_len (o : Z) : option Z := fdt32_ld (from fdt (soff fdt + o + 4)).

(** After the contents of a tag: where a reader that does not leave the block
    gets to, [r] bytes on. *)
Lemma skip_contents_ok tag o : 0 <= o < 2 ^ 31 - 4 ->
  exists res, skip_contents fdt tag (o + 4) = Some res /\
    match res with
    | None => True
    | Some off => known_tag tag /\ s32 off = off /\ exists r, fits 32 r /\ u32 off = u32 (o + r) /\
        (4 <= r \/ tag = FDT_PROP /\ exists len, prop_len o = Some len /\ 2 ^ 32 - 16 <= len)
    end.
Proof.
  intros Ho. unfold skip_contents, known_tag. pose proof (valid_length _ Hv) as Hlen.
  destruct (Z.eqb_spec tag FDT_BEGIN_NODE) as [Et|].
  { destruct (skip_name_ok (S (length fdt)) (o + 4)) as (res & -> & Hr); [lia..|]. exists res. split; [done|]. destruct res as [off|]; [|done].
    destruct Hr as [Hr Hb]. apply in_block_bound in Hb. destruct header_soff as [_ Hs]. unfold fits in Hs.
    split; [auto|]. split; [apply s32_small; lia|]. exists (off - o). unfold fits. split; [lia|]. split; [f_equal; lia|]. left. lia. }
  destruct (Z.eqb_spec tag FDT_PROP) as [Et|].
  { rewrite fdt_offset_ptr_eq by (unfold fits; lia). cbn [mbind option_bind]. destruct (in_block (o + 4) 4) eqn:Eb; [|by eexists].
    apply in_block_bound in Eb. destruct header_soff as [_ Hs]. unfold fits in Hs.
    unfold prop_len. rewrite <- !Z.add_assoc. destruct (ld_inside (soff fdt + (o + 4))) as (len & -> & Hl); [lia..|].
    destruct header_vers as [-> _]. cbn [mbind option_bind]. eexists. split; [reflexivity|]. split; [auto|].
    set (b := _ && _). split; [destruct b; apply s32_s32|]. exists (u32 (12 + len + if b then 4 else 0)). split; [apply fits_u32|]. split.
    - rewrite (Z.add_comm o (u32 _)), u32_add_l. destruct b; rewrite ?u32_signed, ?u32_s32_add; f_equal; lia.
    - unfold fits in Hl. destruct (decide (12 + len + (if b then 4 else 0) < 2 ^ 32)) as [Hs'|Hs'].
      + left. unfold u32. rewrite wrap_small by (unfold fits; destruct b; lia). destruct b; lia.
      + right. split; [done|]. exists len. split; [done|]. destruct b; lia. }
  destruct ((tag =? FDT_END) || (tag =? FDT_END_NODE) || (tag =? FDT_NOP)) eqn:Et; [|by eexists].
  eexists. split; [reflexivity|]. split; [apply orb_prop in Et as [Et|Et]; [apply orb_prop in Et as [Et|Et]|]; apply Z.eqb_eq in Et; auto|].
  split; [apply s32_small; lia|]. exists 4. split; [unfold fits; lia|]. split; [done|]. left. lia.
Qed.

(** [fdt_next_tag] on any offset of a valid blob: no undefined behaviour, and
    the next offset is known. *)
Lemma fdt_next_tag_ok o : 0 <= o < 2 ^ 31 - 4 ->
  exists tag next, fdt_next_tag fdt o = Some (tag, next) /\
    (tag = FDT_END /\ (next = - FDT_ERR_TRUNCATED \/ next = - FDT_ERR_BADSTRUCTURE) \/
     known_tag tag /\ fdt32_ld (from fdt (soff fdt + o)) = Some tag /\ exists r, next = 4 * ((o + r + 3) / 4) /\ 0 <= r /\
       in_block o r = true /\
       (4 <= r \/ tag = FDT_PROP /\ exists len, prop_len o = Some len /\ 2 ^ 32 - 16 <= len)).
Proof.
  intros Ho. unfold fdt_next_tag. rewrite fdt_offset_ptr_eq by (unfold fits, FDT_TAGSIZE; lia). cbn [mbind option_bind].
  destruct (in_block o FDT_TAGSIZE) eqn:Eb; [|by eexists _, _; split; [reflexivity|]; auto].
  apply in_block_bound in Eb. unfold FDT_TAGSIZE in *. pose proof (valid_length _ Hv) as Hlen. destruct header_soff as [_ Hs]. unfold fits in Hs.
  destruct (ld_inside (soff fdt + o)) as (tag & -> & _); [lia..|]. cbn [mbind option_bind]. rewrite s32_small by lia.
  destruct (skip_contents_ok tag o Ho) as (res & -> & Hr). cbn [mbind option_bind].
  destruct res as [off|]; [|by eexists _, _; split; [reflexivity|]; auto].
  destruct Hr as (Hk & Hs32 & r & Hfr & Hoff & Hpr).
  assert (E : u32 (off - o) = r).
  { rewrite <- Z.add_opp_r, <- u32_add_l, Hoff, u32_add_l. replace (o + r + - o) with r by lia. by apply wrap_small. }
  rewrite E. rewrite fdt_offset_ptr_eq by (done || lia). cbn [mbind option_bind].
  destruct (in_block o r) eqn:Eb2; [|by eexists _, _; split; [reflexivity|]; auto].
  exists tag, (4 * ((o + r + 3) / 4)). pose proof (in_block_bound _ _ Eb2) as Hb2. unfold fits in Hfr.
  assert (Eo : off = o + r) by (rewrite <- Hs32; apply s32_congr; [done|lia]).
  subst off. rewrite tagalign_eq by lia. split; [done|]. right. split; [done|]. split; [done|]. exists r. auto with lia.
Qed.

(** A property whose claimed length makes the end of its value wrap around. *)
Definition huge_prop (o : Z) : Prop :=
  fdt32_ld (from fdt (soff fdt + o)) = Some FDT_PROP /\ exists len, prop_len o = Some len /\ 2 ^ 32 - 16 <= len.

(** The case analysis a loop over tags makes: the end, or a tag followed by
    another offset further on in the blob. *)
Lemma fdt_next_tag_cases o : 0 <= o < 2 ^ 31 - 4 -> ~ huge_prop o ->
  exists tag next, fdt_next_tag fdt o = Some (tag, next) /\
    (tag = FDT_END /\ (next = - FDT_ERR_TRUNCATED \/ next = - FDT_ERR_BADSTRUCTURE) \/
     known_tag tag /\ o + 4 <= next < 2 ^ 31 - 4 /\ next mod 4 = 0 /\ o + 4 <= Z.of_nat (length fdt)).
Proof.
  intros Ho Hh. destruct (fdt_next_tag_ok o Ho) as (tag & next & E & [He|(Hk & Ht & r & -> & Hr0 & Hb & Hr)]);
    exists tag; eexists; (split; [exact E|]); [by left|]. right. split; [done|].
  destruct Hr as [Hr|[-> Hl]]; [|by destruct Hh]. apply in_block_bound in Hb. pose proof (valid_length _ Hv).
  destruct header_soff as [_ Hs]. unfold fits in Hs. split; [Z.to_euclidean_division_equations; lia|].
  split; [rewrite Z.mul_comm; by apply Z.mod_mul|lia].
Qed.

(** The walk to the next node ends, or it meets such a property. *)
Lemma next_node_loop_total n : forall o depth, 0 <= o < 2 ^ 31 - 4 -> (0 < n)%nat ->
  Z.of_nat (length fdt) - o < 4 * Z.of_nat n ->
  (exists r, next_node_loop n fdt o depth = Some r) \/ exists o', o <= o' /\ huge_prop o'.
Proof.
  induction n as [|n IH]; intros o depth Ho Hn Hf; [lia|]. simpl.
  destruct (decide (fdt32_ld (from fdt (soff fdt + o)) = Some FDT_PROP /\ 2 ^ 32 - 16 <= default 0 (prop_len o))) as [[Hp Hl]|Hd].
  { right. exists o. split; [lia|]. split; [done|]. destruct (prop_len o) as [len|]; [eauto|simpl in Hl; lia]. }
  destruct (fdt_next_tag_cases o Ho) as (tag & next & E & Hc).
  { intros (Hp & len & El & Hlen). apply Hd. rewrite El. done. }
  rewrite E. cbn [mbind option_bind].
  assert (Hgo : forall depth', o + 4 <= next < 2 ^ 31 - 4 -> o + 4 <= Z.of_nat (length fdt) ->
    (exists r, next_node_loop n fdt next depth' = Some r) \/ exists o', o <= o' /\ huge_prop o').
  { intros depth' Hx Hle. destruct (IH next depth') as [?|(o' & Ho' & Hu)]; [lia..|by left|]. right. exists o'. split; [lia|done]. }
  destruct (tag =? FDT_BEGIN_NODE); [by left; eexists|]. destruct Hc as [[-> _]|(_ & Hx & _ & Hle)]; [by left; eexists|].
  destruct (tag =? FDT_END_NODE).
  - destruct depth as [d|]; [|by apply Hgo]. destruct (_ <? 0); [by left; eexists|by apply Hgo].
  - destruct (tag =? FDT_END); [by left; eexists|by apply Hgo].
Qed.
End Valid.

(** A valid blob whose structure block is the given words, for examples. *)
Definition be32 (x : Z) : list Z := [x / 2 ^ 24 mod 256; x / 2 ^ 16 mod 256; x / 2 ^ 8 mod 256; x mod 256].
Definition header (totalsize off_struct off_strings off_rsv size_strings size_struct : Z) : list Z :=
  concat (be32 <$> [FDT_MAGIC; totalsize; off_struct; off_strings; off_rsv; 17; 16; 0; size_strings; size_struct]).

(** C20: Whatever the bytes of a blob with a valid header, as long as no property
    from the offset on claims a length within 16 of [2^32]: reading a tag stays
    inside the blob and gives either an error or one of the five tags with the
    offset of the next one, which is aligned and further on; and the walk to
    the next node stays inside the blob and returns. *)
Theorem fdt_walk_safe fdt o depth : valid fdt -> 0 <= o < 2 ^ 31 - 4 ->
  (forall o', o <= o' -> ~ huge_prop fdt o') ->
  (exists tag next, fdt_next_tag fdt o = Some (tag, next) /\
     (tag = FDT_END /\ next < 0 \/ known_tag tag /\ o + 4 <= next /\ next mod 4 = 0)) /\
  (exists r, fdt_next_node fdt o depth = Some r).
Proof.
  intros Hv Ho Hh. split.
  - destruct (fdt_next_tag_cases fdt Hv o Ho) as (tag & next & E & Hc); [by apply Hh|]. exists tag, next. split; [done|].
    destruct Hc as [[-> [-> | ->]]|(Hk & Hx & Hm & _)]; [by left..|]. right. split; [done|]. split; [lia|done].
  - unfold fdt_next_node, fdt_check_node_offset_, check_tag_offset. replace (0 <=? o) with true by lia. replace (o <? 0) with false by lia.
    destruct (nz (o mod FDT_TAGSIZE)); [by eexists|]. cbn [orb].
    destruct (fdt_next_tag_cases fdt Hv o Ho) as (tag & next & E & Hc); [by apply Hh|]. rewrite E. cbn [mbind option_bind].
    destruct (tag =? FDT_BEGIN_NODE) eqn:Eb; [|by eexists]. apply Z.eqb_eq in Eb as ->.
    destruct Hc as [[? _]|(_ & Hx & _ & Hle)]; [done|]. replace (next <? 0) with false by lia.
    destruct (next_node_loop_total fdt Hv (S (length fdt)) next depth) as [Hr|(o' & Ho' & Hu)]; [lia..|done|].
    destruct (Hh o'); [lia|done].
Qed.

(** A node with one property of length 4, and the end. *)
Definition small_blob : list Z :=
  header 74 40 72 40 2 32 ++ concat (be32 <$> [FDT_BEGIN_NODE; 0; FDT_PROP; 4; 0; 7; FDT_END_NODE; FDT_END]) ++ [97; 0].

Lemma small_blob_valid : valid small_blob.
Proof. split; [vm_compute; lia|by repeat constructor; vm_compute|by vm_compute|by vm_compute]. Qed.

(** Whether a blob has such a property can be computed. *)
Definition huge_propb (fdt : list Z) (o : Z) : bool :=
  match fdt32_ld (from fdt (soff fdt + o)), prop_len fdt o with
  | Some tag, Some len => (tag =? FDT_PROP) && (2 ^ 32 - 16 <=? len)
  | _, _ => false
  end.

Lemma no_huge_prop fdt : valid fdt -> forallb (fun o => negb (huge_propb fdt o)) (seqZ 0 (Z.of_nat (length fdt))) = true ->
  forall o, 0 <= o -> ~ huge_prop fdt o.
Proof.
  intros Hv Hb o Ho (Et & len & El & Hl). rewrite forallb_forall in Hb.
  assert (Hlt : o < Z.of_nat (length fdt)).
  { destruct (header_soff fdt Hv) as [_ Hs]. unfold fits in Hs. apply Z.nle_gt. intros Hge. unfold from in Et.
    rewrite (proj2 (Z.ltb_ge _ 0)) in Et by lia. rewrite drop_ge in Et by lia. done. }
  assert (Hin : List.In o (seqZ 0 (Z.of_nat (length fdt)))) by (apply list_elem_of_In, elem_of_seqZ; lia).
  specialize (Hb o Hin). unfold huge_propb in Hb. rewrite Et, El in Hb. simpl in Hb. bool_cases.
Qed.

Lemma fdt_walk_safe_witness :
  (exists tag next, fdt_next_tag small_blob 8 = Some (tag, next) /\
     (tag = FDT_END /\ next < 0 \/ known_tag tag /\ 8 + 4 <= next /\ next mod 4 = 0)) /\
  (exists r, fdt_next_node small_blob 8 None = Some r).
Proof.
  apply (fdt_walk_safe small_blob 8 None small_blob_valid).
  - vm_compute. split; discriminate || reflexivity.
  - intros o' Ho'. apply (no_huge_prop small_blob small_blob_valid); [vm_compute; reflexivity|].
    apply (Z.le_trans 0 8 o'); [discriminate|exact Ho'].
Defined.

(** The walk stands still on a property that claims a length of [2^32 - 12]:
    the offset of the tag after it is its own, so that the loops that look
    for the next node, and the one that checks a whole blob, never end. *)
Theorem fdt_next_tag_stuck fdt o : valid fdt -> 0 <= o < 2 ^ 31 - 4 -> o mod 4 = 0 -> 16 <= vers fdt ->
  in_block fdt o 8 = true -> fdt32_ld (from fdt (soff fdt + o)) = Some FDT_PROP -> prop_len fdt o = Some (2 ^ 32 - 12) ->
  fdt_next_tag fdt o = Some (FDT_PROP, o) /\ forall n depth, next_node_loop n fdt o depth = None.
Proof.
  intros Hv Ho Hm Hvs Hb Et El. pose proof (in_block_bound fdt Hv _ _ Hb). pose proof (valid_length _ Hv).
  destruct (header_soff fdt Hv) as [_ Hs]. unfold fits in Hs.
  assert (E : fdt_next_tag fdt o = Some (FDT_PROP, o)).
  { unfold fdt_next_tag, FDT_TAGSIZE. rewrite (fdt_offset_ptr_eq fdt Hv) by (unfold fits; lia).
    rewrite (in_block_mono _ _ _ o 4 Hb) by lia. cbn [mbind option_bind]. rewrite Et. cbn [mbind option_bind].
    unfold skip_contents. change (FDT_PROP =? FDT_BEGIN_NODE) with false. change (FDT_PROP =? FDT_PROP) with true. cbv iota.
    rewrite s32_small by lia. rewrite (fdt_offset_ptr_eq fdt Hv) by (unfold fits; lia).
    rewrite (in_block_mono _ _ _ (o + 4) 4 Hb) by lia. cbn [mbind option_bind]. rewrite Z.add_assoc.
    unfold prop_len in El. rewrite El. cbn [mbind option_bind]. destruct (header_vers fdt Hv) as [-> _]. cbn [mbind option_bind].
    replace (vers fdt <? 16) with false by lia. cbn [andb].
    assert (E32 : s32 (o + 4 + 8 + (2 ^ 32 - 12)) = o) by (apply s32_congr; [rewrite wrap_once by lia; unfold u32; rewrite wrap_small by (unfold fits; lia); lia|lia]).
    rewrite E32. rewrite Z.sub_diag. change (u32 0) with 0. rewrite (fdt_offset_ptr_eq fdt Hv) by (unfold fits; lia).
    rewrite (in_block_mono _ _ _ o 0 Hb) by lia. cbn [mbind option_bind].
    rewrite tagalign_eq by lia. do 2 f_equal. Z.to_euclidean_division_equations. lia. }
  split; [done|]. induction n as [|n IH]; intros depth; [done|]. simpl. rewrite E. apply IH.
Qed.

(** A node with a property of length [2^32 - 12]. *)
Definition stuck_blob : list Z :=
  header 90 56 88 40 2 32 ++ replicate 16 0 ++
  concat (be32 <$> [FDT_BEGIN_NODE; 0; FDT_PROP; 2 ^ 32 - 12; 0; 7; FDT_END_NODE; FDT_END]) ++ [97; 0].

Lemma stuck_blob_valid : valid stuck_blob.
Proof. split; [vm_compute; lia|by repeat constructor; vm_compute|by vm_compute|by vm_compute]. Qed.

Lemma fdt_next_tag_stuck_witness :
  fdt_next_tag stuck_blob 8 = Some (FDT_PROP, 8) /\ forall n depth, next_node_loop n stuck_blob 8 depth = None.
Proof.
  apply (fdt_next_tag_stuck stuck_blob 8 stuck_blob_valid); vm_compute; (split || idtac); discriminate || reflexivity.
Defined.

(** The check that is meant to reject bad blobs accepts this one's header and
    does not come back from it. *)
Example fdt_check_full_stuck :
  fdt_check_header stuck_blob = Some 0 /\ fdt_num_mem_rsv stuck_blob = Some 0 /\
  (forall n, check_full_loop n stuck_blob 0 0 = None).
Proof.
  split; [by vm_compute|]. split; [by vm_compute|].
  assert (E8 : fdt_next_tag stuck_blob 8 = Some (FDT_PROP, 8)) by (vm_compute; reflexivity).
  assert (Ep : exists p e, fdt_getprop_by_offset stuck_blob 8 = Some (Some p, e)) by (eexists _, _; vm_compute; reflexivity).
  destruct Ep as (p & e & Ep).
  assert (H8 : forall n, check_full_loop n stuck_blob 8 1 = None).
  { induction n as [|n IH]; [done|]. cbn [check_full_loop]. rewrite E8, Ep. exact IH. }
  intros [|n]; [done|]. cbn [check_full_loop].
  assert (E : fdt_next_tag stuck_blob 0 = Some (FDT_BEGIN_NODE, 8)) by (vm_compute; reflexivity).
  rewrite E. exact (H8 n).
Qed.
