(* ===== verification/FdtTree.v ===== *)
(** The device-tree reader on a blob that holds a tree: what the navigation
    functions of lib/utils/libfdt/fdt.c and fdt_ro.c return, in terms of the
    tree.

    [toks] reads a structure block as a sequence of tokens.  A tree [dt] is
    held by a blob when its flattening is that sequence, up to no-operation
    tags; every node carries its offset, which is how C code names it. *)

From stdpp Require Import sorting.
From S2P Require Import Prelude Cstring Fdt FdtTag.

(** * Tokens *)

(** A node's opening with its offset and name, its closing with the offset
    after it, a property with its offset, name and value, a gap. *)
Inductive token : Type :=
| KBegin (o : Z) (name : list Z)
| KEnd (o : Z)
| KProp (o : Z) (name value : list Z)
| KNop.

(** [l] starts with [p]. *)
Definition starts (p l : list Z) : Prop := exists r, l = p ++ r.

(** The string at [stroffset] of the strings block. *)
Definition string_at (fdt : list Z) (stroffset : Z) (name : list Z) : Prop :=
  exists p, fdt_get_string fdt stroffset = Some (Some p, Z.of_nat (length name)) /\ cstr name (from fdt p).

Definition tok (fdt : list Z) (o : Z) (k : token) (o' : Z) : Prop :=
  0 <= o /\ o mod 4 = 0 /\ o + 4 <= o' /\ o' mod 4 = 0 /\ o' <= Z.of_nat (length fdt) + 3 /\
  match k with
  | KBegin o1 name => o1 = o /\ fdt_next_tag fdt o = Some (FDT_BEGIN_NODE, o') /\ cstr name (from fdt (soff fdt + o + 4))
  | KEnd o1 => o1 = o' /\ fdt_next_tag fdt o = Some (FDT_END_NODE, o')
  | KProp o1 name value => o1 = o /\ fdt_next_tag fdt o = Some (FDT_PROP, o') /\
      fdt32_ld (from fdt (soff fdt + o + 4)) = Some (Z.of_nat (length value)) /\
      starts value (from fdt (soff fdt + o + 12)) /\
      exists nameoff, fdt32_ld (from fdt (soff fdt + o + 8)) = Some nameoff /\ string_at fdt (s32 nameoff) name
  | KNop => fdt_next_tag fdt o = Some (FDT_NOP, o')
  end.

(** The tokens [ts] lie in the block from offset [o] to [oe]. *)
Fixpoint toks (fdt : list Z) (o : Z) (ts : list token) (oe : Z) : Prop :=
  match ts with
  | [] => o = oe
  | k :: ts => exists o', tok fdt o k o' /\ toks fdt o' ts oe
  end.

(** A blob of the current format that holds the tokens [ts], and then the end. *)
Record document (fdt : list Z) (ts : list token) : Prop := {
  doc_valid : valid fdt;
  doc_probe : fdt_ro_probe_ fdt = Some (total fdt) /\ 0 <= total fdt;
  doc_version : 16 <= vers fdt;
  doc_tokens : exists oe oe', toks fdt 0 ts oe /\ 0 <= oe /\ fdt_next_tag fdt oe = Some (FDT_END, oe') /\ 0 <= oe'
}.

(** * Walking over tokens *)

Section Walk.
Context (fdt : list Z) (ts : list token) (D : document fdt ts).

(** The rest of the block from offset [o] on. *)
Definition rest_at (o : Z) (ts' : list token) : Prop :=
  exists oe oe', toks fdt o ts' oe /\ 0 <= oe /\ fdt_next_tag fdt oe = Some (FDT_END, oe') /\ 0 <= oe'.

Lemma toks_app o l1 l2 oe : toks fdt o (l1 ++ l2) oe -> exists om, toks fdt o l1 om /\ toks fdt om l2 oe.
Proof.
  revert o. induction l1 as [|k l1 IH]; intros o; simpl; [eauto|]. intros (o' & Hk & Hr).
  destruct (IH o' Hr) as (om & H1 & H2). eauto.
Qed.

(** A token of the document, with what follows it. *)
Lemma doc_split ts1 k ts2 : ts = ts1 ++ k :: ts2 -> exists o o', tok fdt o k o' /\ rest_at o' ts2.
Proof.
  intros ->. destruct (doc_tokens _ _ D) as (oe & oe' & Ht & H0 & He & He'). apply toks_app in Ht as (om & _ & Ht).
  destruct Ht as (o' & Hk & Hr). exists om, o'. split; [done|]. by exists oe, oe'.
Qed.

(** Every token takes four bytes at least. *)
Lemma rest_length o ts' : rest_at o ts' -> 4 * Z.of_nat (length ts') <= Z.of_nat (length fdt) + 3 - o \/ ts' = [].
Proof.
  intros (oe & oe' & Ht & _). revert o Ht. induction ts' as [|k ts' IH]; intros o; [by right|].
  intros (o' & (_ & _ & H1 & _ & H2 & _) & Hr). left. simpl length. destruct (IH o' Hr) as [H| ->]; [lia|]. simpl. lia.
Qed.

(** What the walk to the next node finds: the offset and the depth counter. *)
Fixpoint scan (ts : list token) (depth : option Z) : Z * option Z :=
  match ts with
  | [] => (- FDT_ERR_NOTFOUND, depth)
  | KBegin o _ :: _ => (o, (fun d => d + 1) <$> depth)
  | KEnd o :: ts =>
      match depth with
      | Some d => if d - 1 <? 0 then (o, Some (d - 1)) else scan ts (Some (d - 1))
      | None => scan ts None
      end
  | _ :: ts => scan ts depth
  end.

Definition depth_ok (depth : option Z) : Prop := match depth with Some d => 0 <= d < 2 ^ 31 - 1 | None => True end.

Lemma next_node_loop_scan ts' : forall n o depth, rest_at o ts' -> depth_ok depth -> (length ts' < n)%nat ->
  next_node_loop n fdt o depth = Some (scan ts' depth).
Proof.
  induction ts' as [|k ts' IH]; intros n o depth (oe & oe' & Ht & H0 & He & He') Hd Hn; (destruct n as [|n]; [simpl in Hn; lia|]); simpl.
  - simpl in Ht. subst oe. rewrite He. simpl. by replace (0 <=? oe') with true by lia.
  - destruct Ht as (o' & (_ & _ & _ & _ & _ & Hk) & Hr).
    assert (Hrest : rest_at o' ts') by (by exists oe, oe'). simpl in Hn.
    destruct k as [o1 name|o1|o1 name value|].
    + destruct Hk as (-> & -> & _). simpl. destruct depth as [d|]; [|done]. simpl in *. do 3 f_equal. apply s32_small. lia.
    + destruct Hk as (-> & ->). simpl. destruct depth as [d|]; [|apply IH; [done|done|lia]]. simpl in Hd. rewrite s32_small by lia.
      destruct (Z.ltb_spec (d - 1) 0); [done|]. apply IH; [done|simpl; lia|lia].
    + destruct Hk as (_ & -> & _). simpl. apply IH; [done|done|lia].
    + rewrite Hk. simpl. apply IH; [done|done|lia].
Qed.

#[local] Arguments next_node_loop : simpl never.

(** From a node of the document. *)
Lemma fdt_next_node_scan ts1 o name ts2 depth : ts = ts1 ++ KBegin o name :: ts2 -> depth_ok depth ->
  fdt_next_node fdt o depth = Some (scan ts2 depth).
Proof.
  intros E Hd. destruct (doc_split _ _ _ E) as (o0 & o' & (H0 & H4 & H1 & H4' & H2 & -> & Ht & _) & Hr).
  unfold fdt_next_node, fdt_check_node_offset_, check_tag_offset. replace (0 <=? o0) with true by lia.
  replace (o0 <? 0) with false by lia. unfold FDT_TAGSIZE. rewrite H4. simpl. rewrite Ht. simpl. replace (o' <? 0) with false by lia.
  apply next_node_loop_scan; [done|done|]. destruct (rest_length _ _ Hr) as [?| ->]; simpl; lia.
Qed.

(** From before the first node. *)
Lemma fdt_next_node_start depth : depth_ok depth -> fdt_next_node fdt (-1) depth = Some (scan ts depth).
Proof.
  intros Hd. unfold fdt_next_node. simpl. assert (Hr : rest_at 0 ts) by apply (doc_tokens _ _ D).
  apply next_node_loop_scan; [done|done|]. destruct (rest_length _ _ Hr) as [?|E]; [lia|]. rewrite E. simpl. lia.
Qed.
End Walk.

(** * The nodes a repeated walk visits *)

(** The nodes met after a token sequence is entered with depth counter [d],
    each with the counter, and how the walk ends. *)
Fixpoint visits (ts : list token) (d : Z) : list (Z * Z) * (Z * Z) :=
  match ts with
  | [] => ([], (- FDT_ERR_NOTFOUND, d))
  | KBegin o _ :: ts => let '(l, f) := visits ts (d + 1) in ((o, d + 1) :: l, f)
  | KEnd o :: ts => if d - 1 <? 0 then ([], (o, d - 1)) else visits ts (d - 1)
  | _ :: ts => visits ts d
  end.

(** A walk ends when there is nothing left or when it leaves its subtree. *)
Definition ended (f : Z * Z) : Prop := f.1 < 0 /\ 0 <= f.2 \/ f.2 < 0.

Lemma visits_bound ts : forall d l f, 0 <= d -> visits ts d = (l, f) -> (length l <= length ts)%nat /\ ended f.
Proof.
  induction ts as [|k ts IH]; intros d l f Hd E; simpl in E.
  { injection E as <- <-. split; [done|]. left. unfold FDT_ERR_NOTFOUND. simpl. lia. }
  destruct k as [o name|o|o name value|]; simpl.
  - destruct (visits ts (d + 1)) as [l' f'] eqn:Ev. injection E as <- <-. apply IH in Ev as [? ?]; [|lia]. simpl. split; [lia|done].
  - destruct (Z.ltb_spec (d - 1) 0); [injection E as <- <-; split; [simpl; lia|right; simpl; lia]|].
    apply IH in E as [? ?]; [|lia]. split; [lia|done].
  - apply IH in E as [? ?]; [|done]. split; [lia|done].
  - apply IH in E as [? ?]; [|done]. split; [lia|done].
Qed.

(** One step of the walk, in terms of the visits. *)
Lemma scan_visits ts : forall d l f, 0 <= d -> visits ts d = (l, f) ->
  match l with
  | [] => scan ts (Some d) = (f.1, Some f.2)
  | (o, d') :: l => 1 <= d' <= d + 1 /\ scan ts (Some d) = (o, Some d') /\
      exists ts1 name ts2, ts = ts1 ++ KBegin o name :: ts2 /\ visits ts2 d' = (l, f)
  end.
Proof.
  induction ts as [|k ts IH]; intros d l f Hd E; simpl in E.
  { by injection E as <- <-. }
  assert (Hskip : forall d', 0 <= d' <= d -> visits ts d' = (l, f) -> scan (k :: ts) (Some d) = scan ts (Some d') ->
    match l with [] => scan (k :: ts) (Some d) = (f.1, Some f.2)
    | (o, d'') :: l => 1 <= d'' <= d + 1 /\ scan (k :: ts) (Some d) = (o, Some d'') /\
        exists ts1 name ts2, k :: ts = ts1 ++ KBegin o name :: ts2 /\ visits ts2 d'' = (l, f) end).
  { intros d' Hd' Ev Es. rewrite Es. specialize (IH d' l f (proj1 Hd') Ev). destruct l as [|[o d''] l]; [done|].
    destruct IH as (H1 & -> & ts1 & name & ts2 & -> & E2). split; [lia|]. split; [done|]. by exists (k :: ts1), name, ts2. }
  destruct k as [o name|o|o name value|].
  - destruct (visits ts (d + 1)) as [l' f'] eqn:Ev. injection E as <- <-. split; [lia|]. split; [done|]. by exists [], name, ts.
  - simpl. destruct (Z.ltb_spec (d - 1) 0) as [H|H].
    + injection E as <- <-. done.
    + specialize (Hskip (d - 1) ltac:(lia) E). simpl in Hskip. destruct (Z.ltb_spec (d - 1) 0); [lia|]. by apply Hskip.
  - by apply (Hskip d).
  - by apply (Hskip d).
Qed.

(** Gaps do not matter. *)
Definition is_tag (k : token) : bool := match k with KNop => false | _ => true end.
Definition strip (ts : list token) : list token := List.filter is_tag ts.

Lemma visits_strip ts : forall d, visits (strip ts) d = visits ts d.
Proof.
  induction ts as [|[o name|o|o name value|] ts IH]; intros d; simpl; [done|by rewrite IH| |done..].
  destruct (_ <? _); [done|]. apply IH.
Qed.

Lemma scan_strip ts : forall d, scan (strip ts) d = scan ts d.
Proof.
  induction ts as [|[o name|o|o name value|] ts IH]; intros d; simpl; [done|done| |done..].
  destruct d as [d|]; [|done]. destruct (_ <? _); [done|]. apply IH.
Qed.

Lemma strip_split ts : forall l1 k l2, strip ts = l1 ++ k :: l2 ->
  exists ts1 ts2, ts = ts1 ++ k :: ts2 /\ strip ts1 = l1 /\ strip ts2 = l2.
Proof.
  induction ts as [|k0 ts IH]; intros l1 k l2 E; simpl in E; [by destruct l1|].
  destruct (is_tag k0) eqn:Ek.
  - destruct l1 as [|k1 l1]; simpl in E; injection E as -> E.
    + by exists [], ts.
    + destruct (IH _ _ _ E) as (ts1 & ts2 & -> & <- & <-). exists (k1 :: ts1), ts2. simpl. by rewrite Ek.
  - destruct (IH _ _ _ E) as (ts1 & ts2 & -> & <- & <-). exists (k0 :: ts1), ts2. simpl. by rewrite Ek.
Qed.

(** * Trees *)

Record dprop : Type := mkProp { p_off : Z; p_name : list Z; p_val : list Z }.

(** A node: its offset, name, properties and children, and the offset after
    its end. *)
Inductive dt : Type := DT (o : Z) (name : list Z) (props : list dprop) (kids : list dt) (oe : Z).

Definition d_off (t : dt) : Z := let '(DT o _ _ _ _) := t in o.
Definition d_name (t : dt) : list Z := let '(DT _ name _ _ _) := t in name.
Definition d_props (t : dt) : list dprop := let '(DT _ _ props _ _) := t in props.
Definition d_kids (t : dt) : list dt := let '(DT _ _ _ kids _) := t in kids.
Definition d_end (t : dt) : Z := let '(DT _ _ _ _ oe) := t in oe.

Definition prop_tok (p : dprop) : token := KProp (p_off p) (p_name p) (p_val p).
Fixpoint flat (t : dt) : list token :=
  let '(DT o name props kids oe) := t in
  KBegin o name :: map prop_tok props ++ flat_map flat kids ++ [KEnd oe].
Definition flats : list dt -> list token := flat_map flat.

(** The nodes in document order, with their depths. *)
Fixpoint pre (d : Z) (t : dt) : list (Z * Z) :=
  let '(DT o _ _ kids _) := t in (o, d) :: flat_map (pre (d + 1)) kids.
Definition pres (d : Z) : list dt -> list (Z * Z) := flat_map (pre d).

Lemma dt_forall (P : dt -> Prop) :
  (forall o name props kids oe, Forall P kids -> P (DT o name props kids oe)) -> forall t, P t.
Proof.
  intros H. fix IH 1. intros [o name props kids oe]. apply H. induction kids as [|k kids IHk]; constructor; [apply IH|exact IHk].
Qed.

(** [t'] is a node of [t]. *)
Inductive node_of : dt -> dt -> Prop :=
| node_self t : node_of t t
| node_below t k t' : k ∈ d_kids t -> node_of k t' -> node_of t t'.

Lemma flat_eq t : flat t = KBegin (d_off t) (d_name t) :: map prop_tok (d_props t) ++ flats (d_kids t) ++ [KEnd (d_end t)].
Proof. by destruct t. Qed.
Lemma flats_app l1 l2 : flats (l1 ++ l2) = flats l1 ++ flats l2.
Proof. apply flat_map_app. Qed.

Lemma node_flat t t' : node_of t t' -> exists l1 l2, flat t = l1 ++ flat t' ++ l2.
Proof.
  induction 1 as [t|t k t' Hk Hn (l1 & l2 & E)]; [exists [], []; by rewrite app_nil_r|].
  apply list_elem_of_split in Hk as (k1 & k2 & Hk). rewrite flat_eq, Hk, flats_app. simpl. rewrite E.
  exists (KBegin (d_off t) (d_name t) :: map prop_tok (d_props t) ++ flats k1 ++ l1), (l2 ++ flats k2 ++ [KEnd (d_end t)]).
  simpl. by rewrite <- !app_assoc.
Qed.

(** Walking over a whole subtree, and over the properties of a node. *)
Lemma visits_props props rest d : visits (map prop_tok props ++ rest) d = visits rest d.
Proof. induction props; simpl; auto. Qed.

Lemma visits_flat t : forall d rest, 0 <= d ->
  visits (flat t ++ rest) d = let '(l, f) := visits rest d in (pre (d + 1) t ++ l, f).
Proof.
  induction t as [o name props kids oe IH] using dt_forall. intros d rest Hd. simpl. rewrite <- !app_assoc, visits_props.
  assert (Hk : forall rest, visits (flats kids ++ rest) (d + 1) = let '(l, f) := visits rest (d + 1) in (pres (d + 2) kids ++ l, f)).
  { clear rest. induction IH as [|k kids Hk _ IHk]; intros rest; simpl; [by destruct (visits rest _)|].
    rewrite <- app_assoc, Hk by lia. rewrite IHk. destruct (visits rest (d + 1)) as [l f].
    replace (d + 1 + 1) with (d + 2) by lia. by rewrite <- app_assoc. }
  unfold flats in Hk. rewrite Hk. simpl. replace (d + 1 - 1) with d by lia. replace (d <? 0) with false by lia.
  destruct (visits rest d) as [l f]. replace (d + 1 + 1) with (d + 2) by lia. done.
Qed.

Lemma visits_flats kids : forall d rest, 0 <= d ->
  visits (flats kids ++ rest) d = let '(l, f) := visits rest d in (pres (d + 1) kids ++ l, f).
Proof.
  induction kids as [|k kids IH]; intros d rest Hd; simpl; [by destruct (visits rest d)|].
  rewrite <- app_assoc, visits_flat by done. rewrite IH by done. destruct (visits rest d) as [l f]. by rewrite <- app_assoc.
Qed.

(** The nodes of a subtree are deeper than its root. *)
Lemma pre_deep t : forall d, Forall (fun p => d <= p.2) (pre d t).
Proof.
  induction t as [o name props kids oe IH] using dt_forall. intros d. simpl. constructor; [simpl; lia|].
  apply Forall_flat_map. eapply Forall_impl; [exact IH|]. intros k Hk. eapply Forall_impl; [apply Hk|]. simpl. intros. lia.
Qed.

(** * Walking to the next sibling *)

Section Subnodes.
Context (fdt : list Z) (ts : list token) (D : document fdt ts).

Lemma begin_offset ts1 o name ts2 : ts = ts1 ++ KBegin o name :: ts2 ->
  0 <= o < Z.of_nat (length fdt) /\ o mod 4 = 0 /\ 4 * Z.of_nat (length ts2) < Z.of_nat (length fdt).
Proof.
  intros E. destruct (doc_split _ _ D _ _ _ E) as (o0 & o' & (H0 & H4 & H1 & _ & H2 & -> & _) & Hr). split; [lia|]. split; [done|].
  destruct (rest_length _ _ _ Hr) as [?| ->]; simpl; lia.
Qed.

(** The first node of a walk that is not below the one it started from. *)
Fixpoint first_beside (l : list (Z * Z)) : Z :=
  match l with
  | [] => - FDT_ERR_NOTFOUND
  | (o, d) :: l => if 1 <? d then first_beside l else o
  end.

Lemma next_subnode_loop_visits l : forall n ts1 o name ts2 d f,
  ts = ts1 ++ KBegin o name :: ts2 -> 0 <= d -> d + Z.of_nat (length ts2) < 2 ^ 31 - 1 -> visits ts2 d = (l, f) ->
  (length l < n)%nat -> next_subnode_loop n fdt o d = Some (first_beside l).
Proof.
  induction l as [|[o' d'] l IH]; intros n ts1 o name ts2 d f E Hd Hb Ev Hn; (destruct n as [|n]; [simpl in Hn; lia|]).
  all: pose proof (scan_visits _ _ _ _ Hd Ev) as Hs; pose proof (visits_bound _ _ _ _ Hd Ev) as [_ He].
  all: cbn [next_subnode_loop]; rewrite (fdt_next_node_scan _ _ D _ _ _ _ _ E) by (simpl; lia).
  - rewrite Hs. simpl. destruct He as [[Hf _]|Hf].
    + by rewrite (proj2 (Z.ltb_lt _ _) Hf).
    + replace (f.2 <? 1) with true by lia. by rewrite orb_true_r.
  - destruct Hs as (Hd' & -> & ts1' & name' & ts3 & E3 & Ev3). simpl.
    assert (E' : ts = (ts1 ++ KBegin o name :: ts1') ++ KBegin o' name' :: ts3) by (rewrite E, E3, <- app_assoc; done).
    pose proof (begin_offset _ _ _ _ E') as [Ho' _]. replace (o' <? 0) with false by lia. replace (d' <? 1) with false by lia. simpl.
    destruct (1 <? d'); [|done]. eapply IH; [exact E'|lia| |exact Ev3|simpl in Hn; lia].
    rewrite E3, length_app in Hb. simpl in Hb. lia.
Qed.
End Subnodes.

(** * A blob that holds a tree *)

Definition holds (fdt : list Z) (t : dt) : Prop := exists ts, document fdt ts /\ strip ts = flat t.

Section Holds.
Context (fdt : list Z) (root : dt) (Hh : holds fdt root).

(** A node of the tree in the token sequence. *)
Lemma holds_node t : node_of root t -> exists ts ts1 ts2 l2, document fdt ts /\
  ts = ts1 ++ KBegin (d_off t) (d_name t) :: ts2 /\
  strip ts2 = map prop_tok (d_props t) ++ flats (d_kids t) ++ KEnd (d_end t) :: l2.
Proof.
  intros (l1 & l2 & Ef)%node_flat. destruct Hh as (ts & D & Es). rewrite Ef, flat_eq in Es. simpl in Es.
  apply strip_split in Es as (ts1 & ts2 & E & _ & E2). exists ts, ts1, ts2, l2. split; [done|]. split; [done|].
  rewrite E2, <- !app_assoc. done.
Qed.

(** A child in the token sequence: it is followed by its younger siblings and
    the end of its parent. *)
Lemma holds_child p k1 t k2 : node_of root p -> d_kids p = k1 ++ t :: k2 -> exists ts ts1 ts2 l2, document fdt ts /\
  ts = ts1 ++ KBegin (d_off t) (d_name t) :: ts2 /\
  strip ts2 = map prop_tok (d_props t) ++ flats (d_kids t) ++ KEnd (d_end t) :: flats k2 ++ KEnd (d_end p) :: l2.
Proof.
  intros (l1 & l2 & Ef)%node_flat Hk. destruct Hh as (ts & D & Es). rewrite Ef, (flat_eq p), Hk, flats_app in Es.
  simpl in Es. rewrite flat_eq in Es.
  set (pr := KBegin (d_off p) (d_name p) :: map prop_tok (d_props p) ++ flats k1) in *.
  assert (E' : strip ts = (l1 ++ pr) ++ KBegin (d_off t) (d_name t) ::
    map prop_tok (d_props t) ++ flats (d_kids t) ++ KEnd (d_end t) :: flats k2 ++ KEnd (d_end p) :: l2).
  { rewrite Es. unfold pr. do 3 (simpl; rewrite <- ?app_assoc). done. }
  apply strip_split in E' as (ts1 & ts2 & E & _ & E2). by exists ts, ts1, ts2, l2.
Qed.

Lemma node_of_kid p k : node_of root p -> k ∈ d_kids p -> node_of root k.
Proof.
  clear. intros Hp Hk. induction Hp as [t|t k' t' Hk' _ IH]; [apply (node_below _ k); [done|constructor]|].
  apply (node_below _ k'); auto.
Qed.

Lemma node_offset t : node_of root t -> 0 <= d_off t < Z.of_nat (length fdt) /\ d_off t mod 4 = 0.
Proof.
  intros (ts & ts1 & ts2 & l2 & D & E & _)%holds_node. by destruct (begin_offset _ _ D _ _ _ _ E) as (? & ? & _).
Qed.

Lemma fdt_length : Z.of_nat (length fdt) < 2 ^ 31 - 8.
Proof. destruct Hh as (ts & D & _). apply D. Qed.

Lemma scan_props props rest d : scan (map prop_tok props ++ rest) d = scan rest d.
Proof. by induction props. Qed.

Lemma fdt_first_subnode_eq p : node_of root p ->
  fdt_first_subnode fdt (d_off p) = Some (match d_kids p with [] => - FDT_ERR_NOTFOUND | k :: _ => d_off k end).
Proof.
  intros Hp. destruct (holds_node p Hp) as (ts & ts1 & ts2 & l2 & D & E & E2). unfold fdt_first_subnode.
  rewrite (fdt_next_node_scan _ _ D _ _ _ _ _ E) by (simpl; lia). rewrite <- scan_strip, E2, scan_props.
  destruct (d_kids p) as [|k kids] eqn:Ek; simpl; [by rewrite orb_true_r|]. rewrite flat_eq. simpl.
  destruct (node_offset k) as [Hk _]; [apply (node_of_kid p); [done|]; rewrite Ek; left|]. by replace (d_off k <? 0) with false by lia.
Qed.

Lemma first_beside_app l l' : Forall (fun p => 2 <= p.2) l -> first_beside (l ++ l') = first_beside l'.
Proof. induction 1 as [|[o d] l Hd _ IH]; simpl; [done|]. simpl in Hd. by replace (1 <? d) with true by lia. Qed.

Lemma fdt_next_subnode_eq p k1 t k2 : node_of root p -> d_kids p = k1 ++ t :: k2 ->
  fdt_next_subnode fdt (d_off t) = Some (match k2 with [] => - FDT_ERR_NOTFOUND | k :: _ => d_off k end).
Proof.
  intros Hp Hk. destruct (holds_child p k1 t k2 Hp Hk) as (ts & ts1 & ts2 & l2 & D & E & E2). unfold fdt_next_subnode.
  destruct (visits ts2 1) as [l f] eqn:Ev. pose proof (begin_offset _ _ D _ _ _ _ E) as (_ & _ & Hl). pose proof fdt_length.
  pose proof (visits_bound ts2 1 l f ltac:(lia) Ev) as [Hlen _].
  rewrite (next_subnode_loop_visits _ _ D l (S (length fdt)) ts1 _ _ ts2 1 f E ltac:(lia) ltac:(lia) Ev) by lia. f_equal.
  rewrite <- visits_strip, E2, visits_props, visits_flats in Ev by lia. simpl in Ev.
  rewrite visits_flats in Ev by lia. simpl in Ev. injection Ev as <- _.
  rewrite first_beside_app by (apply Forall_flat_map, Forall_true; intros; apply pre_deep).
  rewrite app_nil_r. destruct k2 as [|[o name props kids oe] k2]; done.
Qed.

(** Visiting the children of a node, from one of them on. *)
Lemma subnodes_from_eq p k1 kids : forall n, node_of root p -> d_kids p = k1 ++ kids -> (length kids < n)%nat ->
  subnodes_from n fdt (match kids with [] => - FDT_ERR_NOTFOUND | k :: _ => d_off k end) = Some (map d_off kids).
Proof.
  revert k1. induction kids as [|k kids IH]; intros k1 n Hp Hk Hn; (destruct n as [|n]; [simpl in Hn; lia|]); [done|].
  cbn [subnodes_from]. destruct (node_offset k) as [Ho _].
  { apply (node_of_kid p); [done|]. rewrite Hk. apply elem_of_app. right. left. }
  replace (d_off k <? 0) with false by lia. rewrite (fdt_next_subnode_eq p k1 k kids Hp Hk). cbn [mbind option_bind].
  rewrite (IH (k1 ++ [k])); [done|done|by rewrite <- app_assoc|simpl in Hn; lia].
Qed.

Lemma node_size t : node_of root t -> (length (d_kids t) <= length fdt)%nat.
Proof.
  intros (ts & ts1 & ts2 & l2 & D & E & E2)%holds_node. destruct (begin_offset _ _ D _ _ _ _ E) as (_ & _ & Hl).
  pose proof (filter_length_le is_tag ts2) as Hs. fold (strip ts2) in Hs.
  rewrite E2, !length_app in Hs. assert ((length (d_kids t) <= length (flats (d_kids t)))%nat); [|lia].
  clear. generalize (d_kids t). intros l. induction l as [|k l IH]; simpl; [done|]. rewrite length_app, flat_eq. simpl. lia.
Qed.

Lemma flat_length : (length (flat root) <= length fdt)%nat.
Proof.
  destruct Hh as (ts & D & <-). pose proof (filter_length_le is_tag ts) as Hf. fold (strip ts) in Hf.
  destruct (rest_length _ 0 ts (doc_tokens _ _ D)) as [Hr| ->]; [|simpl; lia]. lia.
Qed.

Lemma fdt_for_each_subnode_eq p : node_of root p -> fdt_for_each_subnode fdt (d_off p) = Some (map d_off (d_kids p)).
Proof.
  intros Hp. unfold fdt_for_each_subnode. rewrite fdt_first_subnode_eq by done. cbn [mbind option_bind].
  pose proof (node_size p Hp). apply (subnodes_from_eq p []); [done|done|lia].
Qed.
End Holds.

(** * Properties *)

Lemma sbi_memcmp_starts a : forall b la lb, starts a la -> starts b lb -> length a = length b ->
  exists c, sbi_memcmp la lb (length b) = Some c /\ (c =? 0) = bool_decide (a = b).
Proof.
  induction a as [|x a IH]; intros [|y b] la lb [ra ->] [rb ->] Hl; simpl in Hl; try lia; [exists 0; split; [by destruct ra|]; symmetry; by apply bool_decide_eq_true_2|]. simpl.
  destruct (Z.eqb_spec x y) as [->|Hn].
  - destruct (IH b (a ++ ra) (b ++ rb)) as (c & -> & Hc); [by eexists..|lia|]. exists c. split; [done|].
    rewrite Hc. apply bool_decide_ext. split; [by intros ->|by intros [= ->]].
  - eexists. split; [reflexivity|]. rewrite bool_decide_eq_false_2 by (by intros [= -> _]). apply Z.eqb_neq. lia.
Qed.

(** Comparing a name in the strings block with a key. *)
Lemma fdt_string_eq_eq fdt off name key l : string_at fdt off name -> starts key l ->
  fdt_string_eq_ fdt off l (Z.of_nat (length key)) = Some (bool_decide (name = key)).
Proof.
  intros (p & Eg & _ & r & Er) Hl. assert (Hs : starts name (from fdt p)) by (by exists (0 :: r)). unfold fdt_string_eq_. rewrite Eg. cbn [mbind option_bind].
  destruct (Z.eqb_spec (Z.of_nat (length name)) (Z.of_nat (length key))) as [E|E].
  - rewrite Nat2Z.id. destruct (sbi_memcmp_starts name key _ _ Hs Hl) as (c & -> & Hc); [lia|]. simpl. by rewrite Hc.
  - rewrite bool_decide_eq_false_2; [done|]. intros ->. done.
Qed.

Section Props.
Context (fdt : list Z) (ts : list token) (D : document fdt ts).

(** Where the next property is, given the tokens after the current position. *)
Definition next_prop (ts : list token) : Z :=
  match ts with
  | [] => - FDT_ERR_BADSTRUCTURE
  | KProp o _ _ :: _ => o
  | _ => - FDT_ERR_NOTFOUND
  end.

Lemma nextprop_loop_eq ts' : forall n o, rest_at fdt o ts' -> (length ts' < n)%nat ->
  nextprop_loop n fdt o = Some (next_prop (strip ts')).
Proof.
  induction ts' as [|k ts' IH]; intros n o (oe & oe' & Ht & H0 & He & He') Hn; (destruct n as [|n]; [simpl in Hn; lia|]); simpl.
  - simpl in Ht. subst oe. rewrite He. simpl. by replace (0 <=? oe') with true by lia.
  - destruct Ht as (o' & (_ & _ & _ & _ & _ & Hk) & Hr). assert (Hrest : rest_at fdt o' ts') by (by exists oe, oe'). simpl in Hn.
    destruct k as [o1 name|o1|o1 name value|]; simpl.
    + by destruct Hk as (_ & -> & _).
    + by destruct Hk as (_ & ->).
    + by destruct Hk as (-> & -> & _).
    + rewrite Hk. simpl. apply IH; [done|lia].
Qed.

Lemma nextprop_eq o ts' : rest_at fdt o ts' -> nextprop_ fdt o = Some (next_prop (strip ts')).
Proof.
  intros Hr. apply nextprop_loop_eq; [done|]. destruct (rest_length _ _ _ Hr) as [?| ->]; [|simpl; lia].
  destruct Hr as (oe & oe' & Ht & H0 & _). destruct ts' as [|k ts']; [simpl; lia|]. destruct Ht as (o' & (Ho & _) & _). lia.
Qed.

Lemma fdt_first_property_eq ts1 o name ts2 : ts = ts1 ++ KBegin o name :: ts2 ->
  fdt_first_property_offset fdt o = Some (next_prop (strip ts2)).
Proof.
  intros E. destruct (doc_split _ _ D _ _ _ E) as (o0 & o' & (H0 & H4 & H1 & H4' & H2 & -> & Ht & _) & Hr).
  unfold fdt_first_property_offset, fdt_check_node_offset_, check_tag_offset. replace (o0 <? 0) with false by lia.
  unfold FDT_TAGSIZE. rewrite H4. simpl. rewrite Ht. simpl. replace (o' <? 0) with false by lia. by apply nextprop_eq.
Qed.

Lemma starts_length (p l : list Z) : starts p l -> (length p <= length l)%nat.
Proof. intros [r ->]. rewrite length_app. lia. Qed.

(** One property: its header, its name, and the one after it. *)
Lemma fdt_property_eq ts1 o name value ts2 : ts = ts1 ++ KProp o name value :: ts2 -> 0 <= o /\
  fdt_get_property_by_offset_ fdt o = Some (Some (soff fdt + o), Z.of_nat (length value)) /\
  fdt32_ld (from fdt (soff fdt + o + 4)) = Some (Z.of_nat (length value)) /\
  starts value (from fdt (soff fdt + o + 12)) /\
  (exists nameoff, fdt32_ld (from fdt (soff fdt + o + 8)) = Some nameoff /\ string_at fdt (s32 nameoff) name) /\
  fdt_next_property_offset fdt o = Some (next_prop (strip ts2)).
Proof.
  intros E. destruct (doc_split _ _ D _ _ _ E) as (o0 & o' & (H0 & H4 & H1 & H4' & H2 & -> & Ht & Hl & Hs & Hn) & Hr).
  assert (Hc : fdt_check_prop_offset_ fdt o0 = Some o').
  { unfold fdt_check_prop_offset_, check_tag_offset. replace (o0 <? 0) with false by lia. unfold FDT_TAGSIZE. rewrite H4. simpl. by rewrite Ht. }
  pose proof (header_soff fdt (doc_valid _ _ D)) as [Es Hso]. unfold fits in Hso.
  split; [done|]. split; [|split; [done|split; [done|split; [done|]]]].
  - unfold fdt_get_property_by_offset_, fdt_offset_ptr_. rewrite Hc. simpl. replace (o' <? 0) with false by lia. rewrite Es. simpl.
    rewrite Hl. simpl. rewrite s32_small; [done|]. apply starts_length in Hs. rewrite length_from in Hs by lia.
    pose proof (valid_length _ (doc_valid _ _ D)). lia.
  - unfold fdt_next_property_offset. rewrite Hc. simpl. replace (o' <? 0) with false by lia. by apply nextprop_eq.
Qed.

Definition find_prop (key : list Z) (props : list dprop) : option dprop :=
  List.find (fun p => bool_decide (p_name p = key)) props.

(** The search over the properties of a node. *)
Lemma find_property_eq key l props : forall n ts1 ts2 rest,
  starts key l -> ts = ts1 ++ ts2 -> strip ts2 = map prop_tok props ++ rest ->
  next_prop rest = - FDT_ERR_NOTFOUND -> (length props < n)%nat ->
  find_property n fdt (next_prop (strip ts2)) l (Z.of_nat (length key)) =
  Some (match find_prop key props with
        | Some p => (Some (soff fdt + p_off p, p_off p), Z.of_nat (length (p_val p)))
        | None => (None, - FDT_ERR_NOTFOUND)
        end).
Proof.
  induction props as [|p props IH]; intros n ts1 ts2 rest Hl E E2 Hr Hn; (destruct n as [|n]; [simpl in Hn; lia|]).
  - rewrite E2. simpl. rewrite Hr. done.
  - simpl in E2. pose proof (strip_split ts2 [] _ _ E2) as (ts3 & ts4 & E3 & _ & E4). rewrite E2. cbn [next_prop prop_tok find_property].
    rewrite E3, app_assoc in E. destruct (fdt_property_eq _ _ _ _ _ E) as (Ho & Eg & _ & _ & (nameoff & En & Hs) & Enext).
    replace (p_off p <? 0) with false by lia. rewrite Eg. cbn [mbind option_bind]. rewrite En. cbn [mbind option_bind].
    rewrite (fdt_string_eq_eq _ _ _ _ _ Hs Hl). cbn [mbind option_bind]. unfold find_prop. cbn [List.find].
    destruct (bool_decide (p_name p = key)); [done|]. rewrite Enext. cbn [mbind option_bind].
    apply (IH n ((ts1 ++ ts3) ++ [prop_tok p]) ts4 rest); [done|by rewrite E, <- !app_assoc|done|done|simpl in Hn; lia].
Qed.
End Props.

Section GetProp.
Context (fdt : list Z) (root : dt) (Hh : holds fdt root).

(** Where the value of a property lies. *)
Definition val_pos (p : dprop) : Z := soff fdt + p_off p + 12.

Lemma next_prop_kids t l2 : next_prop (flats (d_kids t) ++ KEnd (d_end t) :: l2) = - FDT_ERR_NOTFOUND.
Proof. destruct (d_kids t) as [|k kids]; [done|]. simpl. by rewrite flat_eq. Qed.

Lemma props_size t : node_of root t -> (length (d_props t) <= length fdt)%nat.
Proof.
  intros (ts & ts1 & ts2 & l2 & D & E & E2)%(holds_node _ _ Hh). destruct (begin_offset _ _ D _ _ _ _ E) as (_ & _ & Hl).
  pose proof (filter_length_le is_tag ts2) as Hs. fold (strip ts2) in Hs.
  rewrite E2, !length_app, length_map in Hs. lia.
Qed.

(** A property of a node in the token sequence. *)
Lemma holds_prop t p : node_of root t -> p ∈ d_props t ->
  fdt32_ld (from fdt (soff fdt + p_off p + 4)) = Some (Z.of_nat (length (p_val p))) /\ starts (p_val p) (from fdt (val_pos p)) /\ 0 <= val_pos p.
Proof.
  intros (ts & ts1 & ts2 & l2 & D & E & E2)%(holds_node _ _ Hh) Hp. apply list_elem_of_split in Hp as (p1 & p2 & Ep).
  rewrite Ep, map_app, <- app_assoc in E2. simpl in E2. apply strip_split in E2 as (ts3 & ts4 & -> & _).
  change (KBegin (d_off t) (d_name t) :: ts3 ++ prop_tok p :: ts4) with ((KBegin (d_off t) (d_name t) :: ts3) ++ prop_tok p :: ts4) in E.
  rewrite app_assoc in E. destruct (fdt_property_eq _ _ D _ _ _ _ _ E) as (H0 & _ & Hl & Hs & _). split; [done|]. split; [done|].
  destruct (header_soff fdt (doc_valid _ _ D)) as [_ Hso]. unfold fits in Hso. unfold val_pos. lia.
Qed.

Lemma find_prop_in key props p : find_prop key props = Some p -> p ∈ props /\ p_name p = key.
Proof. intros [Hi Hb]%find_some. split; [by apply list_elem_of_In|]. by apply bool_decide_eq_true in Hb. Qed.

(** Looking up a property by name gives the first of that name. *)
Lemma fdt_get_property_eq t key l : node_of root t -> starts key l ->
  fdt_get_property_namelen_ fdt (d_off t) l (Z.of_nat (length key)) =
  Some (match find_prop key (d_props t) with
        | Some p => (Some (soff fdt + p_off p, p_off p), Z.of_nat (length (p_val p)))
        | None => (None, - FDT_ERR_NOTFOUND)
        end).
Proof.
  intros Ht Hl. destruct (holds_node _ _ Hh t Ht) as (ts & ts1 & ts2 & l2 & D & E & E2).
  unfold fdt_get_property_namelen_. rewrite (fdt_first_property_eq _ _ D _ _ _ _ E). cbn [mbind option_bind].
  pose proof (props_size t Ht) as Hsz.
  by rewrite (find_property_eq _ _ D key l (d_props t) _ (ts1 ++ [KBegin (d_off t) (d_name t)]) ts2 _ Hl
    ltac:(by rewrite E, <- app_assoc) E2 (next_prop_kids t l2)) by lia.
Qed.

Lemma fdt_getprop_namelen_eq t key l : node_of root t -> starts key l ->
  fdt_getprop_namelen fdt (d_off t) l (Z.of_nat (length key)) =
  Some (match find_prop key (d_props t) with
        | Some p => (Some (val_pos p), Z.of_nat (length (p_val p)))
        | None => (None, - FDT_ERR_NOTFOUND)
        end).
Proof.
  intros Ht Hl. unfold fdt_getprop_namelen. rewrite fdt_get_property_eq by done. cbn [mbind option_bind].
  destruct (find_prop key (d_props t)) as [p|] eqn:Ef; [|done]. apply find_prop_in in Ef as [Hp _].
  destruct (holds_prop t p Ht Hp) as [El _]. destruct (holds_node _ _ Hh t Ht) as (ts & ts1 & ts2 & l2 & D & E & E2).
  unfold prop_data. destruct (header_vers fdt (doc_valid _ _ D)) as [-> _].
  cbn [mbind option_bind]. rewrite El. cbn [mbind option_bind]. replace (vers fdt <? 16) with false; [done|].
  pose proof (doc_version _ _ D). lia.
Qed.

Lemma fdt_getprop_eq t key l : node_of root t -> cstr key l -> Z.of_nat (length key) < 2 ^ 31 ->
  fdt_getprop fdt (d_off t) l =
  Some (match find_prop key (d_props t) with
        | Some p => (Some (val_pos p), Z.of_nat (length (p_val p)))
        | None => (None, - FDT_ERR_NOTFOUND)
        end).
Proof.
  intros Ht Hl Hk. unfold fdt_getprop. rewrite (sbi_strlen_spec key l Hl) by lia. cbn [mbind option_bind].
  rewrite s32_small by lia. apply fdt_getprop_namelen_eq; [done|]. destruct Hl as [_ [r ->]]. by eexists.
Qed.
(** A property by its offset, and the offset of the one after it. *)
Lemma property_at t p1 p p2 : node_of root t -> d_props t = p1 ++ p :: p2 -> 0 <= p_off p /\
  (exists name, fdt_getprop_by_offset fdt (p_off p) = Some (Some (val_pos p, name), Z.of_nat (length (p_val p))) /\
    cstr (p_name p) (from fdt name)) /\
  fdt_next_property_offset fdt (p_off p) = Some (match p2 with [] => - FDT_ERR_NOTFOUND | q :: _ => p_off q end).
Proof.
  intros Ht Ep. destruct (holds_prop t p Ht) as (El & _); [rewrite Ep; apply elem_of_app; right; left|].
  destruct (holds_node _ _ Hh t Ht) as (ts & ts1 & ts2 & l2 & D & E & E2).
  rewrite Ep, map_app, <- app_assoc in E2. cbn [map app] in E2. apply strip_split in E2 as (ts3 & ts4 & -> & _ & E4).
  change (KBegin (d_off t) (d_name t) :: ts3 ++ prop_tok p :: ts4) with ((KBegin (d_off t) (d_name t) :: ts3) ++ prop_tok p :: ts4) in E.
  rewrite app_assoc in E. destruct (fdt_property_eq _ _ D _ _ _ _ _ E) as (H0 & Eg & _ & _ & (nameoff & En & name & Es & Hc) & Enext).
  split; [done|]. split.
  - exists name. split; [|done]. unfold fdt_getprop_by_offset. rewrite Eg. cbn [mbind option_bind]. rewrite En. cbn [mbind option_bind].
    rewrite Es. cbn [mbind option_bind]. unfold prop_data. destruct (header_vers fdt (doc_valid _ _ D)) as [-> _].
    cbn [mbind option_bind]. rewrite El. cbn [mbind option_bind]. pose proof (doc_version _ _ D).
    by rewrite (proj2 (Z.ltb_ge (vers fdt) 16)) by lia.
  - rewrite Enext, E4. destruct p2 as [|q p2]; [|done]. cbn [map app]. by rewrite next_prop_kids.
Qed.

Lemma first_property_at t : node_of root t ->
  fdt_first_property_offset fdt (d_off t) = Some (match d_props t with [] => - FDT_ERR_NOTFOUND | q :: _ => p_off q end).
Proof.
  intros (ts & ts1 & ts2 & l2 & D & E & E2)%(holds_node _ _ Hh). rewrite (fdt_first_property_eq _ _ D _ _ _ _ E), E2.
  destruct (d_props t) as [|q p2]; [|done]. cbn [map app]. by rewrite next_prop_kids.
Qed.
End GetProp.

(** * Children by name *)

(** A key matches a name when it is the name, or the part before the unit
    address when the key has none itself. *)
Definition name_match (key name : list Z) : bool :=
  bool_decide (take (length key) name = key) &&
  match name !! length key with
  | None => true
  | Some c => negb (bool_decide (64 ∈ key)) && (c =? 64)
  end.

Lemma sbi_memchr_none key : forall l c off, starts key l -> fits 8 c -> c ∉ key -> memchr_loop l c (length key) off = Some None.
Proof.
  induction key as [|x key IH]; intros l c off [r ->] Hc Hn; simpl; [by destruct r|].
  apply not_elem_of_cons in Hn as [Hx Hn]. unfold u8. rewrite (wrap_small 8 c Hc). rewrite (proj2 (Z.eqb_neq c x)) by done.
  apply IH; [by eexists|done|done].
Qed.

Lemma sbi_memchr_split a b c : forall off l, starts (a ++ c :: b) l -> fits 8 c -> c ∉ a ->
  memchr_loop l c (length (a ++ c :: b)) off = Some (Some (off + Z.of_nat (length a))).
Proof.
  induction a as [|x a IH]; intros off l [r ->] Hc Hn; simpl; unfold u8; rewrite (wrap_small 8 c Hc).
  - rewrite Z.eqb_refl. do 2 f_equal. lia.
  - apply not_elem_of_cons in Hn as [Hx Hn]. rewrite (proj2 (Z.eqb_neq c x)) by done.
    rewrite IH; [|by eexists|done|done]. do 2 f_equal. lia.
Qed.

(** The first occurrence of a byte. *)
Lemma elem_split_first (c : Z) l : c ∈ l -> exists a b, l = a ++ c :: b /\ c ∉ a.
Proof.
  induction l as [|x l IH]; intros Hl; [by apply elem_of_nil in Hl|]. destruct (decide (c = x)) as [->|Hn].
  - exists [], l. split; [done|]. apply not_elem_of_nil.
  - apply elem_of_cons in Hl as [?|Hl]; [done|]. destruct (IH Hl) as (a & b & -> & Ha). exists (x :: a), b.
    split; [done|]. apply not_elem_of_cons. done.
Qed.

Section Names.
Context (fdt : list Z) (root : dt) (Hh : holds fdt root).

Lemma probe_ok : exists r, fdt_ro_probe_ fdt = Some r /\ (r <? 0) = false.
Proof.
  destruct Hh as (ts & D & _). destruct (doc_probe _ _ D) as [E H0]. exists (total fdt). split; [done|]. lia.
Qed.

Lemma node_name t : node_of root t -> cstr (d_name t) (from fdt (soff fdt + d_off t + 4)) /\
  fdt_get_name fdt (d_off t) = Some (Some (soff fdt + d_off t + 4), Z.of_nat (length (d_name t))).
Proof.
  intros Ht. destruct (holds_node _ _ Hh t Ht) as (ts & ts1 & ts2 & l2 & D & E & E2).
  destruct (doc_split _ _ D _ _ _ E) as (o0 & o' & (H0 & H4 & H1 & H4' & H2 & Eo & Ht' & Hc) & Hr). rewrite <- Eo in *. split; [done|].
  destruct (header_soff fdt (doc_valid _ _ D)) as [Es Hso]. unfold fits in Hso. unfold fdt_get_name, fdt_offset_ptr_. rewrite Es.
  cbn [mbind option_bind]. destruct probe_ok as (r & -> & Hr0). cbn [mbind option_bind]. rewrite Hr0.
  unfold fdt_check_node_offset_, check_tag_offset. replace (d_off t <? 0) with false by lia. unfold FDT_TAGSIZE. rewrite H4. cbn [nz Z.eqb negb orb].
  rewrite Ht'. cbn [mbind option_bind]. rewrite Z.eqb_refl. replace (o' <? 0) with false by lia.
  destruct (header_vers fdt (doc_valid _ _ D)) as [-> _]. cbn [mbind option_bind]. pose proof (doc_version _ _ D).
  replace (vers fdt <? 16) with false by lia. cbn [mbind option_bind].
  assert (Hlen : Z.of_nat (length (d_name t)) < 2 ^ 31).
  { destruct Hc as [_ [r' Hc]]. pose proof (f_equal length Hc) as Hl. rewrite length_from, length_app in Hl by lia.
    pose proof (valid_length _ (doc_valid _ _ D)). lia. }
  rewrite (sbi_strlen_spec _ _ Hc) by lia. cbn [mbind option_bind]. by rewrite s32_small by lia.
Qed.

Lemma take_starts (key name l : list Z) : (length key <= length name)%nat -> starts name l -> starts (take (length key) name) l.
Proof. intros Hl [r ->]. exists (drop (length key) name ++ r). by rewrite app_assoc, take_drop. Qed.

Lemma fdt_nodename_eq_eq t key l : node_of root t -> starts key l ->
  fdt_nodename_eq_ fdt (d_off t) l (Z.of_nat (length key)) = Some (name_match key (d_name t)).
Proof.
  intros Ht Hl. destruct (node_name t Ht) as [[Hc [r Hr]] Eg]. unfold fdt_nodename_eq_, name_match. rewrite Eg. cbn [mbind option_bind].
  destruct (Z.ltb_spec (Z.of_nat (length (d_name t))) (Z.of_nat (length key))) as [Hlt|Hge].
  { rewrite bool_decide_eq_false_2; [done|]. intros E. apply (f_equal length) in E. rewrite length_take in E. lia. }
  rewrite Nat2Z.id. destruct (sbi_memcmp_starts (take (length key) (d_name t)) key (from fdt (soff fdt + d_off t + 4)) l) as (c & -> & Hcmp).
  { apply take_starts; [lia|]. rewrite Hr. by eexists. }
  { done. }
  { rewrite length_take. lia. }
  cbn [mbind option_bind]. rewrite Hcmp. destruct (bool_decide (take (length key) (d_name t) = key)) eqn:Eb; [|done]. cbn [negb andb].
  destruct (node_offset _ _ Hh t Ht) as [Ho _]. destruct Hh as (ts & D & _).
  destruct (header_soff fdt (doc_valid _ _ D)) as [_ Hso]. unfold fits in Hso.
  rewrite <- from_from, Hr, head_drop by lia.
  destruct (d_name t !! length key) as [c1|] eqn:El.
  - rewrite lookup_app_l by (by eapply lookup_lt_Some). rewrite El. cbn [mbind option_bind].
    pose proof (list_elem_of_lookup_2 _ _ _ El) as Hin. rewrite Forall_forall in Hc. destruct (Hc c1 Hin) as [_ Hnz].
    rewrite (proj2 (Z.eqb_neq c1 0)) by done. unfold sbi_memchr. destruct (decide (64 ∈ key)) as [Hi|Hi].
    + destruct (elem_split_first 64 key Hi) as (a & b & -> & Ha).
      rewrite (sbi_memchr_split a b 64) by (done || (unfold fits; lia)). by rewrite bool_decide_eq_true_2.
    + rewrite (sbi_memchr_none key) by (done || (unfold fits; lia)). by rewrite bool_decide_eq_false_2.
  - apply lookup_ge_None in El. rewrite lookup_app_r by lia. replace (length key - length (d_name t))%nat with O by lia. done.
Qed.
End Names.

Section ByName.
Context (fdt : list Z) (ts : list token) (D : document fdt ts).

(** The search for a child by name, over the nodes a walk visits; [hit] is
    the comparison of names. *)
Lemma subnode_loop_visits (hit : Z -> bool) (key l : list Z) lst : forall n ts1 o name ts2 d f,
  ts = ts1 ++ KBegin o name :: ts2 -> 0 <= d -> d + Z.of_nat (length ts2) < 2 ^ 31 - 1 -> visits ts2 d = (lst, f) ->
  (forall o1, (o1, 1) ∈ (o, d) :: lst -> fdt_nodename_eq_ fdt o1 l (Z.of_nat (length key)) = Some (hit o1)) ->
  (S (length lst) < n)%nat ->
  subnode_loop n fdt o d l (Z.of_nat (length key)) =
  Some (match List.find (fun '(o, d) => (d =? 1) && hit o) ((o, d) :: lst) with
        | Some (o, _) => o
        | None => if f.2 <? 0 then - FDT_ERR_NOTFOUND else f.1
        end).
Proof.
  induction lst as [|[o' d'] lst IH]; intros n ts1 o name ts2 d f E Hd Hb Ev Hhit Hn; (destruct n as [|n]; [simpl in Hn; lia|]).
  all: pose proof (scan_visits _ _ _ _ Hd Ev) as Hs; pose proof (visits_bound _ _ _ _ Hd Ev) as [_ He].
  all: pose proof (begin_offset _ _ D _ _ _ _ E) as [Ho _].
  all: cbn [subnode_loop List.find]; replace (0 <=? o) with true by lia; replace (0 <=? d) with true by lia; cbn [andb].
  all: assert (Hh : (if d =? 1 then fdt_nodename_eq_ fdt o l (Z.of_nat (length key)) else Some false) = Some ((d =? 1) && hit o))
    by (destruct (Z.eqb_spec d 1) as [->|]; [apply Hhit; left|done]).
  all: rewrite Hh; cbn [mbind option_bind]; destruct ((d =? 1) && hit o); [done|].
  all: rewrite (fdt_next_node_scan _ _ D _ _ _ _ _ E) by (simpl; lia).
  - rewrite Hs. cbn [mbind option_bind default from_option id]. destruct n as [|n]; [simpl in Hn; lia|]. cbn [subnode_loop].
    destruct f as [f1 f2]. simpl in *. unfold ended in He. simpl in He. destruct (Z.ltb_spec f2 0).
    + replace (0 <=? f2) with false by lia. by rewrite andb_false_r.
    + by replace (0 <=? f1) with false by lia.
  - destruct Hs as (Hd' & -> & ts1' & name' & ts3 & E3 & Ev3). cbn [mbind option_bind default from_option id].
    assert (E' : ts = (ts1 ++ KBegin o name :: ts1') ++ KBegin o' name' :: ts3) by (rewrite E, E3, <- app_assoc; done).
    apply (IH n _ o' name' ts3 d' f E'); [lia| |done| |simpl in Hn; lia].
    + rewrite E3, length_app in Hb. simpl in Hb. lia.
    + intros o1 Ho1. apply Hhit. by right.
Qed.
End ByName.

Section Paths.
Context (fdt : list Z) (root : dt) (Hh : holds fdt root).

(** Only the children are at depth 1. *)
Lemma find_pres hit kids : List.find (fun '(o, d) => (d =? 1) && hit o) (pres 1 kids) =
  (fun k => (d_off k, 1)) <$> List.find (fun k => hit (d_off k)) kids.
Proof.
  induction kids as [|[o name props kids' oe] kids IH]; [done|]. simpl. destruct (hit o); [done|].
  assert (Hno : forall l rest, Forall (fun p : Z * Z => 2 <= p.2) l ->
    List.find (fun '(o, d) => (d =? 1) && hit o) (l ++ rest) = List.find (fun '(o, d) => (d =? 1) && hit o) rest).
  { induction 1 as [|[o' d'] l Hd _ IHl]; simpl; [done|]. simpl in Hd. by replace (d' =? 1) with false by lia. }
  rewrite Hno; [done|]. apply Forall_flat_map, Forall_true. intros k. apply pre_deep.
Qed.

Lemma pres_elem o kids : (o, 1) ∈ pres 1 kids -> exists k, k ∈ kids /\ o = d_off k.
Proof.
  unfold pres. rewrite list_elem_of_In, in_flat_map. intros (k & Hk & Ho). exists k. split; [by apply list_elem_of_In|].
  destruct k as [o' name props kids' oe]. simpl in Ho. destruct Ho as [[= ->]|Ho]; [done|]. exfalso.
  apply in_flat_map in Ho as (k' & _ & Hk'). pose proof (pre_deep k' 2) as Hd. rewrite Forall_forall in Hd.
  specialize (Hd (o, 1) ltac:(by apply list_elem_of_In)). simpl in Hd. lia.
Qed.

Definition kid_named (key : list Z) (t : dt) : option dt := List.find (fun k => name_match key (d_name k)) (d_kids t).

Lemma kid_named_in key t k : kid_named key t = Some k -> k ∈ d_kids t.
Proof. intros [Hi _]%find_some. by apply list_elem_of_In. Qed.

Lemma fdt_subnode_offset_namelen_eq t key l : node_of root t -> starts key l ->
  fdt_subnode_offset_namelen fdt (d_off t) l (Z.of_nat (length key)) =
  Some (match kid_named key t with Some k => d_off k | None => - FDT_ERR_NOTFOUND end).
Proof.
  intros Ht Hl. unfold fdt_subnode_offset_namelen, FDT_RO_PROBE. destruct (probe_ok _ _ Hh) as (r & -> & Hr0). cbn [mbind option_bind]. rewrite Hr0.
  destruct (holds_node _ _ Hh t Ht) as (ts & ts1 & ts2 & l2 & D & E & E2).
  destruct (visits ts2 0) as [lst f] eqn:Ev. pose proof (begin_offset _ _ D _ _ _ _ E) as (Ho & _ & Hlen).
  pose proof (fdt_length _ _ Hh). pose proof (visits_bound _ _ _ _ (Z.le_refl 0) Ev) as [Hvl _].
  pose proof Ev as Ev'. rewrite <- visits_strip, E2, visits_props, visits_flats in Ev' by lia. simpl in Ev'. injection Ev' as Elst Ef.
  rewrite app_nil_r in Elst. set (hit o := default false (fdt_nodename_eq_ fdt o l (Z.of_nat (length key)))).
  assert (Hhit : forall k, k ∈ d_kids t -> fdt_nodename_eq_ fdt (d_off k) l (Z.of_nat (length key)) = Some (name_match key (d_name k))).
  { intros k Hk. apply (fdt_nodename_eq_eq _ _ Hh); [|done]. by apply (node_of_kid _ t). }
  rewrite (subnode_loop_visits _ _ D hit key l lst (S (length fdt)) ts1 _ _ ts2 0 f E ltac:(lia) ltac:(lia) Ev); [|..|lia].
  - simpl. rewrite <- Elst, find_pres, <- Ef. unfold kid_named. f_equal.
    assert (Hf : forall kids, (forall k, k ∈ kids -> k ∈ d_kids t) ->
      List.find (fun k => hit (d_off k)) kids = List.find (fun k => name_match key (d_name k)) kids).
    { induction kids as [|k kids IH]; intros Hk; [done|]. simpl. unfold hit at 1. rewrite Hhit by (apply Hk; left). simpl.
      destruct (name_match key (d_name k)); [done|]. apply IH. intros k' Hk'. apply Hk. by right. }
    rewrite Hf by done. by destruct (List.find _ (d_kids t)).
  - intros o Hin. apply elem_of_cons in Hin as [[=]|Hin]. rewrite <- Elst in Hin. apply pres_elem in Hin as (k & Hk & ->).
    unfold hit. by rewrite Hhit.
Qed.

(** ** Absolute paths *)

Definition path_bytes (segs : list (list Z)) : list Z := concat (map (cons 47) segs).
Definition seg_ok (s : list Z) : Prop := s <> [] /\ Forall (fun c => fits 8 c /\ c <> 0 /\ c <> 47) s.

Fixpoint lookup_path (t : dt) (segs : list (list Z)) : option dt :=
  match segs with
  | [] => Some t
  | s :: segs => k ← kid_named s t; lookup_path k segs
  end.

(** A part of a path ends at the next slash or with the path. *)
Lemma memchr_seg s segs tl : seg_ok s ->
  exists q, sbi_memchr (s ++ path_bytes segs ++ tl) 47 (length (s ++ path_bytes segs)) = Some q /\
    default (Z.of_nat (length (s ++ path_bytes segs))) q = Z.of_nat (length s).
Proof.
  intros [_ Hs]. assert (Hn : 47 ∉ s) by (intros Hin; rewrite Forall_forall in Hs; destruct (Hs _ Hin) as (_ & _ & ?); done).
  unfold sbi_memchr. destruct segs as [|s' segs].
  - exists None. change (path_bytes []) with (@nil Z). rewrite app_nil_r. split; [|done].
    apply sbi_memchr_none; [by eexists|unfold fits; lia|done].
  - exists (Some (Z.of_nat (length s))). split; [|done].
    change (path_bytes (s' :: segs)) with (47 :: s' ++ path_bytes segs).
    rewrite (sbi_memchr_split s (s' ++ path_bytes segs) 47); [done| |unfold fits; lia|done].
    exists tl. by rewrite <- app_assoc.
Qed.

Lemma path_loop_eq segs : forall n t tl, node_of root t -> Forall seg_ok segs -> (2 * length segs < n)%nat ->
  path_loop n fdt (path_bytes segs ++ tl) (Z.of_nat (length (path_bytes segs))) (d_off t) =
  Some (match lookup_path t segs with Some k => d_off k | None => - FDT_ERR_NOTFOUND end).
Proof.
  induction segs as [|s segs IH]; intros n t tl Ht Hs Hn; (destruct n as [|n]; [simpl in Hn; lia|]); [done|].
  apply Forall_cons in Hs as [Hseg Hs]. pose proof Hseg as [Hne Hc]. destruct n as [|n]; [simpl in Hn; lia|].
  change (path_bytes (s :: segs)) with (47 :: s ++ path_bytes segs). set (rest := s ++ path_bytes segs).
  assert (Hlen : (0 < length rest)%nat) by (unfold rest; rewrite length_app; destruct s; [done|simpl; lia]).
  cbn [path_loop app length]. rewrite (proj2 (Z.leb_gt (Z.of_nat (S (length rest))) 0)) by lia. cbn [head mbind option_bind].
  rewrite (proj2 (Z.eqb_neq (Z.of_nat (S (length rest))) 1)) by lia. cbn [Z.eqb Pos.eqb tail].
  replace (Z.of_nat (S (length rest)) - 1) with (Z.of_nat (length rest)) by lia. rewrite (proj2 (Z.leb_gt (Z.of_nat (length rest)) 0)) by lia.
  assert (Hhd : exists c, head (rest ++ tl) = Some c /\ c <> 47).
  { unfold rest. destruct s as [|c s]; [done|]. exists c. split; [done|]. apply Forall_cons in Hc as [(_ & _ & ?) _]. done. }
  destruct Hhd as (c & -> & Hc47). cbn [mbind option_bind]. rewrite (proj2 (Z.eqb_neq c 47)) by done. rewrite Nat2Z.id.
  destruct (memchr_seg s segs tl Hseg) as (q & Eq & Ek). unfold rest. rewrite <- app_assoc, Eq. cbn [mbind option_bind]. rewrite Ek.
  rewrite (fdt_subnode_offset_namelen_eq t s) by (done || by eexists). cbn [mbind option_bind lookup_path].
  destruct (kid_named s t) as [k|] eqn:Ekid; [|done]. cbn [mbind option_bind].
  assert (Hk : node_of root k) by (apply (node_of_kid root t); [done|]; by eapply kid_named_in).
  destruct (node_offset _ _ Hh k Hk) as [Ho _]. replace (d_off k <? 0) with false by lia. rewrite Nat2Z.id, drop_app_length.
  rewrite length_app. replace (Z.of_nat (length s + length (path_bytes segs)) - Z.of_nat (length s)) with (Z.of_nat (length (path_bytes segs))) by lia.
  apply IH; [done|done|simpl in Hn; lia].
Qed.

Lemma path_length segs : Forall seg_ok segs -> (2 * length segs <= length (path_bytes segs))%nat.
Proof.
  induction 1 as [|s segs [Hne _] _ IH]; [done|]. change (path_bytes (s :: segs)) with (47 :: s ++ path_bytes segs).
  cbn [length]. rewrite length_app. destruct s; [done|]. simpl. simpl in IH. lia.
Qed.

Lemma path_chars segs : Forall seg_ok segs -> Forall (fun c => fits 8 c /\ c <> 0) (path_bytes segs).
Proof.
  induction 1 as [|s segs [_ Hs] _ IH]; [constructor|]. change (path_bytes (s :: segs)) with (47 :: s ++ path_bytes segs).
  constructor; [unfold fits; lia|]. apply Forall_app. split; [|done]. eapply Forall_impl; [exact Hs|]. simpl. intros c (? & ? & _). done.
Qed.

(** Looking up an absolute path needs no alias. *)
Lemma fdt_path_offset_eq n segs l : d_off root = 0 -> segs <> [] -> Forall seg_ok segs -> starts (path_bytes segs ++ [0]) l ->
  Z.of_nat (length (path_bytes segs)) < 2 ^ 31 ->
  fdt_path_offset n fdt l = Some (match lookup_path root segs with Some k => d_off k | None => - FDT_ERR_NOTFOUND end).
Proof.
  intros H0 Hne Hs [r ->] Hlen. rewrite <- app_assoc. cbn [app]. unfold fdt_path_offset.
  rewrite (sbi_strlen_spec (path_bytes segs)); [|split; [by apply path_chars|by eexists]|lia]. cbn [mbind option_bind].
  rewrite s32_small by lia. pose proof (path_length segs Hs) as Hpl.
  assert (Hhd : head (path_bytes segs ++ 0 :: r) = Some 47) by (destruct segs; [done|reflexivity]).
  assert (E : path_loop (S (length (path_bytes segs ++ 0 :: r))) fdt (path_bytes segs ++ 0 :: r) (Z.of_nat (length (path_bytes segs))) 0 =
    Some (match lookup_path root segs with Some k => d_off k | None => - FDT_ERR_NOTFOUND end)).
  { pose proof (path_loop_eq segs (S (length (path_bytes segs ++ 0 :: r))) root (0 :: r) (node_self _) Hs) as E. rewrite H0 in E.
    apply E. rewrite length_app. lia. }
  destruct n as [|n]; cbn [fdt_path_offset_namelen]; unfold FDT_RO_PROBE; destruct (probe_ok _ _ Hh) as (r' & -> & Hr0);
    cbn [mbind option_bind]; rewrite Hr0, Hhd; exact E.
Qed.

Lemma fdt_path_offset_root n l : starts [47; 0] l -> fdt_path_offset n fdt l = Some 0.
Proof.
  intros [r ->]. unfold fdt_path_offset. rewrite (sbi_strlen_spec [47]); [|split; [repeat constructor; done|by exists r]|simpl; lia].
  cbn [mbind option_bind]. destruct n as [|n]; cbn [fdt_path_offset_namelen]; unfold FDT_RO_PROBE; destruct (probe_ok _ _ Hh) as (r' & -> & Hr0);
    cbn [mbind option_bind]; rewrite Hr0; done.
Qed.
End Paths.

(** * Searching the whole tree *)

(** The offsets of the nodes that open in a token sequence. *)
Fixpoint opens (ts : list token) : list Z :=
  match ts with
  | [] => []
  | KBegin o _ :: ts => o :: opens ts
  | _ :: ts => opens ts
  end.

Lemma opens_strip ts : opens (strip ts) = opens ts.
Proof. induction ts as [|[] ts IH]; simpl; by rewrite ?IH. Qed.

Lemma opens_app l1 l2 : opens (l1 ++ l2) = opens l1 ++ opens l2.
Proof. induction l1 as [|[] l1 IH]; simpl; by rewrite ?IH. Qed.

Lemma scan_opens ts : match opens ts with
  | [] => scan ts None = (- FDT_ERR_NOTFOUND, None)
  | o :: l => scan ts None = (o, None) /\ exists ts1 name ts2, ts = ts1 ++ KBegin o name :: ts2 /\ opens ts2 = l
  end.
Proof.
  induction ts as [|[o name|o|o name value|] ts IH]; simpl; [done|split; [done|]; by exists [], name, ts|..].
  all: destruct (opens ts) as [|o' l]; [done|]; destruct IH as (-> & ts1 & name' & ts2 & -> & <-); split; [done|].
  - by exists (KEnd o :: ts1), name', ts2.
  - by exists (KProp o name value :: ts1), name', ts2.
  - by exists (KNop :: ts1), name', ts2.
Qed.

(** The nodes of a tree in document order. *)
Fixpoint nodes (t : dt) : list dt := t :: flat_map nodes (d_kids t).

Lemma opens_flat t : opens (flat t) = map d_off (nodes t).
Proof.
  induction t as [o name props kids oe IH] using dt_forall. simpl. f_equal. rewrite !opens_app.
  assert (Hp : opens (map prop_tok props) = []) by (by induction props). rewrite Hp. simpl. rewrite app_nil_r.
  induction IH as [|k kids Hk _ IHk]; simpl; [done|]. rewrite opens_app, map_app. by rewrite Hk, IHk.
Qed.

Lemma nodes_node t t' : t' ∈ nodes t -> node_of t t'.
Proof.
  induction t as [o name props kids oe IH] using dt_forall. simpl. intros [->|Hin]%elem_of_cons; [constructor|].
  apply list_elem_of_In, in_flat_map in Hin as (k & Hk & Hin). apply list_elem_of_In in Hk, Hin.
  apply (node_below _ k); [done|]. rewrite Forall_forall in IH. by apply IH.
Qed.

Lemma node_nodes t t' : node_of t t' -> t' ∈ nodes t.
Proof.
  induction 1 as [t|t k t' Hk _ IH]; destruct t as [o name props kids oe]; cbn [nodes d_kids] in *; [by left|]. right.
  apply list_elem_of_In, in_flat_map. exists k. split; by apply list_elem_of_In.
Qed.

Section Scan.
Context (fdt : list Z) (ts : list token) (D : document fdt ts).

(** The first node at which a test returns decides. *)
Fixpoint first_hit (test : Z -> option Z) (l : list Z) : Z :=
  match l with
  | [] => - FDT_ERR_NOTFOUND
  | o :: l => match test o with Some v => v | None => first_hit test l end
  end.

Lemma scan_nodes_opens test (g : Z -> option Z) l : forall n ts1 o name ts2,
  ts = ts1 ++ KBegin o name :: ts2 -> opens ts2 = l -> (forall o', o' ∈ o :: l -> test o' = Some (g o')) -> (S (length l) < n)%nat ->
  scan_nodes n fdt o test = Some (first_hit g (o :: l)).
Proof.
  induction l as [|o' l IH]; intros n ts1 o name ts2 E Eo Hg Hn; (destruct n as [|n]; [simpl in Hn; lia|]).
  all: pose proof (begin_offset _ _ D _ _ _ _ E) as [Ho _]; pose proof (scan_opens ts2) as Hs; rewrite Eo in Hs.
  all: cbn [scan_nodes first_hit]; replace (o <? 0) with false by lia; rewrite Hg by left; cbn [mbind option_bind].
  all: destruct (g o) as [v|]; [done|]; rewrite (fdt_next_node_scan _ _ D _ _ _ _ _ E) by done.
  - rewrite Hs. cbn [mbind option_bind]. destruct n as [|n]; [simpl in Hn; lia|]. done.
  - destruct Hs as (-> & ts1' & name' & ts3 & E3 & Eo3). cbn [mbind option_bind].
    apply (IH n (ts1 ++ KBegin o name :: ts1') o' name' ts3); [by rewrite E, E3, <- app_assoc|done| |simpl in Hn; lia].
    intros o1 Ho1. apply Hg. by right.
Qed.

Lemma opens_length l : (length (opens l) <= length l)%nat.
Proof. induction l as [|[] l IH]; simpl; lia. Qed.

Lemma scan_from_start test (g : Z -> option Z) : (forall o, o ∈ opens ts -> test o = Some (g o)) ->
  scan_from fdt (-1) test = Some (first_hit g (opens ts)).
Proof.
  intros Hg. unfold scan_from. rewrite (fdt_next_node_start _ _ D) by done. cbn [mbind option_bind].
  pose proof (scan_opens ts) as Hs. destruct (opens ts) as [|o l] eqn:Eo; [by rewrite Hs|].
  destruct Hs as (-> & ts1 & name & ts2 & E & Eo2). cbn [mbind option_bind].
  apply (scan_nodes_opens test g l _ ts1 o name ts2 E Eo2 Hg). destruct (begin_offset _ _ D _ _ _ _ E) as (Ho & _ & Hl).
  pose proof (opens_length ts2). rewrite Eo2 in *. lia.
Qed.

Lemma opens_split l1 o l : forall ts', opens ts' = l1 ++ o :: l -> exists ts1 name ts2, ts' = ts1 ++ KBegin o name :: ts2 /\ opens ts2 = l.
Proof.
  intros ts'. revert l1. induction ts' as [|k ts' IH]; intros l1 E; [by destruct l1|].
  destruct k as [o1 name|o1|o1 name value|]; cbn [opens] in E; [destruct l1 as [|o2 l1]; [injection E as -> <-; by exists [], name, ts'|injection E as _ E]|..].
  all: destruct (IH _ E) as (ts1 & name' & ts2 & -> & E2); eexists (_ :: ts1), name', ts2; split; [reflexivity|done].
Qed.

Lemma scan_from_after test (g : Z -> option Z) l1 o l : opens ts = l1 ++ o :: l -> (forall o', o' ∈ l -> test o' = Some (g o')) ->
  scan_from fdt o test = Some (first_hit g l).
Proof.
  intros Eo Hg. destruct (opens_split _ _ _ _ Eo) as (ts1 & name & ts2 & E & Eo2). unfold scan_from.
  rewrite (fdt_next_node_scan _ _ D _ _ _ _ _ E) by done. pose proof (scan_opens ts2) as Hs. rewrite Eo2 in Hs.
  destruct l as [|o' l]; [by rewrite Hs|]. destruct Hs as (-> & ts1' & name' & ts3 & E3 & Eo3). cbn [mbind option_bind].
  assert (E' : ts = (ts1 ++ KBegin o name :: ts1') ++ KBegin o' name' :: ts3) by (by rewrite E, E3, <- app_assoc).
  apply (scan_nodes_opens test g l _ _ o' name' ts3 E' Eo3 Hg). destruct (begin_offset _ _ D _ _ _ _ E') as (Ho & _ & Hl).
  pose proof (opens_length ts3). rewrite Eo3 in *. lia.
Qed.
End Scan.

(** * Lists of strings *)

Lemma sbi_memcmp_cstr key : forall s rk r, Forall (fun c => c <> 0) key -> Forall (fun c => c <> 0) s ->
  exists c, sbi_memcmp (key ++ 0 :: rk) (s ++ 0 :: r) (length key + 1) = Some c /\ (c =? 0) = bool_decide (s = key).
Proof.
  induction key as [|x key IH]; intros [|y s] rk r Hk Hs; simpl.
  - exists 0. split; [by destruct rk|]. done.
  - apply Forall_cons in Hs as [Hy _]. rewrite (proj2 (Z.eqb_neq 0 y)) by done. eexists. split; [reflexivity|].
    apply Z.eqb_neq. lia.
  - apply Forall_cons in Hk as [Hx _]. rewrite (proj2 (Z.eqb_neq x 0)) by done. eexists. split; [reflexivity|].
    apply Z.eqb_neq. lia.
  - apply Forall_cons in Hk as [Hx Hk]. apply Forall_cons in Hs as [Hy Hs]. destruct (Z.eqb_spec x y) as [->|Hn].
    + destruct (IH s rk r Hk Hs) as (c & -> & Hc). exists c. split; [done|]. rewrite Hc. apply bool_decide_ext.
      split; [by intros ->|by intros [= ->]].
    + eexists. split; [reflexivity|]. rewrite bool_decide_eq_false_2 by (by intros [= -> _]). apply Z.eqb_neq. lia.
Qed.

(** The value of a property that is a list of strings. *)
Definition string_list (strs : list (list Z)) : list Z := concat (map (fun s => s ++ [0]) strs).

Lemma string_list_length s strs : s ∈ strs -> (length s < length (string_list strs))%nat.
Proof.
  unfold string_list. induction strs as [|s' strs IH]; [by intros ?%elem_of_nil|].
  intros [->|H]%elem_of_cons; simpl; rewrite !length_app; simpl; [lia|]. specialize (IH H). lia.
Qed.

Lemma stringlist_contains_eq key rk strs : forall n r,
  key <> [] -> Forall (fun c => c <> 0) key -> Forall (Forall (fun c => c <> 0)) strs ->
  (length (string_list strs) < n)%nat ->
  stringlist_contains_loop n (string_list strs ++ r) (Z.of_nat (length (string_list strs))) (key ++ 0 :: rk) (Z.of_nat (length key)) =
  Some (if bool_decide (key ∈ strs) then 1 else 0).
Proof.
  induction strs as [|s strs IH]; intros n r Hne Hk Hs Hn; (destruct n as [|n]; [simpl in Hn; lia|]).
  { cbn [stringlist_contains_loop]. change (length (string_list [])) with 0%nat. destruct key as [|x key]; [done|].
    rewrite (proj2 (Z.leb_gt (Z.of_nat (length (x :: key))) (Z.of_nat 0))) by (simpl; lia).
    rewrite bool_decide_eq_false_2; [done|]. apply not_elem_of_nil. }
  apply Forall_cons in Hs as [Hs Hss]. cbn [stringlist_contains_loop].
  destruct (Z.leb_spec (Z.of_nat (length key)) (Z.of_nat (length (string_list (s :: strs))))) as [Hle|Hgt].
  2:{ rewrite bool_decide_eq_false_2; [done|]. intros Hin. pose proof (string_list_length key (s :: strs) Hin). lia. }
  change (string_list (s :: strs)) with ((s ++ [0]) ++ string_list strs) in *. rewrite <- !app_assoc in *. cbn [app] in *.
  replace (Z.to_nat (Z.of_nat (length key) + 1)) with (length key + 1)%nat by lia.
  destruct (sbi_memcmp_cstr key s rk (string_list strs ++ r) Hk Hs) as (c & -> & Hc). cbn [mbind option_bind]. rewrite Hc.
  destruct (decide (s = key)) as [->|Hd].
  { rewrite !bool_decide_eq_true_2 by (done || left). done. }
  rewrite bool_decide_eq_false_2 by done. unfold sbi_memchr. rewrite Nat2Z.id.
  rewrite (sbi_memchr_split s (string_list strs) 0); [|exists r; by rewrite <- app_assoc|unfold fits; lia|].
  2:{ intros Hin. rewrite Forall_forall in Hs. by destruct (Hs _ Hin). }
  cbn [mbind option_bind]. replace (Z.to_nat (0 + Z.of_nat (length s) + 1)) with (length s + 1)%nat by lia.
  assert (Ed : drop (length s + 1) (s ++ 0 :: string_list strs ++ r) = string_list strs ++ r).
  { rewrite <- drop_drop, drop_app_length. done. }
  rewrite Ed, length_app. cbn [length].
  replace (Z.of_nat (length s + S (length (string_list strs))) - (0 + Z.of_nat (length s) + 1)) with (Z.of_nat (length (string_list strs))) by lia.
  rewrite IH; [|done..|rewrite length_app in Hn; simpl in Hn; lia]. f_equal.
  rewrite (bool_decide_ext (key ∈ s :: strs) (key ∈ strs)); [done|]. rewrite elem_of_cons. naive_solver.
Qed.

Lemma fdt_stringlist_contains_eq key l strs r : key <> [] -> cstr key l -> Z.of_nat (length key) < 2 ^ 31 ->
  Forall (Forall (fun c => c <> 0)) strs ->
  fdt_stringlist_contains (string_list strs ++ r) (Z.of_nat (length (string_list strs))) l =
  Some (if bool_decide (key ∈ strs) then 1 else 0).
Proof.
  intros Hne Hc Hk Hs. unfold fdt_stringlist_contains. rewrite (sbi_strlen_spec key l Hc) by lia. cbn [mbind option_bind].
  rewrite s32_small by lia. destruct Hc as [Hc [rk ->]]. apply stringlist_contains_eq; [done| |done|lia].
  eapply Forall_impl; [exact Hc|]. simpl. intros c [_ ?]. done.
Qed.

(** The strings of a value. *)
Fixpoint split0 (v : list Z) : list (list Z) :=
  match v with
  | [] => []
  | c :: v => if c =? 0 then [] :: split0 v else match split0 v with [] => [[c]] | s :: l => (c :: s) :: l end
  end.

Lemma split0_nonzero v : Forall (Forall (fun c => c <> 0)) (split0 v).
Proof.
  induction v as [|c v IH]; simpl; [constructor|]. destruct (Z.eqb_spec c 0); [by constructor|].
  destruct (split0 v) as [|s l]; [by repeat constructor|]. apply Forall_cons in IH as [Hs Hl]. by repeat constructor.
Qed.

Lemma split0_string_list v : last v = Some 0 \/ v = [] -> string_list (split0 v) = v.
Proof.
  induction v as [|c v IH]; [done|]. intros [Hl|?]; [|done]. simpl. destruct v as [|c' v].
  { injection Hl as ->. done. }
  rewrite last_cons_cons in Hl. specialize (IH (or_introl Hl)). destruct (Z.eqb_spec c 0) as [->|].
  - change (string_list ([] :: split0 (c' :: v))) with (0 :: string_list (split0 (c' :: v))). by rewrite IH.
  - destruct (split0 (c' :: v)) as [|s l]; [done|].
    change (string_list ((c :: s) :: l)) with (c :: string_list (s :: l)). by rewrite IH.
Qed.

Lemma chars_cstring s r : Forall (fun c => c <> 0) (chars s) -> cstr (chars s) (cstring s ++ r).
Proof.
  intros Hs. split; [|exists r; unfold cstring; by rewrite <- app_assoc].
  assert (Hf : Forall (fits 8) (chars s)).
  { clear. induction s as [|a s IH]; simpl; [constructor|]. constructor; [|done]. destruct a as [[] [] [] [] [] [] [] []]; unfold fits; simpl; lia. }
  rewrite Forall_forall in *. intros c Hc. split; auto.
Qed.

Section Search.
Context (fdt : list Z) (root : dt) (Hh : holds fdt root).

(** A property named by a literal. *)
Lemma fdt_getprop_lit s t : node_of root t -> forallb nz (chars s) = true -> Z.of_nat (length (chars s)) < 2 ^ 31 ->
  fdt_getprop fdt (d_off t) (cstring s) =
  Some (match find_prop (chars s) (d_props t) with
        | Some p => (Some (val_pos fdt p), Z.of_nat (length (p_val p)))
        | None => (None, - FDT_ERR_NOTFOUND)
        end).
Proof.
  intros Ht Hs Hl. apply (fdt_getprop_eq _ _ Hh); [done| |done]. rewrite <- (app_nil_r (cstring _)). apply chars_cstring.
  rewrite forallb_forall in Hs. apply Forall_forall. intros c Hc. apply nz_true, Hs. by apply list_elem_of_In.
Qed.

(** A search that starts after [start] goes over the nodes [l]. *)
Definition search_from (start : Z) (l : list dt) : Prop :=
  (start = -1 /\ l = nodes root) \/ exists l1 t, nodes root = l1 ++ t :: l /\ start = d_off t.

Lemma search_from_node start l t : search_from start l -> t ∈ l -> node_of root t.
Proof.
  intros Hs Ht. apply nodes_node. destruct Hs as [[_ ->]|(l1 & t0 & -> & _)]; [done|]. apply elem_of_app. right. by right.
Qed.

(** The search for the first node that satisfies a test. *)
Lemma scan_from_tree start l test (g : dt -> option Z) : search_from start l -> (forall t, node_of root t -> test (d_off t) = Some (g t)) ->
  scan_from fdt start test =
  Some (match List.find (fun t => match g t with Some _ => true | None => false end) l with
        | Some t => default 0 (g t)
        | None => - FDT_ERR_NOTFOUND
        end).
Proof.
  intros Hst Hg. pose proof (fun t => search_from_node start l t Hst) as Hn. destruct Hh as (ts & D & Es).
  assert (E : scan_from fdt start test = Some (first_hit (fun o => default None (test o)) (map d_off l))).
  { assert (Ht : forall o, o ∈ map d_off l -> test o = Some (default None (test o))).
    { intros o (t & -> & Ht)%list_elem_of_fmap. by rewrite Hg by (by apply Hn). }
    assert (Eo : opens ts = map d_off (nodes root)) by (by rewrite <- opens_strip, Es, opens_flat).
    destruct Hst as [[-> ->]|(l1 & t0 & En & ->)].
    - rewrite (scan_from_start _ _ D test (fun o => default None (test o))); rewrite Eo; done.
    - rewrite En, map_app in Eo. by apply (scan_from_after _ _ D _ _ _ _ _ Eo). }
  rewrite E. f_equal. clear E Hst. induction l as [|t l IH]; [done|].
  cbn [map first_hit List.find]. rewrite Hg by (apply Hn; left). cbn [default from_option id].
  destruct (g t) eqn:Eg; [cbn; by rewrite Eg|]. apply IH. intros t' Ht'. apply Hn. by right.
Qed.

(** ** Compatible devices *)

Definition compat (key : list Z) (t : dt) : bool :=
  match find_prop (chars "compatible") (d_props t) with
  | Some p => bool_decide (key ∈ split0 (p_val p))
  | None => false
  end.

(** The compatible property of every node is a list of strings. *)
Definition compat_lists : Prop := forall t p, node_of root t ->
  find_prop (chars "compatible") (d_props t) = Some p -> last (p_val p) = Some 0 \/ p_val p = [].

Lemma fdt_node_check_compatible_eq t key l : compat_lists -> node_of root t -> key <> [] -> cstr key l ->
  Z.of_nat (length key) < 2 ^ 31 ->
  fdt_node_check_compatible fdt (d_off t) l =
  Some (match find_prop (chars "compatible") (d_props t) with
        | Some _ => if compat key t then 0 else 1
        | None => - FDT_ERR_NOTFOUND
        end).
Proof.
  intros Hc Ht Hne Hl Hk. unfold fdt_node_check_compatible.
  rewrite (fdt_getprop_lit "compatible") by done.
  cbn [mbind option_bind]. unfold compat. destruct (find_prop _ _) as [p|] eqn:Ef; [|done].
  pose proof (Hc t p Ht Ef) as Hp. pose proof (find_prop_in _ _ _ Ef) as [Hin _]. destruct (holds_prop _ _ Hh t p Ht Hin) as (_ & [r Hr] & _).
  rewrite Hr, <- (split0_string_list (p_val p)) at 1 by done. rewrite <- (split0_string_list (p_val p)) at 2 by done.
  rewrite (fdt_stringlist_contains_eq key l) by (done || apply split0_nonzero). cbn [mbind option_bind].
  by destruct (bool_decide _).
Qed.

Lemma fdt_node_offset_by_compatible_eq start rest key l : search_from start rest ->
  compat_lists -> key <> [] -> cstr key l -> Z.of_nat (length key) < 2 ^ 31 ->
  fdt_node_offset_by_compatible fdt start l =
  Some (match List.find (compat key) rest with Some t => d_off t | None => - FDT_ERR_NOTFOUND end).
Proof.
  intros Hst Hc Hne Hl Hk. unfold fdt_node_offset_by_compatible, FDT_RO_PROBE. destruct (probe_ok _ _ Hh) as (r & -> & Hr0).
  cbn [mbind option_bind]. rewrite Hr0.
  rewrite (scan_from_tree _ _ _ (fun t => if compat key t then Some (d_off t) else None) Hst).
  - f_equal. clear Hst. induction rest as [|t l0 IH]; [done|]. simpl. destruct (compat key t) eqn:Et; [by rewrite Et|done].
  - intros t Ht. rewrite (fdt_node_check_compatible_eq t key l) by done. cbn [mbind option_bind]. unfold compat.
    destruct (find_prop _ _); [|done]. by destruct (bool_decide _).
Qed.

(** ** Phandles *)

Definition word_prop (name : string) (t : dt) : option Z :=
  match find_prop (chars name) (d_props t) with
  | Some p => if Z.of_nat (length (p_val p)) =? 4 then fdt32_ld (p_val p) else None
  | None => None
  end.
Definition phandle (t : dt) : Z :=
  match word_prop "phandle" t with Some v => v | None => default 0 (word_prop "linux,phandle" t) end.

Lemma fdt32_ld_starts v l : length v = 4%nat -> starts v l -> fdt32_ld l = fdt32_ld v.
Proof. intros Hl [r ->]. by destruct v as [|? [|? [|? [|? [|]]]]]. Qed.

Lemma fdt_get_phandle_eq t : node_of root t -> fdt_get_phandle fdt (d_off t) = Some (phandle t).
Proof.
  intros Ht. unfold fdt_get_phandle, phandle, word_prop.
  assert (Hload : forall key p, find_prop key (d_props t) = Some p -> length (p_val p) = 4%nat ->
    exists v, fdt32_ld (from fdt (val_pos fdt p)) = Some v /\ fdt32_ld (p_val p) = Some v).
  { intros key p Ef Hl. pose proof (find_prop_in _ _ _ Ef) as [Hin _]. destruct (holds_prop _ _ Hh t p Ht Hin) as (_ & Hs & _).
    rewrite (fdt32_ld_starts _ _ Hl Hs). destruct (p_val p) as [|? [|? [|? [|? [|]]]]]; try done. by eexists. }
  rewrite (fdt_getprop_lit "phandle") by done.
  cbn [mbind option_bind]. destruct (find_prop (chars "phandle") _) as [p|] eqn:Ef.
  1: destruct (Z.eqb_spec (Z.of_nat (length (p_val p))) 4) as [E4|E4];
    [destruct (Hload _ _ Ef ltac:(lia)) as (v & -> & ->); done|].
  all: rewrite (fdt_getprop_lit "linux,phandle") by done.
  all: cbn [mbind option_bind]; destruct (find_prop (chars "linux,phandle") _) as [p'|] eqn:Ef'; [|done].
  all: destruct (Z.eqb_spec (Z.of_nat (length (p_val p'))) 4) as [E4'|E4']; [|done].
  all: destruct (Hload _ _ Ef' ltac:(lia)) as (v & -> & ->); done.
Qed.

Lemma fdt_node_offset_by_phandle_eq ph : ph <> 0 -> ph <> 4294967295 ->
  fdt_node_offset_by_phandle fdt ph =
  Some (match List.find (fun t => phandle t =? ph) (nodes root) with Some t => d_off t | None => - FDT_ERR_NOTFOUND end).
Proof.
  intros H0 H1. unfold fdt_node_offset_by_phandle, FDT_RO_PROBE.
  rewrite (proj2 (Z.eqb_neq ph 0)), (proj2 (Z.eqb_neq ph 4294967295)) by done. cbn [orb].
  destruct (probe_ok _ _ Hh) as (r & -> & Hr0). cbn [mbind option_bind]. rewrite Hr0.
  rewrite (scan_from_tree (-1) (nodes root) _ (fun t => if phandle t =? ph then Some (d_off t) else None) (or_introl (conj eq_refl eq_refl))).
  - f_equal. induction (nodes root) as [|t l0 IH]; [done|]. simpl. destruct (phandle t =? ph) eqn:Et; [by rewrite Et|done].
  - intros t Ht. by rewrite fdt_get_phandle_eq.
Qed.
End Search.

(** * Ancestors *)

Section Super.
Context (fdt : list Z) (ts : list token) (D : document fdt ts).

(** What the search for an ancestor finds among the nodes it visits: the last
    one at depth [sd] up to the node at [target], whose depth is reported. *)
Fixpoint super (l : list (Z * Z)) (target sd acc : Z) : option (Z * Z) :=
  match l with
  | [] => None
  | (o, d) :: l =>
      let acc := if d =? sd then o else acc in
      if o =? target then Some (if d <? sd then - FDT_ERR_NOTFOUND else acc, d) else super l target sd acc
  end.

(** Offsets grow along the document. *)
Lemma toks_opens o ts' oe : toks fdt o ts' oe -> Forall (fun o' => o <= o') (opens ts').
Proof.
  revert o. induction ts' as [|k ts' IH]; intros o; [constructor|]. intros (o' & (_ & _ & Hlt & _ & _ & Hk) & Hr).
  specialize (IH o' Hr). assert (Hf : Forall (fun o1 => o <= o1) (opens ts')) by (eapply Forall_impl; [exact IH|]; simpl; lia).
  destruct k as [o1 name|o1|o1 name value|]; simpl; try done. constructor; [|done]. destruct Hk as (-> & _). done.
Qed.

Lemma visits_opens ts' : forall d l f, visits ts' d = (l, f) -> forall p, p ∈ l -> p.1 ∈ opens ts'.
Proof.
  induction ts' as [|k ts' IH]; intros d l f E p Hp; simpl in E; [injection E as <- <-; by apply elem_of_nil in Hp|].
  destruct k as [o name|o|o name value|]; simpl.
  - destruct (visits ts' (d + 1)) as [l' f'] eqn:Ev. injection E as <- <-. apply elem_of_cons in Hp as [->|Hp]; [by left|].
    right. by eapply IH.
  - destruct (_ <? _); [injection E as <- <-; by apply elem_of_nil in Hp|]. by eapply IH.
  - by eapply IH.
  - by eapply IH.
Qed.

Lemma visits_after ts1 o name ts2 d l f : ts = ts1 ++ KBegin o name :: ts2 -> visits ts2 d = (l, f) -> Forall (fun p => o < p.1) l.
Proof.
  intros E Ev. apply Forall_forall. intros p Hp. pose proof (visits_opens _ _ _ _ Ev p Hp) as Hin.
  destruct (doc_split _ _ D _ _ _ E) as (o0 & o' & (_ & _ & Hlt & _ & _ & -> & _) & (oe & oe' & Ht & _)).
  pose proof (toks_opens _ _ _ Ht) as Hf. rewrite Forall_forall in Hf. specialize (Hf _ Hin). simpl in Hf. lia.
Qed.

Lemma supernode_loop_visits target sd l : forall n ts1 o name ts2 d f acc,
  ts = ts1 ++ KBegin o name :: ts2 -> 0 <= d -> d + Z.of_nat (length ts2) < 2 ^ 31 - 1 -> visits ts2 d = (l, f) ->
  (exists p, p ∈ (o, d) :: l /\ p.1 = target) -> (S (length l) < n)%nat ->
  exists r, super ((o, d) :: l) target sd acc = Some r /\
    supernode_loop n fdt target sd o d acc = Some (r.1, Some r.2).
Proof.
  induction l as [|[o' d'] l IH]; intros n ts1 o name ts2 d f acc E Hd Hb Ev (p & Hp & Hpt) Hn; (destruct n as [|n]; [simpl in Hn; lia|]).
  all: pose proof (scan_visits _ _ _ _ Hd Ev) as Hs; pose proof (begin_offset _ _ D _ _ _ _ E) as [Ho _].
  all: pose proof (visits_after _ _ _ _ _ _ _ E Ev) as Haft; cbn [supernode_loop super].
  all: assert (Hle : o <= target) by (apply elem_of_cons in Hp as [->|Hp]; [simpl in Hpt; lia|];
    rewrite Forall_forall in Haft; specialize (Haft p Hp); simpl in Haft; lia).
  all: replace (0 <=? o) with true by lia; replace (o <=? target) with true by lia; cbn [andb].
  all: destruct (Z.eqb_spec o target) as [Et|Et]; [eexists; split; [reflexivity|]; done|].
  - by apply elem_of_cons in Hp as [->|Hp%elem_of_nil].
  - rewrite (fdt_next_node_scan _ _ D _ _ _ _ _ E) by (simpl; lia). destruct Hs as (Hd' & -> & ts1' & name' & ts3 & E3 & Ev3).
    cbn [mbind option_bind default from_option id].
    apply (IH n (ts1 ++ KBegin o name :: ts1') o' name' ts3 d' f); [by rewrite E, E3, <- app_assoc|lia| |done| |simpl in Hn; lia].
    + rewrite E3, length_app in Hb. simpl in Hb. lia.
    + apply elem_of_cons in Hp as [->|Hp]; [done|]. by exists p.
Qed.
End Super.

Section Parent.
Context (fdt : list Z) (root : dt) (Hh : holds fdt root) (H0 : d_off root = 0).

(** Depths from the root on. *)
Inductive at_depth : Z -> dt -> Prop :=
| depth_root : at_depth 0 root
| depth_kid d p k : at_depth d p -> k ∈ d_kids p -> at_depth (d + 1) k.

Lemma at_depth_node d t : at_depth d t -> node_of root t /\ 0 <= d.
Proof. induction 1 as [|d p k _ [IH Hd] Hk]; [by split; [constructor|]|]. split; [by apply (node_of_kid _ p)|lia]. Qed.

(** A node in the document order. *)
Lemma pre_eq d t : pre d t = (d_off t, d) :: pres (d + 1) (d_kids t).
Proof. by destruct t. Qed.

Lemma at_depth_pre d t : at_depth d t -> exists l1 l2, pre 0 root = l1 ++ pre d t ++ l2.
Proof.
  induction 1 as [|d p k _ (l1 & l2 & E) Hk]; [exists [], []; by rewrite app_nil_r|].
  apply list_elem_of_split in Hk as (k1 & k2 & Hk). rewrite E, pre_eq, Hk. unfold pres. rewrite flat_map_app. simpl.
  exists (l1 ++ (d_off p, d) :: flat_map (pre (d + 1)) k1), (flat_map (pre (d + 1)) k2 ++ l2).
  by do 3 (simpl; rewrite <- ?app_assoc).
Qed.

Lemma super_app l l' target sd acc : Forall (fun p => p.1 <> target) l ->
  exists acc', super (l ++ l') target sd acc = super l' target sd acc' /\
    (Forall (fun p => p.2 <> sd) l -> acc' = acc).
Proof.
  revert acc. induction l as [|[o d] l IH]; intros acc Hn; simpl; [by exists acc|].
  apply Forall_cons in Hn as [Ht Hn]. simpl in Ht. rewrite (proj2 (Z.eqb_neq o target)) by done.
  destruct (IH (if d =? sd then o else acc) Hn) as (acc' & -> & Hacc). exists acc'. split; [done|].
  intros [Hd Hf]%Forall_cons. simpl in Hd. rewrite (Hacc Hf). by rewrite (proj2 (Z.eqb_neq d sd)).
Qed.

Lemma toks_sorted o ts oe : toks fdt o ts oe -> StronglySorted Z.lt (opens ts).
Proof.
  revert o. induction ts as [|k ts IH]; intros o; [constructor|]. intros (o' & (_ & _ & Hlt & _ & _ & Hk) & Hr).
  destruct k as [o1 name|o1|o1 name value|]; simpl; try by eapply IH. constructor; [by eapply IH|].
  eapply Forall_impl; [by eapply toks_opens|]. simpl. destruct Hk as (-> & _). lia.
Qed.

Lemma pre_nodes t : forall d, map fst (pre d t) = map d_off (nodes t).
Proof.
  induction t as [o name props kids oe IH] using dt_forall. intros d. simpl. f_equal.
  induction IH as [|k kids Hk _ IHk]; simpl; [done|]. rewrite !map_app. by rewrite Hk, IHk.
Qed.

(** A node is met once. *)
Lemma pre_distinct l1 o d l2 : pre 0 root = l1 ++ (o, d) :: l2 -> Forall (fun p => p.1 <> o) l1.
Proof.
  intros E. destruct Hh as (ts & Dc & Es). destruct (doc_tokens _ _ Dc) as (oe & oe' & Ht & _).
  pose proof (toks_sorted _ _ _ Ht) as Hs. rewrite <- opens_strip, Es, opens_flat, <- (pre_nodes root 0), E, map_app in Hs. simpl in Hs.
  apply Forall_forall. intros p Hp Heq. assert (o < o); [|lia]. apply (StronglySorted_app_1_elem_of _ _ _ _ _ Hs); [|left].
  rewrite <- Heq. by apply (list_elem_of_fmap_2 fst).
Qed.

(** The search for an ancestor, started at the root. *)
Lemma supernode_eq d t sd : at_depth d t -> 0 <= sd ->
  exists r, super (pre 0 root) (d_off t) sd (- FDT_ERR_INTERNAL) = Some r /\
    fdt_supernode_atdepth_offset fdt (d_off t) sd = Some (r.1, Some r.2).
Proof.
  intros Ht Hsd. unfold fdt_supernode_atdepth_offset. destruct (probe_ok _ _ Hh) as (r & -> & Hr0). cbn [mbind option_bind].
  rewrite Hr0. replace (sd <? 0) with false by lia.
  destruct (holds_node _ _ Hh root (node_self _)) as (ts & ts1 & ts2 & l2 & Dc & E & E2). rewrite H0 in E.
  destruct (visits ts2 0) as [l f] eqn:Ev. pose proof (begin_offset _ _ Dc _ _ _ _ E) as (Ho & _ & Hlen).
  pose proof (visits_bound _ _ _ _ (Z.le_refl 0) Ev) as [Hvl _]. pose proof (fdt_length _ _ Hh).
  assert (El : (0, 0) :: l = pre 0 root).
  { rewrite pre_eq, H0. f_equal. rewrite <- visits_strip, E2, visits_props, visits_flats in Ev by lia. simpl in Ev.
    rewrite app_nil_r in Ev. by injection Ev. }
  rewrite <- El. apply (supernode_loop_visits _ _ Dc _ _ l (S (length fdt)) ts1 0 _ ts2 0 f _ E); [lia|lia|done| |lia].
  rewrite El. destruct (at_depth_pre d t Ht) as (la & lb & ->). exists (d_off t, d). split; [|done].
  rewrite pre_eq. apply elem_of_app. right. apply elem_of_app. left. left.
Qed.

Lemma fdt_node_depth_eq d t : at_depth d t -> fdt_node_depth fdt (d_off t) = Some d.
Proof.
  intros Ht. unfold fdt_node_depth. destruct (supernode_eq d t 0 Ht (Z.le_refl 0)) as (r & Es & ->). cbn [mbind option_bind].
  destruct (at_depth_pre d t Ht) as (la & lb & E). rewrite (pre_eq d t) in E. simpl in E. pose proof E as E'. rewrite pre_eq, H0 in E'.
  pose proof (pre_distinct _ _ _ _ E) as Hdist. rewrite E in Es.
  assert (Hr : r = (0, d)).
  { destruct la as [|q la].
    - injection E' as E1 E2 _. simpl in Es. rewrite Z.eqb_refl in Es. subst d. simpl in Es. injection Es as <-. by rewrite <- E1.
    - injection E' as <- Ek. simpl in Es. apply Forall_cons in Hdist as [Hd0 Hdist]. simpl in Hd0.
      rewrite (proj2 (Z.eqb_neq 0 (d_off t))) in Es by done.
      destruct (super_app la ((d_off t, d) :: pres (d + 1) (d_kids t) ++ lb) (d_off t) 0 0 Hdist) as (acc' & Es' & Hacc).
      rewrite Es' in Es. simpl in Es. rewrite Z.eqb_refl in Es.
      assert (Hdeep : Forall (fun p : Z * Z => 1 <= p.2) (la ++ (d_off t, d) :: pres (d + 1) (d_kids t) ++ lb)).
      { rewrite <- Ek. apply Forall_flat_map, Forall_true. intros k. apply pre_deep. }
      apply Forall_app in Hdeep as [Hla Hdt]. apply Forall_cons in Hdt as [Hdt _]. simpl in Hdt.
      rewrite Hacc in Es by (eapply Forall_impl; [exact Hla|]; simpl; lia).
      rewrite (proj2 (Z.eqb_neq d 0)) in Es by lia. replace (d <? 0) with false in Es by lia. by injection Es as <-. }
  by rewrite Hr.
Qed.

Lemma fdt_parent_offset_eq d p k : at_depth d p -> k ∈ d_kids p -> fdt_parent_offset fdt (d_off k) = Some (d_off p).
Proof.
  intros Hp Hk. pose proof (depth_kid d p k Hp Hk) as Hkd. unfold fdt_parent_offset. rewrite (fdt_node_depth_eq _ _ Hkd).
  cbn [mbind option_bind]. destruct (at_depth_node _ _ Hp) as [_ Hd]. replace (d + 1 <? 0) with false by lia.
  replace (d + 1 - 1) with d by lia. destruct (supernode_eq (d + 1) k d Hkd Hd) as (r & Es & ->). cbn [mbind option_bind]. f_equal.
  destruct (at_depth_pre d p Hp) as (la & lb & E). apply list_elem_of_split in Hk as (k1 & k2 & Hk).
  rewrite (pre_eq d p), Hk in E. unfold pres in E. rewrite flat_map_app in E. cbn [flat_map] in E. rewrite (pre_eq (d + 1) k) in E.
  assert (E' : pre 0 root = (la ++ (d_off p, d) :: flat_map (pre (d + 1)) k1) ++ (d_off k, d + 1) ::
    pres (d + 1 + 1) (d_kids k) ++ flat_map (pre (d + 1)) k2 ++ lb).
  { rewrite E. by do 3 (simpl; rewrite <- ?app_assoc). }
  pose proof (pre_distinct _ _ _ _ E') as Hdist. rewrite E', <- app_assoc in Es.
  apply Forall_app in Hdist as [Hd1 Hd2]. apply Forall_cons in Hd2 as [Hd2 Hd3]. simpl in Hd2.
  match type of Es with super (_ ++ ?l) _ _ _ = _ =>
    destruct (super_app la l (d_off k) d (- FDT_ERR_INTERNAL) Hd1) as (acc1 & Es1 & _) end.
  rewrite Es1 in Es. clear Es1. cbn [app super] in Es.
  rewrite Z.eqb_refl, (proj2 (Z.eqb_neq (d_off p) (d_off k))) in Es by done.
  destruct (super_app (flat_map (pre (d + 1)) k1) ((d_off k, d + 1) :: pres (d + 1 + 1) (d_kids k) ++ flat_map (pre (d + 1)) k2 ++ lb)
    (d_off k) d (d_off p) Hd3) as (acc2 & Es2 & Hacc2).
  rewrite Es2 in Es. cbn [super] in Es. rewrite Z.eqb_refl, Hacc2 in Es.
  - rewrite (proj2 (Z.eqb_neq (d + 1) d)) in Es by lia. replace (d + 1 <? d) with false in Es by lia. by injection Es as <-.
  - apply Forall_flat_map, Forall_true. intros k'. eapply Forall_impl; [apply pre_deep|]. simpl. lia.
Qed.
End Parent.
