(* ===== verification/FdtImage.v ===== *)
(** The flattened format (version 17) as a function from trees to bytes,
    independent of the reader, and the proof that the reader's view of such
    bytes is the tree ([image_holds]).

    The padding after names and values, the place of a property's name in the
    strings block, and the bytes after the strings are arbitrary, since the
    functions that edit a blob leave old bytes there. *)

From S2P Require Import Prelude Cstring Fdt FdtTag FdtTree.

(** * The format *)

(** A tree without positions. *)
Inductive src : Type := Src (name : list Z) (props : list (list Z * list Z)) (kids : list src).

Inductive stok : Type := TBegin (name : list Z) | TEnd | TProp (name value : list Z).

Definition prop_stok (p : list Z * list Z) : stok := TProp p.1 p.2.
Fixpoint sflat (s : src) : list stok :=
  let '(Src name props kids) := s in TBegin name :: map prop_stok props ++ flat_map sflat kids ++ [TEnd].

(** Filling up to a multiple of four. *)
Definition pad (n : nat) : list Z := replicate (Z.to_nat ((- Z.of_nat n) mod 4)) 0.

(** The size of a token without and with its padding. *)
Definition body_size (k : stok) : nat :=
  match k with TBegin name => 4 + (length name + 1) | TEnd => 4 | TProp _ value => 12 + length value end.
Definition tok_size (k : stok) : nat := body_size k + length (pad (body_size k)).
Definition toks_size (l : list stok) : nat := list_sum (map tok_size l).

(** A token as it is written: where the name of a property is, and what the
    padding holds. *)
Record ptok : Type := mkPtok { pk : stok; p_noff : Z; p_pad : list Z }.

Definition ptok_bytes (p : ptok) : list Z :=
  match pk p with
  | TBegin name => be32 FDT_BEGIN_NODE ++ name ++ [0] ++ p_pad p
  | TEnd => be32 FDT_END_NODE ++ p_pad p
  | TProp name value => be32 FDT_PROP ++ be32 (Z.of_nat (length value)) ++ be32 (p_noff p) ++ value ++ p_pad p
  end.
Definition ptoks_bytes (l : list ptok) : list Z := concat (map ptok_bytes l).

Definition name_ok (name : list Z) : Prop := Forall (fun c => fits 8 c /\ c <> 0) name.

(** The strings block [strs] has [name], terminated, at [noff]. *)
Definition name_at (strs : list Z) (noff : Z) (name : list Z) : Prop :=
  0 <= noff /\ name_ok name /\ starts (name ++ [0]) (drop (Z.to_nat noff) strs).

Definition ptok_ok (strs : list Z) (p : ptok) : Prop :=
  length (p_pad p) = length (pad (body_size (pk p))) /\ Forall (fits 8) (p_pad p) /\
  match pk p with
  | TBegin name => name_ok name
  | TEnd => True
  | TProp name value => Forall (fits 8) value /\ name_at strs (p_noff p) name
  end.

(** What does not depend on the strings block. *)
Definition ptok_shape (p : ptok) : Prop :=
  length (p_pad p) = length (pad (body_size (pk p))) /\ Forall (fits 8) (p_pad p) /\
  match pk p with TBegin name => name_ok name | TEnd => True | TProp _ value => Forall (fits 8) value end.

Definition struct_block (pts : list ptok) : list Z := ptoks_bytes pts ++ be32 FDT_END.

(** A blob: a header that claims [tot] bytes, an empty reserve map, the tokens
    of the structure block, the strings block, and whatever follows. *)
Definition image (tot : Z) (pts : list ptok) (strs rest : list Z) : list Z :=
  let st := Z.of_nat (length (struct_block pts)) in
  header tot 56 (56 + st) 40 (Z.of_nat (length strs)) st ++ replicate 16 0 ++ struct_block pts ++ strs ++ rest.

Record image_ok (tot : Z) (pts : list ptok) (strs rest : list Z) : Prop := {
  img_toks : Forall (ptok_ok strs) pts;
  img_strs : Forall (fits 8) strs;
  img_rest : Forall (fits 8) rest;
  img_fits : 56 + Z.of_nat (length (struct_block pts)) + Z.of_nat (length strs) <= tot;
  img_inside : tot <= Z.of_nat (length (image tot pts strs rest));
  img_small : Z.of_nat (length (image tot pts strs rest)) < 2 ^ 31 - 8
}.

(** Tokens and trees with their positions. *)
Definition place_tok (o : Z) (k : stok) : token :=
  match k with
  | TBegin name => KBegin o name
  | TEnd => KEnd (o + 4)
  | TProp name value => KProp o name value
  end.
Fixpoint place_toks (o : Z) (l : list stok) : list token :=
  match l with
  | [] => []
  | k :: l => place_tok o k :: place_toks (o + Z.of_nat (tok_size k)) l
  end.

(** Writing a sequence one after the other, each element giving its length. *)
Fixpoint place_list {A B} (f : Z -> A -> B) (size : A -> nat) (o : Z) (l : list A) : list B :=
  match l with
  | [] => []
  | x :: l => f o x :: place_list f size (o + Z.of_nat (size x)) l
  end.

Definition prop_size (p : list Z * list Z) : nat := tok_size (prop_stok p).
Definition src_size (s : src) : nat := toks_size (sflat s).
Definition place_prop (o : Z) (p : list Z * list Z) : dprop := mkProp o p.1 p.2.

Fixpoint place (o : Z) (s : src) : dt :=
  let '(Src name props kids) := s in
  let o1 := o + Z.of_nat (tok_size (TBegin name)) in
  let o2 := o1 + Z.of_nat (list_sum (map prop_size props)) in
  DT o name (place_list place_prop prop_size o1 props)
    ((fix go o kids := match kids with [] => [] | k :: kids => place o k :: go (o + Z.of_nat (src_size k)) kids end) o2 kids)
    (o + Z.of_nat (src_size s)).

(** * Words and padding *)

Lemma be32_ld x r : fits 32 x -> fdt32_ld (be32 x ++ r) = Some x.
Proof.
  intros Hx. unfold be32. cbn [app fdt32_ld]. f_equal. unfold fits in Hx.
  pose proof (Z.mod_pos_bound (x / 2 ^ 24) 256 ltac:(lia)). pose proof (Z.mod_pos_bound (x / 2 ^ 16) 256 ltac:(lia)).
  pose proof (Z.mod_pos_bound (x / 2 ^ 8) 256 ltac:(lia)). pose proof (Z.mod_pos_bound x 256 ltac:(lia)).
  set (b0 := x / 2 ^ 24 mod 256) in *. set (b1 := x / 2 ^ 16 mod 256) in *. set (b2 := x / 2 ^ 8 mod 256) in *. set (b3 := x mod 256) in *.
  rewrite !Z.shiftl_mul_pow2 by lia.
  replace (b0 * 2 ^ 24) with (2 ^ 24 * b0) by lia. rewrite (lor_high_low b0 (b1 * 2 ^ 16) 24) by (unfold fits; lia).
  replace (2 ^ 24 * b0 + b1 * 2 ^ 16) with (2 ^ 16 * (2 ^ 8 * b0 + b1)) by lia.
  rewrite (lor_high_low _ (b2 * 2 ^ 8) 16) by (unfold fits; lia).
  replace (2 ^ 16 * (2 ^ 8 * b0 + b1) + b2 * 2 ^ 8) with (2 ^ 8 * (2 ^ 16 * b0 + 2 ^ 8 * b1 + b2)) by lia.
  rewrite (lor_high_low _ b3 8) by (unfold fits; lia). subst b0 b1 b2 b3. Z.to_euclidean_division_equations. lia.
Qed.

Lemma be32_fits x : Forall (fits 8) (be32 x).
Proof. unfold be32. repeat constructor; unfold fits; apply Z.mod_pos_bound; lia. Qed.

Lemma length_pad n : exists k, (length (pad n) < 4)%nat /\ (n + length (pad n) = 4 * k)%nat.
Proof.
  unfold pad. rewrite length_replicate. pose proof (Z.mod_pos_bound (- Z.of_nat n) 4 ltac:(lia)).
  exists (Z.to_nat (- ((- Z.of_nat n) / 4))). Z.to_euclidean_division_equations. lia.
Qed.

Lemma pad_fits n : Forall (fits 8) (pad n).
Proof. apply Forall_replicate. unfold fits. lia. Qed.

Lemma tok_size_aligned k : exists n, tok_size k = (4 * n)%nat /\ (1 <= n)%nat /\ (body_size k <= tok_size k < body_size k + 4)%nat.
Proof.
  unfold tok_size. destruct (length_pad (body_size k)) as (n & Hl & Hn). exists n. split; [done|].
  assert (4 <= body_size k)%nat by (destruct k; simpl; lia). lia.
Qed.

Lemma toks_size_aligned l : exists n, toks_size l = (4 * n)%nat.
Proof.
  unfold toks_size. induction l as [|k l [n IH]]; [by exists 0%nat|]. destruct (tok_size_aligned k) as (m & Hm & _). exists (m + n)%nat. simpl. lia.
Qed.

Lemma toks_size_mod l : Z.of_nat (toks_size l) mod 4 = 0.
Proof. destruct (toks_size_aligned l) as [n ->]. replace (Z.of_nat (4 * n)) with (Z.of_nat n * 4) by lia. by apply Z.mod_mul. Qed.

Lemma toks_size_app l1 l2 : toks_size (l1 ++ l2) = (toks_size l1 + toks_size l2)%nat.
Proof. unfold toks_size. by rewrite map_app, list_sum_app. Qed.

Lemma ptok_ok_shape strs p : ptok_ok strs p -> ptok_shape p.
Proof. intros (H1 & H2 & H3). split; [done|]. split; [done|]. destruct (pk p); tauto. Qed.

Lemma ptok_shape_length p : ptok_shape p -> length (ptok_bytes p) = tok_size (pk p).
Proof.
  intros (Hl & _). unfold ptok_bytes, tok_size. rewrite <- Hl. destruct (pk p); cbn [body_size]; rewrite !length_app; simpl; lia.
Qed.

Lemma ptok_bytes_length strs p : ptok_ok strs p -> length (ptok_bytes p) = tok_size (pk p).
Proof. intros H. by eapply ptok_shape_length, ptok_ok_shape. Qed.

Lemma ptoks_bytes_app l1 l2 : ptoks_bytes (l1 ++ l2) = ptoks_bytes l1 ++ ptoks_bytes l2.
Proof. unfold ptoks_bytes. by rewrite map_app, concat_app. Qed.

Lemma ptoks_shape_length l : Forall ptok_shape l -> length (ptoks_bytes l) = toks_size (map pk l).
Proof.
  induction 1 as [|p l Hp _ IH]; [done|]. change (ptoks_bytes (p :: l)) with (ptok_bytes p ++ ptoks_bytes l).
  rewrite length_app, IH, (ptok_shape_length p Hp). done.
Qed.

Lemma ptoks_ok_shape strs l : Forall (ptok_ok strs) l -> Forall ptok_shape l.
Proof. intros H. eapply Forall_impl; [exact H|]. intros p. apply ptok_ok_shape. Qed.

Lemma ptoks_bytes_length strs l : Forall (ptok_ok strs) l -> length (ptoks_bytes l) = toks_size (map pk l).
Proof. intros H. by eapply ptoks_shape_length, ptoks_ok_shape. Qed.

Lemma ptok_shape_fits p : ptok_shape p -> Forall (fits 8) (ptok_bytes p).
Proof.
  intros (_ & Hp & Hk). unfold ptok_bytes. destruct (pk p) as [name| |name value]; rewrite ?Forall_app; repeat split; try apply be32_fits; try tauto.
  - eapply Forall_impl; [exact Hk|]. simpl. tauto.
  - constructor; [unfold fits; lia|constructor].
Qed.

Lemma ptok_bytes_fits strs p : ptok_ok strs p -> Forall (fits 8) (ptok_bytes p).
Proof. intros H. by eapply ptok_shape_fits, ptok_ok_shape. Qed.

Lemma ptoks_fits l : Forall ptok_shape l -> Forall (fits 8) (ptoks_bytes l).
Proof. intros H. apply Forall_concat, Forall_map. eapply Forall_impl; [exact H|]. apply ptok_shape_fits. Qed.

(** * The reader on one token *)

Section Read.
Context (fdt : list Z) (Hv : valid fdt) (Hvs : vers fdt = 17) (Hfit : soff fdt + ssize fdt <= total fdt).

Lemma in_block_size o n : 0 <= o -> o + n <= ssize fdt -> in_block fdt o n = true.
Proof. intros Ho Hn. unfold in_block. rewrite Hvs. cbn [Z.ltb Z.compare Pos.compare Pos.compare_cont orb]. bool_cases; done. Qed.

(** [bs] is what the structure block holds at offset [o]. *)
Definition block_at (o : Z) (bs : list Z) : Prop :=
  starts bs (from fdt (soff fdt + o)) /\ o + Z.of_nat (length bs) <= ssize fdt.

Lemma starts_app (a b l : list Z) : starts (a ++ b) l -> starts a l /\ starts b (drop (length a) l).
Proof. intros [r ->]. rewrite <- app_assoc. split; [by eexists|]. rewrite drop_app_length. by eexists. Qed.

Lemma soff_pos : 0 <= soff fdt.
Proof. destruct (header_soff fdt Hv) as [_ H]. unfold fits in H. lia. Qed.

Lemma block_at_app o a b : 0 <= o -> block_at o (a ++ b) -> block_at o a /\ block_at (o + Z.of_nat (length a)) b.
Proof.
  intros Ho [Hs Hl]. rewrite length_app in Hl. destruct (starts_app _ _ _ Hs) as [H1 H2]. pose proof soff_pos.
  split; (split; [|lia]); [done|]. rewrite Z.add_assoc, <- from_from by lia. done.
Qed.

Lemma block_ld o x r : fits 32 x -> block_at o (be32 x ++ r) -> fdt32_ld (from fdt (soff fdt + o)) = Some x.
Proof. intros Hx [[r' ->] _]. rewrite <- app_assoc. by apply be32_ld. Qed.

Lemma ssize_bound : ssize fdt <= Z.of_nat (length fdt).
Proof. pose proof (total_bound fdt Hv). pose proof soff_pos. lia. Qed.

(** A tag whose contents end [n] bytes on. *)
Lemma fdt_next_tag_block o tag n : 0 <= o -> o mod 4 = 0 -> (4 <= n) -> o + n <= ssize fdt -> fits 32 tag ->
  block_at o (be32 tag) -> skip_contents fdt tag (o + 4) = Some (Some (o + n)) ->
  fdt_next_tag fdt o = Some (tag, 4 * ((o + n + 3) / 4)).
Proof.
  intros Ho Hm Hn Hb Ht Hat Hs. pose proof ssize_bound. pose proof (valid_length _ Hv). unfold fdt_next_tag, FDT_TAGSIZE.
  rewrite (fdt_offset_ptr_eq fdt Hv) by (unfold fits; lia). rewrite in_block_size by lia. cbn [mbind option_bind].
  rewrite <- (app_nil_r (be32 tag)) in Hat. rewrite (block_ld o tag [] Ht Hat). cbn [mbind option_bind]. rewrite s32_small by lia. rewrite Hs.
  cbn [mbind option_bind]. unfold u32. rewrite wrap_small by (unfold fits; lia).
  rewrite (fdt_offset_ptr_eq fdt Hv) by (unfold fits; lia). rewrite in_block_size by lia. cbn [mbind option_bind].
  by rewrite tagalign_eq by lia.
Qed.

Lemma tok_size_step o k : 0 <= o -> o mod 4 = 0 ->
  (o + Z.of_nat (tok_size k)) mod 4 = 0 /\ o + 4 <= o + Z.of_nat (tok_size k).
Proof.
  intros Ho Hm. destruct (tok_size_aligned k) as (n & -> & Hn & _). split; [|lia].
  replace (o + Z.of_nat (4 * n)) with (o + Z.of_nat n * 4) by lia. by rewrite Z.mod_add.
Qed.

(** The end of a token's contents, aligned, is the end of its padding. *)
Lemma tok_size_align o k : o mod 4 = 0 -> 4 * ((o + Z.of_nat (body_size k) + 3) / 4) = o + Z.of_nat (tok_size k).
Proof. intros Hm. destruct (tok_size_aligned k) as (n & Hn & _ & Hb). rewrite Hn in *. Z.to_euclidean_division_equations. lia. Qed.

Lemma prop_skip o value noff r : 0 <= o -> block_at o (be32 FDT_PROP ++ be32 (Z.of_nat (length value)) ++ be32 noff ++ value ++ r) ->
  skip_contents fdt FDT_PROP (o + 4) = Some (Some (o + (12 + Z.of_nat (length value)))).
Proof.
  intros Ho Hat. pose proof ssize_bound. pose proof (valid_length _ Hv). pose proof soff_pos.
  apply block_at_app in Hat as [_ Hb2]; [|done]. change (Z.of_nat (length (be32 FDT_PROP))) with 4 in Hb2.
  assert (Hle : o + 12 + Z.of_nat (length value) <= ssize fdt) by (destruct Hb2 as [_ Hl]; rewrite !length_app in Hl; simpl in Hl; lia).
  unfold skip_contents. cbn [FDT_PROP FDT_BEGIN_NODE Z.eqb Pos.eqb]. rewrite (fdt_offset_ptr_eq fdt Hv) by (unfold fits; lia).
  rewrite in_block_size by lia. cbn [mbind option_bind].
  rewrite (block_ld (o + 4) (Z.of_nat (length value)) _ ltac:(unfold fits; lia) Hb2). cbn [mbind option_bind].
  destruct (header_vers fdt Hv) as [-> _]. cbn [mbind option_bind]. rewrite Hvs. cbn [Z.ltb Z.compare Pos.compare Pos.compare_cont andb].
  rewrite s32_small by lia. do 2 f_equal. lia.
Qed.

Definition tok_tag (k : stok) : Z := match k with TBegin _ => FDT_BEGIN_NODE | TEnd => FDT_END_NODE | TProp _ _ => FDT_PROP end.

Lemma begin_name o name r : 0 <= o -> name_ok name -> block_at o (be32 FDT_BEGIN_NODE ++ name ++ [0] ++ r) ->
  cstr name (from fdt (soff fdt + (o + 4))).
Proof.
  intros Ho Hn Hat. apply block_at_app in Hat as [_ [[r' Hr] _]]; [|done]. change (Z.of_nat (length (be32 FDT_BEGIN_NODE))) with 4 in Hr.
  split; [done|]. rewrite Hr. eexists. by rewrite <- !app_assoc.
Qed.

(** The tag of a token, and where the next one is; this does not depend on the
    strings. *)
Lemma next_tag_tok o p : 0 <= o -> o mod 4 = 0 -> ptok_shape p -> block_at o (ptok_bytes p) ->
  fdt_next_tag fdt o = Some (tok_tag (pk p), o + Z.of_nat (tok_size (pk p))).
Proof.
  intros Ho Hm Hk Hat. pose proof Hat as [_ Hle]. rewrite (ptok_shape_length _ Hk) in Hle.
  pose proof ssize_bound. pose proof (valid_length _ Hv). pose proof soff_pos.
  pose proof (tok_size_align o (pk p) Hm) as Hal. destruct (tok_size_aligned (pk p)) as (_ & _ & _ & Hbs).
  destruct Hk as (_ & _ & Hk). unfold ptok_bytes in Hat. destruct (pk p) as [name| |name value]; cbn [tok_tag body_size] in *.
  - pose proof (begin_name _ _ _ Ho Hk Hat) as Hc. apply block_at_app in Hat as [Hb1 _]; [|done].
    rewrite (fdt_next_tag_block o FDT_BEGIN_NODE (Z.of_nat (4 + (length name + 1)))); [by rewrite Hal|lia|done|lia|lia|by vm_compute|done|].
    unfold skip_contents. cbn [FDT_BEGIN_NODE Z.eqb Pos.eqb]. rewrite (skip_name_cstr fdt Hv name); [f_equal; f_equal; lia|lia|done| |].
    + apply in_block_size; lia.
    + destruct Hc as [_ [r Hr]]. apply (f_equal length) in Hr. rewrite length_from, length_app in Hr by lia. lia.
  - apply block_at_app in Hat as [Hat _]; [|done].
    rewrite (fdt_next_tag_block o FDT_END_NODE 4); [by rewrite <- Hal|lia|done|lia|lia|by vm_compute|done|done].
  - pose proof (prop_skip o value _ _ Ho Hat) as Hskip. apply block_at_app in Hat as [Hb1 _]; [|done].
    rewrite (fdt_next_tag_block o FDT_PROP (12 + Z.of_nat (length value))); [|lia|done|lia|lia|by vm_compute|done|done].
    rewrite <- Hal. do 3 f_equal. lia.
Qed.

Lemma next_tag_end o : 0 <= o -> o mod 4 = 0 -> block_at o (be32 FDT_END) -> fdt_next_tag fdt o = Some (FDT_END, o + 4).
Proof.
  intros Ho Hm Hat. pose proof Hat as [_ Hle]. change (Z.of_nat (length (be32 FDT_END))) with 4 in Hle.
  rewrite (fdt_next_tag_block o FDT_END 4); [|done|done|lia|done|by vm_compute|done|done]. do 2 f_equal. Z.to_euclidean_division_equations. lia.
Qed.

(** The strings block, read through the header. *)
Context (strs : list Z).
Context (Hstr : forall noff name, name_at strs noff name -> 0 <= noff < 2 ^ 31 /\ string_at fdt noff name).

Lemma tok_read o p : 0 <= o -> o mod 4 = 0 -> ptok_ok strs p -> block_at o (ptok_bytes p) ->
  tok fdt o (place_tok o (pk p)) (o + Z.of_nat (tok_size (pk p))).
Proof.
  intros Ho Hm Hk Hat. pose proof Hat as [_ Hle]. rewrite (ptok_bytes_length _ _ Hk) in Hle.
  pose proof ssize_bound. pose proof (valid_length _ Hv). pose proof soff_pos. destruct (tok_size_step o (pk p) Ho Hm) as [Hm' Hlt].
  pose proof (next_tag_tok o p Ho Hm (ptok_ok_shape _ _ Hk) Hat) as Hnt.
  split; [done|]. split; [done|]. split; [lia|]. split; [done|]. split; [lia|].
  destruct Hk as (_ & _ & Hk). unfold ptok_bytes in Hat. destruct (pk p) as [name| |name value]; cbn [place_tok tok_tag] in *.
  - split; [done|]. split; [done|]. rewrite <- Z.add_assoc. exact (begin_name _ _ _ Ho Hk Hat).
  - by rewrite Hnt.
  - destruct Hk as [Hval Hname]. destruct (Hstr _ _ Hname) as [Hoff Hs].
    apply block_at_app in Hat as [Hb1 Hb2]; [|done]. change (Z.of_nat (length (be32 FDT_PROP))) with 4 in Hb2.
    pose proof Hb2 as Hb2'. apply block_at_app in Hb2 as [_ Hb3]; [|lia]. change (Z.of_nat (length (be32 (Z.of_nat (length value))))) with 4 in Hb3.
    pose proof Hb3 as Hb3'. apply block_at_app in Hb3 as [_ Hb4]; [|lia]. change (Z.of_nat (length (be32 (p_noff p)))) with 4 in Hb4.
    replace (o + 4 + 4) with (o + 8) in * by lia. replace (o + 8 + 4) with (o + 12) in * by lia.
    apply block_at_app in Hb4 as [Hb4 _]; [|lia].
    split; [done|]. split; [done|]. split; [|split; [rewrite <- Z.add_assoc; apply Hb4|]].
    + assert (Hfl : fits 32 (Z.of_nat (length value))).
      { destruct (tok_size_aligned (TProp name value)) as (_ & _ & _ & Hbs). cbn [body_size] in Hbs. unfold fits. lia. }
      rewrite <- Z.add_assoc. exact (block_ld _ _ _ Hfl Hb2').
    + assert (Hfn : fits 32 (p_noff p)) by (unfold fits; lia). exists (p_noff p). split; [|by rewrite s32_small by lia]. rewrite <- Z.add_assoc. exact (block_ld _ _ _ Hfn Hb3').
Qed.

Lemma toks_read l : forall o, 0 <= o -> o mod 4 = 0 -> Forall (ptok_ok strs) l -> block_at o (ptoks_bytes l) ->
  toks fdt o (place_toks o (map pk l)) (o + Z.of_nat (toks_size (map pk l))).
Proof.
  induction l as [|k l IH]; intros o Ho Hm Hk Hat; [simpl; unfold toks_size; simpl; lia|]. apply Forall_cons in Hk as [Hk Hl].
  change (ptoks_bytes (k :: l)) with (ptok_bytes k ++ ptoks_bytes l) in *. apply block_at_app in Hat as [H1 H2]; [|done].
  rewrite (ptok_bytes_length _ _ Hk) in H2. cbn [map place_toks toks]. exists (o + Z.of_nat (tok_size (pk k))). split; [by apply tok_read|].
  change (toks_size (pk k :: map pk l)) with (tok_size (pk k) + toks_size (map pk l))%nat. rewrite Nat2Z.inj_add, Z.add_assoc.
  destruct (tok_size_step o (pk k) Ho Hm). apply IH; [lia|done..].
Qed.
End Read.

(** * Positions *)

Lemma src_forall (P : src -> Prop) :
  (forall name props kids, Forall P kids -> P (Src name props kids)) -> forall s, P s.
Proof.
  intros H. fix IH 1. intros [name props kids]. apply H. induction kids as [|k kids IHk]; constructor; [apply IH|exact IHk].
Qed.

Lemma place_toks_app l1 : forall o l2,
  place_toks o (l1 ++ l2) = place_toks o l1 ++ place_toks (o + Z.of_nat (toks_size l1)) l2.
Proof.
  induction l1 as [|k l1 IH]; intros o l2; [by rewrite Z.add_0_r|]. cbn [app place_toks]. rewrite IH.
  change (toks_size (k :: l1)) with (tok_size k + toks_size l1)%nat. by rewrite Nat2Z.inj_add, Z.add_assoc.
Qed.

Lemma place_eq o name props kids : place o (Src name props kids) =
  let o1 := o + Z.of_nat (tok_size (TBegin name)) in
  let o2 := o1 + Z.of_nat (list_sum (map prop_size props)) in
  DT o name (place_list place_prop prop_size o1 props)
    (place_list place src_size o2 kids) (o + Z.of_nat (src_size (Src name props kids))).
Proof.
  cbn [place]. f_equal.
  generalize (o + Z.of_nat (tok_size (TBegin name)) + Z.of_nat (list_sum (map prop_size props))).
  induction kids as [|k kids IH]; intros o2; [done|]. simpl. by rewrite IH.
Qed.

Lemma place_props props : forall o,
  map prop_tok (place_list place_prop prop_size o props) = place_toks o (map prop_stok props).
Proof. induction props as [|p props IH]; intros o; [done|]. simpl. by rewrite IH. Qed.

Lemma props_size_eq props : toks_size (map prop_stok props) = list_sum (map prop_size props).
Proof. unfold toks_size. by rewrite map_map. Qed.

(** The tree with positions flattens to the tokens with positions. *)
Lemma flat_place s : forall o, flat (place o s) = place_toks o (sflat s).
Proof.
  induction s as [name props kids IH] using src_forall. intros o. rewrite place_eq. cbv zeta. cbn [flat sflat place_toks place_tok].
  f_equal. rewrite place_toks_app, place_props, props_size_eq. f_equal.
  set (o2 := _ + Z.of_nat (list_sum _)). rewrite place_toks_app. f_equal.
  - clearbody o2. revert o2. induction IH as [|k kids Hk _ IHk]; intros o2; [done|]. simpl. rewrite Hk, place_toks_app. f_equal.
    rewrite IHk. done.
  - cbn [place_toks place_tok]. do 2 f_equal. unfold o2, src_size. cbn [sflat].
    change (toks_size (?k :: ?l)) with (tok_size k + toks_size l)%nat. rewrite !toks_size_app, props_size_eq.
    change (toks_size [TEnd]) with 4%nat. lia.
Qed.

(** * The header of a blob *)

Lemma header_word l r : forall i x, l !! i = Some x -> fits 32 x -> fdt_get_header (concat (be32 <$> l) ++ r) (4 * Z.of_nat i) = Some x.
Proof.
  unfold fdt_get_header. induction l as [|y l IH]; intros i x Hi Hx; [done|]. destruct i as [|i]; simpl in Hi.
  - injection Hi as ->. change (4 * Z.of_nat 0) with 0. cbn [fmap list_fmap concat]. rewrite <- app_assoc. by apply be32_ld.
  - rewrite <- (IH i x Hi Hx). f_equal. unfold from. rewrite !(proj2 (Z.ltb_ge _ 0)) by lia. cbn [fmap list_fmap concat].
    replace (Z.to_nat (4 * Z.of_nat (S i))) with (4 + Z.to_nat (4 * Z.of_nat i))%nat by lia. rewrite <- app_assoc, <- drop_drop. done.
Qed.

Lemma header_fits a b c d e f : Forall (fits 8) (header a b c d e f).
Proof. unfold header. cbn [fmap list_fmap concat]. rewrite !Forall_app. repeat split; try apply be32_fits. constructor. Qed.

Lemma name_ok_fits name : name_ok name -> Forall (fits 8) name.
Proof. intros H. eapply Forall_impl; [exact H|]. simpl. tauto. Qed.

(** * A whole blob *)

(** A version 17 blob whose strings block follows its structure block. *)
Record blob_ok (fdt : list Z) (tot : Z) (pre : list Z) (pts : list ptok) (strs rest : list Z) : Prop := {
  blob_eq : fdt = pre ++ struct_block pts ++ strs ++ rest;
  blob_magic : fdt_magic fdt = Some FDT_MAGIC;
  blob_total : fdt_totalsize fdt = Some tot;
  blob_soff : fdt_off_dt_struct fdt = Some (Z.of_nat (length pre));
  blob_stroff : fdt_off_dt_strings fdt = Some (Z.of_nat (length pre + length (struct_block pts)));
  blob_vers : fdt_version fdt = Some 17;
  blob_last : exists lc, fdt_last_comp_version fdt = Some lc /\ lc <= 17;
  blob_strsize : fdt_size_dt_strings fdt = Some (Z.of_nat (length strs));
  blob_ssize : fdt_size_dt_struct fdt = Some (Z.of_nat (length (struct_block pts)));
  blob_pre : (40 <= length pre)%nat;
  blob_toks : Forall (ptok_ok strs) pts;
  blob_bytes : Forall (fits 8) (pre ++ strs ++ rest);
  blob_fits : Z.of_nat (length pre + length (struct_block pts) + length strs) <= tot <= Z.of_nat (length fdt);
  blob_small : Z.of_nat (length fdt) < 2 ^ 31 - 8
}.

Section Blob.
Context (fdt : list Z) (tot : Z) (pre : list Z) (pts : list ptok) (strs rest : list Z) (Hb : blob_ok fdt tot pre pts strs rest).
Notation st := (length (struct_block pts)).

Lemma blob_valid : valid fdt.
Proof.
  destruct Hb as [E _ Et _ _ _ _ _ _ Hp Hk Hbs Hf Hs]. rewrite !Forall_app in Hbs. destruct Hbs as (? & ? & ?).
  split; [|rewrite E|by rewrite Et; cbn; lia|done].
  - rewrite E, length_app. lia.
  - unfold struct_block. rewrite !Forall_app. split; [done|]. split; [|done]. split; [|apply be32_fits]. by eapply ptoks_fits, ptoks_ok_shape.
Qed.

Lemma blob_total_eq : total fdt = tot.
Proof. unfold total. by rewrite (blob_total _ _ _ _ _ _ Hb). Qed.

Lemma blob_probe : fdt_ro_probe_ fdt = Some tot.
Proof.
  destruct Hb as [_ Em Et _ _ Ev (lc & El & Hlc) _ _ _ _ _ Hf Hs]. unfold fdt_ro_probe_. rewrite Et, Em, Ev, El. cbn [mbind option_bind].
  rewrite Z.eqb_refl. change (17 <? FDT_FIRST_SUPPORTED_VERSION) with false. cbn [mbind option_bind].
  rewrite (proj2 (Z.ltb_ge FDT_LAST_SUPPORTED_VERSION lc)) by done. cbn [mbind option_bind]. change (0 <? 0) with false. cbv iota.
  by replace (tot <? INT_MAX) with true by (unfold INT_MAX; lia).
Qed.

Lemma blob_from_strings : from fdt (Z.of_nat (length pre + st)) = strs ++ rest.
Proof.
  unfold from. rewrite (proj2 (Z.ltb_ge _ 0)), Nat2Z.id by lia. rewrite (blob_eq _ _ _ _ _ _ Hb), app_assoc. apply drop_app_length'.
  by rewrite length_app.
Qed.

(** A name in the strings block is found at its offset. *)
Lemma blob_string noff name : name_at strs noff name -> 0 <= noff < 2 ^ 31 /\ string_at fdt noff name.
Proof.
  intros (H0 & Hok & r & Hr). rewrite <- app_assoc in Hr. cbn [app] in Hr. pose proof blob_probe as Hpr. pose proof blob_from_strings as Hfs.
  destruct Hb as [_ Em _ _ Eso Ev _ Ess _ _ _ _ Hf Hs].
  assert (Hlt : noff + Z.of_nat (length name) + 1 + Z.of_nat (length r) = Z.of_nat (length strs)).
  { apply (f_equal length) in Hr. rewrite length_drop, length_app in Hr. simpl in Hr. lia. }
  split; [lia|]. exists (Z.of_nat (length pre + st) + noff).
  assert (Hfrom : from fdt (Z.of_nat (length pre + st) + noff) = name ++ 0 :: r ++ rest).
  { replace noff with (Z.of_nat (Z.to_nat noff)) at 1 by lia. rewrite <- from_from, Hfs, drop_app_le by lia. rewrite Hr. by rewrite <- app_assoc. }
  split; [|split; [done|by exists (r ++ rest)]]. unfold fdt_get_string. rewrite Hpr. cbn [mbind option_bind].
  rewrite Eso. cbn [mbind option_bind]. rewrite (Z.add_comm noff).
  unfold u32. rewrite wrap_small by (unfold fits; lia). rewrite (proj2 (Z.ltb_ge tot 0)) by lia.
  rewrite (proj2 (Z.leb_gt tot _)) by lia.
  rewrite Em. cbn [mbind option_bind]. rewrite Z.eqb_refl. rewrite (proj2 (Z.ltb_ge _ 0) H0).
  rewrite Ev. cbn [mbind option_bind Z.leb Z.compare Pos.compare Pos.compare_cont].
  rewrite Ess. cbn [mbind option_bind]. rewrite (proj2 (Z.leb_gt (Z.of_nat (length strs)) noff)) by lia.
  replace (Z.min _ _) with (Z.of_nat (length strs) - noff) by lia. rewrite Hfrom. unfold sbi_memchr.
  replace (Z.to_nat (Z.of_nat (length strs) - noff)) with (length (name ++ 0 :: r)) by (rewrite length_app; simpl; lia).
  rewrite (sbi_memchr_split name r 0); [done|exists rest; by rewrite <- app_assoc|unfold fits; lia|].
  intros Hz. unfold name_ok in Hok. rewrite Forall_forall in Hok. by destruct (Hok 0 Hz).
Qed.

Lemma blob_block : block_at fdt 0 (struct_block pts).
Proof.
  destruct Hb as [E _ _ Eso _ _ _ _ Ess _ _ _ _ _]. split.
  - unfold soff. rewrite Eso. cbn [default from_option id]. unfold from. rewrite (proj2 (Z.ltb_ge _ 0)), Z.add_0_r, Nat2Z.id by lia.
    rewrite E, drop_app_length. by eexists.
  - unfold ssize. rewrite Ess. cbn [default from_option id]. lia.
Qed.

Lemma blob_document : document fdt (place_toks 0 (map pk pts)).
Proof.
  pose proof blob_valid as Hv. pose proof blob_total_eq as Et. pose proof blob_block as Hblk. pose proof blob_probe as Hpr. pose proof blob_string as Hst.
  destruct Hb as [_ _ _ Eso _ Ev _ _ Ess _ Hk _ Hf Hs].
  assert (Eso' : soff fdt = Z.of_nat (length pre)) by (unfold soff; by rewrite Eso). assert (Ess' : ssize fdt = Z.of_nat st) by (unfold ssize; by rewrite Ess).
  assert (Evs : vers fdt = 17) by (unfold vers; by rewrite Ev).
  apply (block_at_app _ Hv) in Hblk as [Hb1 Hb2]; [|done].
  rewrite (ptoks_bytes_length strs) in Hb2 by done. set (oe := Z.of_nat (toks_size (map pk pts))) in *. simpl in Hb2.
  split; [done|rewrite Et; split; [done|lia]|rewrite Evs; lia|]. exists oe, (oe + 4).
  pose proof (toks_size_mod (map pk pts)) as Hm. fold oe in Hm.
  split; [|split; [lia|split; [|lia]]].
  - apply (toks_read _ Hv Evs ltac:(lia) strs Hst); done.
  - apply (next_tag_end _ Hv Evs ltac:(lia)); [lia|done|exact Hb2].
Qed.

(** A tree that is written down is the tree that is read. *)
Lemma blob_holds s : map pk pts = sflat s -> holds fdt (place 0 s).
Proof.
  intros Es. exists (place_toks 0 (sflat s)). rewrite <- Es. split; [apply blob_document|]. rewrite flat_place, Es.
  generalize (sflat s), 0. induction l as [|k l IH]; intros o; [done|]. simpl. rewrite IH. by destruct k.
Qed.
End Blob.

Section Image.
Context (tot : Z) (pts : list ptok) (strs rest : list Z) (Hi : image_ok tot pts strs rest).

Notation fdt := (image tot pts strs rest).
Definition st_len : Z := Z.of_nat (length (struct_block pts)).
Notation strlen := (Z.of_nat (length strs)).

Lemma image_length : Z.of_nat (length fdt) = 56 + st_len + strlen + Z.of_nat (length rest).
Proof. unfold image, st_len. rewrite !length_app, length_replicate. change (length (header _ _ _ _ _ _)) with 40%nat. lia. Qed.

Lemma st_len_eq : st_len = Z.of_nat (toks_size (map pk pts)) + 4.
Proof. unfold st_len, struct_block. rewrite length_app, (ptoks_bytes_length strs) by apply Hi. change (length (be32 FDT_END)) with 4%nat. lia. Qed.

Lemma image_word i x : [FDT_MAGIC; tot; 56; 56 + st_len; 40; 17; 16; 0; strlen; st_len] !! i = Some x ->
  fits 32 x -> fdt_get_header fdt (4 * Z.of_nat i) = Some x.
Proof. apply header_word. Qed.

Lemma lens_pos : 0 <= st_len /\ 56 + st_len + strlen <= tot < 2 ^ 31 - 8.
Proof. destruct Hi as [_ _ _ Hf Hin Hs]. unfold st_len. lia. Qed.

Ltac word i := let H := fresh in pose proof lens_pos as H; apply (image_word i); [reflexivity|unfold fits; lia].

Lemma image_magic : fdt_magic fdt = Some FDT_MAGIC.  Proof. apply (image_word 0); [done|by vm_compute]. Qed.
Lemma image_total : fdt_totalsize fdt = Some tot.  Proof. word 1%nat. Qed.
Lemma image_soff : fdt_off_dt_struct fdt = Some 56.  Proof. word 2%nat. Qed.
Lemma image_stroff : fdt_off_dt_strings fdt = Some (56 + st_len).  Proof. word 3%nat. Qed.
Lemma image_rsvoff : fdt_off_mem_rsvmap fdt = Some 40.  Proof. word 4%nat. Qed.
Lemma image_vers : fdt_version fdt = Some 17.  Proof. word 5%nat. Qed.
Lemma image_last : fdt_last_comp_version fdt = Some 16.  Proof. word 6%nat. Qed.
Lemma image_strsize : fdt_size_dt_strings fdt = Some strlen.  Proof. word 8%nat. Qed.
Lemma image_ssize : fdt_size_dt_struct fdt = Some st_len.  Proof. word 9%nat. Qed.

Lemma image_blob : blob_ok fdt tot (header tot 56 (56 + st_len) 40 strlen st_len ++ replicate 16 0) pts strs rest.
Proof.
  pose proof lens_pos. pose proof image_length. unfold st_len in *. destruct Hi as [Ht Hs Hr Hf Hin Hsm].
  assert (El : forall a b c d e f, length (header a b c d e f ++ replicate 16 0) = 56%nat) by done.
  split; rewrite ?El; [|exact image_magic|exact image_total|exact image_soff| |exact image_vers| |exact image_strsize|exact image_ssize|lia|done| | |lia].
  - unfold image. by rewrite <- app_assoc.
  - rewrite image_stroff. unfold st_len. f_equal. lia.
  - exists 16. split; [exact image_last|lia].
  - rewrite !Forall_app. repeat split; [apply header_fits| |done|done]. apply Forall_replicate. unfold fits. lia.
  - lia.
Qed.

Lemma image_valid : valid fdt.  Proof. eapply blob_valid, image_blob. Qed.
Lemma image_probe : fdt_ro_probe_ fdt = Some tot.  Proof. eapply blob_probe, image_blob. Qed.
Lemma image_string noff name : name_at strs noff name -> 0 <= noff < 2 ^ 31 /\ string_at fdt noff name.
Proof. eapply blob_string, image_blob. Qed.
Lemma from_strings : from fdt (56 + st_len) = strs ++ rest.
Proof. rewrite <- (blob_from_strings _ _ _ _ _ _ image_blob). f_equal. unfold st_len. rewrite length_app, length_replicate. simpl length. lia. Qed.
Lemma image_block : block_at fdt 0 (struct_block pts).  Proof. eapply blob_block, image_blob. Qed.
Lemma image_holds s : map pk pts = sflat s -> holds fdt (place 0 s).  Proof. eapply blob_holds, image_blob. Qed.
End Image.

Lemma place_off s o : d_off (place o s) = o.
Proof. by destruct s. Qed.
