(* ===== verification/FdtEncode.v ===== *)
(** Trees written down as blobs, the names of their properties in a table, and
    what a client of the reader makes of the result: a copy of the tree
    ([fdt_roundtrip]), the node of a path and the first compatible device. *)

From S2P Require Import Prelude Cstring Fdt FdtTag FdtTree FdtImage.

(** * Blobs with a table of names *)

(** Where a name is in the strings block. *)
Fixpoint name_off (tbl : list (list Z)) (name : list Z) : Z :=
  match tbl with
  | [] => 0
  | s :: tbl => if decide (s = name) then 0 else Z.of_nat (length s) + 1 + name_off tbl name
  end.

Definition canon (tbl : list (list Z)) (k : stok) : ptok :=
  mkPtok k (match k with TProp name _ => name_off tbl name | _ => 0 end) (pad (body_size k)).

Definition encode_size (s : src) (tbl : list (list Z)) : Z :=
  60 + Z.of_nat (src_size s) + Z.of_nat (length (string_list tbl)).
Definition encode (tbl : list (list Z)) (s : src) : list Z :=
  image (encode_size s tbl) (map (canon tbl) (sflat s)) (string_list tbl) [].

(** What the tokens may hold: names without terminators, and property names
    that are in the table. *)
Definition stok_ok (tbl : list (list Z)) (k : stok) : Prop :=
  match k with
  | TBegin name => name_ok name
  | TEnd => True
  | TProp name value => name ∈ tbl /\ Forall (fits 8) value
  end.

(** A name of the table is found at its offset. *)
Lemma name_off_drop tbl : forall name, name ∈ tbl ->
  0 <= name_off tbl name /\ starts (name ++ [0]) (drop (Z.to_nat (name_off tbl name)) (string_list tbl)).
Proof.
  unfold string_list, starts. induction tbl as [|s tbl IH]; intros name Hin; [by apply elem_of_nil in Hin|]. simpl. destruct (decide (s = name)) as [->|Hn].
  - split; [done|]. eexists. simpl. reflexivity.
  - apply elem_of_cons in Hin as [?|Hin]; [done|]. destruct (IH name Hin) as (H0 & r & Hr). split; [lia|]. exists r. rewrite <- Hr.
    replace (Z.to_nat (Z.of_nat (length s) + 1 + name_off tbl name)) with (length (s ++ [0%Z]) + Z.to_nat (name_off tbl name))%nat
      by (rewrite length_app; simpl; lia).
    by rewrite <- drop_drop, drop_app_length.
Qed.

Lemma canon_ok tbl k : Forall name_ok tbl -> stok_ok tbl k -> ptok_ok (string_list tbl) (canon tbl k).
Proof.
  intros Htbl Hk. split; [done|]. split; [apply pad_fits|]. destruct k as [name| |name value]; cbn in *; [done..|].
  destruct Hk as [Hin Hv]. destruct (name_off_drop tbl name Hin) as [H0 Hs]. split; [done|]. split; [done|]. split; [|done].
  rewrite Forall_forall in Htbl. by apply Htbl.
Qed.

Lemma canon_pk tbl l : map pk (map (canon tbl) l) = l.
Proof. rewrite map_map. apply map_id. Qed.

Lemma string_list_fits tbl : Forall name_ok tbl -> Forall (fits 8) (string_list tbl).
Proof.
  intros Ht. unfold string_list. apply Forall_concat, Forall_map. eapply Forall_impl; [exact Ht|]. intros name Hn. simpl. apply Forall_app. split.
  - by apply name_ok_fits.
  - constructor; [unfold fits; lia|constructor].
Qed.

Section Holds.
Context (tbl : list (list Z)) (s : src).
Context (Htbl : Forall name_ok tbl) (Hs : Forall (stok_ok tbl) (sflat s)).
Context (Hsize : Z.of_nat (length (encode tbl s)) < 2 ^ 31 - 8).

Lemma encode_ok : image_ok (encode_size s tbl) (map (canon tbl) (sflat s)) (string_list tbl) [].
Proof.
  assert (Hp : Forall (ptok_ok (string_list tbl)) (map (canon tbl) (sflat s))).
  { apply Forall_map. eapply Forall_impl; [exact Hs|]. intros k. by apply canon_ok. }
  assert (Hl : Z.of_nat (length (struct_block (map (canon tbl) (sflat s)))) = Z.of_nat (src_size s) + 4).
  { unfold struct_block. rewrite length_app, (ptoks_bytes_length (string_list tbl)) by done. rewrite canon_pk. simpl length. unfold src_size. lia. }
  split; [done|by apply string_list_fits|constructor|unfold encode_size; lia| |exact Hsize].
  rewrite image_length. unfold st_len. rewrite Hl. unfold encode_size. simpl. lia.
Qed.

Lemma encode_holds : holds (encode tbl s) (place 0 s) /\ d_off (place 0 s) = 0.
Proof. split; [|apply place_off]. apply image_holds; [apply encode_ok|apply canon_pk]. Qed.
End Holds.

(** * Reading a tree back *)

(** A tree that can be written: its names are C strings, its property names
    are in the table, and the blob's offsets fit an [int]. *)
Definition writable (tbl : list (list Z)) (s : src) : Prop :=
  Forall name_ok tbl /\ Forall (stok_ok tbl) (sflat s) /\ Z.of_nat (length (encode tbl s)) < 2 ^ 31 - 8.

#[global] Instance fits_dec n x : Decision (fits n x).
Proof. unfold fits. apply _. Defined.
#[global] Instance name_ok_dec name : Decision (name_ok name).
Proof. unfold name_ok. apply _. Defined.
#[global] Instance stok_ok_dec tbl k : Decision (stok_ok tbl k).
Proof. destruct k; cbn [stok_ok]; apply _. Defined.
#[global] Instance writable_dec tbl s : Decision (writable tbl s).
Proof. unfold writable. apply _. Defined.

(** A client of the library that copies a whole tree: name, properties and
    children of each node, by the iterators. *)
Fixpoint read_props (n : nat) (fdt : list Z) (off : Z) : option (list (list Z * list Z)) :=
  if off <? 0 then Some []
  else
    match n with
    | O => None
    | S n =>
        '(r, len) ← fdt_getprop_by_offset fdt off;
        '(val, name) ← r;
        namelen ← sbi_strlen (from fdt name);
        next ← fdt_next_property_offset fdt off;
        rest ← read_props n fdt next;
        Some ((take (Z.to_nat namelen) (from fdt name), take (Z.to_nat len) (from fdt val)) :: rest)
    end.

Fixpoint read_node (n : nat) (fdt : list Z) (off : Z) : option src :=
  match n with
  | O => None
  | S n =>
      '(name, len) ← fdt_get_name fdt off;
      name ← name;
      first ← fdt_first_property_offset fdt off;
      props ← read_props (S (length fdt)) fdt first;
      offs ← fdt_for_each_subnode fdt off;
      kids ← mapM (read_node n fdt) offs;
      Some (Src (take (Z.to_nat len) (from fdt name)) props kids)
  end.

(** Forgetting the positions. *)
Fixpoint erase (t : dt) : src :=
  let '(DT _ name props kids _) := t in Src name (map (fun p => (p_name p, p_val p)) props) (map erase kids).
Fixpoint height (t : dt) : nat := let '(DT _ _ _ kids _) := t in S (list_max (map height kids)).

Lemma take_starts_eq (v l : list Z) : starts v l -> take (Z.to_nat (Z.of_nat (length v))) l = v.
Proof. intros [r ->]. rewrite Nat2Z.id, take_app_le, firstn_all by done. done. Qed.

Section ReadBack.
Context (fdt : list Z) (root : dt) (Hh : holds fdt root).

Lemma read_props_eq t p1 p2 : forall n, node_of root t -> d_props t = p1 ++ p2 -> (length p2 < n)%nat ->
  read_props n fdt (match p2 with [] => - FDT_ERR_NOTFOUND | q :: _ => p_off q end) = Some (map (fun p => (p_name p, p_val p)) p2).
Proof.
  revert p1. induction p2 as [|p p2 IH]; intros p1 n Ht Ep Hn; (destruct n as [|n]; [simpl in Hn; lia|]); [done|]. cbn [read_props].
  destruct (property_at _ _ Hh t p1 p p2 Ht Ep) as (H0 & (name & -> & Hc) & ->). rewrite (proj2 (Z.ltb_ge (p_off p) 0) H0).
  cbn [mbind option_bind]. destruct (holds_prop _ _ Hh t p Ht) as (_ & Hs & _); [rewrite Ep; apply elem_of_app; right; left|].
  rewrite (sbi_strlen_spec _ _ Hc). 2:{ destruct Hc as [_ [r Hr]]. apply (f_equal length) in Hr. rewrite length_app in Hr.
    pose proof (length_from_le fdt name). pose proof (fdt_length _ _ Hh). lia. }
  cbn [mbind option_bind]. rewrite (IH (p1 ++ [p])); [|done|by rewrite <- app_assoc|simpl in Hn; lia]. cbn [mbind option_bind map].
  rewrite (take_starts_eq (p_val p)) by done. destruct Hc as [_ [r Hr]]. by rewrite (take_starts_eq (p_name p)) by (rewrite Hr; by eexists).
Qed.

Lemma read_node_eq t : forall n, node_of root t -> (height t <= n)%nat -> read_node n fdt (d_off t) = Some (erase t).
Proof.
  induction t as [o name props kids oe IH] using dt_forall. intros n Ht Hn. destruct n as [|n]; [simpl in Hn; lia|]. cbn [read_node].
  destruct (node_name _ _ Hh _ Ht) as [[_ [r Hr]] ->]. cbn [mbind option_bind]. rewrite (first_property_at _ _ Hh _ Ht). cbn [mbind option_bind].
  pose proof (props_size _ _ Hh _ Ht) as Hsz. rewrite (read_props_eq _ [] _ _ Ht eq_refl) by lia. cbn [mbind option_bind].
  rewrite (fdt_for_each_subnode_eq _ _ Hh _ Ht). cbn [mbind option_bind d_kids d_name d_props erase].
  assert (Hk : mapM (read_node n fdt) (map d_off kids) = Some (map erase kids)).
  { assert (Hin : forall k, k ∈ kids -> read_node n fdt (d_off k) = Some (erase k)).
    { intros k Hk. rewrite Forall_forall in IH. apply IH; [done|by apply (node_of_kid root (DT o name props kids oe))|].
      cbn [height] in Hn. assert (height k <= list_max (map height kids))%nat; [|lia].
      pose proof (proj1 (list_max_le (map height kids) _) (le_n _)) as Hm. rewrite List.Forall_forall in Hm.
      apply Hm, in_map. by apply list_elem_of_In. }
    clear -Hin. induction kids as [|k kids IHk]; [done|]. cbn [map mapM]. rewrite Hin by left. cbn [mbind option_bind].
    rewrite IHk by (intros; apply Hin; by right). done. }
  rewrite Hk. cbn [mbind option_bind]. cbn [d_name d_off] in Hr. rewrite take_starts_eq; [done|]. cbn [d_off]. rewrite Hr. by eexists.
Qed.
End ReadBack.

Lemma erase_place s : forall o, erase (place o s) = s.
Proof.
  induction s as [name props kids IH] using src_forall. intros o. rewrite place_eq. cbv zeta. cbn [erase]. f_equal.
  - generalize (o + Z.of_nat (tok_size (TBegin name))). clear. induction props as [|[k v] props IHp]; intros z; [done|].
    cbn [place_list map p_name p_val fst snd]. by rewrite IHp.
  - generalize (o + Z.of_nat (tok_size (TBegin name)) + Z.of_nat (list_sum (map prop_size props))).
    induction IH as [|k kids Hk _ IHk]; intros z; [done|]. cbn [place_list map]. by rewrite Hk, IHk.
Qed.

Lemma height_flat t : (height t <= length (flat t))%nat.
Proof.
  induction t as [o name props kids oe IH] using dt_forall. cbn [height flat]. cbn [length]. rewrite !length_app.
  assert (list_max (map height kids) <= length (flat_map flat kids))%nat; [|lia]. apply list_max_le, List.Forall_forall.
  intros h (k & <- & Hk)%in_map_iff. rewrite Forall_forall in IH. etrans; [apply IH; by apply list_elem_of_In|].
  clear -Hk. induction kids as [|k' kids IHk]; [done|]. cbn [flat_map]. rewrite length_app. destruct Hk as [->|Hk]; [lia|]. specialize (IHk Hk). lia.
Qed.

(** A client that starts at the root gets the whole tree. *)
Lemma holds_read fdt s : holds fdt (place 0 s) -> read_node (length fdt) fdt 0 = Some s.
Proof.
  intros Hh. pose proof (read_node_eq _ _ Hh (place 0 s) (length fdt)) as E. rewrite place_off, erase_place in E. apply E; [constructor|].
  etrans; [apply height_flat|]. exact (flat_length _ _ Hh).
Qed.

(** C5: What is written is what is read: copying the blob of a tree through the
    library's iterators, starting at offset 0, gives the tree back, whatever
    its shape; [length] turns are enough. *)
Theorem fdt_roundtrip tbl s : writable tbl s ->
  read_node (length (encode tbl s)) (encode tbl s) 0 = Some s.
Proof.
  intros (Ht & Hs & Hl). apply holds_read. by apply encode_holds.
Qed.

(** * Finding nodes *)

Definition s_name (s : src) : list Z := let '(Src name _ _) := s in name.
Definition s_kids (s : src) : list src := let '(Src _ _ kids) := s in kids.
Definition s_prop (key : list Z) (s : src) : option (list Z) :=
  let '(Src _ props _) := s in snd <$> List.find (fun p => bool_decide (p.1 = key)) props.

(** The first child of each name, from the root down; the unit address may be
    left out. *)
Fixpoint find_path (s : src) (segs : list (list Z)) : option src :=
  match segs with
  | [] => Some s
  | seg :: segs => k ← List.find (fun k => name_match seg (s_name k)) (s_kids s); find_path k segs
  end.

(** The nodes in document order, and whether one is compatible with [key]. *)
Fixpoint s_nodes (s : src) : list src := let '(Src _ _ kids) := s in s :: flat_map s_nodes kids.
Definition s_compat (key : list Z) (s : src) : bool :=
  match s_prop (chars "compatible") s with Some v => bool_decide (key ∈ split0 v) | None => false end.

(** A "compatible" property is a list of terminated strings. *)
Definition compat_ok (s : src) : Prop :=
  match s_prop (chars "compatible") s with Some v => last v = Some 0 \/ v = [] | None => True end.
#[global] Instance compat_ok_dec s : Decision (compat_ok s).
Proof. unfold compat_ok. destruct (s_prop _ s); apply _. Defined.

Lemma s_name_erase t : s_name (erase t) = d_name t.
Proof. by destruct t. Qed.

Lemma s_kids_erase t : s_kids (erase t) = map erase (d_kids t).
Proof. by destruct t. Qed.

Lemma find_ext {A} (p q : A -> bool) l : (forall x, p x = q x) -> List.find p l = List.find q l.
Proof. intros E. induction l as [|x l IH]; [done|]. cbn [List.find]. by rewrite E, IH. Qed.

Lemma find_map {A B} (f : A -> B) p l : List.find p (map f l) = f <$> List.find (fun x => p (f x)) l.
Proof. induction l as [|x l IH]; [done|]. cbn [map List.find]. by destruct (p (f x)). Qed.

Lemma s_prop_erase key t : s_prop key (erase t) = p_val <$> find_prop key (d_props t).
Proof.
  destruct t as [o name props kids oe]. cbn [erase s_prop d_props]. rewrite find_map. unfold find_prop. cbn [fst].
  by destruct (List.find _ props).
Qed.

Lemma find_path_erase segs : forall t, find_path (erase t) segs = erase <$> lookup_path t segs.
Proof.
  induction segs as [|seg segs IH]; intros t; [done|]. cbn [find_path lookup_path]. rewrite s_kids_erase, find_map. unfold kid_named.
  rewrite (find_ext _ (fun k => name_match seg (d_name k))) by (intros k; by rewrite s_name_erase).
  destruct (List.find _ (d_kids t)) as [k|]; [|done]. cbn [fmap option_fmap option_map mbind option_bind]. apply IH.
Qed.

Lemma s_nodes_erase t : s_nodes (erase t) = map erase (nodes t).
Proof.
  induction t as [o name props kids oe IH] using dt_forall. cbn [erase s_nodes nodes d_kids map]. f_equal.
  induction IH as [|k kids Hk _ IHk]; [done|]. cbn [map flat_map]. by rewrite Hk, IHk, map_app.
Qed.

Lemma s_compat_erase key t : s_compat key (erase t) = compat key t.
Proof. unfold s_compat, compat. rewrite s_prop_erase. by destruct (find_prop _ _). Qed.

(** The result of a search: the offset of a node that reads back as [k], or
    the error. *)
Definition found (fdt : list Z) (k : option src) (r : option Z) : Prop :=
  match k with
  | Some k => exists o, r = Some o /\ 0 <= o /\ read_node (length fdt) fdt o = Some k
  | None => r = Some (- FDT_ERR_NOTFOUND)
  end.

Lemma found_node fdt root (Hh : holds fdt root) (t : option dt) : (forall k, t = Some k -> node_of root k) ->
  found fdt (erase <$> t) (Some (match t with Some k => d_off k | None => - FDT_ERR_NOTFOUND end)).
Proof.
  intros Hn. destruct t as [k|]; [|done]. cbn. exists (d_off k). split; [done|]. pose proof (Hn k eq_refl) as Hk. split.
  - destruct (node_offset _ _ Hh k Hk) as [Ho _]. lia.
  - apply (read_node_eq _ _ Hh); [done|]. etrans; [apply height_flat|]. etrans; [|exact (flat_length _ _ Hh)]. clear -Hk.
    induction Hk as [t|t k t' Hin _ IH]; [done|]. etrans; [exact IH|]. rewrite (flat_eq t). cbn [length]. rewrite !length_app.
    apply list_elem_of_split in Hin as (k1 & k2 & ->). unfold flats. rewrite flat_map_app, length_app. cbn [flat_map]. rewrite length_app. lia.
Qed.

Lemma lookup_path_node segs : forall root t k, node_of root t -> lookup_path t segs = Some k -> node_of root k.
Proof.
  induction segs as [|seg segs IH]; intros root t k Ht E; [by injection E as <-|]. cbn [lookup_path] in E.
  destruct (kid_named seg t) as [k'|] eqn:Ek; [|done]. apply (IH root k'); [|done]. apply (node_of_kid root t); [done|]. by eapply kid_named_in.
Qed.

(** Looking up an absolute path in the blob of a tree finds the node that the
    path names in the tree, taking the first child of a name at each step, and
    reports that there is none otherwise. *)
Theorem fdt_path_offset_finds tbl s n segs : writable tbl s -> segs <> [] -> Forall seg_ok segs ->
  Z.of_nat (length (path_bytes segs)) < 2 ^ 31 ->
  found (encode tbl s) (find_path s segs) (fdt_path_offset n (encode tbl s) (path_bytes segs ++ [0])).
Proof.
  intros (Ht & Hs & Hl) Hne Hsegs Hlen. destruct (encode_holds tbl s Ht Hs Hl) as [Hh H0].
  rewrite (fdt_path_offset_eq _ _ Hh n segs) by (done || by exists []; rewrite app_nil_r).
  rewrite <- (erase_place s 0) at 2. rewrite find_path_erase. apply (found_node _ _ Hh).
  intros k. apply lookup_path_node. constructor.
Qed.

(** The search for a compatible device finds the first one in document order
    whose "compatible" list has the string. *)
Theorem fdt_node_offset_by_compatible_first tbl s key : writable tbl s ->
  Forall compat_ok (s_nodes s) ->
  key <> [] -> name_ok key -> Z.of_nat (length key) < 2 ^ 31 ->
  found (encode tbl s) (List.find (s_compat key) (s_nodes s)) (fdt_node_offset_by_compatible (encode tbl s) (-1) (key ++ [0])).
Proof.
  intros (Ht & Hs & Hl) Hc Hne Hk Hlen. destruct (encode_holds tbl s Ht Hs Hl) as [Hh H0].
  rewrite <- (erase_place s 0), s_nodes_erase in Hc. rewrite <- (erase_place s 0) at 2. rewrite s_nodes_erase, find_map.
  rewrite (fdt_node_offset_by_compatible_eq _ _ Hh (-1) (nodes (place 0 s)) key); [|by left| |done|by split; [|exists []]|done].
  - rewrite (find_ext _ (compat key)) by (intros; apply s_compat_erase). apply (found_node _ _ Hh).
    intros k [Hin _]%find_some. apply nodes_node. by apply list_elem_of_In.
  - intros t p Hn Hp. rewrite Forall_map, Forall_forall in Hc. specialize (Hc t (node_nodes _ _ Hn)).
    unfold compat_ok, compose in Hc. by rewrite s_prop_erase, Hp in Hc.
Qed.

(** A small machine: two harts with their interrupt controllers, a CLINT, a
    PLIC and a serial port. *)
Definition cells (l : list Z) : list Z := concat (map be32 l).
Definition sprop (name : string) (value : list Z) : list Z * list Z := (chars name, value).

Definition demo_cpu (name : string) (hart phandle : Z) : src :=
  Src (chars name)
    [sprop "device_type" (cstring "cpu"); sprop "reg" (be32 hart); sprop "mmu-type" (cstring "riscv,sv39")]
    [Src (chars "interrupt-controller") [sprop "phandle" (be32 phandle)] []].

Definition demo : src :=
  Src []
    [sprop "#address-cells" (be32 1); sprop "#size-cells" (be32 1); sprop "model" (cstring "demo")]
    [Src (chars "chosen") [sprop "stdout-path" (cstring "/soc/serial@10000000")] [];
     Src (chars "cpus") [sprop "#address-cells" (be32 1); sprop "#size-cells" (be32 0)]
       [demo_cpu "cpu@0" 0 1; demo_cpu "cpu@1" 1 2];
     Src (chars "soc") [sprop "#address-cells" (be32 1); sprop "#size-cells" (be32 1)]
       [Src (chars "clint@2000000")
          [sprop "compatible" (cstring "riscv,clint0"); sprop "reg" (cells [0x2000000; 0x10000]);
           sprop "interrupts-extended" (cells [1; 3; 1; 7; 2; 3; 2; 7])] [];
        Src (chars "plic@c000000")
          [sprop "compatible" (cstring "sifive,plic-1.0.0" ++ cstring "riscv,plic0"); sprop "reg" (cells [0xc000000; 0x400000]);
           sprop "interrupts-extended" (cells [1; 11; 1; 9; 2; 11; 2; 9]); sprop "riscv,ndev" (be32 10)] [];
        Src (chars "serial@10000000")
          [sprop "compatible" (cstring "ns16550a"); sprop "reg" (cells [0x10000000; 0x100]);
           sprop "clock-frequency" (be32 3686400); sprop "current-speed" (be32 115200)] []]].

Definition demo_names : list (list Z) :=
  map chars ["#address-cells"; "#size-cells"; "model"; "stdout-path"; "device_type"; "reg"; "mmu-type"; "phandle";
             "compatible"; "interrupts-extended"; "riscv,ndev"; "clock-frequency"; "current-speed"]%string.

Lemma demo_writable : writable demo_names demo.
Proof. apply (bool_decide_unpack _). by vm_compute. Qed.

Lemma fdt_roundtrip_witness : read_node (length (encode demo_names demo)) (encode demo_names demo) 0 = Some demo.
Proof. exact (fdt_roundtrip demo_names demo demo_writable). Defined.

#[global] Instance seg_ok_dec seg : Decision (seg_ok seg).
Proof. unfold seg_ok. apply _. Defined.

Lemma fdt_path_offset_finds_witness :
  found (encode demo_names demo) (Some (demo_cpu "cpu@1" 1 2))
    (fdt_path_offset 0 (encode demo_names demo) (cstring "/cpus/cpu@1")).
Proof.
  apply (fdt_path_offset_finds demo_names demo 0 [chars "cpus"; chars "cpu@1"] demo_writable); [done| |by vm_compute].
  apply (bool_decide_unpack _). by vm_compute.
Defined.

Lemma fdt_node_offset_by_compatible_first_witness :
  found (encode demo_names demo) (find_path demo [chars "soc"; chars "plic"])
    (fdt_node_offset_by_compatible (encode demo_names demo) (-1) (cstring "riscv,plic0")).
Proof.
  apply (fdt_node_offset_by_compatible_first demo_names demo (chars "riscv,plic0") demo_writable); [|done| |by vm_compute];
    apply (bool_decide_unpack _); by vm_compute.
Defined.
