(* ===== verification/FdtHelper.v ===== *)
(** What the firmware asks of the device tree: lib/utils/fdt/fdt_helper.c.

    Pointers to the blob, to a match table and to a result are not null here;
    the checks for null are left out.  A table of matches is the list of its
    compatible strings.  A parser returns an error or everything it stores;
    what a failing one has stored before is not kept. *)

From S2P Require Import Prelude Encoding Bitops Cstring Fdt FdtTag FdtTree FdtImage FdtEncode.

(** * Matching *)

(** The entry of the table that matches the node. *)
Fixpoint match_loop (fdt : list Z) (nodeoff : Z) (match_table : list string) : option (option string) :=
  match match_table with
  | [] => Some None
  | compatible :: match_table =>
      ret ← fdt_node_check_compatible fdt nodeoff (cstring compatible);
      if ret =? 0 then Some (Some compatible) else match_loop fdt nodeoff match_table
  end.
Definition fdt_match_node (fdt : list Z) (nodeoff : Z) (match_table : list string) : option (option string) :=
  if nodeoff <? 0 then Some None else match_loop fdt nodeoff match_table.

(** The offset found, or the error, and the entry. *)
Fixpoint fdt_find_match (fdt : list Z) (startoff : Z) (match_table : list string) : option (Z * option string) :=
  match match_table with
  | [] => Some (SBI_ENODEV, None)
  | compatible :: match_table =>
      nodeoff ← fdt_node_offset_by_compatible fdt startoff (cstring compatible);
      if 0 <=? nodeoff then Some (nodeoff, Some compatible) else fdt_find_match fdt startoff match_table
  end.

(** * Addresses and numbers *)

(** [for (i = 0; i < n; i++) temp = (temp << 32) | fdt32_to_cpu( *p++);] *)
Fixpoint read_cells (n : nat) (fdt : list Z) (p temp : Z) : option Z :=
  match n with
  | O => Some temp
  | S n => v ← fdt32_ld (from fdt p); read_cells n fdt (p + 4) (u64 (Z.shiftl temp 32) .| v)
  end.

(** The result, the address and, when it is asked for, the size. *)
Definition fdt_get_node_addr_size (fdt : list Z) (node : Z) (want_size : bool) : option (Z * Z * Z) :=
  parent ← fdt_parent_offset fdt node;
  if parent <? 0 then Some (parent, 0, 0) else
  cell_addr ← fdt_address_cells fdt parent;
  if cell_addr <? 1 then Some (SBI_ENODEV, 0, 0) else
  cell_size ← fdt_size_cells fdt parent;
  if cell_size <? 0 then Some (SBI_ENODEV, 0, 0) else
  '(prop, _) ← fdt_getprop fdt node (cstring "reg");
  match prop with
  | None => Some (SBI_ENODEV, 0, 0)
  | Some prop_addr =>
      addr ← read_cells (Z.to_nat cell_addr) fdt prop_addr 0;
      size ← (if want_size then read_cells (Z.to_nat cell_size) fdt (prop_addr + 4 * cell_addr) 0 else Some 0);
      Some (0, addr, size)
  end.

(** The result and the hart. *)
Definition fdt_parse_hart_id (fdt : list Z) (cpu_offset : Z) : option (Z * Z) :=
  if cpu_offset <? 0 then Some (SBI_EINVAL, 0) else
  '(prop, len) ← fdt_getprop fdt cpu_offset (cstring "device_type");
  match prop with
  | None => Some (SBI_EINVAL, 0)
  | Some prop =>
      if len =? 0 then Some (SBI_EINVAL, 0) else
      c ← sbi_strcmp (from fdt prop) (cstring "cpu");
      if nz c then Some (SBI_EINVAL, 0) else
      '(val, len) ← fdt_getprop fdt cpu_offset (cstring "reg");
      match val with
      | None => Some (SBI_EINVAL, 0)
      | Some val =>
          if u64 len <? 4 then Some (SBI_EINVAL, 0)
          else hartid ← fdt32_ld (from fdt (if 4 <? u64 len then val + 4 else val)); Some (0, hartid)
      end
  end.

Fixpoint max_hart_loop (fdt : list Z) (cpus : list Z) (max_hartid : Z) : option Z :=
  match cpus with
  | [] => Some max_hartid
  | cpu_offset :: cpus =>
      '(err, hartid) ← fdt_parse_hart_id fdt cpu_offset;
      max_hart_loop fdt cpus (if nz err then max_hartid else Z.max hartid max_hartid)
  end.
(** The nesting of aliases plays no role for an absolute path. *)
Definition fdt_parse_max_hart_id (fdt : list Z) : option (Z * Z) :=
  cpus_offset ← fdt_path_offset 0 fdt (cstring "/cpus");
  if cpus_offset <? 0 then Some (cpus_offset, 0)
  else
    cpus ← fdt_for_each_subnode fdt cpus_offset;
    m ← max_hart_loop fdt cpus 0;
    Some (0, m).

(** * Devices *)

Record platform_uart_data : Type := mkUartData {
  uart_addr : Z; uart_freq : Z; uart_baud : Z; uart_reg_shift : Z; uart_reg_io_width : Z
}.

(** [val = fdt_getprop(...); x = (len > 0 && val) ? *val : dflt] *)
Definition number_prop (fdt : list Z) (nodeoffset : Z) (name : string) (dflt : Z) : option Z :=
  '(val, len) ← fdt_getprop fdt nodeoffset (cstring name);
  match val with
  | Some val => if 0 <? len then fdt32_ld (from fdt val) else Some dflt
  | None => Some dflt
  end.

(** The address of a device node, without which there is no device. *)
Definition node_addr (fdt : list Z) (nodeoffset : Z) : option (Z + Z) :=
  if nodeoffset <? 0 then Some (inl SBI_ENODEV)
  else
    '(rc, reg_addr, reg_size) ← fdt_get_node_addr_size fdt nodeoffset true;
    Some (if (rc <? 0) || (reg_addr =? 0) || (reg_size =? 0) then inl SBI_ENODEV else inr reg_addr).

Definition fdt_parse_shakti_uart_node (fdt : list Z) (nodeoffset : Z) : option (Z + platform_uart_data) :=
  a ← node_addr fdt nodeoffset;
  match a with
  | inl rc => Some (inl rc)
  | inr addr =>
      freq ← number_prop fdt nodeoffset "clock-frequency" 50000000;
      baud ← number_prop fdt nodeoffset "current-speed" 115200;
      Some (inr (mkUartData addr freq baud 0 0))
  end.

Definition fdt_parse_sifive_uart_node (fdt : list Z) (nodeoffset : Z) : option (Z + platform_uart_data) :=
  a ← node_addr fdt nodeoffset;
  match a with
  | inl rc => Some (inl rc)
  | inr addr =>
      freq ← number_prop fdt nodeoffset "clock-frequency" 0;
      baud ← number_prop fdt nodeoffset "current-speed" 115200;
      Some (inr (mkUartData addr freq baud 0 4))
  end.

Definition fdt_parse_uart8250_node (fdt : list Z) (nodeoffset : Z) : option (Z + platform_uart_data) :=
  a ← node_addr fdt nodeoffset;
  match a with
  | inl rc => Some (inl rc)
  | inr addr =>
      freq ← number_prop fdt nodeoffset "clock-frequency" 0;
      baud ← number_prop fdt nodeoffset "current-speed" 115200;
      shift ← number_prop fdt nodeoffset "reg-shift" 0;
      width ← number_prop fdt nodeoffset "reg-io-width" 1;
      Some (inr (mkUartData addr freq baud shift width))
  end.

(** The first node with the given compatible string, handed to [parse]. *)
Definition by_compatible {A} (fdt : list Z) (compat : string) (parse : Z -> option (Z + A)) : option (Z + A) :=
  nodeoffset ← fdt_node_offset_by_compatible fdt (-1) (cstring compat);
  if nodeoffset <? 0 then Some (inl nodeoffset) else parse nodeoffset.
Definition fdt_parse_uart8250 (fdt : list Z) (compatible : string) : option (Z + platform_uart_data) :=
  by_compatible fdt compatible (fdt_parse_uart8250_node fdt).

(** Address and number of sources; the latter keeps its old value when the
    node does not say. *)
Definition fdt_parse_plic_node (fdt : list Z) (nodeoffset old_num_src : Z) : option (Z + Z * Z) :=
  a ← node_addr fdt nodeoffset;
  match a with
  | inl rc => Some (inl rc)
  | inr addr => n ← number_prop fdt nodeoffset "riscv,ndev" old_num_src; Some (inr (addr, n))
  end.
Definition fdt_parse_plic (fdt : list Z) (old_num_src : Z) (compat : string) : option (Z + Z * Z) :=
  by_compatible fdt compat (fun o => fdt_parse_plic_node fdt o old_num_src).

(** The hart an interrupt reference leads to: the referenced controller is a
    child of the hart's node. *)
Definition intc_hart (fdt : list Z) (phandle : Z) : option (option Z) :=
  cpu_intc_offset ← fdt_node_offset_by_phandle fdt phandle;
  if cpu_intc_offset <? 0 then Some None
  else
    cpu_offset ← fdt_parent_offset fdt cpu_intc_offset;
    '(rc, hartid) ← fdt_parse_hart_id fdt cpu_offset;
    Some (if nz rc || (SBI_HARTMASK_MAX_BITS <=? hartid) then None else Some hartid).

(** The loop over "interrupts-extended": [n] cells are left at [p]; [first],
    [last] and [hart_count] are the running results. *)
Fixpoint clint_harts (n : nat) (fdt : list Z) (p left match_hwirq first last hart_count : Z) : option (Z * Z * Z) :=
  if left <=? 0 then Some (first, last, hart_count)
  else
    match n with
    | O => None
    | S n =>
        phandle ← fdt32_ld (from fdt p);
        hwirq ← fdt32_ld (from fdt (p + 4));
        hart ← intc_hart fdt phandle;
        match hart with
        | Some hartid =>
            if match_hwirq =? hwirq then
              clint_harts n fdt (p + 8) (left - 2) match_hwirq (Z.min hartid first) (Z.max hartid last) (u32 (hart_count + 1))
            else clint_harts n fdt (p + 8) (left - 2) match_hwirq first last hart_count
        | None => clint_harts n fdt (p + 8) (left - 2) match_hwirq first last hart_count
        end
    end.

(** Address, first hart and number of harts. *)
Definition fdt_parse_clint_node (fdt : list Z) (nodeoffset : Z) (for_timer : bool) : option (Z + Z * Z * Z) :=
  let match_hwirq := if for_timer then IRQ_M_TIMER else IRQ_M_SOFT in
  a ← node_addr fdt nodeoffset;
  match a with
  | inl rc => Some (inl rc)
  | inr addr =>
      '(val, count) ← fdt_getprop fdt nodeoffset (cstring "interrupts-extended");
      match val with
      | None => Some (inl SBI_EINVAL)
      | Some val =>
          if u64 count <? 4 then Some (inl SBI_EINVAL)
          else
            let cells := u64 count / 4 in
            '(first, last, hart_count) ← clint_harts (S (Z.to_nat (s32 cells))) fdt val (s32 cells) match_hwirq 4294967295 0 0;
            if (last <? first) || (first =? 4294967295) then Some (inl SBI_ENODEV)
            else Some (inr (addr, first, Z.max hart_count (last - first + 1)))
      end
  end.

Definition fdt_parse_compat_addr (fdt : list Z) (compatible : string) : option (Z + Z) :=
  by_compatible fdt compatible (fun o =>
    '(rc, addr, _) ← fdt_get_node_addr_size fdt o false; Some (if rc <? 0 then inl SBI_ENODEV else inr addr)).

(** * What the parsers find in a tree *)

(** The C string at the start of a value. *)
Definition first_string (v : list Z) : list Z := default [] (head (split0 v)).

(** Conditions on a value that may be there. *)
#[global] Instance some_imp_dec {A} (o : option A) (P : A -> Prop) `{forall x, Decision (P x)} : Decision (forall x, o = Some x -> P x).
Proof.
  refine (match o with Some x => if decide (P x) then left _ else right _ | None => left _ end); [by intros y [= <-]|eauto|done].
Defined.

(** The hart of a cpu node: its "reg", whose second cell counts when there are
    two. *)
Definition hart_of (t : dt) : option Z :=
  match find_prop (chars "device_type") (d_props t), find_prop (chars "reg") (d_props t) with
  | Some d, Some r =>
      if bool_decide (first_string (p_val d) = chars "cpu") then
        if (length (p_val r) <? 4)%nat then None
        else if (length (p_val r) =? 4)%nat then fdt32_ld (p_val r) else fdt32_ld (drop 4 (p_val r))
      else None
  | _, _ => None
  end.

(** The cpu properties are well formed: strings are terminated, and a "reg" of
    more than one cell has two at least. *)
Definition cpu_props_ok (t : dt) : Prop :=
  (forall p, find_prop (chars "device_type") (d_props t) = Some p -> last (p_val p) = Some 0 /\ Forall (fits 8) (p_val p)) /\
  (forall p, find_prop (chars "reg") (d_props t) = Some p -> (length (p_val p) <= 4 \/ 8 <= length (p_val p))%nat).

Lemma split0_cons v : last v = Some 0 -> exists r, v = first_string v ++ 0 :: r.
Proof.
  intros Hl. pose proof (split0_string_list v (or_introl Hl)) as E. unfold first_string, string_list in *.
  destruct (split0 v) as [|s l]; simpl in E; [by subst v|]. exists (concat (map (fun s => s ++ [0]) l)). simpl. by rewrite <- E at 1; rewrite <- app_assoc.
Qed.

Section Parse.
Context (fdt : list Z) (root : dt) (Hh : holds fdt root).

Lemma fdt_parse_hart_id_eq t : node_of root t -> cpu_props_ok t ->
  fdt_parse_hart_id fdt (d_off t) = Some (match hart_of t with Some h => (0, h) | None => (SBI_EINVAL, 0) end).
Proof.
  intros Ht [Hd Hr]. unfold fdt_parse_hart_id, hart_of. destruct (node_offset _ _ Hh t Ht) as [Ho _].
  replace (d_off t <? 0) with false by lia. rewrite (fdt_getprop_lit _ _ Hh "device_type") by done. cbn [mbind option_bind].
  destruct (find_prop (chars "device_type") _) as [d|] eqn:Ed; [|done]. destruct (Hd d eq_refl) as [Hl Hf].
  destruct (holds_prop _ _ Hh t d Ht) as (_ & Hs & _); [by eapply find_prop_in|].
  assert (Hne : (length (p_val d) <> 0)%nat) by (destruct (p_val d); simpl in *; [done|lia]).
  rewrite (proj2 (Z.eqb_neq (Z.of_nat (length (p_val d))) 0)) by lia.
  destruct (split0_cons _ Hl) as [r0 Hv]. destruct Hs as [r1 Hs].
  destruct (sbi_strcmp_spec (first_string (p_val d)) (chars "cpu") (from fdt (val_pos fdt d)) (cstring "cpu")) as (c & -> & Hc).
  { split.
    - apply Forall_forall. intros c Hc. split.
      + rewrite Forall_forall in Hf. apply Hf. rewrite Hv. apply elem_of_app. by left.
      + pose proof (split0_nonzero (p_val d)) as Hz. unfold first_string in Hc. destruct (split0 (p_val d)) as [|s l]; [by apply elem_of_nil in Hc|].
        apply Forall_cons in Hz as [Hz _]. rewrite Forall_forall in Hz. by apply Hz.
    - exists (r0 ++ r1). rewrite Hs, Hv at 1. by rewrite <- app_assoc. }
  { rewrite <- (app_nil_r (cstring _)). apply chars_cstring. repeat constructor; done. }
  cbn [mbind option_bind]. destruct (decide (first_string (p_val d) = chars "cpu")) as [Hcpu|Hcpu].
  2:{ rewrite bool_decide_eq_false_2 by done. rewrite (proj2 (nz_true c)) by (intros Hc0; by apply Hcpu, Hc). by destruct (find_prop (chars "reg") _). }
  rewrite bool_decide_eq_true_2 by done. rewrite (proj2 (nz_false c)) by (by apply Hc).
  rewrite (fdt_getprop_lit _ _ Hh "reg") by done. cbn [mbind option_bind].
  destruct (find_prop (chars "reg") _) as [r|] eqn:Er; [|done]. destruct (holds_prop _ _ Hh t r Ht) as (_ & Hs' & Hvp); [by eapply find_prop_in|].
  pose proof (Hr r eq_refl) as Hlen. pose proof (fdt_length _ _ Hh). pose proof (starts_length _ _ Hs') as Hsl. rewrite length_from in Hsl by done.
  unfold u64. rewrite wrap_small by (unfold fits; lia).
  destruct (Nat.ltb_spec (length (p_val r)) 4) as [Hlt|Hge].
  { by rewrite (proj2 (Z.ltb_lt (Z.of_nat (length (p_val r))) 4)) by lia. }
  rewrite (proj2 (Z.ltb_ge (Z.of_nat (length (p_val r))) 4)) by lia.
  destruct (Nat.eqb_spec (length (p_val r)) 4) as [E4|N4].
  - rewrite E4. change (4 <? Z.of_nat 4) with false. cbv iota.
    rewrite (fdt32_ld_starts _ _ E4 Hs'). destruct (p_val r) as [|? [|? [|? [|? [|]]]]]; done.
  - rewrite (proj2 (Z.ltb_lt 4 (Z.of_nat (length (p_val r))))) by lia. change 4 with (Z.of_nat 4) at 1. rewrite <- from_from by done.
    destruct Hs' as [r' Hs']. rewrite Hs'.
    destruct (p_val r) as [|? [|? [|? [|? [|? [|? [|? [|? ?]]]]]]]]; simpl in *; try lia; done.
Qed.

(** ** Addresses *)

(** A number of [n] cells at the start of a value. *)
Fixpoint cells_of (n : nat) (v : list Z) (temp : Z) : option Z :=
  match n with
  | O => Some temp
  | S n => w ← fdt32_ld v; cells_of n (drop 4 v) (u64 (Z.shiftl temp 32) .| w)
  end.

Lemma read_cells_starts n : forall v p temp, 0 <= p -> starts v (from fdt p) -> (4 * n <= length v)%nat ->
  read_cells n fdt p temp = cells_of n v temp /\ exists x, cells_of n v temp = Some x.
Proof.
  induction n as [|n IH]; intros v p temp Hp Hs Hl; simpl; [by eauto|].
  destruct v as [|b0 [|b1 [|b2 [|b3 v]]]]; cbn [length] in Hl; try lia. destruct Hs as [r Hs]. rewrite Hs. cbn [app fdt32_ld mbind option_bind drop].
  apply (IH v); [lia| |lia]. change (p + 4) with (p + Z.of_nat 4). rewrite <- from_from by done. rewrite Hs. by eexists.
Qed.

(** The number in a one-cell property, or its default. *)
Definition cell_or (name : string) (dflt : Z) (t : dt) : Z :=
  match find_prop (chars name) (d_props t) with Some p => default 0 (fdt32_ld (p_val p)) | None => dflt end.
Definition address_cells (t : dt) : Z := cell_or "#address-cells" 2 t.
Definition size_cells (t : dt) : Z := cell_or "#size-cells" 1 t.

(** The cell counts of a node are one cell each and within their limits. *)
Definition cells_ok (t : dt) : Prop :=
  1 <= address_cells t <= 4 /\ 0 <= size_cells t <= 4 /\
  forall name p, name = "#address-cells"%string \/ name = "#size-cells"%string ->
    find_prop (chars name) (d_props t) = Some p -> length (p_val p) = 4%nat.

Lemma fdt_cells_eq t name : node_of root t -> name = "#address-cells"%string \/ name = "#size-cells"%string ->
  (forall p, find_prop (chars name) (d_props t) = Some p -> length (p_val p) = 4%nat) -> 0 <= cell_or name 0 t <= 4 ->
  fdt_cells fdt (d_off t) (cstring name) =
  Some (match find_prop (chars name) (d_props t) with Some p => cell_or name 0 t | None => - FDT_ERR_NOTFOUND end).
Proof.
  intros Ht Hname Hl Hb. unfold fdt_cells. rewrite (fdt_getprop_lit _ _ Hh name) by (done || by destruct Hname as [->| ->]).
  cbn [mbind option_bind]. unfold cell_or in *. destruct (find_prop (chars name) _) as [p|] eqn:Ef; [|done].
  rewrite (Hl p eq_refl). change (negb (Z.of_nat 4 =? 4)) with false. cbv iota.
  destruct (holds_prop _ _ Hh t p Ht) as (_ & Hs & _); [by eapply find_prop_in|].
  rewrite (fdt32_ld_starts _ _ (Hl p eq_refl) Hs). pose proof (Hl p eq_refl) as Hl4.
  destruct (p_val p) as [|? [|? [|? [|? [|]]]]]; try done. cbn [fdt32_ld default from_option id mbind option_bind] in *.
  unfold FDT_MAX_NCELLS. by rewrite (proj2 (Z.ltb_ge 4 _)) by lia.
Qed.

Lemma fdt_address_cells_eq t : node_of root t -> cells_ok t -> fdt_address_cells fdt (d_off t) = Some (address_cells t).
Proof.
  intros Ht (Ha & _ & Hcell). unfold fdt_address_cells. unfold address_cells in *.
  rewrite fdt_cells_eq; [|done|by left|intros q; apply Hcell; by left|unfold cell_or in *; by destruct (find_prop _ _); lia].
  cbn [mbind option_bind]. unfold cell_or in *. destruct (find_prop (chars "#address-cells") _); [|done].
  unfold FDT_ERR_NOTFOUND. by rewrite (proj2 (Z.eqb_neq _ 0)), (proj2 (Z.eqb_neq _ (- 1))) by lia.
Qed.

Lemma fdt_size_cells_eq t : node_of root t -> cells_ok t -> fdt_size_cells fdt (d_off t) = Some (size_cells t).
Proof.
  intros Ht (Ha & Hsz & Hcell). clear Ha. unfold fdt_size_cells. unfold size_cells in *.
  rewrite fdt_cells_eq; [|done|by right|intros q; apply Hcell; by right|unfold cell_or in *; by destruct (find_prop _ _); lia].
  cbn [mbind option_bind]. unfold cell_or in *. destruct (find_prop (chars "#size-cells") _); [|done].
  unfold FDT_ERR_NOTFOUND. by rewrite (proj2 (Z.eqb_neq _ (- 1))) by lia.
Qed.

(** Address and size of a node, by the cell counts of its parent. *)
Definition reg_of (p t : dt) : option (Z * Z) :=
  r ← find_prop (chars "reg") (d_props t);
  let a := Z.to_nat (address_cells p) in
  let s := Z.to_nat (size_cells p) in
  if (4 * (a + s) <=? length (p_val r))%nat then
    addr ← cells_of a (p_val r) 0; size ← cells_of s (drop (4 * a) (p_val r)) 0; Some (addr, size)
  else None.

Lemma fdt_get_node_addr_size_eq d p t addr size want : d_off root = 0 -> at_depth root d p -> t ∈ d_kids p -> cells_ok p ->
  reg_of p t = Some (addr, size) ->
  fdt_get_node_addr_size fdt (d_off t) want = Some (0, addr, if want then size else 0).
Proof.
  intros H0 Hd Hk Hc Hreg. destruct (at_depth_node _ _ _ Hd) as [Hp _].
  assert (Ht : node_of root t) by (by apply (node_of_kid root p)). unfold fdt_get_node_addr_size.
  rewrite (fdt_parent_offset_eq _ _ Hh H0 d p t Hd Hk). cbn [mbind option_bind].
  destruct (node_offset _ _ Hh p Hp) as [Hpo _]. replace (d_off p <? 0) with false by lia.
  rewrite (fdt_address_cells_eq p Hp Hc), (fdt_size_cells_eq p Hp Hc). destruct Hc as (Ha & Hsz & _). cbn [mbind option_bind].
  rewrite (proj2 (Z.ltb_ge (address_cells p) 1)), (proj2 (Z.ltb_ge (size_cells p) 0)) by lia.
  rewrite (fdt_getprop_lit _ _ Hh "reg") by done. cbn [mbind option_bind]. unfold reg_of in Hreg.
  destruct (find_prop (chars "reg") _) as [r|] eqn:Er; [|done]. cbn [mbind option_bind] in Hreg.
  destruct (holds_prop _ _ Hh t r Ht) as (_ & Hs & Hvp); [by eapply find_prop_in|].
  set (a := Z.to_nat (address_cells p)) in *. set (n := Z.to_nat (size_cells p)) in *.
  destruct (Nat.leb_spec (4 * (a + n)) (length (p_val r))) as [Hlen|]; [|done].
  destruct (read_cells_starts a (p_val r) (val_pos fdt r) 0 Hvp Hs) as [-> [xa Exa]]; [lia|].
  rewrite Exa in Hreg |- *. cbn [mbind option_bind] in *.
  destruct (read_cells_starts n (drop (4 * a) (p_val r)) (val_pos fdt r + 4 * address_cells p) 0) as [E2 [xs Exs]].
  { lia. }
  { replace (val_pos fdt r + 4 * address_cells p) with (val_pos fdt r + Z.of_nat (4 * a)) by lia. rewrite <- from_from by done.
    destruct Hs as [r' ->]. exists r'. by rewrite drop_app_le by lia. }
  { rewrite length_drop. lia. }
  rewrite Exs in Hreg. cbn [mbind option_bind] in Hreg. injection Hreg as -> ->. destruct want; [|done]. by rewrite E2, Exs.
Qed.

(** ** References to harts *)

(** The nodes in document order, each with its parent. *)
Fixpoint nodes_up (up : option dt) (t : dt) : list (option dt * dt) := (up, t) :: flat_map (nodes_up (Some t)) (d_kids t).

Lemma nodes_up_snd t : forall up, map snd (nodes_up up t) = nodes t.
Proof.
  induction t as [o name props kids oe IH] using dt_forall. intros up. cbn [nodes_up nodes d_kids map snd]. f_equal.
  induction IH as [|k kids Hk _ IHk]; [done|]. cbn [flat_map]. rewrite map_app, Hk. f_equal.
  clear -IHk. revert IHk. generalize (DT o name props (k :: kids) oe), (DT o name props kids oe). intros a b <-.
  induction kids as [|k' kids IH]; [done|]. cbn [flat_map]. rewrite !map_app, IH. f_equal. by destruct k'.
Qed.

Lemma nodes_up_depth t : forall up d, at_depth root d t ->
  (forall p, up = Some p -> exists dp, at_depth root dp p /\ t ∈ d_kids p) ->
  forall u k, (u, k) ∈ nodes_up up t ->
    (exists dk, at_depth root dk k) /\ forall p, u = Some p -> exists dp, at_depth root dp p /\ k ∈ d_kids p.
Proof.
  induction t as [o name props kids oe IH] using dt_forall. intros up d Hd Hup u k. cbn [nodes_up].
  intros [E|Hin]%elem_of_cons; [injection E as -> ->; eauto|].
  apply list_elem_of_In, in_flat_map in Hin as (k' & Hk & Hin). apply list_elem_of_In in Hk, Hin. rewrite Forall_forall in IH.
  apply (IH k' Hk (Some (DT o name props kids oe)) (d + 1)); [by eapply depth_kid| |done]. intros p [= <-]. eauto.
Qed.

(** The hart whose interrupt controller has the phandle. *)
Definition ref_hart (ph : Z) : option Z :=
  if (ph =? 0) || (ph =? 4294967295) then None
  else
    '(up, _) ← List.find (fun '(_, t) => phandle t =? ph) (nodes_up None root);
    p ← up;
    h ← hart_of p;
    if SBI_HARTMASK_MAX_BITS <=? h then None else Some h.

Lemma fdt_parent_offset_root : d_off root = 0 -> fdt_parent_offset fdt 0 = Some (- FDT_ERR_NOTFOUND).
Proof.
  intros H0. unfold fdt_parent_offset. pose proof (fdt_node_depth_eq _ _ Hh H0 0 root (depth_root _)) as E. rewrite H0 in E. rewrite E.
  cbn [mbind option_bind]. change (0 <? 0) with false. change (0 - 1) with (-1). unfold fdt_supernode_atdepth_offset, FDT_RO_PROBE.
  destruct (probe_ok _ _ Hh) as (r & -> & Hr). cbn [mbind option_bind]. by rewrite Hr.
Qed.

Lemma intc_hart_eq ph : d_off root = 0 -> (forall t, node_of root t -> cpu_props_ok t) -> intc_hart fdt ph = Some (ref_hart ph).
Proof.
  intros H0 Hc. unfold intc_hart, ref_hart. destruct ((ph =? 0) || (ph =? 4294967295)) eqn:Eb.
  { unfold fdt_node_offset_by_phandle. unfold nz. by rewrite Eb. }
  apply orb_false_iff in Eb as [E0 E1]. rewrite (fdt_node_offset_by_phandle_eq _ _ Hh ph) by lia. cbn [mbind option_bind].
  rewrite <- (nodes_up_snd root None), find_map, (find_ext _ (fun '(_, t) => phandle t =? ph)) by (by intros []).
  destruct (List.find _ (nodes_up None root)) as [[up t]|] eqn:Ef; [|done]. cbn [fmap option_fmap option_map snd mbind option_bind].
  apply find_some in Ef as [Hin%list_elem_of_In _].
  destruct (nodes_up_depth root None 0 (depth_root _) ltac:(done) up t Hin) as [[d Hd] Hup].
  destruct (at_depth_node _ _ _ Hd) as [Ht _]. destruct (node_offset _ _ Hh t Ht) as [Ho _]. rewrite (proj2 (Z.ltb_ge (d_off t) 0)) by lia.
  destruct up as [p|].
  - destruct (Hup p eq_refl) as (dp & Hp & Hk). rewrite (fdt_parent_offset_eq _ _ Hh H0 dp p t Hp Hk). cbn [mbind option_bind].
    destruct (at_depth_node _ _ _ Hp) as [Hpn _]. rewrite (fdt_parse_hart_id_eq p Hpn (Hc p Hpn)). cbn [mbind option_bind].
    destruct (hart_of p) as [h|]; [|done]. cbn. by destruct (_ <=? h).
  - assert (Er : t = root).
    { clear -Hin. destruct root as [o name props kids oe]. cbn [nodes_up] in Hin. apply elem_of_cons in Hin as [[= ->]|Hin]; [done|].
      apply list_elem_of_In, in_flat_map in Hin as (k & _ & Hin). exfalso. revert Hin. generalize (DT o name props kids oe). clear.
      induction k as [o name props kids oe IH] using dt_forall. intros p. cbn [nodes_up]. intros [E|Hin]; [done|].
      apply in_flat_map in Hin as (k & Hk & Hin). rewrite Forall_forall in IH. apply (IH k) in Hin; [done|by apply list_elem_of_In]. }
    subst t. rewrite H0, (fdt_parent_offset_root H0). cbn [mbind option_bind]. done.
Qed.

(** ** Interrupt connections *)

(** The pairs of "interrupts-extended". *)
Fixpoint irq_pairs (v : list Z) : list (Z * Z) :=
  match v with
  | a0 :: a1 :: a2 :: a3 :: b0 :: b1 :: b2 :: b3 :: v =>
      (default 0 (fdt32_ld [a0; a1; a2; a3]), default 0 (fdt32_ld [b0; b1; b2; b3])) :: irq_pairs v
  | _ => []
  end.

(** The harts connected by the interrupt [irq]. *)
Definition irq_harts (irq : Z) (v : list Z) : list Z :=
  omap (fun '(ph, hwirq) => if irq =? hwirq then ref_hart ph else None) (irq_pairs v).

Lemma clint_harts_step n p left irq first last hart_count : 0 < left ->
  clint_harts (S n) fdt p left irq first last hart_count =
    phandle ← fdt32_ld (from fdt p);
    hwirq ← fdt32_ld (from fdt (p + 4));
    hart ← intc_hart fdt phandle;
    match hart with
    | Some hartid =>
        if irq =? hwirq then clint_harts n fdt (p + 8) (left - 2) irq (Z.min hartid first) (Z.max hartid last) (u32 (hart_count + 1))
        else clint_harts n fdt (p + 8) (left - 2) irq first last hart_count
    | None => clint_harts n fdt (p + 8) (left - 2) irq first last hart_count
    end.
Proof. intros Hl. cbn [clint_harts]. by rewrite (proj2 (Z.leb_gt left 0)) by lia. Qed.

Lemma clint_harts_eq irq (H0 : d_off root = 0) (Hc : forall t, node_of root t -> cpu_props_ok t) n : forall m v p first last hart_count,
  (n < m)%nat -> 0 <= p -> starts v (from fdt p) -> length v = (8 * n)%nat -> 0 <= hart_count -> hart_count + Z.of_nat n < 2 ^ 32 ->
  clint_harts m fdt p (2 * Z.of_nat n) irq first last hart_count =
  Some (foldl Z.min first (irq_harts irq v), foldl Z.max last (irq_harts irq v), hart_count + Z.of_nat (length (irq_harts irq v))).
Proof.
  induction n as [|n IH]; intros m v p first last hart_count Hm Hp Hs Hv Hh0 Hb; (destruct m as [|m]; [lia|]).
  { destruct v; [|done]. cbn. do 2 f_equal. lia. }
  do 8 (destruct v as [|? v]; [simpl in Hv; lia|]).
  rewrite clint_harts_step by lia.
  destruct Hs as [r Hs]. assert (Hs4 : from fdt (p + 4) = drop 4 (from fdt p)) by (by rewrite from_from).
  assert (Hs8 : from fdt (p + 8) = drop 8 (from fdt p)) by (by rewrite from_from).
  rewrite Hs4, Hs. cbn [app drop fdt32_ld mbind option_bind].
  rewrite intc_hart_eq by done. cbn [mbind option_bind]. replace (2 * Z.of_nat (S n) - 2) with (2 * Z.of_nat n) by lia.
  assert (Hs' : starts v (from fdt (p + 8))) by (rewrite Hs8, Hs; by exists r). simpl in Hv.
  unfold irq_harts. cbn [irq_pairs omap list_omap fdt32_ld default from_option id].
  destruct (ref_hart _) as [h|]; destruct (irq =? _); cbn [foldl length];
    (rewrite (IH m v) by (try done; try lia; try (unfold u32; rewrite wrap_small by (unfold fits; lia); lia))); try done.
  unfold u32. rewrite wrap_small by (unfold fits; lia). unfold irq_harts. do 2 f_equal; [f_equal|]; [f_equal; lia..|lia].
Qed.

Lemma ref_hart_bound ph h : ref_hart ph = Some h -> h < SBI_HARTMASK_MAX_BITS.
Proof.
  unfold ref_hart. destruct (_ || _); [done|]. destruct (List.find _ _) as [[up t]|]; [|done]. cbn [mbind option_bind].
  destruct up as [p|]; [|done]. cbn [mbind option_bind]. destruct (hart_of p) as [h'|]; [|done]. cbn [mbind option_bind].
  destruct (Z.leb_spec SBI_HARTMASK_MAX_BITS h'); [done|]. by intros [= <-].
Qed.

(** Harts are numbered from 0. *)
Lemma prop_bytes t p : node_of root t -> p ∈ d_props t -> Forall (fits 8) (p_val p).
Proof.
  intros Ht Hp. destruct (holds_prop _ _ Hh t p Ht Hp) as (_ & [r Hr] & _). destruct Hh as (ts & D & _).
  pose proof (from_fits fdt (doc_valid _ _ D) (val_pos fdt p)) as Hf. rewrite Hr in Hf. by apply Forall_app in Hf as [? _].
Qed.

Lemma hart_of_pos t h : node_of root t -> hart_of t = Some h -> 0 <= h.
Proof.
  intros Ht. unfold hart_of. destruct (find_prop (chars "device_type") _) as [d|]; [|done].
  destruct (find_prop (chars "reg") _) as [r|] eqn:Er; [|done]. destruct (bool_decide _); [|done].
  pose proof (prop_bytes t r Ht (proj1 (find_prop_in _ _ _ Er))) as Hb. destruct (Nat.ltb_spec (length (p_val r)) 4) as [|Hl]; [done|].
  assert (Hld : forall l x, Forall (fits 8) l -> fdt32_ld l = Some x -> 0 <= x).
  { intros l x Hf E. assert (4 <= length l)%nat by (destruct l as [|? [|? [|? [|? ?]]]]; simpl; done || lia).
    destruct (fdt32_ld_some l) as (v & E' & Hv); [done|done|]. unfold fits in Hv. rewrite E in E'. injection E' as ->. lia. }
  destruct (_ =? _)%nat; apply Hld; [done|by apply Forall_drop].
Qed.

Lemma ref_hart_pos ph h : ref_hart ph = Some h -> 0 <= h.
Proof.
  unfold ref_hart. destruct (_ || _); [done|]. destruct (List.find _ _) as [[up t]|] eqn:Ef; [|done]. cbn [mbind option_bind].
  destruct up as [p|]; [|done]. cbn [mbind option_bind]. destruct (hart_of p) as [h'|] eqn:Eh; [|done]. cbn [mbind option_bind].
  destruct (_ <=? h'); [done|]. intros [= <-]. apply (hart_of_pos p); [|done]. apply find_some in Ef as [Hin%list_elem_of_In _].
  destruct (nodes_up_depth root None 0 (depth_root _) ltac:(done) _ _ Hin) as [_ Hup]. destruct (Hup p eq_refl) as (dp & Hp & _).
  by apply at_depth_node in Hp as [? _].
Qed.

Lemma irq_harts_bound irq v h : h ∈ irq_harts irq v -> h < SBI_HARTMASK_MAX_BITS.
Proof. intros ([ph hwirq] & _ & E)%list_elem_of_omap. destruct (irq =? hwirq); [|done]. by eapply ref_hart_bound. Qed.

Lemma foldl_min l : forall a, foldl Z.min a l <= a /\ Forall (fun x => foldl Z.min a l <= x) l.
Proof.
  induction l as [|x l IH]; intros a; [by split|]. cbn [foldl]. destruct (IH (Z.min a x)) as [H1 H2]. split; [lia|]. constructor; [lia|done].
Qed.
Lemma foldl_max l : forall a, a <= foldl Z.max a l /\ Forall (fun x => x <= foldl Z.max a l) l.
Proof.
  induction l as [|x l IH]; intros a; [by split|]. cbn [foldl]. destruct (IH (Z.max a x)) as [H1 H2]. split; [lia|]. constructor; [lia|done].
Qed.

(** The device of a CLINT node: its address, the first of its harts and how
    many it covers. *)
Definition clint_of (p t : dt) (for_timer : bool) : option (Z * Z * Z) :=
  '(addr, size) ← reg_of p t;
  ie ← find_prop (chars "interrupts-extended") (d_props t);
  let harts := irq_harts (if for_timer then IRQ_M_TIMER else IRQ_M_SOFT) (p_val ie) in
  let first := foldl Z.min 4294967295 harts in
  let last := foldl Z.max 0 harts in
  if (addr =? 0) || (size =? 0) || negb (length (p_val ie) mod 8 =? 0)%nat || bool_decide (harts = []) then None
  else Some (addr, first, Z.max (Z.of_nat (length harts)) (last - first + 1)).

Lemma node_addr_eq d p t addr size : d_off root = 0 -> at_depth root d p -> t ∈ d_kids p -> cells_ok p ->
  reg_of p t = Some (addr, size) -> addr <> 0 -> size <> 0 -> node_addr fdt (d_off t) = Some (inr addr).
Proof.
  intros H0 Hd Hk Hc Hr Ha Hs. unfold node_addr. destruct (at_depth_node _ _ _ Hd) as [Hp _].
  destruct (node_offset _ _ Hh t) as [Ho _]; [by apply (node_of_kid root p)|]. rewrite (proj2 (Z.ltb_ge (d_off t) 0)) by lia.
  rewrite (fdt_get_node_addr_size_eq d p t addr size true H0 Hd Hk Hc Hr). cbn [mbind option_bind].
  by rewrite (proj2 (Z.eqb_neq addr 0)), (proj2 (Z.eqb_neq size 0)) by done.
Qed.

Lemma fdt_parse_clint_node_eq d p t for_timer c : d_off root = 0 -> at_depth root d p -> t ∈ d_kids p -> cells_ok p ->
  (forall t, node_of root t -> cpu_props_ok t) ->
  clint_of p t for_timer = Some c -> fdt_parse_clint_node fdt (d_off t) for_timer = Some (inr c).
Proof.
  intros H0 Hd Hk Hc Hcpu. unfold clint_of, fdt_parse_clint_node. destruct (at_depth_node _ _ _ Hd) as [Hp _].
  assert (Ht : node_of root t) by (by apply (node_of_kid root p)).
  destruct (reg_of p t) as [[addr size]|] eqn:Er; [|done]. cbn [mbind option_bind].
  destruct (find_prop (chars "interrupts-extended") _) as [ie|] eqn:Ei; [|done]. cbn [mbind option_bind]. cbv zeta.
  set (irq := if for_timer then IRQ_M_TIMER else IRQ_M_SOFT). set (harts := irq_harts irq (p_val ie)).
  destruct (Z.eqb_spec addr 0) as [|Ha]; [done|]. destruct (Z.eqb_spec size 0) as [|Hz]; [done|]. cbn [orb].
  destruct (Nat.eqb_spec (length (p_val ie) mod 8) 0) as [Em|]; [|done]. cbn [negb orb]. case_bool_decide as Ehs; [done|]. intros [= <-].
  rewrite (node_addr_eq d p t addr size) by done. cbn [mbind option_bind]. rewrite (fdt_getprop_lit _ _ Hh "interrupts-extended") by done.
  cbn [mbind option_bind]. rewrite Ei. destruct (holds_prop _ _ Hh t ie Ht) as (_ & Hs & Hvp); [by eapply find_prop_in|].
  pose proof (fdt_length _ _ Hh) as Hfl. pose proof (starts_length _ _ Hs) as Hsl. rewrite length_from in Hsl by done.
  apply Nat.Div0.div_exact in Em. set (n := (length (p_val ie) / 8)%nat) in *.
  assert (Hn : n <> 0%nat). { intros Hn. rewrite Hn in Em. apply Ehs. unfold harts. destruct (p_val ie); [done|]. simpl in Em. lia. }
  unfold u64. rewrite wrap_small by (unfold fits; lia). rewrite (proj2 (Z.ltb_ge (Z.of_nat (length (p_val ie))) 4)) by lia.
  replace (Z.of_nat (length (p_val ie)) / 4) with (2 * Z.of_nat n) by (Z.to_euclidean_division_equations; lia).
  rewrite s32_small by lia. rewrite (clint_harts_eq irq H0 Hcpu n _ (p_val ie)) by (done || lia). cbn [mbind option_bind]. fold harts.
  assert (Hh1 : exists h, h ∈ harts) by (destruct harts as [|h ?]; [done|]; exists h; left). destruct Hh1 as [h Hin].
  pose proof (irq_harts_bound _ _ _ Hin) as Hb. unfold SBI_HARTMASK_MAX_BITS in Hb. destruct (foldl_min harts 4294967295) as [_ Hmin].
  destruct (foldl_max harts 0) as [_ Hmax]. rewrite Forall_forall in Hmin, Hmax. specialize (Hmin h Hin). specialize (Hmax h Hin).
  rewrite (proj2 (Z.ltb_ge (foldl Z.max 0 harts) (foldl Z.min 4294967295 harts))) by lia.
  by rewrite (proj2 (Z.eqb_neq (foldl Z.min 4294967295 harts) 4294967295)) by lia.
Qed.
End Parse.
