(* ===== verification/FdtRw.v ===== *)
(** Editing a flattened device tree in place: lib/utils/libfdt/fdt_rw.c,
    fdt_wip.c, the rest of fdt.c and the inline functions of libfdt.h.

    The state is the memory the blob lies in, from the blob on; it may be longer
    than the blob, which is how a blob grows.  A pointer is a position in it.
    [None] is an access outside of the memory. *)

From S2P Require Import Prelude Cstring Fdt FdtTag.

Definition FDT_ERR_EXISTS : Z := 2.
Definition FDT_ERR_BADLAYOUT : Z := 12.

(** * The memory as a state *)

Definition RW (A : Type) : Type := list Z -> option (A * list Z).

#[global] Instance RW_ret : MRet RW := fun A a m => Some (a, m).
#[global] Instance RW_bind : MBind RW := fun A B f x m =>
  match x m with Some (a, m') => f a m' | None => None end.

(** A function of the reader on the blob at position [p]. *)
Definition rd_at {A} (p : Z) (f : list Z -> option A) : RW A := fun m => a ← f (from m p); Some (a, m).
Definition rd {A} (f : list Z -> option A) : RW A := fun m => a ← f m; Some (a, m).

(** Whether [n] bytes at [p] are in the memory. *)
Definition inside (m : list Z) (p n : Z) : bool := (0 <=? n) && (0 <=? p) && (p + n <=? Z.of_nat (length m)).

Definition rw_memmove (dst src n : Z) : RW unit := fun m =>
  if inside m dst n && inside m src n then Some (tt, sbi_memmove m (Z.to_nat dst) (Z.to_nat src) (Z.to_nat n)) else None.
Definition rw_memcpy (dst : Z) (bs : list Z) (n : Z) : RW unit := fun m =>
  if inside m dst n && inside bs 0 n then Some (tt, sbi_memcpy m (Z.to_nat dst) bs 0 (Z.to_nat n)) else None.
Definition rw_memset (dst c n : Z) : RW unit := fun m =>
  if inside m dst n then Some (tt, sbi_memset m (Z.to_nat dst) c (Z.to_nat n)) else None.

(** Storing [cpu_to_fdt32(x)] and [cpu_to_fdt64(x)]. *)
Definition st32 (p x : Z) : RW unit := rw_memcpy p (be32 x) 4.
Definition be64 (x : Z) : list Z := be32 (x / 2 ^ 32) ++ be32 x.
Definition st64 (p x : Z) : RW unit := rw_memcpy p (be64 x) 8.

(** The header fields. *)
Definition fdt_set_magic (fdt val : Z) : RW unit := st32 fdt val.
Definition fdt_set_totalsize (fdt val : Z) : RW unit := st32 (fdt + 4) val.
Definition fdt_set_off_dt_struct (fdt val : Z) : RW unit := st32 (fdt + 8) val.
Definition fdt_set_off_dt_strings (fdt val : Z) : RW unit := st32 (fdt + 12) val.
Definition fdt_set_off_mem_rsvmap (fdt val : Z) : RW unit := st32 (fdt + 16) val.
Definition fdt_set_version (fdt val : Z) : RW unit := st32 (fdt + 20) val.
Definition fdt_set_last_comp_version (fdt val : Z) : RW unit := st32 (fdt + 24) val.
Definition fdt_set_boot_cpuid_phys (fdt val : Z) : RW unit := st32 (fdt + 28) val.
Definition fdt_set_size_dt_strings (fdt val : Z) : RW unit := st32 (fdt + 32) val.
Definition fdt_set_size_dt_struct (fdt val : Z) : RW unit := st32 (fdt + 36) val.
Definition fdt_boot_cpuid_phys (fdt : list Z) : option Z := fdt_get_header fdt 28.

(** * The rest of fdt_ro.c and fdt.c *)

Definition fdt_get_property_namelen (fdt : list Z) (offset : Z) (name : list Z) (namelen : Z) : option (option Z * Z) :=
  version ← fdt_version fdt;
  if version <? 16 then Some (None, - FDT_ERR_BADVERSION)
  else
    '(prop, len) ← fdt_get_property_namelen_ fdt offset name namelen;
    Some (match prop with Some (prop, _) => Some prop | None => None end, len).
Definition fdt_get_property (fdt : list Z) (nodeoffset : Z) (name : list Z) : option (option Z * Z) :=
  namelen ← sbi_strlen name; fdt_get_property_namelen fdt nodeoffset name (s32 namelen).

(** [for (p = strtab; p <= last; p++)] from offset [p]; the offset of the string. *)
Fixpoint find_string_loop (n : nat) (strtab : list Z) (p last : Z) (s : list Z) (len : Z) : option (option Z) :=
  if p <=? last then
    match n with
    | O => None
    | S n =>
        c ← sbi_memcmp (from strtab p) s (Z.to_nat len);
        if c =? 0 then Some (Some p) else find_string_loop n strtab (p + 1) last s len
    end
  else Some None.
Definition fdt_find_string_ (strtab : list Z) (tabsize : Z) (s : list Z) : option (option Z) :=
  len ← sbi_strlen s;
  let len := s32 (len + 1) in
  find_string_loop (S (length strtab)) strtab 0 (tabsize - len) s len.

Definition fdt_move (fdt buf bufsize : Z) : RW Z :=
  r ← rd_at fdt fdt_ro_probe_;
  if r <? 0 then mret r
  else
    totalsize ← rd_at fdt fdt_totalsize;
    if u32 bufsize <? totalsize then mret (- FDT_ERR_NOSPACE)
    else rw_memmove buf fdt totalsize;; mret 0.

(** * fdt_rw.c *)

Definition SIZEOF_FDT_HEADER : Z := 40.
Definition SIZEOF_RESERVE_ENTRY : Z := 16.
Definition SIZEOF_PROPERTY : Z := 12.

Definition fdt_blocks_misordered_ (mem_rsv_size struct_size : Z) (fdt : list Z) : option bool :=
  off_mem_rsvmap ← fdt_off_mem_rsvmap fdt;
  off_dt_struct ← fdt_off_dt_struct fdt;
  off_dt_strings ← fdt_off_dt_strings fdt;
  totalsize ← fdt_totalsize fdt;
  size_dt_strings ← fdt_size_dt_strings fdt;
  Some ((off_mem_rsvmap <? FDT_ALIGN SIZEOF_FDT_HEADER 8)
        || (off_dt_struct <? u32 (off_mem_rsvmap + mem_rsv_size))
        || (off_dt_strings <? u32 (off_dt_struct + struct_size))
        || (totalsize <? u32 (off_dt_strings + size_dt_strings))).

Definition fdt_rw_probe_ : RW Z :=
  r ← rd fdt_ro_probe_;
  if r <? 0 then mret r
  else
    version ← rd fdt_version;
    if version <? 17 then mret (- FDT_ERR_BADVERSION)
    else
      size ← rd fdt_size_dt_struct;
      misordered ← rd (fdt_blocks_misordered_ SIZEOF_RESERVE_ENTRY (s32 size));
      if misordered : bool then mret (- FDT_ERR_BADLAYOUT)
      else (if 17 <? version then fdt_set_version 0 17 else mret tt);; mret 0.

(** [FDT_RW_PROBE(fdt); k] *)
Definition FDT_RW_PROBE (k : RW Z) : RW Z := err ← fdt_rw_probe_; if nz err then mret err else k.

Definition fdt_data_size_ (fdt : list Z) : option Z :=
  off ← fdt_off_dt_strings fdt; size ← fdt_size_dt_strings fdt; Some (s32 (off + size)).

Definition fdt_splice_ (p oldlen newlen : Z) : RW Z :=
  end_ ← rd fdt_data_size_;
  totalsize ← rd fdt_totalsize;
  if (p + oldlen <? p) || (end_ <? p + oldlen) then mret (- FDT_ERR_BADOFFSET)
  else if (p <? 0) || (end_ - oldlen + newlen <? 0) then mret (- FDT_ERR_BADOFFSET)
  else if totalsize <? end_ - oldlen + newlen then mret (- FDT_ERR_NOSPACE)
  else rw_memmove (p + newlen) (p + oldlen) (end_ - p - oldlen);; mret 0.

Definition fdt_splice_mem_rsv_ (p oldn newn : Z) : RW Z :=
  let delta := s32 ((newn - oldn) * SIZEOF_RESERVE_ENTRY) in
  err ← fdt_splice_ p (s32 (oldn * SIZEOF_RESERVE_ENTRY)) (s32 (newn * SIZEOF_RESERVE_ENTRY));
  if nz err then mret err
  else
    off ← rd fdt_off_dt_struct;
    fdt_set_off_dt_struct 0 (off + delta);;
    off ← rd fdt_off_dt_strings;
    fdt_set_off_dt_strings 0 (off + delta);;
    mret 0.

Definition fdt_splice_struct_ (p oldlen newlen : Z) : RW Z :=
  let delta := s32 (newlen - oldlen) in
  err ← fdt_splice_ p oldlen newlen;
  if nz err then mret err
  else
    size ← rd fdt_size_dt_struct;
    fdt_set_size_dt_struct 0 (size + delta);;
    off ← rd fdt_off_dt_strings;
    fdt_set_off_dt_strings 0 (off + delta);;
    mret 0.

Definition fdt_del_last_string_ (s : list Z) : RW unit :=
  len ← rd (fun _ => sbi_strlen s);
  let newlen := s32 (len + 1) in
  size ← rd fdt_size_dt_strings;
  fdt_set_size_dt_strings 0 (size - newlen).

Definition fdt_splice_string_ (newlen : Z) : RW Z :=
  off ← rd fdt_off_dt_strings;
  size ← rd fdt_size_dt_strings;
  err ← fdt_splice_ (off + size) 0 newlen;
  if nz err then mret err
  else
    size ← rd fdt_size_dt_strings;
    fdt_set_size_dt_strings 0 (size + newlen);;
    mret 0.

(** The offset or the error, and [allocated]. *)
Definition fdt_find_add_string_ (s : list Z) : RW (Z * bool) :=
  strtab ← rd fdt_off_dt_strings;
  len ← rd (fun _ => sbi_strlen s);
  let len := s32 (len + 1) in
  size ← rd fdt_size_dt_strings;
  p ← rd (fun fdt => fdt_find_string_ (from fdt strtab) (s32 size) s);
  match p with
  | Some p => mret (s32 p, false)
  | None =>
      let new := strtab + size in
      err ← fdt_splice_string_ len;
      if nz err then mret (err, false)
      else rw_memcpy new s len;; mret (s32 (new - strtab), true)
  end.

Definition fdt_mem_rsv_w_ (n : Z) (fdt : list Z) : option Z :=
  off ← fdt_off_mem_rsvmap fdt; Some (off + SIZEOF_RESERVE_ENTRY * n).

Definition fdt_add_mem_rsv (address size : Z) : RW Z :=
  FDT_RW_PROBE (
    n ← rd fdt_num_mem_rsv;
    re ← rd (fdt_mem_rsv_w_ n);
    err ← fdt_splice_mem_rsv_ re 0 1;
    if nz err then mret err
    else st64 re address;; st64 (re + 8) size;; mret 0).

Definition fdt_del_mem_rsv (n : Z) : RW Z :=
  re ← rd (fdt_mem_rsv_w_ n);
  FDT_RW_PROBE (
    num ← rd fdt_num_mem_rsv;
    if num <=? n then mret (- FDT_ERR_NOTFOUND) else fdt_splice_mem_rsv_ re 1 0).

(** The error, and where the property is. *)
Definition fdt_resize_property_ (nodeoffset : Z) (name : list Z) (len : Z) : RW (Z * option Z) :=
  '(prop, oldlen) ← rd (fun fdt => fdt_get_property fdt nodeoffset name);
  match prop with
  | None => mret (oldlen, None)
  | Some prop =>
      err ← fdt_splice_struct_ (prop + SIZEOF_PROPERTY) (FDT_TAGALIGN oldlen) (FDT_TAGALIGN len);
      if nz err then mret (err, Some prop) else st32 (prop + 4) len;; mret (0, Some prop)
  end.

Definition fdt_add_property_ (nodeoffset : Z) (name : list Z) (len : Z) : RW (Z * option Z) :=
  nextoffset ← rd (fun fdt => fdt_check_node_offset_ fdt nodeoffset);
  if nextoffset <? 0 then mret (nextoffset, None)
  else
    '(namestroff, allocated) ← fdt_find_add_string_ name;
    if namestroff <? 0 then mret (namestroff, None)
    else
      prop ← rd (fun fdt => fdt_offset_ptr_ fdt nextoffset);
      let proplen := s32 (SIZEOF_PROPERTY + FDT_TAGALIGN len) in
      err ← fdt_splice_struct_ prop 0 proplen;
      if nz err then
        (if allocated : bool then fdt_del_last_string_ name else mret tt);;
        mret (err, Some prop)
      else
        st32 prop FDT_PROP;;
        st32 (prop + 8) namestroff;;
        st32 (prop + 4) len;;
        mret (0, Some prop).

Definition fdt_set_name (nodeoffset : Z) (name : list Z) : RW Z :=
  FDT_RW_PROBE (
    '(namep, oldlen) ← rd (fun fdt => fdt_get_name fdt nodeoffset);
    match namep with
    | None => mret oldlen
    | Some namep =>
        newlen ← rd (fun _ => sbi_strlen name);
        let newlen := s32 newlen in
        err ← fdt_splice_struct_ namep (FDT_TAGALIGN (oldlen + 1)) (FDT_TAGALIGN (newlen + 1));
        if nz err then mret err else rw_memcpy namep name (newlen + 1);; mret 0
    end).

(** Using the property pointer; it is not null when there was no error. *)
Definition deref {A} (p : option Z) (k : Z -> RW A) : RW A := match p with Some p => k p | None => fun _ => None end.

Definition fdt_setprop_placeholder (nodeoffset : Z) (name : list Z) (len : Z) : RW (Z * option Z) :=
  err ← fdt_rw_probe_;
  if nz err then mret (err, None)
  else
    '(err, prop) ← fdt_resize_property_ nodeoffset name len;
    '(err, prop) ← (if err =? - FDT_ERR_NOTFOUND then fdt_add_property_ nodeoffset name len else mret (err, prop));
    if nz err then mret (err, None) else deref prop (fun prop => mret (0, Some (prop + SIZEOF_PROPERTY))).

Definition fdt_setprop (nodeoffset : Z) (name val : list Z) (len : Z) : RW Z :=
  '(err, prop_data) ← fdt_setprop_placeholder nodeoffset name len;
  if nz err then mret err
  else (if nz len then deref prop_data (fun prop_data => rw_memcpy prop_data val len) else mret tt);; mret 0.

Definition fdt_setprop_u32 (nodeoffset : Z) (name : list Z) (val : Z) : RW Z := fdt_setprop nodeoffset name (be32 val) 4.
Definition fdt_setprop_u64 (nodeoffset : Z) (name : list Z) (val : Z) : RW Z := fdt_setprop nodeoffset name (be64 val) 8.
Definition fdt_setprop_string (nodeoffset : Z) (name str : list Z) : RW Z :=
  len ← rd (fun _ => sbi_strlen str); fdt_setprop nodeoffset name str (s32 (len + 1)).
Definition fdt_setprop_empty (nodeoffset : Z) (name : list Z) : RW Z := fdt_setprop nodeoffset name [] 0.

Definition fdt_appendprop (nodeoffset : Z) (name val : list Z) (len : Z) : RW Z :=
  FDT_RW_PROBE (
    '(prop, oldlen) ← rd (fun fdt => fdt_get_property fdt nodeoffset name);
    match prop with
    | Some prop =>
        let newlen := s32 (len + oldlen) in
        err ← fdt_splice_struct_ (prop + SIZEOF_PROPERTY) (FDT_TAGALIGN oldlen) (FDT_TAGALIGN newlen);
        if nz err then mret err
        else st32 (prop + 4) newlen;; rw_memcpy (prop + SIZEOF_PROPERTY + oldlen) val len;; mret 0
    | None =>
        '(err, prop) ← fdt_add_property_ nodeoffset name len;
        if nz err then mret err else deref prop (fun prop => rw_memcpy (prop + SIZEOF_PROPERTY) val len);; mret 0
    end).

Definition fdt_delprop (nodeoffset : Z) (name : list Z) : RW Z :=
  FDT_RW_PROBE (
    '(prop, len) ← rd (fun fdt => fdt_get_property fdt nodeoffset name);
    match prop with
    | None => mret len
    | Some prop => fdt_splice_struct_ prop (s32 (SIZEOF_PROPERTY + FDT_TAGALIGN len)) 0
    end).

(** [do { offset = nextoffset; tag = fdt_next_tag(...); } while (tag is a property or a nop)] *)
Fixpoint after_props (n : nat) (fdt : list Z) (nextoffset : Z) : option Z :=
  match n with
  | O => None
  | S n =>
      let offset := nextoffset in
      '(tag, nextoffset) ← fdt_next_tag fdt offset;
      if (tag =? FDT_PROP) || (tag =? FDT_NOP) then after_props n fdt nextoffset else Some offset
  end.

Definition fdt_add_subnode_namelen (parentoffset : Z) (name : list Z) (namelen : Z) : RW Z :=
  FDT_RW_PROBE (
    offset ← rd (fun fdt => fdt_subnode_offset_namelen fdt parentoffset name namelen);
    if 0 <=? offset then mret (- FDT_ERR_EXISTS)
    else if negb (offset =? - FDT_ERR_NOTFOUND) then mret offset
    else
      '(_, nextoffset) ← rd (fun fdt => fdt_next_tag fdt parentoffset);
      offset ← rd (fun fdt => after_props (S (length fdt)) fdt nextoffset);
      nh ← rd (fun fdt => fdt_offset_ptr_ fdt offset);
      let nodelen := s32 (4 + FDT_TAGALIGN (namelen + 1) + FDT_TAGSIZE) in
      err ← fdt_splice_struct_ nh 0 nodelen;
      if nz err then mret err
      else
        st32 nh FDT_BEGIN_NODE;;
        rw_memset (nh + 4) 0 (FDT_TAGALIGN (namelen + 1));;
        rw_memcpy (nh + 4) name namelen;;
        st32 (nh + nodelen - FDT_TAGSIZE) FDT_END_NODE;;
        mret offset).
Definition fdt_add_subnode (parentoffset : Z) (name : list Z) : RW Z :=
  len ← rd (fun _ => sbi_strlen name); fdt_add_subnode_namelen parentoffset name (s32 len).

(** * fdt_wip.c *)

Definition fdt_setprop_inplace_namelen_partial (nodeoffset : Z) (name : list Z) (namelen idx : Z) (val : list Z) (len : Z) : RW Z :=
  '(propval, proplen) ← rd (fun fdt => fdt_getprop_namelen fdt nodeoffset name namelen);
  match propval with
  | None => mret proplen
  | Some propval =>
      if u32 proplen <? u32 (len + idx) then mret (- FDT_ERR_NOSPACE)
      else rw_memcpy (propval + idx) val len;; mret 0
  end.

Definition fdt_setprop_inplace (nodeoffset : Z) (name val : list Z) (len : Z) : RW Z :=
  '(propval, proplen) ← rd (fun fdt => fdt_getprop fdt nodeoffset name);
  match propval with
  | None => mret proplen
  | Some _ =>
      if negb (proplen =? len) then mret (- FDT_ERR_NOSPACE)
      else
        namelen ← rd (fun _ => sbi_strlen name);
        fdt_setprop_inplace_namelen_partial nodeoffset name (s32 namelen) 0 val len
  end.

(** [len] bytes from [p] on, a word at a time. *)
Fixpoint fdt_nop_region_ (n : nat) (p stop : Z) : RW unit :=
  if p <? stop then
    match n with
    | O => fun _ => None
    | S n => st32 p FDT_NOP;; fdt_nop_region_ n (p + 4) stop
    end
  else mret tt.
Definition nop_region (start len : Z) : RW unit := fdt_nop_region_ (Z.to_nat len) start (start + len).

Definition fdt_nop_property (nodeoffset : Z) (name : list Z) : RW Z :=
  '(prop, len) ← rd (fun fdt => fdt_get_property fdt nodeoffset name);
  match prop with
  | None => mret len
  | Some prop => nop_region prop (s32 (len + SIZEOF_PROPERTY));; mret 0
  end.

Fixpoint node_end_loop (n : nat) (fdt : list Z) (offset depth : Z) : option Z :=
  if (0 <=? offset) && (0 <=? depth) then
    match n with
    | O => None
    | S n =>
        '(offset, depth) ← fdt_next_node fdt offset (Some depth);
        depth ← depth;
        node_end_loop n fdt offset depth
    end
  else Some offset.
Definition fdt_node_end_offset_ (fdt : list Z) (offset : Z) : option Z := node_end_loop (S (length fdt)) fdt offset 0.

Definition fdt_nop_node (nodeoffset : Z) : RW Z :=
  endoffset ← rd (fun fdt => fdt_node_end_offset_ fdt nodeoffset);
  if endoffset <? 0 then mret endoffset
  else
    p ← rd (fun fdt => fdt_offset_ptr fdt nodeoffset 0);
    deref p (fun p => nop_region p (s32 (endoffset - nodeoffset)));;
    mret 0.

Definition fdt_del_node (nodeoffset : Z) : RW Z :=
  FDT_RW_PROBE (
    endoffset ← rd (fun fdt => fdt_node_end_offset_ fdt nodeoffset);
    if endoffset <? 0 then mret endoffset
    else
      p ← rd (fun fdt => fdt_offset_ptr_ fdt nodeoffset);
      fdt_splice_struct_ p (s32 (endoffset - nodeoffset)) 0).

(** * Moving blobs *)

(** The blobs [old] and [new] may overlap. *)
Definition fdt_packblocks_ (old new mem_rsv_size struct_size : Z) : RW unit :=
  let mem_rsv_off := FDT_ALIGN SIZEOF_FDT_HEADER 8 in
  let struct_off := s32 (mem_rsv_off + mem_rsv_size) in
  let strings_off := s32 (struct_off + struct_size) in
  off ← rd_at old fdt_off_mem_rsvmap;
  rw_memmove (new + mem_rsv_off) (old + off) mem_rsv_size;;
  fdt_set_off_mem_rsvmap new mem_rsv_off;;
  off ← rd_at old fdt_off_dt_struct;
  rw_memmove (new + struct_off) (old + off) struct_size;;
  fdt_set_off_dt_struct new struct_off;;
  fdt_set_size_dt_struct new struct_size;;
  off ← rd_at old fdt_off_dt_strings;
  size ← rd_at old fdt_size_dt_strings;
  rw_memmove (new + strings_off) (old + off) size;;
  fdt_set_off_dt_strings new strings_off;;
  size ← rd_at old fdt_size_dt_strings;
  fdt_set_size_dt_strings new size.

(** [while (fdt_next_tag(fdt, struct_size, &struct_size) != FDT_END)] *)
Fixpoint struct_size_loop (n : nat) (fdt : list Z) (struct_size : Z) : option Z :=
  match n with
  | O => None
  | S n =>
      '(tag, struct_size) ← fdt_next_tag fdt struct_size;
      if tag =? FDT_END then Some struct_size else struct_size_loop n fdt struct_size
  end.

Definition fdt_open_into (fdt buf bufsize : Z) : RW Z :=
  totalsize ← rd_at fdt fdt_totalsize;
  let fdtend := fdt + totalsize in
  r ← rd_at fdt fdt_ro_probe_;
  if r <? 0 then mret r
  else
    num ← rd_at fdt fdt_num_mem_rsv;
    let mem_rsv_size := s32 ((num + 1) * SIZEOF_RESERVE_ENTRY) in
    version ← rd_at fdt fdt_version;
    struct_size ← (if 17 <=? version then rd_at fdt (fun fdt => size ← fdt_size_dt_struct fdt; Some (s32 size))
                   else rd_at fdt (fun fdt => struct_size_loop (S (length fdt)) fdt 0));
    if (version <? 17) && (struct_size <? 0) then mret struct_size
    else
      misordered ← rd_at fdt (fdt_blocks_misordered_ mem_rsv_size struct_size);
      if negb misordered then
        err ← fdt_move fdt buf bufsize;
        if nz err then mret err
        else
          fdt_set_version buf 17;;
          fdt_set_size_dt_struct buf struct_size;;
          fdt_set_totalsize buf bufsize;;
          mret 0
      else
        size ← rd_at fdt fdt_size_dt_strings;
        let newsize := s32 (FDT_ALIGN SIZEOF_FDT_HEADER 8 + mem_rsv_size + struct_size + size) in
        if bufsize <? newsize then mret (- FDT_ERR_NOSPACE)
        else
          let overlap := (fdt <? buf + newsize) && (buf <? fdtend) in
          if overlap && (buf + bufsize <? fdtend + newsize) then mret (- FDT_ERR_NOSPACE)
          else
            let tmp := if overlap then fdtend else buf in
            fdt_packblocks_ fdt tmp mem_rsv_size struct_size;;
            rw_memmove buf tmp newsize;;
            fdt_set_magic buf FDT_MAGIC;;
            fdt_set_totalsize buf bufsize;;
            fdt_set_version buf 17;;
            fdt_set_last_comp_version buf 16;;
            cpuid ← rd_at fdt fdt_boot_cpuid_phys;
            fdt_set_boot_cpuid_phys buf cpuid;;
            mret 0.

Definition fdt_pack : RW Z :=
  FDT_RW_PROBE (
    num ← rd fdt_num_mem_rsv;
    let mem_rsv_size := s32 ((num + 1) * SIZEOF_RESERVE_ENTRY) in
    size ← rd fdt_size_dt_struct;
    fdt_packblocks_ 0 0 mem_rsv_size (s32 size);;
    size ← rd fdt_data_size_;
    fdt_set_totalsize 0 size;;
    mret 0).
