(* ===== verification/FdtEdit.v ===== *)
(** What the editing functions of libfdt do to a tree: on a blob that stores a
    tree, setting and deleting properties and adding, renaming and deleting
    nodes leave a blob that stores the edited tree, or report that there is no
    space and leave the tree as it was. *)

From S2P Require Import Prelude Cstring Fdt FdtTag FdtTree FdtImage FdtEncode FdtRw.

(** * Steps on the memory *)

Lemma rbind {A B} (x : RW A) (f : A -> RW B) m a m' : x m = Some (a, m') -> (x ≫= f) m = f a m'.
Proof. intros E. unfold mbind, RW_bind. by rewrite E. Qed.
Lemma rbind_none {A B} (x : RW A) (f : A -> RW B) m : x m = None -> (x ≫= f) m = None.
Proof. intros E. unfold mbind, RW_bind. by rewrite E. Qed.

Lemma rd_eq {A} (f : list Z -> option A) m a : f m = Some a -> rd f m = Some (a, m).
Proof. intros E. unfold rd. by rewrite E. Qed.

Lemma rd_at_0 {A} (f : list Z -> option A) : rd_at 0 f = rd f.
Proof. done. Qed.

Lemma inside_true (l : list Z) p n : 0 <= n -> 0 <= p -> p + n <= Z.of_nat (length l) -> inside l p n = true.
Proof. intros. unfold inside. rewrite !andb_true_iff, !Z.leb_le. lia. Qed.

Lemma inside_app (a old c : list Z) : inside (a ++ old ++ c) (Z.of_nat (length a)) (Z.of_nat (length old)) = true.
Proof. apply inside_true; rewrite ?length_app; lia. Qed.

Lemma rw_memcpy_eq (a old c bs : list Z) p n : p = Z.of_nat (length a) -> n = Z.of_nat (length old) -> (length old <= length bs)%nat ->
  rw_memcpy p bs n (a ++ old ++ c) = Some (tt, a ++ take (length old) bs ++ c).
Proof.
  intros -> -> Hl. unfold rw_memcpy. rewrite inside_app. rewrite (inside_true bs) by lia.
  cbn [andb]. rewrite !Nat2Z.id, sbi_memcpy_slice by (rewrite ?length_app; lia). rewrite drop_0, take_app_length.
  rewrite (app_assoc a old c). by rewrite (drop_app_length' (a ++ old)) by (rewrite length_app; lia).
Qed.

Lemma st32_eq (a old c : list Z) p x : p = Z.of_nat (length a) -> length old = 4%nat ->
  st32 p x (a ++ old ++ c) = Some (tt, a ++ be32 x ++ c).
Proof. intros Hp Ho. unfold st32. rewrite (rw_memcpy_eq a old c (be32 x) p 4); [by rewrite Ho|done|by rewrite Ho|rewrite Ho; simpl; lia]. Qed.

Lemma rw_memset_eq (a old c : list Z) p n : p = Z.of_nat (length a) -> n = Z.of_nat (length old) ->
  rw_memset p 0 n (a ++ old ++ c) = Some (tt, a ++ replicate (length old) 0 ++ c).
Proof.
  intros -> ->. unfold rw_memset. rewrite inside_app, !Nat2Z.id. do 2 f_equal. apply list_eq_nth.
  { rewrite length_sbi_memset, !length_app, length_replicate. lia. }
  intros j Hj. rewrite length_sbi_memset in Hj. rewrite nth_sbi_memset by (rewrite !length_app; lia). destruct (decide (j < length a)%nat).
  - rewrite decide_False by lia. rewrite !app_nth1 by lia. done.
  - destruct (decide (j < length a + length old)%nat).
    + rewrite decide_True by lia. rewrite (app_nth2 a) by lia. rewrite app_nth1 by (rewrite length_replicate; lia). rewrite nth_lookup, lookup_replicate_2 by lia. done.
    + rewrite decide_False by lia. rewrite !app_nth2 by (rewrite ?length_replicate; lia). by rewrite length_replicate.
Qed.

Definition words (l : list Z) : list Z := concat (be32 <$> l).

Lemma words_split l i x : l !! i = Some x -> words l = words (take i l) ++ be32 x ++ words (drop (S i) l).
Proof.
  intros E. unfold words. rewrite <- (take_drop_middle l i x E) at 1. by rewrite fmap_app, concat_app.
Qed.

Lemma length_words l : length (words l) = (4 * length l)%nat.
Proof. unfold words. induction l as [|x l IH]; [done|]. cbn [fmap list_fmap concat length]. rewrite length_app, IH. simpl. lia. Qed.

(** Changing a word of the header. *)
Lemma set_word l i x r : (i < length l)%nat -> st32 (4 * Z.of_nat i) x (words l ++ r) = Some (tt, words (<[i := x]> l) ++ r).
Proof.
  intros Hi. destruct (lookup_lt_is_Some_2 l i Hi) as [y Ey]. rewrite (words_split l i y Ey).
  rewrite (words_split (<[i := x]> l) i x) by (by apply list_lookup_insert_eq). rewrite <- !app_assoc.
  rewrite (st32_eq _ (be32 y)); [|rewrite length_words, length_take; lia|done].
  rewrite take_insert_ge, drop_insert_lt by lia. done.
Qed.

Lemma rw_memmove_eq (a b c : list Z) (dst src n : nat) : (dst + n <= length (a ++ b ++ c))%nat -> src = length a -> n = length b ->
  rw_memmove (Z.of_nat dst) (Z.of_nat src) (Z.of_nat n) (a ++ b ++ c) =
  Some (tt, take dst (a ++ b ++ c) ++ b ++ drop (dst + n) (a ++ b ++ c)).
Proof.
  intros Hd -> ->. unfold rw_memmove. rewrite inside_app. rewrite (inside_true _ (Z.of_nat dst)) by lia.
  cbn [andb]. rewrite !Nat2Z.id, sbi_memmove_slice by (rewrite ?length_app in *; lia). by rewrite drop_app_length, take_app_length.
Qed.

Lemma rw_memmove_same m p n : 0 <= n -> 0 <= p -> p + n <= Z.of_nat (length m) -> rw_memmove p p n m = Some (tt, m).
Proof. intros. unfold rw_memmove, sbi_memmove. rewrite inside_true by done. cbn [andb]. by rewrite Nat.eqb_refl. Qed.

(** * Blobs as a header, a body and the rest *)

Definition raw (tot st sz : Z) (body rest : list Z) : list Z :=
  words [FDT_MAGIC; tot; 56; 56 + st; 40; 17; 16; 0; sz; st] ++ replicate 16 0 ++ body ++ rest.

Lemma image_raw tot pts strs rest : image tot pts strs rest =
  raw tot (Z.of_nat (length (struct_block pts))) (Z.of_nat (length strs)) (struct_block pts ++ strs) rest.
Proof. unfold image, raw. by rewrite <- app_assoc. Qed.

Record raw_ok (tot st sz : Z) (body rest : list Z) : Prop := {
  raw_st : 0 <= st;
  raw_sz : 0 <= sz;
  raw_body : Z.of_nat (length body) = st + sz;
  raw_fits : 56 + st + sz <= tot;
  raw_inside : tot <= 56 + st + sz + Z.of_nat (length rest);
  raw_small : 56 + st + sz + Z.of_nat (length rest) < 2 ^ 31 - 8
}.

Lemma image_raw_ok tot pts strs rest : image_ok tot pts strs rest ->
  raw_ok tot (Z.of_nat (length (struct_block pts))) (Z.of_nat (length strs)) (struct_block pts ++ strs) rest.
Proof.
  intros Hi. pose proof (image_length tot pts strs rest) as Hl. unfold st_len in Hl. destruct Hi. rewrite Hl in *.
  split; try lia. rewrite length_app. lia.
Qed.

Section Raw.
Context (tot st sz : Z) (body rest : list Z) (Hst : 0 <= st) (Hsz : 0 <= sz) (Hfit : 56 + st + sz <= tot) (Htot : tot < 2 ^ 31 - 8).
Notation m := (raw tot st sz body rest).

Lemma raw_word i x : [FDT_MAGIC; tot; 56; 56 + st; 40; 17; 16; 0; sz; st] !! i = Some x ->
  fits 32 x -> fdt_get_header m (4 * Z.of_nat i) = Some x.
Proof. apply header_word. Qed.

Ltac word i := apply (raw_word i); [reflexivity|unfold fits; lia].

Lemma raw_total : fdt_totalsize m = Some tot.  Proof. word 1%nat. Qed.
Lemma raw_stroff : fdt_off_dt_strings m = Some (56 + st).  Proof. word 3%nat. Qed.
Lemma raw_strsize : fdt_size_dt_strings m = Some sz.  Proof. word 8%nat. Qed.
Lemma raw_ssize : fdt_size_dt_struct m = Some st.  Proof. word 9%nat. Qed.
Lemma raw_soff : fdt_off_dt_struct m = Some 56.  Proof. word 2%nat. Qed.

Lemma raw_data_size : fdt_data_size_ m = Some (56 + st + sz).
Proof. unfold fdt_data_size_. rewrite raw_stroff, raw_strsize. cbn [mbind option_bind]. f_equal. apply s32_small. lia. Qed.

Lemma raw_set_strsize x : fdt_set_size_dt_strings 0 x m = Some (tt, raw tot st x body rest).
Proof. apply (set_word [FDT_MAGIC; tot; 56; 56 + st; 40; 17; 16; 0; sz; st] 8 x). simpl. lia. Qed.
Lemma raw_set_total x : fdt_set_totalsize 0 x m = Some (tt, raw x st sz body rest).
Proof. apply (set_word [FDT_MAGIC; tot; 56; 56 + st; 40; 17; 16; 0; sz; st] 1 x). simpl. lia. Qed.
End Raw.

(** The two writes that change the size of the structure block. *)
Lemma raw_resize tot st sz body rest d : 0 <= st -> 0 <= sz -> 56 + st + sz <= tot -> tot < 2 ^ 31 - 8 ->
  (size ← rd fdt_size_dt_struct; fdt_set_size_dt_struct 0 (size + d);;
   off ← rd fdt_off_dt_strings; fdt_set_off_dt_strings 0 (off + d);; mret 0) (raw tot st sz body rest) =
  Some (0, raw tot (st + d) sz body rest).
Proof.
  intros Hst Hsz Hf Ht.
  erewrite rbind by (apply rd_eq, raw_ssize; lia).
  erewrite rbind by (apply (set_word [FDT_MAGIC; tot; 56; 56 + st; 40; 17; 16; 0; sz; st] 9 (st + d)); simpl; lia).
  erewrite rbind by (apply rd_eq, (header_word _ _ 3 (56 + st)); [done|unfold fits; lia]).
  erewrite rbind by (apply (set_word _ 3 (56 + st + d)); simpl; lia).
  cbn [insert list_insert]. unfold raw. by rewrite Z.add_assoc.
Qed.

(** * Splicing *)

Section Splice.
Context (tot st sz : Z) (A old B rest : list Z) (Hok : raw_ok tot st sz (A ++ old ++ B) rest).

(** Replacing [old] by [new] bytes: what was there stays there. *)
Definition gap (new : nat) : list Z := take new (old ++ B ++ rest).
Definition rest' (new : nat) : list Z := drop (length B + new) (old ++ B ++ rest).

Lemma gap_length new : 56 + st + sz - Z.of_nat (length old) + Z.of_nat new <= tot -> length (gap new) = new /\
  Z.of_nat (length (rest' new)) = Z.of_nat (length rest) + Z.of_nat (length old) - Z.of_nat new.
Proof.
  intros Hn. destruct Hok. rewrite !length_app in *. unfold gap, rest'. rewrite length_take, length_drop, !length_app. lia.
Qed.

Lemma gap_fits new : Forall (fits 8) (old ++ B ++ rest) -> Forall (fits 8) (gap new) /\ Forall (fits 8) (rest' new).
Proof. intros H. split; [by apply Forall_take|by apply Forall_drop]. Qed.

Lemma splice_raw new p oldlen newlen : p = 56 + Z.of_nat (length A) -> oldlen = Z.of_nat (length old) -> newlen = Z.of_nat new ->
  fdt_splice_ p oldlen newlen (raw tot st sz (A ++ old ++ B) rest) =
  if tot <? 56 + st + sz - oldlen + newlen then Some (- FDT_ERR_NOSPACE, raw tot st sz (A ++ old ++ B) rest)
  else Some (0, raw tot st sz (A ++ gap new ++ B) (rest' new)).
Proof.
  intros -> -> ->. destruct Hok as [H1 H2 H3 H4 H5 H6]. rewrite !length_app in H3. unfold fdt_splice_.
  erewrite rbind by (apply rd_eq, raw_data_size; lia). erewrite rbind by (apply rd_eq, raw_total; lia).
  rewrite (proj2 (Z.ltb_ge _ (56 + Z.of_nat (length A)))) by lia. rewrite (proj2 (Z.ltb_ge (56 + st + sz) _)) by lia. cbn [orb].
  rewrite (proj2 (Z.ltb_ge _ 0)) by lia. rewrite (proj2 (Z.ltb_ge _ 0)) by lia. cbn [orb].
  destruct (tot <? 56 + st + sz - Z.of_nat (length old) + Z.of_nat new) eqn:E; [done|]. apply Z.ltb_ge in E.
  set (h := words [FDT_MAGIC; tot; 56; 56 + st; 40; 17; 16; 0; sz; st] ++ replicate 16 0). assert (Hh : length h = 56%nat) by done.
  assert (Em : raw tot st sz (A ++ old ++ B) rest = (h ++ A ++ old) ++ B ++ rest) by (unfold raw, h; by rewrite <- !app_assoc).
  rewrite Em. replace (56 + Z.of_nat (length A) + Z.of_nat new) with (Z.of_nat (56 + length A + new)) by lia.
  replace (56 + Z.of_nat (length A) + Z.of_nat (length old)) with (Z.of_nat (length (h ++ A ++ old))) by (rewrite !length_app; lia).
  replace (56 + st + sz - (56 + Z.of_nat (length A)) - Z.of_nat (length old)) with (Z.of_nat (length B)) by lia.
  erewrite rbind by (apply rw_memmove_eq; [rewrite !length_app; lia|done|done]).
  replace ((h ++ A ++ old) ++ B ++ rest) with ((h ++ A) ++ old ++ B ++ rest) by (by rewrite <- !app_assoc).
  rewrite take_app_ge, drop_app_ge by (rewrite length_app; lia). rewrite length_app, Hh.
  replace (56 + length A + new - (56 + length A))%nat with new by lia.
  replace (56 + length A + new + length B - (56 + length A))%nat with (length B + new)%nat by lia.
  unfold mret, RW_ret. do 2 f_equal. unfold raw, gap, rest', h. by rewrite <- !app_assoc.
Qed.

Lemma splice_struct_raw new p oldlen newlen : p = 56 + Z.of_nat (length A) -> oldlen = Z.of_nat (length old) -> newlen = Z.of_nat new ->
  Z.of_nat new < 2 ^ 31 -> 56 + Z.of_nat (length A) + Z.of_nat (length old) <= 56 + st ->
  fdt_splice_struct_ p oldlen newlen (raw tot st sz (A ++ old ++ B) rest) =
  if tot <? 56 + st + sz - oldlen + newlen then Some (- FDT_ERR_NOSPACE, raw tot st sz (A ++ old ++ B) rest)
  else Some (0, raw tot (st - oldlen + newlen) sz (A ++ gap new ++ B) (rest' new)).
Proof.
  intros Hp Ho Hn Hlt HA. unfold fdt_splice_struct_. pose proof (splice_raw new p oldlen newlen Hp Ho Hn) as E. destruct Hok as [H1 H2 H3 H4 H5 H6].
  destruct (tot <? 56 + st + sz - oldlen + newlen) eqn:Et; rewrite (rbind _ _ _ _ _ E); [done|]. change (nz 0) with false. cbv iota.
  rewrite raw_resize by lia. rewrite s32_small by lia. do 3 f_equal. lia.
Qed.
End Splice.

(** * The strings block *)

(** Where [key] first occurs in [l]. *)
Fixpoint find_sub (key l : list Z) : option nat :=
  if bool_decide (take (length key) l = key) then Some 0%nat
  else match l with [] => None | _ :: l => S <$> find_sub key l end.

Lemma take_starts_iff (key l : list Z) : take (length key) l = key <-> starts key l.
Proof.
  split; [intros E; exists (drop (length key) l); by rewrite <- E at 1; rewrite take_drop|]. intros [r ->]. apply take_app_length.
Qed.

Lemma find_sub_some key l n : find_sub key l = Some n -> starts key (drop n l).
Proof.
  revert n. induction l as [|x l IH]; intros n; cbn [find_sub]; case_bool_decide as E.
  - intros [= <-]. by apply take_starts_iff.
  - done.
  - intros [= <-]. by apply take_starts_iff.
  - destruct (find_sub key l) as [k|]; [|done]. intros [= <-]. by apply IH.
Qed.

(** The table of names with one more, if it is not part of it already. *)
Definition add_string (name strs : list Z) : list Z :=
  match find_sub (name ++ [0]) strs with Some _ => strs | None => strs ++ name ++ [0] end.

Lemma find_string_loop_eq key r : forall l l0 n,
  key <> [] -> (length l < n)%nat ->
  find_string_loop n (l0 ++ l ++ r) (Z.of_nat (length l0)) (Z.of_nat (length l0 + length l) - Z.of_nat (length key)) key (Z.of_nat (length key)) =
  Some ((fun k => Z.of_nat (length l0 + k)) <$> find_sub key l).
Proof.
  induction l as [|x l IH]; intros l0 n Hk Hn; (destruct n as [|n]; [lia|]); cbn [find_string_loop find_sub].
  - assert (0 < length key)%nat by (destruct key; simpl; [done|lia]). rewrite (proj2 (Z.leb_gt _ _)) by (simpl; lia).
    rewrite bool_decide_eq_false_2; [done|]. intros E. apply (f_equal length) in E. rewrite take_nil in E. simpl in E. lia.
  - destruct (Z.leb_spec (Z.of_nat (length l0)) (Z.of_nat (length l0 + length (x :: l)) - Z.of_nat (length key))) as [Hle|Hgt].
    + unfold from. rewrite (proj2 (Z.ltb_ge _ 0)), Nat2Z.id by lia. rewrite drop_app_length.
      assert (Hl : (length key <= length (x :: l))%nat) by lia.
      destruct (sbi_memcmp_starts (take (length key) (x :: l)) key ((x :: l) ++ r) key) as (c & Ec & Hc).
      { exists (drop (length key) (x :: l) ++ r). by rewrite app_assoc, take_drop. }
      { exists []. by rewrite app_nil_r. }
      { rewrite length_take. lia. }
      rewrite Nat2Z.id, Ec. cbn [mbind option_bind]. rewrite Hc. case_bool_decide; [cbn; do 2 f_equal; lia|].
      specialize (IH (l0 ++ [x]) n Hk ltac:(simpl in Hn; lia)). rewrite <- app_assoc in IH. rewrite length_app in IH. cbn [length app] in *.
      replace (Z.of_nat (length l0) + 1) with (Z.of_nat (length l0 + 1)) by lia.
      replace (length l0 + S (length l))%nat with (length l0 + 1 + length l)%nat by lia. rewrite IH. destruct (find_sub key l); [|done].
      cbn. do 2 f_equal. lia.
    + rewrite bool_decide_eq_false_2.
      2:{ intros E. apply (f_equal length) in E. rewrite length_take in E. lia. }
      clear IH Hn. assert (Hn : forall l, (length l < length key)%nat -> find_sub key l = None).
      { induction l1 as [|y l1 IH1]; intros Hl; cbn [find_sub]; rewrite bool_decide_eq_false_2; try done.
        - intros E. apply (f_equal length) in E. rewrite take_nil in E. simpl in *. lia.
        - rewrite IH1; [done|simpl in Hl; lia].
        - intros E. apply (f_equal length) in E. rewrite length_take in E. simpl in *. lia. }
      rewrite Hn; [done|]. cbn [length] in Hgt. lia.
Qed.

(** * Writing into the body *)

Lemma raw_split tot st sz A C rest : raw tot st sz (A ++ C) rest =
  (words [FDT_MAGIC; tot; 56; 56 + st; 40; 17; 16; 0; sz; st] ++ replicate 16 0 ++ A) ++ C ++ rest.
Proof. unfold raw. by rewrite <- !app_assoc. Qed.

Lemma raw_memcpy tot st sz A old C rest bs p n : p = 56 + Z.of_nat (length A) -> n = Z.of_nat (length old) -> (length old <= length bs)%nat ->
  rw_memcpy p bs n (raw tot st sz (A ++ old ++ C) rest) = Some (tt, raw tot st sz (A ++ take (length old) bs ++ C) rest).
Proof.
  intros -> Hn Hl. rewrite !raw_split, <- !app_assoc, (app_assoc (replicate 16 0)), (app_assoc (words _)).
  rewrite (rw_memcpy_eq _ old (C ++ rest)); [|rewrite !length_app, length_words, length_replicate; simpl length; lia|done|done].
  by rewrite <- !app_assoc.
Qed.

Lemma raw_st32 tot st sz A old C rest x p : p = 56 + Z.of_nat (length A) -> length old = 4%nat ->
  st32 p x (raw tot st sz (A ++ old ++ C) rest) = Some (tt, raw tot st sz (A ++ be32 x ++ C) rest).
Proof. intros Hp Ho. unfold st32. rewrite (raw_memcpy _ _ _ A old C); [by rewrite Ho|done|by rewrite Ho|rewrite Ho; simpl; lia]. Qed.

Lemma raw_memset tot st sz A old C rest p n : p = 56 + Z.of_nat (length A) -> n = Z.of_nat (length old) ->
  rw_memset p 0 n (raw tot st sz (A ++ old ++ C) rest) = Some (tt, raw tot st sz (A ++ replicate (length old) 0 ++ C) rest).
Proof.
  intros -> Hn. rewrite !raw_split, <- !app_assoc, (app_assoc (replicate 16 0)), (app_assoc (words _)).
  rewrite (rw_memset_eq _ old (C ++ rest)); [|rewrite !length_app, length_words, length_replicate; simpl length; lia|done].
  by rewrite <- !app_assoc.
Qed.

(** A gap of known size in pieces. *)
Lemma split_at (g : list Z) n k : length g = (n + k)%nat -> exists a b, g = a ++ b /\ length a = n /\ length b = k.
Proof. intros Hl. exists (take n g), (drop n g). rewrite take_drop, length_take, length_drop. split; [done|lia]. Qed.

(** * Images *)

Lemma image_edit tot pts strs rest pts' strs' r : image_ok tot pts strs rest ->
  Forall (ptok_ok strs') pts' -> Forall (fits 8) strs' -> Forall (fits 8) r ->
  56 + Z.of_nat (length (struct_block pts')) + Z.of_nat (length strs') <= tot ->
  (length (struct_block pts') + length strs' + length r = length (struct_block pts) + length strs + length rest)%nat ->
  image_ok tot pts' strs' r /\ length (image tot pts' strs' r) = length (image tot pts strs rest).
Proof.
  intros Hi Hp Hs Hr Hf Hl.
  assert (E : length (image tot pts' strs' r) = length (image tot pts strs rest)).
  { apply Nat2Z.inj. rewrite !image_length. unfold st_len. lia. }
  split; [|done]. destruct Hi. split; try done; by rewrite E.
Qed.

Lemma struct_block_length strs pts : Forall (ptok_ok strs) pts -> length (struct_block pts) = (toks_size (map pk pts) + 4)%nat.
Proof. intros H. unfold struct_block. rewrite length_app, (ptoks_bytes_length strs) by done. done. Qed.

Lemma struct_fits strs pts : Forall (ptok_ok strs) pts -> Forall (fits 8) (struct_block pts).
Proof.
  intros H. apply Forall_app. split; [|apply be32_fits]. by eapply ptoks_fits, ptoks_ok_shape.
Qed.

(** Names stay where they are when the strings block grows. *)
Lemma ptok_ok_grow strs x p : ptok_ok strs p -> ptok_ok (strs ++ x) p.
Proof.
  intros (H1 & H2 & H3). split; [done|]. split; [done|]. destruct (pk p) as [name| |name value]; [done..|].
  destruct H3 as (Hv & H0 & Hn & r & Hr). split; [done|]. split; [done|]. split; [done|]. exists (r ++ x).
  rewrite drop_app_le; [by rewrite Hr, app_assoc|]. apply (f_equal length) in Hr. rewrite length_drop, !length_app in Hr. simpl in Hr. lia.
Qed.

(** Making room after the strings. *)
Lemma splice_string_raw tot st sz body rest new newlen : raw_ok tot st sz body rest -> newlen = Z.of_nat new -> Forall (fits 8) rest ->
  (tot < 56 + st + sz + newlen /\
   fdt_splice_string_ newlen (raw tot st sz body rest) = Some (- FDT_ERR_NOSPACE, raw tot st sz body rest)) \/
  (56 + st + sz + newlen <= tot /\
   exists g r, length g = new /\ (length r + new = length rest)%nat /\ Forall (fits 8) r /\
     fdt_splice_string_ newlen (raw tot st sz body rest) = Some (0, raw tot st (sz + newlen) (body ++ g) r)).
Proof.
  intros Hok -> Hf. unfold fdt_splice_string_. pose proof Hok as [H1 H2 H3 H4 H5 H6].
  erewrite rbind by (apply rd_eq, raw_stroff; lia). erewrite rbind by (apply rd_eq, raw_strsize; lia).
  pose proof Hok as Hok'. rewrite <- (app_nil_r body) in Hok'. change (body ++ []) with (body ++ [] ++ []) in Hok'.
  pose proof (splice_raw _ _ _ _ _ _ _ Hok' new (56 + st + sz) 0 (Z.of_nat new)) as E. cbn [app] in E. rewrite app_nil_r in E.
  specialize (E ltac:(lia) eq_refl eq_refl). rewrite Z.sub_0_r in E. destruct (Z.ltb_spec tot (56 + st + sz + Z.of_nat new)) as [Hgt|Hle].
  { left. split; [done|]. by rewrite (rbind _ _ _ _ _ E). }
  right. split; [done|]. rewrite (rbind _ _ _ _ _ E). change (nz 0) with false. cbv iota.
  destruct (gap_length _ _ _ _ _ _ _ Hok' new) as [Hg Hr]; [simpl; lia|]. destruct (gap_fits [] [] rest new Hf) as [_ Hf2].
  exists (gap [] [] rest new), (rest' [] [] rest new). split; [done|]. split; [simpl in Hr; lia|]. split; [done|].
  erewrite rbind by (apply rd_eq, raw_strsize; lia). erewrite rbind by apply raw_set_strsize. by rewrite app_nil_r.
Qed.

Section Images.
Context (tot : Z) (pts : list ptok) (strs rest : list Z) (Hi : image_ok tot pts strs rest).
Notation st := (Z.of_nat (length (struct_block pts))).
Notation sz := (Z.of_nat (length strs)).

Lemma image_ordered : fdt_blocks_misordered_ SIZEOF_RESERVE_ENTRY (s32 st) (image tot pts strs rest) = Some false.
Proof.
  pose proof (lens_pos _ _ _ _ Hi) as Hl. unfold st_len in Hl.
  unfold fdt_blocks_misordered_. rewrite image_rsvoff, image_soff, image_stroff, image_total, image_strsize by done. unfold st_len.
  cbn [mbind option_bind]. rewrite s32_small by lia. f_equal. unfold u32. rewrite !wrap_small by (unfold fits, SIZEOF_RESERVE_ENTRY; lia).
  change (FDT_ALIGN SIZEOF_FDT_HEADER 8) with 40. unfold SIZEOF_RESERVE_ENTRY. rewrite !orb_false_iff, !Z.ltb_ge. lia.
Qed.

Lemma rw_probe_image : fdt_rw_probe_ (image tot pts strs rest) = Some (0, image tot pts strs rest).
Proof.
  unfold fdt_rw_probe_. pose proof (lens_pos _ _ _ _ Hi) as Hl. unfold st_len in Hl.
  erewrite rbind by (by apply rd_eq, image_probe). rewrite (proj2 (Z.ltb_ge tot 0)) by lia.
  erewrite rbind by (by apply rd_eq, image_vers). cbn [Z.ltb Z.compare Pos.compare Pos.compare_cont].
  erewrite rbind by (by apply rd_eq, image_ssize). unfold st_len.
  erewrite rbind by (apply rd_eq, image_ordered). done.
Qed.

Lemma rw_probe_k (k : RW Z) : FDT_RW_PROBE k (image tot pts strs rest) = k (image tot pts strs rest).
Proof. unfold FDT_RW_PROBE. by rewrite (rbind _ _ _ _ _ rw_probe_image). Qed.

(** Making room in the structure block. *)
Lemma splice_struct_image A old B new p oldlen newlen : struct_block pts = A ++ old ++ B ->
  p = 56 + Z.of_nat (length A) -> oldlen = Z.of_nat (length old) -> newlen = Z.of_nat new -> Z.of_nat new < 2 ^ 31 ->
  (tot < 56 + st + sz - oldlen + newlen /\
   fdt_splice_struct_ p oldlen newlen (image tot pts strs rest) = Some (- FDT_ERR_NOSPACE, image tot pts strs rest)) \/
  (56 + st + sz - oldlen + newlen <= tot /\
   exists g r, length g = new /\ (length r + new = length rest + length old)%nat /\ Forall (fits 8) g /\ Forall (fits 8) r /\
     fdt_splice_struct_ p oldlen newlen (image tot pts strs rest) =
     Some (0, raw tot (st - oldlen + newlen) sz (A ++ g ++ B ++ strs) r)).
Proof.
  intros Es Hp Ho Hn Hlt. pose proof (image_raw_ok _ _ _ _ Hi) as Hok. rewrite image_raw. pose proof (struct_fits _ _ (img_toks _ _ _ _ Hi)) as Hfs.
  set (s := st) in *. set (z := sz) in *. assert (HA : s = Z.of_nat (length A + (length old + length B))) by (unfold s; by rewrite Es, !length_app).
  rewrite Es, <- !app_assoc in *. rewrite !Forall_app in Hfs. destruct Hi as [_ Hs Hr _ _ _].
  rewrite (splice_struct_raw _ _ _ _ _ _ _ Hok new p oldlen newlen Hp Ho Hn Hlt) by lia.
  destruct (Z.ltb_spec tot (56 + s + z - oldlen + newlen)) as [Hgt|Hle]; [by left|right]. split; [done|].
  destruct (gap_length _ _ _ _ _ _ _ Hok new) as [Hg Hrl]; [lia|]. destruct (gap_fits old (B ++ strs) rest new) as [Hf1 Hf2].
  { rewrite !Forall_app. tauto. }
  exists (gap old (B ++ strs) rest new), (rest' old (B ++ strs) rest new). repeat (split; [done || lia|]). done.
Qed.

(** Finding or adding a name. *)
Lemma find_add_string_image name : name_ok name -> Z.of_nat (length name) < 2 ^ 31 - 1 ->
  match find_sub (name ++ [0]) strs with
  | Some n => fdt_find_add_string_ (name ++ [0]) (image tot pts strs rest) = Some ((Z.of_nat n, false), image tot pts strs rest)
  | None =>
      (tot < 56 + st + sz + Z.of_nat (length name) + 1 /\
       fdt_find_add_string_ (name ++ [0]) (image tot pts strs rest) = Some ((- FDT_ERR_NOSPACE, false), image tot pts strs rest)) \/
      (56 + st + sz + Z.of_nat (length name) + 1 <= tot /\
       exists r, Forall (fits 8) r /\ (length r + length name + 1 = length rest)%nat /\
         fdt_find_add_string_ (name ++ [0]) (image tot pts strs rest) = Some ((sz, true), image tot pts (strs ++ name ++ [0]) r))
  end.
Proof.
  intros Hn Hlen. pose proof (lens_pos _ _ _ _ Hi) as Hl. unfold st_len in Hl. unfold fdt_find_add_string_.
  assert (Hsl : sbi_strlen (name ++ [0]) = Some (Z.of_nat (length name))) by (apply sbi_strlen_spec; [split; [done|by exists []]|lia]).
  assert (Ef : fdt_find_string_ (strs ++ rest) (s32 sz) (name ++ [0]) = Some (Z.of_nat <$> find_sub (name ++ [0]) strs)).
  { unfold fdt_find_string_. rewrite Hsl. cbn [mbind option_bind]. rewrite !s32_small by lia.
    replace (Z.of_nat (length name) + 1) with (Z.of_nat (length (name ++ [0]))) by (rewrite length_app; simpl; lia).
    apply (find_string_loop_eq (name ++ [0]) rest strs [] (S (length (strs ++ rest)))); [by destruct name|rewrite length_app; lia]. }
  erewrite rbind by (by apply rd_eq, image_stroff). erewrite rbind by (by apply rd_eq). rewrite s32_small by lia.
  erewrite rbind by (by apply rd_eq, image_strsize). erewrite rbind by (apply rd_eq; rewrite from_strings by done; exact Ef).
  destruct (find_sub (name ++ [0]) strs) as [n|] eqn:Es; cbn [fmap option_fmap option_map].
  { rewrite s32_small; [done|]. apply find_sub_some in Es as [r Hr]. apply (f_equal length) in Hr. rewrite length_drop, !length_app in Hr. simpl in Hr. lia. }
  pose proof (image_raw_ok _ _ _ _ Hi) as Hok.
  destruct (splice_string_raw _ _ _ _ _ (length (name ++ [0])) (Z.of_nat (length name) + 1) Hok) as [[Hgt E]|(Hle & g & r & Hg & Hr & Hfr & E)];
    [rewrite length_app; simpl; lia|apply Hi|left|right]; (split; [lia|]); rewrite image_raw.
  { by rewrite (rbind _ _ _ _ _ E). }
  rewrite length_app in Hg, Hr. cbn [length] in Hg, Hr. exists r. split; [done|]. split; [lia|]. rewrite (rbind _ _ _ _ _ E). change (nz 0) with false. cbv iota.
  rewrite <- (app_nil_r g) in *. erewrite rbind by (apply raw_memcpy; unfold st_len; rewrite ?length_app in *; cbn [length] in *; lia).
  rewrite (take_ge (name ++ [0])) by (rewrite !length_app in *; cbn [length] in *; lia).
  unfold st_len. replace (56 + st + sz - (56 + st)) with sz by lia. rewrite s32_small by lia. unfold mret, RW_ret. do 2 f_equal.
  rewrite image_raw. rewrite !length_app. cbn [length]. f_equal; [lia|]. by rewrite app_nil_r, !app_assoc.
Qed.
End Images.

(** * Places in a tree *)

(** A node by the indices of the children on the way to it. *)
Fixpoint at_path (s : src) (p : list nat) {struct p} : option src :=
  match p with
  | [] => Some s
  | i :: p => k ← s_kids s !! i; at_path k p
  end.

Fixpoint upd_path (s : src) (p : list nat) (f : src -> src) {struct p} : src :=
  match p with
  | [] => f s
  | i :: p => let '(Src name props kids) := s in Src name props (alter (fun k => upd_path k p f) i kids)
  end.

(** The size of what comes before the children of a node. *)
Definition head_size (name : list Z) (props : list (list Z * list Z)) : nat :=
  tok_size (TBegin name) + list_sum (map prop_size props).

(** The offset of the node in the structure block. *)
Fixpoint off_path (s : src) (p : list nat) {struct p} : nat :=
  match p with
  | [] => 0
  | i :: p =>
      let '(Src name props kids) := s in
      head_size name props + list_sum (map src_size (take i kids)) +
      match kids !! i with Some k => off_path k p | None => 0 end
  end.

Lemma flat_map_size kids : toks_size (flat_map sflat kids) = list_sum (map src_size kids).
Proof. induction kids as [|k kids IH]; [done|]. cbn [flat_map map]. rewrite toks_size_app, IH. done. Qed.

(** The tokens of a node are a part of those of the tree, and editing the node
    replaces this part. *)
Lemma path_split p : forall s t, at_path s p = Some t -> exists l1 l2, sflat s = l1 ++ sflat t ++ l2 /\ toks_size l1 = off_path s p /\
  forall f, sflat (upd_path s p f) = l1 ++ sflat (f t) ++ l2.
Proof.
  induction p as [|i p IH]; intros s t Ht; cbn [at_path upd_path off_path] in *.
  - injection Ht as <-. exists [], []. split; [by rewrite app_nil_r|]. split; [done|]. intros f. cbn [app]. by rewrite app_nil_r.
  - destruct s as [name props kids]. cbn [s_kids] in Ht. destruct (kids !! i) as [k|] eqn:Ek; [|done]. cbn [mbind option_bind] in Ht.
    destruct (IH k t Ht) as (l1 & l2 & E & Es & Eu).
    exists (TBegin name :: map prop_stok props ++ flat_map sflat (take i kids) ++ l1), (l2 ++ flat_map sflat (drop (S i) kids) ++ [TEnd]).
    split; [|split].
    + rewrite <- (take_drop_middle kids i k Ek) at 1. cbn [sflat]. rewrite flat_map_app. cbn [flat_map app]. rewrite E, <- !app_assoc. done.
    + change (toks_size (?x :: ?l)) with (tok_size x + toks_size l)%nat. rewrite !toks_size_app, flat_map_size, props_size_eq, Es. unfold head_size. lia.
    + intros f. rewrite <- (take_drop_middle (alter (fun k => upd_path k p f) i kids) i (upd_path k p f)) by (by rewrite list_lookup_alter_eq, Ek).
      rewrite take_alter_ge, drop_alter_lt by lia. cbn [sflat]. rewrite flat_map_app. cbn [flat_map app]. rewrite Eu, <- !app_assoc. done.
Qed.

Lemma upd_path_ext p : forall s t f g, at_path s p = Some t -> f t = g t -> upd_path s p f = upd_path s p g.
Proof.
  induction p as [|i p IH]; intros s t f g Ht E; cbn [at_path upd_path] in *; [injection Ht as <-; done|]. destruct s as [name props kids].
  cbn [s_kids] in Ht. destruct (kids !! i) as [k|] eqn:Ek; [|done]. f_equal. apply list_eq. intros j. rewrite !list_lookup_alter.
  case_decide; [|done]. rewrite Ek. cbn. f_equal. by apply (IH k t).
Qed.

Lemma place_kids_in kids : forall o i k, kids !! i = Some k ->
  place (o + Z.of_nat (list_sum (map src_size (take i kids)))) k ∈ place_list place src_size o kids.
Proof.
  induction kids as [|k' kids IH]; intros o i k Hk; [done|]. destruct i as [|i]; cbn [place_list].
  - injection Hk as ->. cbn. rewrite Z.add_0_r. left.
  - right. cbn [take map]. change (list_sum (src_size k' :: ?l)) with (src_size k' + list_sum l)%nat. specialize (IH (o + Z.of_nat (src_size k')) i k Hk).
    replace (o + Z.of_nat (src_size k' + list_sum (map src_size (take i kids)))) with
      (o + Z.of_nat (src_size k') + Z.of_nat (list_sum (map src_size (take i kids)))) by lia. done.
Qed.

(** The node is in the tree with positions. *)
Lemma path_node p : forall s t o, at_path s p = Some t -> node_of (place o s) (place (o + Z.of_nat (off_path s p)) t).
Proof.
  induction p as [|i p IH]; intros s t o Ht; cbn [at_path off_path] in *; [injection Ht as <-; rewrite Z.add_0_r; constructor|].
  destruct s as [name props kids]. cbn [s_kids] in Ht. destruct (kids !! i) as [k|] eqn:Ek; [|done]. cbn [mbind option_bind] in Ht.
  rewrite place_eq. cbv zeta. econstructor; [cbn [d_kids]; apply (place_kids_in kids _ i k Ek)|].
  match goal with |- node_of (place ?a k) (place ?b t) => replace b with (a + Z.of_nat (off_path k p)) by (unfold head_size; lia) end.
  by apply IH.
Qed.

(** * Blobs that store a tree *)

(** How much of the blob is in use. *)
Definition used (s : src) (strs : list Z) : Z := 60 + Z.of_nat (src_size s) + Z.of_nat (length strs).

(** The blob claims [tot] bytes, holds the tree [s], and the strings block is
    [strs]. *)
Definition stores (fdt : list Z) (tot : Z) (strs : list Z) (s : src) : Prop :=
  exists pts rest, fdt = image tot pts strs rest /\ image_ok tot pts strs rest /\ map pk pts = sflat s.

Lemma stores_holds fdt tot strs s : stores fdt tot strs s -> holds fdt (place 0 s).
Proof. intros (pts & rest & -> & Hi & E). by apply image_holds. Qed.

Lemma used_eq pts strs s : Forall (ptok_ok strs) pts -> map pk pts = sflat s ->
  56 + Z.of_nat (length (struct_block pts)) + Z.of_nat (length strs) = used s strs.
Proof. intros H E. rewrite (struct_block_length strs) by done. rewrite E. unfold used, src_size. lia. Qed.

(** The tokens before, of and after a node. *)
Lemma stores_split pts s p t : map pk pts = sflat s -> at_path s p = Some t -> exists p1 pm p2, pts = p1 ++ pm ++ p2 /\
  toks_size (map pk p1) = off_path s p /\ map pk pm = sflat t /\
  forall f q, map pk q = sflat (f t) -> map pk (p1 ++ q ++ p2) = sflat (upd_path s p f).
Proof.
  intros E Ht. destruct (path_split p s t Ht) as (l1 & l2 & Es & Eo & Eu). rewrite Es in E.
  apply map_eq_app in E as (p1 & pr & -> & E1 & Er). apply map_eq_app in Er as (pm & p2 & -> & Em & E2).
  exists p1, pm, p2. split; [done|]. split; [by rewrite E1|]. split; [done|]. intros f q Eq.
  by rewrite Eu, !map_app, E1, Eq, E2.
Qed.

(** * One token *)

Definition tag_of (k : stok) : Z :=
  match k with TBegin _ => FDT_BEGIN_NODE | TEnd => FDT_END_NODE | TProp _ _ => FDT_PROP end.

Lemma image_tag tot l1 x l2 strs rest (Hi : image_ok tot (l1 ++ x :: l2) strs rest) o : o = Z.of_nat (toks_size (map pk l1)) ->
  fdt_next_tag (image tot (l1 ++ x :: l2) strs rest) o = Some (tag_of (pk x), o + Z.of_nat (tok_size (pk x))) /\ o mod 4 = 0.
Proof.
  intros ->. pose proof (lens_pos _ _ _ _ Hi) as Hl. pose proof (image_valid _ _ _ _ Hi) as Hv. pose proof (img_toks _ _ _ _ Hi) as Ht.
  apply Forall_app in Ht as [Ht1 Ht2]. apply Forall_cons in Ht2 as [Hx _].
  pose proof (image_block _ _ _ _ Hi) as Hb. unfold struct_block in Hb. rewrite ptoks_bytes_app in Hb.
  change (ptoks_bytes (x :: l2)) with (ptok_bytes x ++ ptoks_bytes l2) in Hb. rewrite <- !app_assoc in Hb.
  apply (block_at_app _ Hv) in Hb as [_ Hb]; [|done]. rewrite (ptoks_bytes_length strs) in Hb by done. rewrite Z.add_0_l in Hb.
  apply (block_at_app _ Hv) in Hb as [Hb _]; [|lia].
  assert (Hm : Z.of_nat (toks_size (map pk l1)) mod 4 = 0).
  { destruct (toks_size_aligned (map pk l1)) as [n ->]. replace (Z.of_nat (4 * n)) with (Z.of_nat n * 4) by lia. by apply Z.mod_mul. }
  split; [|done].
  assert (Evs : vers (image tot (l1 ++ x :: l2) strs rest) = 17) by (unfold vers; by rewrite image_vers).
  assert (Efit : soff (image tot (l1 ++ x :: l2) strs rest) + ssize (image tot (l1 ++ x :: l2) strs rest) <= total (image tot (l1 ++ x :: l2) strs rest)).
  { unfold soff, ssize, total. rewrite image_soff, image_ssize, image_total by done. cbn. lia. }
  destruct (tok_read _ Hv Evs Efit strs (image_string _ _ _ _ Hi) (Z.of_nat (toks_size (map pk l1))) x ltac:(lia) Hm Hx Hb) as (_ & _ & _ & _ & _ & Hk).
  destruct (pk x); cbn [place_tok tag_of] in *; tauto.
Qed.

(** The size of a property, as the code computes it. *)
Lemma tagalign_prop name val : Z.of_nat (length val) < 2 ^ 31 - 16 ->
  FDT_TAGALIGN (Z.of_nat (length val)) = Z.of_nat (length val + length (pad (body_size (TProp name val)))) /\
  tok_size (TProp name val) = (12 + (length val + length (pad (body_size (TProp name val)))))%nat.
Proof.
  intros Hl. rewrite tagalign_eq by lia. pose proof (tok_size_align 0 (TProp name val) eq_refl) as Ha. unfold tok_size in *. cbn [body_size] in *.
  split; [|lia]. Z.to_euclidean_division_equations. lia.
Qed.

Lemma struct_block_split l1 x l2 : struct_block (l1 ++ x :: l2) = ptoks_bytes l1 ++ ptok_bytes x ++ struct_block l2.
Proof.
  unfold struct_block. rewrite ptoks_bytes_app. change (ptoks_bytes (x :: l2)) with (ptok_bytes x ++ ptoks_bytes l2). by rewrite <- !app_assoc.
Qed.

(** Copying the value into its place. *)
Lemma write_value tot st sz A g C r val vl d : starts val vl -> length g = length val -> d = 56 + Z.of_nat (length A) ->
  (if nz (Z.of_nat (length val)) then rw_memcpy d vl (Z.of_nat (length val)) else mret tt) (raw tot st sz (A ++ g ++ C) r) =
  Some (tt, raw tot st sz (A ++ val ++ C) r).
Proof.
  intros [vr ->] Hg Hd. destruct val as [|b val]; [by destruct g|]. replace (nz (Z.of_nat (length (b :: val)))) with true by done.
  rewrite raw_memcpy; [|done|by rewrite Hg|rewrite Hg, length_app; lia]. by rewrite Hg, take_app_length.
Qed.

(** Giving a property another value. *)
Lemma set_value_image tot l1 x l2 strs rest name old val vl prop : starts val vl -> image_ok tot (l1 ++ x :: l2) strs rest ->
  pk x = TProp name old -> Forall (fits 8) val -> Z.of_nat (length val) < 2 ^ 31 - 64 ->
  prop = 56 + Z.of_nat (toks_size (map pk l1)) ->
  let m := image tot (l1 ++ x :: l2) strs rest in
  let need := 56 + Z.of_nat (length (struct_block (l1 ++ x :: l2))) + Z.of_nat (length strs)
              - Z.of_nat (tok_size (TProp name old)) + Z.of_nat (tok_size (TProp name val)) in
  let op := err ← fdt_splice_struct_ (prop + SIZEOF_PROPERTY) (FDT_TAGALIGN (Z.of_nat (length old))) (FDT_TAGALIGN (Z.of_nat (length val)));
            if nz err then mret (err, Some prop) else st32 (prop + 4) (Z.of_nat (length val));; mret (0, Some prop) in
  (tot < need /\ op m = Some ((- FDT_ERR_NOSPACE, Some prop), m)) \/
  (need <= tot /\ exists m1 x' r, op m = Some ((0, Some prop), m1) /\
     (if nz (Z.of_nat (length val)) then rw_memcpy (prop + SIZEOF_PROPERTY) vl (Z.of_nat (length val)) else mret tt) m1 =
       Some (tt, image tot (l1 ++ x' :: l2) strs r) /\
     pk x' = TProp name val /\ image_ok tot (l1 ++ x' :: l2) strs r /\
     length (image tot (l1 ++ x' :: l2) strs r) = length m).
Proof.
  intros Hsv Hi Hx Hv Hlen Hp m need op. pose proof (img_toks _ _ _ _ Hi) as Ht. apply Forall_app in Ht as [Ht1 Ht2]. apply Forall_cons in Ht2 as [Hxo Ht2].
  pose proof (lens_pos _ _ _ _ Hi) as Hl. unfold st_len in Hl.
  assert (Hol : Z.of_nat (length old) < 2 ^ 31 - 16).
  { rewrite struct_block_split, !length_app, (ptok_bytes_length strs x Hxo), Hx in Hl. unfold tok_size in Hl. cbn [body_size] in Hl. lia. }
  destruct (tagalign_prop name old Hol) as [Ea1 Et1]. destruct (tagalign_prop name val) as [Ea2 Et2]; [lia|].
  pose proof Hxo as (Hpl & Hpf & Hpk). rewrite Hx in Hpl, Hpk. destruct Hpk as [_ Hname].
  set (A := ptoks_bytes l1 ++ be32 FDT_PROP ++ be32 (Z.of_nat (length old)) ++ be32 (p_noff x)).
  assert (Es : struct_block (l1 ++ x :: l2) = A ++ (old ++ p_pad x) ++ struct_block l2).
  { rewrite struct_block_split. unfold ptok_bytes, A. rewrite Hx. by rewrite <- !app_assoc. }
  assert (HA : Z.of_nat (length A) = Z.of_nat (toks_size (map pk l1)) + 12).
  { unfold A. rewrite !length_app, (ptoks_bytes_length strs) by done. simpl length. lia. }
  destruct (splice_struct_image _ _ _ _ Hi A (old ++ p_pad x) (struct_block l2)
    (length val + length (pad (body_size (TProp name val)))) (prop + SIZEOF_PROPERTY)
    (FDT_TAGALIGN (Z.of_nat (length old))) (FDT_TAGALIGN (Z.of_nat (length val))) Es) as [[Hgt E]|(Hle & g & r & Hg & Hr & Hfg & Hfr & E)].
  { unfold SIZEOF_PROPERTY. lia. } { rewrite Ea1, length_app, Hpl. done. } { exact Ea2. } { destruct (length_pad (body_size (TProp name val))). lia. }
  - left. unfold need, op. split; [lia|]. by rewrite (rbind _ _ _ _ _ E).
  - right. unfold need. split; [lia|]. apply split_at in Hg as (g1 & g2 & -> & Hg1 & Hg2). apply Forall_app in Hfg as [_ Hfg].
    set (A' := ptoks_bytes l1 ++ be32 FDT_PROP ++ be32 (Z.of_nat (length val)) ++ be32 (p_noff x)).
    set (x' := mkPtok (TProp name val) (p_noff x) g2). set (st' := _ - _ + _) in E.
    exists (raw tot st' (Z.of_nat (length strs)) (A' ++ (g1 ++ g2) ++ struct_block l2 ++ strs) r), x', r.
    assert (Hx' : ptok_ok strs x') by (split; [exact Hg2|done]).
    assert (Eb : struct_block (l1 ++ x' :: l2) = A' ++ val ++ g2 ++ struct_block l2).
    { rewrite struct_block_split. unfold ptok_bytes, A'. cbn [pk p_noff p_pad x']. by rewrite <- !app_assoc. }
    assert (Hst : st' = Z.of_nat (length (struct_block (l1 ++ x' :: l2)))).
    { unfold st'. rewrite Eb, Es, Ea1, Ea2. unfold A, A'. rewrite !length_app, Hpl, Hg2. simpl length. lia. }
    split; [|split; [|split; [done|]]].
    + unfold op. rewrite (rbind _ _ _ _ _ E). change (nz 0) with false. cbv iota. unfold A. rewrite <- (app_assoc (ptoks_bytes l1)), <- !app_assoc, (app_assoc (ptoks_bytes l1)).
      erewrite rbind by (apply raw_st32; [rewrite length_app, (ptoks_bytes_length strs) by done; simpl length; lia|done]).
      unfold mret, RW_ret, A'. by rewrite <- !app_assoc.
    + rewrite <- (app_assoc g1). rewrite write_value; [|done|by rewrite Hg1|unfold A', SIZEOF_PROPERTY; rewrite !length_app, (ptoks_bytes_length strs) by done; simpl length; lia].
      rewrite image_raw, Hst, Eb. by rewrite <- !app_assoc.
    + apply image_edit; try done; [by apply Forall_app; split; [|constructor]|apply Hi|lia|].
      rewrite Eb, Es. unfold A, A'. rewrite !length_app in *. simpl length. lia.
Qed.

(** Room for a property whose name is in the strings block. *)
Lemma insert_prop_image tot l1 l2 strs rest name val vl noff prop (k : Z -> RW (Z * option Z)) : starts val vl -> image_ok tot (l1 ++ l2) strs rest ->
  name_at strs noff name -> Forall (fits 8) val -> Z.of_nat (length val) < 2 ^ 31 - 64 ->
  prop = 56 + Z.of_nat (toks_size (map pk l1)) ->
  let m := image tot (l1 ++ l2) strs rest in
  let need := 56 + Z.of_nat (length (struct_block (l1 ++ l2))) + Z.of_nat (length strs) + Z.of_nat (tok_size (TProp name val)) in
  let op := err ← fdt_splice_struct_ prop 0 (s32 (SIZEOF_PROPERTY + FDT_TAGALIGN (Z.of_nat (length val))));
            if nz err then k err
            else st32 prop FDT_PROP;; st32 (prop + 8) noff;; st32 (prop + 4) (Z.of_nat (length val));; mret (0, Some prop) in
  (tot < need /\ op m = k (- FDT_ERR_NOSPACE) m) \/
  (need <= tot /\ exists m1 x r, op m = Some ((0, Some prop), m1) /\
     (if nz (Z.of_nat (length val)) then rw_memcpy (prop + SIZEOF_PROPERTY) vl (Z.of_nat (length val)) else mret tt) m1 =
       Some (tt, image tot (l1 ++ x :: l2) strs r) /\
     pk x = TProp name val /\ image_ok tot (l1 ++ x :: l2) strs r /\
     length (image tot (l1 ++ x :: l2) strs r) = length m).
Proof.
  intros Hsv Hi Hname Hv Hlen Hp m need op. pose proof (img_toks _ _ _ _ Hi) as Ht. apply Forall_app in Ht as [Ht1 Ht2].
  destruct (tagalign_prop name val) as [Ea Et]; [lia|].
  assert (Es : struct_block (l1 ++ l2) = ptoks_bytes l1 ++ [] ++ struct_block l2) by (unfold struct_block; by rewrite ptoks_bytes_app, <- app_assoc).
  assert (En : s32 (SIZEOF_PROPERTY + FDT_TAGALIGN (Z.of_nat (length val))) = Z.of_nat (tok_size (TProp name val))).
  { destruct (length_pad (body_size (TProp name val))) as (? & ? & _). rewrite Ea, Et. unfold SIZEOF_PROPERTY. rewrite s32_small by lia. lia. }
  unfold op. rewrite En.
  assert (HA : Z.of_nat (length (ptoks_bytes l1)) = Z.of_nat (toks_size (map pk l1))) by (by rewrite (ptoks_bytes_length strs)).
  destruct (splice_struct_image _ _ _ _ Hi (ptoks_bytes l1) [] (struct_block l2) (tok_size (TProp name val)) prop
    0 (Z.of_nat (tok_size (TProp name val))) Es) as [[Hgt E]|(Hle & g & r & Hg & Hr & Hfg & Hfr & E)]; [lia|done|done| | |].
  { destruct (length_pad (body_size (TProp name val))) as (? & ? & _). lia. }
  { left. unfold need. split; [lia|]. by rewrite (rbind _ _ _ _ _ E). }
  right. unfold need. split; [lia|]. rewrite Et in Hg. apply (split_at g 12) in Hg as (gh & gd & -> & Hgh & Hgd).
  apply (split_at gh 4 8) in Hgh as (g1 & gh' & -> & Hg1 & Hgh). apply (split_at gh' 4 4) in Hgh as (g2 & g3 & -> & Hg2 & Hg3).
  apply split_at in Hgd as (gv & gp & -> & Hgv & Hgp). rewrite !Forall_app in Hfg. destruct Hfg as (_ & _ & Hfg).
  set (x := mkPtok (TProp name val) noff gp). set (st' := _ - _ + _) in E.
  set (A := ptoks_bytes l1 ++ be32 FDT_PROP ++ be32 (Z.of_nat (length val)) ++ be32 noff).
  exists (raw tot st' (Z.of_nat (length strs)) (A ++ gv ++ gp ++ struct_block l2 ++ strs) r), x, r.
  assert (Eb : struct_block (l1 ++ x :: l2) = A ++ val ++ gp ++ struct_block l2).
  { rewrite struct_block_split. unfold ptok_bytes, A. cbn [pk p_noff p_pad x]. by rewrite <- !app_assoc. }
  assert (Hst : st' = Z.of_nat (length (struct_block (l1 ++ x :: l2)))).
  { unfold st'. rewrite Eb, Es, Et. unfold A. rewrite !length_app, Hgp. simpl length. lia. }
  split; [|split; [|split; [done|]]].
  - rewrite (rbind _ _ _ _ _ E). change (nz 0) with false. cbv iota. rewrite <- !app_assoc.
    erewrite rbind by (apply raw_st32; [lia|done]).
    rewrite (app_assoc (ptoks_bytes l1)), (app_assoc _ g2).
    erewrite rbind by (apply raw_st32; [rewrite !length_app; simpl length; lia|done]).
    rewrite <- (app_assoc _ g2). erewrite rbind by (apply raw_st32; [rewrite !length_app; simpl length; lia|done]).
    unfold mret, RW_ret, A. by rewrite <- !app_assoc.
  - rewrite write_value; [|done|done|unfold A, SIZEOF_PROPERTY; rewrite !length_app; simpl length; lia].
    rewrite image_raw, Hst, Eb. by rewrite <- !app_assoc.
  - assert (Hx : ptok_ok strs x) by (split; [exact Hgp|by split]).
    apply image_edit; try done; [by apply Forall_app; split; [|constructor]|apply Hi|lia|].
    rewrite Eb, Es. unfold A. rewrite !length_app in *. simpl length in *. lia.
Qed.

(** Taking back a name that was added. *)
Lemma del_last_string_image tot pts strs name r : image_ok tot pts (strs ++ name ++ [0]) r -> Forall (ptok_ok strs) pts ->
  Forall (fits 8) strs -> name_ok name ->
  fdt_del_last_string_ (name ++ [0]) (image tot pts (strs ++ name ++ [0]) r) = Some (tt, image tot pts strs (name ++ 0 :: r)) /\
  image_ok tot pts strs (name ++ 0 :: r) /\
  length (image tot pts strs (name ++ 0 :: r)) = length (image tot pts (strs ++ name ++ [0]) r).
Proof.
  intros Hi Hp Hs Hn. pose proof (lens_pos _ _ _ _ Hi) as Hl. unfold st_len in Hl. rewrite !length_app in Hl. cbn [length] in Hl. split.
  - unfold fdt_del_last_string_. erewrite rbind by (apply rd_eq, sbi_strlen_spec; [split; [done|by exists []]|lia]). rewrite s32_small by lia.
    erewrite rbind by (by apply rd_eq, image_strsize). rewrite !image_raw, raw_set_strsize. do 2 f_equal. unfold raw.
    rewrite !length_app. cbn [length]. rewrite <- !app_assoc. f_equal. f_equal. repeat (f_equal; try lia).
  - apply image_edit with (1 := Hi); try done; [|lia|rewrite !length_app; simpl; lia].
    apply Forall_app. split; [by apply name_ok_fits|]. constructor; [unfold fits; lia|apply Hi].
Qed.

Lemma add_property_image tot l1 l2 strs rest name val vl nodeoffset : starts val vl -> image_ok tot (l1 ++ l2) strs rest ->
  let m := image tot (l1 ++ l2) strs rest in
  fdt_check_node_offset_ m nodeoffset = Some (Z.of_nat (toks_size (map pk l1))) ->
  name_ok name -> Z.of_nat (length name) < 2 ^ 31 - 1 -> Forall (fits 8) val -> Z.of_nat (length val) < 2 ^ 31 - 64 ->
  let strs' := add_string name strs in
  let need := 56 + Z.of_nat (length (struct_block (l1 ++ l2))) + Z.of_nat (length strs') + Z.of_nat (tok_size (TProp name val)) in
  let op := fdt_add_property_ nodeoffset (name ++ [0]) (Z.of_nat (length val)) in
  (tot < need /\ exists q r, op m = Some ((- FDT_ERR_NOSPACE, q), image tot (l1 ++ l2) strs r) /\ image_ok tot (l1 ++ l2) strs r /\
     length (image tot (l1 ++ l2) strs r) = length m) \/
  (need <= tot /\ exists prop m1 x r, op m = Some ((0, Some prop), m1) /\
     (if nz (Z.of_nat (length val)) then rw_memcpy (prop + SIZEOF_PROPERTY) vl (Z.of_nat (length val)) else mret tt) m1 =
       Some (tt, image tot (l1 ++ x :: l2) strs' r) /\
     pk x = TProp name val /\ image_ok tot (l1 ++ x :: l2) strs' r /\
     length (image tot (l1 ++ x :: l2) strs' r) = length m).
Proof.
  intros Hsv Hi m Hc Hn Hnl Hv Hlen strs' need op. pose proof (lens_pos _ _ _ _ Hi) as Hl. unfold st_len in Hl. unfold op, fdt_add_property_.
  erewrite rbind by (by apply rd_eq). rewrite (proj2 (Z.ltb_ge _ 0)) by lia. unfold need, strs', add_string. clear need strs' op.
  pose proof (find_add_string_image _ _ _ _ Hi name Hn Hnl) as Hf. destruct (find_sub (name ++ [0]) strs) as [n|] eqn:Es.
  - rewrite (rbind _ _ _ _ _ Hf). cbv iota beta. rewrite (proj2 (Z.ltb_ge _ 0)) by lia.
    erewrite rbind by (apply rd_eq; unfold fdt_offset_ptr_; by rewrite image_soff). cbv zeta.
    destruct (insert_prop_image _ _ _ _ _ name val vl (Z.of_nat n) (56 + Z.of_nat (toks_size (map pk l1)))
      (fun err => (if false then fdt_del_last_string_ (name ++ [0]) else mret tt);; mret (err, Some (56 + Z.of_nat (toks_size (map pk l1))))) Hsv Hi)
      as [[Hgt E]|(Hle & m1 & x & r & E)]; [|done|done|done| |].
    + split; [lia|]. split; [done|]. rewrite Nat2Z.id. by apply find_sub_some.
    + left. split; [done|]. eexists _, rest. rewrite E. done.
    + right. split; [done|]. by exists (56 + Z.of_nat (toks_size (map pk l1))), m1, x, r.
  - destruct Hf as [[Hgt E]|(Hle & r1 & Hfr & Hrl & E)]; rewrite (rbind _ _ _ _ _ E); cbv iota beta.
    { left. split; [rewrite !length_app; simpl length; lia|]. by exists None, rest. }
    rewrite (proj2 (Z.ltb_ge _ 0)) by lia.
    pose proof (img_toks _ _ _ _ Hi) as Ht. pose proof (img_strs _ _ _ _ Hi) as Hs.
    destruct (image_edit _ _ _ _ (l1 ++ l2) (strs ++ name ++ [0]) r1 Hi) as [Hi' Hlen']; [| |done| | |].
    { eapply Forall_impl; [exact Ht|]. intros. by apply ptok_ok_grow. }
    { rewrite !Forall_app. split; [done|]. split; [by apply name_ok_fits|]. constructor; [unfold fits; lia|constructor]. }
    { rewrite !length_app. simpl length. lia. }
    { rewrite !length_app. simpl length. lia. }
    erewrite rbind by (apply rd_eq; unfold fdt_offset_ptr_; by rewrite image_soff). cbv zeta.
    destruct (insert_prop_image _ _ _ _ _ name val vl (Z.of_nat (length strs)) (56 + Z.of_nat (toks_size (map pk l1)))
      (fun err => (if true then fdt_del_last_string_ (name ++ [0]) else mret tt);; mret (err, Some (56 + Z.of_nat (toks_size (map pk l1))))) Hsv Hi')
      as [[Hgt E']|(Hle' & m1 & x & r & E' & E1 & Ex & Hi1 & Hl1)]; [|done|done|done| |].
    + split; [lia|]. split; [done|]. rewrite Nat2Z.id, drop_app_length. exists []. by rewrite app_nil_r.
    + left. split; [done|]. destruct (del_last_string_image _ _ _ _ _ Hi' Ht Hs Hn) as (E2 & Hi2 & Hl2).
      eexists _, (name ++ 0 :: r1). rewrite E', (rbind _ _ _ _ _ E2). split; [done|]. split; [done|]. by rewrite Hl2.
    + right. split; [done|]. exists (56 + Z.of_nat (toks_size (map pk l1))), m1, x, r. rewrite Hl1, Hlen'. done.
Qed.

(** * Setting a property *)

Fixpoint replace_prop (name val : list Z) (props : list (list Z * list Z)) : option (list (list Z * list Z)) :=
  match props with
  | [] => None
  | p :: props => if bool_decide (p.1 = name) then Some ((name, val) :: props) else cons p <$> replace_prop name val props
  end.

(** The first property of that name gets the value; a new one comes first. *)
Definition set_prop (name val : list Z) (s : src) : src :=
  let '(Src n props kids) := s in Src n (default ((name, val) :: props) (replace_prop name val props)) kids.
Definition has_prop (name : list Z) (s : src) : bool :=
  let '(Src _ props _) := s in existsb (fun p => bool_decide (p.1 = name)) props.
(** A new property may need a new name. *)
Definition prop_strs (name : list Z) (t : src) (strs : list Z) : list Z := if has_prop name t then strs else add_string name strs.

Lemma props_cases name (props : list (list Z * list Z)) :
  (exists a v b, props = a ++ (name, v) :: b /\ Forall (fun p => p.1 <> name) a) \/ Forall (fun p => p.1 <> name) props.
Proof.
  induction props as [|[k v] props IH]; [by right|]. destruct (decide (k = name)) as [->|Hk].
  - left. by exists [], v, props.
  - destruct IH as [(a & v' & b & -> & Ha)|Ha]; [left|right; by constructor]. exists ((k, v) :: a), v', b. split; [done|]. by constructor.
Qed.

Lemma replace_prop_found name val a v b : Forall (fun p => p.1 <> name) a ->
  replace_prop name val (a ++ (name, v) :: b) = Some (a ++ (name, val) :: b).
Proof.
  induction 1 as [|p a Hp _ IH]; cbn [app replace_prop fst].
  - by rewrite bool_decide_eq_true_2.
  - rewrite bool_decide_eq_false_2 by done. by rewrite IH.
Qed.

Lemma replace_prop_none name val props : Forall (fun p => p.1 <> name) props -> replace_prop name val props = None.
Proof. induction 1 as [|p a Hp _ IH]; [done|]. cbn [replace_prop]. rewrite bool_decide_eq_false_2 by done. by rewrite IH. Qed.

Lemma has_prop_found name n a v b kids : has_prop name (Src n (a ++ (name, v) :: b) kids) = true.
Proof. cbn [has_prop]. rewrite existsb_app. cbn [existsb fst]. by rewrite bool_decide_eq_true_2, orb_true_l, orb_true_r. Qed.

Lemma has_prop_none name n props kids : Forall (fun p => p.1 <> name) props -> has_prop name (Src n props kids) = false.
Proof. cbn [has_prop]. induction 1 as [|p a Hp _ IH]; [done|]. cbn [existsb]. by rewrite bool_decide_eq_false_2. Qed.

Lemma find_prop_found name a v b : Forall (fun p => p.1 <> name) a -> forall o,
  find_prop name (place_list place_prop prop_size o (a ++ (name, v) :: b)) =
  Some (mkProp (o + Z.of_nat (list_sum (map prop_size a))) name v).
Proof.
  unfold find_prop. induction 1 as [|p a Hp _ IH]; intros o; cbn [app place_list List.find place_prop p_name fst].
  - rewrite bool_decide_eq_true_2 by done. cbn. by rewrite Z.add_0_r.
  - rewrite bool_decide_eq_false_2 by done. rewrite IH. do 2 f_equal. cbn [map].
    change (list_sum (prop_size p :: ?l)) with (prop_size p + list_sum l)%nat. lia.
Qed.

Lemma find_prop_none name props : Forall (fun p => p.1 <> name) props -> forall o, find_prop name (place_list place_prop prop_size o props) = None.
Proof.
  unfold find_prop. induction 1 as [|p a Hp _ IH]; intros o; [done|]. cbn [place_list List.find place_prop p_name].
  rewrite bool_decide_eq_false_2 by done. apply IH.
Qed.

Lemma fdt_get_property_node fdt root (Hh : holds fdt root) t name : node_of root t -> name_ok name -> Z.of_nat (length name) < 2 ^ 31 ->
  fdt_get_property fdt (d_off t) (name ++ [0]) =
  Some (match find_prop name (d_props t) with
        | Some p => (Some (soff fdt + p_off p), Z.of_nat (length (p_val p)))
        | None => (None, - FDT_ERR_NOTFOUND)
        end).
Proof.
  intros Ht Hn Hl. unfold fdt_get_property, fdt_get_property_namelen. rewrite (sbi_strlen_spec name); [|split; [done|by exists []]|lia].
  cbn [mbind option_bind]. rewrite s32_small by lia. destruct (holds_node _ _ Hh t Ht) as (ts & _ & _ & _ & D & _).
  destruct (header_vers fdt (doc_valid _ _ D)) as [-> _]. pose proof (doc_version _ _ D). cbn [mbind option_bind].
  rewrite (proj2 (Z.ltb_ge (vers fdt) 16)) by lia. rewrite (fdt_get_property_eq _ _ Hh) by (done || by eexists). cbn [mbind option_bind].
  by destruct (find_prop name (d_props t)).
Qed.

Section SetProp.
Context (tot : Z) (pts : list ptok) (strs rest : list Z) (Hi : image_ok tot pts strs rest).
Context (s : src) (Hs : map pk pts = sflat s) (p : list nat) (n : list Z) (props : list (list Z * list Z)) (kids : list src).
Context (Hp : at_path s p = Some (Src n props kids)).
Notation m := (image tot pts strs rest).
Notation off := (Z.of_nat (off_path s p)).

Lemma get_property_at name : name_ok name -> Z.of_nat (length name) < 2 ^ 31 -> fdt_get_property m off (name ++ [0]) =
  Some (match find_prop name (place_list place_prop prop_size (off + Z.of_nat (tok_size (TBegin n))) props) with
        | Some q => (Some (56 + p_off q), Z.of_nat (length (p_val q)))
        | None => (None, - FDT_ERR_NOTFOUND)
        end).
Proof.
  intros Hn Hl. pose proof (path_node p s _ 0 Hp) as Hnode. rewrite Z.add_0_l, place_eq in Hnode. cbv zeta in Hnode.
  pose proof (fdt_get_property_node _ _ (image_holds _ _ _ _ Hi s Hs) _ name Hnode Hn Hl) as E. cbn [d_off d_props] in E.
  unfold soff in E. rewrite image_soff in E by done. exact E.
Qed.

(** Where the value of the first property of a name is. *)
Lemma getprop_at a name v b : props = a ++ (name, v) :: b -> Forall (fun p => p.1 <> name) a -> name_ok name -> Z.of_nat (length name) < 2 ^ 31 ->
  fdt_getprop m off (name ++ [0]) =
  Some (Some (56 + (off + Z.of_nat (tok_size (TBegin n)) + Z.of_nat (list_sum (map prop_size a))) + 12), Z.of_nat (length v)).
Proof.
  intros Ep Ha Hn Hl. pose proof (path_node p s _ 0 Hp) as Hnode. rewrite Z.add_0_l, place_eq in Hnode. cbv zeta in Hnode.
  pose proof (fdt_getprop_eq _ _ (image_holds _ _ _ _ Hi s Hs) _ name (name ++ [0]) Hnode ltac:(split; [done|by exists []]) Hl) as E. cbn [d_off d_props] in E.
  rewrite Ep, find_prop_found in E by done. unfold val_pos, soff in E. rewrite image_soff in E by done. exact E.
Qed.

(** The tokens around a property, and after the name of the node. *)
Lemma split_prop a name v b : props = a ++ (name, v) :: b -> exists l1 x l2, pts = l1 ++ x :: l2 /\ pk x = TProp name v /\
  Z.of_nat (toks_size (map pk l1)) = off + Z.of_nat (tok_size (TBegin n)) + Z.of_nat (list_sum (map prop_size a)) /\
  forall x' val, pk x' = TProp name val -> map pk (l1 ++ x' :: l2) = sflat (upd_path s p (fun _ => Src n (a ++ (name, val) :: b) kids)).
Proof.
  intros Ep. destruct (stores_split pts s p _ Hs Hp) as (p1 & pm & p2 & -> & Eo & Em & Eu). cbn [sflat] in Em. rewrite Ep, map_app in Em. cbn [map] in Em.
  rewrite <- app_assoc in Em. cbn [app] in Em. rewrite app_comm_cons in Em. apply map_eq_app in Em as (q1 & q & -> & E1 & Eq).
  apply map_eq_cons in Eq as (x & q2 & -> & Ex & E2). exists (p1 ++ q1), x, (q2 ++ p2). split; [by rewrite <- !app_assoc|]. split; [done|]. split.
  - rewrite map_app, toks_size_app, Eo, E1. change (toks_size (TBegin n :: ?l)) with (tok_size (TBegin n) + toks_size l)%nat. rewrite props_size_eq. lia.
  - intros x' val Ex'. specialize (Eu (fun _ => Src n (a ++ (name, val) :: b) kids) (q1 ++ x' :: q2)). rewrite <- app_assoc, app_comm_cons.
    rewrite (app_assoc q1). apply Eu. rewrite map_app. cbn [map]. rewrite E1, Ex', E2. cbn [sflat]. rewrite map_app. cbn [map].
    by rewrite <- !app_assoc.
Qed.

Lemma split_begin : exists l1 x l2, pts = l1 ++ x :: l2 /\ pk x = TBegin n /\ toks_size (map pk l1) = off_path s p /\
  forall q name val, pk q = TProp name val -> map pk ((l1 ++ [x]) ++ q :: l2) = sflat (upd_path s p (fun _ => Src n ((name, val) :: props) kids)).
Proof.
  destruct (stores_split pts s p _ Hs Hp) as (p1 & pm & p2 & -> & Eo & Em & Eu). cbn [sflat] in Em. apply map_eq_cons in Em as (x & q2 & -> & Ex & E2).
  exists p1, x, (q2 ++ p2). split; [done|]. split; [done|]. split; [done|]. intros q name val Eq.
  specialize (Eu (fun _ => Src n ((name, val) :: props) kids) (x :: q :: q2)). rewrite <- app_assoc. apply Eu. cbn [map]. by rewrite Ex, Eq, E2.
Qed.
End SetProp.

(** The space that is in use after an edit of a node. *)
Lemma used_upd fdt tot strs s p t f strs' : stores fdt tot strs s -> at_path s p = Some t ->
  used (upd_path s p f) strs' = used s strs - Z.of_nat (src_size t) + Z.of_nat (src_size (f t)) - Z.of_nat (length strs) + Z.of_nat (length strs').
Proof.
  intros _ Hp. destruct (path_split p s t Hp) as (l1 & l2 & E & _ & Eu). unfold used, src_size. rewrite Eu, E, !toks_size_app. lia.
Qed.

Lemma src_size_eq n props kids :
  src_size (Src n props kids) = (tok_size (TBegin n) + list_sum (map prop_size props) + list_sum (map src_size kids) + 4)%nat.
Proof.
  unfold src_size at 1. cbn [sflat]. change (toks_size (TBegin n :: ?l)) with (tok_size (TBegin n) + toks_size l)%nat.
  rewrite !toks_size_app, props_size_eq, flat_map_size. change (toks_size [TEnd]) with 4%nat. lia.
Qed.

Lemma list_sum_insert (a b : list (list Z * list Z)) x :
  list_sum (map prop_size (a ++ x :: b)) = (list_sum (map prop_size a) + tok_size (prop_stok x) + list_sum (map prop_size b))%nat.
Proof. rewrite map_app, list_sum_app. cbn [map]. change (list_sum (prop_size x :: ?l)) with (tok_size (prop_stok x) + list_sum l)%nat. lia. Qed.

(** What an edit does: with enough space it succeeds with result [r] and the
    blob stores the edited tree, otherwise it reports so and the blob stores
    the same tree as before. *)
Definition edits (op : RW Z) (r : Z) (fdt : list Z) (tot : Z) (strs : list Z) (s : src) (strs' : list Z) (s' : src) : Prop :=
  exists fdt', length fdt' = length fdt /\
    if used s' strs' <=? tot then op fdt = Some (r, fdt') /\ stores fdt' tot strs' s'
    else op fdt = Some (- FDT_ERR_NOSPACE, fdt') /\ stores fdt' tot strs s.

Section SetPropAt.
Context (tot : Z) (pts : list ptok) (strs rest : list Z) (Hi : image_ok tot pts strs rest).
Context (s : src) (Hs : map pk pts = sflat s) (p : list nat) (n : list Z) (props : list (list Z * list Z)) (kids : list src).
Context (Hp : at_path s p = Some (Src n props kids)).
Context (name val vl : list Z) (Hsv : starts val vl) (Hn : name_ok name) (Hnl : Z.of_nat (length name) < 2 ^ 31 - 1).
Context (Hv : Forall (fits 8) val) (Hvl : Z.of_nat (length val) < 2 ^ 31 - 64).
Notation m := (image tot pts strs rest).
Notation off := (Z.of_nat (off_path s p)).
Notation setprop := (fdt_setprop off (name ++ [0]) vl (Z.of_nat (length val))).

Lemma image_stores : stores m tot strs s.
Proof. by exists pts, rest. Qed.

(** A property that is there. *)
Lemma setprop_found a v b : props = a ++ (name, v) :: b -> Forall (fun p => p.1 <> name) a ->
  edits setprop 0 m tot strs s strs (upd_path s p (fun _ => Src n (a ++ (name, val) :: b) kids)).
Proof.
  intros Ep Ha. pose proof (used_upd _ _ _ _ _ _ (fun _ => Src n (a ++ (name, val) :: b) kids) strs image_stores Hp) as Hu.
  rewrite !src_size_eq, Ep, !list_sum_insert in Hu. unfold prop_stok in Hu. cbn [fst snd] in Hu.
  pose proof (get_property_at _ _ _ _ Hi s Hs p n props kids Hp name Hn ltac:(lia)) as Eg. rewrite Ep, find_prop_found in Eg by done. cbn [p_off p_val] in Eg.
  pose proof (used_eq _ _ _ (img_toks _ _ _ _ Hi) Hs) as Hus.
  destruct (split_prop _ _ _ _ Hi s Hs _ _ _ _ Hp a name v b Ep) as (l1 & x & l2 & El & Ex & Eo & Eu).
  unfold edits, fdt_setprop, fdt_setprop_placeholder. clear Ep. subst pts.
  set (prop := 56 + (off + Z.of_nat (tok_size (TBegin n)) + Z.of_nat (list_sum (map prop_size a)))) in *.
  destruct (set_value_image _ _ _ _ _ _ name v val vl prop Hsv Hi Ex Hv Hvl ltac:(unfold prop; lia)) as [[Hgt E]|(Hle & m1 & x' & r & E & Em & Ex' & Hi' & Hl')].
  - exists (image tot (l1 ++ x :: l2) strs rest). split; [done|]. rewrite (proj2 (Z.leb_gt _ _)) by lia. split; [|by exists (l1 ++ x :: l2), rest].
    erewrite rbind; [|erewrite rbind by (by apply rw_probe_image); change (nz 0) with false; cbv iota;
      erewrite rbind by (unfold fdt_resize_property_; erewrite rbind by (by apply rd_eq); exact E); reflexivity]. done.
  - exists (image tot (l1 ++ x' :: l2) strs r). split; [done|]. rewrite (proj2 (Z.leb_le _ _)) by lia. split; [|exists (l1 ++ x' :: l2), r; auto].
    erewrite rbind; [|erewrite rbind by (by apply rw_probe_image); change (nz 0) with false; cbv iota;
      erewrite rbind by (unfold fdt_resize_property_; erewrite rbind by (by apply rd_eq); exact E); reflexivity].
    cbv iota beta. change (nz 0) with false. cbv iota. cbn [deref]. by rewrite (rbind _ _ _ _ _ Em).
Qed.

(** A new property. *)
Lemma setprop_new : Forall (fun p => p.1 <> name) props ->
  edits setprop 0 m tot strs s (add_string name strs) (upd_path s p (fun _ => Src n ((name, val) :: props) kids)).
Proof.
  intros Ha. pose proof (used_upd _ _ _ _ _ _ (fun _ => Src n ((name, val) :: props) kids) (add_string name strs) image_stores Hp) as Hu.
  rewrite !src_size_eq in Hu. pose proof (list_sum_insert [] props (name, val)) as Hli. cbn [app] in Hli. rewrite Hli in Hu. unfold prop_stok in Hu. cbn [fst snd] in Hu.
  change (list_sum (map prop_size [])) with 0%nat in Hu.
  pose proof (get_property_at _ _ _ _ Hi s Hs p n props kids Hp name Hn ltac:(lia)) as Eg. rewrite find_prop_none in Eg by done.
  pose proof (used_eq _ _ _ (img_toks _ _ _ _ Hi) Hs) as Hus.
  destruct (split_begin _ _ _ _ Hi s Hs _ _ _ _ Hp) as (l1 & x & l2 & El & Ex & Eo & Eu).
  unfold edits, fdt_setprop, fdt_setprop_placeholder. subst pts. destruct (image_tag _ _ _ _ _ _ Hi off ltac:(by rewrite Eo)) as [Et Hm].
  assert (Hc : fdt_check_node_offset_ (image tot (l1 ++ x :: l2) strs rest) off = Some (Z.of_nat (toks_size (map pk (l1 ++ [x]))))).
  { unfold fdt_check_node_offset_, check_tag_offset. rewrite (proj2 (Z.ltb_ge _ 0)) by lia. unfold FDT_TAGSIZE. rewrite Hm. cbn [orb nz].
    rewrite Et, Ex. cbn. f_equal. rewrite map_app, toks_size_app, Eo. cbn. rewrite Ex. unfold toks_size. cbn. lia. }
  assert (El : l1 ++ x :: l2 = (l1 ++ [x]) ++ l2) by (by rewrite <- app_assoc). rewrite El in *.
  assert (Er : fdt_resize_property_ off (name ++ [0]) (Z.of_nat (length val)) (image tot ((l1 ++ [x]) ++ l2) strs rest) =
    Some ((- FDT_ERR_NOTFOUND, None), image tot ((l1 ++ [x]) ++ l2) strs rest)) by (unfold fdt_resize_property_; by erewrite rbind by (by apply rd_eq)).
  destruct (add_property_image _ _ _ _ _ name val vl off Hsv Hi Hc Hn Hnl Hv Hvl) as [(Hgt & q & r & E & Hi' & Hl')|(Hle & prop & m1 & x' & r & E & Em & Ex' & Hi' & Hl')].
  - exists (image tot ((l1 ++ [x]) ++ l2) strs r). split; [done|]. rewrite (proj2 (Z.leb_gt _ _)) by lia. split; [|by exists ((l1 ++ [x]) ++ l2), r].
    erewrite rbind; [|erewrite rbind by (by apply rw_probe_image); change (nz 0) with false; cbv iota;
      erewrite rbind by exact Er; cbv iota beta; rewrite Z.eqb_refl; erewrite rbind by exact E; reflexivity]. done.
  - exists (image tot ((l1 ++ [x]) ++ x' :: l2) (add_string name strs) r). split; [done|]. rewrite (proj2 (Z.leb_le _ _)) by lia.
    split; [|exists ((l1 ++ [x]) ++ x' :: l2), r; auto].
    erewrite rbind; [|erewrite rbind by (by apply rw_probe_image); change (nz 0) with false; cbv iota;
      erewrite rbind by exact Er; cbv iota beta; rewrite Z.eqb_refl; erewrite rbind by exact E; reflexivity].
    cbv iota beta. change (nz 0) with false. cbv iota. cbn [deref]. by rewrite (rbind _ _ _ _ _ Em).
Qed.
End SetPropAt.

Lemma setprop_stored fdt tot strs s p t name val vl : stores fdt tot strs s -> at_path s p = Some t ->
  name_ok name -> Z.of_nat (length name) < 2 ^ 31 - 1 -> Forall (fits 8) val -> Z.of_nat (length val) < 2 ^ 31 - 64 ->
  starts val vl ->
  edits (fdt_setprop (Z.of_nat (off_path s p)) (name ++ [0]) vl (Z.of_nat (length val))) 0
    fdt tot strs s (prop_strs name t strs) (upd_path s p (set_prop name val)).
Proof.
  intros (pts & rest & -> & Hi & Hs) Hp Hn Hnl Hv Hvl Hsv. destruct t as [n props kids]. unfold prop_strs.
  destruct (props_cases name props) as [(a & v & b & Ep & Ha)|Ha].
  - rewrite (upd_path_ext p s _ _ (fun _ => Src n (a ++ (name, val) :: b) kids) Hp) by (cbn [set_prop]; by rewrite Ep, replace_prop_found).
    rewrite Ep, has_prop_found. rewrite Ep in Hp. eapply setprop_found; eauto.
  - rewrite (upd_path_ext p s _ _ (fun _ => Src n ((name, val) :: props) kids) Hp) by (cbn [set_prop]; by rewrite replace_prop_none).
    rewrite has_prop_none by done. by eapply setprop_new.
Qed.

(** * Paths and edits *)

Lemma at_path_app p : forall s t q, at_path s p = Some t -> at_path s (p ++ q) = at_path t q.
Proof.
  induction p as [|i p IH]; intros s t q Ht; cbn [at_path app] in *; [by injection Ht as ->|].
  destruct (s_kids s !! i) as [k|]; [|done]. cbn [mbind option_bind] in *. by apply IH.
Qed.

Lemma off_path_app p : forall s t q, at_path s p = Some t -> off_path s (p ++ q) = (off_path s p + off_path t q)%nat.
Proof.
  induction p as [|i p IH]; intros s t q Ht; cbn [at_path app off_path] in *; [by injection Ht as ->|]. destruct s as [name props kids].
  cbn [s_kids] in Ht. destruct (kids !! i) as [k|]; [|done]. cbn [mbind option_bind] in *. rewrite (IH k t q Ht). lia.
Qed.

Lemma at_path_upd p : forall s t f, at_path s p = Some t -> at_path (upd_path s p f) p = Some (f t).
Proof.
  induction p as [|i p IH]; intros s t f Ht; cbn [at_path upd_path] in *; [by injection Ht as ->|]. destruct s as [name props kids]. cbn [s_kids] in *.
  rewrite list_lookup_alter_eq. destruct (kids !! i) as [k|]; [|done]. cbn in *. by apply IH.
Qed.

Lemma off_path_upd p : forall s t f, at_path s p = Some t -> off_path (upd_path s p f) p = off_path s p.
Proof.
  induction p as [|i p IH]; intros s t f Ht; cbn [at_path upd_path off_path] in *; [done|]. destruct s as [name props kids]. cbn [s_kids] in Ht.
  rewrite list_lookup_alter_eq, take_alter_ge by lia. destruct (kids !! i) as [k|]; [|done]. cbn in *. by rewrite (IH k t).
Qed.

(** * Adding a node *)

(** The new node comes before the other children. *)
Definition add_kid (k s : src) : src := let '(Src n props kids) := s in Src n props (k :: kids).

Lemma after_props_image tot strs rest (q : list ptok) : forall pts l1 y l2 n, image_ok tot pts strs rest -> pts = l1 ++ q ++ y :: l2 ->
  Forall (fun x => tag_of (pk x) = FDT_PROP) q -> tag_of (pk y) <> FDT_PROP -> (length q < n)%nat ->
  after_props n (image tot pts strs rest) (Z.of_nat (toks_size (map pk l1))) = Some (Z.of_nat (toks_size (map pk (l1 ++ q)))).
Proof.
  induction q as [|x q IH]; intros pts l1 y l2 n Hi -> Hq Hy Hn; (destruct n as [|n]; [simpl in Hn; lia|]); cbn [after_props].
  - cbn [app] in *. destruct (image_tag _ _ _ _ _ _ Hi _ eq_refl) as [-> _]. cbn [mbind option_bind].
    rewrite (proj2 (Z.eqb_neq _ FDT_PROP) Hy). rewrite (proj2 (Z.eqb_neq _ FDT_NOP)); [|by destruct (pk y)]. cbn [orb]. by rewrite app_nil_r.
  - apply Forall_cons in Hq as [Hx Hq]. change (l1 ++ (x :: q) ++ y :: l2) with (l1 ++ x :: (q ++ y :: l2)) in *.
    destruct (image_tag _ _ _ _ _ _ Hi _ eq_refl) as [-> _]. cbn [mbind option_bind]. rewrite Hx. cbn [Z.eqb FDT_PROP Pos.eqb orb].
    assert (E : l1 ++ x :: q ++ y :: l2 = (l1 ++ [x]) ++ q ++ y :: l2) by (by rewrite <- app_assoc). rewrite E in *.
    replace (Z.of_nat (toks_size (map pk l1)) + Z.of_nat (tok_size (pk x))) with (Z.of_nat (toks_size (map pk (l1 ++ [x])))).
    + rewrite (IH _ (l1 ++ [x]) y l2 n Hi eq_refl) by (done || simpl in Hn; lia). by rewrite <- app_assoc.
    + rewrite map_app, toks_size_app. unfold toks_size. cbn. lia.
Qed.

Lemma tagalign_name name : Z.of_nat (length name) < 2 ^ 31 - 16 ->
  FDT_TAGALIGN (Z.of_nat (length name) + 1) = Z.of_nat (length name + (1 + length (pad (body_size (TBegin name))))) /\
  tok_size (TBegin name) = (4 + (length name + (1 + length (pad (body_size (TBegin name))))))%nat.
Proof.
  intros Hl. rewrite tagalign_eq by lia. pose proof (tok_size_align 0 (TBegin name) eq_refl) as Ha. unfold tok_size in *. cbn [body_size] in *.
  split; [|lia]. Z.to_euclidean_division_equations. lia.
Qed.

(** Room for a node without properties and children. *)
Lemma insert_node_image tot l1 l2 strs rest name l nh offset : image_ok tot (l1 ++ l2) strs rest -> name_ok name -> starts name l ->
  Z.of_nat (length name) < 2 ^ 31 - 64 -> nh = 56 + Z.of_nat (toks_size (map pk l1)) ->
  let m := image tot (l1 ++ l2) strs rest in
  let need := 56 + Z.of_nat (length (struct_block (l1 ++ l2))) + Z.of_nat (length strs) + Z.of_nat (tok_size (TBegin name)) + 4 in
  let namelen := Z.of_nat (length name) in
  let nodelen := s32 (4 + FDT_TAGALIGN (namelen + 1) + FDT_TAGSIZE) in
  let op := err ← fdt_splice_struct_ nh 0 nodelen;
            if nz err then mret err
            else st32 nh FDT_BEGIN_NODE;; rw_memset (nh + 4) 0 (FDT_TAGALIGN (namelen + 1));; rw_memcpy (nh + 4) l namelen;;
                 st32 (nh + nodelen - FDT_TAGSIZE) FDT_END_NODE;; mret offset in
  (tot < need /\ op m = Some (- FDT_ERR_NOSPACE, m)) \/
  (need <= tot /\ exists x y r, op m = Some (offset, image tot (l1 ++ x :: y :: l2) strs r) /\ pk x = TBegin name /\ pk y = TEnd /\
     image_ok tot (l1 ++ x :: y :: l2) strs r /\ length (image tot (l1 ++ x :: y :: l2) strs r) = length m).
Proof.
  intros Hi Hn Hsl Hlen Hp m need namelen nodelen op. pose proof (img_toks _ _ _ _ Hi) as Ht. apply Forall_app in Ht as [Ht1 Ht2].
  destruct (tagalign_name name) as [Ea Et]; [lia|]. destruct (length_pad (body_size (TBegin name))) as (nn & Hpad & _).
  assert (Es : struct_block (l1 ++ l2) = ptoks_bytes l1 ++ [] ++ struct_block l2) by (unfold struct_block; by rewrite ptoks_bytes_app, <- app_assoc).
  assert (En : nodelen = Z.of_nat (tok_size (TBegin name) + 4)) by (unfold nodelen, namelen, FDT_TAGSIZE; rewrite Ea, Et, s32_small by lia; lia).
  unfold op. rewrite En. assert (HA : Z.of_nat (length (ptoks_bytes l1)) = Z.of_nat (toks_size (map pk l1))) by (by rewrite (ptoks_bytes_length strs)).
  destruct (splice_struct_image _ _ _ _ Hi (ptoks_bytes l1) [] (struct_block l2) (tok_size (TBegin name) + 4) nh
    0 (Z.of_nat (tok_size (TBegin name) + 4)) Es) as [[Hgt E]|(Hle & g & r & Hg & Hr & Hfg & Hfr & E)]; [lia|done|done|lia| |].
  { left. unfold need. split; [lia|]. by rewrite (rbind _ _ _ _ _ E). }
  right. unfold need. split; [lia|]. rewrite Et, <- Nat.add_assoc in Hg. apply (split_at g 4) in Hg as (g1 & gr & -> & Hg1 & Hg).
  apply split_at in Hg as (g2 & g3 & -> & Hg2 & Hg3). set (st' := _ - _ + _) in E.
  set (x := mkPtok (TBegin name) 0 (pad (body_size (TBegin name)))). set (y := mkPtok TEnd 0 []). exists x, y, r.
  assert (Hx : ptok_ok strs x) by (split; [done|]; split; [apply pad_fits|done]). assert (Hy : ptok_ok strs y) by done.
  assert (Eb : struct_block (l1 ++ x :: y :: l2) =
    ptoks_bytes l1 ++ be32 FDT_BEGIN_NODE ++ (name ++ replicate (1 + length (pad (body_size (TBegin name)))) 0) ++ be32 FDT_END_NODE ++ struct_block l2).
  { rewrite struct_block_split. change (y :: l2) with ([] ++ y :: l2). rewrite struct_block_split. unfold ptok_bytes. cbn [pk p_noff p_pad x y]. rewrite <- !app_assoc. cbn [app ptoks_bytes map concat].
    do 3 f_equal. unfold pad. rewrite length_replicate. by rewrite replicate_add, <- !app_assoc. }
  assert (Hst : st' = Z.of_nat (length (struct_block (l1 ++ x :: y :: l2)))).
  { unfold st'. rewrite Eb, Es, Et. rewrite !length_app, length_replicate. simpl length. lia. }
  split; [|split; [done|split; [done|]]].
  - rewrite (rbind _ _ _ _ _ E). change (nz 0) with false. cbv iota. rewrite <- !app_assoc. erewrite rbind by (apply raw_st32; [lia|done]).
    rewrite (app_assoc (ptoks_bytes l1)). erewrite rbind by (apply raw_memset; [rewrite length_app; simpl length; lia|unfold namelen; by rewrite Ea, Hg2]).
    rewrite Hg2, replicate_add, <- !app_assoc, (app_assoc (ptoks_bytes l1)).
    destruct Hsl as [lr ->]. erewrite rbind by (apply raw_memcpy; [rewrite length_app; simpl length; lia|by rewrite length_replicate|rewrite length_replicate, length_app; lia]).
    rewrite length_replicate, take_app_length. rewrite (app_assoc name), (app_assoc (ptoks_bytes l1 ++ _)).
    erewrite rbind by (apply raw_st32; [unfold FDT_TAGSIZE; rewrite !length_app, length_replicate; change (length (be32 FDT_BEGIN_NODE)) with 4%nat; lia|done]).
    unfold mret, RW_ret. rewrite image_raw, Hst, Eb. by rewrite <- !app_assoc.
  - apply image_edit; try done; [apply Forall_app; split; [done|]; rewrite !Forall_cons; done|apply Hi|lia|].
    rewrite Eb, Es. rewrite !length_app, length_replicate in *. change (length (be32 _)) with 4%nat. cbn [length] in *. lia.
Qed.

Lemma kids_tokens kids : exists k l, flat_map sflat kids ++ [TEnd] = k :: l /\ tag_of k <> FDT_PROP.
Proof. destruct kids as [|[n props ks] kids]; [by exists TEnd, []|]. cbn [flat_map sflat app]. eexists _, _. split; [reflexivity|done]. Qed.

(** The tokens up to the first child. *)
Lemma split_head tot pts strs rest (Hi : image_ok tot pts strs rest) s p n props kids : map pk pts = sflat s -> at_path s p = Some (Src n props kids) ->
  exists p1 x q y l2, pts = p1 ++ x :: q ++ y :: l2 /\ toks_size (map pk p1) = off_path s p /\ pk x = TBegin n /\ map pk q = map prop_stok props /\
    tag_of (pk y) <> FDT_PROP /\
    forall xs k, map pk xs = sflat k -> map pk (p1 ++ x :: q ++ xs ++ y :: l2) = sflat (upd_path s p (add_kid k)).
Proof.
  intros Hs Hp. destruct (stores_split pts s p _ Hs Hp) as (p1 & pm & p2 & -> & Eo & Em & Eu). cbn [sflat] in Em.
  apply map_eq_cons in Em as (x & pr & -> & Ex & Er). apply map_eq_app in Er as (q & pr' & -> & Eq & Er).
  destruct (kids_tokens kids) as (ky & ls & Ek & Hy). rewrite Ek in Er. apply map_eq_cons in Er as (y & pl & -> & Ey & El).
  exists p1, x, q, y, (pl ++ p2). split; [cbn [app]; by rewrite <- app_assoc|]. split; [done|]. split; [done|]. split; [done|]. split; [by rewrite Ey|].
  intros xs k Hxs. specialize (Eu (add_kid k) (x :: q ++ xs ++ y :: pl)). rewrite <- Eu.
  - cbn [app]. by rewrite <- !app_assoc.
  - cbn [map add_kid sflat flat_map]. rewrite !map_app. cbn [map]. rewrite Ex, Eq, Hxs, Ey, El, <- Ek. by rewrite <- !app_assoc.
Qed.

Definition kid_of (name : list Z) (t : src) : option src := List.find (fun k => name_match name (s_name k)) (s_kids t).

Lemma kid_named_place name o t : erase <$> kid_named name (place o t) = kid_of name t.
Proof.
  unfold kid_of. rewrite <- (erase_place t o) at 2. rewrite s_kids_erase, find_map. unfold kid_named.
  by rewrite (find_ext (fun k => name_match name (s_name (erase k))) (fun k => name_match name (d_name k))) by (intros k; by rewrite s_name_erase).
Qed.

(** The steps up to the splice. *)
Lemma add_subnode_enter tot p1 x q y l2 strs rest name l parent n R : let m := image tot (p1 ++ x :: q ++ y :: l2) strs rest in
  image_ok tot (p1 ++ x :: q ++ y :: l2) strs rest -> parent = Z.of_nat (toks_size (map pk p1)) ->
  pk x = TBegin n -> Forall (fun x => tag_of (pk x) = FDT_PROP) q -> tag_of (pk y) <> FDT_PROP ->
  cstr name l -> Z.of_nat (length name) < 2 ^ 31 - 64 ->
  fdt_subnode_offset_namelen m parent l (Z.of_nat (length name)) = Some (- FDT_ERR_NOTFOUND) ->
  let namelen := Z.of_nat (length name) in
  let nodelen := s32 (4 + FDT_TAGALIGN (namelen + 1) + FDT_TAGSIZE) in
  let offset := Z.of_nat (toks_size (map pk (p1 ++ x :: q))) in
  let nh := 56 + offset in
  (err ← fdt_splice_struct_ nh 0 nodelen;
   if nz err then mret err
   else st32 nh FDT_BEGIN_NODE;; rw_memset (nh + 4) 0 (FDT_TAGALIGN (namelen + 1));; rw_memcpy (nh + 4) l namelen;;
        st32 (nh + nodelen - FDT_TAGSIZE) FDT_END_NODE;; mret offset) m = R ->
  fdt_add_subnode parent l m = R.
Proof.
  intros m Hi Hpar Hx Hq Hy Hc Hl Eo namelen nodelen offset nh ER. unfold fdt_add_subnode, fdt_add_subnode_namelen.
  erewrite rbind by (apply rd_eq, (sbi_strlen_spec name); [done|lia]). rewrite (s32_small (Z.of_nat (length name))) by lia.
  unfold m. rewrite rw_probe_k by done. erewrite rbind by (by apply rd_eq). change (0 <=? - FDT_ERR_NOTFOUND) with false. rewrite Z.eqb_refl. cbv iota. cbn [negb].
  destruct (image_tag _ _ _ _ _ _ Hi parent Hpar) as [Et _]. erewrite rbind by (by apply rd_eq). cbv iota beta.
  assert (Ea : after_props (S (length m)) m (parent + Z.of_nat (tok_size (pk x))) = Some offset).
  { assert (El : p1 ++ x :: q ++ y :: l2 = (p1 ++ [x]) ++ q ++ y :: l2) by (by rewrite <- app_assoc). unfold m. rewrite El in *.
    replace (parent + Z.of_nat (tok_size (pk x))) with (Z.of_nat (toks_size (map pk (p1 ++ [x])))).
    2:{ rewrite map_app, toks_size_app. unfold toks_size at 2. cbn. lia. }
    rewrite (after_props_image _ _ _ q _ (p1 ++ [x]) y l2 _ Hi eq_refl Hq Hy); [unfold offset; by rewrite <- app_assoc|].
    pose proof (image_length tot ((p1 ++ [x]) ++ q ++ y :: l2) strs rest) as Hil. rewrite (st_len_eq _ _ _ _ Hi) in Hil.
    rewrite !map_app, !toks_size_app in Hil. assert (Hql : (length q <= toks_size (map pk q))%nat); [|lia].
    clear. induction q as [|z q IH]; [simpl; lia|]. cbn [map length]. change (toks_size (?a :: ?l)) with (tok_size a + toks_size l)%nat.
    destruct (tok_size_aligned (pk z)) as (? & ? & ? & _). lia. }
  erewrite rbind by (by apply rd_eq). erewrite rbind by (apply rd_eq; unfold fdt_offset_ptr_; by rewrite image_soff). exact ER.
Qed.

Lemma add_subnode_stored fdt tot strs s p t name l : stores fdt tot strs s -> at_path s p = Some t ->
  cstr name l -> Z.of_nat (length name) < 2 ^ 31 - 64 ->
  let s' := upd_path s p (add_kid (Src name [] [])) in
  match kid_of name t with
  | Some _ => fdt_add_subnode (Z.of_nat (off_path s p)) l fdt = Some (- FDT_ERR_EXISTS, fdt)
  | None => edits (fdt_add_subnode (Z.of_nat (off_path s p)) l) (Z.of_nat (off_path s' (p ++ [0%nat]))) fdt tot strs s strs s'
  end.
Proof.
  intros Hst Hp Hc Hl s'. pose proof (used_upd _ _ _ _ _ _ (add_kid (Src name [] [])) strs Hst Hp) as Hu.
  destruct Hst as (pts & rest & -> & Hi & Hs). pose proof (used_eq _ _ _ (img_toks _ _ _ _ Hi) Hs) as Hus.
  pose proof (path_node p s t 0 Hp) as Hnode. rewrite Z.add_0_l in Hnode.
  pose proof (fdt_subnode_offset_namelen_eq _ _ (image_holds _ _ _ _ Hi s Hs) _ name l Hnode ltac:(destruct Hc as [_ [r ->]]; by eexists)) as Eo.
  rewrite place_off in Eo. pose proof (kid_named_place name (Z.of_nat (off_path s p)) t) as Ek.
  assert (Esl : sbi_strlen l = Some (Z.of_nat (length name))) by (apply sbi_strlen_spec; [done|lia]).
  destruct t as [n props kids]. destruct (kid_named name _) as [k|] eqn:Ekn; rewrite <- Ek; cbn [fmap option_fmap option_map].
  { unfold fdt_add_subnode, fdt_add_subnode_namelen. erewrite rbind by (by apply rd_eq). rewrite (s32_small (Z.of_nat (length name))) by lia.
    rewrite rw_probe_k by done. erewrite rbind by (by apply rd_eq). assert (Hk : 0 <= d_off k).
    { apply kid_named_in in Ekn. pose proof (node_of_kid _ _ _ Hnode Ekn) as Hkn. destruct (node_offset _ _ (image_holds _ _ _ _ Hi s Hs) k Hkn) as [? _]. lia. }
    by rewrite (proj2 (Z.leb_le 0 _) Hk). }
  destruct (split_head _ _ _ _ Hi s p n props kids Hs Hp) as (p1 & x & q & y & l2 & El & Eoff & Ex & Eq & Hy & Eu).
  assert (Er : off_path s' (p ++ [0%nat]) = toks_size (map pk (p1 ++ x :: q))).
  { unfold s'. rewrite (off_path_app p _ _ _ (at_path_upd p s _ _ Hp)), (off_path_upd p s _ _ Hp). rewrite map_app, toks_size_app, Eoff. cbn [map].
    change (toks_size (?a :: ?l)) with (tok_size a + toks_size l)%nat. rewrite Ex, Eq, props_size_eq. cbn. unfold head_size. lia. }
  rewrite Er. unfold edits. rewrite !src_size_eq in Hu. cbn [add_kid] in Hu. rewrite src_size_eq in Hu. cbn [map] in Hu.
  change (list_sum (src_size ?a :: ?l)) with (src_size a + list_sum l)%nat in Hu.
  rewrite src_size_eq in Hu. cbn [map list_sum fold_right] in Hu. fold s' in Hu.
  assert (Hq : Forall (fun x => tag_of (pk x) = FDT_PROP) q).
  { apply (Forall_map pk (fun k => tag_of k = FDT_PROP)). change (Forall (fun k => tag_of k = FDT_PROP) (map pk q)). rewrite Eq. apply Forall_map, Forall_true. done. }
  assert (El2 : p1 ++ x :: q ++ y :: l2 = (p1 ++ x :: q) ++ y :: l2) by (by rewrite <- app_assoc). rewrite El in *. clear El pts.
  pose proof (fun R => add_subnode_enter tot p1 x q y l2 strs rest name l (Z.of_nat (off_path s p)) n R Hi ltac:(by rewrite Eoff) Ex Hq Hy Hc Hl Eo) as Hin.
  destruct (insert_node_image tot (p1 ++ x :: q) (y :: l2) strs rest name l (56 + Z.of_nat (toks_size (map pk (p1 ++ x :: q))))
    (Z.of_nat (toks_size (map pk (p1 ++ x :: q))))) as [[Hgt E]|(Hle & x1 & x2 & r & E & Ex1 & Ex2 & Hi' & Hl')];
    [by rewrite <- El2|apply Hc|destruct Hc as [_ [rr ->]]; by eexists|lia|done| |]; rewrite <- El2 in *; apply Hin in E.
  - eexists. split; [reflexivity|]. rewrite (proj2 (Z.leb_gt _ _)) by lia. split; [exact E|]. by exists (p1 ++ x :: q ++ y :: l2), rest.
  - exists (image tot ((p1 ++ x :: q) ++ x1 :: x2 :: y :: l2) strs r). split; [done|]. rewrite (proj2 (Z.leb_le _ _)) by lia. split; [exact E|].
    eexists _, r. split; [reflexivity|]. split; [done|]. unfold s'. rewrite <- (Eu [x1; x2] (Src name [] [])); [by rewrite <- app_assoc|].
    cbn [map]. by rewrite Ex1, Ex2.
Qed.

(** * Deleting a property *)

(** The first property of that name goes. *)
Fixpoint remove_prop (name : list Z) (props : list (list Z * list Z)) : list (list Z * list Z) :=
  match props with
  | [] => []
  | p :: props => if bool_decide (p.1 = name) then props else p :: remove_prop name props
  end.
Definition del_prop (name : list Z) (s : src) : src := let '(Src n props kids) := s in Src n (remove_prop name props) kids.

Lemma remove_prop_found name a v b : Forall (fun p => p.1 <> name) a -> remove_prop name (a ++ (name, v) :: b) = a ++ b.
Proof.
  induction 1 as [|p a Hp _ IH]; cbn [app remove_prop fst]; [by rewrite bool_decide_eq_true_2|]. rewrite bool_decide_eq_false_2 by done. by rewrite IH.
Qed.

Lemma split_prop_del tot pts strs rest (Hi : image_ok tot pts strs rest) s p n a name v b kids : map pk pts = sflat s ->
  at_path s p = Some (Src n (a ++ (name, v) :: b) kids) -> exists l1 x l2, pts = l1 ++ x :: l2 /\ pk x = TProp name v /\
  Z.of_nat (toks_size (map pk l1)) = Z.of_nat (off_path s p) + Z.of_nat (tok_size (TBegin n)) + Z.of_nat (list_sum (map prop_size a)) /\
  map pk (l1 ++ l2) = sflat (upd_path s p (fun _ => Src n (a ++ b) kids)).
Proof.
  intros Hs Hp. destruct (stores_split pts s p _ Hs Hp) as (p1 & pm & p2 & -> & Eo & Em & Eu). cbn [sflat] in Em. rewrite map_app in Em. cbn [map] in Em.
  rewrite <- app_assoc in Em. cbn [app] in Em. rewrite app_comm_cons in Em. apply map_eq_app in Em as (q1 & q & -> & E1 & Eq).
  apply map_eq_cons in Eq as (x & q2 & -> & Ex & E2). exists (p1 ++ q1), x, (q2 ++ p2). split; [by rewrite <- !app_assoc|]. split; [done|]. split.
  - rewrite map_app, toks_size_app, Eo, E1. change (toks_size (TBegin n :: ?l)) with (tok_size (TBegin n) + toks_size l)%nat. rewrite props_size_eq. lia.
  - specialize (Eu (fun _ => Src n (a ++ b) kids) (q1 ++ q2)). rewrite <- app_assoc, (app_assoc q1). apply Eu. rewrite map_app, E1, E2. cbn [sflat].
    by rewrite map_app, <- !app_assoc.
Qed.

(** Deleting a property of the node at path [p] deletes it in the tree. *)
Theorem fdt_delprop_stores fdt tot strs s p t name : stores fdt tot strs s -> at_path s p = Some t ->
  name_ok name -> Z.of_nat (length name) < 2 ^ 31 - 1 ->
  if has_prop name t then
    exists fdt', fdt_delprop (Z.of_nat (off_path s p)) (name ++ [0]) fdt = Some (0, fdt') /\ length fdt' = length fdt /\
      stores fdt' tot strs (upd_path s p (del_prop name))
  else fdt_delprop (Z.of_nat (off_path s p)) (name ++ [0]) fdt = Some (- FDT_ERR_NOTFOUND, fdt).
Proof.
  intros (pts & rest & -> & Hi & Hs) Hp Hn Hnl. destruct t as [n props kids].
  pose proof (get_property_at _ _ _ _ Hi s Hs p n props kids Hp name Hn ltac:(lia)) as Eg. unfold fdt_delprop. rewrite rw_probe_k by done.
  destruct (props_cases name props) as [(a & v & b & -> & Ha)|Ha].
  2:{ rewrite has_prop_none by done. rewrite find_prop_none in Eg by done. by erewrite rbind by (by apply rd_eq). }
  rewrite has_prop_found. rewrite find_prop_found in Eg by done. cbn [p_off p_val] in Eg. erewrite rbind by (by apply rd_eq). cbv iota beta.
  destruct (split_prop_del _ _ _ _ Hi s p n a name v b kids Hs Hp) as (l1 & x & l2 & -> & Ex & Eo & Eu).
  pose proof (lens_pos _ _ _ _ Hi) as Hl. unfold st_len in Hl. pose proof (img_toks _ _ _ _ Hi) as Ht. apply Forall_app in Ht as [Ht1 Ht2]. apply Forall_cons in Ht2 as [Hx Ht2].
  pose proof (ptok_bytes_length _ _ Hx) as Hxl. rewrite Ex in Hxl. rewrite struct_block_split, !length_app, Hxl in Hl.
  destruct (tagalign_prop name v) as [Ea Et]; [unfold tok_size in Hl; cbn [body_size] in Hl; lia|].
  destruct (splice_struct_image _ _ _ _ Hi (ptoks_bytes l1) (ptok_bytes x) (struct_block l2) 0 (56 + Z.of_nat (toks_size (map pk l1)))
    (s32 (SIZEOF_PROPERTY + FDT_TAGALIGN (Z.of_nat (length v)))) 0 (struct_block_split l1 x l2))
    as [[Hgt E]|(Hle & g & r & Hg & Hr & Hfg & Hfr & E)]; [by rewrite (ptoks_bytes_length strs)| |done|done| |].
  { unfold SIZEOF_PROPERTY. rewrite Ea, Hxl, Et, s32_small by lia. lia. }
  { rewrite struct_block_split, !length_app, Ea in Hgt. unfold SIZEOF_PROPERTY in Hgt. rewrite s32_small in Hgt by lia. lia. }
  rewrite <- Eo. exists (image tot (l1 ++ l2) strs r). rewrite E. destruct g; [|done]. cbn [app].
  assert (Es : struct_block (l1 ++ l2) = ptoks_bytes l1 ++ struct_block l2) by (unfold struct_block; by rewrite ptoks_bytes_app, <- app_assoc).
  destruct (image_edit _ _ _ _ (l1 ++ l2) strs r Hi) as [Hi' Hl']; [by apply Forall_app|apply Hi|done|rewrite Es, length_app; lia| |].
  { rewrite Es, struct_block_split, !length_app, Hxl in *. lia. }
  split; [|split; [done|]].
  - rewrite image_raw, Es. do 2 f_equal. rewrite <- app_assoc. f_equal. rewrite Ea. unfold SIZEOF_PROPERTY. rewrite s32_small by lia.
    rewrite struct_block_split, !length_app, Hxl. lia.
  - exists (l1 ++ l2), r. split; [done|]. split; [done|]. rewrite Eu. f_equal. apply (upd_path_ext p s _ _ _ Hp). cbn [del_prop]. by rewrite remove_prop_found.
Qed.

(** * Growing a blob *)

Lemma num_mem_rsv_image tot pts strs rest (Hi : image_ok tot pts strs rest) : fdt_num_mem_rsv (image tot pts strs rest) = Some 0.
Proof.
  pose proof (lens_pos _ _ _ _ Hi) as Hl. pose proof (st_len_eq _ _ _ _ Hi) as Hse. unfold fdt_num_mem_rsv. cbn [num_mem_rsv_loop]. unfold fdt_mem_rsv.
  rewrite image_rsvoff, image_total by done. cbn [mbind option_bind]. change (s32 (0 * 16)) with 0. change (s32 (40 + 0)) with 40. change (u32 40 <? 40) with false.
  change (u64 40) with 40. unfold u64. rewrite wrap_small by (unfold fits; lia). rewrite (proj2 (Z.ltb_ge (tot - 16) 40)) by lia.
  change (40 + 0 * 16 + 8) with 48. done.
Qed.

(** Opening a blob where it is only changes its header. *)
Lemma open_into_in_place fdt tot num st size : fdt_ro_probe_ fdt = Some tot -> fdt_totalsize fdt = Some tot -> fdt_num_mem_rsv fdt = Some num ->
  fdt_version fdt = Some 17 -> fdt_size_dt_struct fdt = Some st -> fdt_blocks_misordered_ (s32 ((num + 1) * SIZEOF_RESERVE_ENTRY)) (s32 st) fdt = Some false ->
  0 <= tot <= size -> size <= Z.of_nat (length fdt) -> Z.of_nat (length fdt) < 2 ^ 32 ->
  fdt_open_into 0 0 size fdt = (fdt_set_version 0 17;; fdt_set_size_dt_struct 0 (s32 st);; fdt_set_totalsize 0 size;; mret 0) fdt.
Proof.
  intros Ep Et En Ev Es Em Hz Hl Hlt. unfold fdt_open_into. rewrite !rd_at_0. erewrite rbind by (by apply rd_eq). erewrite rbind by (by apply rd_eq).
  rewrite (proj2 (Z.ltb_ge tot 0)) by lia. erewrite rbind by (by apply rd_eq). erewrite rbind by (by apply rd_eq).
  cbn [Z.leb Z.ltb Z.compare Pos.compare Pos.compare_cont andb]. erewrite rbind by (apply rd_eq; rewrite Es; reflexivity).
  erewrite rbind by (by apply rd_eq). cbn [negb].
  erewrite rbind. 2:{ unfold fdt_move. rewrite !rd_at_0. erewrite rbind by (by apply rd_eq). rewrite (proj2 (Z.ltb_ge tot 0)) by lia.
    erewrite rbind by (by apply rd_eq). unfold u32. rewrite wrap_small by (unfold fits; lia). rewrite (proj2 (Z.ltb_ge size tot)) by lia.
    erewrite rbind by (apply rw_memmove_same; lia). reflexivity. }
  done.
Qed.

(** A blob that lies in a larger memory can be given more of it. *)
Lemma fdt_open_into_stores fdt tot strs s size : stores fdt tot strs s -> tot <= size <= Z.of_nat (length fdt) ->
  exists fdt', fdt_open_into 0 0 size fdt = Some (0, fdt') /\ length fdt' = length fdt /\ stores fdt' size strs s.
Proof.
  intros (pts & rest & -> & Hi & Hs) Hz. pose proof (lens_pos _ _ _ _ Hi) as Hl. unfold st_len in Hl. pose proof (img_small _ _ _ _ Hi) as Hsm.
  assert (Hlen : length (image size pts strs rest) = length (image tot pts strs rest)).
  { apply Nat2Z.inj. by rewrite !image_length. }
  exists (image size pts strs rest). split; [|split; [done|exists pts, rest]].
  - rewrite (open_into_in_place _ tot 0 (Z.of_nat (length (struct_block pts))) size);
      [|by apply image_probe|by apply image_total|by apply num_mem_rsv_image|by apply image_vers|by apply image_ssize|by apply image_ordered|lia..].
    rewrite image_raw. erewrite rbind by (apply (set_word [FDT_MAGIC; _; _; _; _; 17; _; _; _; _] 5 17); simpl; lia).
    erewrite rbind by (apply (set_word _ 9); simpl; lia). cbn [insert list_insert]. rewrite s32_small by lia.
    erewrite rbind by (apply (set_word _ 1 size); simpl; lia). cbn [insert list_insert]. by rewrite image_raw.
  - split; [done|]. split; [|done]. destruct Hi. rewrite <- Hlen in *. split; try done; lia.
Qed.

(** * Children of a stored node *)

Lemma place_list_lookup kids : forall o i, place_list place src_size o kids !! i =
  (fun k => place (o + Z.of_nat (list_sum (map src_size (take i kids)))) k) <$> kids !! i.
Proof.
  induction kids as [|k kids IH]; intros o i; [done|]. destruct i as [|i]; cbn [place_list lookup list_lookup].
  - cbn. by rewrite Z.add_0_r.
  - rewrite IH. cbn [take map]. change (list_sum (src_size k :: ?l)) with (src_size k + list_sum l)%nat.
    destruct (kids !! i); [|done]. cbn. do 2 f_equal. lia.
Qed.

(** The child of a placed node by its index. *)
Lemma place_kid o t i : d_kids (place o t) !! i = (fun k => place (o + Z.of_nat (off_path t [i])) k) <$> s_kids t !! i.
Proof.
  destruct t as [n props kids]. rewrite place_eq. cbv zeta. cbn [d_kids s_kids off_path]. rewrite place_list_lookup.
  destruct (kids !! i) as [k|]; [|done]. cbn. do 2 f_equal. unfold head_size. lia.
Qed.

Section Children.
Context (fdt : list Z) (tot : Z) (strs : list Z) (s : src) (Hst : stores fdt tot strs s).
Context (p : list nat) (t : src) (Hp : at_path s p = Some t).

Lemma child_path i k : s_kids t !! i = Some k -> at_path s (p ++ [i]) = Some k.
Proof. intros Hk. rewrite (at_path_app p s t) by done. cbn [at_path]. by rewrite Hk. Qed.

Lemma child_off i : Z.of_nat (off_path s (p ++ [i])) = Z.of_nat (off_path s p) + Z.of_nat (off_path t [i]).
Proof. rewrite (off_path_app p s t) by done. lia. Qed.

Lemma first_subnode_stores : fdt_first_subnode fdt (Z.of_nat (off_path s p)) =
  Some (match s_kids t with [] => - FDT_ERR_NOTFOUND | _ :: _ => Z.of_nat (off_path s (p ++ [0%nat])) end).
Proof.
  pose proof (path_node p s t 0 Hp) as Hn. rewrite Z.add_0_l in Hn. pose proof (fdt_first_subnode_eq _ _ (stores_holds _ _ _ _ Hst) _ Hn) as E.
  rewrite place_off in E. rewrite E. f_equal. pose proof (place_kid (Z.of_nat (off_path s p)) t 0) as Ek.
  destruct (d_kids (place _ t)) as [|k' ks]; destruct (s_kids t) as [|k kk]; cbn [fmap option_fmap option_map lookup list_lookup] in Ek; try done. injection Ek as ->. rewrite place_off. symmetry. apply child_off.
Qed.

Lemma next_subnode_stores i : (i < length (s_kids t))%nat -> fdt_next_subnode fdt (Z.of_nat (off_path s (p ++ [i]))) =
  Some (match s_kids t !! S i with None => - FDT_ERR_NOTFOUND | Some _ => Z.of_nat (off_path s (p ++ [S i])) end).
Proof.
  intros Hi. pose proof (path_node p s t 0 Hp) as Hn. rewrite Z.add_0_l in Hn. destruct (lookup_lt_is_Some_2 _ _ Hi) as [k Ek].
  set (o := Z.of_nat (off_path s p)) in *. pose proof (place_kid o t i) as Ei. rewrite Ek in Ei. cbn [fmap option_fmap option_map] in Ei.
  pose proof (fdt_next_subnode_eq _ _ (stores_holds _ _ _ _ Hst) (place o t) (take i (d_kids (place o t))) _ (drop (S i) (d_kids (place o t))) Hn
    ltac:(symmetry; by apply take_drop_middle)) as E. rewrite place_off in E. rewrite child_off. fold o. rewrite E. f_equal.
  pose proof (place_kid o t (S i)) as Ei'. rewrite <- (Nat.add_0_r (S i)), <- lookup_drop, Nat.add_0_r in Ei'.
  destruct (drop (S i) (d_kids (place o t))) as [|k' ks]; destruct (s_kids t !! S i) as [k2|]; cbn [fmap option_fmap option_map lookup list_lookup] in Ei'; try done. injection Ei' as ->.
  rewrite place_off, child_off. done.
Qed.
End Children.

(** The first child that a name finds, by its index. *)
Fixpoint index_of (name : list Z) (kids : list src) : option nat :=
  match kids with
  | [] => None
  | k :: kids => if name_match name (s_name k) then Some 0%nat else S <$> index_of name kids
  end.

Lemma index_of_lookup name kids i : index_of name kids = Some i -> exists k, kids !! i = Some k.
Proof.
  revert i. induction kids as [|k kids IH]; intros i; [done|]. cbn [index_of]. destruct (name_match _ _); [intros [= <-]; by eexists|].
  destruct (index_of name kids) as [j|]; [|done]. intros [= <-]. by apply IH.
Qed.

Lemma place_name o k : d_name (place o k) = s_name k.
Proof. by destruct k. Qed.

Lemma find_place name kids : forall o, d_off <$> List.find (fun k => name_match name (d_name k)) (place_list place src_size o kids) =
  (fun i => o + Z.of_nat (list_sum (map src_size (take i kids)))) <$> index_of name kids.
Proof.
  induction kids as [|k kids IH]; intros o; [done|]. cbn [place_list List.find index_of]. rewrite place_name.
  destruct (name_match name (s_name k)); [cbn; rewrite place_off; do 2 f_equal; lia|]. rewrite IH. destruct (index_of name kids) as [i|]; [|done]. cbn [fmap option_fmap option_map].
  f_equal. cbn [take map]. change (list_sum (src_size k :: ?l)) with (src_size k + list_sum l)%nat. lia.
Qed.

(** A path of one name. *)
Lemma path_offset_stores fdt tot strs s name n : stores fdt tot strs s -> seg_ok name -> Z.of_nat (length name) < 2 ^ 31 - 2 ->
  fdt_path_offset n fdt (path_bytes [name] ++ [0]) =
  Some (match index_of name (s_kids s) with Some i => Z.of_nat (off_path s [i]) | None => - FDT_ERR_NOTFOUND end).
Proof.
  intros Hst Hs Hl. rewrite (fdt_path_offset_eq _ _ (stores_holds _ _ _ _ Hst) n [name] _ (place_off s 0));
    [|done|by apply Forall_singleton|by exists []; rewrite app_nil_r|unfold path_bytes; cbn; rewrite app_nil_r; cbn; lia].
  f_equal. cbn [lookup_path]. unfold kid_named. destruct s as [nm props kids]. rewrite place_eq. cbv zeta. cbn [d_kids s_kids off_path].
  pose proof (find_place name kids (0 + Z.of_nat (tok_size (TBegin nm)) + Z.of_nat (list_sum (map prop_size props)))) as E.
  destruct (List.find _ _) as [k|]; destruct (index_of name kids) as [i|] eqn:Ei; cbn [fmap option_fmap option_map] in E; try done. injection E as E. cbn [mbind option_bind]. rewrite E.
  destruct (index_of_lookup _ _ _ Ei) as [k' ->]. unfold head_size. lia.
Qed.

Lemma upd_path_app p : forall s q f, upd_path s (p ++ q) f = upd_path s p (fun t => upd_path t q f).
Proof.
  induction p as [|i p IH]; intros s q f; [done|]. cbn [app upd_path]. destruct s as [name props kids]. f_equal.
  apply list_alter_ext; [|done]. intros k _. apply IH.
Qed.

Lemma upd_path_twice p : forall s f g, upd_path (upd_path s p f) p g = upd_path s p (fun t => g (f t)).
Proof.
  induction p as [|i p IH]; intros s f g; [done|]. cbn [upd_path]. destruct s as [name props kids]. f_equal. apply list_eq. intros j.
  destruct (decide (i = j)) as [<-|Hj]; [|by rewrite !list_lookup_alter_ne]. rewrite !list_lookup_alter_eq.
  destruct (kids !! i) as [k|]; [|done]. cbn. by rewrite IH.
Qed.

(** ** Reading what was set *)

Lemma s_prop_found name n a v b kids : Forall (fun p => p.1 <> name) a -> s_prop name (Src n (a ++ (name, v) :: b) kids) = Some v.
Proof.
  intros Ha. cbn [s_prop]. induction Ha as [|q a Hq _ IH]; cbn [app List.find fst]; [by rewrite bool_decide_eq_true_2|]. by rewrite bool_decide_eq_false_2.
Qed.

Lemma s_prop_none name n props kids : Forall (fun p => p.1 <> name) props -> s_prop name (Src n props kids) = None.
Proof. intros Ha. cbn [s_prop]. induction Ha as [|q a Hq _ IH]; cbn [List.find]; [done|]. by rewrite bool_decide_eq_false_2. Qed.

Lemma find_prop_set (key name val : list Z) props : List.find (fun p => bool_decide (p.1 = key)) (default ((name, val) :: props) (replace_prop name val props)) =
  if bool_decide (key = name) then Some (name, val) else List.find (fun p => bool_decide (p.1 = key)) props.
Proof.
  destruct (props_cases name props) as [(a & v & b & -> & Ha)|Ha].
  - rewrite replace_prop_found by done. cbn [default from_option id]. induction Ha as [|[k w] a Hp _ IH]; cbn [app List.find fst].
    + case_bool_decide as E; case_bool_decide as E'; [done|by subst|by subst|done].
    + cbn in Hp. rewrite IH. case_bool_decide as E; case_bool_decide as E'; try done; by subst.
  - rewrite replace_prop_none by done. cbn [default from_option id List.find fst]. case_bool_decide as E; case_bool_decide as E'; try done; by subst.
Qed.

(** A property that was set has its value, and the others have theirs. *)
Lemma s_prop_set key name val t : s_prop key (set_prop name val t) = if bool_decide (key = name) then Some val else s_prop key t.
Proof. destruct t as [n props kids]. cbn [s_prop set_prop]. rewrite find_prop_set. by case_bool_decide. Qed.

Lemma s_name_set name val t : s_name (set_prop name val t) = s_name t.
Proof. by destruct t. Qed.
Lemma s_kids_set name val t : s_kids (set_prop name val t) = s_kids t.
Proof. by destruct t. Qed.

(** ** How much an edit takes *)

Lemma find_sub_there key r : forall l, exists n, find_sub key (l ++ key ++ r) = Some n.
Proof.
  induction l as [|x l [n IH]]; cbn [app].
  - exists 0%nat. destruct (key ++ r) eqn:E; cbn [find_sub]; rewrite bool_decide_eq_true_2; try done; rewrite <- E; apply take_app_length.
  - cbn [find_sub]. case_bool_decide; [by eexists|]. rewrite IH. by eexists.
Qed.

Lemma add_string_twice name strs : add_string name (add_string name strs) = add_string name strs.
Proof.
  unfold add_string at 2 3. destruct (find_sub (name ++ [0]) strs) as [n|] eqn:E; unfold add_string; [by rewrite E|].
  destruct (find_sub_there (name ++ [0]) [] strs) as [n En]. rewrite app_nil_r in En. by rewrite En.
Qed.

Lemma add_string_length name strs : (length strs <= length (add_string name strs) <= length strs + (length name + 1))%nat.
Proof. unfold add_string. destruct (find_sub _ _); [lia|]. rewrite !length_app. simpl. lia. Qed.

Lemma set_prop_size name val t : (src_size (set_prop name val t) <= src_size t + tok_size (TProp name val))%nat.
Proof.
  destruct t as [n props kids]. cbn [set_prop]. destruct (props_cases name props) as [(a & v & b & -> & Ha)|Ha].
  - rewrite replace_prop_found by done. cbn [default from_option id]. rewrite !src_size_eq, !list_sum_insert. unfold prop_stok. cbn [fst snd]. lia.
  - rewrite replace_prop_none by done. cbn [default from_option id]. rewrite !src_size_eq. pose proof (list_sum_insert [] props (name, val)) as E.
    cbn [app] in E. rewrite E. unfold prop_stok. cbn. lia.
Qed.

Lemma used_set s p t name val strs strs' : at_path s p = Some t ->
  used (upd_path s p (set_prop name val)) strs' <=
  used s strs + Z.of_nat (tok_size (TProp name val)) - Z.of_nat (length strs) + Z.of_nat (length strs').
Proof.
  intros Hp. destruct (path_split p s t Hp) as (l1 & l2 & E & _ & Eu). pose proof (set_prop_size name val t) as Hs.
  unfold used, src_size in *. rewrite Eu, E, !toks_size_app. lia.
Qed.

(** * Blobs in a larger memory *)

Lemma image_more tot pts strs rest r : image tot pts strs rest ++ r = image tot pts strs (rest ++ r).
Proof. unfold image. cbv zeta. by rewrite <- !app_assoc. Qed.

(** A tree that was written down is stored, with whatever memory follows. *)
Lemma encode_stores tbl s r : writable tbl s -> Forall (fits 8) r -> Z.of_nat (length (encode tbl s ++ r)) < 2 ^ 31 - 8 ->
  stores (encode tbl s ++ r) (encode_size s tbl) (string_list tbl) s.
Proof.
  intros (Ht & Hs & Hl) Hr Hlr. pose proof (encode_ok tbl s Ht Hs Hl) as Hi. exists (map (canon tbl) (sflat s)), r. unfold encode in *. rewrite image_more in *. cbn [app] in *.
  split; [done|]. split; [|apply canon_pk]. destruct Hi as [H1 H2 H3 H4 H5 H6]. pose proof (image_length (encode_size s tbl) (map (canon tbl) (sflat s)) (string_list tbl)) as L.
  pose proof (L []) as L0. pose proof (L r) as L1. cbn [length] in L0. split; try done; lia.
Qed.

(** What a blob stores can be read back by the iterators. *)
Lemma stores_read fdt tot strs s : stores fdt tot strs s -> read_node (length fdt) fdt 0 = Some s.
Proof.
  intros Hst. pose proof (stores_holds _ _ _ _ Hst) as Hh. pose proof (place_off s 0) as E0. rewrite <- E0 at 1. rewrite (read_node_eq _ _ Hh); [by rewrite erase_place|constructor|].
  etrans; [apply height_flat|]. exact (flat_length _ _ Hh).
Qed.

(** Every node of a placed tree is at a path. *)
Lemma node_path root t : node_of root t -> forall s o, root = place o s -> exists p k, at_path s p = Some k /\ t = place (o + Z.of_nat (off_path s p)) k.
Proof.
  induction 1 as [t|t k t' Hk _ IH]; intros s o ->.
  - exists [], s. cbn. by rewrite Z.add_0_r.
  - apply list_elem_of_lookup_1 in Hk as [i Hi]. rewrite place_kid in Hi. destruct (s_kids s !! i) as [k'|] eqn:Ek; [|done]. injection Hi as <-.
    destruct (IH k' (o + Z.of_nat (off_path s [i])) eq_refl) as (p & k2 & Hp & E). exists ([i] ++ p), k2.
    assert (Ha : at_path s [i] = Some k') by (cbn [at_path]; by rewrite Ek). rewrite (at_path_app [i] s k') by done. split; [done|]. rewrite E. f_equal.
    rewrite (off_path_app [i] s k') by done. lia.
Qed.

(** The nodes in document order, with their paths. *)
Fixpoint pnodes (s : src) : list (list nat * src) :=
  let '(Src _ _ kids) := s in
  ([], s) :: (fix go i kids := match kids with [] => [] | k :: kids => map (prod_map (cons i) id) (pnodes k) ++ go (S i) kids end) 0%nat kids.

Fixpoint pkids (i : nat) (kids : list src) : list (list nat * src) :=
  match kids with [] => [] | k :: kids => map (prod_map (cons i) id) (pnodes k) ++ pkids (S i) kids end.

Lemma pnodes_eq n props kids : pnodes (Src n props kids) = ([], Src n props kids) :: pkids 0 kids.
Proof. done. Qed.

Lemma pkids_at p t kids : forall i, (p, t) ∈ pkids i kids -> exists j k q, p = (i + j)%nat :: q /\ kids !! j = Some k /\ (q, t) ∈ pnodes k.
Proof.
  induction kids as [|k kids IH]; intros i Hin; cbn [pkids] in Hin; [by apply elem_of_nil in Hin|]. apply elem_of_app in Hin as [Hin|Hin].
  - apply list_elem_of_fmap in Hin as ([q u] & E & Hin). injection E as -> ->. exists 0%nat, k, q. by rewrite Nat.add_0_r.
  - apply IH in Hin as (j & k' & q & -> & Hj & Hin). exists (S j), k', q. split; [f_equal; lia|done].
Qed.

Lemma pnodes_at s : forall p t, (p, t) ∈ pnodes s -> at_path s p = Some t.
Proof.
  induction s as [n props kids IH] using src_forall. intros p t. rewrite pnodes_eq. intros [[= -> ->]|Hin]%elem_of_cons; [done|].
  apply pkids_at in Hin as (j & k & q & -> & Hj & Hin). cbn [at_path s_kids]. cbn [Nat.add]. rewrite Hj. cbn [mbind option_bind].
  rewrite Forall_forall in IH. apply (IH k); [by eapply list_elem_of_lookup_2|done].
Qed.

Lemma nodes_pkids o (f : nat -> list nat -> Z) kids : Forall (fun k => forall o, nodes (place o k) = map (fun x => place (o + Z.of_nat (off_path k x.1)) x.2) (pnodes k)) kids ->
  forall i sz, (forall j k q, kids !! j = Some k -> f (i + j)%nat q = o + sz + Z.of_nat (list_sum (map src_size (take j kids))) + Z.of_nat (off_path k q)) ->
  flat_map nodes (place_list place src_size (o + sz) kids) = map (fun x => place (match x.1 with i :: q => f i q | [] => 0 end) x.2) (pkids i kids).
Proof.
  induction 1 as [|k kids Hk _ IH]; intros i sz Hf; [done|]. cbn [place_list flat_map pkids]. rewrite map_app. f_equal.
  - rewrite Hk, map_map. apply map_ext. intros [q t]. cbn [prod_map fst snd id]. specialize (Hf 0%nat k q eq_refl). rewrite Nat.add_0_r in Hf. rewrite Hf. cbn. f_equal. lia.
  - rewrite <- Z.add_assoc, <- (IH (S i) (sz + Z.of_nat (src_size k))); [done|]. intros j k' q Hj. specialize (Hf (S j) k' q Hj).
    replace (S i + j)%nat with (i + S j)%nat by lia. rewrite Hf. cbn [take map]. change (list_sum (src_size k :: ?l)) with (src_size k + list_sum l)%nat. lia.
Qed.

(** The nodes of the placed tree are the nodes at their paths. *)
Lemma nodes_pnodes s : forall o, nodes (place o s) = map (fun x => place (o + Z.of_nat (off_path s x.1)) x.2) (pnodes s).
Proof.
  induction s as [n props kids IH] using src_forall. intros o. rewrite pnodes_eq. cbn [map fst snd off_path]. rewrite Z.add_0_r.
  rewrite place_eq. cbv zeta. cbn [nodes d_kids]. f_equal.
  rewrite <- Z.add_assoc, (nodes_pkids o (fun i q => o + Z.of_nat (off_path (Src n props kids) (i :: q))) kids IH 0).
  - apply map_ext_in. intros [p t] Hin%list_elem_of_In. cbn [fst snd]. apply pkids_at in Hin as (j & k & q & -> & _). done.
  - intros j k q Hj. cbn [off_path Nat.add]. rewrite Hj. unfold head_size. lia.
Qed.

(** * The machine of the examples *)

(** Its blob, in a memory with room behind it. *)
Definition demo_mem (n : nat) : list Z := encode demo_names demo ++ replicate n 0.
Definition demo_strs : list Z := string_list demo_names.
Definition demo_size : Z := encode_size demo demo_names.

Lemma demo_stores n : Z.of_nat n < 2 ^ 30 -> stores (demo_mem n) demo_size demo_strs demo.
Proof.
  intros Hn. apply encode_stores; [exact demo_writable|apply Forall_replicate; unfold fits; lia|].
  rewrite length_app, length_replicate. assert (E : Z.of_nat (length (encode demo_names demo)) < 2 ^ 20) by (by vm_compute). lia.
Qed.

Definition demo_cpu1 : list nat := [1; 1]%nat.

(** The space a change of the example takes, compared with what it has. *)
Ltac room H b := match type of H with context [used ?s ?t <=? ?n] => let E := fresh in assert (E : (used s t <=? n) = b) by (vm_compute; reflexivity); rewrite E in H; clear E end.
Ltac decide_it := apply (bool_decide_unpack _); by vm_compute.

(** C14: Setting a property of the node at path [p] sets it in the tree. *)
Theorem fdt_setprop_stores fdt tot strs s p t name val vl : stores fdt tot strs s -> at_path s p = Some t ->
  name_ok name -> Z.of_nat (length name) < 2 ^ 31 - 1 -> Forall (fits 8) val -> Z.of_nat (length val) < 2 ^ 31 - 64 ->
  starts val vl ->
  edits (fdt_setprop (Z.of_nat (off_path s p)) (name ++ [0]) vl (Z.of_nat (length val))) 0
    fdt tot strs s (prop_strs name t strs) (upd_path s p (set_prop name val)).
Proof. apply setprop_stored. Qed.

Lemma fdt_setprop_stores_witness :
  exists fdt', fdt_setprop (Z.of_nat (off_path demo demo_cpu1)) (cstring "reg") (be32 5) 4 (demo_mem 0) = Some (0, fdt') /\
    stores fdt' demo_size demo_strs (upd_path demo demo_cpu1 (set_prop (chars "reg") (be32 5))).
Proof.
  pose proof (fdt_setprop_stores (demo_mem 0) demo_size demo_strs demo demo_cpu1 (demo_cpu "cpu@1" 1 2) (chars "reg") (be32 5) (be32 5)
    (demo_stores 0 eq_refl) eq_refl ltac:(decide_it) ltac:(by vm_compute) ltac:(decide_it) ltac:(by vm_compute) ltac:(by exists [])) as H.
  unfold edits in H. change (prop_strs (chars "reg") (demo_cpu "cpu@1" 1 2) demo_strs) with demo_strs in H. room H true.
  destruct H as (fdt' & _ & H). exists fdt'. exact H.
Defined.

(** C15: Adding a node below the node at path [p] makes it its first child, unless
    there is one that the name already finds. *)
Theorem fdt_add_subnode_stores fdt tot strs s p t name l : stores fdt tot strs s -> at_path s p = Some t ->
  cstr name l -> Z.of_nat (length name) < 2 ^ 31 - 64 ->
  let s' := upd_path s p (add_kid (Src name [] [])) in
  match kid_of name t with
  | Some _ => fdt_add_subnode (Z.of_nat (off_path s p)) l fdt = Some (- FDT_ERR_EXISTS, fdt)
  | None => edits (fdt_add_subnode (Z.of_nat (off_path s p)) l) (Z.of_nat (off_path s' (p ++ [0%nat]))) fdt tot strs s strs s'
  end.
Proof. apply add_subnode_stored. Qed.

Lemma fdt_add_subnode_stores_witness :
  exists fdt', fdt_add_subnode (Z.of_nat (off_path demo demo_cpu1)) (cstring "l2-cache") (demo_mem 0) = Some (- FDT_ERR_NOSPACE, fdt') /\
    stores fdt' demo_size demo_strs demo.
Proof.
  pose proof (fdt_add_subnode_stores (demo_mem 0) demo_size demo_strs demo demo_cpu1 (demo_cpu "cpu@1" 1 2) (chars "l2-cache") (cstring "l2-cache")
    (demo_stores 0 eq_refl) eq_refl ltac:(split; [decide_it|by exists []]) ltac:(by vm_compute)) as H.
  cbv zeta in H. change (kid_of (chars "l2-cache") (demo_cpu "cpu@1" 1 2)) with (@None src) in H. cbv iota in H. unfold edits in H. room H false.
  destruct H as (fdt' & _ & H). exists fdt'. exact H.
Defined.

Lemma fdt_delprop_stores_witness :
  exists fdt', fdt_delprop (Z.of_nat (off_path demo demo_cpu1)) (cstring "mmu-type") (demo_mem 0) = Some (0, fdt') /\
    stores fdt' demo_size demo_strs (upd_path demo demo_cpu1 (del_prop (chars "mmu-type"))).
Proof.
  pose proof (fdt_delprop_stores (demo_mem 0) demo_size demo_strs demo demo_cpu1 (demo_cpu "cpu@1" 1 2) (chars "mmu-type")
    (demo_stores 0 eq_refl) eq_refl ltac:(decide_it) ltac:(by vm_compute)) as H.
  change (has_prop (chars "mmu-type") (demo_cpu "cpu@1" 1 2)) with true in H. destruct H as (fdt' & E & _ & H). exists fdt'. split; [exact E|exact H].
Defined.
