(* ===== verification/FdtSw.v ===== *)
(** Writing a flattened device tree from front to back:
    lib/utils/libfdt/fdt_sw.c and fdt_empty_tree.c, with the inline functions of
    libfdt.h.

    The memory is that of FdtRw: from the blob on.  Until [fdt_finish] the header
    has another magic number, the strings grow down from the end of the buffer,
    and the names of the properties are offsets from there. *)

From S2P Require Import Prelude Cstring Fdt FdtTag FdtTree FdtImage FdtEncode FdtRw FdtEdit.

Definition FDT_ERR_BADFLAGS : Z := 18.
Definition FDT_CREATE_FLAG_NO_NAME_DEDUP : Z := 1.
Definition FDT_CREATE_FLAGS_ALL : Z := FDT_CREATE_FLAG_NO_NAME_DEDUP.

(** * The state of a blob that is being written *)

Definition fdt_sw_probe_ (fdt : list Z) : option Z :=
  magic ← fdt_magic fdt;
  Some (if magic =? FDT_MAGIC then - FDT_ERR_BADSTATE else if negb (magic =? FDT_SW_MAGIC) then - FDT_ERR_BADMAGIC else 0).
Definition fdt_sw_probe_memrsv_ (fdt : list Z) : option Z :=
  err ← fdt_sw_probe_ fdt;
  if nz err then Some err else off ← fdt_off_dt_strings fdt; Some (if nz off then - FDT_ERR_BADSTATE else 0).
Definition fdt_sw_probe_struct_ (fdt : list Z) : option Z :=
  err ← fdt_sw_probe_ fdt;
  if nz err then Some err
  else
    off ← fdt_off_dt_strings fdt; totalsize ← fdt_totalsize fdt;
    Some (if negb (off =? totalsize) then - FDT_ERR_BADSTATE else 0).

(** [FDT_SW_PROBE(fdt); k] and its like. *)
Definition FDT_SW_PROBE (k : RW Z) : RW Z := err ← rd fdt_sw_probe_; if nz err then mret err else k.
Definition FDT_SW_PROBE_MEMRSV (k : RW Z) : RW Z := err ← rd fdt_sw_probe_memrsv_; if nz err then mret err else k.
Definition FDT_SW_PROBE_STRUCT (k : RW Z) : RW Z := err ← rd fdt_sw_probe_struct_; if nz err then mret err else k.

Definition sw_flags : list Z -> option Z := fdt_last_comp_version.

(** [len] is a [size_t]; [offset] and [spaceleft] are extended to one. *)
Definition fdt_grab_space_ (len : Z) : RW (option Z) :=
  offset ← rd fdt_size_dt_struct;
  let offset := s32 offset in
  totalsize ← rd fdt_totalsize; off ← rd fdt_off_dt_struct; strings ← rd fdt_size_dt_strings;
  let spaceleft := s32 (totalsize - off - strings) in
  if (u64 (offset + len) <? u64 offset) || (u64 spaceleft <? u64 (offset + len)) then mret None
  else
    fdt_set_size_dt_struct 0 (u64 (offset + len));;
    p ← rd (fun fdt => fdt_offset_ptr_ fdt offset);
    mret (Some p).

(** * Creating *)

Definition fdt_create_with_flags (bufsize flags : Z) : RW Z :=
  let hdrsize := FDT_ALIGN SIZEOF_FDT_HEADER SIZEOF_RESERVE_ENTRY in
  if u64 bufsize <? hdrsize then mret (- FDT_ERR_NOSPACE)
  else if nz (flags .& Z.lnot FDT_CREATE_FLAGS_ALL) then mret (- FDT_ERR_BADFLAGS)
  else
    rw_memset 0 0 (u64 bufsize);;
    fdt_set_magic 0 FDT_SW_MAGIC;;
    fdt_set_version 0 FDT_LAST_SUPPORTED_VERSION;;
    fdt_set_last_comp_version 0 flags;;
    fdt_set_totalsize 0 bufsize;;
    fdt_set_off_mem_rsvmap 0 hdrsize;;
    off ← rd fdt_off_mem_rsvmap; fdt_set_off_dt_struct 0 off;;
    fdt_set_off_dt_strings 0 0;;
    mret 0.
Definition fdt_create (bufsize : Z) : RW Z := fdt_create_with_flags bufsize 0.

(** From the blob at position [fdt] to the buffer at position [buf]. *)
Definition fdt_resize (fdt buf bufsize : Z) : RW Z :=
  err ← rd_at fdt fdt_sw_probe_;
  if nz err then mret err
  else
    off ← rd_at fdt fdt_off_dt_struct; size ← rd_at fdt fdt_size_dt_struct; tailsize ← rd_at fdt fdt_size_dt_strings;
    let headsize := u32 (off + size) in
    totalsize ← rd_at fdt fdt_totalsize;
    if totalsize <? headsize + tailsize then mret (- FDT_ERR_INTERNAL)
    else if u64 bufsize <? headsize + tailsize then mret (- FDT_ERR_NOSPACE)
    else
      let oldtail := fdt + totalsize - tailsize in
      let newtail := buf + bufsize - tailsize in
      (if buf <=? fdt then rw_memmove buf fdt headsize;; rw_memmove newtail oldtail tailsize
       else rw_memmove newtail oldtail tailsize;; rw_memmove buf fdt headsize);;
      fdt_set_totalsize buf bufsize;;
      off ← rd_at buf fdt_off_dt_strings;
      (if nz off then fdt_set_off_dt_strings buf bufsize else mret tt);;
      mret 0.

Definition fdt_add_reservemap_entry (addr size : Z) : RW Z :=
  FDT_SW_PROBE_MEMRSV (
    offset ← rd fdt_off_dt_struct;
    let offset := s32 offset in
    totalsize ← rd fdt_totalsize;
    if totalsize <? u64 (offset + SIZEOF_RESERVE_ENTRY) then mret (- FDT_ERR_NOSPACE)
    else
      st64 offset addr;; st64 (offset + 8) size;;
      fdt_set_off_dt_struct 0 (offset + SIZEOF_RESERVE_ENTRY);;
      mret 0).
Definition fdt_finish_reservemap : RW Z :=
  err ← fdt_add_reservemap_entry 0 0;
  if nz err then mret err
  else totalsize ← rd fdt_totalsize; fdt_set_off_dt_strings 0 totalsize;; mret 0.

(** * Nodes and properties *)

Definition fdt_begin_node (name : list Z) : RW Z :=
  FDT_SW_PROBE_STRUCT (
    len ← rd (fun _ => sbi_strlen name);
    let namelen := s32 (len + 1) in
    nh ← fdt_grab_space_ (4 + FDT_ALIGN namelen FDT_TAGSIZE);
    match nh with
    | None => mret (- FDT_ERR_NOSPACE)
    | Some nh => st32 nh FDT_BEGIN_NODE;; rw_memcpy (nh + 4) name namelen;; mret 0
    end).
Definition fdt_end_node : RW Z :=
  FDT_SW_PROBE_STRUCT (
    en ← fdt_grab_space_ FDT_TAGSIZE;
    match en with None => mret (- FDT_ERR_NOSPACE) | Some en => st32 en FDT_END_NODE;; mret 0 end).

(** 0 when there is no more room, which is found in 32 bits without sign. *)
Definition fdt_add_string_ (s : list Z) : RW Z :=
  strtab ← rd fdt_totalsize;
  strtabsize ← rd fdt_size_dt_strings;
  let strtabsize := s32 strtabsize in
  len ← rd (fun _ => sbi_strlen s);
  let len := s32 (len + 1) in
  let offset := s32 (- strtabsize - len) in
  off ← rd fdt_off_dt_struct; size ← rd fdt_size_dt_struct;
  let struct_top := s32 (off + size) in
  if u32 (strtab + offset) <? u32 struct_top then mret 0
  else
    rw_memcpy (strtab + offset) s len;;
    fdt_set_size_dt_strings 0 (strtabsize + len);;
    mret offset.

(** The functions [fdt_del_last_string_] and [fdt_find_add_string_] of fdt_sw.c;
    the second gives the offset and [allocated]. *)
Definition sw_del_last_string_ (s : list Z) : RW unit :=
  strtabsize ← rd fdt_size_dt_strings;
  len ← rd (fun _ => sbi_strlen s);
  fdt_set_size_dt_strings 0 (s32 strtabsize - s32 (len + 1)).
Definition sw_find_add_string_ (s : list Z) : RW (Z * bool) :=
  strtab ← rd fdt_totalsize;
  strtabsize ← rd fdt_size_dt_strings;
  let strtabsize := s32 strtabsize in
  p ← rd (fun fdt => fdt_find_string_ (from fdt (strtab - strtabsize)) strtabsize s);
  match p with
  | Some p => mret (s32 (strtab - strtabsize + p - strtab), false)
  | None => offset ← fdt_add_string_ s; mret (offset, true)
  end.

(** The error, and [*valp]. *)
Definition fdt_property_placeholder (name : list Z) (len : Z) : RW (Z * option Z) :=
  err ← rd fdt_sw_probe_struct_;
  if nz err then mret (err, None)
  else
    flags ← rd sw_flags;
    '(nameoff, allocated) ← (if nz (flags .& FDT_CREATE_FLAG_NO_NAME_DEDUP)
                             then nameoff ← fdt_add_string_ name; mret (nameoff, true)
                             else sw_find_add_string_ name);
    if nameoff =? 0 then mret (- FDT_ERR_NOSPACE, None)
    else
      prop ← fdt_grab_space_ (SIZEOF_PROPERTY + FDT_ALIGN len FDT_TAGSIZE);
      match prop with
      | None => (if allocated : bool then sw_del_last_string_ name else mret tt);; mret (- FDT_ERR_NOSPACE, None)
      | Some prop =>
          st32 prop FDT_PROP;;
          st32 (prop + 8) nameoff;;
          st32 (prop + 4) len;;
          mret (0, Some (prop + SIZEOF_PROPERTY))
      end.
Definition fdt_property (name val : list Z) (len : Z) : RW Z :=
  '(ret, ptr) ← fdt_property_placeholder name len;
  if nz ret then mret ret else deref ptr (fun ptr => rw_memcpy ptr val len);; mret 0.
Definition fdt_property_u32 (name : list Z) (val : Z) : RW Z := fdt_property name (be32 val) 4.
Definition fdt_property_u64 (name : list Z) (val : Z) : RW Z := fdt_property name (be64 val) 8.
Definition fdt_property_string (name str : list Z) : RW Z :=
  len ← rd (fun _ => sbi_strlen str); fdt_property name str (s32 (len + 1)).

(** * The end *)

(** [while ((tag = fdt_next_tag(...)) != FDT_END)]: the offset at the end. *)
Fixpoint finish_loop (n : nat) (offset : Z) : RW Z :=
  match n with
  | O => fun _ => None
  | S n =>
      '(tag, nextoffset) ← rd (fun fdt => fdt_next_tag fdt offset);
      if tag =? FDT_END then mret nextoffset
      else
        (if tag =? FDT_PROP then
           prop ← rd (fun fdt => fdt_offset_ptr_ fdt offset);
           nameoff ← rd (fun fdt => fdt32_ld (from fdt (prop + 8)));
           size ← rd fdt_size_dt_strings;
           st32 (prop + 8) (nameoff + size)
         else mret tt);;
        finish_loop n nextoffset
  end.
Definition fdt_finish : RW Z :=
  FDT_SW_PROBE_STRUCT (
    end_ ← fdt_grab_space_ 4;
    match end_ with
    | None => mret (- FDT_ERR_NOSPACE)
    | Some end_ =>
        st32 end_ FDT_END;;
        totalsize ← rd fdt_totalsize; strings ← rd fdt_size_dt_strings;
        let oldstroffset := s32 (totalsize - strings) in
        off ← rd fdt_off_dt_struct; size ← rd fdt_size_dt_struct;
        let newstroffset := s32 (off + size) in
        rw_memmove newstroffset oldstroffset strings;;
        fdt_set_off_dt_strings 0 newstroffset;;
        n ← rd (fun fdt => Some (S (length fdt)));
        nextoffset ← finish_loop n 0;
        if nextoffset <? 0 then mret nextoffset
        else
          strings ← rd fdt_size_dt_strings;
          fdt_set_totalsize 0 (newstroffset + strings);;
          fdt_set_last_comp_version 0 FDT_FIRST_SUPPORTED_VERSION;;
          fdt_set_magic 0 FDT_MAGIC;;
          mret 0
    end).

(** [err = f(...); if (err) return err; k] *)
Definition then_ (f k : RW Z) : RW Z := err ← f; if nz err then mret err else k.

Definition fdt_create_empty_tree (bufsize : Z) : RW Z :=
  then_ (fdt_create bufsize)
    (then_ fdt_finish_reservemap
      (then_ (fdt_begin_node [0])
        (then_ fdt_end_node
          (then_ fdt_finish (fdt_open_into 0 0 bufsize))))).

(** * A client that writes a tree *)

Definition write_tok (k : stok) : RW Z :=
  match k with
  | TBegin name => fdt_begin_node (name ++ [0])
  | TEnd => fdt_end_node
  | TProp name value => fdt_property (name ++ [0]) value (Z.of_nat (length value))
  end.
Fixpoint write_toks (l : list stok) : RW Z := match l with [] => mret 0 | k :: l => then_ (write_tok k) (write_toks l) end.
Fixpoint write_rsvs (rs : list (Z * Z)) : RW Z :=
  match rs with [] => mret 0 | (addr, size) :: rs => then_ (fdt_add_reservemap_entry addr size) (write_rsvs rs) end.
Definition write_tree (flags bufsize : Z) (rs : list (Z * Z)) (s : src) : RW Z :=
  then_ (fdt_create_with_flags bufsize flags)
    (then_ (write_rsvs rs)
      (then_ fdt_finish_reservemap
        (then_ (write_toks (sflat s)) fdt_finish))).

(** * The memory while the tree is written *)

(** The structure block grows into the gap from the left, the strings from the
    right. *)
Definition sw (flags tot : Z) (mid body gap strs rest : list Z) : list Z :=
  words [FDT_SW_MAGIC; tot; 40 + Z.of_nat (length mid); tot; 48; 17; flags; 0; Z.of_nat (length strs); Z.of_nat (length body)]
    ++ mid ++ body ++ gap ++ strs ++ rest.

Record sw_ok (flags tot : Z) (mid body gap strs rest : list Z) : Prop := {
  sw_flag : 0 <= flags <= 1;
  sw_tot : tot = 40 + Z.of_nat (length mid + length body + length gap + length strs);
  sw_small : tot + Z.of_nat (length rest) < 2 ^ 31 - 8;
  sw_bytes : Forall (fits 8) (mid ++ body ++ gap ++ strs ++ rest)
}.

Section Sw.
Context (flags tot : Z) (mid body gap strs rest : list Z) (Hok : sw_ok flags tot mid body gap strs rest).
Notation m := (sw flags tot mid body gap strs rest).

Lemma sw_word i x : [FDT_SW_MAGIC; tot; 40 + Z.of_nat (length mid); tot; 48; 17; flags; 0; Z.of_nat (length strs); Z.of_nat (length body)] !! i = Some x ->
  fits 32 x -> fdt_get_header m (4 * Z.of_nat i) = Some x.
Proof. apply header_word. Qed.

Ltac word i := destruct Hok; apply (sw_word i); [reflexivity|unfold fits; lia].

Lemma sw_magic : fdt_magic m = Some FDT_SW_MAGIC.  Proof. apply (sw_word 0); [done|by vm_compute]. Qed.
Lemma sw_total : fdt_totalsize m = Some tot.  Proof. word 1%nat. Qed.
Lemma sw_soff : fdt_off_dt_struct m = Some (40 + Z.of_nat (length mid)).  Proof. word 2%nat. Qed.
Lemma sw_stroff : fdt_off_dt_strings m = Some tot.  Proof. word 3%nat. Qed.
Lemma sw_flags_eq : sw_flags m = Some flags.  Proof. word 6%nat. Qed.
Lemma sw_strsize : fdt_size_dt_strings m = Some (Z.of_nat (length strs)).  Proof. word 8%nat. Qed.
Lemma sw_ssize : fdt_size_dt_struct m = Some (Z.of_nat (length body)).  Proof. word 9%nat. Qed.

Lemma sw_probe_any : fdt_sw_probe_ m = Some 0.
Proof. unfold fdt_sw_probe_. rewrite sw_magic. cbn [mbind option_bind]. change (FDT_SW_MAGIC =? FDT_MAGIC) with false. by rewrite Z.eqb_refl. Qed.

Lemma sw_probe : fdt_sw_probe_struct_ m = Some 0.
Proof.
  unfold fdt_sw_probe_struct_. rewrite sw_probe_any. cbn [mbind option_bind]. change (nz 0) with false. cbv iota.
  rewrite sw_stroff, sw_total. cbn [mbind option_bind]. by rewrite Z.eqb_refl.
Qed.

Lemma sw_probe_struct k : FDT_SW_PROBE_STRUCT k m = k m.
Proof. unfold FDT_SW_PROBE_STRUCT. by erewrite rbind by (by apply rd_eq, sw_probe). Qed.

(** No more than the gap. *)
Lemma grab_none n : Z.of_nat (length gap) < n < 2 ^ 32 -> fdt_grab_space_ n m = Some (None, m).
Proof.
  intros Hn. unfold fdt_grab_space_. erewrite rbind by (by apply rd_eq, sw_ssize). erewrite rbind by (by apply rd_eq, sw_total).
  erewrite rbind by (by apply rd_eq, sw_soff). erewrite rbind by (by apply rd_eq, sw_strsize). destruct Hok as [_ Ht Hs _].
  rewrite (s32_small (Z.of_nat (length body))), s32_small by lia. unfold u64. rewrite !wrap_small by (unfold fits; lia).
  by rewrite (proj2 (Z.ltb_lt (tot - _ - _) _)), orb_true_r by lia.
Qed.
End Sw.

(** Taking the first bytes of the gap. *)
Lemma grab_some flags tot mid body g gap strs rest n : sw_ok flags tot mid body (g ++ gap) strs rest -> n = Z.of_nat (length g) ->
  fdt_grab_space_ n (sw flags tot mid body (g ++ gap) strs rest) =
    Some (Some (40 + Z.of_nat (length mid + length body)), sw flags tot mid (body ++ g) gap strs rest) /\
  sw_ok flags tot mid (body ++ g) gap strs rest.
Proof.
  intros Hok ->. pose proof Hok as [Hf Ht Hs Hb]. rewrite !length_app in Ht.
  assert (Hok' : sw_ok flags tot mid (body ++ g) gap strs rest).
  { split; [done|rewrite length_app; lia|done|]. by rewrite <- !app_assoc in *. }
  split; [|done].
  unfold fdt_grab_space_. erewrite rbind by (by apply rd_eq, sw_ssize). erewrite rbind by (by apply rd_eq, sw_total).
  erewrite rbind by (by apply rd_eq, sw_soff). erewrite rbind by (by apply rd_eq, sw_strsize).
  rewrite (s32_small (Z.of_nat (length body))), s32_small by lia. unfold u64. rewrite !wrap_small by (unfold fits; lia).
  rewrite (proj2 (Z.ltb_ge _ (Z.of_nat (length body)))), (proj2 (Z.ltb_ge (tot - _ - _) _)) by lia. cbn [orb].
  rewrite (rbind _ _ _ tt (sw flags tot mid (body ++ g) gap strs rest)).
  2:{ etrans; [apply (set_word _ 9); simpl; lia|]. cbn [insert list_insert]. unfold sw.
      rewrite length_app, <- !app_assoc. repeat f_equal. lia. }
  erewrite rbind by (apply rd_eq; unfold fdt_offset_ptr_; by rewrite sw_soff). cbn [mbind option_bind].
  unfold mret, RW_ret. do 3 f_equal. lia.
Qed.

Section Write.
Context (flags tot : Z) (mid : list Z).

(** Writing into the structure block. *)
Lemma sw_memcpy A old C gap strs rest bs p n : p = 40 + Z.of_nat (length mid + length A) -> n = Z.of_nat (length old) -> (length old <= length bs)%nat ->
  rw_memcpy p bs n (sw flags tot mid (A ++ old ++ C) gap strs rest) = Some (tt, sw flags tot mid (A ++ take (length old) bs ++ C) gap strs rest).
Proof.
  intros -> Hn Hl. unfold sw. rewrite <- !app_assoc, (app_assoc mid), (app_assoc (words _)).
  rewrite (rw_memcpy_eq _ old); [|rewrite !length_app, length_words; simpl length; lia|done|done].
  rewrite <- !app_assoc. do 2 f_equal. rewrite !length_app, length_take. replace (length old `min` length bs)%nat with (length old) by lia. done.
Qed.

Lemma sw_st32 A old C gap strs rest x p : p = 40 + Z.of_nat (length mid + length A) -> length old = 4%nat ->
  st32 p x (sw flags tot mid (A ++ old ++ C) gap strs rest) = Some (tt, sw flags tot mid (A ++ be32 x ++ C) gap strs rest).
Proof. intros Hp Ho. unfold st32. rewrite sw_memcpy; [by rewrite Ho|done|by rewrite Ho|rewrite Ho; simpl; lia]. Qed.
End Write.

(** * Tokens *)

(** A negative number that is negated at 32 bits keeps its value or changes its
    sign. *)
Lemma s32_neg x : - 2 ^ 32 < x < 0 -> s32 x = x \/ s32 x = x + 2 ^ 32.
Proof.
  intros Hx. unfold s32, signed. assert (E : wrap 32 x = x + 2 ^ 32) by (unfold wrap; symmetry; apply (Zmod_unique _ _ (-1)); lia).
  rewrite E. destruct (_ <? _); lia.
Qed.


(** The offset of a name, from the end of the strings to their start. *)
Definition shift (n : Z) (p : ptok) : ptok := mkPtok (pk p) (p_noff p + n) (p_pad p).

Definition placed (strs : list Z) (p : ptok) : Prop := ptok_ok strs (shift (Z.of_nat (length strs)) p).

(** The tokens [pts] have been written and [n] bytes are left. *)
Definition building (flags tot : Z) (mid rest : list Z) (pts : list ptok) (n : nat) (m : list Z) : Prop :=
  exists gap strs, m = sw flags tot mid (ptoks_bytes pts) gap strs rest /\
    sw_ok flags tot mid (ptoks_bytes pts) gap strs rest /\ Forall (placed strs) pts /\ length gap = n.

(** Names stay where they are, from the end, when a string is put in front. *)
Lemma placed_grow x strs p : placed strs p -> placed (x ++ strs) p.
Proof.
  intros (H1 & H2 & H3). split; [done|]. split; [done|]. cbn [shift pk p_noff] in *. destruct (pk p) as [name| |name value]; [done..|].
  destruct H3 as (Hv & H0 & Hn & Hs). split; [done|]. rewrite length_app. split; [lia|]. split; [done|].
  rewrite drop_app_ge by lia. replace (Z.to_nat _ - length x)%nat with (Z.to_nat (p_noff p + Z.of_nat (length strs))) by lia. done.
Qed.

Lemma tok_size_begin name : 4 + FDT_ALIGN (Z.of_nat (length name) + 1) FDT_TAGSIZE = Z.of_nat (tok_size (TBegin name)).
Proof. pose proof (tok_size_align 0 (TBegin name) eq_refl) as E. cbn [body_size] in E. rewrite align_size. Z.to_euclidean_division_equations. lia. Qed.
Lemma tok_size_prop name value : SIZEOF_PROPERTY + FDT_ALIGN (Z.of_nat (length value)) FDT_TAGSIZE = Z.of_nat (tok_size (TProp name value)).
Proof. pose proof (tok_size_align 0 (TProp name value) eq_refl) as E. cbn [body_size] in E. rewrite align_size. unfold SIZEOF_PROPERTY. Z.to_euclidean_division_equations. lia. Qed.

Lemma terminated_strlen name : name_ok name -> Z.of_nat (length name) < 2 ^ 31 - 16 -> sbi_strlen (name ++ [0]) = Some (Z.of_nat (length name)).
Proof. intros Hn Hl. apply sbi_strlen_spec; [|lia]. split; [done|by exists []]. Qed.

(** Room for a token: its bytes, and its name if it is new. *)
Definition cost (k : stok) : nat := tok_size k + match k with TProp name _ => length name + 1 | _ => 0 end.

(** What can be written: C strings whose lengths are an [int]. *)
Definition stok_w (k : stok) : Prop :=
  match k with
  | TBegin name => name_ok name /\ Z.of_nat (length name) < 2 ^ 31 - 16
  | TEnd => True
  | TProp name value => name_ok name /\ Z.of_nat (length name) < 2 ^ 31 - 16 /\ Forall (fits 8) value /\ Z.of_nat (length value) < 2 ^ 31 - 16
  end.

(** The name of a property that is no shorter than a header with an empty
    reserve map. *)
Definition long_name (k : stok) : Prop := match k with TProp name _ => (64 <= length name)%nat | _ => False end.

(** The result of writing [k] when [n] bytes are left: the token, an error, or an
    access outside of the memory, for which it takes a long name. *)
Definition written (flags tot : Z) (mid rest : list Z) (pts : list ptok) (n : nat) (k : stok) (r : option (Z * list Z)) : Prop :=
  (exists p n' m', r = Some (0, m') /\ pk p = k /\ building flags tot mid rest (pts ++ [p]) n' m' /\ (n' <= n <= n' + cost k)%nat) \/
  (exists m', r = Some (- FDT_ERR_NOSPACE, m') /\ (n < cost k)%nat /\ building flags tot mid rest pts n m') \/
  (r = None /\ (n < cost k)%nat /\ long_name k).

Section Tokens.
Context (flags tot : Z) (mid rest : list Z).
Notation sw := (sw flags tot mid).
Notation sw_ok := (sw_ok flags tot mid).

Lemma sw_length body gap strs : (length (sw body gap strs rest) = 40 + length mid + length body + length gap + length strs + length rest)%nat.
Proof. unfold FdtSw.sw. rewrite !length_app, length_words. simpl length. lia. Qed.

(** Bytes of the gap are bytes. *)
Lemma gap_byte body gap strs : sw_ok body gap strs rest -> Forall (fits 8) gap.
Proof. intros [_ _ _ H]. rewrite !Forall_app in H. tauto. Qed.

(** After a token has been written into the space it was given. *)
Lemma building_tok pts g gap strs p : sw_ok (ptoks_bytes pts ++ g) gap strs rest -> length g = length (ptok_bytes p) ->
  Forall (placed strs) pts -> placed strs p ->
  building flags tot mid rest (pts ++ [p]) (length gap) (sw (ptoks_bytes pts ++ ptok_bytes p) gap strs rest).
Proof.
  intros [H1 H2 H3 H4] Hg Ht Hp. exists gap, strs. rewrite ptoks_bytes_app. change (ptoks_bytes [p]) with (ptok_bytes p ++ []). rewrite app_nil_r.
  split; [done|]. split; [|split; [apply Forall_app; split; [done|by constructor]|done]].
  assert (Hb : Forall (fits 8) (ptok_bytes p)) by (change (ptok_bytes p) with (ptok_bytes (mkPtok (pk p) (p_noff p) (p_pad p)));
    apply ptok_shape_fits; exact (ptok_ok_shape _ _ Hp)).
  rewrite !Forall_app in H4. split; [done|rewrite !length_app in *; lia|done|]. rewrite !Forall_app. tauto.
Qed.

Lemma write_begin pts n m name : building flags tot mid rest pts n m -> stok_w (TBegin name) ->
  written flags tot mid rest pts n (TBegin name) (fdt_begin_node (name ++ [0]) m).
Proof.
  intros (gap & strs & -> & Hok & Ht & Hn) [Hname Hl]. unfold fdt_begin_node. rewrite sw_probe_struct by done.
  erewrite rbind by (apply rd_eq, (terminated_strlen name); done). rewrite s32_small by lia. rewrite tok_size_begin.
  destruct (tok_size_aligned (TBegin name)) as (_ & _ & _ & Hbs). cbn [body_size] in Hbs.
  destruct (decide (length gap < tok_size (TBegin name))%nat) as [Hlt|Hge].
  { right. left. eexists. split; [|split; [unfold cost; lia|by exists gap, strs]]. erewrite rbind by (apply grab_none; [done|lia]). done. }
  left. destruct (split_at gap (tok_size (TBegin name)) (length gap - tok_size (TBegin name)) ltac:(lia)) as (g & gap' & -> & Hg & Hg').
  pose proof (gap_byte _ _ _ Hok) as Hgb. apply Forall_app in Hgb as [Hgb _].
  destruct (grab_some _ _ _ _ _ _ _ _ (Z.of_nat (tok_size (TBegin name))) Hok ltac:(lia)) as [E Hok']. erewrite rbind by exact E.
  destruct (split_at g 4 (tok_size (TBegin name) - 4) ltac:(lia)) as (a & b & -> & Ha & Hb).
  destruct (split_at b (length name + 1) (tok_size (TBegin name) - 4 - (length name + 1)) ltac:(lia)) as (b1 & b2 & -> & Hb1 & Hb2).
  erewrite rbind by (apply sw_st32; [lia|done]). rewrite (app_assoc (ptoks_bytes pts)).
  erewrite rbind by (apply sw_memcpy; [rewrite length_app; simpl length; lia|lia|rewrite length_app; simpl; lia]).
  rewrite <- app_assoc, Hb1. rewrite (take_ge (name ++ [0])) by (rewrite length_app; simpl; lia).
  exists (mkPtok (TBegin name) 0 b2), (length gap'). eexists. split; [reflexivity|]. split; [done|]. split; [|unfold cost; rewrite length_app in Hn; lia].
  replace (be32 FDT_BEGIN_NODE ++ (name ++ [0]) ++ b2) with (ptok_bytes (mkPtok (TBegin name) 0 b2)) by (unfold ptok_bytes; cbn; by rewrite <- app_assoc).
  rewrite !Forall_app in Hgb. destruct Hgb as (_ & _ & Hgb).
  eapply building_tok; [exact Hok'| |done|].
  - unfold ptok_bytes. cbn [pk p_pad]. rewrite !length_app, Ha, Hb1. simpl length. lia.
  - split; [|done]. cbn [shift pk p_pad]. unfold tok_size in *. cbn [body_size] in *. lia.
Qed.

Lemma write_end pts n m : building flags tot mid rest pts n m -> written flags tot mid rest pts n TEnd (fdt_end_node m).
Proof.
  intros (gap & strs & -> & Hok & Ht & Hn). unfold fdt_end_node. rewrite sw_probe_struct by done. unfold FDT_TAGSIZE.
  destruct (decide (length gap < 4)%nat) as [Hlt|Hge].
  { right. left. eexists. split; [|split; [unfold cost; change (tok_size TEnd) with 4%nat; lia|by exists gap, strs]]. erewrite rbind by (apply grab_none; [done|lia]). done. }
  left. destruct (split_at gap 4 (length gap - 4) ltac:(lia)) as (g & gap' & -> & Hg & Hg').
  destruct (grab_some _ _ _ _ _ _ _ _ 4 Hok ltac:(lia)) as [E Hok']. erewrite rbind by exact E.
  rewrite <- (app_nil_r (ptoks_bytes pts ++ g)), <- app_assoc.
  erewrite rbind by (apply sw_st32; [lia|done]).
  exists (mkPtok TEnd 0 []), (length gap'). eexists. split; [reflexivity|]. split; [done|].
  split; [|unfold cost; change (tok_size TEnd) with 4%nat; rewrite length_app in Hn; lia].
  change (be32 FDT_END_NODE ++ []) with (ptok_bytes (mkPtok TEnd 0 [])). eapply building_tok; [exact Hok'|done|done|]. by repeat constructor.
Qed.

(** ** Names *)

Context (Hmid : (24 <= length mid)%nat).

Lemma sw_from_strings body gap strs : sw_ok body gap strs rest ->
  from (sw body gap strs rest) (tot - Z.of_nat (length strs)) = strs ++ rest.
Proof.
  intros [_ Ht _ _]. unfold from. rewrite (proj2 (Z.ltb_ge _ 0)) by lia. unfold FdtSw.sw. rewrite !app_assoc, <- (app_assoc _ strs rest).
  apply drop_app_length'. rewrite !length_app, length_words. simpl length. lia.
Qed.

(** A new string in front of the others, if there is room. *)
Lemma add_string_none body gap strs name : sw_ok body gap strs rest -> name_ok name -> Z.of_nat (length name) < 2 ^ 31 - 16 ->
  Z.of_nat (length strs + length name + 1) <= tot -> (length gap < length name + 1)%nat ->
  fdt_add_string_ (name ++ [0]) (sw body gap strs rest) = Some (0, sw body gap strs rest).
Proof.
  intros Hok Hn Hnl Hl Hg. unfold fdt_add_string_. erewrite rbind by (by apply rd_eq, sw_total). erewrite rbind by (by apply rd_eq, sw_strsize).
  erewrite rbind by (apply rd_eq, (terminated_strlen name); [done|lia]). erewrite rbind by (by apply rd_eq, sw_soff). erewrite rbind by (by apply rd_eq, sw_ssize).
  destruct Hok as [_ Ht Hs _]. rewrite (s32_small (Z.of_nat (length strs))), (s32_small (Z.of_nat (length name) + 1)), !s32_small by lia.
  unfold u32. rewrite !wrap_small by (unfold fits; lia). by rewrite (proj2 (Z.ltb_lt _ _)) by lia.
Qed.

(** The room is compared without sign: a name that is longer than the buffer
    passes for one that fits, and is written in front of the buffer. *)
Lemma add_string_outside body gap strs name : sw_ok body gap strs rest -> name_ok name ->
  tot < Z.of_nat (length strs + length name + 1) -> Z.of_nat (length name) < 2 ^ 31 - 16 -> fdt_add_string_ (name ++ [0]) (sw body gap strs rest) = None.
Proof.
  intros Hok Hn Hg Hl. unfold fdt_add_string_. erewrite rbind by (by apply rd_eq, sw_total). erewrite rbind by (by apply rd_eq, sw_strsize).
  erewrite rbind by (apply rd_eq, (terminated_strlen name); [done|lia]). erewrite rbind by (by apply rd_eq, sw_soff). erewrite rbind by (by apply rd_eq, sw_ssize).
  pose proof (sw_length body gap strs) as Hm. destruct Hok as [_ Ht Hs _]. rewrite (s32_small (Z.of_nat (length strs))), (s32_small (Z.of_nat (length name) + 1)) by lia.
  set (x := - Z.of_nat (length strs) - (Z.of_nat (length name) + 1)). assert (Hx : s32 x = x \/ s32 x = x + 2 ^ 32) by (apply s32_neg; unfold x; lia).
  assert (Eu : u32 (tot + s32 x) = tot + x + 2 ^ 32).
  { unfold u32, wrap. symmetry. destruct Hx as [-> | ->]; [apply (Zmod_unique _ _ (-1))|apply (Zmod_unique _ _ 0)]; unfold x; lia. }
  rewrite Eu, (s32_small (40 + _ + _)) by lia. unfold u32. rewrite wrap_small by (unfold fits; lia). rewrite (proj2 (Z.ltb_ge _ _)) by (unfold x; lia).
  apply rbind_none. unfold rw_memcpy, inside. destruct Hx as [-> | ->].
  - rewrite (proj2 (Z.leb_gt 0 (tot + x))) by (unfold x; lia). by rewrite andb_false_r.
  - rewrite (proj2 (Z.leb_gt (tot + (x + 2 ^ 32) + _) _)) by (rewrite Hm; unfold x; lia). by rewrite andb_false_r.
Qed.

Lemma add_string_some body gap x strs name : sw_ok body (gap ++ x) strs rest -> name_ok name -> length x = (length name + 1)%nat ->
  fdt_add_string_ (name ++ [0]) (sw body (gap ++ x) strs rest) =
    Some (- Z.of_nat (length ((name ++ [0]) ++ strs)), sw body gap ((name ++ [0]) ++ strs) rest) /\
  sw_ok body gap ((name ++ [0]) ++ strs) rest.
Proof.
  intros Hok Hn Hx. pose proof Hok as [Hf Ht Hs Hb]. rewrite !length_app in Ht. split.
  2:{ split; [done|rewrite !length_app; simpl length; lia|done|]. rewrite !Forall_app in *. repeat split; try tauto; [by apply name_ok_fits|].
      constructor; [unfold fits; lia|constructor]. }
  unfold fdt_add_string_. erewrite rbind by (by apply rd_eq, sw_total). erewrite rbind by (by apply rd_eq, sw_strsize).
  erewrite rbind by (apply rd_eq, (terminated_strlen name); [done|lia]). erewrite rbind by (by apply rd_eq, sw_soff). erewrite rbind by (by apply rd_eq, sw_ssize).
  rewrite (s32_small (Z.of_nat (length strs))), (s32_small (Z.of_nat (length name) + 1)), !s32_small by lia.
  unfold u32. rewrite !wrap_small by (unfold fits; lia). rewrite (proj2 (Z.ltb_ge _ _)) by lia.
  rewrite (rbind _ _ _ tt (words [FDT_SW_MAGIC; tot; 40 + Z.of_nat (length mid); tot; 48; 17; flags; 0; Z.of_nat (length strs); Z.of_nat (length body)]
    ++ mid ++ body ++ gap ++ (name ++ [0]) ++ strs ++ rest)).
  2:{ unfold FdtSw.sw. rewrite <- (app_assoc gap x), (app_assoc body), (app_assoc mid), (app_assoc (words _)).
      rewrite (rw_memcpy_eq _ x); [|rewrite !length_app, length_words; simpl length; lia|lia|rewrite length_app; simpl; lia].
      rewrite take_ge by (rewrite length_app; simpl; lia). by rewrite <- !app_assoc. }
  rewrite (rbind _ _ _ tt (sw body gap ((name ++ [0]) ++ strs) rest)).
  2:{ etrans; [apply (set_word _ 8); simpl; lia|]. cbn [insert list_insert]. unfold FdtSw.sw. rewrite !length_app. cbn [length].
      rewrite <- !app_assoc. repeat f_equal. lia. }
  unfold mret, RW_ret. do 2 f_equal. rewrite !length_app. cbn [length]. lia.
Qed.

(** The name of a property: already there, added, or no room, which is reported
    or, for a long name, missed. *)
Definition named (body gap strs name : list Z) (r : option (Z * bool * list Z)) : Prop :=
  (r = Some (0, true, sw body gap strs rest) /\ (length gap < length name + 1)%nat) \/
  (r = None /\ (length gap < length name + 1)%nat /\ (64 <= length name)%nat) \/
  exists gap' x nameoff, r = Some (nameoff, bool_decide (x <> []), sw body gap' (x ++ strs) rest) /\ sw_ok body gap' (x ++ strs) rest /\
    nameoff <> 0 /\ name_at (x ++ strs) (nameoff + Z.of_nat (length (x ++ strs))) name /\
    length gap = (length gap' + length x)%nat /\ (x = [] \/ x = name ++ [0]).

Lemma add_string_named body gap strs name : sw_ok body gap strs rest -> name_ok name -> Z.of_nat (length name) < 2 ^ 31 - 16 ->
  named body gap strs name ((nameoff ← fdt_add_string_ (name ++ [0]); mret (nameoff, true)) (sw body gap strs rest)).
Proof.
  intros Hok Hn Hl. destruct (decide (length gap < length name + 1)%nat) as [Hlt|Hge].
  { pose proof Hok as [_ Ht _ _]. destruct (decide (Z.of_nat (length strs + length name + 1) <= tot)) as [Hle|Hgt].
    - left. split; [|done]. by erewrite rbind by (by apply add_string_none).
    - right. left. split; [|lia]. apply rbind_none, add_string_outside; done || lia. }
  right. right. destruct (split_at gap (length gap - (length name + 1)) (length name + 1) ltac:(lia)) as (gap' & x & -> & Hg & Hx).
  destruct (add_string_some _ _ _ _ _ Hok Hn Hx) as [E Hok']. exists gap', (name ++ [0]). eexists. erewrite rbind by exact E.
  split; [by rewrite bool_decide_eq_true_2 by (by destruct name)|]. split; [done|]. rewrite !length_app. cbn [length].
  split; [lia|]. split; [|split; [lia|by right]]. split; [lia|]. split; [done|]. replace (Z.to_nat _) with 0%nat by lia. by exists strs.
Qed.

Lemma find_add_string_named body gap strs name : sw_ok body gap strs rest -> name_ok name -> Z.of_nat (length name) < 2 ^ 31 - 16 ->
  named body gap strs name (sw_find_add_string_ (name ++ [0]) (sw body gap strs rest)).
Proof.
  intros Hok Hn Hl. unfold sw_find_add_string_. erewrite rbind by (by apply rd_eq, sw_total). erewrite rbind by (by apply rd_eq, sw_strsize).
  pose proof Hok as [_ Ht Hs _]. rewrite s32_small by lia.
  erewrite rbind.
  2:{ apply rd_eq. rewrite sw_from_strings by done. unfold fdt_find_string_. rewrite (terminated_strlen name) by (done || lia). cbn [mbind option_bind].
      rewrite s32_small by lia. pose proof (find_string_loop_eq (name ++ [0]) rest strs [] (S (length (strs ++ rest)))) as E.
      cbn [app length Nat.add] in E. rewrite !length_app in E. cbn [length] in E. rewrite length_app.
      replace (Z.of_nat (length name) + 1) with (Z.of_nat (length name + 1)) by lia. apply E; [by destruct name|lia]. }
  destruct (find_sub (name ++ [0]) strs) as [k|] eqn:Ef; cbn [fmap option_fmap option_map].
  2:{ by apply add_string_named. }
  apply find_sub_some in Ef as [r Hr]. assert (Hk : (k + length name + 1 <= length strs)%nat).
  { apply (f_equal length) in Hr. rewrite length_drop, !length_app in Hr. cbn [length] in Hr. lia. }
  right. right. exists gap, []. eexists. split; [reflexivity|]. split; [done|]. rewrite s32_small by lia. cbn [app]. split; [lia|].
  split; [|split; [simpl; lia|by left]]. split; [lia|]. split; [done|]. replace (Z.to_nat _) with k by lia. by exists r.
Qed.

(** Taking back the last string. *)
Lemma del_last_string body gap strs name : sw_ok body gap ((name ++ [0]) ++ strs) rest -> name_ok name ->
  sw_del_last_string_ (name ++ [0]) (sw body gap ((name ++ [0]) ++ strs) rest) = Some (tt, sw body (gap ++ name ++ [0]) strs rest).
Proof.
  intros Hok Hn. unfold sw_del_last_string_. pose proof Hok as [_ Ht Hs _]. rewrite !length_app in Ht. cbn [length] in Ht.
  erewrite rbind by (by apply rd_eq, sw_strsize). erewrite rbind by (apply rd_eq, (terminated_strlen name); [done|lia]).
  etrans; [apply (set_word _ 8); simpl; lia|]. cbn [insert list_insert]. rewrite !length_app. cbn [length].
  rewrite !s32_small by lia. unfold FdtSw.sw. rewrite <- !app_assoc. repeat f_equal. lia.
Qed.

(** Filling in a property in the space it was given: the header, then the value. *)
Lemma fill_prop {B} (ret : B) body g gap strs name value nameoff : length g = tok_size (TProp name value) ->
  exists pd m', (exists b, g = b ++ pd) /\ length pd = length (pad (body_size (TProp name value))) /\
  let prop := 40 + Z.of_nat (length mid + length body) in
  (st32 prop FDT_PROP;; st32 (prop + 8) nameoff;; st32 (prop + 4) (Z.of_nat (length value));; mret ret) (sw (body ++ g) gap strs rest) = Some (ret, m') /\
  rw_memcpy (prop + SIZEOF_PROPERTY) value (Z.of_nat (length value)) m' =
    Some (tt, sw (body ++ ptok_bytes (mkPtok (TProp name value) nameoff pd)) gap strs rest).
Proof.
  unfold tok_size. set (P := length (pad _)). cbn [body_size]. intros Hg.
  destruct (split_at g 4 (8 + length value + P) ltac:(lia)) as (a & g1 & -> & Ha & H1).
  destruct (split_at g1 4 (4 + length value + P) H1) as (b & g2 & -> & Hb & H2).
  destruct (split_at g2 4 (length value + P) H2) as (c & g3 & -> & Hc & H3).
  destruct (split_at g3 (length value) P H3) as (v & pd & -> & Hv & H4).
  exists pd. eexists. split; [exists (a ++ b ++ c ++ v); by rewrite <- !app_assoc|]. split; [done|]. cbv zeta. unfold SIZEOF_PROPERTY. split.
  - erewrite rbind by (apply sw_st32; [lia|done]).
    replace (body ++ be32 FDT_PROP ++ b ++ c ++ v ++ pd) with ((body ++ be32 FDT_PROP ++ b) ++ c ++ v ++ pd) by (by rewrite <- !app_assoc).
    erewrite rbind by (apply sw_st32; [rewrite !length_app; simpl length; lia|done]).
    replace ((body ++ be32 FDT_PROP ++ b) ++ be32 nameoff ++ v ++ pd) with ((body ++ be32 FDT_PROP) ++ b ++ be32 nameoff ++ v ++ pd) by (by rewrite <- !app_assoc).
    erewrite rbind by (apply sw_st32; [rewrite !length_app; simpl length; lia|done]). reflexivity.
  - set (lv := be32 (Z.of_nat (length value))).
    replace ((body ++ be32 FDT_PROP) ++ lv ++ be32 nameoff ++ v ++ pd) with ((body ++ be32 FDT_PROP ++ lv ++ be32 nameoff) ++ v ++ pd) by (by rewrite <- !app_assoc).
    rewrite sw_memcpy; [|rewrite !length_app; simpl length; lia|by rewrite Hv|lia].
    rewrite Hv, firstn_all. unfold ptok_bytes. cbn [pk p_noff p_pad]. by rewrite <- !app_assoc.
Qed.

(** The name of a property, by either way. *)
Lemma name_named body gap strs name : sw_ok body gap strs rest -> name_ok name -> Z.of_nat (length name) < 2 ^ 31 - 16 ->
  named body gap strs name ((if nz (flags .& FDT_CREATE_FLAG_NO_NAME_DEDUP)
                             then nameoff ← fdt_add_string_ (name ++ [0]); mret (nameoff, true)
                             else sw_find_add_string_ (name ++ [0])) (sw body gap strs rest)).
Proof. intros. destruct (nz _); [by apply add_string_named|by apply find_add_string_named]. Qed.

(** No room for a property, after its name has been added: the name is taken back. *)
Lemma undo_name body gap x strs name : sw_ok body gap (x ++ strs) rest -> name_ok name -> x = [] \/ x = name ++ [0] ->
  ((if bool_decide (x <> []) then sw_del_last_string_ (name ++ [0]) else mret tt);; mret (- FDT_ERR_NOSPACE, @None Z)) (sw body gap (x ++ strs) rest) =
    Some (- FDT_ERR_NOSPACE, None, sw body (gap ++ x) strs rest) /\ sw_ok body (gap ++ x) strs rest.
Proof.
  intros Hok Hn Hx. split.
  - destruct Hx as [-> | ->]; [by rewrite app_nil_r|]. rewrite bool_decide_eq_true_2 by (by destruct name).
    by erewrite rbind by (by apply del_last_string).
  - destruct Hok as [H1 H2 H3 H4]. split; [done|rewrite !length_app in *; lia|done|by rewrite <- !app_assoc in *].
Qed.

Lemma placeholder_name body gap strs name len nameoff allocated m1 : sw_ok body gap strs rest ->
  (if nz (flags .& FDT_CREATE_FLAG_NO_NAME_DEDUP)
   then nameoff ← fdt_add_string_ name; mret (nameoff, true) else sw_find_add_string_ name) (sw body gap strs rest) = Some (nameoff, allocated, m1) ->
  fdt_property_placeholder name len (sw body gap strs rest) =
  (if nameoff =? 0 then mret (- FDT_ERR_NOSPACE, None)
   else
     prop ← fdt_grab_space_ (SIZEOF_PROPERTY + FDT_ALIGN len FDT_TAGSIZE);
     match prop with
     | None => (if allocated : bool then sw_del_last_string_ name else mret tt);; mret (- FDT_ERR_NOSPACE, None)
     | Some prop => st32 prop FDT_PROP;; st32 (prop + 8) nameoff;; st32 (prop + 4) len;; mret (0, Some (prop + SIZEOF_PROPERTY))
     end) m1.
Proof.
  intros Hok E. unfold fdt_property_placeholder. erewrite rbind by (by apply rd_eq, sw_probe). change (nz 0) with false. cbv iota.
  erewrite rbind by (by apply rd_eq, sw_flags_eq). by erewrite rbind by exact E.
Qed.

Lemma placeholder_none body gap strs name len : sw_ok body gap strs rest ->
  (if nz (flags .& FDT_CREATE_FLAG_NO_NAME_DEDUP)
   then nameoff ← fdt_add_string_ name; mret (nameoff, true) else sw_find_add_string_ name) (sw body gap strs rest) = None ->
  fdt_property_placeholder name len (sw body gap strs rest) = None.
Proof.
  intros Hok E. unfold fdt_property_placeholder. erewrite rbind by (by apply rd_eq, sw_probe). change (nz 0) with false. cbv iota.
  erewrite rbind by (by apply rd_eq, sw_flags_eq). by apply rbind_none.
Qed.

Lemma write_prop pts n m name value : building flags tot mid rest pts n m -> stok_w (TProp name value) ->
  written flags tot mid rest pts n (TProp name value) (fdt_property (name ++ [0]) value (Z.of_nat (length value)) m).
Proof.
  intros (gap & strs & -> & Hok & Ht & Hn) (Hname & Hl & Hval & Hvl). unfold fdt_property. set (k := TProp name value).
  assert (Hc : cost k = (tok_size k + (length name + 1))%nat) by done. destruct (tok_size_aligned k) as (_ & _ & _ & Hbs). cbn [body_size k] in Hbs.
  destruct (name_named _ _ _ _ Hok Hname Hl) as [[E Hg]|[(E & Hg & H64)|(gap' & x & nameoff & E & Hok' & Hnz & Hat & Hlen & Hx)]].
  2:{ right. right. split; [|split; [lia|done]]. by apply rbind_none, placeholder_none. }
  { right. left. eexists. split; [|split; [lia|by exists gap, strs]]. erewrite rbind.
    2:{ rewrite (placeholder_name _ _ _ _ _ _ _ _ Hok E). reflexivity. }
    done. }
  assert (Hxl : (length x <= length name + 1)%nat) by (destruct Hx as [-> | ->]; rewrite ?length_app; simpl; lia).
  destruct (decide (length gap' < tok_size k)%nat) as [Hlt|Hge].
  { destruct (undo_name _ _ _ _ _ Hok' Hname Hx) as [Eu Hoku]. right. left. eexists. split; [|split; [lia|exists (gap' ++ x), strs; rewrite length_app; split; [reflexivity|by rewrite <- Hlen]]].
    erewrite rbind.
    2:{ rewrite (placeholder_name _ _ _ _ _ _ _ _ Hok E), (proj2 (Z.eqb_neq nameoff 0) Hnz), (tok_size_prop name).
        erewrite rbind by (apply grab_none; [done|fold k; lia]). exact Eu. }
    done. }
  left. destruct (split_at gap' (tok_size k) (length gap' - tok_size k) ltac:(lia)) as (g & gap2 & -> & Hg & Hg2).
  pose proof (gap_byte _ _ _ Hok') as Hgb. apply Forall_app in Hgb as [Hgb _].
  destruct (grab_some _ _ _ _ _ _ _ _ (Z.of_nat (tok_size k)) Hok' ltac:(lia)) as [Eg Hokg].
  destruct (fill_prop (0, Some (40 + Z.of_nat (length mid + length (ptoks_bytes pts)) + SIZEOF_PROPERTY)) (ptoks_bytes pts) g gap2 (x ++ strs) name value nameoff Hg)
    as (pd & m' & [b Hpd] & Hpl & E1 & E2).
  exists (mkPtok k nameoff pd), (length gap2). eexists. split; [|split; [done|split]].
  - erewrite rbind.
    2:{ rewrite (placeholder_name _ _ _ _ _ _ _ _ Hok E), (proj2 (Z.eqb_neq nameoff 0) Hnz), (tok_size_prop name). erewrite rbind by exact Eg. exact E1. }
    cbv beta iota. change (nz 0) with false. cbv iota. cbn [deref]. by erewrite rbind by exact E2.
  - eapply building_tok; [exact Hokg| | |].
    + etrans; [exact Hg|]. symmetry. apply (ptok_shape_length (mkPtok k nameoff pd)). split; [done|]. split; [|done]. rewrite Hpd in Hgb. by apply Forall_app in Hgb as [_ ?].
    + eapply Forall_impl; [exact Ht|]. intros p. apply placed_grow.
    + split; [done|]. split; [|by split]. cbn [shift p_pad]. rewrite Hpd in Hgb. by apply Forall_app in Hgb as [_ ?].
  - rewrite length_app in Hlen. lia.
Qed.

Lemma write_tok_spec pts n m k : building flags tot mid rest pts n m -> stok_w k -> written flags tot mid rest pts n k (write_tok k m).
Proof. intros Hb Hk. destruct k; [by apply write_begin|by apply write_end|by apply write_prop]. Qed.

Lemma then_ok f k m m' : f m = Some (0, m') -> then_ f k m = k m'.
Proof. intros E. unfold then_. by erewrite rbind by exact E. Qed.
Lemma then_err f k m e m' : f m = Some (e, m') -> nz e = true -> then_ f k m = Some (e, m').
Proof. intros E He. unfold then_. erewrite rbind by exact E. by rewrite He. Qed.
Lemma then_none f k m : f m = None -> then_ f k m = None.
Proof. apply rbind_none. Qed.

Definition costs (l : list stok) : nat := list_sum (map cost l).

Lemma write_toks_spec l : forall pts n m, building flags tot mid rest pts n m -> Forall stok_w l ->
  (exists ps n' m', write_toks l m = Some (0, m') /\ map pk ps = l /\ building flags tot mid rest (pts ++ ps) n' m' /\ (n <= n' + costs l)%nat) \/
  (exists ps n' m', write_toks l m = Some (- FDT_ERR_NOSPACE, m') /\ building flags tot mid rest (pts ++ ps) n' m' /\ (n < costs l)%nat) \/
  (write_toks l m = None /\ (n < costs l)%nat /\ Exists long_name l).
Proof.
  induction l as [|k l IH]; intros pts n m Hb Hl.
  { left. exists [], n, m. rewrite app_nil_r. split; [done|]. split; [done|]. split; [done|]. unfold costs. simpl. lia. }
  apply Forall_cons in Hl as [Hk Hl]. change (costs (k :: l)) with (cost k + costs l)%nat. cbn [write_toks].
  destruct (write_tok_spec _ _ _ _ Hb Hk) as [(p & n' & m' & E & Ep & Hb' & Hn)|[(m' & E & Hn & Hb')|(E & Hn & Hlong)]].
  - rewrite (then_ok _ _ _ _ E).
    destruct (IH _ _ _ Hb' Hl) as [(ps & n2 & m2 & E2 & Eps & Hb2 & Hn2)|[(ps & n2 & m2 & E2 & Hb2 & Hn2)|(E2 & Hn2 & Hlong)]]; [rewrite <- app_assoc in Hb2..|].
    + left. exists (p :: ps), n2, m2. split; [done|]. split; [by simpl; rewrite Ep, Eps|]. split; [done|]. lia.
    + right. left. exists (p :: ps), n2, m2. split; [done|]. split; [done|]. lia.
    + right. right. split; [done|]. split; [lia|]. by right.
  - right. left. exists [], n, m'. rewrite (then_err _ _ _ _ _ E eq_refl), app_nil_r. split; [done|]. split; [done|]. lia.
  - right. right. split; [by apply then_none|]. split; [lia|]. by left.
Qed.
End Tokens.
