(* ===== verification/FdtWrite.v ===== *)
(** A tree that is written from front to back: what [fdt_finish] makes of the
    buffer, what creating it starts from, and that the reader finds the tree and
    the reserved regions that were written. *)

From S2P Require Import Prelude Cstring Fdt FdtTag FdtTree FdtImage FdtEncode FdtRw FdtEdit FdtSw.

(** * Finishing *)

Lemma be32_period x q : be32 (x + 2 ^ 32 * q) = be32 x.
Proof.
  unfold be32. replace ((x + 2 ^ 32 * q) / 2 ^ 24) with (x / 2 ^ 24 + q * 256) by (Z.to_euclidean_division_equations; lia).
  replace ((x + 2 ^ 32 * q) / 2 ^ 16) with (x / 2 ^ 16 + q * 256 * 256) by (Z.to_euclidean_division_equations; lia).
  replace ((x + 2 ^ 32 * q) / 2 ^ 8) with (x / 2 ^ 8 + q * 256 * 256 * 256) by (Z.to_euclidean_division_equations; lia).
  replace (x + 2 ^ 32 * q) with (x + q * 256 * 256 * 256 * 256) by lia. by rewrite !Z.mod_add by lia.
Qed.

Lemma be32_u32 x n : be32 (u32 x + n) = be32 (x + n).
Proof. unfold u32, wrap. rewrite Z.mod_eq by lia. rewrite <- (be32_period _ (x / 2 ^ 32)). f_equal. lia. Qed.

Lemma be32_ld_u32 x r : fdt32_ld (be32 x ++ r) = Some (u32 x).
Proof.
  replace (be32 x) with (be32 (u32 x)) by (rewrite <- (Z.add_0_r (u32 x)), be32_u32; by rewrite Z.add_0_r).
  apply be32_ld. apply wrap_fits. lia.
Qed.

Section Finish.
Context (flags : Z) (mid strs rest : list Z).

(** The strings behind the structure block; the header as it is changed. *)
Definition fin (magic tot lc : Z) (pts : list ptok) : list Z :=
  words [magic; tot; 40 + Z.of_nat (length mid); 40 + Z.of_nat (length mid + length (struct_block pts)); 48; 17; lc; 0;
         Z.of_nat (length strs); Z.of_nat (length (struct_block pts))] ++ mid ++ struct_block pts ++ strs ++ rest.

Record fin_ok (tot lc : Z) (pts : list ptok) : Prop := {
  fin_lc : 0 <= lc <= 17;
  fin_fits : 40 + Z.of_nat (length mid + length (struct_block pts) + length strs) <= tot;
  fin_inside : tot <= 40 + Z.of_nat (length mid + length (struct_block pts) + length strs + length rest);
  fin_small : 40 + Z.of_nat (length mid + length (struct_block pts) + length strs + length rest) < 2 ^ 31 - 8;
  fin_bytes : Forall (fits 8) (mid ++ strs ++ rest);
  fin_shape : Forall ptok_shape pts
}.

Lemma fin_word magic tot lc pts i x :
  [magic; tot; 40 + Z.of_nat (length mid); 40 + Z.of_nat (length mid + length (struct_block pts)); 48; 17; lc; 0;
   Z.of_nat (length strs); Z.of_nat (length (struct_block pts))] !! i = Some x ->
  fits 32 x -> fdt_get_header (fin magic tot lc pts) (4 * Z.of_nat i) = Some x.
Proof. apply header_word. Qed.

Section Fields.
Context (magic tot lc : Z) (pts : list ptok) (Hok : fin_ok tot lc pts).
Notation m := (fin magic tot lc pts).

Ltac word i := destruct Hok; apply (fin_word magic tot lc pts i); [reflexivity|unfold fits; lia].

Lemma fin_total : fdt_totalsize m = Some tot.  Proof. word 1%nat. Qed.
Lemma fin_soff : fdt_off_dt_struct m = Some (40 + Z.of_nat (length mid)).  Proof. word 2%nat. Qed.
Lemma fin_stroff : fdt_off_dt_strings m = Some (40 + Z.of_nat (length mid + length (struct_block pts))).  Proof. word 3%nat. Qed.
Lemma fin_rsvoff : fdt_off_mem_rsvmap m = Some 48.  Proof. word 4%nat. Qed.
Lemma fin_vers : fdt_version m = Some 17.  Proof. word 5%nat. Qed.
Lemma fin_last : fdt_last_comp_version m = Some lc.  Proof. word 6%nat. Qed.
Lemma fin_strsize : fdt_size_dt_strings m = Some (Z.of_nat (length strs)).  Proof. word 8%nat. Qed.
Lemma fin_ssize : fdt_size_dt_struct m = Some (Z.of_nat (length (struct_block pts))).  Proof. word 9%nat. Qed.

Lemma fin_length : length m = (40 + length mid + length (struct_block pts) + length strs + length rest)%nat.
Proof. unfold fin. rewrite !length_app, length_words. simpl length. lia. Qed.

Lemma words_fits l : Forall (fits 8) (words l).
Proof. apply Forall_concat, Forall_fmap, Forall_forall. intros x _. apply be32_fits. Qed.

Lemma fin_valid : valid m.
Proof.
  pose proof fin_length as Hl. pose proof fin_total as Et. destruct Hok as [_ Hf Hi Hs Hb Hsh]. rewrite !Forall_app in Hb.
  split; [lia| |rewrite Et; cbn [default from_option id]; lia|lia].
  unfold fin, struct_block. rewrite !Forall_app. repeat split; try tauto; [apply words_fits|by apply ptoks_fits|apply be32_fits].
Qed.

Lemma fin_block l1 p l2 : pts = l1 ++ p :: l2 -> block_at m (Z.of_nat (toks_size (map pk l1))) (ptok_bytes p).
Proof.
  intros Ep. pose proof (fin_shape _ _ _ Hok) as Hsh. unfold block_at, soff, ssize. rewrite fin_soff, fin_ssize. cbn [default from_option id].
  rewrite Ep in Hsh. apply Forall_app in Hsh as [Hs1 _].
  assert (Es : struct_block pts = ptoks_bytes l1 ++ ptok_bytes p ++ struct_block l2) by (rewrite Ep; apply struct_block_split).
  split; [|rewrite Es, !length_app, (ptoks_shape_length l1) by done; lia].
  unfold from. rewrite (proj2 (Z.ltb_ge _ 0)) by lia. unfold fin. rewrite Es at 3. rewrite <- !app_assoc, (app_assoc mid), (app_assoc (words _)).
  rewrite drop_app_length'; [by eexists|]. rewrite !length_app, length_words, (ptoks_shape_length l1) by done. simpl length. lia.
Qed.
End Fields.

Definition fixed (p : ptok) : ptok := shift (Z.of_nat (length strs)) p.

Lemma fixed_shape p : ptok_shape p -> ptok_shape (fixed p).
Proof. done. Qed.

Lemma struct_shape_length pts : Forall ptok_shape pts -> length (struct_block pts) = (toks_size (map pk pts) + 4)%nat.
Proof. intros H. unfold struct_block. by rewrite length_app, ptoks_shape_length. Qed.

Lemma fixed_length l1 p l2 : Forall ptok_shape (l1 ++ p :: l2) -> length (struct_block (l1 ++ fixed p :: l2)) = length (struct_block (l1 ++ p :: l2)).
Proof. intros H. rewrite !struct_shape_length, !map_app by (rewrite ?Forall_app, ?Forall_cons in *; tauto). done. Qed.

Lemma fin_ok_fixed tot lc l1 p l2 : fin_ok tot lc (l1 ++ p :: l2) -> fin_ok tot lc (l1 ++ fixed p :: l2).
Proof.
  intros [H1 H2 H3 H4 H5 H6]. assert (H6' : Forall ptok_shape (l1 ++ fixed p :: l2)) by (rewrite Forall_app, Forall_cons in *; tauto).
  by split; rewrite ?(fixed_length _ _ _ H6).
Qed.

Lemma fin_fixed_same magic tot lc l1 p l2 : fin_ok tot lc (l1 ++ p :: l2) -> tok_tag (pk p) <> FDT_PROP ->
  fin magic tot lc (l1 ++ fixed p :: l2) = fin magic tot lc (l1 ++ p :: l2).
Proof.
  intros Hok Hk. unfold fin. rewrite (fixed_length _ _ _ (fin_shape _ _ _ Hok)), !struct_block_split. unfold ptok_bytes. cbn [fixed shift pk p_pad].
  by destruct (pk p).
Qed.

(** Correcting the name offset of one property. *)
Lemma fix_prop magic tot lc l1 p l2 name value : fin_ok tot lc (l1 ++ p :: l2) -> pk p = TProp name value ->
  let m := fin magic tot lc (l1 ++ p :: l2) in
  (prop ← rd (fun fdt => fdt_offset_ptr_ fdt (Z.of_nat (toks_size (map pk l1))));
   nameoff ← rd (fun fdt => fdt32_ld (from fdt (prop + 8))); size ← rd fdt_size_dt_strings; st32 (prop + 8) (nameoff + size)) m =
  Some (tt, fin magic tot lc (l1 ++ fixed p :: l2)).
Proof.
  intros Hok Ek. cbv zeta. pose proof (fin_shape _ _ _ Hok) as Hsh. apply Forall_app in Hsh as [Hs1 _].
  set (o := Z.of_nat (toks_size (map pk l1))). assert (Hl1 : length (ptoks_bytes l1) = toks_size (map pk l1)) by (by apply ptoks_shape_length).
  assert (Em : exists A C, length A = (40 + length mid + toks_size (map pk l1) + 8)%nat /\
    fin magic tot lc (l1 ++ p :: l2) = A ++ be32 (p_noff p) ++ C /\ fin magic tot lc (l1 ++ fixed p :: l2) = A ++ be32 (p_noff p + Z.of_nat (length strs)) ++ C).
  { unfold fin. rewrite (fixed_length _ _ _ (fin_shape _ _ _ Hok)). generalize (length (struct_block (l1 ++ p :: l2))). intros sz. rewrite !struct_block_split.
    unfold ptok_bytes. cbn [fixed shift pk p_noff p_pad]. rewrite Ek. set (h := words _).
    exists (h ++ mid ++ ptoks_bytes l1 ++ be32 FDT_PROP ++ be32 (Z.of_nat (length value))). eexists.
    split; [|split; rewrite <- !app_assoc; reflexivity]. subst h. rewrite !length_app, length_words. simpl length. lia. }
  pose proof (fin_soff magic _ _ _ Hok) as Eso. pose proof (fin_strsize magic _ _ _ Hok) as Ess. destruct Em as (A & C & HA & E1 & ->).
  erewrite rbind by (apply rd_eq; unfold fdt_offset_ptr_; by rewrite Eso). erewrite rbind.
  2:{ apply rd_eq. unfold from. rewrite (proj2 (Z.ltb_ge _ 0)) by lia. rewrite E1, drop_app_length' by lia. apply be32_ld_u32. }
  erewrite rbind by (by apply rd_eq). rewrite E1, (st32_eq A (be32 (p_noff p)) C) by (done || lia). by rewrite be32_u32.
Qed.

Lemma fin_reads magic tot lc pts : fin_ok tot lc pts ->
  let m := fin magic tot lc pts in vers m = 17 /\ soff m + ssize m <= total m.
Proof.
  intros Hok. cbv zeta. unfold vers, soff, ssize, total. rewrite fin_vers, fin_soff, fin_ssize, fin_total by done. cbn [default from_option id].
  destruct Hok. split; [done|]. lia.
Qed.

Lemma fin_end magic tot lc pts : fin_ok tot lc pts ->
  fdt_next_tag (fin magic tot lc pts) (Z.of_nat (toks_size (map pk pts))) = Some (FDT_END, Z.of_nat (toks_size (map pk pts)) + 4).
Proof.
  intros Hok. destruct (fin_reads magic _ _ _ Hok) as [Hv Hfit]. pose proof (fin_shape _ _ _ Hok) as Hsh.
  apply next_tag_end; [by apply fin_valid|done|done|lia|apply toks_size_mod|].
  unfold block_at, soff, ssize. rewrite fin_soff, fin_ssize by done. cbn [default from_option id]. split; [|rewrite struct_shape_length by done; simpl length; lia].
  unfold from. rewrite (proj2 (Z.ltb_ge _ 0)) by lia. unfold fin, struct_block at 3. rewrite <- app_assoc, (app_assoc mid), (app_assoc (words _)).
  rewrite drop_app_length'; [by eexists|]. rewrite !length_app, length_words, (ptoks_shape_length pts) by done. simpl length. lia.
Qed.

(** The walk corrects every property and ends behind the last tag. *)
Lemma finish_loop_eq magic tot lc l2 : forall l1 n, fin_ok tot lc (l1 ++ l2) -> (length l2 < n)%nat ->
  finish_loop n (Z.of_nat (toks_size (map pk l1))) (fin magic tot lc (l1 ++ l2)) =
    Some (Z.of_nat (toks_size (map pk (l1 ++ l2))) + 4, fin magic tot lc (l1 ++ map fixed l2)) /\
  fin_ok tot lc (l1 ++ map fixed l2).
Proof.
  induction l2 as [|p l2 IH]; intros l1 n Hok Hn; (destruct n as [|n]; [simpl in Hn; lia|]).
  { cbn [map]. split; [|done]. rewrite app_nil_r in *. cbn [finish_loop]. erewrite rbind by (apply rd_eq, fin_end; done). done. }
  pose proof (fin_ok_fixed _ _ _ _ _ Hok) as Hok'. pose proof (fin_shape _ _ _ Hok) as Hsh. rewrite Forall_app, Forall_cons in Hsh. destruct Hsh as (_ & Hp & _).
  destruct (fin_reads magic _ _ _ Hok) as [Hv Hfit].
  assert (Hnt := next_tag_tok _ (fin_valid magic _ _ _ Hok) Hv Hfit (Z.of_nat (toks_size (map pk l1))) p ltac:(lia) (toks_size_mod _) Hp (fin_block magic _ _ _ Hok l1 p l2 eq_refl)).
  specialize (IH (l1 ++ [fixed p]) n). rewrite <- !app_assoc in IH. specialize (IH Hok' ltac:(simpl in Hn; lia)). rewrite !map_app, toks_size_app in IH.
  cbn [app map] in IH. change (toks_size [pk (fixed p)]) with (tok_size (pk p) + 0)%nat in IH. rewrite Nat.add_0_r, Nat2Z.inj_add in IH.
  change (pk (fixed p)) with (pk p) in IH. rewrite map_app. cbn [map]. destruct IH as [IH Hokf]. split; [|done]. rewrite <- IH.
  cbn [finish_loop]. erewrite rbind by (apply rd_eq, Hnt). cbv beta iota. destruct (pk p) as [name| |name value] eqn:Ek; cbn [tok_tag].
  - change (FDT_BEGIN_NODE =? FDT_END) with false. change (FDT_BEGIN_NODE =? FDT_PROP) with false. cbv iota.
    by rewrite (rbind _ _ _ tt (fin magic tot lc (l1 ++ p :: l2))), fin_fixed_same by (done || by rewrite Ek).
  - change (FDT_END_NODE =? FDT_END) with false. change (FDT_END_NODE =? FDT_PROP) with false. cbv iota.
    by rewrite (rbind _ _ _ tt (fin magic tot lc (l1 ++ p :: l2))), fin_fixed_same by (done || by rewrite Ek).
  - change (FDT_PROP =? FDT_END) with false. change (FDT_PROP =? FDT_PROP) with true. cbv iota. by erewrite rbind by (by eapply fix_prop).
Qed.

(** The last words of the header make it a blob. *)
Lemma fin_blob tot pts : fin_ok tot FDT_FIRST_SUPPORTED_VERSION pts -> Forall (ptok_ok strs) pts ->
  blob_ok (fin FDT_MAGIC tot FDT_FIRST_SUPPORTED_VERSION pts) tot
    (words [FDT_MAGIC; tot; 40 + Z.of_nat (length mid); 40 + Z.of_nat (length mid + length (struct_block pts)); 48; 17; FDT_FIRST_SUPPORTED_VERSION; 0;
            Z.of_nat (length strs); Z.of_nat (length (struct_block pts))] ++ mid) pts strs rest.
Proof.
  intros Hok Ht. pose proof (fin_length FDT_MAGIC tot FDT_FIRST_SUPPORTED_VERSION pts) as Hlen. pose proof Hok as [_ H1 H2 H3 H4 H5].
  assert (El : forall l : list Z, length l = 10%nat -> length (words l ++ mid) = (40 + length mid)%nat) by (intros l Hl; rewrite length_app, length_words, Hl; lia).
  split; rewrite ?El by done; [| | | | | | | | |lia|done| |lia|lia].
  - unfold fin. by rewrite <- app_assoc.
  - apply (header_word _ _ 0); [done|by vm_compute].
  - by apply fin_total.
  - rewrite fin_soff by done. f_equal. lia.
  - rewrite fin_stroff by done. f_equal. lia.
  - by apply fin_vers.
  - exists FDT_FIRST_SUPPORTED_VERSION. split; [by apply fin_last|done].
  - by apply fin_strsize.
  - by apply fin_ssize.
  - rewrite <- app_assoc, Forall_app. split; [apply words_fits|done].
Qed.
End Finish.

Lemma rbind2 {A B C} (x : RW A) (y : RW B) (k : RW C) m b m' : (x;; y) m = Some (b, m') -> (x;; y;; k) m = k m'.
Proof. unfold mbind, RW_bind. destruct (x m) as [[a m1]|]; [|done]. by intros ->. Qed.

(** Moving the strings to [k] bytes behind the structure block. *)
Lemma move_tail A gap strs rest k dst src : (k + length strs <= length (gap ++ strs ++ rest))%nat ->
  dst = Z.of_nat (length A + k) -> src = Z.of_nat (length A + length gap) ->
  rw_memmove dst src (Z.of_nat (length strs)) (A ++ gap ++ strs ++ rest) =
  Some (tt, A ++ take k (gap ++ strs ++ rest) ++ strs ++ drop (k + length strs) (gap ++ strs ++ rest)).
Proof.
  intros Hk -> ->. rewrite (app_assoc A gap). rewrite rw_memmove_eq; [|rewrite !length_app in *; lia|by rewrite length_app|done]. rewrite <- (app_assoc A gap).
  rewrite <- Nat.add_assoc, take_app_add, drop_app_add. by rewrite <- !app_assoc.
Qed.

Section Done.
Context (flags tot : Z) (mid rest : list Z).

(** Moving the strings up to the structure block. *)
Lemma move_strings pts gap strs : sw_ok flags tot mid (struct_block pts) gap strs rest ->
  (rw_memmove (40 + Z.of_nat (length mid + length (struct_block pts))) (tot - Z.of_nat (length strs)) (Z.of_nat (length strs));;
   fdt_set_off_dt_strings 0 (40 + Z.of_nat (length mid + length (struct_block pts)))) (sw flags tot mid (struct_block pts) gap strs rest) =
  Some (tt, fin mid strs (drop (length strs) (gap ++ strs ++ rest)) FDT_SW_MAGIC tot flags pts).
Proof.
  intros [_ Ht _ _]. set (h := words [FDT_SW_MAGIC; tot; 40 + Z.of_nat (length mid); tot; 48; 17; flags; 0; Z.of_nat (length strs); Z.of_nat (length (struct_block pts))]).
  assert (Hh : length h = 40%nat) by done.
  rewrite (rbind _ _ _ tt (h ++ mid ++ struct_block pts ++ strs ++ drop (length strs) (gap ++ strs ++ rest))).
  2:{ unfold sw. fold h. rewrite (app_assoc mid), (app_assoc h).
      rewrite (move_tail _ _ _ _ 0) by (rewrite !length_app; lia). by rewrite <- !app_assoc. }
  etrans; [apply (set_word _ 3); simpl; lia|]. reflexivity.
Qed.

Lemma toks_count l : (length l <= toks_size l)%nat.
Proof.
  induction l as [|k l IH]; [done|]. change (toks_size (k :: l)) with (tok_size k + toks_size l)%nat. destruct (tok_size_aligned k) as (n & -> & Hn & _).
  cbn [length]. lia.
Qed.

Lemma placed_shape strs p : placed strs p -> ptok_shape p.
Proof. exact (ptok_ok_shape strs (shift (Z.of_nat (length strs)) p)). Qed.

(** What the header says after the walk. *)
Lemma finish_header pts strs r : fin_ok mid strs r tot flags pts ->
  (strings ← rd fdt_size_dt_strings;
   fdt_set_totalsize 0 (40 + Z.of_nat (length mid + length (struct_block pts)) + strings);;
   fdt_set_last_comp_version 0 FDT_FIRST_SUPPORTED_VERSION;; fdt_set_magic 0 FDT_MAGIC;; mret 0) (fin mid strs r FDT_SW_MAGIC tot flags pts) =
  Some (0, fin mid strs r FDT_MAGIC (40 + Z.of_nat (length mid + length (struct_block pts) + length strs)) FDT_FIRST_SUPPORTED_VERSION pts).
Proof.
  intros Hok. erewrite rbind by (by apply rd_eq, fin_strsize). erewrite rbind by (apply (set_word _ 1); simpl; lia). cbn [insert list_insert].
  erewrite rbind by (apply (set_word _ 6); simpl; lia). cbn [insert list_insert]. erewrite rbind by (apply (set_word _ 0); simpl; lia). cbn [insert list_insert].
  rewrite <- Z.add_assoc, <- Nat2Z.inj_add. reflexivity.
Qed.

(** Closing the structure block. *)
Lemma end_tag pts g gap strs : sw_ok flags tot mid (ptoks_bytes pts ++ g) gap strs rest -> length g = 4%nat ->
  st32 (40 + Z.of_nat (length mid + length (ptoks_bytes pts))) FDT_END (sw flags tot mid (ptoks_bytes pts ++ g) gap strs rest) =
    Some (tt, sw flags tot mid (struct_block pts) gap strs rest) /\
  sw_ok flags tot mid (struct_block pts) gap strs rest.
Proof.
  intros [H1 H2 H3 H4] Hg. rewrite <- (app_nil_r (ptoks_bytes pts ++ g)), <- app_assoc. split; [rewrite sw_st32 by done; by rewrite app_nil_r|].
  unfold struct_block. split; [done|rewrite !length_app in *; simpl length; lia|done|].
  rewrite !Forall_app in *. pose proof (be32_fits FDT_END). tauto.
Qed.

Lemma moved_ok pts gap strs : sw_ok flags tot mid (struct_block pts) gap strs rest -> Forall ptok_shape pts ->
  fin_ok mid strs (drop (length strs) (gap ++ strs ++ rest)) tot flags pts.
Proof.
  intros [Hfl Hto Hsm Hby] Ht. set (r := drop _ _).
  assert (Hr : (length r = length gap + length rest)%nat) by (unfold r; rewrite length_drop, !length_app; lia).
  split; [lia|lia|lia|lia| |done]. rewrite !Forall_app in *. split; [tauto|]. split; [tauto|]. apply Forall_drop. rewrite !Forall_app. tauto.
Qed.

Lemma fin_tail pts pts' gap strs magic tot' lc : sw_ok flags tot mid (struct_block pts) gap strs rest ->
  length (struct_block pts') = length (struct_block pts) ->
  drop (Z.to_nat tot) (fin mid strs (drop (length strs) (gap ++ strs ++ rest)) magic tot' lc pts') = rest.
Proof.
  intros [_ Hto _ _] El. replace (Z.to_nat tot) with (40 + length mid + length (struct_block pts') + length strs + length gap)%nat by lia.
  unfold fin. rewrite (app_assoc _ strs), (app_assoc mid), (app_assoc (words _)).
  rewrite drop_app_add' by (rewrite !length_app, length_words; simpl length; lia). rewrite drop_drop, app_assoc. apply drop_app_length'. rewrite length_app. lia.
Qed.

(** What finishing gives: the tokens with the offsets of their names, and nothing
    behind the buffer has changed. *)
Definition finished (pts : list ptok) (m' : list Z) : Prop := exists strs r tot',
  m' = fin mid strs r FDT_MAGIC tot' FDT_FIRST_SUPPORTED_VERSION (map (fixed strs) pts) /\
  fin_ok mid strs r tot' FDT_FIRST_SUPPORTED_VERSION (map (fixed strs) pts) /\ Forall (ptok_ok strs) (map (fixed strs) pts) /\
  tot' <= tot <= Z.of_nat (length m') /\ drop (Z.to_nat tot) m' = rest.

Lemma finish_spec pts n m : building flags tot mid rest pts n m ->
  (4 <= n)%nat /\ (exists m', fdt_finish m = Some (0, m') /\ finished pts m') \/
  (n < 4)%nat /\ fdt_finish m = Some (- FDT_ERR_NOSPACE, m).
Proof.
  intros (gap & strs & -> & Hok & Ht & Hn). unfold fdt_finish. rewrite sw_probe_struct by done.
  destruct (decide (length gap < 4)%nat) as [Hlt|Hge].
  { right. split; [lia|]. erewrite rbind by (apply grab_none; [done|lia]). done. }
  left. split; [lia|]. destruct (split_at gap 4 (length gap - 4) ltac:(lia)) as (g & gap' & -> & Hg & Hg').
  destruct (grab_some _ _ _ _ _ _ _ _ 4 Hok ltac:(lia)) as [E Hok']. erewrite rbind by exact E.
  destruct (end_tag _ _ _ _ Hok' Hg) as [E1 Hoke]. erewrite rbind by exact E1.
  assert (Hfin := moved_ok _ _ _ Hoke (Forall_impl _ _ _ Ht (placed_shape strs))). set (r := drop _ _) in Hfin.
  erewrite rbind by (by apply rd_eq, sw_total). erewrite rbind by (by apply rd_eq, sw_strsize). cbv zeta.
  erewrite rbind by (by apply rd_eq, sw_soff). erewrite rbind by (by apply rd_eq, sw_ssize).
  pose proof Hoke as [Hfl Hto Hsm Hby]. rewrite (s32_small (tot - _)), s32_small by lia. rewrite <- Z.add_assoc, <- Nat2Z.inj_add.
  rewrite (rbind2 _ _ _ _ _ _ (move_strings _ _ _ Hoke)). fold r. erewrite rbind by (by apply rd_eq).
  destruct (finish_loop_eq mid strs r FDT_SW_MAGIC tot flags pts [] (S (length (fin mid strs r FDT_SW_MAGIC tot flags pts))) Hfin) as [El Hokl].
  { pose proof (toks_count (map pk pts)) as Hc. rewrite length_map in Hc. rewrite fin_length, struct_shape_length by (exact (fin_shape _ _ _ _ _ _ Hfin)). lia. }
  cbn [app map] in El, Hokl. erewrite rbind by exact El. cbv beta iota. rewrite (proj2 (Z.ltb_ge _ 0)) by lia.
  assert (Els : length (struct_block (map (fixed strs) pts)) = length (struct_block pts)).
  { rewrite !struct_shape_length, map_map; [done|exact (fin_shape _ _ _ _ _ _ Hfin)|exact (fin_shape _ _ _ _ _ _ Hokl)]. }
  rewrite <- Els, (finish_header _ _ _ Hokl). eexists. split; [reflexivity|]. exists strs, r. eexists. split; [done|]. split; [|split].
  - destruct Hokl as [H1 H2 H3 H4 H5 H6]. split; [done|lia|lia|done|done|done].
  - apply Forall_map. exact Ht.
  - rewrite fin_length, Els. unfold r. rewrite length_drop, !length_app. split; [lia|]. by apply (fin_tail pts).
Qed.
End Done.

(** * Creating *)

(** The entries of the reserve map. *)
Definition rsv_bytes (rs : list (Z * Z)) : list Z := concat (map (fun e => be64 e.1 ++ be64 e.2) rs).

(** The memory while the reserve map is written. *)
Definition rsv (flags tot : Z) (mid gap rest : list Z) : list Z :=
  words [FDT_SW_MAGIC; tot; 40 + Z.of_nat (length mid); 0; 48; 17; flags; 0; 0; 0] ++ mid ++ gap ++ rest.

Record rsv_ok (flags tot : Z) (mid gap rest : list Z) : Prop := {
  rsv_flag : 0 <= flags <= 1;
  rsv_tot : tot = 40 + Z.of_nat (length mid + length gap);
  rsv_small : tot + Z.of_nat (length rest) < 2 ^ 31 - 8;
  rsv_fits : Forall (fits 8) (mid ++ gap ++ rest)
}.

Lemma create_spec flags bufsize m : 0 <= flags <= 1 -> Forall (fits 8) m -> bufsize <= Z.of_nat (length m) < 2 ^ 31 - 8 -> 48 <= bufsize ->
  let gap := replicate (Z.to_nat bufsize - 48) 0 in let rest := drop (Z.to_nat bufsize) m in
  fdt_create_with_flags bufsize flags m = Some (0, rsv flags bufsize (replicate 8 0) gap rest) /\ rsv_ok flags bufsize (replicate 8 0) gap rest.
Proof.
  intros Hf Hm Hl Hb. cbv zeta. split.
  2:{ split; [done|rewrite !length_replicate; lia|rewrite length_drop; lia|]. rewrite !Forall_app. repeat split; [apply Forall_replicate; unfold fits; lia..|by apply Forall_drop]. }
  unfold fdt_create_with_flags. change (FDT_ALIGN SIZEOF_FDT_HEADER SIZEOF_RESERVE_ENTRY) with 48. unfold u64. rewrite wrap_small by (unfold fits; lia).
  rewrite (proj2 (Z.ltb_ge bufsize 48)) by lia. replace (nz (flags .& Z.lnot FDT_CREATE_FLAGS_ALL)) with false by (assert (flags = 0 \/ flags = 1) as [-> | ->] by lia; done).
  assert (Es : rw_memset 0 0 bufsize m = Some (tt, words (replicate 10 0) ++ replicate (Z.to_nat bufsize - 40) 0 ++ drop (Z.to_nat bufsize) m)).
  { rewrite <- (take_drop (Z.to_nat bufsize) m) at 1. pose proof (rw_memset_eq [] (take (Z.to_nat bufsize) m) (drop (Z.to_nat bufsize) m) 0 bufsize eq_refl) as E.
    cbn [app] in E. rewrite E by (rewrite length_take; lia). rewrite length_take, app_assoc. do 3 f_equal.
    change (words (replicate 10 0)) with (replicate 40 0). rewrite <- replicate_add. f_equal. lia. }
  erewrite rbind by exact Es. cbn [replicate].
  erewrite rbind by (apply (set_word _ 0); simpl; lia). cbn [insert list_insert]. erewrite rbind by (apply (set_word _ 5); simpl; lia). cbn [insert list_insert].
  erewrite rbind by (apply (set_word _ 6); simpl; lia). cbn [insert list_insert]. erewrite rbind by (apply (set_word _ 1); simpl; lia). cbn [insert list_insert].
  erewrite rbind by (apply (set_word _ 4); simpl; lia). cbn [insert list_insert]. erewrite rbind by (apply rd_eq, (header_word _ _ 4 48); [done|unfold fits; lia]).
  erewrite rbind by (apply (set_word _ 2); simpl; lia). cbn [insert list_insert]. erewrite rbind by (apply (set_word _ 3); simpl; lia). cbn [insert list_insert].
  unfold mret, RW_ret, rsv. replace (Z.to_nat bufsize - 40)%nat with (8 + (Z.to_nat bufsize - 48))%nat by lia.
  rewrite replicate_add, <- app_assoc. reflexivity.
Qed.

Lemma st64_eq (a old c : list Z) p x : p = Z.of_nat (length a) -> length old = 8%nat ->
  st64 p x (a ++ old ++ c) = Some (tt, a ++ be64 x ++ c).
Proof. intros Hp Ho. unfold st64. rewrite (rw_memcpy_eq a old c (be64 x) p 8); [by rewrite Ho|done|by rewrite Ho|rewrite Ho; simpl; lia]. Qed.

Lemma be64_fits x : Forall (fits 8) (be64 x).
Proof. apply Forall_app. split; apply be32_fits. Qed.

Section Rsv.
Context (flags tot : Z) (rest : list Z).
Notation rsv := (rsv flags tot).
Notation rsv_ok := (rsv_ok flags tot).

Section Fields.
Context (mid gap : list Z) (Hok : rsv_ok mid gap rest).
Notation m := (rsv mid gap rest).

Lemma rsv_word i x : [FDT_SW_MAGIC; tot; 40 + Z.of_nat (length mid); 0; 48; 17; flags; 0; 0; 0] !! i = Some x ->
  fits 32 x -> fdt_get_header m (4 * Z.of_nat i) = Some x.
Proof. apply header_word. Qed.

Ltac word i := destruct Hok; apply (rsv_word i); [reflexivity|unfold fits; lia].

Lemma rsv_total : fdt_totalsize m = Some tot.  Proof. word 1%nat. Qed.
Lemma rsv_soff : fdt_off_dt_struct m = Some (40 + Z.of_nat (length mid)).  Proof. word 2%nat. Qed.

Lemma rsv_magic : fdt_magic m = Some FDT_SW_MAGIC.  Proof. apply (rsv_word 0); [done|by vm_compute]. Qed.
Lemma rsv_stroff : fdt_off_dt_strings m = Some 0.  Proof. word 3%nat. Qed.

Lemma rsv_probe : fdt_sw_probe_memrsv_ m = Some 0.
Proof.
  unfold fdt_sw_probe_memrsv_, fdt_sw_probe_. rewrite rsv_magic. cbn [mbind option_bind].
  change (FDT_SW_MAGIC =? FDT_MAGIC) with false. rewrite Z.eqb_refl. cbn [negb]. change (nz 0) with false. cbv iota.
  by rewrite rsv_stroff.
Qed.

Lemma add_entry_none addr size : (length gap < 16)%nat -> fdt_add_reservemap_entry addr size m = Some (- FDT_ERR_NOSPACE, m).
Proof.
  intros Hg. unfold fdt_add_reservemap_entry, FDT_SW_PROBE_MEMRSV. erewrite rbind by (apply rd_eq, rsv_probe). change (nz 0) with false. cbv iota.
  erewrite rbind by (apply rd_eq, rsv_soff). erewrite rbind by (apply rd_eq, rsv_total). destruct Hok as [_ Ht Hs _].
  unfold SIZEOF_RESERVE_ENTRY, u64. rewrite s32_small, wrap_small by (unfold fits; lia). by rewrite (proj2 (Z.ltb_lt tot _)) by lia.
Qed.
End Fields.

Lemma add_entry_some mid g gap addr size : rsv_ok mid (g ++ gap) rest -> length g = 16%nat ->
  fdt_add_reservemap_entry addr size (rsv mid (g ++ gap) rest) = Some (0, rsv (mid ++ be64 addr ++ be64 size) gap rest) /\
  rsv_ok (mid ++ be64 addr ++ be64 size) gap rest.
Proof.
  intros Hok Hg. pose proof Hok as [Hf Ht Hs Hb]. rewrite length_app in Ht. split.
  2:{ split; [done|rewrite !length_app; simpl length; lia|done|]. rewrite !Forall_app in *. pose proof (be64_fits addr). pose proof (be64_fits size). tauto. }
  unfold fdt_add_reservemap_entry, FDT_SW_PROBE_MEMRSV. erewrite rbind by (by apply rd_eq, rsv_probe). change (nz 0) with false. cbv iota.
  erewrite rbind by (by apply rd_eq, rsv_soff). erewrite rbind by (by apply rd_eq, rsv_total).
  unfold SIZEOF_RESERVE_ENTRY, u64. rewrite s32_small, wrap_small by (unfold fits; lia). rewrite (proj2 (Z.ltb_ge tot _)) by lia.
  destruct (split_at g 8 8 Hg) as (a & b & -> & Ha & Hb'). unfold FdtWrite.rsv. set (h := words _). assert (Hh : length h = 40%nat) by done.
  rewrite <- !app_assoc, (app_assoc h mid). erewrite rbind by (apply st64_eq; [rewrite length_app; lia|done]).
  rewrite (app_assoc (h ++ mid) (be64 addr)). erewrite rbind by (apply st64_eq; [rewrite !length_app; simpl length; lia|done]).
  rewrite <- !app_assoc. subst h. erewrite rbind by (apply (set_word _ 2); simpl; lia). cbn [insert list_insert].
  unfold mret, RW_ret. rewrite !length_app. replace (40 + Z.of_nat (length mid) + 16) with (40 + Z.of_nat (length mid + (length (be64 addr) + length (be64 size)))); [done|simpl length; lia].
Qed.

Lemma write_rsvs_spec rs : forall mid gap, rsv_ok mid gap rest ->
  (exists gap', write_rsvs rs (rsv mid gap rest) = Some (0, rsv (mid ++ rsv_bytes rs) gap' rest) /\
     rsv_ok (mid ++ rsv_bytes rs) gap' rest /\ length gap = (length gap' + 16 * length rs)%nat) \/
  (exists mid' gap', write_rsvs rs (rsv mid gap rest) = Some (- FDT_ERR_NOSPACE, rsv mid' gap' rest) /\
     rsv_ok mid' gap' rest /\ (length gap < 16 * length rs)%nat).
Proof.
  induction rs as [|[addr size] rs IH]; intros mid gap Hok; cbn [write_rsvs].
  { left. exists gap. change (rsv_bytes []) with (@nil Z). rewrite app_nil_r. split; [done|]. split; [done|]. simpl. lia. }
  destruct (decide (length gap < 16)%nat) as [Hlt|Hge].
  { right. exists mid, gap. erewrite then_err by (by apply add_entry_none || done). split; [done|]. split; [done|]. cbn [length]. lia. }
  destruct (split_at gap 16 (length gap - 16) ltac:(lia)) as (g & gap1 & -> & Hg & Hg1).
  destruct (add_entry_some _ _ _ addr size Hok Hg) as [E Hok']. rewrite (then_ok _ _ _ _ E). rewrite length_app. cbn [length].
  replace (mid ++ rsv_bytes ((addr, size) :: rs)) with ((mid ++ be64 addr ++ be64 size) ++ rsv_bytes rs) by (unfold rsv_bytes; simpl map; simpl concat; by rewrite <- !app_assoc).
  destruct (IH _ _ Hok') as [(gap' & E' & Hok2 & Hl)|(mid' & gap' & E' & Hok2 & Hl)].
  - left. exists gap'. split; [done|]. split; [done|]. lia.
  - right. exists mid', gap'. split; [done|]. split; [done|]. lia.
Qed.

Lemma finish_rsv_spec mid gap : rsv_ok mid gap rest -> let mid' := mid ++ be64 0 ++ be64 0 in
  (exists n m', fdt_finish_reservemap (rsv mid gap rest) = Some (0, m') /\ building flags tot mid' rest [] n m' /\ length gap = (n + 16)%nat) \/
  (fdt_finish_reservemap (rsv mid gap rest) = Some (- FDT_ERR_NOSPACE, rsv mid gap rest) /\ (length gap < 16)%nat).
Proof.
  intros Hok mid'. unfold fdt_finish_reservemap. destruct (decide (length gap < 16)%nat) as [Hlt|Hge].
  { right. split; [|done]. by erewrite rbind by (by apply add_entry_none). }
  left. destruct (split_at gap 16 (length gap - 16) ltac:(lia)) as (g & gap1 & -> & Hg & Hg1).
  destruct (add_entry_some _ _ _ 0 0 Hok Hg) as [E Hok']. fold mid' in E, Hok'. exists (length gap1). eexists. split; [|split].
  - erewrite rbind by exact E. change (nz 0) with false. cbv iota. erewrite rbind by (by apply rd_eq, rsv_total).
    erewrite rbind by (apply (set_word _ 3); simpl; lia). cbn [insert list_insert]. reflexivity.
  - exists gap1, []. split; [done|]. destruct Hok' as [H1 H2 H3 H4]. split; [|by split]. split; [done|change (ptoks_bytes []) with (@nil Z); simpl length; lia|done|done].
  - rewrite length_app. lia.
Qed.
End Rsv.

(** * Reading the reserve map *)

Lemma be64_ld x r : fits 64 x -> fdt64_ld (be64 x ++ r) = Some x.
Proof.
  intros Hx. pose proof (be32_ld_u32 (x / 2 ^ 32) []) as Eh. pose proof (be32_ld_u32 x []) as El. unfold be64, be32 in *. cbn [app fdt64_ld fdt32_ld] in *.
  injection Eh as Eh. injection El as El. f_equal.
  set (b0 := (x / 2 ^ 32) / 2 ^ 24 mod 256) in *. set (b1 := (x / 2 ^ 32) / 2 ^ 16 mod 256) in *. set (b2 := (x / 2 ^ 32) / 2 ^ 8 mod 256) in *. set (b3 := (x / 2 ^ 32) mod 256) in *.
  rewrite <- !Z.lor_assoc in *. rewrite El.
  replace (Z.shiftl b0 56) with (Z.shiftl (Z.shiftl b0 24) 32) by (by rewrite Z.shiftl_shiftl). replace (Z.shiftl b1 48) with (Z.shiftl (Z.shiftl b1 16) 32) by (by rewrite Z.shiftl_shiftl).
  replace (Z.shiftl b2 40) with (Z.shiftl (Z.shiftl b2 8) 32) by (by rewrite Z.shiftl_shiftl). rewrite !Z.lor_assoc, <- !Z.shiftl_lor, <- !Z.lor_assoc, Eh.
  rewrite Z.shiftl_mul_pow2, Z.mul_comm by lia. rewrite lor_high_low by (lia || (apply wrap_fits; lia)). unfold u32, wrap. unfold fits in Hx.
  rewrite (Z.mod_small (x / 2 ^ 32)) by (Z.to_euclidean_division_equations; lia). pose proof (Z.div_mod x (2 ^ 32) ltac:(lia)). lia.
Qed.

Lemma rsv_bytes_app l1 l2 : rsv_bytes (l1 ++ l2) = rsv_bytes l1 ++ rsv_bytes l2.
Proof. unfold rsv_bytes. by rewrite map_app, concat_app. Qed.

Lemma rsv_bytes_length l : length (rsv_bytes l) = (16 * length l)%nat.
Proof. induction l as [|e l IH]; [done|]. change (rsv_bytes (e :: l)) with ((be64 e.1 ++ be64 e.2) ++ rsv_bytes l). rewrite length_app, IH. simpl. lia. Qed.

(** A region that can be reserved; a size of zero would end the map. *)
Definition entry_ok (e : Z * Z) : Prop := fits 64 e.1 /\ fits 64 e.2 /\ e.2 <> 0.

Section Map.
Context (fdt : list Z) (tot : Z) (rs : list (Z * Z)) (tl : list Z).
Context (Hoff : fdt_off_mem_rsvmap fdt = Some 48) (Htot : fdt_totalsize fdt = Some tot) (Hlt : tot < 2 ^ 31 - 8).
Context (Hfrom : from fdt 48 = rsv_bytes (rs ++ [(0, 0)]) ++ tl) (Hfit : 48 + 16 * Z.of_nat (length rs + 1) <= tot).
Context (Hrs : Forall entry_ok rs).

Lemma entry_at i e : (rs ++ [(0, 0)]) !! i = Some e -> exists p, fdt_mem_rsv fdt (Z.of_nat i) = Some (Some p) /\
  (fits 64 e.1 -> fdt64_ld (from fdt p) = Some e.1) /\ (fits 64 e.2 -> fdt64_ld (from fdt (p + 8)) = Some e.2).
Proof.
  intros Hi. pose proof (lookup_lt_Some _ _ _ Hi) as Hlen. rewrite length_app in Hlen. cbn [length] in Hlen. exists (48 + Z.of_nat i * 16). split.
  { unfold fdt_mem_rsv. rewrite Hoff, Htot. cbn [mbind option_bind]. rewrite (s32_small (Z.of_nat i * 16)), s32_small by lia.
    unfold u32, u64. rewrite !wrap_small by (unfold fits; lia). by rewrite (proj2 (Z.ltb_ge (48 + _) 48)), (proj2 (Z.ltb_ge (tot - 16) _)) by lia. }
  assert (E : from fdt (48 + Z.of_nat i * 16) = be64 e.1 ++ be64 e.2 ++ rsv_bytes (drop (S i) (rs ++ [(0, 0)])) ++ tl).
  { replace (Z.of_nat i * 16) with (Z.of_nat (16 * i)) by lia. rewrite <- from_from, Hfrom by lia. rewrite <- (take_drop_middle _ _ _ Hi) at 1.
    rewrite rsv_bytes_app, <- app_assoc. rewrite drop_app_length' by (rewrite rsv_bytes_length, length_take, length_app; simpl; lia).
    change (rsv_bytes (e :: ?l)) with ((be64 e.1 ++ be64 e.2) ++ rsv_bytes l). by rewrite <- !app_assoc. }
  split; intros He; [rewrite E; by apply be64_ld|]. replace (48 + Z.of_nat i * 16 + 8) with (48 + Z.of_nat i * 16 + Z.of_nat 8) by lia.
  rewrite <- from_from, E by lia. rewrite drop_app_length' by done. by apply be64_ld.
Qed.

Lemma num_mem_rsv_eq n i : (i <= length rs)%nat -> (length rs - i < n)%nat -> num_mem_rsv_loop n fdt (Z.of_nat i) = Some (Z.of_nat (length rs)).
Proof.
  revert i. induction n as [|n IH]; intros i Hi Hn; [lia|]. cbn [num_mem_rsv_loop]. destruct (decide (i = length rs)) as [-> |Hne].
  - destruct (entry_at (length rs) (0, 0)) as (p & -> & _ & E); [by rewrite lookup_app_r, Nat.sub_diag|]. cbn [mbind option_bind]. by rewrite E by (unfold fits; simpl; lia).
  - destruct (lookup_lt_is_Some_2 rs i) as [e He]; [lia|]. destruct (entry_at i e) as (p & -> & _ & E); [by apply lookup_app_l_Some|].
    rewrite Forall_lookup in Hrs. destruct (Hrs i e He) as (_ & H2 & Hnz). cbn [mbind option_bind]. rewrite E by done. cbn [mbind option_bind].
    rewrite (proj2 (Z.eqb_neq e.2 0) Hnz). replace (Z.of_nat i + 1) with (Z.of_nat (S i)) by lia. apply IH; lia.
Qed.
End Map.

(** * Writing and reading back *)

(** What the reader gets from a blob. *)
Definition reads_as (fdt : list Z) (rs : list (Z * Z)) (s : src) : Prop :=
  read_node (length fdt) fdt 0 = Some s /\ fdt_num_mem_rsv fdt = Some (Z.of_nat (length rs)) /\
  forall i addr size, rs !! i = Some (addr, size) -> fdt_get_mem_rsv fdt (Z.of_nat i) = Some (0, addr, size).

(** Room that is enough: the header and the reserve map with its end, the tokens,
    a name for each property, and the end tag. *)
Definition tree_room (rs : list (Z * Z)) (s : src) : Z := 68 + 16 * Z.of_nat (length rs) + Z.of_nat (costs (sflat s)).

Lemma building_tail flags tot mid rest pts n m : building flags tot mid rest pts n m -> drop (Z.to_nat tot) m = rest.
Proof.
  intros (gap & strs & -> & [_ Ht _ _] & _). unfold sw. rewrite (app_assoc gap), (app_assoc _ (gap ++ strs)), (app_assoc mid), (app_assoc (words _)).
  apply drop_app_length'. rewrite !length_app, length_words. simpl length. lia.
Qed.

Lemma rsv_tail flags tot mid gap rest : rsv_ok flags tot mid gap rest -> drop (Z.to_nat tot) (rsv flags tot mid gap rest) = rest.
Proof.
  intros [_ Ht _ _]. unfold rsv. rewrite (app_assoc mid), (app_assoc (words _)). apply drop_app_length'. rewrite !length_app, length_words. simpl length. lia.
Qed.

(** The bytes before the structure block, without the header. *)
Definition rsv_block (rs : list (Z * Z)) : list Z := replicate 8 0 ++ rsv_bytes rs ++ be64 0 ++ be64 0.

Lemma rsv_block_length rs : length (rsv_block rs) = (24 + 16 * length rs)%nat.
Proof. unfold rsv_block. rewrite !length_app, rsv_bytes_length. simpl length. lia. Qed.

Lemma fin_from_rsv rs strs r magic tot lc pts : exists tl, from (fin (rsv_block rs) strs r magic tot lc pts) 48 = rsv_bytes (rs ++ [(0, 0)]) ++ tl.
Proof.
  exists (struct_block pts ++ strs ++ r). unfold fin, rsv_block, from. cbn [Z.ltb Z.compare].
  rewrite rsv_bytes_app, <- (app_assoc (replicate 8 0)), (app_assoc (words _)). by rewrite drop_app_length'.
Qed.

(** A finished tree is read as what was written. *)
Lemma fin_reads_as rs strs r tot pts s : let m := fin (rsv_block rs) strs r FDT_MAGIC tot FDT_FIRST_SUPPORTED_VERSION pts in
  fin_ok (rsv_block rs) strs r tot FDT_FIRST_SUPPORTED_VERSION pts -> Forall (ptok_ok strs) pts -> map pk pts = sflat s -> Forall entry_ok rs -> reads_as m rs s.
Proof.
  intros m Hok Ht Es Hrs. pose proof (rsv_block_length rs) as Hml. pose proof (fin_blob _ _ _ _ _ Hok Ht) as Hb. fold m in Hb. pose proof Hok as [_ H1 H2 H3 _ _].
  destruct (fin_from_rsv rs strs r FDT_MAGIC tot FDT_FIRST_SUPPORTED_VERSION pts) as [tl Hfrom]. fold m in Hfrom.
  pose proof (fin_rsvoff _ strs r FDT_MAGIC _ _ _ Hok) as Eo. pose proof (fin_total _ strs r FDT_MAGIC _ _ _ Hok) as Et. fold m in Eo, Et.
  pose proof (fin_length (rsv_block rs) strs r FDT_MAGIC tot FDT_FIRST_SUPPORTED_VERSION pts) as Hlen. fold m in Hlen.
  assert (Hfit : 48 + 16 * Z.of_nat (length rs + 1) <= tot) by lia. split; [|split].
  - apply holds_read, (blob_holds _ _ _ _ _ _ Hb). done.
  - apply (num_mem_rsv_eq m tot rs tl Eo Et ltac:(lia) Hfrom Hfit Hrs _ 0); lia.
  - intros i addr size Hi. unfold fdt_get_mem_rsv. rewrite (blob_probe _ _ _ _ _ _ Hb). cbn [mbind option_bind]. rewrite (proj2 (Z.ltb_ge tot 0)) by lia.
    destruct (entry_at m tot rs tl Eo Et ltac:(lia) Hfrom Hfit i (addr, size)) as (p & -> & E1 & E2); [by apply lookup_app_l_Some|].
    rewrite Forall_lookup in Hrs. destruct (Hrs i _ Hi) as (Ha & Hs & _). cbn [mbind option_bind]. rewrite E1 by done. cbn [mbind option_bind]. by rewrite E2.
Qed.

Lemma write_tree_spec flags bufsize rs s m : 0 <= flags <= 1 -> Forall (fits 8) m -> 0 <= bufsize <= Z.of_nat (length m) -> Z.of_nat (length m) < 2 ^ 31 - 8 ->
  Forall stok_w (sflat s) ->
  (exists r m', write_tree flags bufsize rs s m = Some (r, m') /\
    (r = 0 /\ (exists pts, map pk pts = sflat s /\ finished bufsize (rsv_block rs) (drop (Z.to_nat bufsize) m) pts m') \/
     r = - FDT_ERR_NOSPACE /\ bufsize < tree_room rs s /\ drop (Z.to_nat bufsize) m' = drop (Z.to_nat bufsize) m)) \/
  (write_tree flags bufsize rs s m = None /\ bufsize < tree_room rs s /\ Exists long_name (sflat s)).
Proof.
  intros Hf Hm Hb Hl Hs. unfold write_tree, tree_room. destruct (decide (bufsize < 48)) as [Hsm|Hge].
  { left. exists (- FDT_ERR_NOSPACE), m. erewrite then_err; [split; [done|]; right; split; [done|]; split; [lia|done]| |done].
    unfold fdt_create_with_flags. change (FDT_ALIGN SIZEOF_FDT_HEADER SIZEOF_RESERVE_ENTRY) with 48. unfold u64. rewrite wrap_small by (unfold fits; lia).
    by rewrite (proj2 (Z.ltb_lt bufsize 48)) by lia. }
  destruct (create_spec flags bufsize m Hf Hm ltac:(lia) ltac:(lia)) as [E0 Hok]. rewrite (then_ok _ _ _ _ E0). set (rest := drop _ m) in *.
  assert (Hg : (length (replicate (Z.to_nat bufsize - 48) 0%Z) = Z.to_nat bufsize - 48)%nat) by apply length_replicate. set (gap := replicate _ 0) in *.
  destruct (write_rsvs_spec _ _ _ rs _ _ Hok) as [(gap' & E & Hok1 & Hl1)|(mid' & gap' & E & Hok1 & Hl1)].
  2:{ left. eexists _, _. rewrite (then_err _ _ _ _ _ E eq_refl). split; [done|]. right. split; [done|]. split; [lia|by apply rsv_tail]. }
  rewrite (then_ok _ _ _ _ E). destruct (finish_rsv_spec _ _ _ _ _ Hok1) as [(n & m1 & E1 & Hb1 & Hn)|[E1 Hn]].
  2:{ left. eexists _, _. rewrite (then_err _ _ _ _ _ E1 eq_refl). split; [done|]. right. split; [done|]. split; [lia|by apply rsv_tail]. }
  rewrite (then_ok _ _ _ _ E1). rewrite <- app_assoc in Hb1. fold (rsv_block rs) in Hb1.
  assert (Hmid : (24 <= length (rsv_block rs))%nat) by (rewrite rsv_block_length; lia).
  destruct (write_toks_spec _ _ _ _ Hmid _ _ _ _ Hb1 Hs) as [(ps & n2 & m2 & E2 & Eps & Hb2 & Hn2)|[(ps & n2 & m2 & E2 & Hb2 & Hn2)|(E2 & Hn2 & Hlong)]].
  3:{ right. split; [by apply then_none|]. split; [lia|done]. }
  2:{ left. exists (- FDT_ERR_NOSPACE), m2. rewrite (then_err _ _ _ _ _ E2 eq_refl). split; [done|]. right. split; [done|]. split; [lia|by eapply building_tail]. }
  left. rewrite (then_ok _ _ _ _ E2). destruct (finish_spec _ _ _ _ _ _ _ Hb2) as [(Hn3 & m3 & E3 & Hfin)|(Hn3 & E3)].
  - exists 0, m3. split; [done|]. left. split; [done|]. by exists ps.
  - eexists _, _. split; [exact E3|]. right. split; [done|]. split; [lia|by eapply building_tail].
Qed.

(** Giving a finished tree the whole buffer. *)
Lemma open_finished tot rs rest pts m s : finished tot (rsv_block rs) rest pts m -> map pk pts = sflat s -> Forall entry_ok rs ->
  exists m', fdt_open_into 0 0 tot m = Some (0, m') /\ reads_as m' rs s /\ fdt_totalsize m' = Some tot /\ drop (Z.to_nat tot) m' = rest.
Proof.
  intros (strs & r & tot' & -> & Hok & Ht & Hle & Hd) Es Hrs. rewrite fin_length in Hle. pose proof (rsv_block_length rs) as Hml.
  set (pts' := map (fixed strs) pts) in *. assert (Es' : map pk pts' = sflat s) by (unfold pts'; by rewrite map_map).
  pose proof (fin_blob _ _ _ _ _ Hok Ht) as Hb. destruct (fin_reads_as _ _ _ _ _ _ Hok Ht Es' Hrs) as (_ & Hnum & _). pose proof Hok as [_ H1 H2 H3 H4 H5].
  assert (Hok' : fin_ok (rsv_block rs) strs r tot FDT_FIRST_SUPPORTED_VERSION pts') by (split; try done; lia).
  exists (fin (rsv_block rs) strs r FDT_MAGIC tot FDT_FIRST_SUPPORTED_VERSION pts'). split; [|split; [by apply fin_reads_as|split; [by apply fin_total|]]].
  - rewrite (open_into_in_place _ tot' (Z.of_nat (length rs)) (Z.of_nat (length (struct_block pts'))) tot);
      [|by eapply blob_probe|by apply fin_total|done|by apply fin_vers|by apply fin_ssize| |lia|rewrite fin_length; lia|rewrite fin_length; lia].
    + erewrite rbind by (apply (set_word _ 5 17); simpl; lia). cbn [insert list_insert]. erewrite rbind by (apply (set_word _ 9); simpl; lia). cbn [insert list_insert].
      rewrite s32_small by lia. erewrite rbind by (apply (set_word _ 1 tot); simpl; lia). done.
    + unfold fdt_blocks_misordered_. rewrite fin_rsvoff, fin_soff, fin_stroff, fin_total, fin_strsize by done. cbn [mbind option_bind].
      change (FDT_ALIGN SIZEOF_FDT_HEADER 8) with 40. unfold SIZEOF_RESERVE_ENTRY, u32. rewrite !s32_small, !wrap_small by (unfold fits; lia).
      f_equal. rewrite !orb_false_iff, !Z.ltb_ge. lia.
  - rewrite <- Hd. unfold fin. replace (Z.to_nat tot) with (40 + (Z.to_nat tot - 40))%nat by lia. by rewrite !drop_app_add' by (rewrite length_words; done).
Qed.

(** C6: Writing a tree and reserved regions into a buffer, whatever it holds, ends
    in one of three ways: a blob from which the reader gets the tree and the
    regions; the report that there is no space; or an access outside of the
    memory, because the room for the name of a property is compared without
    sign.  The second and the third do not happen when the buffer has room for
    the tokens and a name for each property, and the third takes a property
    whose name has 64 characters or more.  In the first two nothing behind the
    buffer is written. *)
Theorem write_tree_reads flags bufsize rs s m : 0 <= flags <= 1 -> Forall (fits 8) m -> 0 <= bufsize <= Z.of_nat (length m) -> Z.of_nat (length m) < 2 ^ 31 - 8 ->
  Forall stok_w (sflat s) -> Forall entry_ok rs ->
  (exists r m', write_tree flags bufsize rs s m = Some (r, m') /\ drop (Z.to_nat bufsize) m' = drop (Z.to_nat bufsize) m /\
    (r = 0 /\ reads_as m' rs s \/ r = - FDT_ERR_NOSPACE /\ bufsize < tree_room rs s)) \/
  (write_tree flags bufsize rs s m = None /\ bufsize < tree_room rs s /\ Exists long_name (sflat s)).
Proof.
  intros Hf Hm Hb Hl Hs Hrs.
  destruct (write_tree_spec flags bufsize rs s m Hf Hm Hb Hl Hs) as [(r & m' & E & [(-> & pts & Es & Hfin)|(-> & Hsm & Hd)])|H]; [left; eexists _, m'; (split; [exact E|])..|by right].
  - destruct Hfin as (strs & q & tot' & -> & Hok & Ht & _ & Hd). split; [done|]. left. split; [done|]. apply fin_reads_as; [done|done| |done]. by rewrite map_map.
  - split; [done|]. by right.
Qed.

Lemma then_assoc f g k m : then_ (then_ f g) k m = then_ f (then_ g k) m.
Proof. unfold then_, mbind, RW_bind. destruct (f m) as [[e m1]|]; [|done]. destruct (nz e) eqn:He; [|done]. unfold mret, RW_ret. by rewrite He. Qed.
Lemma then_ext f k k' m : (forall m, k m = k' m) -> then_ f k m = then_ f k' m.
Proof. intros E. unfold then_, mbind, RW_bind. destruct (f m) as [[e m1]|]; [|done]. by destruct (nz e). Qed.
Lemma then_ret k m : then_ (mret 0) k m = k m.
Proof. done. Qed.

Definition empty_tree : src := Src [] [] [].

(** An empty tree is the blob of a root without properties or children, which may
    grow into the whole buffer; 80 bytes are enough. *)
Theorem fdt_create_empty_tree_spec bufsize m : Forall (fits 8) m -> 0 <= bufsize <= Z.of_nat (length m) -> Z.of_nat (length m) < 2 ^ 31 - 8 ->
  exists r m', fdt_create_empty_tree bufsize m = Some (r, m') /\ drop (Z.to_nat bufsize) m' = drop (Z.to_nat bufsize) m /\
    (r = 0 /\ reads_as m' [] empty_tree /\ fdt_totalsize m' = Some bufsize \/ r = - FDT_ERR_NOSPACE /\ bufsize < 80).
Proof.
  intros Hm Hb Hl. assert (E : fdt_create_empty_tree bufsize m = then_ (write_tree 0 bufsize [] empty_tree) (fdt_open_into 0 0 bufsize) m).
  { unfold fdt_create_empty_tree, write_tree. cbn [write_rsvs empty_tree sflat map flat_map app write_toks write_tok].
    rewrite then_assoc. apply then_ext. intros m1. rewrite then_assoc, then_ret, then_assoc. apply then_ext. intros m2.
    rewrite !then_assoc. apply then_ext. intros m3. rewrite !then_assoc. apply then_ext. intros m4. by rewrite then_ret. }
  rewrite E. destruct (write_tree_spec 0 bufsize [] empty_tree m) as [(r & m' & E1 & [(-> & pts & Es & Hfin)|(-> & Hsm & Hd)])|(_ & _ & Hlong)]; [lia|done..| | | |].
  - by repeat constructor.
  - rewrite (then_ok _ _ _ _ E1). destruct (open_finished _ _ _ _ _ _ Hfin Es) as (m2 & E2 & Hr & Ht & Hd); [done|].
    exists 0, m2. split; [done|]. split; [done|]. by left.
  - eexists _, m'. rewrite (then_err _ _ _ _ _ E1 eq_refl). split; [done|]. split; [done|]. right. split; [done|exact Hsm].
  - change (sflat empty_tree) with [TBegin []; TEnd] in Hlong. rewrite !Exists_cons, Exists_nil in Hlong. simpl in Hlong. tauto.
Qed.

(** * A larger buffer *)

(** A blob that is being written can be given another size where it is, as long as
    what it has fits; the tokens stay, and the gap takes the difference. *)
Theorem fdt_resize_in_place flags tot mid rest pts n m bufsize : building flags tot mid rest pts n m -> 0 <= bufsize <= Z.of_nat (length m) ->
  (tot - Z.of_nat n <= bufsize /\ exists rest' n' m', fdt_resize 0 0 bufsize m = Some (0, m') /\ building flags bufsize mid rest' pts n' m' /\
     Z.of_nat n' = Z.of_nat n + bufsize - tot) \/
  (bufsize < tot - Z.of_nat n /\ fdt_resize 0 0 bufsize m = Some (- FDT_ERR_NOSPACE, m)).
Proof.
  intros (gap & strs & -> & Hok & Ht & Hn) Hb. set (body := ptoks_bytes pts) in *. pose proof Hok as [Hf Hto Hs Hby].
  set (h := words [FDT_SW_MAGIC; tot; 40 + Z.of_nat (length mid); tot; 48; 17; flags; 0; Z.of_nat (length strs); Z.of_nat (length body)]).
  assert (Hh : length h = 40%nat) by done. assert (Hlen : (length (sw flags tot mid body gap strs rest) = 40 + length mid + length body + length gap + length strs + length rest)%nat).
  { unfold sw. rewrite !length_app, length_words. simpl length. lia. }
  unfold fdt_resize. rewrite !rd_at_0. erewrite rbind by (apply rd_eq, sw_probe_any). change (nz 0) with false. cbv iota. erewrite rbind by (by apply rd_eq, sw_soff). erewrite rbind by (by apply rd_eq, sw_ssize). erewrite rbind by (by apply rd_eq, sw_strsize).
  unfold u32, u64. rewrite wrap_small by (unfold fits; lia). erewrite rbind by (by apply rd_eq, sw_total). rewrite (wrap_small 64) by (unfold fits; lia).
  rewrite (proj2 (Z.ltb_ge tot _)) by lia. destruct (Z.ltb_spec bufsize (40 + Z.of_nat (length mid) + Z.of_nat (length body) + Z.of_nat (length strs))) as [Hlt|Hge].
  { right. split; [lia|done]. }
  left. split; [lia|]. cbn [Z.leb Z.compare Z.add]. set (k := Z.to_nat (bufsize - (40 + Z.of_nat (length mid) + Z.of_nat (length body) + Z.of_nat (length strs)))).
  set (tail := gap ++ strs ++ rest). assert (Htl : length tail = (length gap + length strs + length rest)%nat) by (unfold tail; rewrite !length_app; lia).
  rewrite (rbind _ _ _ tt (h ++ mid ++ body ++ take k tail ++ strs ++ drop (k + length strs) tail)). 
  2:{ erewrite rbind by (apply rw_memmove_same; lia). unfold sw. fold h. rewrite (app_assoc mid), (app_assoc h).
      rewrite (move_tail _ _ _ _ k) by (rewrite !length_app; lia). by rewrite <- !app_assoc. }
  assert (Hk : (k + length strs <= length tail)%nat) by lia.
  exists (drop (k + length strs) tail), k. eexists. split; [|split].
  - unfold fdt_set_totalsize. subst h. erewrite rbind by (apply (set_word _ 1); simpl; lia). cbn [insert list_insert].
    erewrite rbind by (apply rd_eq, (header_word _ _ 3 tot); [done|unfold fits; lia]). unfold nz. rewrite (proj2 (Z.eqb_neq tot 0)) by lia. cbn [negb].
    erewrite rbind by (apply (set_word _ 3); simpl; lia). cbn [insert list_insert]. reflexivity.
  - exists (take k tail), strs. split; [done|]. split; [|split; [done|rewrite length_take; lia]]. rewrite !Forall_app in Hby. fold body.
    assert (Htf : Forall (fits 8) tail) by (unfold tail; rewrite !Forall_app; tauto).
    split; [done|rewrite length_take; lia|rewrite length_drop; lia|]. rewrite !Forall_app. split; [tauto|]. split; [tauto|]. split; [by apply Forall_take|]. split; [tauto|]. by apply Forall_drop.
  - lia.
Qed.

(** * Examples *)

#[global] Instance stok_w_dec k : Decision (stok_w k).
Proof. destruct k; cbn [stok_w]; apply _. Defined.
#[global] Instance entry_ok_dec e : Decision (entry_ok e).
Proof. unfold entry_ok. apply _. Defined.

Definition demo_rsvs : list (Z * Z) := [(0x80000000, 0x200000); (0x90000000, 0x1000)].

(** A buffer with something in it. *)
Definition old_buffer : list Z := replicate 1600 170.

(** A root with a property whose name is longer than the buffer. *)
Definition long_tree : src := Src [] [(replicate 100 97, [])] [].

Lemma demo_tree_room : tree_room demo_rsvs demo = 1203.
Proof. by vm_compute. Qed.

Lemma write_tree_reads_witness :
  (exists m', write_tree 0 1500 demo_rsvs demo old_buffer = Some (0, m') /\
    drop (Z.to_nat 1500) m' = drop (Z.to_nat 1500) old_buffer /\ reads_as m' demo_rsvs demo) /\
  write_tree 0 100 [] long_tree old_buffer = None.
Proof.
  split; [|vm_compute; reflexivity]. pose proof demo_tree_room as Hroom.
  destruct (write_tree_reads 0 1500 demo_rsvs demo old_buffer) as [(r & m' & E & Hd & Hr)|(_ & Hsm & _)].
  - lia.
  - apply (bool_decide_unpack _). by vm_compute.
  - unfold old_buffer. rewrite length_replicate. lia.
  - unfold old_buffer. rewrite length_replicate. lia.
  - apply (bool_decide_unpack _). by vm_compute.
  - apply (bool_decide_unpack _). by vm_compute.
  - destruct Hr as [[Hr0 Hr]|[_ Hsm]]; [|exfalso; lia]. rewrite Hr0 in E. exists m'. split; [exact E|]. split; [exact Hd|exact Hr].
  - exfalso. lia.
Defined.

(** There is room for the demonstration tree, and sharing the names saves some. *)
Example demo_room :
  (exists m, write_tree 0 1500 demo_rsvs demo old_buffer = Some (0, m) /\ fdt_totalsize m = Some 1062) /\
  (exists m, write_tree 1 1500 demo_rsvs demo old_buffer = Some (0, m) /\ fdt_totalsize m = Some 1203).
Proof. split; eexists; (split; [by vm_compute|by vm_compute]). Qed.

(** A name as long as the buffer. *)
Example long_name_outside :
  then_ (fdt_create 100) (then_ fdt_finish_reservemap (then_ (fdt_begin_node [0]) (fdt_property (replicate 100 97 ++ [0]) [] 0))) (replicate 100 0) = None.
Proof. by vm_compute. Qed.
