(* ===== verification/FdtPath.v ===== *)
(** The path of a node and lists of strings: the rest of
    lib/utils/libfdt/fdt_ro.c and fdt_addresses.c, and fdt_strerror.c.

    A buffer that is filled is a memory of its own. *)

From S2P Require Import Prelude Cstring Fdt FdtTag FdtTree FdtImage FdtEncode FdtRw FdtEdit.

(** * Shorthands *)

Definition fdt_string (fdt : list Z) (stroffset : Z) : option (option Z) := '(p, _) ← fdt_get_string fdt stroffset; Some p.

Definition fdt_subnode_offset (fdt : list Z) (parentoffset : Z) (name : list Z) : option Z :=
  len ← sbi_strlen name; fdt_subnode_offset_namelen fdt parentoffset name (s32 len).

(** [n] bounds the nesting of aliases, as in [fdt_path_offset]. *)
Definition fdt_get_alias_namelen (n : nat) (fdt name : list Z) (namelen : Z) : option (option Z) :=
  aliasoffset ← fdt_path_offset n fdt (cstring "/aliases");
  if aliasoffset <? 0 then Some None else '(p, _) ← fdt_getprop_namelen fdt aliasoffset name namelen; Some p.
Definition fdt_get_alias (n : nat) (fdt name : list Z) : option (option Z) :=
  len ← sbi_strlen name; fdt_get_alias_namelen n fdt name (s32 len).

(** * The path of a node *)

(** [buf[p]], and storing to it. *)
Definition ld8 (p : Z) : RW Z := rd (fun buf => head (from buf p)).
Definition st8 (p c : Z) : RW unit := rw_memcpy p [c] 1.

(** [do { p--; } while (buf[p-1] != '/');] *)
Fixpoint pop_name (n : nat) (p : Z) : RW Z :=
  match n with
  | O => fun _ => None
  | S n => let p := p - 1 in c ← ld8 (p - 1); if c =? 47 then mret p else pop_name n p
  end.

(** [while (pdepth > depth)] *)
Fixpoint pop_names (n : nat) (p pdepth depth : Z) : RW (Z * Z) :=
  if depth <? pdepth then
    match n with
    | O => fun _ => None
    | S n => p ← (fun buf => pop_name (S (length buf)) p buf); pop_names n p (pdepth - 1) depth
    end
  else mret (p, pdepth).

(** The body of the loop up to the end of the search: what is returned, or [p]
    and [pdepth]. *)
Definition push_name (fdt : list Z) (buflen offset depth p pdepth : Z) : RW (Z + Z * Z) :=
  '(p, pdepth) ← pop_names (Z.to_nat (pdepth - depth)) p pdepth depth;
  if depth <=? pdepth then
    '(name, namelen) ← rd (fun _ => fdt_get_name fdt offset);
    match name with
    | None => mret (inl namelen)
    | Some name =>
        if s32 (p + namelen + 1) <=? buflen then
          rw_memcpy p (from fdt name) namelen;;
          st8 (p + namelen) 47;;
          mret (inr (p + namelen + 1, pdepth + 1))
        else mret (inr (p, pdepth))
    end
  else mret (inr (p, pdepth)).

Fixpoint get_path_loop (n : nat) (fdt : list Z) (nodeoffset buflen offset depth p pdepth : Z) : RW Z :=
  if (0 <=? offset) && (offset <=? nodeoffset) then
    match n with
    | O => fun _ => None
    | S n =>
        r ← push_name fdt buflen offset depth p pdepth;
        match r with
        | inl err => mret err
        | inr (p, pdepth) =>
            if offset =? nodeoffset then
              if pdepth <? depth + 1 then mret (- FDT_ERR_NOSPACE)
              else st8 (if 1 <? p then p - 1 else p) 0;; mret 0
            else
              '(offset, d) ← rd (fun _ => fdt_next_node fdt offset (Some depth));
              get_path_loop n fdt nodeoffset buflen offset (default 0 d) p pdepth
        end
    end
  else mret (if (offset =? - FDT_ERR_NOTFOUND) || (0 <=? offset) then - FDT_ERR_BADOFFSET
             else if offset =? - FDT_ERR_BADOFFSET then - FDT_ERR_BADSTRUCTURE else offset).

(** The memory is the buffer. *)
Definition fdt_get_path (fdt : list Z) (nodeoffset buflen : Z) : RW Z :=
  r ← rd (fun _ => fdt_ro_probe_ fdt);
  if r <? 0 then mret r
  else if buflen <? 2 then mret (- FDT_ERR_NOSPACE)
  else get_path_loop (S (length fdt)) fdt nodeoffset buflen 0 0 0 0.

(** * Lists of strings *)

(** [while (list < end)]: [visit] may return with the string, its length with
    the terminator and the index. *)
Fixpoint stringlist_loop {A} (n : nat) (fdt : list Z) (list_ end_ idx : Z) (visit : Z -> Z -> Z -> option (option A)) (bad : A) (done : Z -> A) : option A :=
  if list_ <? end_ then
    match n with
    | O => None
    | S n =>
        len ← sbi_strnlen (from fdt list_) (end_ - list_);
        let length := s32 (len + 1) in
        if end_ <? list_ + length then Some bad
        else
          r ← visit list_ length idx;
          match r with Some a => Some a | None => stringlist_loop n fdt (list_ + length) end_ (idx + 1) visit bad done end
    end
  else Some (done idx).

Definition fdt_stringlist_count (fdt : list Z) (nodeoffset : Z) (property : list Z) : option Z :=
  '(l, length_) ← fdt_getprop fdt nodeoffset property;
  match l with
  | None => Some length_
  | Some l => stringlist_loop (S (length fdt)) fdt l (l + length_) 0 (fun _ _ _ => Some None) (- FDT_ERR_BADVALUE) (fun count => count)
  end.

Definition fdt_stringlist_search (fdt : list Z) (nodeoffset : Z) (property string : list Z) : option Z :=
  '(l, length_) ← fdt_getprop fdt nodeoffset property;
  match l with
  | None => Some length_
  | Some l =>
      len ← sbi_strlen string;
      let len := s32 (len + 1) in
      stringlist_loop (S (length fdt)) fdt l (l + length_) 0
        (fun l length_ idx =>
           if length_ =? len then c ← sbi_memcmp (from fdt l) string (Z.to_nat length_); Some (if c =? 0 then Some idx else None)
           else Some None)
        (- FDT_ERR_BADVALUE) (fun _ => - FDT_ERR_NOTFOUND)
  end.

(** The string, and its length or the error.  [idx] counts down to the string. *)
Definition fdt_stringlist_get (fdt : list Z) (nodeoffset : Z) (property : list Z) (idx : Z) : option (option Z * Z) :=
  '(l, length_) ← fdt_getprop fdt nodeoffset property;
  match l with
  | None => Some (None, length_)
  | Some l =>
      stringlist_loop (S (length fdt)) fdt l (l + length_) 0
        (fun l length_ i => Some (if idx =? i then Some (Some l, length_ - 1) else None))
        (None, - FDT_ERR_BADVALUE) (fun _ => (None, - FDT_ERR_NOTFOUND))
  end.

(** * fdt_addresses.c *)

Definition UINT32_MAX : Z := 4294967295.

(** The bytes of an address or a size in [cells] cells. *)
Definition cells_bytes (cells x : Z) : list Z := if cells =? 1 then be32 x else be64 x.

(** [UINT32_MAX + 1] is an [unsigned int]. *)
Definition fdt_appendprop_addrrange (parent nodeoffset : Z) (name : list Z) (addr size : Z) : RW Z :=
  ret ← rd (fun fdt => fdt_address_cells fdt parent);
  if ret <? 0 then mret ret
  else
    let addr_cells := ret in
    ret ← rd (fun fdt => fdt_size_cells fdt parent);
    if ret <? 0 then mret ret
    else
      let size_cells := ret in
      if (addr_cells =? 1) && ((UINT32_MAX <? addr) || (u64 (u32 (UINT32_MAX + 1) - addr) <? size)) then mret (- FDT_ERR_BADVALUE)
      else if negb (addr_cells =? 1) && negb (addr_cells =? 2) then mret (- FDT_ERR_BADNCELLS)
      else if (size_cells =? 1) && (UINT32_MAX <? size) then mret (- FDT_ERR_BADVALUE)
      else if negb (size_cells =? 1) && negb (size_cells =? 2) then mret (- FDT_ERR_BADNCELLS)
      else fdt_appendprop nodeoffset name (cells_bytes addr_cells addr ++ cells_bytes size_cells size) (s32 ((addr_cells + size_cells) * 4)).

(** * fdt_strerror.c *)

(** The table, from index 0 on; the first entry is a null pointer. *)
Definition fdt_errtable : list (option string) :=
  [None; Some "FDT_ERR_NOTFOUND"; Some "FDT_ERR_EXISTS"; Some "FDT_ERR_NOSPACE"; Some "FDT_ERR_BADOFFSET"; Some "FDT_ERR_BADPATH";
   Some "FDT_ERR_BADPHANDLE"; Some "FDT_ERR_BADSTATE"; Some "FDT_ERR_TRUNCATED"; Some "FDT_ERR_BADMAGIC"; Some "FDT_ERR_BADVERSION";
   Some "FDT_ERR_BADSTRUCTURE"; Some "FDT_ERR_BADLAYOUT"; Some "FDT_ERR_INTERNAL"; Some "FDT_ERR_BADNCELLS"; Some "FDT_ERR_BADVALUE";
   Some "FDT_ERR_BADOVERLAY"; Some "FDT_ERR_NOPHANDLES"; Some "FDT_ERR_BADFLAGS"]%string.

(** The size of the table has no sign, and so has the comparison. *)
Definition fdt_strerror (errval : Z) : option string :=
  if 0 <? errval then Some "<valid offset/length>"%string
  else if errval =? 0 then Some "<no error>"%string
  else if u64 (- Z.of_nat (length fdt_errtable)) <? u64 errval then
    s ← fdt_errtable !! Z.to_nat (- errval);
    Some (default "<unknown error>"%string s)
  else Some "<unknown error>"%string.

(** * The stack of names in the buffer *)

Definition stk (path : list (list Z)) : list Z := concat (map (fun s => s ++ [47]) path).

Lemma stk_app l1 l2 : stk (l1 ++ l2) = stk l1 ++ stk l2.
Proof. unfold stk. by rewrite map_app, concat_app. Qed.

Lemma stk_snoc l s : stk (l ++ [s]) = stk l ++ s ++ [47].
Proof. rewrite stk_app. unfold stk at 2. cbn [map concat]. by rewrite app_nil_r. Qed.

Lemma stk_take_mono path i j : (i <= j)%nat -> (length (stk (take i path)) <= length (stk (take j path)))%nat.
Proof.
  intros H. replace (take i path) with (take i (take j path)) by (rewrite take_take; f_equal; lia).
  rewrite <- (take_drop i (take j path)) at 2. rewrite stk_app, length_app. lia.
Qed.

(** A name is taken off by going back to the slash before it. *)
Lemma pop_name_eq l s a : forall r n buf p, buf = l ++ 47 :: a ++ r -> 47 ∉ a -> p = Z.of_nat (length l + 1 + length a) + 1 -> (length a < n)%nat ->
  s = Z.of_nat (length l + 1) -> pop_name n p buf = Some (s, buf).
Proof.
  induction a as [|x a IH] using rev_ind; intros r n buf p Eb Ha Hp Hn Hs; (destruct n as [|n]; [rewrite ?length_app in Hn; simpl in Hn; lia|]); cbn [pop_name].
  - unfold ld8. erewrite rbind.
    2:{ apply rd_eq. rewrite Eb, Hp. unfold from. rewrite (proj2 (Z.ltb_ge _ 0)) by lia. rewrite drop_app_length' by (simpl length; lia). reflexivity. }
    change (47 =? 47) with true. cbv iota. unfold mret, RW_ret. do 2 f_equal. simpl length in *. lia.
  - rewrite length_app in *. cbn [length] in *. rewrite not_elem_of_app in Ha. destruct Ha as [Ha Hx]. unfold ld8. erewrite rbind.
    2:{ apply rd_eq. rewrite Eb, Hp. unfold from. rewrite (proj2 (Z.ltb_ge _ 0)) by lia. rewrite <- app_assoc. change (l ++ 47 :: a ++ [x] ++ r) with (l ++ (47 :: a) ++ [x] ++ r).
        rewrite app_assoc. rewrite drop_app_length' by (rewrite length_app; simpl length; lia). reflexivity. }
    rewrite (proj2 (Z.eqb_neq x 47)) by (intros ->; apply Hx; left).
    apply (IH (x :: r)); [by rewrite Eb, <- app_assoc|done|lia|lia|done].
Qed.

(** Taking off names until [d] are left; the first one stays. *)
Lemma pop_names_eq path buf r d : forall k n p pd, buf = stk (take k path) ++ r -> (1 <= d <= k)%nat -> (k <= length path)%nat -> Forall (fun s => 47 ∉ s) path ->
  p = Z.of_nat (length (stk (take k path))) -> pd = Z.of_nat k -> n = (k - d)%nat ->
  pop_names n p pd (Z.of_nat d) buf = Some (Z.of_nat (length (stk (take d path))), Z.of_nat d, buf).
Proof.
  intros k. revert r. induction k as [|k IH]; intros r n p pd Eb Hd Hk Hn Hp Hpd Hf; [lia|]. destruct (decide (d = S k)) as [->|Hne].
  - subst n. rewrite Nat.sub_diag. cbn [pop_names]. rewrite (proj2 (Z.ltb_ge _ _)) by lia. unfold mret, RW_ret. by rewrite Hp, Hpd.
  - destruct n as [|n]; [lia|]. cbn [pop_names]. rewrite (proj2 (Z.ltb_lt _ _)) by lia.
    destruct (lookup_lt_is_Some_2 path k) as [s Es]; [lia|]. pose proof (take_S_r _ _ _ Es) as Et. rewrite Et, stk_snoc in Eb, Hp.
    destruct k as [|k]; [lia|]. destruct (lookup_lt_is_Some_2 path k) as [s' Es']; [lia|]. pose proof (take_S_r _ _ _ Es') as Et'.
    rewrite (rbind _ _ _ (Z.of_nat (length (stk (take (S k) path)))) buf).
    2:{ rewrite Forall_lookup in Hn. rewrite Et', stk_snoc in *. apply (pop_name_eq (stk (take k path) ++ s') _ s ([47] ++ r)).
        - rewrite Eb, <- !app_assoc. done.
        - by apply (Hn (S k)).
        - rewrite Hp, !length_app. cbn [length]. lia.
        - rewrite Eb, !length_app. lia.
        - rewrite !length_app. cbn [length]. lia. }
    apply (IH (s ++ [47] ++ r)); [by rewrite Eb, <- !app_assoc|lia|lia|done|done|lia|lia].
Qed.

(** The buffer has the names of [path] from the root on, as many as fit. *)
Definition held (path : list (list Z)) (buf : list Z) (p pdepth : Z) : Prop := exists k r,
  buf = stk (take k path) ++ r /\ (k <= length path)%nat /\ p = Z.of_nat (length (stk (take k path))) /\ pdepth = Z.of_nat k /\
  (k = length path \/ (length buf < length (stk (take (S k) path)))%nat).

Section Path.
Context (fdt : list Z) (root : dt) (Hh : holds fdt root).

(** Going back to the parent. *)
Lemma pop_held Q buf p pdepth d : held Q buf p pdepth -> Forall (fun s => 47 ∉ s) Q -> (1 <= d <= length Q)%nat \/ d = 0%nat /\ Q = [] ->
  exists p' pdepth', pop_names (Z.to_nat (pdepth - Z.of_nat d)) p pdepth (Z.of_nat d) buf = Some (p', pdepth', buf) /\ held (take d Q) buf p' pdepth'.
Proof.
  intros (k & r & Eb & Hk & Hp & Hpd & Hmax) Hs Hd. destruct (decide (d < k)%nat) as [Hlt|Hge].
  - destruct Hd as [Hd|[-> ->]]; [|simpl in Hk; lia]. eexists _, _. split; [apply (pop_names_eq Q buf r d k); (done || lia)|].
    exists d, (drop (length (stk (take d Q))) buf). rewrite take_take, Nat.min_id. split; [|rewrite length_take; auto with lia].
    rewrite Eb at 1 2. replace (take k Q) with (take d Q ++ drop d (take k Q)) by (rewrite <- (take_drop d (take k Q)) at 2; rewrite take_take; do 3 f_equal; lia).
    rewrite stk_app, <- app_assoc. by rewrite drop_app_length.
  - replace (Z.to_nat (pdepth - Z.of_nat d)) with 0%nat by lia. cbn [pop_names]. rewrite (proj2 (Z.ltb_ge _ _)) by lia.
    eexists _, _. split; [reflexivity|]. exists k, r. rewrite take_take, Nat.min_l by lia. split; [done|]. rewrite length_take.
    split; [lia|]. split; [done|]. split; [done|]. destruct Hmax as [->|Hmax]; [left; destruct Hd as [?|[-> ->]]; simpl; lia|].
    destruct (decide (k = d)) as [->|Hne]; [left; destruct Hd as [?|[-> ->]]; simpl; lia|]. right. by rewrite take_take, Nat.min_l by lia.
Qed.

(** Going on to a node. *)
Lemma push_held Q buf p pdepth d x : held Q buf p pdepth -> Forall (fun s => 47 ∉ s) Q -> (1 <= d <= length Q)%nat \/ d = 0%nat /\ Q = [] ->
  node_of root x -> Z.of_nat (length buf) + Z.of_nat (length fdt) < 2 ^ 31 ->
  exists p' pdepth' buf', push_name fdt (Z.of_nat (length buf)) (d_off x) (Z.of_nat d) p pdepth buf = Some (inr (p', pdepth'), buf') /\
    length buf' = length buf /\ held (take d Q ++ [d_name x]) buf' p' pdepth'.
Proof.
  intros Hheld Hs Hd Hx Hlen. destruct (pop_held _ _ _ _ _ Hheld Hs Hd) as (p1 & pd1 & E & Hheld1). unfold push_name. erewrite rbind by exact E. cbv beta iota.
  clear Hheld E p pdepth. destruct Hheld1 as (k & r & Eb & Hk & Hp & Hpd & Hmax). set (P := take d Q) in *.
  assert (HP : length P = d) by (unfold P; rewrite length_take; destruct Hd as [?|[-> ->]]; simpl; lia). rewrite HP in *.
  destruct (node_name _ _ Hh x Hx) as [[Hc [rn Hn]] Hget].
  assert (Hnl : (length (d_name x) < length fdt)%nat) by (apply (f_equal length) in Hn; pose proof (length_from_le fdt (soff fdt + d_off x + 4)); rewrite length_app in Hn; simpl in Hn; lia).
  destruct (decide (k = d)) as [->|Hne].
  2:{ destruct Hmax as [?|Hmax]; [lia|]. rewrite (proj2 (Z.leb_gt _ _)) by lia. eexists _, _, _. split; [reflexivity|]. split; [done|]. exists k, r.
      rewrite take_app_le by lia. split; [done|]. split; [rewrite length_app; lia|]. split; [done|]. split; [done|]. right. rewrite take_app_le by lia. done. }
  rewrite (proj2 (Z.leb_le _ _)) by lia. erewrite rbind by (apply rd_eq, Hget). cbv beta iota. rewrite take_ge in Eb, Hp by lia.
  assert (Hpl : (length (stk P) <= length buf)%nat) by (rewrite Eb, length_app; lia). rewrite s32_small by lia.
  destruct (Z.leb_spec (p1 + Z.of_nat (length (d_name x)) + 1) (Z.of_nat (length buf))) as [Hfit|Hno].
  - destruct (split_at r (length (d_name x)) (length r - length (d_name x))) as (a & b & -> & Ha & Hb); [rewrite Eb, length_app in Hfit; lia|].
    destruct b as [|b0 b]; [rewrite Eb, !length_app in Hfit; simpl in Hfit; lia|]. rewrite Eb.
    erewrite rbind by (apply rw_memcpy_eq; [done|by rewrite Ha|rewrite Hn, length_app; lia]). rewrite Ha, Hn, take_app_length.
    rewrite app_assoc. unfold st8. erewrite rbind.
    2:{ apply (rw_memcpy_eq (stk P ++ d_name x) [b0] b [47]); [rewrite length_app; lia|done|done]. }
    eexists _, _, _. split; [reflexivity|]. split; [rewrite !length_app; simpl length; lia|]. exists (S d), b. rewrite (take_ge (P ++ _)) by (rewrite length_app; simpl; lia).
    rewrite stk_snoc. split; [rewrite <- !app_assoc; done|]. rewrite !length_app. cbn [length]. split; [lia|]. split; [lia|]. split; [lia|]. left. lia.
  - eexists _, _, _. split; [reflexivity|]. split; [done|]. exists d, r. rewrite take_app_le, take_ge by lia. split; [done|]. rewrite length_app. cbn [length].
    split; [lia|]. split; [done|]. split; [done|]. right. rewrite take_ge by (rewrite length_app; simpl; lia). rewrite stk_snoc, !length_app. simpl length. lia.
Qed.

(** ** The walk *)

(** The nodes in document order, with their names from the root on. *)
Fixpoint prep (P : list (list Z)) (t : dt) : list (dt * list (list Z)) :=
  let '(DT _ name _ kids _) := t in (t, P ++ [name]) :: flat_map (prep (P ++ [name])) kids.

Lemma prep_eq P t : prep P t = (t, P ++ [d_name t]) :: flat_map (prep (P ++ [d_name t])) (d_kids t).
Proof. by destruct t. Qed.

Definition entry_pos (e : dt * list (list Z)) : Z * Z := (d_off e.1, Z.of_nat (length e.2) - 1).

Lemma prep_pre t : forall P, map entry_pos (prep P t) = pre (Z.of_nat (length P)) t.
Proof.
  induction t as [o name props kids oe IH] using dt_forall. intros P. rewrite prep_eq, pre_eq. cbn [map d_name d_kids d_off]. f_equal.
  { unfold entry_pos. cbn [fst snd d_off]. rewrite length_app. cbn [length]. f_equal. lia. }
  unfold pres. induction IH as [|k kids Hk _ IHk]; [done|]. cbn [flat_map]. rewrite map_app, IHk, Hk. do 2 f_equal. rewrite length_app. simpl length. lia.
Qed.

Lemma prep_nodes t P : map fst (prep P t) = nodes t.
Proof.
  revert P. induction t as [o name props kids oe IH] using dt_forall. intros P. rewrite prep_eq. cbn [map nodes fst d_kids d_name]. f_equal.
  induction IH as [|k kids Hk _ IHk]; [done|]. cbn [flat_map]. by rewrite map_app, IHk, Hk.
Qed.

(** Each node's parent is among the ancestors of the node before it. *)
Fixpoint follows (Q : list (list Z)) (l : list (dt * list (list Z))) : Prop :=
  match l with
  | [] => True
  | (x, P) :: l => (exists d, (1 <= d <= length Q)%nat /\ P = take d Q ++ [d_name x]) /\ follows P l
  end.

Lemma prep_follows t : forall R Q rest, R <> [] -> R `prefix_of` Q -> (forall Q', R `prefix_of` Q' -> follows Q' rest) -> follows Q (prep R t ++ rest).
Proof.
  induction t as [o name props kids oe IH] using dt_forall. intros R Q rest Hne HR Hrest. rewrite prep_eq. cbn [app follows d_name d_kids]. split.
  { exists (length R). destruct HR as [q ->]. rewrite length_app, take_app_length. split; [|done]. destruct R; [done|]. simpl. lia. }
  assert (Hk : forall Q', (R ++ [name]) `prefix_of` Q' -> follows Q' (flat_map (prep (R ++ [name])) kids ++ rest)); [|by apply Hk].
  induction IH as [|k kids Hk _ IHk]; intros Q' HQ'; cbn [flat_map].
  - apply Hrest. destruct HQ' as [q ->]. exists ([name] ++ q). by rewrite <- app_assoc.
  - rewrite <- app_assoc. apply Hk; [by destruct R|done|exact IHk].
Qed.

Lemma follows_root : follows [d_name root] (flat_map (prep [d_name root]) (d_kids root)).
Proof.
  assert (H : forall kids Q, [d_name root] `prefix_of` Q -> follows Q (flat_map (prep [d_name root]) kids)); [|by apply H].
  induction kids as [|k kids IH]; intros Q HQ; [done|]. cbn [flat_map]. apply prep_follows; [done|done|exact IH].
Qed.

(** The path as a string: the root alone is a slash. *)
Definition path_str (segs : list (list Z)) : list Z := if bool_decide (segs = []) then [47] else path_bytes segs.

Lemma stk_path segs : stk ([] :: segs) = path_bytes segs ++ [47].
Proof.
  unfold stk, path_bytes. cbn [map concat app]. induction segs as [|s segs IH]; [done|]. cbn [map concat app]. f_equal. rewrite <- !app_assoc. f_equal. exact IH.
Qed.

(** The end of the search. *)
Lemma path_done segs buf p pdepth d : held ([] :: segs) buf p pdepth -> (2 <= length buf)%nat -> d = Z.of_nat (length segs) ->
  exists r buf', (if pdepth <? d + 1 then mret (- FDT_ERR_NOSPACE) else st8 (if 1 <? p then p - 1 else p) 0;; mret 0) buf = Some (r, buf') /\
    ((length (path_bytes segs) < length buf)%nat /\ r = 0 /\ starts (path_str segs ++ [0]) buf' \/
     (length buf <= length (path_bytes segs))%nat /\ r = - FDT_ERR_NOSPACE).
Proof.
  intros (k & r & Eb & Hk & Hp & Hpd & Hmax) Hb ->. cbn [length] in *. destruct (decide (k = S (length segs))) as [->|Hne].
  - rewrite take_ge in Eb, Hp by (simpl; lia). rewrite stk_path in Eb, Hp. rewrite length_app in Hp. cbn [length] in Hp.
    rewrite (proj2 (Z.ltb_ge pdepth _)) by lia. assert (Hl : (length (path_bytes segs) < length buf)%nat) by (rewrite Eb, !length_app; simpl; lia).
    assert (Hseg : segs = [] \/ segs <> [] /\ (0 < length (path_bytes segs))%nat) by (destruct segs; [by left|right; split; [done|simpl; lia]]).
    destruct Hseg as [->|[Hs0 Hs]].
    + change (length (path_bytes [])) with 0%nat in Hp. rewrite (proj2 (Z.ltb_ge 1 p)) by lia. cbn [path_bytes map concat app] in Eb.
      destruct r as [|c r]; [rewrite Eb in Hb; simpl in Hb; lia|]. unfold st8. rewrite Eb. erewrite rbind by (apply (rw_memcpy_eq [47] [c] r); [simpl; lia|done|done]).
      eexists _, _. split; [reflexivity|]. left. split; [simpl; lia|]. split; [done|]. by exists r.
    + rewrite (proj2 (Z.ltb_lt 1 p)) by lia. rewrite <- app_assoc in Eb. unfold st8. rewrite Eb in Hl |- *. erewrite rbind by (apply rw_memcpy_eq; [lia|done|done]).
      eexists _, _. split; [reflexivity|]. left. split; [done|]. split; [done|]. unfold path_str. rewrite bool_decide_eq_false_2 by done. exists r. by rewrite <- app_assoc.
  - rewrite (proj2 (Z.ltb_lt pdepth _)) by lia. eexists _, _. split; [reflexivity|]. right. split; [|done]. destruct Hmax as [?|Hmax]; [lia|].
    pose proof (stk_take_mono ([] :: segs) (S k) (S (length segs)) ltac:(lia)) as Hm. rewrite (take_ge _ (S (length segs))) in Hm by (simpl; lia).
    rewrite stk_path, length_app in Hm. change (length [47]) with 1%nat in Hm. lia.
Qed.

Lemma get_path_loop_visits ts target T : document fdt ts -> Forall (fun t => 47 ∉ d_name t) (nodes root) ->
  forall l n ts1 x P ts2 name f Q d buf p pdepth,
  ts = ts1 ++ KBegin (d_off x) name :: ts2 -> visits ts2 (Z.of_nat d) = (map entry_pos l, f) -> Z.of_nat d + Z.of_nat (length ts2) < 2 ^ 31 - 1 ->
  held Q buf p pdepth -> Forall (fun s => 47 ∉ s) Q -> ((1 <= d <= length Q)%nat \/ d = 0%nat /\ Q = []) -> P = take d Q ++ [d_name x] -> follows P l ->
  Forall (node_of root) (x :: map fst l) -> (target, [] :: T) ∈ (x, P) :: l -> (length l < n)%nat ->
  (2 <= length buf)%nat -> Z.of_nat (length buf) + Z.of_nat (length fdt) < 2 ^ 31 ->
  exists r buf', get_path_loop n fdt (d_off target) (Z.of_nat (length buf)) (d_off x) (Z.of_nat d) p pdepth buf = Some (r, buf') /\
    ((length (path_bytes T) < length buf)%nat /\ r = 0 /\ starts (path_str T ++ [0]) buf' \/ (length buf <= length (path_bytes T))%nat /\ r = - FDT_ERR_NOSPACE).
Proof.
  intros D Hsl. induction l as [|[y R] l IH]; intros n ts1 x P ts2 name f Q d buf p pdepth E Ev Hb Hheld HQ Hd HP Hl Hn Hin Hn' Hb2 Hlen;
    (destruct n as [|n]; [simpl in Hn'; lia|]).
  all: pose proof (begin_offset _ _ D _ _ _ _ E) as [Ho _]; pose proof (visits_after _ _ D _ _ _ _ _ _ _ E Ev) as Haft.
  all: apply Forall_cons in Hn as [Hx Hn].
  all: assert (Hle : d_off x <= d_off target) by (apply elem_of_cons in Hin as [[= -> _]|Hin]; [lia|];
    rewrite Forall_map, Forall_forall in Haft; specialize (Haft _ Hin); simpl in Haft; lia).
  all: cbn [get_path_loop]; rewrite (proj2 (Z.leb_le 0 (d_off x))), (proj2 (Z.leb_le (d_off x) _)) by lia; cbn [andb].
  all: destruct (push_held Q buf p pdepth d x Hheld HQ Hd Hx Hlen) as (p' & pd' & buf' & Ep & Hl' & Hheld'); erewrite rbind by exact Ep; cbv beta iota.
  all: rewrite <- HP in Hheld'; rewrite <- Hl' in Hb2, Hlen |- *.
  all: assert (HPl : length P = S d) by (rewrite HP, length_app, length_take; destruct Hd as [?|[-> ->]]; simpl; lia).
  all: assert (Hfound : d_off x = d_off target -> P = [] :: T) by (intros Et; apply elem_of_cons in Hin as [[= -> <-]|Hin]; [done|];
    rewrite Forall_map, Forall_forall in Haft; specialize (Haft _ Hin); simpl in Haft; lia).
  all: destruct (Z.eqb_spec (d_off x) (d_off target)) as [Et|Et]; [rewrite Hfound in Hheld', HPl by done; apply path_done; [done|done|simpl in HPl; lia]|].
  - by apply elem_of_cons in Hin as [[= -> _]|Hin%elem_of_nil].
  - cbn [map] in Ev, Hn. pose proof (scan_visits _ _ _ _ (Nat2Z.is_nonneg d) Ev) as Hs. destruct Hs as (Hd' & Es & ts1' & name' & ts3 & E3 & Ev3). cbn [entry_pos fst snd] in *.
    erewrite rbind by (apply rd_eq; rewrite (fdt_next_node_scan _ _ D _ _ _ _ _ E) by (simpl; lia); rewrite Es; reflexivity). cbv beta iota. cbn [default from_option id].
    destruct Hl as [(d2 & Hd2 & HR) Hl]. assert (HRl : length R = S d2) by (rewrite HR, length_app, length_take; simpl; lia).
    rewrite HRl in *. replace (Z.of_nat (S d2) - 1) with (Z.of_nat d2) in * by lia.
    apply (IH n (ts1 ++ KBegin (d_off x) name :: ts1') y R ts3 name' f P d2 buf' p' pd'); [by rewrite E, E3, <- app_assoc|done| |done| |by left|done|done|done| |simpl in Hn'; lia|done|done].
    + rewrite E3, length_app in Hb. simpl in Hb. lia.
    + rewrite HP. apply Forall_app. split; [by apply Forall_take|]. constructor; [|constructor]. rewrite Forall_forall in Hsl. apply Hsl. by apply node_nodes.
    + apply elem_of_cons in Hin as [[= -> _]|Hin]; done.
Qed.

(** A node and the names on the way to it. *)
Inductive path_of : list (list Z) -> dt -> Prop :=
| path_root : path_of [] root
| path_kid segs t k : path_of segs t -> k ∈ d_kids t -> path_of (segs ++ [d_name k]) k.

Lemma prep_kid u : forall R t P k, (t, P) ∈ prep R u -> k ∈ d_kids t -> (k, P ++ [d_name k]) ∈ prep R u.
Proof.
  induction u as [o name props kids oe IH] using dt_forall. intros R t P k. rewrite prep_eq. cbn [d_name d_kids]. intros [[= -> ->]|Hin]%elem_of_cons Hk; right.
  - apply list_elem_of_In, in_flat_map. exists k. split; [by apply list_elem_of_In|]. rewrite prep_eq. by left.
  - apply list_elem_of_In, in_flat_map in Hin as (k' & Hk' & Hin). apply list_elem_of_In, in_flat_map. exists k'. split; [done|]. rewrite Forall_forall in IH.
    apply list_elem_of_In. eapply IH; [by apply list_elem_of_In|by apply list_elem_of_In|done].
Qed.

Lemma path_prep segs t : path_of segs t -> (t, d_name root :: segs) ∈ prep [] root.
Proof. induction 1 as [|segs t k _ IH Hk]; [rewrite prep_eq; by left|]. by apply (prep_kid root [] t (d_name root :: segs)). Qed.

Lemma path_of_node segs t : path_of segs t -> node_of root t.
Proof. induction 1 as [|segs t k _ IH Hk]; [constructor|]. by apply (node_of_kid _ t). Qed.

(** The path of a node, when the buffer has room for it. *)
Lemma fdt_get_path_eq segs t buf : path_of segs t -> d_off root = 0 -> d_name root = [] -> Forall (fun t => 47 ∉ d_name t) (nodes root) ->
  (2 <= length buf)%nat -> Z.of_nat (length buf) + Z.of_nat (length fdt) < 2 ^ 31 ->
  exists r buf', fdt_get_path fdt (d_off t) (Z.of_nat (length buf)) buf = Some (r, buf') /\
    ((length (path_bytes segs) < length buf)%nat /\ r = 0 /\ starts (path_str segs ++ [0]) buf' \/
     (length buf <= length (path_bytes segs))%nat /\ r = - FDT_ERR_NOSPACE).
Proof.
  intros Hp H0 Hname Hsl Hb Hlen. unfold fdt_get_path. destruct (probe_ok _ _ Hh) as (r & Er & Hr0). erewrite rbind by (apply rd_eq, Er). rewrite Hr0.
  rewrite (proj2 (Z.ltb_ge _ 2)) by lia. destruct (holds_node _ _ Hh root (node_self _)) as (ts & ts1 & ts2 & l2 & Dc & E & E2).
  pose proof (begin_offset _ _ Dc _ _ _ _ E) as (_ & _ & Hl). pose proof (fdt_length _ _ Hh). set (l := flat_map (prep [d_name root]) (d_kids root)).
  assert (Ev : exists f, visits ts2 (Z.of_nat 0) = (map entry_pos l, f)).
  { pose proof (prep_pre root []) as Epp. rewrite prep_eq, pre_eq in Epp. cbn [map app] in Epp. injection Epp as Epp. fold l in Epp.
    rewrite <- visits_strip, E2, visits_props, visits_flats by lia. eexists. rewrite Epp. simpl. by rewrite app_nil_r. }
  destruct Ev as [f Ev]. pose proof (visits_bound _ _ _ _ (Nat2Z.is_nonneg 0) Ev) as [Hvl _]. rewrite length_map in Hvl.
  assert (Epr : prep [] root = (root, [d_name root]) :: l) by apply prep_eq.
  pose proof (get_path_loop_visits ts t segs Dc Hsl l (S (length fdt)) ts1 root [d_name root] ts2 _ f [] 0 buf 0 0 E Ev) as G.
  rewrite H0 in G. apply G; [lia| |constructor|by right|done|by apply follows_root| | |lia|done|done].
  - exists 0%nat, buf. split; [done|]. split; [done|]. split; [done|]. split; [done|by left].
  - change (root :: map fst l) with (map fst ((root, [d_name root]) :: l)). rewrite <- Epr, prep_nodes. apply Forall_forall, nodes_node.
  - rewrite <- Epr. rewrite <- Hname at 1. by apply path_prep.
Qed.

(** ** The path that was looked up *)

Lemma name_match_refl name : name_match name name = true.
Proof. unfold name_match. by rewrite firstn_all, bool_decide_eq_true_2, lookup_ge_None_2. Qed.

Lemma name_match_trans a b c : name_match a b = true -> name_match b c = true -> name_match a c = true.
Proof.
  unfold name_match. rewrite !andb_true_iff, !bool_decide_eq_true. intros [E1 H1] [E2 H2].
  assert (Hl : (length a <= length b)%nat) by (apply (f_equal length) in E1; rewrite length_take in E1; lia).
  assert (E : take (length a) c = a) by (rewrite <- E1 at 2; rewrite <- E2, take_take; f_equal; lia). split; [done|].
  destruct (decide (length a = length b)) as [El|Hne].
  - assert (a = b) as -> by (rewrite <- E1, El; apply firstn_all). done.
  - destruct (lookup_lt_is_Some_2 b (length a)) as [x Ex]; [lia|]. rewrite Ex in H1. rewrite <- E2, lookup_take_lt in Ex by lia. by rewrite Ex.
Qed.

Lemma find_finer {A} (p q : A -> bool) l k : List.find p l = Some k -> q k = true -> (forall j, q j = true -> p j = true) -> List.find q l = Some k.
Proof.
  intros Ef Hq Hpq. induction l as [|x l IH]; [done|]. cbn [List.find] in *. destruct (p x) eqn:Ep.
  - injection Ef as ->. by rewrite Hq.
  - destruct (q x) eqn:Eq; [|by apply IH]. by rewrite (Hpq x Eq) in Ep.
Qed.

(** The names, in full, of the nodes that a path leads through. *)
Fixpoint full_names (s : src) (segs : list (list Z)) : option (list (list Z)) :=
  match segs with
  | [] => Some []
  | seg :: segs =>
      k ← List.find (fun k => name_match seg (s_name k)) (s_kids s);
      rest ← full_names k segs;
      Some (s_name k :: rest)
  end.

Lemma full_names_erase seg segs t k : kid_named seg t = Some k -> full_names (erase t) (seg :: segs) = cons (d_name k) <$> full_names (erase k) segs.
Proof.
  intros Ek. cbn [full_names]. rewrite s_kids_erase, find_map. unfold kid_named in Ek.
  replace (List.find _ (d_kids t)) with (Some k); [cbn [fmap option_fmap option_map mbind option_bind]; rewrite s_name_erase; by destruct (full_names _ segs)|].
  rewrite <- Ek. apply find_ext. intros x. by rewrite s_name_erase.
Qed.

(** The full names on the way find the same node. *)
Lemma lookup_full segs : forall t x pre_, path_of pre_ t -> lookup_path t segs = Some x ->
  exists full, full_names (erase t) segs = Some full /\ path_of (pre_ ++ full) x /\ lookup_path t full = Some x.
Proof.
  induction segs as [|s segs IH]; intros t x pre_ Ht E.
  { injection E as <-. exists []. by rewrite app_nil_r. }
  cbn [lookup_path] in E. destruct (kid_named s t) as [k|] eqn:Ek; [|done]. cbn [mbind option_bind] in E.
  destruct (IH k x (pre_ ++ [d_name k])) as (full & Hfn & Hp & El); [eapply path_kid; [done|by eapply kid_named_in]|done|].
  exists (d_name k :: full). rewrite <- app_assoc in Hp. split; [by rewrite (full_names_erase _ _ _ _ Ek), Hfn|]. split; [done|]. cbn [lookup_path].
  replace (kid_named (d_name k) t) with (Some k); [done|]. symmetry. unfold kid_named in *. apply (find_finer _ _ _ _ Ek); [apply name_match_refl|].
  intros j Hj. apply find_some in Ek as [_ Ek]. by eapply name_match_trans.
Qed.
End Path.

(** * Lists of strings *)

(** The loop cuts a string in two where [sbi_strnlen] stops, in the middle of what
    is left, so a search for a string of three characters or more does not meet it
    at the end of a list. *)
Lemma stringlist_miss fdt string len : sbi_strlen string = Some (len - 1) -> len < 2 ^ 31 -> forall m n l u r idx,
  (length u < m)%nat -> (m <= n)%nat -> 0 <= l -> from fdt l = u ++ 0 :: r -> Forall (fun c => fits 8 c /\ c <> 0) u ->
  (Z.of_nat (length u) + 1 < len \/ Z.of_nat (length u) + 1 = len /\ 4 <= len) ->
  stringlist_loop n fdt l (l + Z.of_nat (length u) + 1) idx
    (fun l length_ idx =>
       if length_ =? len then c ← sbi_memcmp (from fdt l) string (Z.to_nat length_); Some (if c =? 0 then Some idx else None)
       else Some None) (- FDT_ERR_BADVALUE) (fun _ => - FDT_ERR_NOTFOUND) = Some (- FDT_ERR_NOTFOUND).
Proof.
  intros Hs Hlen. induction m as [|m IH]; intros n l u r idx Hm Hn Hl Ef Hu Hc; [lia|]. destruct n as [|n]; [lia|]. cbn [stringlist_loop].
  rewrite (proj2 (Z.ltb_lt l _)) by lia. rewrite (sbi_strnlen_half u) by (by split; [|exists r] || lia). cbn [mbind option_bind].
  set (k := Z.min (Z.of_nat (length u)) _).
  assert (Hk : 0 <= k <= Z.of_nat (length u) /\ k + 1 <> len) by (unfold k; Z.to_euclidean_division_equations; lia).
  rewrite s32_small by lia. rewrite (proj2 (Z.ltb_ge _ (l + (k + 1)))) by lia. rewrite (proj2 (Z.eqb_neq (k + 1) len)) by lia. cbn [mbind option_bind].
  destruct (decide (k = Z.of_nat (length u))) as [Ek|Ek].
  { destruct n as [|n]; cbn [stringlist_loop]; by rewrite (proj2 (Z.ltb_ge (l + (k + 1)) _)) by lia. }
  assert (Hd : (Z.to_nat (k + 1) <= length u)%nat) by lia.
  replace (l + Z.of_nat (length u) + 1) with (l + (k + 1) + Z.of_nat (length (drop (Z.to_nat (k + 1)) u)) + 1) by (rewrite length_drop; lia).
  apply (IH n _ (drop (Z.to_nat (k + 1)) u) r); [rewrite length_drop; lia|lia|lia| |by apply Forall_drop|rewrite length_drop; lia].
  replace (k + 1) with (Z.of_nat (Z.to_nat (k + 1))) at 1 by lia. by rewrite <- from_from, Ef, drop_app_le by lia.
Qed.

(** A property that is a single string of three characters or more: the search for
    it in the list reports that it is not there. *)
Theorem fdt_stringlist_search_misses fdt root t p key str : holds fdt root -> node_of root t -> name_ok key -> Z.of_nat (length key) < 2 ^ 31 ->
  find_prop key (d_props t) = Some p -> p_val p = str ++ [0] -> name_ok str -> (3 <= length str)%nat ->
  fdt_stringlist_search fdt (d_off t) (key ++ [0]) (str ++ [0]) = Some (- FDT_ERR_NOTFOUND).
Proof.
  intros Hh Ht Hk Hkl Hp Hv Hstr H3. unfold fdt_stringlist_search.
  rewrite (fdt_getprop_eq _ _ Hh t key) by (done || by split; [|exists []]). rewrite Hp. cbn [mbind option_bind].
  destruct (find_prop_in _ _ _ Hp) as [Hin _]. destruct (holds_prop _ _ Hh t p Ht Hin) as (_ & [r Hr] & Hpos).
  pose proof (f_equal length Hr) as Hl. rewrite Hv, !length_app in Hl. cbn [length] in Hl. pose proof (length_from_le fdt (val_pos fdt p)) as Hle. pose proof (fdt_length _ _ Hh) as Hfl.
  assert (Esl : sbi_strlen (str ++ [0]) = Some (Z.of_nat (length str) + 1 - 1)) by (rewrite (sbi_strlen_spec str) by (by split; [|exists []] || lia); f_equal; lia).
  rewrite Esl. cbn [mbind option_bind]. rewrite s32_small by lia. rewrite Hv, length_app. cbn [length].
  replace (val_pos fdt p + Z.of_nat (length str + 1)) with (val_pos fdt p + Z.of_nat (length str) + 1) by lia.
  replace (Z.of_nat (length str) + 1 - 1 + 1) with (Z.of_nat (length str) + 1) by lia.
  apply (stringlist_miss fdt _ _ Esl ltac:(lia) (S (length str)) _ _ str r); [lia|lia|done| |done|lia].
  by rewrite Hr, Hv, <- app_assoc.
Qed.

(** * Ranges of addresses *)

(** With one cell for each, the limit of the check for overflow wraps around to 0:
    a range that starts at 0 is refused, and one that ends behind the last address
    is not. *)
Theorem fdt_appendprop_addrrange_32 parent nodeoffset name addr size fdt : fdt_address_cells fdt parent = Some 1 -> fdt_size_cells fdt parent = Some 1 ->
  fits 32 addr -> fits 32 size ->
  fdt_appendprop_addrrange parent nodeoffset name addr size fdt =
  if (addr =? 0) && (0 <? size) then Some (- FDT_ERR_BADVALUE, fdt) else fdt_appendprop nodeoffset name (be32 addr ++ be32 size) 8 fdt.
Proof.
  unfold fits. intros Ea Es Ha Hs. unfold fdt_appendprop_addrrange. erewrite rbind by (by apply rd_eq). change (1 <? 0) with false. cbv iota.
  erewrite rbind by (by apply rd_eq). change (1 <? 0) with false. cbv iota zeta. change (1 =? 1) with true. cbn [andb negb].
  rewrite (proj2 (Z.ltb_ge UINT32_MAX addr)), (proj2 (Z.ltb_ge UINT32_MAX size)) by (unfold UINT32_MAX; lia). cbn [orb]. change (u32 (UINT32_MAX + 1)) with 0.
  destruct (Z.eqb_spec addr 0) as [->|Hne]; [change (u64 (0 - 0)) with 0; by destruct (0 <? size)|]. cbn [andb].
  assert (E : u64 (0 - addr) = 2 ^ 64 - addr) by (unfold u64, wrap; rewrite <- (Z.mod_add (0 - addr) 1) by lia; rewrite Z.mod_small; lia).
  rewrite E. by rewrite (proj2 (Z.ltb_ge _ size)) by lia.
Qed.

(** * Error messages *)

(** Every error that the library reports has its name, and nothing outside of the
    table is read. *)
Theorem fdt_strerror_names e : - 2 ^ 31 <= e < 2 ^ 31 ->
  fdt_strerror e = Some (if 0 <? e then "<valid offset/length>"%string else if e =? 0 then "<no error>"%string
                         else default "<unknown error>"%string (mjoin (fdt_errtable !! Z.to_nat (- e)))).
Proof.
  intros He. unfold fdt_strerror. destruct (Z.ltb_spec 0 e) as [|Hp]; [done|]. destruct (Z.eqb_spec e 0) as [|Hz]; [done|].
  change (u64 (- Z.of_nat (length fdt_errtable))) with (2 ^ 64 - 19).
  assert (E : u64 e = 2 ^ 64 + e) by (unfold u64, wrap; rewrite <- (Z.mod_add e 1) by lia; rewrite Z.mod_small; lia). rewrite E.
  destruct (Z.ltb_spec (2 ^ 64 - 19) (2 ^ 64 + e)) as [Hlt|Hge].
  - destruct (lookup_lt_is_Some_2 fdt_errtable (Z.to_nat (- e))) as [s Es]; [change (length fdt_errtable) with 19%nat; lia|]. by rewrite Es.
  - rewrite lookup_ge_None_2; [done|]. change (length fdt_errtable) with 19%nat. lia.
Qed.

(** The names of all nodes but the root can be part of a path. *)
Definition names_ok (s : src) : Prop := s_name s = [] /\ Forall (fun k => seg_ok (s_name k)) (flat_map s_nodes (s_kids s)).
#[global] Instance names_ok_dec s : Decision (names_ok s).
Proof. unfold names_ok. apply _. Defined.

Lemma node_below_root r t k : node_of r t -> k ∈ d_kids t -> k ∈ flat_map nodes (d_kids r).
Proof.
  intros Ht Hk. apply list_elem_of_In, in_flat_map. destruct Ht as [t|t k0 t' Hk0 Ht].
  - exists k. split; [by apply list_elem_of_In|]. apply list_elem_of_In, node_nodes. constructor.
  - exists k0. split; [by apply list_elem_of_In|]. apply list_elem_of_In, node_nodes. by apply (node_of_kid k0 t').
Qed.

Lemma path_names root segs t : path_of root segs t -> Forall (fun nm => exists k, k ∈ flat_map nodes (d_kids root) /\ d_name k = nm) segs.
Proof.
  induction 1 as [|segs t k Hp IH Hk]; [constructor|]. apply Forall_app. split; [done|]. constructor; [|constructor].
  exists k. split; [|done]. eapply node_below_root; [by eapply path_of_node|done].
Qed.

Lemma names_ok_place s segs t : names_ok s -> path_of (place 0 s) segs t -> Forall seg_ok segs /\ Forall (fun k => 47 ∉ d_name k) (nodes (place 0 s)).
Proof.
  intros [Hr Hn] Hp. assert (Hbelow : Forall (fun k => seg_ok (d_name k)) (flat_map nodes (d_kids (place 0 s)))).
  { rewrite <- (erase_place s 0) in Hn. rewrite s_kids_erase in Hn. clear -Hn. induction (d_kids (place 0 s)) as [|k kids IH]; [constructor|].
    cbn [map flat_map] in *. apply Forall_app in Hn as [H1 H2]. apply Forall_app. split; [|by apply IH]. rewrite s_nodes_erase, Forall_map in H1.
    eapply Forall_impl; [exact H1|]. intros x. simpl. by rewrite s_name_erase. }
  split.
  - eapply Forall_impl; [exact (path_names _ _ _ Hp)|]. intros nm (k & Hk & <-). rewrite Forall_forall in Hbelow. by apply Hbelow.
  - destruct (place 0 s) as [o name props kids oe] eqn:Ep. cbn [nodes d_kids] in *. constructor.
    + cbn [d_name]. assert (name = []) as ->; [|apply not_elem_of_nil]. by rewrite <- Hr, <- (erase_place s 0), Ep.
    + eapply Forall_impl; [exact Hbelow|]. intros k [_ Hk] Hin. rewrite Forall_forall in Hk. by destruct (Hk _ Hin) as (_ & _ & ?).
Qed.

(** C38: The path of a node below the root that was found by a path, whose parts
    may leave out unit addresses: the function writes the full path, that is,
    the full names of the nodes on the way, each after a slash, and a
    terminator, and with it the node is found again; or it reports that the
    buffer is too small for this path, exactly when it is. *)
Theorem fdt_get_path_canonical tbl s segs n o buf : writable tbl s -> names_ok s -> segs <> [] -> Forall seg_ok segs ->
  Z.of_nat (length (path_bytes segs)) < 2 ^ 31 -> (2 <= length buf)%nat -> Z.of_nat (length buf) + Z.of_nat (length (encode tbl s)) < 2 ^ 31 ->
  fdt_path_offset n (encode tbl s) (path_bytes segs ++ [0]) = Some o -> 0 <= o ->
  exists full r buf', fdt_get_path (encode tbl s) o (Z.of_nat (length buf)) buf = Some (r, buf') /\
    full_names s segs = Some full /\ find_path s full = find_path s segs /\
    ((length (path_bytes full) < length buf)%nat /\ r = 0 /\ starts (path_bytes full ++ [0]) buf' /\ fdt_path_offset n (encode tbl s) buf' = Some o \/
     (length buf <= length (path_bytes full))%nat /\ r = - FDT_ERR_NOSPACE).
Proof.
  intros (Ht & Hs & Hl) [Hroot Hnames] Hne Hseg Hlen Hb Hbl Eo Ho. destruct (encode_holds tbl s Ht Hs Hl) as [Hh H0].
  rewrite (fdt_path_offset_eq _ _ Hh n segs) in Eo by (done || by exists []; rewrite app_nil_r). injection Eo as Eo.
  destruct (lookup_path (place 0 s) segs) as [x|] eqn:Ex; [|unfold FDT_ERR_NOTFOUND in Eo; lia].
  destruct (lookup_full _ _ _ _ [] (path_root _) Ex) as (full & Hfn & Hp & Ef). cbn [app] in Hp. rewrite erase_place in Hfn.
  assert (Hok : Forall seg_ok full /\ Forall (fun k => 47 ∉ d_name k) (nodes (place 0 s))) by (by apply (names_ok_place s full x)). destruct Hok as [Hok Hsl].
  assert (Hrn : d_name (place 0 s) = []) by (by rewrite <- s_name_erase, erase_place).
  assert (Hne' : full <> []).
  { intros ->. destruct segs as [|seg segs]; [done|]. cbn [full_names] in Hfn.
    destruct (List.find _ _) as [k|]; [|done]. cbn [mbind option_bind] in Hfn. by destruct (full_names k segs). }
  exists full.
  destruct (fdt_get_path_eq _ _ Hh full x buf Hp H0 Hrn Hsl Hb Hbl) as (r & buf' & E & Hr). rewrite Eo in E. exists r, buf'. split; [done|]. split; [done|].
  split; [rewrite <- (erase_place s 0), !find_path_erase; by rewrite Ef, Ex|]. destruct Hr as [(Hlt & -> & Hst)|[Hge ->]]; [left|by right].
  unfold path_str in Hst. rewrite bool_decide_eq_false_2 in Hst by done. split; [done|]. split; [done|]. split; [done|].
  rewrite (fdt_path_offset_eq _ _ Hh n full) by (done || lia). by rewrite Ef, Eo.
Qed.

(** The part before a unit address is enough to find a node, and is completed. *)
Lemma fdt_get_path_canonical_witness : let fdt := encode demo_names demo in
  exists buf', fdt_get_path fdt 556 40 (replicate 40 0) = Some (0, buf') /\ starts (cstring "/soc/plic@c000000") buf' /\
    fdt_path_offset 0 fdt (cstring "/soc/plic") = Some 556 /\ fdt_path_offset 0 fdt buf' = Some 556.
Proof.
  destruct (fdt_get_path_canonical demo_names demo [chars "soc"; chars "plic"] 0 556 (replicate 40 0)) as (full & r & buf' & E & Hf & _ & Hr).
  - apply demo_writable.
  - apply (bool_decide_unpack _). by vm_compute.
  - done.
  - apply (bool_decide_unpack _). by vm_compute.
  - by vm_compute.
  - rewrite length_replicate. lia.
  - by vm_compute.
  - by vm_compute.
  - lia.
  - assert (Hn : full_names demo [chars "soc"; chars "plic"] = Some [chars "soc"; chars "plic@c000000"]) by (vm_compute; reflexivity).
    assert (Hf' : full = [chars "soc"; chars "plic@c000000"]) by congruence. rewrite Hf' in Hr.
    assert (Hb : path_bytes [chars "soc"; chars "plic@c000000"] ++ [0] = cstring "/soc/plic@c000000") by (vm_compute; reflexivity). rewrite Hb in Hr.
    assert (Hl : (length (path_bytes [chars "soc"; chars "plic@c000000"]) = 17)%nat) by (vm_compute; reflexivity). rewrite Hl, length_replicate in Hr.
    rewrite length_replicate in E. destruct Hr as [(_ & Hr0 & Hs & Ho)|[Hlt _]]; [|exfalso; lia]. rewrite Hr0 in E.
    exists buf'. split; [exact E|]. split; [exact Hs|]. split; [vm_compute; reflexivity|exact Ho].
Defined.

(** The path in the buffer, and what is returned for an offset behind the root:
    the loop goes on there with a negative depth, takes the root's slash off, and
    reads in front of the buffer. *)
Example fdt_get_path_demo : exists buf, fdt_get_path (encode demo_names demo) 556 40 (replicate 40 0) = Some (0, buf) /\ starts (cstring "/soc/plic@c000000") buf.
Proof. eexists. split; [by vm_compute|]. eexists. reflexivity. Qed.

Example fdt_get_path_underflow : let fdt := encode demo_names demo in
  exists fin, fdt_size_dt_struct fdt = Some (fin + 4) /\ fdt_next_tag fdt fin = Some (FDT_END, fin + 4) /\ fdt_get_path fdt fin 40 (replicate 40 0) = None.
Proof. eexists (Z.of_nat (src_size demo)). split; [by vm_compute|]. split; by vm_compute. Qed.

(** So the model of the demonstration tree is not found, and it counts as two. *)
Example stringlist_demo : fdt_stringlist_search (encode demo_names demo) 0 (cstring "model") (cstring "demo") = Some (- FDT_ERR_NOTFOUND) /\
  fdt_stringlist_count (encode demo_names demo) 0 (cstring "model") = Some 2.
Proof. split; by vm_compute. Qed.
