(* ===== verification/FdtFixup.v ===== *)
(** The changes the firmware makes to the device tree before it hands it over:
    lib/utils/fdt/fdt_fixup.c.

    The functions run on the machine and on the memory of the blob, which are
    threaded side by side ([FM]): the firmware's own variables are not in that
    memory. *)

From S2P Require Import Prelude Encoding Bitops Cstring Machine Format Platform Hart Fdt FdtTag FdtTree FdtImage FdtEncode FdtHelper FdtRw FdtEdit.

(** * The machine with a blob *)

Definition FM (A : Type) : Type := list Z -> M (A * list Z).
#[global] Instance FM_ret : MRet FM := fun A a fdt => mret (a, fdt).
#[global] Instance FM_bind : MBind FM := fun A B f x fdt => r ← x fdt; f r.1 r.2.

(** A step of the machine, and one on the blob. *)
Definition onm {A} (x : M A) : FM A := fun fdt => a ← x; mret (a, fdt).
Definition ed {A} (x : RW A) : FM A := fun fdt => match x fdt with Some r => mret r | None => exits XUndef end.

(** [fdt_for_each_subnode(node, fdt, parent) body]: the children are looked up
    while the body changes the blob.  [Some r] in the body is [return r]. *)
Fixpoint subnodes_rw (n : nat) (node : Z) (body : Z -> RW (option Z)) : RW (option Z) :=
  if node <? 0 then mret None
  else
    match n with
    | O => fun _ => None
    | S n =>
        r ← body node;
        match r with
        | Some r => mret (Some r)
        | None => node ← rd (fun fdt => fdt_next_subnode fdt node); subnodes_rw n node body
        end
    end.
Definition for_each_subnode_rw (parent : Z) (body : Z -> RW (option Z)) : RW (option Z) := fun fdt =>
  (node ← rd (fun fdt => fdt_first_subnode fdt parent); subnodes_rw (S (length fdt)) node body) fdt.

(** * [fdt_cpu_fixup] *)

Definition cpu_fixup_body (plat : option sbi_platform) (cpu_offset : Z) : RW (option Z) :=
  '(err, hartid) ← rd (fun fdt => fdt_parse_hart_id fdt cpu_offset);
  if nz err then mret None
  else
    (if sbi_platform_hart_invalid plat hartid
     then fdt_setprop_string cpu_offset (cstring "status") (cstring "disabled") else mret 0);;
    mret None.

(** What is done once the platform is known. *)
Definition cpu_fixup (plat : option sbi_platform) : RW unit :=
  totalsize ← rd fdt_totalsize;
  err ← fdt_open_into 0 0 (s32 (u32 (totalsize + 32)));
  if err <? 0 then mret tt
  else
    cpus_offset ← rd (fun fdt => fdt_path_offset 0 fdt (cstring "/cpus"));
    if cpus_offset <? 0 then mret tt
    else for_each_subnode_rw cpus_offset (cpu_fixup_body plat);; mret tt.

(** * [fdt_plic_fixup] *)

Fixpoint plic_fixup_loop (n : nat) (cells i : Z) : RW unit :=
  match n with
  | O => mret tt
  | S n =>
      irq ← rd (fun fdt => fdt32_ld (from fdt (cells + 4 * (2 * i + 1))));
      (if irq =? IRQ_M_EXT then st32 (cells + 4 * (2 * i + 1)) (2 ^ 32 - 1) else mret tt);;
      plic_fixup_loop n cells (i + 1)
  end.
Definition fdt_plic_fixup (compat : list Z) : RW unit :=
  plic_off ← rd (fun fdt => fdt_node_offset_by_compatible fdt 0 compat);
  if plic_off <? 0 then mret tt
  else
    '(cells, cells_count) ← rd (fun fdt => fdt_getprop fdt plic_off (cstring "interrupts-extended"));
    match cells with
    | None => mret tt
    | Some cells =>
        let cells_count := s32 (u64 cells_count / 4) in
        if cells_count =? 0 then mret tt else plic_fixup_loop (Z.to_nat (Z.quot cells_count 2)) cells 0
    end.

(** * The reserved memory *)

Section Reserved.
(** What the arrays [char name[32]] and [fdt32_t reg[4]] of the stack hold
    before anything is written to them. *)
Context (name0 reg0 : list Z).

(** [*val++ = cpu_to_fdt32(x)] *)
Definition put_cell (val : list Z * nat) (x : Z) : list Z * nat := (sbi_memcpy val.1 val.2 (be32 x) 0 4, (val.2 + 4)%nat).

Definition fdt_resv_memory_update_node (addr size index parent : Z) (no_map : bool) : RW Z :=
  na ← rd (fun fdt => fdt_address_cells fdt 0);
  ns ← rd (fun fdt => fdt_size_cells fdt 0);
  let addr_high := u32 (addr >>u 32) in
  let addr_low := u32 addr in
  let size_high := u32 (size >>u 32) in
  let size_low := u32 size in
  '(name, _) ← rd (fun _ =>
    if (1 <? na) && nz addr_high
    then sbi_snprintf name0 32 (chars "mmode_pmp%d@%x,%x") [VInt index; VInt addr_high; VInt addr_low]
    else sbi_snprintf name0 32 (chars "mmode_pmp%d@%x") [VInt index; VInt addr_low]);
  subnode ← fdt_add_subnode parent name;
  if subnode <? 0 then mret subnode
  else
    err ← (if no_map then fdt_setprop_empty subnode (cstring "no-map") else mret 0);
    if err <? 0 then mret err
    else
      let val := (reg0, 0%nat) in
      let val := if 1 <? na then put_cell val addr_high else val in
      let val := put_cell val addr_low in
      let val := if 1 <? ns then put_cell val size_high else val in
      let val := put_cell val size_low in
      err ← fdt_setprop subnode (cstring "reg") val.1 (s32 ((na + ns) * 4));
      mret (if err <? 0 then err else 0).

(** The node below which the regions are listed, or an error. *)
Definition reserved_parent : RW Z :=
  na ← rd (fun fdt => fdt_address_cells fdt 0);
  ns ← rd (fun fdt => fdt_size_cells fdt 0);
  totalsize ← rd fdt_totalsize;
  err ← fdt_open_into 0 0 (s32 (u32 (totalsize + 256)));
  if err <? 0 then mret err
  else
    parent ← rd (fun fdt => fdt_path_offset 0 fdt (cstring "/reserved-memory"));
    if parent <? 0 then
      parent ← fdt_add_subnode 0 (cstring "reserved-memory");
      if parent <? 0 then mret parent
      else
        err ← fdt_setprop_empty parent (cstring "ranges");
        if err <? 0 then mret err
        else
          err ← fdt_setprop_u32 parent (cstring "#size-cells") ns;
          if err <? 0 then mret err
          else
            err ← fdt_setprop_u32 parent (cstring "#address-cells") na;
            mret (if err <? 0 then err else parent)
    else mret parent.

Definition fdt_reserved_memory_nomap_fixup : RW Z :=
  parent ← rd (fun fdt => fdt_path_offset 0 fdt (cstring "/reserved-memory"));
  if parent <? 0 then mret parent
  else
    r ← for_each_subnode_rw parent (fun subnode =>
      err ← fdt_setprop_empty subnode (cstring "no-map");
      mret (if err <? 0 then Some err else None));
    mret (default 0 r).

Context `{Hardware} `{Platform}.

Definition fdt_cpu_fixup : FM unit :=
  plat ← onm (scratch ← sbi_scratch_thishart_ptr; sbi_platform_ptr scratch);
  ed (cpu_fixup plat).

(** The entries of the PMP from [i] on; [prot], [addr] and [size] keep their
    values when an entry cannot be read. *)
Fixpoint pmp_nodes_loop (n : nat) (scratch i j parent : Z) (old : Z * Z * Z) : FM unit :=
  match n with
  | O => onm (exits XSpin)
  | S n =>
      count ← onm (sbi_hart_pmp_count scratch);
      if i <? count then
        '(err, (prot, addr, size)) ← onm (sbi_hart_pmp_get scratch i old);
        if nz err || negb (nz (prot .& PMP_A)) || nz (prot .& (PMP_R .| PMP_W .| PMP_X))
        then pmp_nodes_loop n scratch (i + 1) j parent (prot, addr, size)
        else
          ed (fdt_resv_memory_update_node addr size j parent false);;
          pmp_nodes_loop n scratch (i + 1) (j + 1) parent (prot, addr, size)
      else mret tt
  end.

Definition fdt_reserved_memory_fixup : FM Z :=
  scratch ← onm sbi_scratch_thishart_ptr;
  parent ← ed reserved_parent;
  if parent <? 0 then mret parent
  else
    has ← onm (sbi_hart_has_feature scratch SBI_HART_HAS_PMP);
    if negb has then
      fw_start ← onm (load (scratch + SBI_SCRATCH_FW_START_OFFSET));
      fw_size ← onm (load (scratch + SBI_SCRATCH_FW_SIZE_OFFSET));
      let addr := fw_start .& not64 (u64 (fw_size - 1)) in
      let size := shl64 1 (log2roundup fw_size) in
      ed (fdt_resv_memory_update_node addr size 0 parent true)
    else
      count ← onm (sbi_hart_pmp_count scratch);
      pmp_nodes_loop (S (Z.to_nat count)) scratch 0 0 parent (0, 0, 0);;
      mret 0.

Definition fdt_fixups : FM unit :=
  ed (fdt_plic_fixup (cstring "riscv,plic0"));;
  fdt_reserved_memory_fixup;;
  mret tt.
End Reserved.

(** * Properties *)

(** ** A loop over the children of a stored node *)

Section ForEach.
Context (tot : Z) (cp : list nat) (n : nat) (body : Z -> RW (option Z)).
(** What the body does to the strings and the tree at child [i], and what it
    relies on. *)
Context (step : list Z * src -> nat -> list Z * src) (P : list Z * src -> Prop).
Context (Hkids : forall x, P x -> exists t, at_path x.2 cp = Some t /\ length (s_kids t) = n).
Context (Hbody : forall x fdt i, P x -> stores fdt tot x.1 x.2 -> (i < n)%nat ->
  exists fdt', body (Z.of_nat (off_path x.2 (cp ++ [i]))) fdt = Some (None, fdt') /\ length fdt' = length fdt /\
    stores fdt' tot (step x i).1 (step x i).2 /\ P (step x i) /\
    off_path (step x i).2 (cp ++ [i]) = off_path x.2 (cp ++ [i])).

Lemma subnodes_rw_stores k : forall x fdt i fuel, P x -> stores fdt tot x.1 x.2 -> (i + k = n)%nat -> (0 < k)%nat -> (k < fuel)%nat ->
  exists fdt', subnodes_rw fuel (Z.of_nat (off_path x.2 (cp ++ [i]))) body fdt = Some (None, fdt') /\ length fdt' = length fdt /\
    stores fdt' tot (foldl step x (seq i k)).1 (foldl step x (seq i k)).2.
Proof.
  induction k as [|k IH]; intros x fdt i fuel HP Hst Hn Hk Hf; [lia|]. destruct fuel as [|fuel]; [lia|]. cbn [subnodes_rw seq foldl].
  rewrite (proj2 (Z.ltb_ge _ 0)) by lia. destruct (Hbody x fdt i HP Hst ltac:(lia)) as (fdt1 & E1 & Hl1 & Hst1 & HP1 & Ho1).
  rewrite (rbind _ _ _ _ _ E1). destruct (Hkids _ HP1) as (t & Ht & Htn). rewrite <- Ho1.
  erewrite rbind by (apply rd_eq, (next_subnode_stores _ _ _ _ Hst1 cp t Ht); lia). destruct k as [|k].
  - rewrite (lookup_ge_None_2 (s_kids t)) by lia. exists fdt1. split; [|by rewrite Hl1]. destruct fuel; [lia|]. done.
  - destruct (lookup_lt_is_Some_2 (s_kids t) (S i)) as [k' ->]; [lia|].
    destruct (IH (step x i) fdt1 (S i) fuel HP1 Hst1 ltac:(lia) ltac:(lia) ltac:(lia)) as (fdt2 & E2 & Hl2 & Hst2).
    exists fdt2. rewrite E2, Hl2. done.
Qed.

Lemma for_each_stores x fdt : P x -> stores fdt tot x.1 x.2 -> (n <= length fdt)%nat ->
  exists fdt', for_each_subnode_rw (Z.of_nat (off_path x.2 cp)) body fdt = Some (None, fdt') /\ length fdt' = length fdt /\
    stores fdt' tot (foldl step x (seq 0 n)).1 (foldl step x (seq 0 n)).2.
Proof.
  intros HP Hst Hn. unfold for_each_subnode_rw. destruct (Hkids _ HP) as (t & Ht & Htn).
  erewrite rbind by (apply rd_eq, (first_subnode_stores _ _ _ _ Hst cp t Ht)). destruct (s_kids t) as [|k kids].
  - simpl in Htn. exists fdt. by rewrite <- Htn.
  - simpl in Htn. apply (subnodes_rw_stores n x fdt 0 _ HP Hst); lia.
Qed.
End ForEach.

(** ** The cpu nodes *)

(** The hart of a cpu node, and its properties being well formed. *)
Definition s_hart (t : src) : option Z :=
  match s_prop (chars "device_type") t, s_prop (chars "reg") t with
  | Some d, Some r =>
      if bool_decide (first_string d = chars "cpu") then
        if (length r <? 4)%nat then None
        else if (length r =? 4)%nat then fdt32_ld r else fdt32_ld (drop 4 r)
      else None
  | _, _ => None
  end.
Definition s_cpu_ok (t : src) : Prop :=
  (forall v, s_prop (chars "device_type") t = Some v -> last v = Some 0 /\ Forall (fits 8) v) /\
  (forall v, s_prop (chars "reg") t = Some v -> (length v <= 4 \/ 8 <= length v)%nat).

Lemma hart_of_erase t : hart_of t = s_hart (erase t).
Proof.
  unfold hart_of, s_hart. rewrite !s_prop_erase.
  by destruct (find_prop (chars "device_type") _), (find_prop (chars "reg") _).
Qed.

Lemma cpu_ok_erase t : s_cpu_ok (erase t) -> cpu_props_ok t.
Proof.
  intros [H1 H2]. rewrite !s_prop_erase in *. split; intros p E; [apply H1|apply H2]; by rewrite E.
Qed.

Lemma parse_hart_id_stores fdt tot strs s p t : stores fdt tot strs s -> at_path s p = Some t -> s_cpu_ok t ->
  fdt_parse_hart_id fdt (Z.of_nat (off_path s p)) = Some (match s_hart t with Some h => (0, h) | None => (SBI_EINVAL, 0) end).
Proof.
  intros Hst Hp Hok. pose proof (path_node p s t 0 Hp) as Hn. rewrite Z.add_0_l in Hn.
  pose proof (fdt_parse_hart_id_eq _ _ (stores_holds _ _ _ _ Hst) _ Hn) as E. rewrite place_off in E.
  rewrite E; [by rewrite hart_of_erase, erase_place|]. apply cpu_ok_erase. by rewrite erase_place.
Qed.

(** Disabling child [i] of the node at [cp], if its hart is not one of the
    platform's and there is space. *)
Definition status : list Z := chars "status".
Definition disabled : list Z := cstring "disabled".
Definition disable_step (invalid : Z -> bool) (tot : Z) (cp : list nat) (x : list Z * src) (i : nat) : list Z * src :=
  match at_path x.2 (cp ++ [i]) with
  | Some t =>
      match s_hart t with
      | Some h =>
          let strs' := prop_strs status t x.1 in
          let s' := upd_path x.2 (cp ++ [i]) (set_prop status disabled) in
          if invalid h && (used s' strs' <=? tot) then (strs', s') else x
      | None => x
      end
  | None => x
  end.

Lemma s_cpu_ok_disabled t : s_cpu_ok t -> s_cpu_ok (set_prop status disabled t).
Proof. intros [H1 H2]. split; rewrite s_prop_set; by rewrite bool_decide_eq_false_2. Qed.

(** What the loop relies on: the node has [n] children, which are well formed. *)
Definition cpus_ok (cp : list nat) (n : nat) (x : list Z * src) : Prop :=
  exists t, at_path x.2 cp = Some t /\ length (s_kids t) = n /\ Forall s_cpu_ok (s_kids t).

Lemma disable_cpus_ok cp n strs s i : cpus_ok cp n (strs, s) -> forall strs',
  cpus_ok cp n (strs', upd_path s (cp ++ [i]) (set_prop status disabled)).
Proof.
  intros (t & Ht & Hn & Hok) strs'. cbn [snd] in *. rewrite upd_path_app. eexists. split; [by apply at_path_upd|].
  destruct t as [nm props kids]. cbn [upd_path s_kids] in *. rewrite length_alter. split; [done|]. apply Forall_alter; [done|].
  intros k _ Hk. by apply s_cpu_ok_disabled.
Qed.

Lemma setprop_status fdt tot strs s p t : stores fdt tot strs s -> at_path s p = Some t ->
  edits (fdt_setprop_string (Z.of_nat (off_path s p)) (cstring "status") (cstring "disabled")) 0
    fdt tot strs s (prop_strs status t strs) (upd_path s p (set_prop status disabled)).
Proof.
  intros Hst Hp. pose proof (setprop_stored fdt tot strs s p t status disabled disabled Hst Hp) as H. unfold edits, fdt_setprop_string in *.
  apply H; [apply (bool_decide_unpack _); by vm_compute|by vm_compute|apply (bool_decide_unpack _); by vm_compute|by vm_compute|by exists []].
Qed.

Lemma cpu_fixup_body_stores plat tot cp n x fdt i : cpus_ok cp n x -> stores fdt tot x.1 x.2 -> (i < n)%nat ->
  let x' := disable_step (sbi_platform_hart_invalid plat) tot cp x i in
  exists fdt', cpu_fixup_body plat (Z.of_nat (off_path x.2 (cp ++ [i]))) fdt = Some (None, fdt') /\ length fdt' = length fdt /\
    stores fdt' tot x'.1 x'.2 /\ cpus_ok cp n x' /\ off_path x'.2 (cp ++ [i]) = off_path x.2 (cp ++ [i]).
Proof.
  intros Hok Hst Hi x'. destruct x as [strs s]. cbn [fst snd] in *. pose proof Hok as (t & Ht & Hn & Hc). cbn [snd] in Ht.
  destruct (lookup_lt_is_Some_2 (s_kids t) i) as [k Hk]; [lia|]. pose proof (child_path s cp t Ht i k Hk) as Hp.
  assert (Hkc : s_cpu_ok k) by (rewrite Forall_forall in Hc; by eapply Hc, list_elem_of_lookup_2).
  unfold x', disable_step, cpu_fixup_body. cbn [fst snd]. rewrite Hp. erewrite rbind by (by apply rd_eq, (parse_hart_id_stores _ _ _ _ _ _ Hst Hp)).
  destruct (s_hart k) as [h|]; [|by exists fdt]. cbv iota beta. change (nz 0) with false. cbv iota.
  destruct (sbi_platform_hart_invalid plat h); [|by exists fdt]. cbn [andb].
  destruct (setprop_status _ _ _ _ _ _ Hst Hp) as (fdt' & Hl & He). destruct (_ <=? tot); destruct He as [E Hst'].
  - exists fdt'. rewrite (rbind _ _ _ _ _ E). split; [done|]. split; [done|]. split; [done|]. split; [by eapply disable_cpus_ok|].
    cbn [snd]. by apply (off_path_upd _ _ k).
  - exists fdt'. rewrite (rbind _ _ _ _ _ E). done.
Qed.

(** With enough space the harts that are not the platform's are disabled, and
    nothing else changes. *)
Definition to_disable (invalid : Z -> bool) (t : src) : bool := match s_hart t with Some h => invalid h | None => false end.
Definition disable (invalid : Z -> bool) (t : src) : src := if to_disable invalid t then set_prop status disabled t else t.
Definition map_kids (f : src -> src) (t : src) : src := let '(Src n props kids) := t in Src n props (map f kids).

(** The space a "status" property takes, and its name. *)
Definition STATUS_SIZE : Z := 24.
Definition STATUS_NAME : Z := 7.

Section Room.
Context (invalid : Z -> bool) (tot : Z) (cp : list nat) (nm : list Z) (props : list (list Z * list Z)).
Context (s0 : src) (strs0 : list Z) (kids0 : list src) (Hp0 : at_path s0 cp = Some (Src nm props kids0)).

(** After the first children: they are done, the others are as they were. *)
Definition done_to (dn td : list src) (x : list Z * src) : Prop :=
  x.2 = upd_path s0 cp (fun _ => Src nm props (dn ++ td)) /\ (x.1 = strs0 \/ x.1 = add_string status strs0).

Lemma done_at dn t td x : done_to dn (t :: td) x -> at_path x.2 (cp ++ [length dn]) = Some t /\
  upd_path x.2 (cp ++ [length dn]) (set_prop status disabled) = upd_path s0 cp (fun _ => Src nm props (dn ++ set_prop status disabled t :: td)).
Proof.
  intros [-> _]. rewrite upd_path_app, upd_path_twice. pose proof (at_path_upd cp s0 _ (fun _ => Src nm props (dn ++ t :: td)) Hp0) as Ha. split.
  - rewrite (at_path_app cp _ _ _ Ha). cbn [at_path s_kids]. by rewrite lookup_app_r, Nat.sub_diag by lia.
  - apply (upd_path_ext cp s0 _ _ _ Hp0). cbn [upd_path]. f_equal. by rewrite alter_app_r_alt, Nat.sub_diag by lia.
Qed.

(** What is in use, with what the children [td] may still need. *)
Definition need (td : list src) (x : list Z * src) : Z :=
  used x.2 x.1 + (if bool_decide (x.1 = strs0) then STATUS_NAME else 0) + STATUS_SIZE * Z.of_nat (length (List.filter (to_disable invalid) td)).

Lemma prop_strs_cases t strs : strs = strs0 \/ strs = add_string status strs0 -> let strs' := prop_strs status t strs in
  (strs' = strs0 \/ strs' = add_string status strs0) /\
  Z.of_nat (length strs') + (if bool_decide (strs' = strs0) then STATUS_NAME else 0) <=
  Z.of_nat (length strs) + (if bool_decide (strs = strs0) then STATUS_NAME else 0).
Proof.
  intros Hs strs'. unfold strs', prop_strs, STATUS_NAME. pose proof (add_string_length status strs0) as Hl. change (length status) with 6%nat in Hl.
  destruct (has_prop status t); [split; [done|lia]|]. destruct Hs as [->| ->].
  - split; [by right|]. rewrite (bool_decide_eq_true_2 (strs0 = strs0)) by done. case_bool_decide as E; [rewrite E; lia|lia].
  - rewrite add_string_twice. split; [by right|lia].
Qed.

Lemma disable_one dn t td x : done_to dn (t :: td) x -> need (t :: td) x <= tot ->
  let x' := disable_step invalid tot cp x (length dn) in done_to (dn ++ [disable invalid t]) td x' /\ need td x' <= tot.
Proof.
  intros Hx Hu x'. destruct (done_at _ _ _ _ Hx) as [Ha Eu]. unfold x', disable_step. rewrite Ha, Eu. destruct Hx as [Hx Hs]. unfold need in Hu. cbn [List.filter] in Hu.
  unfold disable. unfold to_disable at 1 in Hu. unfold to_disable at 1. unfold done_to. rewrite <- (app_assoc dn). cbn [app].
  destruct (s_hart t) as [h|]; [|done]. destruct (invalid h); [|done]. cbn [andb length] in *.
  destruct (prop_strs_cases t x.1 Hs) as [Hs' Hl']. pose proof (used_set x.2 _ t status disabled x.1 (prop_strs status t x.1) Ha) as Hus. rewrite Eu in Hus.
  change (Z.of_nat (tok_size (TProp status disabled))) with STATUS_SIZE in Hus. unfold STATUS_SIZE in *.
  assert (Hb : forall b : bool, 0 <= if b then STATUS_NAME else 0) by (intros []; unfold STATUS_NAME; lia).
  pose proof (Hb (bool_decide (prop_strs status t x.1 = strs0))). rewrite (proj2 (Z.leb_le _ _)) by lia.
  split; [done|]. unfold need, STATUS_SIZE. cbn [fst snd]. lia.
Qed.

Lemma disable_fold td : forall dn x, done_to dn td x -> need td x <= tot ->
  done_to (dn ++ map (disable invalid) td) [] (foldl (disable_step invalid tot cp) x (seq (length dn) (length td))).
Proof.
  induction td as [|t td IH]; intros dn x Hx Hu; cbn [map length seq foldl]; [by rewrite app_nil_r|].
  destruct (disable_one _ _ _ _ Hx Hu) as [Hx' Hu']. replace (S (length dn)) with (length (dn ++ [disable invalid t])) by (rewrite length_app; simpl; lia).
  change (disable invalid t :: ?l) with ([disable invalid t] ++ l). rewrite app_assoc. by apply IH.
Qed.
End Room.

(** The two steps before the loop. *)
Lemma cpu_fixup_stores plat fdt tot strs s ci cpus : stores fdt tot strs s -> tot + 32 <= Z.of_nat (length fdt) ->
  index_of (chars "cpus") (s_kids s) = Some ci -> s_kids s !! ci = Some cpus -> Forall s_cpu_ok (s_kids cpus) ->
  let x := foldl (disable_step (sbi_platform_hart_invalid plat) (tot + 32) [ci]) (strs, s) (seq 0 (length (s_kids cpus))) in
  exists fdt', cpu_fixup plat fdt = Some (tt, fdt') /\ length fdt' = length fdt /\ stores fdt' (tot + 32) x.1 x.2.
Proof.
  intros Hst Hm Hci Hk Hok x. pose proof Hst as (pts & rest & E & Hi & Hs). pose proof (lens_pos _ _ _ _ Hi) as Hl. pose proof (img_small _ _ _ _ Hi) as Hsm. rewrite <- E in Hsm.
  unfold cpu_fixup. erewrite rbind by (apply rd_eq; rewrite E; by apply image_total). unfold u32. rewrite wrap_small by (unfold fits; lia). rewrite s32_small by lia.
  destruct (fdt_open_into_stores fdt tot strs s (tot + 32) Hst) as (fdt1 & E1 & Hl1 & Hst1); [lia|]. rewrite (rbind _ _ _ _ _ E1). change (0 <? 0) with false. cbv iota.
  erewrite rbind by (apply rd_eq, (path_offset_stores _ _ _ _ (chars "cpus") 0 Hst1); [apply (bool_decide_unpack _); by vm_compute|by vm_compute]).
  rewrite Hci. rewrite (proj2 (Z.ltb_ge _ 0)) by lia.
  assert (Hp : at_path s [ci] = Some cpus) by (cbn [at_path]; by rewrite Hk).
  destruct (for_each_stores (tot + 32) [ci] (length (s_kids cpus)) (cpu_fixup_body plat)
    (disable_step (sbi_platform_hart_invalid plat) (tot + 32) [ci]) (cpus_ok [ci] (length (s_kids cpus)))) with (x := (strs, s)) (fdt := fdt1) as (fdt2 & E2 & Hl2 & Hst2).
  - intros y (t & Ht & Hn & _). by exists t.
  - intros y fdt' i Hy Hs' Hi'. by apply cpu_fixup_body_stores.
  - by exists cpus.
  - done.
  - pose proof (path_node [ci] s cpus 0 Hp) as Hnode. pose proof (node_size _ _ (stores_holds _ _ _ _ Hst1) _ Hnode) as Hsz.
    rewrite <- (erase_place cpus (0 + Z.of_nat (off_path s [ci]))), s_kids_erase, length_map. lia.
  - exists fdt2. rewrite (rbind _ _ _ _ _ E2), Hl2. done.
Qed.

Definition this_platform `{Platform} (st : st) : option sbi_platform :=
  if mem_val st (csr_val st (cur st) CSR_MSCRATCH + SBI_SCRATCH_PLATFORM_ADDR_OFFSET) =? 0 then None else Some the_platform.

Lemma fdt_cpu_fixup_eq `{Hardware} `{Platform} fdt st :
  fdt_cpu_fixup fdt st = match cpu_fixup (this_platform st) fdt with Some r => Ret r st | None => Exit XUndef st end.
Proof.
  change (fdt_cpu_fixup fdt st) with (ed (cpu_fixup (this_platform st)) fdt st). unfold ed. by destruct (cpu_fixup _ fdt).
Qed.

(** C16: The cpu nodes of harts that the platform does not have are disabled, and
    nothing else changes, when the blob has room for it. *)
Theorem fdt_cpu_fixup_disables `{Hardware} `{Platform} st fdt tot strs s ci cpus :
  let invalid := sbi_platform_hart_invalid (this_platform st) in
  stores fdt tot strs s -> tot + 32 <= Z.of_nat (length fdt) ->
  index_of (chars "cpus") (s_kids s) = Some ci -> s_kids s !! ci = Some cpus -> Forall s_cpu_ok (s_kids cpus) ->
  used s strs + STATUS_NAME + STATUS_SIZE * Z.of_nat (length (List.filter (to_disable invalid) (s_kids cpus))) <= tot + 32 ->
  exists fdt' strs', fdt_cpu_fixup fdt st = Ret (tt, fdt') st /\
    stores fdt' (tot + 32) strs' (upd_path s [ci] (map_kids (disable invalid))).
Proof.
  intros invalid Hst Hm Hci Hk Hok Hroom. destruct (cpu_fixup_stores (this_platform st) fdt tot strs s ci cpus Hst Hm Hci Hk Hok) as (fdt' & E & _ & Hst').
  destruct cpus as [nm props kids]. cbn [s_kids] in *.
  assert (Hp : at_path s [ci] = Some (Src nm props kids)) by (cbn [at_path]; by rewrite Hk).
  pose proof (disable_fold invalid (tot + 32) [ci] nm props s strs kids Hp kids [] (strs, s)) as Hd. destruct Hd as [Hd _].
  - split; [|by left]. cbn [snd app]. symmetry. transitivity (upd_path s [ci] id); [by apply (upd_path_ext [ci] s _ _ _ Hp)|]. cbn [upd_path]. destruct s as [n0 p0 k0]. f_equal.
    apply list_alter_id. done.
  - unfold need. cbn [fst snd]. rewrite bool_decide_eq_true_2 by done. exact Hroom.
  - cbn [app length snd] in Hd. rewrite app_nil_r in Hd. fold invalid in Hst'. rewrite Hd in Hst'.
    rewrite (upd_path_ext [ci] s _ (fun _ => Src nm props (map (disable invalid) kids)) (map_kids (disable invalid)) Hp eq_refl) in Hst'.
    eexists fdt', _. split; [|exact Hst']. by rewrite fdt_cpu_fixup_eq, E.
Qed.

(** ** The interrupts of the PLIC *)

(** The connections to machine mode are taken out: 8 bytes for each, the
    second word being the interrupt. *)
Fixpoint mask_mext (v : list Z) : list Z :=
  match v with
  | a0 :: a1 :: a2 :: a3 :: b0 :: b1 :: b2 :: b3 :: v =>
      [a0; a1; a2; a3] ++ (if bool_decide (fdt32_ld [b0; b1; b2; b3] = Some IRQ_M_EXT) then be32 (2 ^ 32 - 1) else [b0; b1; b2; b3]) ++ mask_mext v
  | _ => v
  end.

Lemma list8_ind (P : list Z -> Prop) : (forall v, (length v < 8)%nat -> P v) ->
  (forall a0 a1 a2 a3 b0 b1 b2 b3 v, P v -> P (a0 :: a1 :: a2 :: a3 :: b0 :: b1 :: b2 :: b3 :: v)) -> forall v, P v.
Proof.
  intros H0 HS v. remember (length v) as n eqn:En. revert v En. induction (lt_wf n) as [n _ IH]. intros v ->.
  destruct v as [|a0 [|a1 [|a2 [|a3 [|b0 [|b1 [|b2 [|b3 v]]]]]]]]; try (apply H0; simpl; lia). apply HS. apply (IH (length v)); [simpl; lia|done].
Qed.

Lemma mask_mext_length v : length (mask_mext v) = length v.
Proof.
  induction v as [v Hv|a0 a1 a2 a3 b0 b1 b2 b3 v IH] using list8_ind.
  - destruct v as [|a0 [|a1 [|a2 [|a3 [|b0 [|b1 [|b2 [|b3 v]]]]]]]]; try done. simpl in Hv. lia.
  - cbn [mask_mext]. rewrite !length_app, IH. case_bool_decide; done.
Qed.

Lemma mask_mext_fits v : Forall (fits 8) v -> Forall (fits 8) (mask_mext v).
Proof.
  induction v as [v Hv|a0 a1 a2 a3 b0 b1 b2 b3 v IH] using list8_ind.
  - destruct v as [|a0 [|a1 [|a2 [|a3 [|b0 [|b1 [|b2 [|b3 v]]]]]]]]; try done. simpl in Hv. lia.
  - rewrite !Forall_cons. intros (? & ? & ? & ? & ? & ? & ? & ? & Hv). cbn [mask_mext]. rewrite !Forall_app, !Forall_cons. repeat (split; [done|]).
    split; [|by apply IH]. case_bool_decide; [apply be32_fits|]. by rewrite !Forall_cons.
Qed.

(** Only the interrupt numbers change. *)
Lemma irq_pairs_mask v : irq_pairs (mask_mext v) = map (fun '(ph, irq) => (ph, if irq =? IRQ_M_EXT then 2 ^ 32 - 1 else irq)) (irq_pairs v).
Proof.
  induction v as [v Hv|a0 a1 a2 a3 b0 b1 b2 b3 v IH] using list8_ind.
  - destruct v as [|a0 [|a1 [|a2 [|a3 [|b0 [|b1 [|b2 [|b3 v]]]]]]]]; try done. simpl in Hv. lia.
  - cbn [mask_mext irq_pairs map]. unfold be32. case_bool_decide as E; cbn [app irq_pairs]; rewrite IH; f_equal; rewrite ?E; [done|].
    cbn [fdt32_ld] in *. cbn [default from_option id]. by rewrite (proj2 (Z.eqb_neq _ IRQ_M_EXT)) by congruence.
Qed.

Section Mask.
Context (tot st sz : Z) (A C rest : list Z).
Notation m v := (raw tot st sz (A ++ v ++ C) rest).

Lemma from_raw v : from (m v) (56 + Z.of_nat (length A)) = v ++ C ++ rest.
Proof.
  unfold from. rewrite (proj2 (Z.ltb_ge _ 0)) by lia. rewrite raw_split, <- (app_assoc v C rest). apply drop_app_length'.
  rewrite !length_app, length_words, length_replicate. simpl length. lia.
Qed.

Lemma plic_loop_raw cells v : cells = 56 + Z.of_nat (length A) -> forall dn i, length dn = (8 * i)%nat ->
  plic_fixup_loop (length v / 8) cells (Z.of_nat i) (m (dn ++ v)) = Some (tt, m (dn ++ mask_mext v)).
Proof.
  intros Hc. induction v as [v Hv|a0 a1 a2 a3 b0 b1 b2 b3 v IH] using list8_ind; intros dn i Hi.
  - rewrite Nat.div_small by done. replace (mask_mext v) with v; [done|].
    destruct v as [|a0 [|a1 [|a2 [|a3 [|b0 [|b1 [|b2 [|b3 v]]]]]]]]; try done. simpl in Hv. lia.
  - replace (length (a0 :: a1 :: a2 :: a3 :: b0 :: b1 :: b2 :: b3 :: v) / 8)%nat with (S (length v / 8)).
    2:{ cbn [length]. replace (S (S (S (S (S (S (S (S (length v))))))))) with (length v + 1 * 8)%nat by lia. rewrite Nat.div_add by lia. lia. }
    cbn [plic_fixup_loop]. set (w := [a0; a1; a2; a3]). set (u := [b0; b1; b2; b3]).
    change (a0 :: a1 :: a2 :: a3 :: b0 :: b1 :: b2 :: b3 :: v) with (w ++ u ++ v).
    assert (Eld : fdt32_ld (from (m (dn ++ w ++ u ++ v)) (cells + 4 * (2 * Z.of_nat i + 1))) = fdt32_ld u).
    { replace (cells + 4 * (2 * Z.of_nat i + 1)) with (56 + Z.of_nat (length A) + Z.of_nat (length (dn ++ w))) by (rewrite length_app, Hi; simpl; lia).
      rewrite <- from_from, from_raw by lia. rewrite <- !app_assoc, (app_assoc dn w), drop_app_length. done. }
    erewrite rbind by (apply rd_eq; rewrite Eld; reflexivity).
    change (mask_mext (w ++ u ++ v)) with (w ++ (if bool_decide (fdt32_ld u = Some IRQ_M_EXT) then be32 (2 ^ 32 - 1) else u) ++ mask_mext v).
    assert (Em : forall u', length u' = 4%nat -> plic_fixup_loop (length v / 8) cells (Z.of_nat i + 1) (m ((dn ++ w ++ u') ++ v)) = Some (tt, m ((dn ++ w ++ u') ++ mask_mext v))).
    { intros u' Hu. replace (Z.of_nat i + 1) with (Z.of_nat (S i)) by lia. apply IH. rewrite !length_app, Hi, Hu. simpl. lia. }
    set (x := Z.shiftl b0 24 .| Z.shiftl b1 16 .| Z.shiftl b2 8 .| b3). destruct (Z.eqb_spec x IRQ_M_EXT) as [Ex|Ex].
    + rewrite bool_decide_eq_true_2 by (unfold u; cbn [fdt32_ld]; fold x; by rewrite Ex).
      replace (m (dn ++ w ++ u ++ v)) with (raw tot st sz ((A ++ dn ++ w) ++ u ++ (v ++ C)) rest) by (by rewrite <- !app_assoc).
      erewrite rbind by (apply raw_st32; [rewrite !length_app, Hi; simpl length; lia|done]).
      replace (raw tot st sz ((A ++ dn ++ w) ++ be32 (2 ^ 32 - 1) ++ v ++ C) rest) with (m ((dn ++ w ++ be32 (2 ^ 32 - 1)) ++ v)) by (by rewrite <- !app_assoc).
      rewrite Em by done. by rewrite <- !app_assoc.
    + rewrite bool_decide_eq_false_2 by (unfold u; cbn [fdt32_ld]; fold x; congruence). erewrite rbind by reflexivity.
      replace (dn ++ w ++ u ++ v) with ((dn ++ w ++ u) ++ v) by (by rewrite <- !app_assoc). rewrite Em by done. by rewrite <- !app_assoc.
Qed.
End Mask.

Definition irqs : list Z := chars "interrupts-extended".

(** The first node after the root that is compatible with [key], by its path. *)
Definition compat_path (key : list Z) (s : src) : option (list nat * src) := List.find (fun x => s_compat key x.2) (tl (pnodes s)).

Lemma compat_offset_stores fdt tot strs s key l : stores fdt tot strs s -> Forall compat_ok (s_nodes s) -> key <> [] -> cstr key l ->
  Z.of_nat (length key) < 2 ^ 31 ->
  fdt_node_offset_by_compatible fdt 0 l = Some (match compat_path key s with Some (p, _) => Z.of_nat (off_path s p) | None => - FDT_ERR_NOTFOUND end).
Proof.
  intros Hst Hc Hne Hl Hk. pose proof (stores_holds _ _ _ _ Hst) as Hh. rewrite <- (erase_place s 0), s_nodes_erase in Hc.
  pose proof (nodes_pnodes s 0) as En. rewrite (fdt_node_offset_by_compatible_eq _ _ Hh 0 (tl (nodes (place 0 s))) key); [|right|..]; try done.
  - f_equal. unfold compat_path. rewrite En. destruct s as [n props kids]. rewrite pnodes_eq. cbn [map tl]. rewrite find_map.
    rewrite (find_ext _ (fun x => s_compat key x.2)) by (intros x; by rewrite <- s_compat_erase, erase_place).
    destruct (List.find _ _) as [[p t]|]; [|done]. cbn [fmap option_fmap option_map fst snd]. by rewrite place_off.
  - exists [], (place 0 s). split; [|by rewrite place_off]. by destruct s.
  - intros t p Hn Hp. rewrite Forall_map, Forall_forall in Hc. specialize (Hc t (node_nodes _ _ Hn)). unfold compat_ok, compose in Hc. by rewrite s_prop_erase, Hp in Hc.
Qed.

(** Writing over the value of a property, without moving anything. *)
Lemma mask_value_image tot l1 x l2 strs rest name v cells : image_ok tot (l1 ++ x :: l2) strs rest -> pk x = TProp name v ->
  cells = 56 + Z.of_nat (toks_size (map pk l1)) + 12 ->
  exists x', pk x' = TProp name (mask_mext v) /\ image_ok tot (l1 ++ x' :: l2) strs rest /\
    length (image tot (l1 ++ x' :: l2) strs rest) = length (image tot (l1 ++ x :: l2) strs rest) /\
    plic_fixup_loop (length v / 8) cells 0 (image tot (l1 ++ x :: l2) strs rest) = Some (tt, image tot (l1 ++ x' :: l2) strs rest).
Proof.
  intros Hi Hx Hc. pose proof (img_toks _ _ _ _ Hi) as Ht. apply Forall_app in Ht as [Ht1 Ht2]. apply Forall_cons in Ht2 as [Hxo Ht2].
  pose proof Hxo as (Hpl & Hpf & Hpk). rewrite Hx in Hpl, Hpk. destruct Hpk as [Hv Hname]. set (x' := mkPtok (TProp name (mask_mext v)) (p_noff x) (p_pad x)).
  assert (Hx' : ptok_ok strs x').
  { split; [cbn; by rewrite mask_mext_length|]. split; [done|]. split; [by apply mask_mext_fits|done]. }
  set (A := ptoks_bytes l1 ++ be32 FDT_PROP ++ be32 (Z.of_nat (length v)) ++ be32 (p_noff x)). set (C := p_pad x ++ struct_block l2 ++ strs).
  assert (Eb : struct_block (l1 ++ x :: l2) ++ strs = A ++ v ++ C).
  { rewrite struct_block_split. unfold ptok_bytes, A, C. rewrite Hx. by rewrite <- !app_assoc. }
  assert (Eb' : struct_block (l1 ++ x' :: l2) ++ strs = A ++ mask_mext v ++ C).
  { rewrite struct_block_split. unfold ptok_bytes, A, C. cbn [pk p_noff p_pad x']. rewrite mask_mext_length. by rewrite <- !app_assoc. }
  assert (El : length (struct_block (l1 ++ x' :: l2)) = length (struct_block (l1 ++ x :: l2))).
  { apply (f_equal length) in Eb. apply (f_equal length) in Eb'. rewrite !length_app, mask_mext_length in *. lia. }
  exists x'. split; [done|]. destruct (image_edit _ _ _ _ (l1 ++ x' :: l2) strs rest Hi) as [Hi' Hl']; [|apply Hi|apply Hi|rewrite El; apply Hi|by rewrite El|].
  { apply Forall_app. split; [done|]. by apply Forall_cons. }
  split; [done|]. split; [done|]. rewrite !image_raw, Eb, Eb', El.
  apply (plic_loop_raw _ _ _ A C rest cells v) with (dn := []) (i := 0%nat); [|done]. unfold A. rewrite !length_app, (ptoks_bytes_length strs) by done. simpl length. lia.
Qed.

(** C17: The connections of the PLIC to machine mode are taken out of the tree, and
    nothing else changes: the supervisor does not see them. *)
Theorem fdt_plic_fixup_masks fdt tot strs s key p t v : stores fdt tot strs s -> Forall compat_ok (s_nodes s) ->
  key <> [] -> name_ok key -> Z.of_nat (length key) < 2 ^ 31 ->
  compat_path key s = Some (p, t) -> s_prop irqs t = Some v ->
  exists fdt', fdt_plic_fixup (key ++ [0]) fdt = Some (tt, fdt') /\ stores fdt' tot strs (upd_path s p (set_prop irqs (mask_mext v))) /\
    irq_pairs (mask_mext v) = map (fun '(ph, irq) => (ph, if irq =? IRQ_M_EXT then 2 ^ 32 - 1 else irq)) (irq_pairs v).
Proof.
  intros Hst Hc Hne Hk Hkl Hp Hv. pose proof (compat_offset_stores _ _ _ _ key (key ++ [0]) Hst Hc Hne ltac:(split; [done|by exists []]) Hkl) as Eo. rewrite Hp in Eo.
  assert (Ha : at_path s p = Some t).
  { apply pnodes_at. unfold compat_path in Hp. apply find_some in Hp as [Hin _]. apply list_elem_of_In. destruct (pnodes s); [done|]. by right. }
  destruct Hst as (pts & rest & -> & Hi & Hs). destruct t as [n props kids].
  destruct (props_cases irqs props) as [(a & w & b & -> & Hna)|Hna]; [|by rewrite s_prop_none in Hv]. rewrite s_prop_found in Hv by done. injection Hv as ->.
  assert (Hnok : name_ok irqs) by (apply (bool_decide_unpack _); by vm_compute).
  pose proof (getprop_at _ _ _ _ Hi s Hs p n _ kids Ha a irqs v b eq_refl Hna Hnok ltac:(by vm_compute)) as Eg.
  destruct (split_prop _ _ _ _ Hi s Hs p n _ kids Ha a irqs v b eq_refl) as (l1 & x & l2 & -> & Ex & Eoff & Eu).
  destruct (mask_value_image _ _ _ _ _ _ irqs v (56 + (Z.of_nat (off_path s p) + Z.of_nat (tok_size (TBegin n)) + Z.of_nat (list_sum (map prop_size a))) + 12) Hi Ex)
    as (x' & Ex' & Hi' & Hl' & E); [lia|]. exists (image tot (l1 ++ x' :: l2) strs rest).
  split; [|split; [exists (l1 ++ x' :: l2), rest; split; [done|]; split; [done|]|apply irq_pairs_mask]].
  - unfold fdt_plic_fixup. erewrite rbind by (by apply rd_eq). rewrite (proj2 (Z.ltb_ge _ 0)) by lia. erewrite rbind by (apply rd_eq; exact Eg). cbv iota beta.
    pose proof (img_small _ _ _ _ Hi) as Hsm. pose proof (image_length tot (l1 ++ x :: l2) strs rest) as Hil. rewrite (st_len_eq _ _ _ _ Hi), map_app, toks_size_app in Hil.
    cbn [map] in Hil. rewrite Ex in Hil. change (toks_size (TProp irqs v :: ?l)) with (tok_size (TProp irqs v) + toks_size l)%nat in Hil. unfold tok_size in Hil. cbn [body_size] in Hil.
    unfold u64. rewrite wrap_small by (unfold fits; lia). rewrite s32_small by (Z.to_euclidean_division_equations; lia).
    replace (Z.to_nat (Z.quot (Z.of_nat (length v) / 4) 2)) with (length v / 8)%nat.
    2:{ rewrite Z.quot_div_nonneg by (Z.to_euclidean_division_equations; lia). rewrite Z.div_div by lia. change (4 * 2) with 8. by rewrite <- (Nat2Z.inj_div _ 8), Nat2Z.id. }
    destruct (Z.eqb_spec (Z.of_nat (length v) / 4) 0) as [Ez|_]; [|exact E].
    rewrite <- E. rewrite Nat.div_small; [done|]. Z.to_euclidean_division_equations. lia.
  - rewrite (Eu x' _ Ex'). f_equal. apply (upd_path_ext p s _ _ _ Ha). cbn [set_prop]. by rewrite replace_prop_found.
Qed.

(** * Examples *)

#[global] Instance s_cpu_ok_dec t : Decision (s_cpu_ok t).
Proof. unfold s_cpu_ok. apply _. Defined.

(** A platform that has hart 0 only, and a hart that runs on it. *)
Definition one_hart : Platform := Build_Platform (mkPlat 0 0 [] 0 1 8192 no_ops (Some [0])) 0x80020000.
Definition hart0_st : st := set_mem <[SBI_SCRATCH_PLATFORM_ADDR_OFFSET := 1]> st0.

Lemma fdt_cpu_fixup_disables_witness :
  exists fdt' strs', @fdt_cpu_fixup plain_hw one_hart (demo_mem 32) hart0_st = Ret (tt, fdt') hart0_st /\
    stores fdt' (demo_size + 32) strs' (upd_path demo [1; 1]%nat (set_prop status disabled)).
Proof.
  pose proof (@fdt_cpu_fixup_disables plain_hw one_hart hart0_st (demo_mem 32) demo_size demo_strs demo 1
    (Src (chars "cpus") [sprop "#address-cells" (be32 1); sprop "#size-cells" (be32 0)] [demo_cpu "cpu@0" 0 1; demo_cpu "cpu@1" 1 2])
    (demo_stores 32 eq_refl) ltac:(by vm_compute) eq_refl eq_refl ltac:(decide_it) ltac:(by vm_compute)) as (fdt' & strs' & E & H).
  exists fdt', strs'. split; [exact E|]. exact H.
Defined.

(** The 32 bytes that the blob is enlarged by are enough for one hart: of two
    that are not the platform's, the second stays enabled. *)
Theorem cpu_fixup_one_only :
  to_disable (sbi_platform_hart_invalid None) (demo_cpu "cpu@1" 1 2) = true /\
  match cpu_fixup None (demo_mem 32) with Some (_, fdt) => read_node (length fdt) fdt 0 | None => None end =
    Some (upd_path demo [1; 0]%nat (set_prop status disabled)).
Proof. split; [done|]. vm_compute. reflexivity. Qed.

Lemma fdt_plic_fixup_masks_witness :
  exists fdt', fdt_plic_fixup (cstring "riscv,plic0") (demo_mem 0) = Some (tt, fdt') /\
    stores fdt' demo_size demo_strs (upd_path demo [2; 1]%nat (set_prop irqs (cells [1; 2 ^ 32 - 1; 1; 9; 2; 2 ^ 32 - 1; 2; 9]))).
Proof.
  destruct (fdt_plic_fixup_masks (demo_mem 0) demo_size demo_strs demo (chars "riscv,plic0") [2; 1]%nat
    (Src (chars "plic@c000000")
       [sprop "compatible" (cstring "sifive,plic-1.0.0" ++ cstring "riscv,plic0"); sprop "reg" (cells [0xc000000; 0x400000]);
        sprop "interrupts-extended" (cells [1; 11; 1; 9; 2; 11; 2; 9]); sprop "riscv,ndev" (be32 10)] [])
    (cells [1; 11; 1; 9; 2; 11; 2; 9]) (demo_stores 0 eq_refl) ltac:(decide_it) ltac:(done) ltac:(decide_it) ltac:(by vm_compute) ltac:(by vm_compute) eq_refl)
    as (fdt' & E & H & _).
  exists fdt'. split; [exact E|exact H].
Defined.
