(* ===== verification/FdtReserved.v ===== *)
(** The reserved memory in the device tree: what
    [fdt_reserved_memory_fixup] of lib/utils/fdt/fdt_fixup.c leaves there.
    The memory that the PMP denies to the supervisor is listed below
    /reserved-memory, one node for a region, under the name that the
    formatter gives it. *)

From S2P Require Import Prelude Encoding Bitops Cstring Machine Format Platform Scratch Asm Hart Fdt FdtTag FdtTree FdtImage FdtEncode FdtHelper FdtRw FdtEdit FdtFixup.

(** * The names of the regions *)

Lemma print_literal lit : forall fuel o rest args acnt pc, Forall (fun c => c <> 37) lit ->
  print_loop (length lit + fuel) o (lit ++ rest) args acnt pc = print_loop fuel (emit o lit) rest args acnt (pc + Z.of_nat (length lit)).
Proof.
  induction lit as [|c lit IH]; intros fuel o rest args acnt pc Hl; [cbn; by rewrite Z.add_0_r|].
  apply Forall_cons in Hl as [Hc Hl]. cbn [length Nat.add app print_loop]. rewrite (proj2 (Z.eqb_neq c 37) Hc), IH by done.
  change (emit o (c :: lit)) with (emit (printc o c) lit).
  by replace (pc + 1 + Z.of_nat (length lit)) with (pc + Z.of_nat (S (length lit))) by lia.
Qed.

Lemma print_char c fuel o rest args acnt pc : c <> 37 ->
  print_loop (S fuel) o (c :: rest) args acnt pc = print_loop fuel (emit o [c]) rest args acnt (pc + 1).
Proof. intros Hc. apply (print_literal [c]). by apply Forall_singleton. Qed.

Lemma printi_unsigned o u b sg letbase : base_ok b letbase -> 0 <= u < 2 ^ 64 ->
  printi o u b sg 0 0 letbase = (emit o (number_text b letbase u), Z.of_nat (length (number_text b letbase u))).
Proof.
  intros Hb Hu. unfold printi. rewrite (proj2 (Z.ltb_ge u 0)) by lia. cbv zeta. rewrite !andb_false_r. cbv iota. unfold u64. rewrite !(wrap_small 64 u) by (unfold fits; lia).
  change (nz (0 .& PAD_ALTERNATE)) with false. cbv iota. rewrite prints_emit, field_plain.
  destruct (number_text_spec b letbase u Hb Hu) as (_ & E & _). fold (number_text b letbase u). by rewrite E.
Qed.

Lemma print_dec fuel o rest j args acnt pc : 0 <= j < 2 ^ 31 ->
  print_loop (S fuel) o (37 :: 100 :: rest) (VInt j :: args) acnt pc =
  print_loop fuel (emit o (number_text 10 48 j)) rest args (acnt + 4) (pc + Z.of_nat (length (number_text 10 48 j))).
Proof.
  intros Hj. cbn [print_loop print_spec zero_flags get_width Z.eqb Pos.eqb Z.leb Z.compare Pos.compare Pos.compare_cont andb].
  unfold print_conv. cbn [nth Z.eqb Pos.eqb orb]. unfold conv_int. cbn [va_int mbind option_bind]. rewrite s32_small by lia.
  rewrite printi_unsigned by (unfold base_ok; lia). done.
Qed.

Lemma print_hex fuel o rest a args acnt pc : fits 32 a ->
  print_loop (S fuel) o (37 :: 120 :: rest) (VInt a :: args) acnt pc =
  print_loop fuel (emit o (number_text 16 97 a)) rest args (acnt + 4) (pc + Z.of_nat (length (number_text 16 97 a))).
Proof.
  intros Ha. cbn [print_loop print_spec zero_flags get_width Z.eqb Pos.eqb Z.leb Z.compare Pos.compare Pos.compare_cont andb].
  unfold print_conv. cbn [nth Z.eqb Pos.eqb orb]. unfold conv_int. cbn [va_int mbind option_bind]. unfold u32. rewrite wrap_small by done. unfold fits in Ha.
  rewrite printi_unsigned by (unfold base_ok; lia). done.
Qed.

(** The name of region [j] at [addr], as the formatter writes it. *)
Definition hex (x : Z) : list Z := number_text 16 97 x.
Definition region_name (na addr j : Z) : list Z :=
  chars "mmode_pmp" ++ number_text 10 48 j ++ [64] ++
  (if (1 <? na) && nz (u32 (addr >>u 32)) then hex (u32 (addr >>u 32)) ++ [44] else []) ++ hex (u32 addr).

Lemma number_text_chars b letbase u : base_ok b letbase -> 0 <= u < 2 ^ 64 -> Forall (fun c => 48 <= c <= 102 /\ c <> 64) (number_text b letbase u).
Proof.
  intros Hb Hu. unfold number_text. destruct (Z.eqb_spec u 0) as [->|Hnz]; [apply Forall_singleton; lia|].
  assert (Hd : forall n v s, 0 <= v -> Forall (fun c => c <> 64) s -> Forall (fun c => c <> 64) (digits_loop n v b letbase s)).
  { induction n as [|n IH]; intros v s Hv Hs; [done|].
    change (digits_loop (S n) v b letbase s) with (if v =? 0 then s else digits_loop n (v / b) b letbase (digit_char (v mod b) letbase :: s)).
    destruct (v =? 0); [done|]. destruct Hb as [Hb Hl].
    apply IH; [apply Z.div_pos; lia|]. constructor; [|done]. unfold digit_char. pose proof (Z.mod_pos_bound v b ltac:(lia)).
    unfold u8. destruct (Z.leb_spec 10 (v mod b)); rewrite wrap_small; unfold fits; lia. }
  destruct (digits_loop_value b letbase 64 u [] Hb Hu) as (d & E & _ & _ & Hall & _). specialize (Hd 64%nat u [] ltac:(lia) ltac:(done)).
  rewrite E, app_nil_r in *. apply Forall_and. done.
Qed.

Lemma region_name_ok na addr j : 0 <= j < 2 ^ 31 -> name_ok (region_name na addr j).
Proof.
  intros Hj. assert (H : forall b letbase u, base_ok b letbase -> 0 <= u < 2 ^ 64 -> name_ok (number_text b letbase u)).
  { intros b letbase u Hb Hu. eapply Forall_impl; [by apply number_text_chars|]. unfold fits. cbn beta. lia. }
  assert (Hx : forall x, name_ok (hex (u32 x))) by (intros x; apply H; [unfold base_ok; lia|]; pose proof (fits_u32 x); unfold fits in *; lia).
  unfold region_name, name_ok in *. rewrite !Forall_app. split; [decide_it|]. split; [apply H; [unfold base_ok|]; lia|]. split; [decide_it|]. split; [|apply Hx].
  case_match; [|done]. apply Forall_app. split; [apply Hx|decide_it].
Qed.

(** The digits of [j] end at the first '@'. *)
Lemma region_name_inj na a1 j1 a2 j2 : 0 <= j1 < 2 ^ 31 -> 0 <= j2 < 2 ^ 31 -> region_name na a1 j1 = region_name na a2 j2 -> j1 = j2.
Proof.
  intros H1 H2 E. unfold region_name in E. apply app_inv_head in E.
  assert (Hu : forall (l1 l2 r1 r2 : list Z), Forall (fun c => c <> 64) l1 -> Forall (fun c => c <> 64) l2 -> l1 ++ 64 :: r1 = l2 ++ 64 :: r2 -> l1 = l2).
  { induction l1 as [|x l1 IH]; intros [|y l2] r1 r2 Hl1 Hl2 El; [done| | |]; cbn [app] in El; injection El as Ex El.
    - apply Forall_cons in Hl2. lia.
    - apply Forall_cons in Hl1. lia.
    - rewrite Forall_cons in Hl1, Hl2. f_equal; [done|]. apply (IH l2 r1 r2); [apply Hl1|apply Hl2|done]. }
  assert (Hn : forall j, 0 <= j < 2 ^ 31 -> Forall (fun c => c <> 64) (number_text 10 48 j)).
  { intros j Hj. eapply Forall_impl; [apply number_text_chars; [unfold base_ok|]; lia|]. cbn beta. lia. }
  apply Hu in E; [|by apply Hn..].
  destruct (number_text_spec 10 48 j1) as [V1 _]; [unfold base_ok; lia|lia|]. destruct (number_text_spec 10 48 j2) as [V2 _]; [unfold base_ok; lia|lia|]. congruence.
Qed.

Lemma region_name_length na addr j : 0 <= j < 100 -> (length (region_name na addr j) <= 29)%nat.
Proof.
  intros Hj. assert (Hx : forall x, (length (hex (u32 x)) <= 8)%nat).
  { intros x. unfold hex, number_text. destruct (_ =? 0); [simpl; lia|]. pose proof (fits_u32 x) as Hf. unfold fits in Hf.
    pose proof (digits_loop_length 16 97 8 64 (u32 x) [] ltac:(lia) ltac:(change (16 ^ Z.of_nat 8) with (2 ^ 32); lia)) as H. cbn [length] in H. lia. }
  assert (Hd : (length (number_text 10 48 j) <= 2)%nat).
  { unfold number_text. destruct (_ =? 0); [simpl; lia|].
    pose proof (digits_loop_length 10 48 2 64 j [] ltac:(lia) ltac:(change (10 ^ Z.of_nat 2) with 100; lia)) as H. cbn [length] in H. lia. }
  unfold region_name. rewrite !length_app. pose proof (Hx addr). pose proof (Hx (addr >>u 32)). change (length (chars "mmode_pmp")) with 9%nat. change (length [64]) with 1%nat.
  case_match; rewrite ?length_app; cbn [length]; lia.
Qed.

Lemma write_at_app l : forall m p, (p + length l <= length m)%nat -> Forall (fits 8) l -> write_at m p l = take p m ++ l ++ drop (p + length l) m.
Proof.
  induction l as [|c l IH]; intros m p Hp Hl; cbn [write_at length] in *; [by rewrite app_nil_l, Nat.add_0_r, take_drop|].
  apply Forall_cons in Hl as [Hc Hl]. rewrite IH by (rewrite ?length_insert; done || lia). unfold u8. rewrite wrap_small by done.
  rewrite drop_insert_lt by lia. rewrite (take_S_r _ p c) by (apply list_lookup_insert_eq; lia). rewrite take_insert_ge by lia. rewrite <- app_assoc.
  by replace (S p + length l)%nat with (p + S (length l))%nat by lia.
Qed.

Lemma print_text m n name : (length name < length m)%nat -> name_ok name -> cstr name (sink_mem (put_nul (emit (SBuf m 0 n) name))).
Proof.
  intros Hl Hn. destruct (emit_buf name m 0 n) as [n' ->]. split; [done|]. cbn [put_nul sink_mem Nat.add].
  rewrite write_at_app; [|lia|by eapply Forall_impl; [exact Hn|]; intros ? []]. cbn [Nat.add]. change (take 0 m) with (@nil Z). cbn [app]. rewrite insert_app_r_alt, Nat.sub_diag by lia.
  destruct (drop (length name) m) as [|x r] eqn:E; [apply (f_equal length) in E; rewrite length_drop in E; simpl in E; lia|]. by exists r.
Qed.

Lemma region_name_printed name0 na addr j : length name0 = 32%nat -> 0 <= j < 100 ->
  let addr_high := u32 (addr >>u 32) in
  let addr_low := u32 addr in
  exists buf n, cstr (region_name na addr j) buf /\
    (if (1 <? na) && nz addr_high
     then sbi_snprintf name0 32 (chars "mmode_pmp%d@%x,%x") [VInt j; VInt addr_high; VInt addr_low]
     else sbi_snprintf name0 32 (chars "mmode_pmp%d@%x") [VInt j; VInt addr_low]) = Some (buf, n).
Proof.
  intros Hl Hj hi lo. pose proof (region_name_length na addr j Hj) as Hrl. pose proof (region_name_ok na addr j ltac:(lia)) as Hok.
  unfold region_name, hex in *. fold hi lo in Hrl, Hok |- *. unfold sbi_snprintf, print. destruct (_ && _).
  - change (S (length (chars "mmode_pmp%d@%x,%x"))) with (length (chars "mmode_pmp") + 9)%nat.
    change (chars "mmode_pmp%d@%x,%x") with (chars "mmode_pmp" ++ 37 :: 100 :: 64 :: 37 :: 120 :: 44 :: [37; 120]).
    rewrite print_literal by decide_it. rewrite print_dec by lia. rewrite (print_char 64) by done. rewrite print_hex by apply fits_u32.
    rewrite (print_char 44) by done. rewrite print_hex by apply fits_u32. rewrite <- !emit_app, <- !app_assoc. cbn [print_loop mbind option_bind].
    eexists _, _. split; [|reflexivity]. rewrite <- !app_assoc in *. apply print_text; [lia|done].
  - change (S (length (chars "mmode_pmp%d@%x"))) with (length (chars "mmode_pmp") + 6)%nat.
    change (chars "mmode_pmp%d@%x") with (chars "mmode_pmp" ++ 37 :: 100 :: 64 :: [37; 120]).
    rewrite print_literal by decide_it. rewrite print_dec by lia. rewrite (print_char 64) by done. rewrite print_hex by apply fits_u32.
    rewrite <- !emit_app. cbn [print_loop mbind option_bind].
    eexists _, _. split; [|reflexivity]. rewrite <- ?app_assoc in *. rewrite app_nil_l in *. apply print_text; [lia|done].
Qed.

(** * A new node and its properties *)

Lemma edits_room op r fdt tot strs s strs' s' : edits op r fdt tot strs s strs' s' -> used s' strs' <= tot ->
  exists fdt', op fdt = Some (r, fdt') /\ length fdt' = length fdt /\ stores fdt' tot strs' s'.
Proof. intros (fdt' & Hl & He) Hu. rewrite (proj2 (Z.leb_le _ _) Hu) in He. destruct He. by exists fdt'. Qed.

Lemma set_prop_new name val k : has_prop name k = false -> (src_size k <= src_size (set_prop name val k))%nat.
Proof.
  destruct k as [n props kids]. cbn [has_prop]. intros H. cbn [set_prop]. rewrite replace_prop_none.
  - cbn [default from_option id]. rewrite !src_size_eq. cbn [map]. change (list_sum (?a :: ?l)) with (a + list_sum l)%nat. lia.
  - apply Forall_forall. intros q Hq E. assert (Ht : existsb (fun p => bool_decide (p.1 = name)) props = true); [|congruence].
    apply existsb_exists. exists q. split; [by apply list_elem_of_In|]. by apply bool_decide_eq_true.
Qed.

Section NewNode.
Context (s : src) (p : list nat) (t : src) (Hp : at_path s p = Some t).
Notation grown k := (upd_path s p (add_kid k)).

Lemma grown_at k : at_path (grown k) (p ++ [0%nat]) = Some k.
Proof. rewrite (at_path_app p _ _ _ (at_path_upd p s _ _ Hp)). by destruct t. Qed.

Lemma grown_off k k' : off_path (grown k) (p ++ [0%nat]) = off_path (grown k') (p ++ [0%nat]).
Proof. rewrite !(off_path_app p _ _ _ (at_path_upd p s _ _ Hp)), !(off_path_upd p s _ _ Hp). destruct t. cbn. done. Qed.

Lemma grown_upd k f : upd_path (grown k) (p ++ [0%nat]) f = grown (f k).
Proof. rewrite upd_path_app, upd_path_twice. apply (upd_path_ext p s _ _ _ Hp). by destruct t. Qed.

Lemma grown_used k strs strs' : used (grown k) strs' = used s strs + Z.of_nat (src_size k) - Z.of_nat (length strs) + Z.of_nat (length strs').
Proof.
  destruct (path_split p s t Hp) as (l1 & l2 & E & _ & Eu). unfold used. unfold src_size at 1 2. rewrite Eu, E, !toks_size_app.
  change (toks_size (sflat ?x)) with (src_size x). destruct t as [n props kids]. cbn [add_kid]. rewrite !src_size_eq. cbn [map].
  change (list_sum (?a :: ?l)) with (a + list_sum l)%nat. lia.
Qed.

(** A property the new node does not have yet. *)
Lemma grown_setprop fdt tot strs k k0 name val vl : stores fdt tot strs (grown k) -> has_prop name k = false ->
  name_ok name -> Z.of_nat (length name) < 2 ^ 31 - 1 -> Forall (fits 8) val -> Z.of_nat (length val) < 2 ^ 31 - 64 -> starts val vl ->
  used (grown (set_prop name val k)) (add_string name strs) <= tot ->
  exists fdt', fdt_setprop (Z.of_nat (off_path (grown k0) (p ++ [0%nat]))) (name ++ [0]) vl (Z.of_nat (length val)) fdt = Some (0, fdt') /\
    length fdt' = length fdt /\ stores fdt' tot (add_string name strs) (grown (set_prop name val k)).
Proof.
  intros Hst Hk Hn Hnl Hv Hvl Hsv Hu. rewrite (grown_off k0 k). rewrite <- grown_upd in *.
  apply (edits_room _ _ _ _ strs (grown k)); [|done].
  pose proof (setprop_stored fdt tot strs (grown k) _ _ name val vl Hst (grown_at k) Hn Hnl Hv Hvl Hsv) as He. unfold prop_strs in He. by rewrite Hk in He.
Qed.

Lemma grown_node fdt tot strs name l : stores fdt tot strs s -> kid_of name t = None -> cstr name l -> Z.of_nat (length name) < 2 ^ 31 - 64 ->
  used (grown (Src name [] [])) strs <= tot ->
  exists fdt', fdt_add_subnode (Z.of_nat (off_path s p)) l fdt = Some (Z.of_nat (off_path (grown (Src name [] [])) (p ++ [0%nat])), fdt') /\
    length fdt' = length fdt /\ stores fdt' tot strs (grown (Src name [] [])).
Proof.
  intros Hst Hk Hc Hl Hu. pose proof (add_subnode_stored fdt tot strs s p t name l Hst Hp Hc Hl) as He. cbv zeta in He. rewrite Hk in He.
  by apply (edits_room _ _ _ _ strs s).
Qed.
End NewNode.

(** * The cells of the root *)

Definition s_cell (name : string) (dflt : Z) (s : src) : Z :=
  match s_prop (chars name) s with Some v => default 0 (fdt32_ld v) | None => dflt end.

(** The root counts addresses in [na] and sizes in [ns] cells, which are what
    the array [reg] of four cells has room for. *)
Definition root_cells (na ns : Z) (s : src) : Prop :=
  s_cell "#address-cells" 2 s = na /\ s_cell "#size-cells" 1 s = ns /\ 1 <= na <= 2 /\ 1 <= ns <= 2 /\
  (forall v, s_prop (chars "#address-cells") s = Some v -> length v = 4%nat) /\ (forall v, s_prop (chars "#size-cells") s = Some v -> length v = 4%nat).

#[global] Instance root_cells_dec na ns s : Decision (root_cells na ns s).
Proof. unfold root_cells. apply _. Defined.

Lemma root_cells_kids na ns n props kids kids' : root_cells na ns (Src n props kids) -> root_cells na ns (Src n props kids').
Proof. done. Qed.

Lemma root_cells_below na ns s i p f : root_cells na ns s -> root_cells na ns (upd_path s (i :: p) f).
Proof. destruct s as [n props kids]. cbn [upd_path]. apply root_cells_kids. Qed.

Lemma root_cells_read fdt tot strs s na ns : stores fdt tot strs s -> root_cells na ns s ->
  fdt_address_cells fdt 0 = Some na /\ fdt_size_cells fdt 0 = Some ns.
Proof.
  intros Hst (Ea & Es & Ha & Hs & La & Ls). pose proof (stores_holds _ _ _ _ Hst) as Hh. pose proof (place_off s 0) as Eo.
  assert (Ec : forall name dflt, cell_or name dflt (place 0 s) = s_cell name dflt s).
  { intros name dflt. unfold cell_or, s_cell. rewrite <- (erase_place s 0) at 2. rewrite s_prop_erase. by destruct (find_prop _ _). }
  assert (Hc : cells_ok (place 0 s)).
  { unfold cells_ok, address_cells, size_cells. rewrite !Ec, Ea, Es. split; [lia|]. split; [lia|]. intros name q Hn Hq.
    rewrite <- (erase_place s 0), s_prop_erase in La, Ls. destruct Hn as [->| ->]; rewrite Hq in *; [by apply La|by apply Ls]. }
  pose proof (fdt_address_cells_eq _ _ Hh _ (node_self _) Hc) as E1. pose proof (fdt_size_cells_eq _ _ Hh _ (node_self _) Hc) as E2.
  rewrite Eo in E1, E2. unfold address_cells in E1. unfold size_cells in E2. by rewrite Ec in E1, E2; rewrite E1, E2, Ea, Es.
Qed.

(** * The node of a region *)

Definition reg_cells (na ns addr size : Z) : list Z :=
  (if 1 <? na then be32 (u32 (addr >>u 32)) else []) ++ be32 (u32 addr) ++ (if 1 <? ns then be32 (u32 (size >>u 32)) else []) ++ be32 (u32 size).
Definition region_node (na ns addr size j : Z) (no_map : bool) : src :=
  Src (region_name na addr j) ((chars "reg", reg_cells na ns addr size) :: (if no_map then [(chars "no-map", [])] else [])) [].

Lemma reg_cells_length na ns addr size : 1 <= na <= 2 -> 1 <= ns <= 2 -> Z.of_nat (length (reg_cells na ns addr size)) = (na + ns) * 4.
Proof.
  intros Ha Hs. unfold reg_cells. rewrite !length_app. change (length (be32 (u32 addr))) with 4%nat. change (length (be32 (u32 size))) with 4%nat.
  destruct (Z.ltb_spec 1 na), (Z.ltb_spec 1 ns); cbn [length be32]; lia.
Qed.

Lemma reg_cells_fits na ns addr size : Forall (fits 8) (reg_cells na ns addr size).
Proof. unfold reg_cells. rewrite !Forall_app. repeat split; repeat case_match; try apply be32_fits; done. Qed.

Lemma put_cell_eq d x : forall rest n, n = length d -> (4 <= length rest)%nat -> put_cell (d ++ rest, n) x = ((d ++ be32 x) ++ drop 4 rest, (length (d ++ be32 x))%nat).
Proof.
  intros rest n -> Hr. unfold put_cell. cbn [fst snd]. rewrite sbi_memcpy_slice; [|rewrite length_app; lia|done].
  rewrite take_app_length, drop_0, take_ge by done. rewrite <- drop_drop, drop_app_length. by rewrite length_app, <- app_assoc.
Qed.

(** The cells of [reg] are the first ones of the array. *)
Lemma reg_written reg0 na ns addr size : length reg0 = 16%nat ->
  let val := (reg0, 0%nat) in
  let val := if 1 <? na then put_cell val (u32 (addr >>u 32)) else val in
  let val := put_cell val (u32 addr) in
  let val := if 1 <? ns then put_cell val (u32 (size >>u 32)) else val in
  let val := put_cell val (u32 size) in
  starts (reg_cells na ns addr size) val.1.
Proof.
  intros Hl. cbv zeta. unfold reg_cells. change (reg0, 0%nat) with ([] ++ reg0, 0%nat).
  destruct (1 <? na), (1 <? ns); rewrite !put_cell_eq by (rewrite ?length_drop; done || lia); cbn [fst]; eexists; by rewrite <- !app_assoc.
Qed.

(** The space of a region's node, and of the names of its properties. *)
Definition REGION_SIZE : Z := 68.
Definition NOMAP_SIZE : Z := 12.
Definition region_strs (no_map : bool) (strs : list Z) : list Z :=
  add_string (chars "reg") (if no_map then add_string (chars "no-map") strs else strs).

Lemma region_head_size na addr j : 0 <= j < 100 -> Z.of_nat (src_size (Src (region_name na addr j) [] [])) <= 40.
Proof.
  intros Hj. pose proof (region_name_length na addr j Hj) as Hl. rewrite src_size_eq. cbn [map list_sum fold_right].
  destruct (tok_size_aligned (TBegin (region_name na addr j))) as (n & E & _ & Hb). cbn [body_size] in Hb. lia.
Qed.

Lemma region_node_size na ns addr size j no_map : 1 <= na <= 2 -> 1 <= ns <= 2 -> 0 <= j < 100 ->
  Z.of_nat (src_size (region_node na ns addr size j no_map)) <= REGION_SIZE + (if no_map then NOMAP_SIZE else 0).
Proof.
  intros Ha Hs Hj. pose proof (region_head_size na addr j Hj) as Hh. unfold region_node. rewrite src_size_eq in *. cbn [map] in *.
  change (list_sum (?a :: ?l)) with (a + list_sum l)%nat in *. change (list_sum []) with 0%nat in *.
  pose proof (reg_cells_length na ns addr size Ha Hs) as Hl. unfold REGION_SIZE, NOMAP_SIZE.
  destruct (tok_size_aligned (TProp (chars "reg") (reg_cells na ns addr size))) as (n & E & _ & Hb). cbn [body_size] in Hb.
  unfold prop_size at 1, prop_stok. cbn [fst snd]. destruct no_map; cbn [map].
  - change (list_sum [prop_size (chars "no-map", [])]) with 12%nat. lia.
  - change (list_sum []) with 0%nat. lia.
Qed.

Section UpdateNode.
Context (name0 reg0 : list Z) (Hname0 : length name0 = 32%nat) (Hreg0 : length reg0 = 16%nat).

(** The node of a region is added to the node at [p], when there is room. *)
Lemma update_node_stores fdt tot strs s p t na ns addr size j (no_map : bool) : stores fdt tot strs s -> at_path s p = Some t ->
  root_cells na ns s -> 0 <= j < 100 -> kid_of (region_name na addr j) t = None ->
  let s' := upd_path s p (add_kid (region_node na ns addr size j no_map)) in
  used s' (region_strs no_map strs) <= tot ->
  exists fdt', fdt_resv_memory_update_node name0 reg0 addr size j (Z.of_nat (off_path s p)) no_map fdt = Some (0, fdt') /\
    length fdt' = length fdt /\ stores fdt' tot (region_strs no_map strs) s'.
Proof.
  intros Hst Hp Hc Hj Hk s' Hu. pose proof (grown_used s p t Hp) as Hgu. pose proof (region_name_length na addr j Hj) as Hnl.
  destruct (root_cells_read _ _ _ _ _ _ Hst Hc) as [Ea Es]. destruct Hc as (_ & _ & Ha & Hs & _).
  destruct (region_name_printed name0 na addr j Hname0 Hj) as (buf & n & Hcs & Ep). set (name := region_name na addr j) in *.
  pose proof (add_string_length (chars "reg") (if no_map then add_string (chars "no-map") strs else strs)) as Hl1. pose proof (add_string_length (chars "no-map") strs) as Hl2.
  set (k1 := Src name [] []). set (k2 := if no_map then set_prop (chars "no-map") [] k1 else k1). set (strs2 := if no_map then add_string (chars "no-map") strs else strs) in *.
  assert (Ek : region_node na ns addr size j no_map = set_prop (chars "reg") (reg_cells na ns addr size) k2) by (unfold k2; by destruct no_map).
  assert (Hp2 : has_prop (chars "reg") k2 = false) by (unfold k2; by destruct no_map).
  assert (Hk12 : (src_size k1 <= src_size k2)%nat) by (unfold k2; destruct no_map; [by apply set_prop_new|done]).
  pose proof (set_prop_new (chars "reg") (reg_cells na ns addr size) k2 Hp2) as Hk23.
  assert (Hl : (length strs <= length strs2)%nat) by (unfold strs2; destruct no_map; lia).
  unfold s', region_strs in *. rewrite Ek in *. fold strs2 in Hu |- *. pose proof Hu as Hu'. rewrite (Hgu _ strs) in Hu'.
  destruct (grown_node s p t Hp fdt tot strs name buf Hst Hk Hcs ltac:(lia)) as (f1 & E1 & L1 & S1); [fold k1; rewrite (Hgu _ strs); lia|]. fold k1 in E1, S1.
  set (o := Z.of_nat (off_path (upd_path s p (add_kid k1)) (p ++ [0%nat]))) in *.
  assert (H2 : exists f2, (if no_map then fdt_setprop_empty o (cstring "no-map") else mret 0) f1 = Some (0, f2) /\
    length f2 = length f1 /\ stores f2 tot strs2 (upd_path s p (add_kid k2))).
  { unfold k2, strs2 in *. destruct no_map; [|by exists f1].
    apply (grown_setprop s p t Hp f1 tot strs k1 k1 (chars "no-map") [] [] S1 eq_refl ltac:(decide_it) ltac:(by vm_compute)); [done|done|by exists []|]. rewrite (Hgu _ strs). lia. }
  destruct H2 as (f2 & E2 & L2 & S2).
  destruct (grown_setprop s p t Hp f2 tot strs2 k2 k1 (chars "reg") (reg_cells na ns addr size) _ S2 Hp2 ltac:(decide_it) ltac:(by vm_compute)
    (reg_cells_fits _ _ _ _) ltac:(rewrite reg_cells_length; lia) (reg_written reg0 na ns addr size Hreg0) Hu) as (f3 & E3 & L3 & S3).
  exists f3. split; [|split; [by rewrite L3, L2, L1|done]]. unfold fdt_resv_memory_update_node.
  erewrite rbind by (by apply rd_eq). erewrite rbind by (by apply rd_eq). erewrite rbind by (apply rd_eq; exact Ep). cbv iota beta.
  rewrite (rbind _ _ _ _ _ E1). rewrite (proj2 (Z.ltb_ge o 0)) by lia. rewrite (rbind _ _ _ _ _ E2). change (0 <? 0) with false. cbv iota.
  rewrite reg_cells_length in E3 by done. rewrite (s32_small ((na + ns) * 4)) by lia. rewrite (rbind _ _ _ _ _ E3). done.
Qed.
End UpdateNode.

(** * The node /reserved-memory *)

Definition reserved : list Z := chars "reserved-memory".
Definition reserved_node (na ns : Z) (kids : list src) : src :=
  Src reserved [(chars "#address-cells", be32 na); (chars "#size-cells", be32 ns); (chars "ranges", [])] kids.
Definition reserved_strs (strs : list Z) : list Z := add_string (chars "#address-cells") (add_string (chars "#size-cells") (add_string (chars "ranges") strs)).

(** The space it takes, with the names of its properties. *)
Definition RESERVED_SIZE : Z := 102.

Lemma index_of_kid name t : index_of name (s_kids t) = None -> kid_of name t = None.
Proof.
  unfold kid_of. induction (s_kids t) as [|k kids IH]; [done|]. cbn [index_of List.find]. destruct (name_match _ _); [done|].
  destruct (index_of name kids); [done|]. intros _. by apply IH.
Qed.

(** The node and its three properties. *)
Lemma reserved_props fdt tot strs s na ns : stores fdt tot strs s -> index_of reserved (s_kids s) = None -> used s strs + RESERVED_SIZE <= tot ->
  let s' := add_kid (reserved_node na ns []) s in let o := Z.of_nat (off_path s' [0%nat]) in
  exists f1 f2 f3 f4, fdt_add_subnode 0 (cstring "reserved-memory") fdt = Some (o, f1) /\
    fdt_setprop_empty o (cstring "ranges") f1 = Some (0, f2) /\ fdt_setprop_u32 o (cstring "#size-cells") ns f2 = Some (0, f3) /\
    fdt_setprop_u32 o (cstring "#address-cells") na f3 = Some (0, f4) /\ length f4 = length fdt /\ stores f4 tot (reserved_strs strs) s'.
Proof.
  intros Hst Hi Hu s' o. unfold RESERVED_SIZE in Hu. pose proof (grown_used s [] s eq_refl) as Hgu. cbn [upd_path] in Hgu.
  set (k1 := Src reserved [] []). set (k2 := set_prop (chars "ranges") [] k1). set (k3 := set_prop (chars "#size-cells") (be32 ns) k2).
  set (strs2 := add_string (chars "ranges") strs). set (strs3 := add_string (chars "#size-cells") strs2).
  pose proof (add_string_length (chars "ranges") strs) as H2. pose proof (add_string_length (chars "#size-cells") strs2) as H3.
  pose proof (add_string_length (chars "#address-cells") strs3) as H4. fold strs2 in H2. fold strs3 in H3.
  change (length (chars "ranges")) with 6%nat in H2. change (length (chars "#size-cells")) with 11%nat in H3. change (length (chars "#address-cells")) with 14%nat in H4.
  assert (Eo : o = Z.of_nat (off_path (add_kid k1 s) [0%nat])) by (unfold o, s'; f_equal; apply (grown_off s [] s eq_refl)). rewrite Eo.
  destruct (grown_node s [] s eq_refl fdt tot strs reserved (cstring "reserved-memory") Hst (index_of_kid _ _ Hi) ltac:(split; [decide_it|by exists []]) ltac:(by vm_compute))
    as (f1 & E1 & L1 & S1); [cbn [upd_path]; rewrite (Hgu _ strs); change (src_size _) with 24%nat; lia|]. cbn [upd_path] in S1.
  destruct (grown_setprop s [] s eq_refl f1 tot strs k1 k1 (chars "ranges") [] [] S1 eq_refl ltac:(decide_it) ltac:(by vm_compute) ltac:(done) ltac:(by vm_compute) ltac:(by exists []))
    as (f2 & E2 & L2 & S2); [cbn [upd_path]; rewrite (Hgu _ strs); fold strs2; change (src_size _) with 36%nat; lia|]. fold strs2 k2 in S2.
  destruct (grown_setprop s [] s eq_refl f2 tot strs2 k2 k1 (chars "#size-cells") (be32 ns) (be32 ns) S2 eq_refl ltac:(decide_it) ltac:(by vm_compute) (be32_fits _) ltac:(done) ltac:(by exists []))
    as (f3 & E3 & L3 & S3); [cbn [upd_path]; rewrite (Hgu _ strs); fold strs3; change (src_size _) with 52%nat; lia|]. fold strs3 k3 in S3.
  destruct (grown_setprop s [] s eq_refl f3 tot strs3 k3 k1 (chars "#address-cells") (be32 na) (be32 na) S3 eq_refl ltac:(decide_it) ltac:(by vm_compute) (be32_fits _) ltac:(done) ltac:(by exists []))
    as (f4 & E4 & L4 & S4); [cbn [upd_path]; rewrite (Hgu _ strs); change (src_size _) with 68%nat; lia|].
  exists f1, f2, f3, f4. rewrite L4, L3, L2, L1. done.
Qed.

Lemma reserved_parent_stores fdt tot strs s na ns : stores fdt tot strs s -> tot + 256 <= Z.of_nat (length fdt) -> root_cells na ns s ->
  index_of reserved (s_kids s) = None -> used s strs + RESERVED_SIZE <= tot + 256 ->
  let s' := add_kid (reserved_node na ns []) s in
  exists fdt', reserved_parent fdt = Some (Z.of_nat (off_path s' [0%nat]), fdt') /\ length fdt' = length fdt /\ stores fdt' (tot + 256) (reserved_strs strs) s'.
Proof.
  intros Hst Hm Hc Hi Hu s'. destruct (root_cells_read _ _ _ _ _ _ Hst Hc) as [Ea Es]. pose proof Hst as (pts & rest & E & Him & _).
  pose proof (lens_pos _ _ _ _ Him) as Hlp. pose proof (img_small _ _ _ _ Him) as Hsm. rewrite <- E in Hsm.
  unfold reserved_parent. erewrite rbind by (by apply rd_eq). erewrite rbind by (by apply rd_eq).
  erewrite rbind by (apply rd_eq; rewrite E; by apply image_total). unfold u32. rewrite wrap_small by (unfold fits; lia). rewrite s32_small by lia.
  destruct (fdt_open_into_stores fdt tot strs s (tot + 256) Hst) as (f0 & E0 & L0 & S0); [lia|]. rewrite (rbind _ _ _ _ _ E0). change (0 <? 0) with false. cbv iota.
  erewrite rbind by (apply rd_eq, (path_offset_stores _ _ _ _ reserved 0 S0); [decide_it|by vm_compute]).
  rewrite Hi. change (- FDT_ERR_NOTFOUND <? 0) with true. cbv iota.
  destruct (reserved_props f0 (tot + 256) strs s na ns S0 Hi Hu) as (f1 & f2 & f3 & f4 & E1 & E2 & E3 & E4 & L4 & S4). fold s' in E1, E2, E3, E4, S4.
  rewrite (rbind _ _ _ _ _ E1). rewrite (proj2 (Z.ltb_ge _ 0)) by lia. rewrite (rbind _ _ _ _ _ E2). change (0 <? 0) with false. cbv iota.
  rewrite (rbind _ _ _ _ _ E3). change (0 <? 0) with false. cbv iota. rewrite (rbind _ _ _ _ _ E4). exists f4. by rewrite L4, L0.
Qed.

(** * The regions of the PMP *)

Lemma onm_bind {A B} (x : M A) (f : A -> FM B) fdt st a st' : x st = Ret a st' -> (onm x ≫= f) fdt st = f a fdt st'.
Proof. intros E. unfold onm, mbind, FM_bind. unfold mbind, M_bind. by rewrite E. Qed.

Lemma ed_bind {A B} (x : RW A) (f : A -> FM B) fdt st a fdt' : x fdt = Some (a, fdt') -> (ed x ≫= f) fdt st = f a fdt' st.
Proof. intros E. unfold ed, mbind, FM_bind. unfold mbind, M_bind. by rewrite E. Qed.

(** Entry [n] as [pmp_get] reports it: permissions, start and size. *)
Definition pmp_entry (st : st) (n : Z) : option (Z * Z * Z) :=
  match pmpaddr_decode (pmp_cfg st (cur st) n) (pmp_reg st (cur st) n) with
  | Some (addr, log2len) => Some (pmp_cfg st (cur st) n, addr, if log2len <? 64 then shl64 1 log2len else 0)
  | None => None
  end.
(** In use, and without any permission. *)
Definition denies (prot : Z) : bool := nz (prot .& PMP_A) && negb (nz (prot .& (PMP_R .| PMP_W .| PMP_X))).
Definition denied_entry (st : st) (n : Z) : option (Z * Z) :=
  match pmp_entry st n with Some (prot, addr, size) => if denies prot then Some (addr, size) else None | None => None end.
Definition denied (st : st) (l : list Z) : list (Z * Z) := omap (denied_entry st) l.

(** Their nodes: each comes before the ones listed already. *)
Fixpoint region_nodes (na ns j : Z) (rs : list (Z * Z)) (kids : list src) : list src :=
  match rs with
  | [] => kids
  | (addr, size) :: rs => region_nodes na ns (j + 1) rs (region_node na ns addr size j false :: kids)
  end.

Definition pmp_count_of (st : st) (scratch : Z) : Z := mem_val st (hf_addr st scratch + HF_PMP_COUNT).

Section PmpLoop.
Context `{Hardware} `{Platform} (name0 reg0 : list Z) (Hname0 : length name0 = 32%nat) (Hreg0 : length reg0 = 16%nat).
Context (st : st) (scratch tot na ns : Z) (s0 : src) (Hc : root_cells na ns s0).
Notation count := (pmp_count_of st scratch).
Context (Hcount : count <= PMP_COUNT) (Hent : forall n, 0 <= n < count -> is_Some (pmp_entry st n)).
Notation listed kids := (add_kid (reserved_node na ns kids) s0).

(** The names in use are those of smaller numbers. *)
Definition numbered (j : Z) (kids : list src) : Prop := Forall (fun k => exists a i, s_name k = region_name na a i /\ 0 <= i < j) kids.

Lemma numbered_free j a kids : numbered j kids -> 0 <= j < 2 ^ 31 -> kid_of (region_name na a j) (reserved_node na ns kids) = None.
Proof.
  intros Hn Hj. apply index_of_kid. cbn [reserved_node s_kids]. induction Hn as [|k kids (b & i & Ek & Hi) Hn IH]; [done|]. cbn [index_of]. rewrite IH.
  assert (E : name_match (region_name na a j) (s_name k) = false); [|by rewrite E].
  apply not_true_is_false. intros Hm. unfold name_match in Hm. apply andb_true_iff in Hm as [Ht Hm]. apply bool_decide_eq_true in Ht.
  assert (Hat : 64 ∈ region_name na a j) by (unfold region_name; rewrite !elem_of_app; right; right; left; constructor).
  rewrite bool_decide_eq_true_2 in Hm by done. destruct (s_name k !! _) as [c|] eqn:El; [done|]. apply lookup_ge_None in El.
  rewrite take_ge in Ht by done. rewrite Ek in Ht. apply region_name_inj in Ht; lia.
Qed.

Lemma pmp_count_eq : sbi_hart_pmp_count scratch st = Ret count st.
Proof. reflexivity. Qed.

Lemma pmp_get_entry n old : 0 <= n < count -> exists e, pmp_entry st n = Some e /\ sbi_hart_pmp_get scratch n old st = Ret (0, e) st.
Proof.
  intros Hn. destruct (Hent n Hn) as [e E]. exists e. split; [done|]. unfold sbi_hart_pmp_get. rewrite (bind_ret_eq _ _ _ _ _ pmp_count_eq).
  rewrite (proj2 (Z.leb_gt count n)) by lia. rewrite pmp_get_eq by lia. unfold pmp_entry in E. destruct (pmpaddr_decode _ _) as [[addr l]|]; [|done]. by injection E as <-.
Qed.
(** Listing one region. *)
Lemma list_region fdt strs kids j addr size : stores fdt tot strs (listed kids) -> numbered j kids -> 0 <= j < 100 ->
  used (listed kids) (add_string (chars "reg") strs) + REGION_SIZE <= tot -> let kids' := region_node na ns addr size j false :: kids in
  exists fdt', fdt_resv_memory_update_node name0 reg0 addr size j (Z.of_nat (off_path (listed []) [0%nat])) false fdt = Some (0, fdt') /\
    length fdt' = length fdt /\ stores fdt' tot (add_string (chars "reg") strs) (listed kids') /\ numbered (j + 1) kids' /\
    used (listed kids') (add_string (chars "reg") strs) <= used (listed kids) (add_string (chars "reg") strs) + REGION_SIZE.
Proof.
  intros Hst Hn Hj Hu kids'. pose proof (grown_at s0 [] s0 eq_refl (reserved_node na ns kids)) as Hp. cbn [upd_path app] in Hp.
  assert (Eg : upd_path (listed kids) [0%nat] (add_kid (region_node na ns addr size j false)) = listed kids')
    by (apply (grown_upd s0 [] s0 eq_refl (reserved_node na ns kids))).
  assert (Hc' : root_cells na ns (listed kids)) by (destruct s0; exact Hc).
  assert (Hu' : used (listed kids') (add_string (chars "reg") strs) <= used (listed kids) (add_string (chars "reg") strs) + REGION_SIZE).
  { rewrite <- Eg, (grown_used _ _ _ Hp _ (add_string (chars "reg") strs)). destruct Hc as (_ & _ & Ha & Hs & _). pose proof (region_node_size na ns addr size j false Ha Hs Hj). lia. }
  destruct (update_node_stores name0 reg0 Hname0 Hreg0 fdt tot strs (listed kids) [0%nat] _ na ns addr size j false Hst Hp Hc' Hj) as (fdt' & E & Hl & Hst').
  - apply numbered_free; [done|lia].
  - rewrite Eg. unfold region_strs. lia.
  - rewrite Eg in Hst'. exists fdt'. rewrite (grown_off s0 [] s0 eq_refl (reserved_node na ns []) (reserved_node na ns kids) : off_path (listed []) [0%nat] = _).
    split; [exact E|]. split; [done|]. split; [done|]. split; [|done]. constructor; [exists addr, j; split; [done|lia]|].
    eapply Forall_impl; [exact Hn|]. intros k (a & i & Ek & Hi). exists a, i. split; [done|lia].
Qed.

(** All of them, from entry [i] on. *)
Lemma pmp_nodes_stores n : forall i j kids strs fdt old, let rs := denied st (seqZ i (count - i)) in
  stores fdt tot strs (listed kids) -> numbered j kids -> 0 <= j <= i -> i <= count -> count - i < Z.of_nat n ->
  used (listed kids) (add_string (chars "reg") strs) + REGION_SIZE * Z.of_nat (length rs) <= tot ->
  exists fdt' strs', pmp_nodes_loop name0 reg0 n scratch i j (Z.of_nat (off_path (listed []) [0%nat])) old fdt st = Ret (tt, fdt') st /\
    length fdt' = length fdt /\ stores fdt' tot strs' (listed (region_nodes na ns j rs kids)).
Proof.
  induction n as [|n IH]; intros i j kids strs fdt old rs Hst Hn Hj Hi Hf Hu; [lia|]. cbn [pmp_nodes_loop]. rewrite (onm_bind _ _ _ _ _ _ pmp_count_eq).
  destruct (Z.ltb_spec i count) as [Hlt|Hge].
  2:{ assert (Ers : rs = []) by (unfold rs; replace (count - i) with 0 by lia; done). rewrite Ers. by exists fdt, strs. }
  destruct (pmp_get_entry i old ltac:(lia)) as ([[prot addr] size] & Ee & Eg). rewrite (onm_bind _ _ _ _ _ _ Eg). cbv iota beta. change (nz 0) with false. cbn [orb].
  assert (Ers : rs = (if denies prot then [(addr, size)] else []) ++ denied st (seqZ (i + 1) (count - (i + 1)))).
  { unfold rs, denied. rewrite (seqZ_cons i) by lia. cbn [omap list_omap]. unfold denied_entry at 1. rewrite Ee.
    replace (Z.pred (count - i)) with (count - (i + 1)) by lia. by destruct (denies prot). }
  replace (_ || _) with (negb (denies prot)) by (unfold denies; by destruct (nz _), (nz _)). rewrite Ers in *. clear rs Ers. unfold REGION_SIZE in *. destruct (denies prot); cbn [negb app] in *.
  - set (rs := denied st _) in *. cbn [length] in Hu.
    destruct (list_region fdt strs kids j addr size Hst Hn ltac:(unfold PMP_COUNT in *; lia)) as (f1 & E1 & L1 & S1 & N1 & U1); [unfold REGION_SIZE; lia|].
    rewrite (ed_bind _ _ _ _ _ _ E1). unfold REGION_SIZE in U1.
    destruct (IH (i + 1) (j + 1) _ _ f1 (prot, addr, size) S1 N1 ltac:(lia) ltac:(lia) ltac:(lia)) as (f2 & strs2 & E2 & L2 & S2); [rewrite add_string_twice; fold rs; lia|].
    fold rs in S2. exists f2, strs2. by rewrite L2, L1.
  - apply (IH (i + 1) j kids strs fdt (prot, addr, size)); try done; lia.
Qed.
End PmpLoop.

Section Fixup.
Context `{Hardware} `{Platform} (name0 reg0 : list Z) (Hname0 : length name0 = 32%nat) (Hreg0 : length reg0 = 16%nat).

Lemma reserved_fixup_pmp st fdt tot strs s na ns :
  let scratch := csr_val st (cur st) CSR_MSCRATCH in
  let count := pmp_count_of st scratch in
  let rs := denied st (seqZ 0 count) in
  has_feature st scratch SBI_HART_HAS_PMP = true -> 0 <= count <= PMP_COUNT -> (forall n, 0 <= n < count -> is_Some (pmp_entry st n)) ->
  stores fdt tot strs s -> tot + 256 <= Z.of_nat (length fdt) -> root_cells na ns s -> index_of reserved (s_kids s) = None ->
  used s strs + RESERVED_SIZE + 4 + REGION_SIZE * Z.of_nat (length rs) <= tot + 256 ->
  exists fdt' strs', fdt_reserved_memory_fixup name0 reg0 fdt st = Ret (0, fdt') st /\
    stores fdt' (tot + 256) strs' (add_kid (reserved_node na ns (region_nodes na ns 0 rs [])) s).
Proof.
  intros scratch count rs Hf Hcount Hent Hst Hm Hc Hi Hu. unfold REGION_SIZE, RESERVED_SIZE in Hu.
  destruct (reserved_parent_stores fdt tot strs s na ns Hst Hm Hc Hi ltac:(unfold RESERVED_SIZE; lia)) as (f1 & E1 & L1 & S1).
  pose proof (grown_used s [] s eq_refl (reserved_node na ns []) strs (add_string (chars "reg") (reserved_strs strs))) as Hgu. cbn [upd_path] in Hgu.
  change (src_size (reserved_node na ns [])) with 68%nat in Hgu.
  assert (Hstr : (length (add_string (chars "reg") (reserved_strs strs)) <= length strs + 38)%nat).
  { unfold reserved_strs. set (a := add_string (chars "ranges") strs). set (b := add_string (chars "#size-cells") a). set (c := add_string (chars "#address-cells") b).
    pose proof (add_string_length (chars "ranges") strs) as Ha. pose proof (add_string_length (chars "#size-cells") a) as Hb.
    pose proof (add_string_length (chars "#address-cells") b) as Hcl. pose proof (add_string_length (chars "reg") c) as Hr. fold a b c in Ha, Hb, Hcl.
    change (length (chars "ranges")) with 6%nat in Ha. change (length (chars "#size-cells")) with 11%nat in Hb.
    change (length (chars "#address-cells")) with 14%nat in Hcl. change (length (chars "reg")) with 3%nat in Hr. lia. }
  destruct (pmp_nodes_stores name0 reg0 Hname0 Hreg0 st scratch (tot + 256) na ns s Hc ltac:(fold count; lia) Hent (S (Z.to_nat count)) 0 0 [] (reserved_strs strs) f1 (0, 0, 0))
    as (f2 & strs2 & E2 & L2 & S2); [exact S1|constructor|lia|fold count; lia|fold count; lia|rewrite Z.sub_0_r; fold count rs; unfold REGION_SIZE; lia|].
  rewrite Z.sub_0_r in S2. fold count rs in S2. exists f2, strs2. split; [|done]. unfold fdt_reserved_memory_fixup.
  erewrite onm_bind by reflexivity. fold scratch. rewrite (ed_bind _ _ _ _ _ _ E1). rewrite (proj2 (Z.ltb_ge _ 0)) by lia.
  erewrite onm_bind by reflexivity. fold (hf_addr st scratch). change (nz _) with (has_feature st scratch SBI_HART_HAS_PMP). rewrite Hf. cbn [negb].
  erewrite onm_bind by reflexivity. change (mem_val _ _) with count. unfold mbind, FM_bind. unfold mbind at 1, M_bind at 1. rewrite E2. done.
Qed.
End Fixup.

(** * The firmware's memory *)

Lemma omap_none {A B} (f : A -> option B) l : (forall x, x ∈ l -> f x = None) -> omap f l = [].
Proof.
  induction l as [|x l IH]; intros Hf; [done|]. cbn [omap list_omap]. rewrite (Hf x) by (by left). apply IH. intros y Hy. apply Hf. by right.
Qed.

(** What [pmp_init] leaves closed, when it finds the other entries unused. *)
Lemma pmp_init_denied `{Hardware} `{Platform} s scratch count : pmp_hw (cur s) -> pmp_regs_ok s (cur s) -> 2 <= fw_log2 s scratch < 56 ->
  fits 56 (mem_val s (scratch + SBI_SCRATCH_FW_START_OFFSET)) -> (forall n, 2 <= n < PMP_COUNT -> pmp_cfg s (cur s) n .& PMP_A = 0) ->
  1 <= count <= PMP_COUNT ->
  let block := 2 ^ fw_log2 s scratch in
  denied (pmp_init_st s scratch) (seqZ 0 count) = [(block * (mem_val s (scratch + SBI_SCRATCH_FW_START_OFFSET) / block), block)] /\
  forall n, 0 <= n < count -> is_Some (pmp_entry (pmp_init_st s scratch) n).
Proof.
  intros Hhw Hok Hl Hs Hoff Hcount block. set (s' := pmp_init_st s scratch).
  assert (E0 : pmp_entry s' 0 = Some (pmp_mode (fw_log2 s scratch), block * (mem_val s (scratch + SBI_SCRATCH_FW_START_OFFSET) / block), block)).
  { pose proof (pmp_init_get0 s scratch (0, 0, 0) Hhw Hok Hl Hs) as E. rewrite pmp_get_eq in E by done. unfold pmp_entry. fold s' in E.
    destruct (pmpaddr_decode _ _) as [[addr l]|]; [|done]. fold block in E. clearbody block s'. congruence. }
  assert (E1 : exists a sz, pmp_entry s' 1 = Some (PMP_R .| PMP_W .| PMP_X .| PMP_A_NAPOT, a, sz)).
  { destruct (pmp_init_entries s scratch Hhw Hok Hl Hs) as (_ & _ & _ & Ec & Er). unfold pmp_entry. change (cur s') with (cur s). fold s' in Ec, Er. rewrite Ec, Er.
    destruct (pmpaddr_decode _ (_ mod _)) as [[a l]|] eqn:Ed; [by eexists _, _|]. clear - Ed. by vm_compute in Ed. }
  assert (En : forall n, 2 <= n < PMP_COUNT -> exists prot a sz, pmp_entry s' n = Some (prot, a, sz) /\ denies prot = false).
  { intros n Hn. pose proof (pmp_init_others s scratch n Hhw Hok Hn) as Ec. fold s' in Ec. unfold pmp_entry. change (cur s') with (cur s). rewrite Ec.
    exists (pmp_cfg s (cur s) n). unfold pmpaddr_decode, denies. rewrite (Hoff n Hn). change (0 =? PMP_A_NAPOT) with false. cbv iota. by eexists _, _. }
  destruct E1 as (a1 & sz1 & E1). split.
  - rewrite seqZ_cons by lia. unfold denied. cbn [omap list_omap]. unfold denied_entry at 1. rewrite E0.
    replace (denies _) with true by (unfold pmp_mode; by case_match). f_equal. apply omap_none.
    intros n Hn. apply elem_of_seqZ in Hn. unfold denied_entry. destruct (decide (n = 1)) as [->|]; [by rewrite E1|].
    destruct (En n ltac:(lia)) as (? & ? & ? & -> & ->). done.
  - intros n Hn. destruct (decide (n = 0)) as [->|]; [by rewrite E0|]. destruct (decide (n = 1)) as [->|]; [by rewrite E1|].
    destruct (En n ltac:(lia)) as (? & ? & ? & -> & _). done.
Qed.

Lemma pmp_set_mscratch `{Hardware} n prot addr log2len s : 0 <= n < PMP_COUNT ->
  csr_val (pmp_set_st n prot addr log2len s) (cur (pmp_set_st n prot addr log2len s)) CSR_MSCRATCH = csr_val s (cur s) CSR_MSCRATCH.
Proof.
  intros Hn. unfold PMP_COUNT in Hn. unfold pmp_set_st. set (s1 := put_csr (CSR_PMPADDR0 + n) _ s). change (cur (put_csr _ _ s1)) with (cur s1). rewrite csr_val_put.
  assert (E : (CSR_MSCRATCH =? pmpcfg_csr_of n) = false) by (rewrite pmpcfg_csr_of_cases by done; by destruct (n <? 8)). rewrite E.
  unfold s1. change (cur (put_csr _ _ s)) with (cur s). rewrite csr_val_put. by rewrite (proj2 (Z.eqb_neq _ _)) by (unfold CSR_MSCRATCH, CSR_PMPADDR0; lia).
Qed.

Lemma same_block block a b : 0 < block -> (a / block =? b / block) = (block * (b / block) <=? a) && (a <? block * (b / block) + block).
Proof.
  intros Hb. pose proof (Z.mul_div_le a block Hb). pose proof (Z.mul_succ_div_gt a block Hb).
  destruct (Z.eqb_spec (a / block) (b / block)) as [E|E].
  - rewrite <- E. symmetry. apply andb_true_iff. split; lia.
  - symmetry. apply andb_false_iff. destruct (Z.lt_ge_cases (a / block) (b / block)); [left|right]; nia.
Qed.

(** C13: The hart that has set up its protection, with no other entry of it in
    use, tells the supervisor: a tree without /reserved-memory then lists
    there the firmware's block, which is exactly the memory that the
    protection refuses to the supervisor. *)
Theorem pmp_init_reserved `{Hardware} `{Platform} name0 reg0 s hartid fdt tot strs t na ns :
  let scratch := csr_val s (cur s) CSR_MSCRATCH in
  let start := mem_val s (scratch + SBI_SCRATCH_FW_START_OFFSET) in
  let size := mem_val s (scratch + SBI_SCRATCH_FW_SIZE_OFFSET) in
  let block := 2 ^ log2roundup size in
  let base := block * (start / block) in
  length name0 = 32%nat -> length reg0 = 16%nat ->
  mem_val s (scratch + SBI_SCRATCH_PLATFORM_ADDR_OFFSET) <> 0 -> op_pmp_region_count (platform_ops the_platform) = None ->
  has_feature s scratch SBI_HART_HAS_PMP = true -> 1 <= pmp_count_of s scratch <= PMP_COUNT ->
  pmp_hw (cur s) -> pmp_regs_ok s (cur s) -> (forall n, 2 <= n < PMP_COUNT -> pmp_cfg s (cur s) n .& PMP_A = 0) ->
  2 < size <= 2 ^ 55 -> fits 56 start ->
  stores fdt tot strs t -> tot + 256 <= Z.of_nat (length fdt) -> root_cells na ns t -> index_of reserved (s_kids t) = None ->
  exists s' fdt' strs', pmp_init scratch hartid s = Ret 0 s' /\ fdt_reserved_memory_fixup name0 reg0 fdt s' = Ret (0, fdt') s' /\
    stores fdt' (tot + 256) strs' (add_kid (reserved_node na ns [region_node na ns base block 0 false]) t) /\
    forall a perm, fits 56 a -> perm = PMP_R \/ perm = PMP_W \/ perm = PMP_X ->
      pmp_allows s' (cur s) a perm = negb ((base <=? a) && (a <? base + block)).
Proof.
  intros scratch start size block base Hn0 Hr0 Hp Hops Hf Hcount Hhw Hok Hoff Hsize Hstart Hst Hm Hc Hi.
  pose proof (fw_log2_bounds s scratch Hsize) as Hl. set (s' := pmp_init_st s scratch).
  destruct (pmp_init_denied s scratch (pmp_count_of s scratch) Hhw Hok Hl Hstart Hoff Hcount) as [Hd He]. fold s' in Hd, He.
  assert (Hu : used t strs <= tot).
  { pose proof Hst as (pts & rest & -> & Him & Hs). rewrite <- (used_eq _ _ _ (img_toks _ _ _ _ Him) Hs). apply (img_fits _ _ _ _ Him). }
  assert (Esc : csr_val s' (cur s') CSR_MSCRATCH = scratch).
  { unfold s', pmp_init_st. set (s1 := pmp_set_st 0 _ _ _ s). rewrite (pmp_set_mscratch 1 _ _ _ s1) by done. by apply (pmp_set_mscratch 0). }
  pose proof (reserved_fixup_pmp name0 reg0 Hn0 Hr0 s' fdt tot strs t na ns) as Hfix. cbv zeta in Hfix. rewrite Esc in Hfix.
  change (pmp_count_of s' scratch) with (pmp_count_of s scratch) in Hfix. rewrite Hd in Hfix.
  destruct Hfix as (fdt' & strs' & E & Hst'); [done|lia|done..| |].
  - unfold RESERVED_SIZE, REGION_SIZE. cbn [length]. lia.
  - exists s', fdt', strs'. split; [apply pmp_init_eq; done || lia|]. split; [exact E|]. split; [exact Hst'|].
    intros a perm Ha Hperm. unfold s'. rewrite pmp_init_allows by done. f_equal. apply same_block. apply Z.pow_pos_nonneg; [lia|]. change (0 <= fw_log2 s scratch). lia.
Qed.

(** * Examples *)

(** The hart of the example of the protection, before it sets it up. *)
Definition fw_hart : st := @put_csr pmp_plain_hw CSR_MSCRATCH 0x80021000 fw_state.

Lemma pmp_init_reserved_witness : let kid := region_node 1 1 0x80000000 0x20000 0 false in
  s_name kid = chars "mmode_pmp0@80000000" /\ s_prop (chars "reg") kid = Some (be32 0x80000000 ++ be32 0x20000) /\
  exists s' fdt' strs', @pmp_init pmp_plain_hw fw_platform 0x80021000 0 fw_hart = Ret 0 s' /\
    @fdt_reserved_memory_fixup (replicate 32 0) (replicate 16 0) pmp_plain_hw (demo_mem 256) s' = Ret (0, fdt') s' /\
    stores fdt' (demo_size + 256) strs' (add_kid (reserved_node 1 1 [kid]) demo).
Proof.
  split; [by vm_compute|]. split; [by vm_compute|].
  destruct (@pmp_init_reserved pmp_plain_hw fw_platform (replicate 32 0) (replicate 16 0) fw_hart 0 (demo_mem 256) demo_size demo_strs demo 1 1)
    as (s' & fdt' & strs' & E1 & E2 & Hst & _).
  - reflexivity.
  - reflexivity.
  - vm_compute. discriminate.
  - reflexivity.
  - vm_compute. reflexivity.
  - vm_compute. split; discriminate.
  - apply pmp_plain_hw_ok.
  - split; vm_compute; split; discriminate || reflexivity.
  - intros n Hn. unfold PMP_COUNT in Hn.
    assert (E : forallb (fun n => pmp_cfg fw_hart (cur fw_hart) n .& PMP_A =? 0) (seqZ 0 16) = true) by (by vm_compute).
    pose proof (forallb_seqZ _ 16 n E ltac:(lia)) as H. by apply Z.eqb_eq in H.
  - vm_compute. split; reflexivity || discriminate.
  - vm_compute. split; reflexivity || discriminate.
  - apply demo_stores. reflexivity.
  - vm_compute. discriminate.
  - decide_it.
  - vm_compute. reflexivity.
  - exists s', fdt', strs'. split; [exact E1|]. split; [exact E2|exact Hst].
Defined.

(** Four regions without permissions, of 4 KiB each. *)
Definition four_regions : st :=
  foldl (fun s n => @put_csr pmp_plain_hw (CSR_PMPADDR0 + n) (pmpaddr_encode (0x80000000 + 0x100000 * n) 12) s)
    (@put_csr pmp_plain_hw CSR_PMPCFG0 0x18181818 fw_hart) [0; 1; 2; 3].

(** The 256 bytes that the blob is enlarged by are not enough for all of
    them: the last node is left without its "reg", and success is reported. *)
Theorem reserved_fixup_short :
  denied four_regions (seqZ 0 8) = [(0x80000000, 4096); (0x80100000, 4096); (0x80200000, 4096); (0x80300000, 4096)] /\
  match @fdt_reserved_memory_fixup (replicate 32 0) (replicate 16 0) pmp_plain_hw (demo_mem 256) four_regions with
  | Ret (r, fdt) _ => Some (r, read_node (length fdt) fdt 0)
  | Exit _ _ => None
  end = Some (0, Some (add_kid (reserved_node 1 1 (Src (chars "mmode_pmp3@80300000") [] [] ::
    region_nodes 1 1 0 [(0x80000000, 4096); (0x80100000, 4096); (0x80200000, 4096)] [])) demo)).
Proof. split; vm_compute; reflexivity. Qed.
