(* ===== verification/FdtDrivers.v ===== *)
(** The drivers that configure themselves from the device tree:
    lib/utils/ipi/fdt_ipi.c and fdt_ipi_clint.c, lib/utils/timer/fdt_timer.c and
    fdt_timer_clint.c, lib/utils/irqchip/fdt_irqchip.c and fdt_irqchip_plic.c,
    lib/utils/serial/fdt_serial*.c, lib/utils/reset/fdt_reset*.c.

    The blob that [next_arg1] of the hart's scratch area points to is a list of
    bytes; the drivers only read it.  A pointer to a driver structure is a
    number, 0 for the dummy driver or NULL.  The arrays of device structures
    are at addresses the linker chooses. *)

From stdpp Require Import pretty.
From Stdlib Require Import String.
From S2P Require Import Prelude Encoding Bitops Cstring Machine Format Platform Hsm Tlb Ipi Serial Clint Plic Htif Fdt FdtTag FdtTree FdtImage FdtEncode FdtHelper.

(** Reading the blob outside its bytes is undefined. *)
Definition lift {A} (r : option A) : M A := match r with Some x => mret x | None => exits XUndef end.

Definition CLINT_MAX_NR : Z := 16.
Definition PLIC_MAX_NR : Z := 16.
(** [sizeof(struct clint_data)] *)
Definition CLINT_DATA_SIZE : Z := 88.

Section Drivers.
Context `{Hardware}.
Context (fdt : list Z).
Context (clint_ipi_array clint_timer_array : Z).

(** ** Probing *)

(** [while ((noff = fdt_find_match(fdt, noff, drv->match_table, &match)) >= 0)]:
    each node is initialised and selects the driver. *)
Fixpoint probe_nodes (n : nat) (noff : Z) (match_table : list string) (cold_init : Z -> M Z) (select : M unit) : M Z :=
  match n with
  | O => exits XUndef
  | S n =>
      '(noff, _) ← lift (fdt_find_match fdt noff match_table);
      if noff <? 0 then mret 0
      else
        rc ← cold_init noff;
        if nz rc then mret rc else (select;; probe_nodes n noff match_table cold_init select)
  end.
Definition probe_all := probe_nodes (S (length fdt)) (-1).

(** ** Inter-processor interrupts *)

Definition ipi_driver : string := "fdt_ipi.current_driver".

Definition fdt_ipi_send (target_hart : Z) : M unit :=
  drv ← getg ipi_driver; if drv =? 0 then mret tt else clint_ipi_send target_hart.
Definition fdt_ipi_clear (target_hart : Z) : M unit :=
  drv ← getg ipi_driver; if drv =? 0 then mret tt else clint_ipi_clear target_hart.
(** No driver has this operation. *)
Definition fdt_ipi_exit : M unit := mret tt.

(** What [fdt_parse_clint_node] stores in the structure when it succeeds. *)
Definition clint_store (ci addr first_hartid hart_count : Z) : M unit :=
  store (ci + clint_addr) addr;;
  store (ci + clint_hart_count) hart_count;;
  store (ci + clint_first_hartid) first_hartid;;
  store (ci + clint_has_64bit_mmio) 1.

Definition ipi_clint_cold_init (nodeoff : Z) : M Z :=
  count ← getg "clint_ipi_count";
  if CLINT_MAX_NR <=? count then mret SBI_ENOSPC
  else
    setg "clint_ipi_count" (count + 1);;
    let ci := clint_ipi_array + CLINT_DATA_SIZE * count in
    r ← lift (fdt_parse_clint_node fdt nodeoff false);
    match r with
    | inl rc => mret rc
    | inr (addr, first_hartid, hart_count) => clint_store ci addr first_hartid hart_count;; clint_cold_ipi_init ci
    end.

Definition ipi_clint_match : list string := ["riscv,clint0"%string].

Definition fdt_ipi_warm_init : M Z := drv ← getg ipi_driver; if drv =? 0 then mret 0 else clint_warm_ipi_init.
Definition fdt_ipi_cold_init : M Z := probe_all ipi_clint_match ipi_clint_cold_init (setg ipi_driver 1).
Definition fdt_ipi_init (cold_boot : bool) : M Z :=
  rc ← (if cold_boot then fdt_ipi_cold_init else mret 0);
  if nz rc then mret rc else fdt_ipi_warm_init.

(** ** The timer *)

Definition timer_driver : string := "fdt_timer.current_driver".

Definition fdt_timer_value : M Z := drv ← getg timer_driver; if drv =? 0 then mret 0 else clint_timer_value.
Definition fdt_timer_event_stop : M unit := drv ← getg timer_driver; if drv =? 0 then mret tt else clint_timer_event_stop.
Definition fdt_timer_event_start (next_event : Z) : M unit :=
  drv ← getg timer_driver; if drv =? 0 then mret tt else clint_timer_event_start next_event.
Definition fdt_timer_exit : M unit := mret tt.

(** The first device is the reference of the others. *)
Definition timer_clint_cold_init (nodeoff : Z) : M Z :=
  count ← getg "clint_timer_count";
  if CLINT_MAX_NR <=? count then mret SBI_ENOSPC
  else
    setg "clint_timer_count" (count + 1);;
    let ct := clint_timer_array + CLINT_DATA_SIZE * count in
    let ctmaster := if 1 <? count + 1 then clint_timer_array else 0 in
    r ← lift (fdt_parse_clint_node fdt nodeoff true);
    match r with
    | inl rc => mret rc
    | inr (addr, first_hartid, hart_count) => clint_store ct addr first_hartid hart_count;; clint_cold_timer_init ct ctmaster
    end.

Definition timer_clint_match : list string := ["riscv,clint0"%string].

Definition fdt_timer_warm_init : M Z := drv ← getg timer_driver; if drv =? 0 then mret 0 else clint_warm_timer_init.
Definition fdt_timer_cold_init : M Z := probe_all timer_clint_match timer_clint_cold_init (setg timer_driver 1).
Definition fdt_timer_init (cold_boot : bool) : M Z :=
  rc ← (if cold_boot then fdt_timer_cold_init else mret 0);
  if nz rc then mret rc else fdt_timer_warm_init.

(** ** Interrupt controllers *)

Definition irqchip_driver : string := "fdt_irqchip.current_driver".

(** [struct plic_data plic[PLIC_MAX_NR]], field by field; a pointer into it is
    the index of the element plus one. *)
Definition plic_at (pd : Z) : M (option plic_data) :=
  if pd =? 0 then mret None
  else addr ← getg (elem "plic.addr" (pd - 1)); num ← getg (elem "plic.num_src" (pd - 1)); mret (Some (mkPlic addr num)).

Definition plic_data_table : string := "plic_hartid2data".
Definition plic_m_table : string := "plic_hartid2context.0:".
Definition plic_s_table : string := "plic_hartid2context.1:".

Definition irqchip_plic_warm_init : M Z :=
  hartid ← current_hartid;
  pd ← tbl_get plic_data_table hartid;
  m ← tbl_get plic_m_table hartid;
  s ← tbl_get plic_s_table hartid;
  plic ← plic_at pd;
  plic_warm_irqchip_init plic m s.

(** The loop over "interrupts-extended", [count - i] cells being left at [p]. *)
Fixpoint plic_table_loop (n : nat) (p i count pd : Z) : M Z :=
  if count <=? i then mret 0
  else
    match n with
    | O => exits XUndef
    | S n =>
        phandle ← lift (fdt32_ld (from fdt p));
        hwirq ← lift (fdt32_ld (from fdt (p + 4)));
        hart ← lift (intc_hart fdt phandle);
        (match hart with
         | None => mret tt
         | Some hartid =>
             tbl_set plic_data_table hartid pd;;
             if hwirq =? IRQ_M_EXT then tbl_set plic_m_table hartid (i / 2)
             else when (hwirq =? IRQ_S_EXT) (tbl_set plic_s_table hartid (i / 2))
         end);;
        plic_table_loop n (p + 8) (i + 2) count pd
    end.

Definition irqchip_plic_update_hartid_table (nodeoff pd : Z) : M Z :=
  '(val, count) ← lift (fdt_getprop fdt nodeoff (cstring "interrupts-extended"));
  match val with
  | None => mret SBI_EINVAL
  | Some val =>
      if u64 count <? 4 then mret SBI_EINVAL
      else let cells := s32 (u64 count / 4) in plic_table_loop (S (Z.to_nat cells)) val 0 cells pd
  end.

Definition plic_clear_hart (i : Z) : M unit :=
  tbl_set plic_data_table i 0;; tbl_set plic_m_table i (-1);; tbl_set plic_s_table i (-1).

Definition irqchip_plic_cold_init (nodeoff : Z) : M Z :=
  count ← getg "plic_count";
  if PLIC_MAX_NR <=? count then mret SBI_ENOSPC
  else
    setg "plic_count" (count + 1);;
    old ← getg (elem "plic.num_src" count);
    r ← lift (fdt_parse_plic_node fdt nodeoff old);
    match r with
    | inl rc => mret rc
    | inr (addr, num) =>
        setg (elem "plic.addr" count) addr;;
        setg (elem "plic.num_src" count) num;;
        rc ← plic_cold_irqchip_init (Some (mkPlic addr num));
        if nz rc then mret rc
        else
          when (count + 1 =? 1) (for_each (seqZ 0 SBI_HARTMASK_MAX_BITS) plic_clear_hart);;
          irqchip_plic_update_hartid_table nodeoff (count + 1)
    end.

Definition irqchip_plic_match : list string := ["riscv,plic0"; "sifive,plic-1.0.0"]%string.

Definition fdt_irqchip_exit : M unit := mret tt.
Definition fdt_irqchip_warm_init : M Z := drv ← getg irqchip_driver; if drv =? 0 then mret 0 else irqchip_plic_warm_init.
Definition fdt_irqchip_cold_init : M Z := probe_all irqchip_plic_match irqchip_plic_cold_init (setg irqchip_driver 1).
Definition fdt_irqchip_init (cold_boot : bool) : M Z :=
  rc ← (if cold_boot then fdt_irqchip_cold_init else mret 0);
  if nz rc then mret rc else fdt_irqchip_warm_init.

(** ** The console *)

Definition serial_driver : string := "fdt_serial.current_driver".

(** What a driver offers: its match table and how it is set up, if at all. *)
Record serial_drv : Type := mkSerial {
  ser_match : list string; ser_init : option (Z -> M Z); ser_putc : Z -> M unit; ser_getc : M Z
}.

(** Parse the node, then set the device up. *)
Definition serial_node_init (parse : Z -> option (Z + platform_uart_data)) (init : platform_uart_data -> M Z) (nodeoff : Z) : M Z :=
  r ← lift (parse nodeoff);
  match r with inl rc => mret rc | inr uart => init uart end.

Definition serial_uart8250_init : Z -> M Z :=
  serial_node_init (fdt_parse_uart8250_node fdt)
    (fun u => uart8250_init (uart_addr u) (u32 (uart_freq u)) (u32 (uart_baud u)) (u32 (uart_reg_shift u)) (u32 (uart_reg_io_width u))).
Definition serial_sifive_init : Z -> M Z :=
  serial_node_init (fdt_parse_sifive_uart_node fdt) (fun u => sifive_uart_init (uart_addr u) (u32 (uart_freq u)) (u32 (uart_baud u))).
Definition serial_shakti_init : Z -> M Z :=
  serial_node_init (fdt_parse_shakti_uart_node fdt) (fun u => shakti_uart_init (uart_addr u) (u32 (uart_freq u)) (u32 (uart_baud u))).

Definition fdt_serial_uart8250 : serial_drv :=
  mkSerial ["ns16550"; "ns16550a"]%string (Some serial_uart8250_init) uart8250_putc uart8250_getc.
Definition fdt_serial_sifive : serial_drv :=
  mkSerial ["sifive,fu540-c000-uart"; "sifive,uart0"]%string (Some serial_sifive_init) sifive_uart_putc sifive_uart_getc.
Definition fdt_serial_htif : serial_drv := mkSerial ["ucb,htif0"]%string None htif_putc htif_getc.
Definition fdt_serial_shakti : serial_drv :=
  mkSerial ["shakti,uart0"]%string (Some serial_shakti_init) shakti_uart_putc shakti_uart_getc.
Definition serial_drivers : list serial_drv := [fdt_serial_uart8250; fdt_serial_sifive; fdt_serial_htif; fdt_serial_shakti].

(** [current_driver] is the index into the table plus one, 0 the dummy. *)
Definition current_serial : M (option serial_drv) :=
  drv ← getg serial_driver; mret (if drv =? 0 then None else serial_drivers !! Z.to_nat (drv - 1)).
Definition fdt_serial_putc (ch : Z) : M unit :=
  drv ← current_serial; match drv with Some drv => ser_putc drv ch | None => mret tt end.
Definition fdt_serial_getc : M Z :=
  drv ← current_serial; match drv with Some drv => ser_getc drv | None => mret (-1) end.

(** Set the driver up for the node and select it. *)
Definition serial_select (pos : Z) (drv : serial_drv) (noff : Z) : M Z :=
  rc ← (match ser_init drv with Some init => init noff | None => mret 0 end);
  if nz rc then mret rc else (setg serial_driver (pos + 1);; mret 0).

(** First the node of "stdout-path"; a driver found ends the search. *)
Fixpoint serial_match (pos : Z) (drivers : list serial_drv) (noff : Z) : M Z :=
  match drivers with
  | [] => mret 0
  | drv :: drivers =>
      if -1 <? noff then
        m ← lift (fdt_match_node fdt noff (ser_match drv));
        match m with None => serial_match (pos + 1) drivers noff | Some _ => serial_select pos drv noff end
      else mret 0
  end.
(** Then all nodes. *)
Fixpoint serial_find (pos : Z) (drivers : list serial_drv) : M Z :=
  match drivers with
  | [] => mret 0
  | drv :: drivers =>
      '(noff, _) ← lift (fdt_find_match fdt (-1) (ser_match drv));
      if noff <? 0 then serial_find (pos + 1) drivers else serial_select pos drv noff
  end.

(** The node "stdout-path" names, or a negative number; aliases that lead on
    for more steps than the blob has bytes lead to themselves. *)
Definition stdout_node : M Z :=
  coff ← lift (fdt_path_offset (length fdt) fdt (cstring "/chosen"));
  if -1 <? coff then
    '(prop, len) ← lift (fdt_getprop fdt coff (cstring "stdout-path"));
    match prop with
    | Some prop => if nz len then lift (fdt_path_offset (length fdt) fdt (from fdt prop)) else mret (-1)
    | None => mret (-1)
    end
  else mret (-1).

Definition fdt_serial_init : M Z :=
  noff ← stdout_node;
  rc ← serial_match 0 serial_drivers noff;
  if nz rc then mret rc
  else
    drv ← getg serial_driver;
    if drv =? 0 then serial_find 0 serial_drivers else mret 0.

(** ** Reset *)

Definition reset_driver : string := "fdt_reset.current_driver".

Definition sifive_test_reset_init (nodeoff : Z) : M Z :=
  '(rc, addr, _) ← lift (fdt_get_node_addr_size fdt nodeoff false);
  if nz rc then mret rc else sifive_test_init addr.

(** Match table and set-up of the drivers: the SiFive test device, the HTIF. *)
Definition reset_drivers : list (list string * option (Z -> M Z)) :=
  [(["sifive,test1"%string], Some sifive_test_reset_init); (["ucb,htif0"%string], None)].

Definition fdt_system_reset (reset_type : Z) : M Z :=
  drv ← getg reset_driver;
  if drv =? 0 then mret 0 else if drv =? 1 then sifive_test_system_reset reset_type else htif_system_reset reset_type.

Fixpoint reset_find (pos : Z) (drivers : list (list string * option (Z -> M Z))) : M Z :=
  match drivers with
  | [] => mret 0
  | (match_table, init) :: drivers =>
      '(noff, _) ← lift (fdt_find_match fdt (-1) match_table);
      if noff <? 0 then reset_find (pos + 1) drivers
      else
        rc ← (match init with Some init => init noff | None => mret 0 end);
        if nz rc then mret rc else (setg reset_driver (pos + 1);; mret 0)
  end.
Definition fdt_reset_init : M Z := reset_find 0 reset_drivers.
End Drivers.

(** * Properties *)

Lemma bind_ext {A B} (m : M A) (f g : A -> M B) s : (forall a s', f a s' = g a s') -> (m ≫= f) s = (m ≫= g) s.
Proof. intros E. unfold mbind, M_bind. by destruct (m s). Qed.

(** Setting the priorities leaves the firmware's variables alone. *)
Lemma plic_priorities_eq p s : plic_ok p -> exists s', plic_cold_irqchip_init (Some p) s = Ret 0 s' /\ glob s' = glob s.
Proof.
  intros [Hn Hn']. unfold plic_cold_irqchip_init.
  rewrite (bind_ret_eq _ _ _ _ _ (for_each_writes (seqZ 1 (num_src p)) (fun i => plic_set_priority p i 0) (fun i => (priority_addr p i, 0)) s ltac:(
    intros i s' Hi%elem_of_seqZ; unfold plic_set_priority, writel, __raw_writel, io_write, modify, u32;
    rewrite (wrap_small 32 (4 * i)) by (unfold fits; lia); done))).
  eexists. split; [reflexivity|]. generalize (writes ((fun i => (priority_addr p i, 0)) <$> seqZ 1 (num_src p))). intros l. clear.
  revert s. induction l as [|e l IH]; intros s; [done|]. change (log_events (e :: l) s) with (log_events l (add_event e s)). by rewrite IH.
Qed.

Section Tree.
Context `{Hardware}.
Context (fdt : list Z) (root : dt) (Hh : holds fdt root) (H0 : d_off root = 0).
Context (Hcl : compat_lists root) (Hcpu : forall t, node_of root t -> cpu_props_ok t).

(** ** Probing *)

(** The nodes a driver is set up for, one after the other. *)
Fixpoint init_list (cold_init : Z -> M Z) (select : M unit) (l : list dt) : M Z :=
  match l with
  | [] => mret 0
  | t :: l =>
      rc ← cold_init (d_off t);
      if nz rc then mret rc else (select;; init_list cold_init select l)
  end.

Lemma cstring_cstr c : forallb nz (chars c) = true -> cstr (chars c) (cstring c).
Proof.
  intros Hnz. rewrite <- (app_nil_r (cstring c)). apply chars_cstring, Forall_forall. intros x Hx.
  rewrite forallb_forall in Hnz. apply nz_true, Hnz. by apply list_elem_of_In.
Qed.

(** With one entry in the match table, a driver is set up for the compatible
    nodes in document order. *)
Lemma probe_nodes_eq c cold_init select : forallb nz (chars c) = true -> chars c <> [] -> Z.of_nat (length (chars c)) < 2 ^ 31 ->
  forall n start rest s, search_from root start rest -> (length rest < n)%nat ->
  probe_nodes fdt n start [c] cold_init select s = init_list cold_init select (List.filter (compat (chars c)) rest) s.
Proof.
  intros Hnz Hne Hlen. induction n as [|n IH]; intros start rest s Hst Hn; [lia|]. cbn [probe_nodes fdt_find_match].
  rewrite (fdt_node_offset_by_compatible_eq _ _ Hh start rest (chars c) _ Hst Hcl Hne (cstring_cstr c Hnz) Hlen). cbn [mbind option_bind].
  destruct (List.find (compat (chars c)) rest) as [t|] eqn:Ef.
  - destruct (find_some _ _ Ef) as [Hin Hc]. apply list_elem_of_In in Hin.
    destruct (node_offset _ _ Hh t) as [Ho _]; [by eapply search_from_node|].
    rewrite (proj2 (Z.leb_le 0 (d_off t))) by lia. cbn [lift]. unfold mbind at 1, M_bind at 1, mret at 1, M_ret at 1. cbv beta iota.
    rewrite (proj2 (Z.ltb_ge (d_off t) 0)) by lia.
    assert (Hsplit : exists l1 l2, rest = l1 ++ t :: l2 /\ List.filter (compat (chars c)) rest = t :: List.filter (compat (chars c)) l2).
    { clear -Ef. induction rest as [|t' l IHl]; [done|]. cbn [List.find List.filter] in *. destruct (compat (chars c) t') eqn:Et.
      - injection Ef as ->. by exists [], l.
      - destruct (IHl Ef) as (l1 & l2 & -> & E). by exists (t' :: l1), l2. }
    destruct Hsplit as (l1 & l2 & -> & ->). cbn [init_list]. apply bind_ext. intros rc s'. destruct (nz rc); [done|].
    apply bind_ext. intros _ s''. apply IH.
    + right. destruct Hst as [[_ E]|(l0 & t0 & E & _)]; [by exists l1, t|]. exists (l0 ++ t0 :: l1), t. by rewrite E, <- app_assoc.
    + rewrite length_app in Hn. simpl in Hn. lia.
  - replace (List.filter (compat (chars c)) rest) with (@nil dt); [done|]. clear -Ef. induction rest as [|t l IH]; [done|].
    cbn [List.find List.filter] in *. by destruct (compat (chars c) t); [|apply IH].
Qed.

Lemma nodes_length : (length (nodes root) <= length fdt)%nat.
Proof.
  etrans; [|exact (flat_length _ _ Hh)]. clear. induction root as [o name props kids oe IH] using dt_forall. cbn [nodes flat d_kids length].
  rewrite !length_app. assert (length (flat_map nodes kids) <= length (flat_map flat kids))%nat; [|lia].
  induction IH as [|k kids Hk _ IHk]; [done|]. cbn [flat_map]. rewrite !length_app. lia.
Qed.

(** ** Inter-processor interrupts *)

(** A CLINT the firmware can use: its address and the harts it covers. *)
Definition clint_node (for_timer : bool) (t : dt) (c : Z * Z * Z) : Prop :=
  (exists d p, at_depth root d p /\ t ∈ d_kids p /\ cells_ok p /\ clint_of root p t for_timer = Some c) /\
  let '(addr, first, count) := c in 0 <= first /\ 0 <= count /\ first + count <= SBI_HARTMASK_MAX_BITS.

Definition clint_covers (c : Z * Z * Z) (h : Z) : bool := let '(_, first, count) := c in (first <=? h) && (h <? first + count).

(** The interrupt word of a hart: in the last device that covers it. *)
Definition ipi_word (cs : list (Z * Z * Z)) (h : Z) : option Z :=
  foldl (fun w c => if clint_covers c h then Some (c.1.1 + 4 * (h - c.1.2)) else w) None cs.

Context (arr : Z) (Harr : 0 < arr).

(** [j] devices are set up, and [w] gives the interrupt words. *)
Record ipi_inv (s : st) (j : Z) (w : Z -> option Z) : Prop := {
  inv_count : gval s "clint_ipi_count" = j;
  inv_words h : 0 <= h < SBI_HARTMASK_MAX_BITS ->
    match w h with
    | None => gval s (elem ipi_table h) = 0
    | Some a => exists i, 0 <= i < j /\ gval s (elem ipi_table h) = arr + CLINT_DATA_SIZE * i /\
        mem_val s (arr + CLINT_DATA_SIZE * i + clint_ipi) + 4 * u32 (h - mem_val s (arr + CLINT_DATA_SIZE * i + clint_first_hartid)) = a
    end
}.

Lemma clint_node_parse ft t c : clint_node ft t c -> fdt_parse_clint_node fdt (d_off t) ft = Some (inr c).
Proof. intros [(d & p & Hd & Hk & Hc & E) _]. by apply (fdt_parse_clint_node_eq _ _ Hh d p). Qed.

(** The memory after [clint_cold_ipi_init] on a structure just filled in. *)
Definition stored (ci : Z) (c : Z * Z * Z) (s : st) : st :=
  set_mem <[ci + clint_ipi := c.1.1]> (set_mem <[ci + clint_has_64bit_mmio := 1]> (set_mem <[ci + clint_first_hartid := c.1.2]>
    (set_mem <[ci + clint_hart_count := c.2]> (set_mem <[ci + clint_addr := c.1.1]> s)))).

Lemma stored_val ci c s a : mem_val (stored ci c s) a =
  if a =? ci + clint_ipi then c.1.1 else if a =? ci + clint_has_64bit_mmio then 1 else if a =? ci + clint_first_hartid then c.1.2
  else if a =? ci + clint_hart_count then c.2 else if a =? ci + clint_addr then c.1.1 else mem_val s a.
Proof.
  unfold stored. repeat (match goal with |- context [?x =? ?y] => destruct (Z.eqb_spec x y) as [->|] end;
    [repeat (rewrite mem_val_store_ne by (unfold clint_ipi, clint_has_64bit_mmio, clint_first_hartid, clint_hart_count, clint_addr; lia));
     by rewrite mem_val_store|rewrite mem_val_store_ne by done]). done.
Qed.

(** Setting one more device up. *)
Lemma ipi_cold_step t c s j w : clint_node false t c -> ipi_inv s j w -> 0 <= j < CLINT_MAX_NR ->
  exists s', ipi_clint_cold_init fdt arr (d_off t) s = Ret 0 s' /\
    ipi_inv s' (j + 1) (fun h => if clint_covers c h then Some (c.1.1 + 4 * (h - c.1.2)) else w h).
Proof.
  intros Hc [Hcount Hw] Hj. pose proof (clint_node_parse _ _ _ Hc) as Ep. destruct Hc as [_ Hr]. destruct c as [[addr first] count].
  set (ci := arr + CLINT_DATA_SIZE * j). set (s1 := set_glob <["clint_ipi_count" := j + 1]> s). set (s2 := stored ci (addr, first, count) s1).
  assert (Hci : ci <> 0) by (unfold ci, CLINT_DATA_SIZE; lia).
  assert (Hv : mem_val s2 (ci + clint_first_hartid) = first /\ mem_val s2 (ci + clint_hart_count) = count).
  { unfold s2. rewrite !stored_val. unfold clint_ipi, clint_has_64bit_mmio, clint_first_hartid, clint_hart_count.
    by repeat (match goal with |- context [?x =? ?y] => destruct (Z.eqb_spec x y); [try lia|] end). }
  destruct Hv as [Hv1 Hv2]. destruct (tbl_fill_spec ipi_table ci s2) as (s3 & E3 & (_ & _ & Hm & _) & Hin & Hout); rewrite ?Hv1, ?Hv2 in *; [lia..|].
  exists s3. split.
  { unfold ipi_clint_cold_init. repeat mstep. rewrite Hcount, (proj2 (Z.leb_gt CLINT_MAX_NR j)) by lia. repeat mstep. cbv zeta. fold s1 ci.
    rewrite Ep. cbn [lift]. repeat mstep. cbv iota. unfold clint_store. repeat mstep. unfold clint_cold_ipi_init.
    rewrite (proj2 (Z.eqb_neq ci 0) Hci). mstep. match goal with |- context [mem_val ?x (ci + clint_addr)] => replace (mem_val x (ci + clint_addr)) with addr end.
    2:{ symmetry. repeat (rewrite mem_val_store_ne by (unfold clint_has_64bit_mmio, clint_first_hartid, clint_hart_count, clint_addr; lia)). apply mem_val_store. }
    mstep. fold s2. by mstep. }
  split.
  { rewrite Hout by (intros h _; discriminate). apply gval_set. }
  intros h Hr'. unfold clint_covers. destruct ((first <=? h) && (h <? first + count)) eqn:Ecov.
  - exists j. split; [lia|]. rewrite Hin by lia. split; [done|]. unfold mem_val. rewrite Hm. fold ci.
    fold (mem_val s2 (ci + clint_ipi)) (mem_val s2 (ci + clint_first_hartid)). rewrite Hv1. unfold s2. rewrite stored_val, Z.eqb_refl.
    unfold SBI_HARTMASK_MAX_BITS in *. unfold u32. rewrite wrap_small by (unfold fits; lia). done.
  - specialize (Hw h Hr'). rewrite Hout by (intros k Hk E%elem_inj; lia). change (gval s2 (elem ipi_table h)) with (gval s1 (elem ipi_table h)).
    unfold s1. rewrite gval_set_ne by discriminate. destruct (w h) as [a|]; [|done]. destruct Hw as (i & Hi & Eg & Ea).
    exists i. split; [lia|]. split; [done|]. rewrite <- Ea. unfold mem_val at 1 2. rewrite Hm.
    fold (mem_val s2 (arr + CLINT_DATA_SIZE * i + clint_ipi)) (mem_val s2 (arr + CLINT_DATA_SIZE * i + clint_first_hartid)). unfold s2.
    rewrite !stored_val. unfold ci, CLINT_DATA_SIZE, clint_ipi, clint_has_64bit_mmio, clint_first_hartid, clint_hart_count, clint_addr.
    by repeat (match goal with |- context [?x =? ?y] => destruct (Z.eqb_spec x y); [lia|] end).
Qed.

Lemma ipi_inv_select s j w : ipi_inv s j w -> ipi_inv (set_glob <[ipi_driver := 1]> s) j w.
Proof.
  intros [Hc Hw]. split; [by rewrite gval_set_ne by discriminate|]. intros h Hr. rewrite gval_set_ne by discriminate. exact (Hw h Hr).
Qed.

Lemma ipi_init_list l cs : forall s j w, Forall2 (clint_node false) l cs -> ipi_inv s j w -> 0 <= j -> j + Z.of_nat (length l) <= CLINT_MAX_NR ->
  exists s', init_list (ipi_clint_cold_init fdt arr) (setg ipi_driver 1) l s = Ret 0 s' /\
    ipi_inv s' (j + Z.of_nat (length l)) (fun h => foldl (fun w c => if clint_covers c h then Some (c.1.1 + 4 * (h - c.1.2)) else w) (w h) cs) /\
    gval s' ipi_driver = (if l is [] then gval s ipi_driver else 1).
Proof.
  intros s j w H2. revert s j w. induction H2 as [|t c l cs Hc _ IH]; intros s j w Hi Hj Hn.
  { exists s. cbn. split; [done|]. split; [|done]. rewrite Z.add_0_r. exact Hi. }
  cbn [length] in Hn. destruct (ipi_cold_step t c s j w Hc Hi) as (s1 & E1 & Hi1); [lia|].
  destruct (IH _ (j + 1) _ (ipi_inv_select _ _ _ Hi1)) as (s2 & E2 & Hi2 & Eg); [lia..|].
  exists s2. cbn [init_list]. rewrite (bind_ret_eq _ _ _ _ _ E1). cbn [nz Z.eqb negb]. split; [exact E2|]. split.
  - cbn [length foldl]. by replace (j + Z.of_nat (S (length l))) with (j + 1 + Z.of_nat (length l)) by lia.
  - rewrite Eg. destruct l; [apply gval_set|done].
Qed.

(** With the devices set up, an interrupt is written to the word of its
    hart. *)
Lemma ipi_write_word s j w v h : ipi_inv s j w -> 0 <= h < SBI_HARTMASK_MAX_BITS ->
  clint_ipi_write v h s = Ret tt (match w h with Some a => add_event (EvWrite 4 a (wrap 32 v)) s | None => s end).
Proof.
  intros Hi Hr. rewrite clint_ipi_write_eq. cbv zeta. unfold SBI_HARTMASK_MAX_BITS in Hr.
  replace (u32 h) with h by (symmetry; apply wrap_small; unfold fits; lia).
  rewrite (proj2 (Z.leb_gt SBI_HARTMASK_MAX_BITS h)) by (unfold SBI_HARTMASK_MAX_BITS; lia). cbn [orb].
  pose proof (inv_words _ _ _ Hi h Hr) as Hw. destruct (w h) as [a|]; [|by rewrite Hw].
  destruct Hw as (i & Hij & -> & <-). rewrite (proj2 (Z.eqb_neq _ 0)) by (unfold CLINT_DATA_SIZE; lia). done.
Qed.

(** ** Interrupt contexts *)

(** The context of hart [h] for the interrupt [irq]: the position of the last
    connection [l] makes between them, counting from [i]. *)
Fixpoint ctx_of (irq h i : Z) (l : list (Z * Z)) (acc : Z) : Z :=
  match l with
  | [] => acc
  | (ph, hwirq) :: l => ctx_of irq h (i + 1) l (if (hwirq =? irq) && bool_decide (ref_hart root ph = Some h) then i else acc)
  end.
(** The harts that are connected. *)
Definition connected (l : list (Z * Z)) (h : Z) : bool := existsb (fun pr => bool_decide (ref_hart root pr.1 = Some h)) l.

Lemma tbl_set_eq x i v s : 0 <= i < SBI_HARTMASK_MAX_BITS -> tbl_set x i v s = Ret tt (set_glob <[elem x i := v]> s).
Proof. intros Hi. unfold tbl_set. by replace ((0 <=? i) && (i <? SBI_HARTMASK_MAX_BITS)) with true by lia. Qed.

Lemma plic_tables_differ i j :
  elem plic_data_table i <> elem plic_m_table j /\ elem plic_data_table i <> elem plic_s_table j /\ elem plic_m_table i <> elem plic_s_table j.
Proof. repeat split; discriminate. Qed.

(** What the tables hold after the connections [l], the first of them being
    number [i]. *)
Record plic_tables (s s' : st) (pd i : Z) (l : list (Z * Z)) : Prop := {
  pt_same : same_but_glob s s';
  pt_data h : gval s' (elem plic_data_table h) = if connected l h then pd else gval s (elem plic_data_table h);
  pt_m h : gval s' (elem plic_m_table h) = ctx_of IRQ_M_EXT h i l (gval s (elem plic_m_table h));
  pt_s h : gval s' (elem plic_s_table h) = ctx_of IRQ_S_EXT h i l (gval s (elem plic_s_table h));
  pt_others x : (forall h, x <> elem plic_data_table h /\ x <> elem plic_m_table h /\ x <> elem plic_s_table h) -> gval s' x = gval s x
}.

Lemma gval_elem s x i v j : gval (set_glob <[elem x i := v]> s) (elem x j) = if bool_decide (i = j) then v else gval s (elem x j).
Proof. case_bool_decide as E; [subst; apply gval_set|]. apply gval_set_ne. by intros ?%elem_inj. Qed.

Lemma plic_table_step ph hwirq i pd s : exists s1,
  (match ref_hart root ph with
   | None => mret tt
   | Some hartid =>
       tbl_set plic_data_table hartid pd;;
       if hwirq =? IRQ_M_EXT then tbl_set plic_m_table hartid i else when (hwirq =? IRQ_S_EXT) (tbl_set plic_s_table hartid i)
   end) s = Ret tt s1 /\ plic_tables s s1 pd i [(ph, hwirq)].
Proof.
  destruct (ref_hart root ph) as [h|] eqn:Eh.
  2:{ exists s. split; [done|]. split; cbn; [done|intros k..|done]; rewrite Eh; [done|by rewrite andb_false_r..]. }
  pose proof (ref_hart_pos fdt root Hh _ _ Eh). pose proof (ref_hart_bound _ _ _ Eh).
  set (s0 := set_glob <[elem plic_data_table h := pd]> s).
  rewrite (bind_ret_eq _ _ s tt s0) by (apply tbl_set_eq; lia).
  assert (Hex : exists s1, (if hwirq =? IRQ_M_EXT then tbl_set plic_m_table h i else when (hwirq =? IRQ_S_EXT) (tbl_set plic_s_table h i)) s0 = Ret tt s1 /\
    s1 = if hwirq =? IRQ_M_EXT then set_glob <[elem plic_m_table h := i]> s0
         else if hwirq =? IRQ_S_EXT then set_glob <[elem plic_s_table h := i]> s0 else s0).
  { destruct (hwirq =? IRQ_M_EXT); [|destruct (hwirq =? IRQ_S_EXT)]; eexists; (split; [|reflexivity]); unfold when; rewrite ?tbl_set_eq by lia; done. }
  destruct Hex as (s1 & -> & Es1). exists s1. split; [done|].
  assert (Hb : forall k, bool_decide (Some h = Some k) = bool_decide (h = k)) by (intros k; apply bool_decide_ext; split; [by intros [= ->]|by intros ->]).
  split; rewrite Es1; clear Es1 s1.
  - by destruct (hwirq =? IRQ_M_EXT); [|destruct (hwirq =? IRQ_S_EXT)].
  - intros k. cbn [connected existsb fst]. rewrite Eh, Hb, orb_false_r.
    destruct (hwirq =? IRQ_M_EXT); [|destruct (hwirq =? IRQ_S_EXT)]; rewrite ?gval_set_ne by discriminate; apply gval_elem.
  - intros k. cbn [ctx_of]. rewrite Eh, Hb. destruct (hwirq =? IRQ_M_EXT); cbn [andb]; [rewrite gval_elem|destruct (hwirq =? IRQ_S_EXT)];
      unfold s0; rewrite ?gval_set_ne by discriminate; done.
  - intros k. cbn [ctx_of]. rewrite Eh, Hb. destruct (Z.eqb_spec hwirq IRQ_M_EXT) as [->|]; [|destruct (hwirq =? IRQ_S_EXT)]; cbn [andb Z.eqb Pos.eqb IRQ_M_EXT IRQ_S_EXT];
      rewrite ?gval_elem; unfold s0; rewrite ?gval_set_ne by discriminate; done.
  - intros x Hx. destruct (Hx h) as (Hx1 & Hx2 & Hx3). unfold s0.
    destruct (hwirq =? IRQ_M_EXT); [|destruct (hwirq =? IRQ_S_EXT)]; rewrite !gval_set_ne by done; done.
Qed.

Lemma plic_tables_cons s s1 s2 pd i pr l : plic_tables s s1 pd i [pr] -> plic_tables s1 s2 pd (i + 1) l -> plic_tables s s2 pd i (pr :: l).
Proof.
  intros [Hq Hd Hm Hs Ho] [Hq' Hd' Hm' Hs' Ho']. destruct pr as [ph hwirq]. cbn [ctx_of connected existsb fst] in *. split.
  - unfold same_but_glob in *. intuition congruence.
  - intros h. rewrite Hd', Hd, orb_false_r. unfold connected. cbn [existsb fst]. by destruct (existsb _ l), (bool_decide _).
  - intros h. by rewrite Hm', Hm.
  - intros h. by rewrite Hs', Hs.
  - intros x Hx. by rewrite Ho', Ho.
Qed.

(** The loop over the connections [v] of a node. *)
Lemma plic_table_loop_eq n : forall m v p i pd s, (n < m)%nat -> 0 <= p -> starts v (from fdt p) -> length v = (8 * n)%nat ->
  exists s', plic_table_loop fdt m p (2 * i) (2 * (i + Z.of_nat n)) pd s = Ret 0 s' /\ plic_tables s s' pd i (irq_pairs v).
Proof.
  induction n as [|n IH]; intros m v p i pd s Hm Hp Hs Hv; (destruct m as [|m]; [lia|]).
  { destruct v; [|done]. exists s. cbn [plic_table_loop]. rewrite (proj2 (Z.leb_le (2 * (i + Z.of_nat 0)) (2 * i))) by lia. split; [done|]. by split. }
  do 8 (destruct v as [|? v]; [simpl in Hv; lia|]).
  cbn [plic_table_loop]. rewrite (proj2 (Z.leb_gt (2 * (i + Z.of_nat (S n))) (2 * i))) by lia.
  destruct Hs as [r Hs]. assert (Hs4 : from fdt (p + 4) = drop 4 (from fdt p)) by (by rewrite from_from).
  assert (Hs8 : from fdt (p + 8) = drop 8 (from fdt p)) by (by rewrite from_from).
  rewrite Hs4, Hs. cbn [app drop fdt32_ld lift]. repeat mstep. rewrite (intc_hart_eq fdt root Hh) by done. cbn [lift]. repeat mstep.
  replace (2 * i / 2) with i by (rewrite (Z.mul_comm 2), Z.div_mul; lia).
  destruct (plic_table_step (Z.shiftl z 24 .| Z.shiftl z0 16 .| Z.shiftl z1 8 .| z2)
    (Z.shiftl z3 24 .| Z.shiftl z4 16 .| Z.shiftl z5 8 .| z6) i pd s) as (s1 & E1 & Ht1).
  rewrite (bind_ret_eq _ _ _ _ _ E1). destruct (IH m v (p + 8) (i + 1) pd s1) as (s2 & E2 & Ht2);
    [lia|lia|rewrite Hs8, Hs; by exists r|simpl in Hv; lia|].
  exists s2. split; [|by eapply plic_tables_cons]. rewrite <- E2. f_equal; lia.
Qed.

(** ** Matching several names *)

Fixpoint first_match (table : list string) (rest : list dt) : option (dt * string) :=
  match table with
  | [] => None
  | c :: table => match List.find (compat (chars c)) rest with Some t => Some (t, c) | None => first_match table rest end
  end.

Definition match_name (c : string) : Prop := forallb nz (chars c) = true /\ chars c <> [] /\ Z.of_nat (length (chars c)) < 2 ^ 31.

Lemma fdt_find_match_eq start rest table : search_from root start rest -> Forall match_name table ->
  fdt_find_match fdt start table =
  Some (match first_match table rest with Some (t, c) => (d_off t, Some c) | None => (SBI_ENODEV, None) end).
Proof.
  intros Hst Ht. induction Ht as [|c table (Hnz & Hne & Hlen) _ IH]; [done|]. cbn [fdt_find_match first_match].
  rewrite (fdt_node_offset_by_compatible_eq _ _ Hh start rest (chars c) _ Hst Hcl Hne (cstring_cstr c Hnz) Hlen). cbn [mbind option_bind].
  destruct (List.find (compat (chars c)) rest) as [t|] eqn:Ef; [|done]. destruct (find_some _ _ Ef) as [Hin%list_elem_of_In _].
  destruct (node_offset _ _ Hh t) as [Ho _]; [by eapply search_from_node|]. by rewrite (proj2 (Z.leb_le 0 (d_off t))) by lia.
Qed.

(** A PLIC the firmware can use: its address, its number of sources, and its
    connections. *)
Definition plic_node (t : dt) (dev : plic_data) (v : list Z) : Prop :=
  (exists d p size, at_depth root d p /\ t ∈ d_kids p /\ cells_ok p /\ reg_of p t = Some (plic_addr dev, size) /\ size <> 0) /\
  plic_addr dev <> 0 /\ plic_ok dev /\
  (exists q, find_prop (chars "riscv,ndev") (d_props t) = Some q /\ length (p_val q) = 4%nat /\ fdt32_ld (p_val q) = Some (num_src dev)) /\
  (exists q, find_prop (chars "interrupts-extended") (d_props t) = Some q /\ p_val q = v /\ v <> [] /\ (length v mod 8 = 0)%nat).

Lemma plic_node_parse t dev v old : node_of root t -> plic_node t dev v ->
  fdt_parse_plic_node fdt (d_off t) old = Some (inr (plic_addr dev, num_src dev)).
Proof.
  intros Ht ((d & p & size & Hd & Hk & Hc & Hr & Hs) & Ha & _ & (q & Eq & Hq & El) & _). unfold fdt_parse_plic_node.
  rewrite (node_addr_eq fdt root Hh d p t _ size H0 Hd Hk Hc Hr Ha Hs). cbn [mbind option_bind]. unfold number_prop.
  rewrite (fdt_getprop_lit _ _ Hh "riscv,ndev") by done. cbn [mbind option_bind]. rewrite Eq, Hq. cbn [Z.of_nat Z.ltb Z.compare Pos.of_succ_nat].
  destruct (holds_prop _ _ Hh t q Ht) as (_ & Hst & _); [by eapply find_prop_in|]. rewrite (fdt32_ld_starts _ _ Hq Hst), El. done.
Qed.

Lemma plic_update_eq t dev v pd s : node_of root t -> plic_node t dev v ->
  exists s', irqchip_plic_update_hartid_table fdt (d_off t) pd s = Ret 0 s' /\ plic_tables s s' pd 0 (irq_pairs v).
Proof.
  intros Ht (_ & _ & _ & _ & (q & Eq & <- & Hne & Hm)). unfold irqchip_plic_update_hartid_table.
  rewrite (fdt_getprop_lit _ _ Hh "interrupts-extended") by done. rewrite Eq. cbn [lift]. mstep.
  destruct (holds_prop _ _ Hh t q Ht) as (_ & Hs & Hvp); [by eapply find_prop_in|].
  pose proof (fdt_length _ _ Hh) as Hfl. pose proof (starts_length _ _ Hs) as Hsl. rewrite length_from in Hsl by done.
  apply Nat.Div0.div_exact in Hm. set (n := (length (p_val q) / 8)%nat) in *.
  assert (Hn : n <> 0%nat) by (intros Hn; rewrite Hn in Hm; destruct (p_val q); [done|simpl in Hm; lia]).
  unfold u64. rewrite wrap_small by (unfold fits; lia). rewrite (proj2 (Z.ltb_ge (Z.of_nat (length (p_val q))) 4)) by lia. cbv zeta.
  replace (Z.of_nat (length (p_val q)) / 4) with (2 * (0 + Z.of_nat n)) by (Z.to_euclidean_division_equations; lia).
  rewrite s32_small by lia. apply (plic_table_loop_eq n _ (p_val q) (val_pos fdt q) 0); (done || lia).
Qed.

(** The tables when no hart has a controller yet. *)
Lemma plic_clear_all s : exists s1, for_each (seqZ 0 SBI_HARTMASK_MAX_BITS) plic_clear_hart s = Ret tt s1 /\ same_but_glob s s1 /\
  (forall h, 0 <= h < SBI_HARTMASK_MAX_BITS -> gval s1 (elem plic_data_table h) = 0 /\
    gval s1 (elem plic_m_table h) = -1 /\ gval s1 (elem plic_s_table h) = -1) /\
  (forall x, (forall h, x <> elem plic_data_table h /\ x <> elem plic_m_table h /\ x <> elem plic_s_table h) -> gval s1 x = gval s x).
Proof.
  set (g := fun s i => set_glob <[elem plic_s_table i := -1]> (set_glob <[elem plic_m_table i := -1]> (set_glob <[elem plic_data_table i := 0]> s))).
  exists (foldl g s (seqZ 0 SBI_HARTMASK_MAX_BITS)). split.
  { apply for_each_fold. intros i s' Hi%elem_of_seqZ. unfold plic_clear_hart.
    rewrite (bind_ret_eq _ _ _ _ _ (tbl_set_eq _ i _ s' ltac:(lia))), (bind_ret_eq _ _ _ _ _ (tbl_set_eq _ i _ _ ltac:(lia))). by rewrite tbl_set_eq by lia. }
  assert (Hgen : forall l, same_but_glob s (foldl g s l) /\
    (forall h, h ∈ l -> gval (foldl g s l) (elem plic_data_table h) = 0 /\ gval (foldl g s l) (elem plic_m_table h) = -1 /\
      gval (foldl g s l) (elem plic_s_table h) = -1) /\
    (forall x, (forall h, x <> elem plic_data_table h /\ x <> elem plic_m_table h /\ x <> elem plic_s_table h) -> gval (foldl g s l) x = gval s x)).
  { induction l as [|i l (Hs & Hin & Hout)] using rev_ind.
    { split; [done|]. split; [by intros ? ?%not_elem_of_nil|done]. }
    rewrite foldl_app. cbn [foldl]. unfold g at 1 3 5 7 9. split; [done|]. split.
    - intros h Hh'. destruct (decide (i = h)) as [->|Hne].
      + split; [|split]; rewrite ?gval_set_ne by discriminate; by rewrite gval_set.
      + assert (Hd : forall x, elem x i <> elem x h) by (by intros x ?%elem_inj). rewrite !gval_set_ne by (apply Hd || discriminate).
        apply Hin. by apply elem_of_app in Hh' as [|?%list_elem_of_singleton].
    - intros x Hx. destruct (Hx i) as (Hx1 & Hx2 & Hx3). rewrite !gval_set_ne by done. by apply Hout. }
  destruct (Hgen (seqZ 0 SBI_HARTMASK_MAX_BITS)) as (Hs & Hin & Hout). split; [done|]. split; [|done].
  intros h Hr. apply Hin, elem_of_seqZ. lia.
Qed.

Definition matches (table : list string) (t : dt) : bool := existsb (fun c => compat (chars c) t) table.

Lemma first_match_none table l : Forall (fun t => matches table t = false) l -> first_match table l = None.
Proof.
  intros Hl. induction table as [|c table IH]; [done|]. cbn [first_match]. destruct (List.find _ l) as [t|] eqn:Ef.
  - apply find_some in Ef as [Hin Hc]. rewrite Forall_forall in Hl. specialize (Hl t). cbn [matches existsb] in Hl. rewrite Hc in Hl.
    discriminate Hl. by apply list_elem_of_In.
  - apply IH. eapply Forall_impl; [exact Hl|]. cbn. intros t [_ ?]%orb_false_iff. done.
Qed.

Lemma first_match_only table t l1 l2 : matches table t = true -> Forall (fun t => matches table t = false) (l1 ++ l2) ->
  exists c, first_match table (l1 ++ t :: l2) = Some (t, c).
Proof.
  intros Ht Hl. induction table as [|c table IH]; [done|]. cbn [first_match].
  assert (Hno : forall x, x ∈ l1 ++ l2 -> compat (chars c) x = false /\ matches table x = false).
  { intros x Hx. rewrite Forall_forall in Hl. specialize (Hl x Hx). cbn [matches existsb] in Hl. by apply orb_false_iff in Hl. }
  destruct (List.find _ (l1 ++ t :: l2)) as [x|] eqn:Ef.
  - apply find_some in Ef as [Hin Hc]. apply list_elem_of_In in Hin. exists c.
    rewrite elem_of_app, elem_of_cons in Hin. destruct Hin as [Hin|[->|Hin]]; [|done|];
      (destruct (Hno x) as [E _]; [|by rewrite Hc in E]); apply elem_of_app; tauto.
  - pose proof (find_none _ _ Ef t ltac:(apply in_or_app; right; by left)) as Hc. cbn [matches existsb] in Ht. rewrite Hc in Ht.
    apply IH; [done|]. apply Forall_forall. intros x Hx. by apply Hno.
Qed.

(** A driver whose table matches one node is set up for that node. *)
Lemma probe_only table t cold_init select s s1 s2 : Forall match_name table ->
  List.filter (matches table) (nodes root) = [t] ->
  cold_init (d_off t) s = Ret 0 s1 -> select s1 = Ret tt s2 -> probe_all fdt table cold_init select s = Ret 0 s2.
Proof.
  intros Htbl Hf E1 E2. pose proof nodes_length as Hlen. unfold probe_all.
  assert (Hsplit : exists l1 l2, nodes root = l1 ++ t :: l2 /\ matches table t = true /\ Forall (fun t => matches table t = false) (l1 ++ l2) /\
    Forall (fun t => matches table t = false) l2).
  { clear -Hf. induction (nodes root) as [|x l IH]; [done|]. cbn [List.filter] in Hf. destruct (matches table x) eqn:Ex.
    - injection Hf as -> Hf. assert (Hl : Forall (fun t => matches table t = false) l).
      { apply Forall_forall. intros y Hy. destruct (matches table y) eqn:Ey; [|done]. exfalso. apply (in_nil (a := y)). rewrite <- Hf.
        apply filter_In. split; [by apply list_elem_of_In|done]. }
      by exists [], l.
    - destruct (IH Hf) as (l1 & l2 & -> & Ht & Hl & Hl2). exists (x :: l1), l2. cbn [app]. repeat split; try done. by constructor. }
  destruct Hsplit as (l1 & l2 & En & Ht & Hl & Hl2). assert (Hs0 : search_from root (-1) (nodes root)) by (by left).
  assert (Hs1 : search_from root (d_off t) l2) by (right; by exists l1, t).
  destruct (first_match_only table t l1 l2 Ht Hl) as [c Ec]. destruct (node_offset _ _ Hh t) as [Ho _].
  { apply nodes_node. rewrite En. apply elem_of_app. right. left. }
  assert (length (nodes root) <> 0)%nat by (rewrite En, length_app; simpl; lia).
  destruct (length fdt) as [|n]; [lia|]. cbn [probe_nodes].
  rewrite (fdt_find_match_eq _ _ _ Hs0 Htbl), En, Ec. cbn [lift]. mstep. cbv beta iota. rewrite (proj2 (Z.ltb_ge (d_off t) 0)) by lia.
  rewrite (bind_ret_eq _ _ _ _ _ E1). cbn [nz Z.eqb negb]. rewrite (bind_ret_eq _ _ _ _ _ E2).
  rewrite (fdt_find_match_eq _ _ _ Hs1 Htbl), (first_match_none _ _ Hl2). cbn [lift]. by mstep.
Qed.

(** The first controller is set up. *)
Lemma irqchip_cold_eq t dev v s : node_of root t -> plic_node t dev v -> gval s "plic_count" = 0 ->
  exists s', irqchip_plic_cold_init fdt (d_off t) s = Ret 0 s' /\
    gval s' (elem "plic.addr" 0) = plic_addr dev /\ gval s' (elem "plic.num_src" 0) = num_src dev /\
    forall h, 0 <= h < SBI_HARTMASK_MAX_BITS ->
      gval s' (elem plic_data_table h) = (if connected (irq_pairs v) h then 1 else 0) /\
      gval s' (elem plic_m_table h) = ctx_of IRQ_M_EXT h 0 (irq_pairs v) (-1) /\
      gval s' (elem plic_s_table h) = ctx_of IRQ_S_EXT h 0 (irq_pairs v) (-1).
Proof.
  intros Ht Hn Hc. set (s1 := set_glob <[elem "plic.num_src" 0 := num_src dev]> (set_glob <[elem "plic.addr" 0 := plic_addr dev]>
    (set_glob <["plic_count" := 0 + 1]> s))).
  destruct (plic_priorities_eq dev s1) as (s2 & E2 & Eg2); [by destruct Hn as (_ & _ & ? & _)|].
  destruct (plic_clear_all s2) as (s3 & E3 & _ & Hin & Hout). destruct (plic_update_eq t dev v 1 s3 Ht Hn) as (s4 & E4 & [_ Hd Hm Hs Ho]).
  assert (Hx : forall x, x = elem "plic.addr" 0 \/ x = elem "plic.num_src" 0 -> forall h,
    x <> elem plic_data_table h /\ x <> elem plic_m_table h /\ x <> elem plic_s_table h) by (intros x [->| ->] h; repeat split; discriminate).
  assert (Hg : forall x, x = elem "plic.addr" 0 \/ x = elem "plic.num_src" 0 -> gval s4 x = gval s1 x).
  { intros x Hx'. rewrite (Ho x (Hx x Hx')), (Hout x (Hx x Hx')). unfold gval. by rewrite Eg2. }
  exists s4. split; [|split; [|split]].
  - unfold irqchip_plic_cold_init. mstep. rewrite Hc. change (PLIC_MAX_NR <=? 0) with false. cbv iota. do 2 mstep.
    rewrite (plic_node_parse t dev v _ Ht Hn). cbn [lift]. mstep. cbv iota. do 2 mstep. fold s1.
    replace (mkPlic (plic_addr dev) (num_src dev)) with dev by (by destruct dev). rewrite (bind_ret_eq _ _ _ _ _ E2).
    change (nz 0) with false. change (0 + 1 =? 1) with true. cbv iota. unfold when. by rewrite (bind_ret_eq _ _ _ _ _ E3).
  - rewrite Hg by (by left). unfold s1. rewrite gval_set_ne by discriminate. apply gval_set.
  - rewrite Hg by (by right). apply gval_set.
  - intros h Hr. destruct (Hin h Hr) as (Hi1 & Hi2 & Hi3). by rewrite Hd, Hm, Hs, Hi1, Hi2, Hi3.
Qed.
End Tree.

Lemma clint_ipi_write_quiet v h s : exists s', clint_ipi_write v h s = Ret tt s' /\ mem s' = mem s /\ glob s' = glob s.
Proof. rewrite clint_ipi_write_eq. cbv zeta. by destruct (_ || _); eexists. Qed.

(** A blob the firmware can use: it holds a tree whose root is at offset 0,
    with lists of strings for "compatible" and well-formed cpu nodes. *)
Record usable (fdt : list Z) (root : dt) : Prop := {
  use_holds : holds fdt root;
  use_root : d_off root = 0;
  use_compat : compat_lists root;
  use_cpus t : node_of root t -> cpu_props_ok t
}.

(** Checking the conditions on the nodes one by one. *)
Definition node_ok (t : dt) : Prop :=
  (forall p, find_prop (chars "compatible") (d_props t) = Some p -> last (p_val p) = Some 0 \/ p_val p = []) /\ cpu_props_ok t.

#[global] Instance node_ok_dec t : Decision (node_ok t).
Proof. unfold node_ok, cpu_props_ok. apply _. Defined.

Lemma usable_nodes fdt root : holds fdt root -> d_off root = 0 -> Forall node_ok (nodes root) -> usable fdt root.
Proof.
  intros Hh H0 Hn. rewrite Forall_forall in Hn. split; [done|done| |].
  - intros t p Ht%node_nodes. apply Hn, Ht.
  - intros t Ht%node_nodes. apply Hn, Ht.
Qed.

Definition demo_fdt : list Z := encode demo_names demo.
Definition demo_root : dt := place 0 demo.
Lemma demo_usable : usable demo_fdt demo_root.
Proof.
  destruct demo_writable as (Ht & Hs & Hl). destruct (encode_holds demo_names demo Ht Hs Hl) as [Hh H0].
  apply usable_nodes; [done|done|]. apply (bool_decide_unpack _). by vm_compute.
Qed.

(** C18: From the device tree to the registers: when the firmware has initialised
    its interrupts from a tree whose CLINT nodes are the devices [cs], sending
    an interrupt to a hart writes 1 to that hart's word of the last device
    whose range of harts, from the first to the last it is connected to,
    includes it, and clearing it writes 0 there; without such a device nothing
    is written. *)
Theorem fdt_ipi_init_routes fdt root arr cs s : usable fdt root -> 0 < arr ->
  Forall2 (clint_node root false) (List.filter (compat (chars "riscv,clint0")) (nodes root)) cs ->
  Z.of_nat (length cs) <= CLINT_MAX_NR ->
  gval s "clint_ipi_count" = 0 -> gval s ipi_driver = 0 ->
  (forall h, 0 <= h < SBI_HARTMASK_MAX_BITS -> gval s (elem ipi_table h) = 0) ->
  exists s', fdt_ipi_init fdt arr true s = Ret 0 s' /\
    forall h s'', 0 <= h < SBI_HARTMASK_MAX_BITS -> mem s'' = mem s' -> glob s'' = glob s' ->
      fdt_ipi_send h s'' = Ret tt (match ipi_word cs h with Some a => add_event (EvWrite 4 a 1) s'' | None => s'' end) /\
      fdt_ipi_clear h s'' = Ret tt (match ipi_word cs h with Some a => add_event (EvWrite 4 a 0) s'' | None => s'' end).
Proof.
  intros [Hh H0 Hcl Hcpu] Harr H2 Hlen Hcount Hdrv Htbl. pose proof (Forall2_length _ _ _ H2) as El.
  destruct (ipi_init_list fdt root Hh H0 Hcpu arr Harr _ _ s 0 (fun _ => None) H2) as (s1 & E1 & Hi & Ed); [by split|done|lia|].
  assert (Ew : exists s2, fdt_ipi_warm_init s1 = Ret 0 s2 /\ mem s2 = mem s1 /\ glob s2 = glob s1).
  { unfold fdt_ipi_warm_init. mstep. destruct (_ =? 0); [by exists s1|]. unfold clint_warm_ipi_init, current_hartid. repeat mstep.
    destruct (clint_ipi_write_quiet 0 (u32 (csr_val s1 (cur s1) CSR_MHARTID)) s1) as (s2 & E2 & Hq). exists s2.
    split; [|exact Hq]. unfold clint_ipi_clear. by rewrite (bind_ret_eq _ _ _ _ _ E2). }
  destruct Ew as (s2 & E2 & Em2 & Eg2). exists s2. split.
  { unfold fdt_ipi_init, fdt_ipi_cold_init, probe_all, ipi_clint_match.
    rewrite (bind_ret_eq _ _ s 0 s1); [done|]. rewrite (probe_nodes_eq fdt root Hh Hcl "riscv,clint0") with (rest := nodes root); [exact E1|done|done|done|by left|].
    pose proof (nodes_length fdt root Hh). lia. }
  intros h s'' Hr Em Eg.
  assert (Hw : forall v, (drv ← getg ipi_driver; if drv =? 0 then mret tt else clint_ipi_write v h) s'' =
    Ret tt (match ipi_word cs h with Some a => add_event (EvWrite 4 a (wrap 32 v)) s'' | None => s'' end)).
  { intros v. mstep. unfold gval at 1. rewrite Eg, Eg2. fold (gval s1 ipi_driver). rewrite Ed.
    assert (Hi' : ipi_inv arr s'' (0 + Z.of_nat (length (List.filter (compat (chars "riscv,clint0")) (nodes root)))) (ipi_word cs)).
    { destruct Hi as [Hic Hiw]. split; unfold gval, mem_val; rewrite ?Em, ?Eg, ?Em2, ?Eg2; done. }
    destruct (List.filter _ _) as [|t l] eqn:Efl.
    - rewrite Hdrv. destruct cs; [done|]. by apply Forall2_nil_inv_l in H2.
    - by apply (ipi_write_word arr Harr _ _ _ _ _ Hi'). }
  split; apply Hw.
Qed.

(** From the device tree to the contexts: when the tree has one PLIC, each
    hart that comes up afterwards disables the sources and masks the
    priorities of its own contexts in that device, the ones whose positions in
    "interrupts-extended" refer to the hart's interrupt controller; a hart
    without a connection gets an error. *)
Theorem fdt_irqchip_init_contexts fdt root t dev v s : usable fdt root ->
  List.filter (matches irqchip_plic_match) (nodes root) = [t] -> plic_node root t dev v -> gval s "plic_count" = 0 ->
  exists s', fdt_irqchip_cold_init fdt s = Ret 0 s' /\
    forall h s'', 0 <= h < SBI_HARTMASK_MAX_BITS -> csr_val s'' (cur s'') CSR_MHARTID = h -> glob s'' = glob s' ->
      fdt_irqchip_warm_init s'' =
        plic_warm_irqchip_init (if connected root (irq_pairs v) h then Some dev else None)
          (ctx_of root IRQ_M_EXT h 0 (irq_pairs v) (-1)) (ctx_of root IRQ_S_EXT h 0 (irq_pairs v) (-1)) s''.
Proof.
  intros [Hh H0 Hcl Hcpu] Hf Hn Hc.
  assert (Ht : node_of root t). { apply nodes_node, list_elem_of_In. assert (Hin : In t [t]) by (by left). rewrite <- Hf in Hin. by apply filter_In in Hin as [? _]. }
  destruct (irqchip_cold_eq fdt root Hh H0 Hcpu t dev v s Ht Hn Hc) as (s1 & E1 & Ea & En & Htbl).
  exists (set_glob <[irqchip_driver := 1]> s1). split.
  - apply (probe_only fdt root Hh Hcl _ t _ _ s s1); [|done|done|done]. by repeat constructor.
  - intros h s'' Hr Eh Eg. destruct (Htbl h Hr) as (Hd & Hm & Hs).
    assert (Hg : forall x, irqchip_driver <> x -> gval s'' x = gval s1 x) by (intros x Hx; unfold gval; rewrite Eg; by apply gval_set_ne).
    unfold fdt_irqchip_warm_init. mstep. replace (gval s'' irqchip_driver) with 1 by (unfold gval; rewrite Eg; symmetry; apply gval_set).
    change (1 =? 0) with false. cbv iota. unfold irqchip_plic_warm_init, current_hartid. repeat mstep. rewrite Eh.
    unfold SBI_HARTMASK_MAX_BITS in Hr. unfold u32. rewrite wrap_small by (unfold fits; lia).
    rewrite !(bind_ret_eq _ _ _ _ _ (tbl_get_eq _ h s'' Hr)), !Hg by discriminate. rewrite Hd, Hm, Hs. unfold plic_at.
    destruct (connected root (irq_pairs v) h); [|done]. change (1 =? 0) with false. cbv iota. change (1 - 1) with 0. repeat mstep.
    rewrite !Hg by discriminate. rewrite Ea, En. by destruct dev.
Qed.

(** The CLINT of the small machine. *)
Definition demo_node (path : list string) : dt := default demo_root (lookup_path demo_root (map chars path)).
Lemma demo_clint : Forall2 (clint_node demo_root false) (List.filter (compat (chars "riscv,clint0")) (nodes demo_root)) [(0x2000000, 0, 2)].
Proof.
  assert (E : List.filter (compat (chars "riscv,clint0")) (nodes demo_root) = [demo_node ["soc"; "clint"]%string]) by (by vm_compute).
  rewrite E. constructor; [|constructor]. split; [|by vm_compute].
  exists 1, (demo_node ["soc"]%string). split; [|split; [|split]].
  - apply (depth_kid _ 0 demo_root); [constructor|]. apply (list_elem_of_lookup_2 _ 2). by vm_compute.
  - apply (list_elem_of_lookup_2 _ 0). by vm_compute.
  - split; [by vm_compute|]. split; [by vm_compute|]. intros name p [->| ->] Hp; vm_compute in Hp; injection Hp as <-; done.
  - by vm_compute.
Qed.

Lemma fdt_ipi_init_routes_witness :
  exists s', fdt_ipi_init demo_fdt 4096 true st0 = Ret 0 s' /\
    fdt_ipi_send 1 s' = Ret tt (add_event (EvWrite 4 0x2000004 1) s').
Proof.
  destruct (fdt_ipi_init_routes demo_fdt demo_root 4096 [(0x2000000, 0, 2)] st0 demo_usable) as (s' & E & Hs).
  - reflexivity.
  - exact demo_clint.
  - discriminate.
  - reflexivity.
  - reflexivity.
  - reflexivity.
  - exists s'. split; [exact E|]. apply (Hs 1 s'); [split; [discriminate|reflexivity]|reflexivity..].
Defined.

(** The PLIC of the small machine. *)
Definition demo_plic : plic_data := mkPlic 0xc000000 10.
Definition demo_irqs : list Z := cells [1; 11; 1; 9; 2; 11; 2; 9].
Lemma demo_plic_node : plic_node demo_root (demo_node ["soc"; "plic"]%string) demo_plic demo_irqs.
Proof.
  split; [|split; [done|split; [done|split]]].
  - exists 1, (demo_node ["soc"]%string), 0x400000. split; [|split; [|split; [|split; [by vm_compute|done]]]].
    + apply (depth_kid _ 0 demo_root); [constructor|]. apply (list_elem_of_lookup_2 _ 2). by vm_compute.
    + apply (list_elem_of_lookup_2 _ 1). by vm_compute.
    + split; [by vm_compute|]. split; [by vm_compute|]. intros name p [->| ->] Hp; vm_compute in Hp; injection Hp as <-; done.
  - eexists. split; [vm_compute; reflexivity|]. by split.
  - eexists. split; [vm_compute; reflexivity|]. by repeat split.
Qed.

Lemma fdt_irqchip_init_contexts_witness :
  exists s', fdt_irqchip_cold_init demo_fdt st0 = Ret 0 s' /\
    forall s'', csr_val s'' (cur s'') CSR_MHARTID = 1 -> glob s'' = glob s' ->
      fdt_irqchip_warm_init s'' = plic_warm_irqchip_init (Some demo_plic) 2 3 s''.
Proof.
  destruct (fdt_irqchip_init_contexts demo_fdt demo_root (demo_node ["soc"; "plic"]%string) demo_plic demo_irqs st0 demo_usable) as (s' & E & Hs).
  - vm_compute. reflexivity.
  - exact demo_plic_node.
  - reflexivity.
  - exists s'. split; [exact E|]. intros s'' Hh Hg. rewrite (Hs 1 s''); [|split; [discriminate|reflexivity]|exact Hh|exact Hg].
    f_equal; vm_compute; reflexivity.
Defined.
