(* ===== verification/Generic.v ===== *)
(** The generic platform, which finds out what it runs on from the device tree:
    platform/generic/platform.c and platform/generic/sifive_fu540.c.

    [fw_platform_init] runs on the boot hart before anything else and updates
    the structure [platform], which is a value here; the variable
    [generic_plat] is 0 for NULL and 1 for [sifive_fu540].  The operations of
    the platform are the drivers of FdtDrivers, and [generic_final_init] makes
    the changes of FdtFixup to the device tree. *)

From S2P Require Import Prelude Encoding Bitops Cstring Machine Format Platform Serial Clint Htif Fdt FdtTag FdtTree FdtImage FdtEncode FdtHelper FdtDrivers FdtRw FdtEdit FdtFixup.

Definition SBI_PLATFORM_DEFAULT_FEATURES : Z :=
  SBI_PLATFORM_HAS_TIMER_VALUE .| SBI_PLATFORM_HAS_MFAULTS_DELEGATION.
Definition SBI_PLATFORM_DEFAULT_HART_STACK_SIZE : Z := 8192.
Definition NAME_SIZE : nat := 64.

(** [char name[64] = "Generic"]: zeros up to the end. *)
Definition generic_name : list Z := chars "Generic" ++ replicate (NAME_SIZE - 7) 0.
Definition generic_platform (ops : sbi_platform_operations) : sbi_platform :=
  mkPlat (Z.shiftl 0 16 .| 8) (Z.shiftl 0 16 .| 1) generic_name SBI_PLATFORM_DEFAULT_FEATURES SBI_HARTMASK_MAX_BITS
    SBI_PLATFORM_DEFAULT_HART_STACK_SIZE ops (Some (replicate (Z.to_nat SBI_HARTMASK_MAX_BITS) 0)).

Section Generic.
Context `{Hardware}.
Context (fdt : list Z).

Definition sifive_fu540_match : list string :=
  ["sifive,fu540"; "sifive,fu540g"; "sifive,fu540-c000"; "sifive,hifive-unleashed-a00"]%string.
Definition sifive_fu540_tlbr_flush_limit : Z := 0.

Definition generic_plat : string := "generic_plat".

Definition fw_platform_lookup_special : M unit :=
  '(noff, _) ← lift (fdt_find_match fdt (-1) sifive_fu540_match);
  if noff <? 0 then mret tt else setg generic_plat 1.

(** The loop over the cpu nodes: [generic_hart_index2id] and [hart_count]. *)
Fixpoint cpus_loop (cpus : list Z) (tbl : list Z) (hart_count : Z) : option (list Z * Z) :=
  match cpus with
  | [] => Some (tbl, hart_count)
  | cpu_offset :: cpus =>
      '(rc, hartid) ← fdt_parse_hart_id fdt cpu_offset;
      if nz rc || (SBI_HARTMASK_MAX_BITS <=? hartid) then cpus_loop cpus tbl hart_count
      else
        '(mmu_type, len) ← fdt_getprop fdt cpu_offset (cstring "mmu-type");
        let hartid := match mmu_type with Some _ => if len =? 0 then 2 ^ 32 - 1 else hartid | None => 2 ^ 32 - 1 end in
        if hart_count <? SBI_HARTMASK_MAX_BITS then
          cpus_loop cpus (<[Z.to_nat hart_count := hartid]> tbl) (hart_count + 1)
        else None
  end.

Definition fw_platform_init (platform : sbi_platform) : M sbi_platform :=
  root_offset ← lift (fdt_path_offset 0 fdt (cstring "/"));
  if root_offset <? 0 then exits XHang
  else
    fw_platform_lookup_special;;
    '(model, _) ← lift (fdt_getprop fdt root_offset (cstring "model"));
    name ← (match model with
            | Some model => lift (sbi_strncpy (plat_name platform) (from fdt model) NAME_SIZE)
            | None => mret (plat_name platform)
            end);
    cpus_offset ← lift (fdt_path_offset 0 fdt (cstring "/cpus"));
    if cpus_offset <? 0 then exits XHang
    else
      cpus ← lift (fdt_for_each_subnode fdt cpus_offset);
      '(tbl, hart_count) ← lift (cpus_loop cpus (replicate (Z.to_nat SBI_HARTMASK_MAX_BITS) 0) 0);
      mret (mkPlat (opensbi_version platform) (platform_version platform) name (features platform) hart_count
              (hart_stack_size platform) (platform_ops platform) (Some tbl)).

(** No special platform has an operation for these beyond the flush limit and
    the fix-up of the device tree. *)
Definition generic_early_init (cold_boot : bool) : M Z := if cold_boot then fdt_reset_init fdt else mret 0.
Definition sifive_fu540_fdt_fixup : RW Z := fdt_reserved_memory_nomap_fixup;; mret 0.
(** [name0] and [reg0] are what the stack holds, as in [fdt_fixups]. *)
Definition generic_final_init `{Platform} (name0 reg0 : list Z) (cold_boot : bool) : FM Z :=
  if negb cold_boot then mret 0
  else
    fdt_cpu_fixup;;
    fdt_fixups name0 reg0;;
    plat ← onm (getg generic_plat);
    if plat =? 0 then mret 0
    else rc ← ed sifive_fu540_fdt_fixup; mret rc.
Definition generic_early_exit : M unit := mret tt.
Definition generic_final_exit : M unit := mret tt.
Definition generic_tlbr_flush_limit : M Z :=
  plat ← getg generic_plat;
  mret (if plat =? 0 then SBI_PLATFORM_TLB_RANGE_FLUSH_LIMIT_DEFAULT else sifive_fu540_tlbr_flush_limit).
Definition generic_system_reset (reset_type : Z) : M Z := fdt_system_reset reset_type.
End Generic.

(** * Properties *)

(** The entry of a cpu node in the table of harts: the hart, or a number no
    hart has when its node names no memory management unit. *)
Definition cpu_entry (t : dt) : option Z :=
  h ← hart_of t;
  if SBI_HARTMASK_MAX_BITS <=? h then None
  else Some (match find_prop (chars "mmu-type") (d_props t) with Some p => if bool_decide (p_val p = []) then 2 ^ 32 - 1 else h | None => 2 ^ 32 - 1 end).

Lemma insert_table (l1 l2 : list Z) x y : <[length l1 := x]> (l1 ++ y :: l2) = (l1 ++ [x]) ++ l2.
Proof. rewrite insert_app_r_alt, Nat.sub_diag, <- app_assoc by lia. done. Qed.

Lemma cpus_loop_step fdt root (Hu : usable fdt root) k cpus tbl n : node_of root k ->
  cpus_loop fdt (d_off k :: cpus) tbl n =
  match cpu_entry k with
  | Some e => if n <? SBI_HARTMASK_MAX_BITS then cpus_loop fdt cpus (<[Z.to_nat n := e]> tbl) (n + 1) else None
  | None => cpus_loop fdt cpus tbl n
  end.
Proof.
  intros Hk. destruct Hu as [Hh H0 Hcl Hcpu]. cbn [cpus_loop]. rewrite (fdt_parse_hart_id_eq _ _ Hh k Hk (Hcpu k Hk)). cbn [mbind option_bind].
  unfold cpu_entry. destruct (hart_of k) as [h|]; [|done]. cbn [mbind option_bind]. change (nz 0) with false. cbn [orb].
  destruct (SBI_HARTMASK_MAX_BITS <=? h); [done|]. rewrite (fdt_getprop_lit _ _ Hh "mmu-type") by done. cbn [mbind option_bind].
  destruct (find_prop (chars "mmu-type") _) as [p|]; [|done]. cbv beta iota. case_bool_decide as Ee; [by rewrite Ee|].
  rewrite (proj2 (Z.eqb_neq (Z.of_nat (length (p_val p))) 0)); [done|]. destruct (p_val p); [done|]. simpl. lia.
Qed.

Lemma cpus_loop_eq fdt root (Hu : usable fdt root) kids : forall dn,
  (forall k, k ∈ kids -> node_of root k) -> (length dn + length (omap cpu_entry kids) <= 128)%nat ->
  cpus_loop fdt (map d_off kids) (dn ++ replicate (128 - length dn) 0) (Z.of_nat (length dn)) =
  Some ((dn ++ omap cpu_entry kids) ++ replicate (128 - length (dn ++ omap cpu_entry kids)) 0,
        Z.of_nat (length (dn ++ omap cpu_entry kids))).
Proof.
  induction kids as [|k kids IH]; intros dn Hin Hlen; [cbn; by rewrite !app_nil_r|].
  assert (Hin' : forall k', k' ∈ kids -> node_of root k') by (intros; apply Hin; by right).
  cbn [map]. rewrite (cpus_loop_step fdt root Hu) by (apply Hin; left). cbn [omap list_omap] in *.
  destruct (cpu_entry k) as [e|]; [|by apply IH]. cbn [length] in Hlen.
  rewrite (proj2 (Z.ltb_lt (Z.of_nat (length dn)) SBI_HARTMASK_MAX_BITS)) by (unfold SBI_HARTMASK_MAX_BITS; lia).
  rewrite Nat2Z.id. destruct (128 - length dn)%nat as [|r] eqn:Er; [lia|]. cbn [replicate]. rewrite insert_table.
  replace (Z.of_nat (length dn) + 1) with (Z.of_nat (length (dn ++ [e]))) by (rewrite length_app; simpl; lia).
  replace r with (128 - length (dn ++ [e]))%nat by (rewrite length_app; simpl; lia).
  rewrite IH; [by rewrite <- (app_assoc dn [e])|done|rewrite length_app; simpl; lia].
Qed.

(** [sbi_strncpy] copies the string up to [count] bytes, and nothing more: the
    rest of the buffer keeps its bytes. *)
Lemma sbi_strncpy_eq count : forall dest s l, (count <= length dest)%nat -> cstr s l ->
  sbi_strncpy dest l count = Some (take count s ++ drop (Nat.min count (length s)) dest).
Proof.
  induction count as [|count IH]; intros dest s l Hd [Hs [r ->]]; [done|]. destruct s as [|c s]; [done|].
  apply Forall_cons in Hs as [[_ Hc] Hs]. cbn [app sbi_strncpy]. rewrite (proj2 (nz_true c)) by done.
  destruct dest as [|d dest]; [simpl in Hd; lia|]. rewrite (IH dest s) by (simpl in Hd; lia || by split; [|exists r]). done.
Qed.

(** The name of the platform: the model, then what was there before. *)
Definition model_name (root : dt) (name : list Z) : list Z :=
  match find_prop (chars "model") (d_props root) with
  | Some q => let m := first_string (p_val q) in take NAME_SIZE m ++ drop (Nat.min NAME_SIZE (length m)) name
  | None => name
  end.

Lemma model_read fdt root q : holds fdt root -> find_prop (chars "model") (d_props root) = Some q -> last (p_val q) = Some 0 ->
  cstr (first_string (p_val q)) (from fdt (val_pos fdt q)).
Proof.
  intros Hh Eq Hl. pose proof (prop_bytes fdt root Hh root q (node_self _) (proj1 (find_prop_in _ _ _ Eq))) as Hb.
  destruct (holds_prop _ _ Hh root q (node_self _)) as (_ & [r Hr] & _); [by eapply find_prop_in|].
  destruct (split0_cons _ Hl) as [r0 Hv]. split.
  - apply Forall_forall. intros c Hc. split; [rewrite Forall_forall in Hb; apply Hb; rewrite Hv; apply elem_of_app; by left|].
    pose proof (split0_nonzero (p_val q)) as Hz. unfold first_string in Hc. destruct (split0 (p_val q)) as [|s l]; [by apply elem_of_nil in Hc|].
    apply Forall_cons in Hz as [Hz _]. rewrite Forall_forall in Hz. by apply Hz.
  - exists (r0 ++ r). rewrite Hr, Hv at 1. by rewrite <- app_assoc.
Qed.

Lemma model_copied fdt root p s : holds fdt root -> d_off root = 0 ->
  (forall q, find_prop (chars "model") (d_props root) = Some q -> last (p_val q) = Some 0) -> length (plat_name p) = NAME_SIZE ->
  exists m l, fdt_getprop fdt 0 (cstring "model") = Some (m, l) /\
    (match m with
     | Some model => lift (sbi_strncpy (plat_name p) (from fdt model) NAME_SIZE)
     | None => mret (plat_name p)
     end) s = Ret (model_name root (plat_name p)) s.
Proof.
  intros Hh H0 Hm Hn. rewrite <- H0, (fdt_getprop_lit _ _ Hh "model") by (done || constructor). unfold model_name.
  destruct (find_prop (chars "model") _) as [q|] eqn:Eq; eexists _, _; (split; [reflexivity|]); [|done].
  cbv beta iota. by rewrite (sbi_strncpy_eq NAME_SIZE (plat_name p) _ _ ltac:(lia) (model_read fdt root q Hh Eq (Hm q eq_refl))).
Qed.

Lemma lookup_special_eq fdt root s : usable fdt root -> exists s', fw_platform_lookup_special fdt s = Ret tt s'.
Proof.
  intros [Hh H0 Hcl Hcpu]. unfold fw_platform_lookup_special.
  rewrite (fdt_find_match_eq fdt root Hh Hcl (-1) (nodes root)) by (by left || by repeat constructor). cbn [lift]. mstep.
  destruct (first_match _ _) as [[t c]|]; cbv iota; [destruct (d_off t <? 0)|]; by eexists.
Qed.

(** C19: The platform found in a device tree: as many harts as "/cpus" has usable
    cpu nodes, in their order, each under its own number, so that a hart is
    valid for the firmware exactly when a cpu node with a memory management
    unit has its number; the name is the model written over the start of the
    old name; the rest is unchanged. *)
Theorem fw_platform_init_harts fdt root cpus p s : usable fdt root ->
  lookup_path root [chars "cpus"] = Some cpus ->
  let harts := omap cpu_entry (d_kids cpus) in
  (length harts <= 128)%nat ->
  (forall q, find_prop (chars "model") (d_props root) = Some q -> last (p_val q) = Some 0) -> length (plat_name p) = NAME_SIZE ->
  exists p' s', fw_platform_init fdt p s = Ret p' s' /\
    hart_count p' = Z.of_nat (length harts) /\
    hart_index2id p' = Some (harts ++ replicate (128 - length harts) 0) /\
    (forall h, 0 <= h < SBI_HARTMASK_MAX_BITS -> sbi_platform_hart_invalid (Some p') h = false <-> h ∈ harts) /\
    plat_name p' = model_name root (plat_name p) /\ features p' = features p /\ platform_ops p' = platform_ops p.
Proof.
  intros Hu Hcpus harts Hlen Hm Hn. pose proof Hu as [Hh H0 Hcl Hcpu]. destruct (lookup_special_eq fdt root s Hu) as [s1 E1].
  exists (mkPlat (opensbi_version p) (platform_version p) (model_name root (plat_name p)) (features p) (Z.of_nat (length harts))
    (hart_stack_size p) (platform_ops p) (Some (harts ++ replicate (128 - length harts) 0))), s1. split; [|split; [|split; [|split]]].
  - unfold fw_platform_init. rewrite (fdt_path_offset_root _ _ Hh 0 (cstring "/")) by (exists []; by vm_compute). cbn [lift]. mstep. change (0 <? 0) with false. cbv iota.
    rewrite (bind_ret_eq _ _ _ _ _ E1). destruct (model_copied fdt root p s1 Hh H0 Hm Hn) as (m & l & -> & En). cbn [lift]. mstep. cbv beta iota.
    rewrite (bind_ret_eq _ _ _ _ _ En).
    rewrite (fdt_path_offset_eq _ _ Hh 0 [chars "cpus"]) by (done || (exists []; by vm_compute) || (apply (bool_decide_unpack _); by vm_compute)).
    rewrite Hcpus. cbn [lift]. mstep. assert (Hc : node_of root cpus) by (eapply lookup_path_node; [constructor|done]).
    destruct (node_offset _ _ Hh cpus Hc) as [Ho _]. rewrite (proj2 (Z.ltb_ge (d_off cpus) 0)) by lia.
    rewrite (fdt_for_each_subnode_eq _ _ Hh cpus Hc). cbn [lift]. mstep.
    pose proof (cpus_loop_eq fdt root Hu (d_kids cpus) [] ltac:(intros k Hk; by apply (node_of_kid root cpus)) Hlen) as Ec.
    change (replicate (Z.to_nat SBI_HARTMASK_MAX_BITS) 0) with ([] ++ replicate (128 - length (@nil Z)) 0). change 0 with (Z.of_nat (length (@nil Z))) at 2.
    rewrite Ec. cbn [lift]. by mstep.
  - done.
  - done.
  - intros h Hr. unfold SBI_HARTMASK_MAX_BITS in Hr. match goal with |- sbi_platform_hart_invalid (Some ?q) _ = _ <-> _ =>
      rewrite (proj1 (sbi_platform_hart_invalid_spec q (harts ++ replicate (128 - length harts) 0) h eq_refl ltac:(cbn [hart_count]; lia))) end.
    cbn [hart_count]. rewrite list_elem_of_lookup. split.
    + intros (i & Hi & E). exists (Z.to_nat i). by rewrite lookup_app_l in E by lia.
    + intros (i & E). pose proof (lookup_lt_Some _ _ _ E). exists (Z.of_nat i). split; [lia|]. by rewrite Nat2Z.id, lookup_app_l by lia.
  - done.
Qed.

Lemma fw_platform_init_harts_witness :
  exists p' s', fw_platform_init demo_fdt (generic_platform no_ops) st0 = Ret p' s' /\ hart_count p' = 2 /\
    (sbi_platform_hart_invalid (Some p') 1 = false <-> 1 ∈ [0; 1]) /\
    take 8 (plat_name p') = chars "demoric" ++ [0].
Proof.
  assert (Eh : omap cpu_entry (d_kids (demo_node ["cpus"]%string)) = [0; 1]) by (vm_compute; reflexivity).
  destruct (fw_platform_init_harts demo_fdt demo_root (demo_node ["cpus"]%string) (generic_platform no_ops) st0 demo_usable)
    as (p' & s' & E & Hc & _ & Hv & Hn & _).
  - vm_compute. reflexivity.
  - rewrite Eh. repeat constructor.
  - intros q Hq. vm_compute in Hq. injection Hq as <-. vm_compute. reflexivity.
  - reflexivity.
  - exists p', s'. split; [exact E|]. split; [rewrite Hc, Eh; reflexivity|]. split.
    + rewrite Eh in Hv. apply Hv. split; [discriminate|reflexivity].
    + rewrite Hn. vm_compute. reflexivity.
Defined.
